(* ===== verification/_CoqProject ===== *)
-Q . S2P
Prelude.v
GoStrings.v
GoPaths.v
Effects.v
Kube.v
MultiStep.v
Naming.v
Reconciler.v
Patchers.v
Ownership.v
QuietRuns.v
ConfigTexts.v
Workers.v
ClusterValues.v
NodeSetCtl.v
NodeSetOutcome.v
Pattern.v
HostList.v
HostPattern.v
SlurmConfigs.v
ClusterObjects.v
ClusterCtl.v
ClusterRuns.v
ClusterOutcome.v
PodParts.v
WorkerPods.v
ClusterPods.v
Admission.v
NodeConfigurators.v
PowerManager.v
Tres.v
SlurmNode.v
NodeCache.v
SlurmJob.v
Exporter.v
ExporterScrape.v
ExporterTopology.v
RollingUpdate.v
Topology.v
TopologyCtl.v
Rebooter.v
K8sChecks.v
Recovery.v
SlurmNodesCtl.v
Tokens.v
Sconfig.v
JailFs.v
ActiveCheckJobs.v
ActiveCheckRuns.v
StorageCheck.v
ApiClients.v
ActiveChecks.v
CheckPods.v
CheckAccounts.v
Startup.v
