(* ===== verification/Prelude.v ===== *)
(** * soperator: a verification development

    soperator runs Slurm clusters on Kubernetes.  The operator and its satellites are Go
    programs that read the state of a cluster (Kubernetes objects, Slurm's REST API, files),
    decide, and issue requests; other programs do the same at the same time, and every request
    may fail.  This library models the parts in which those decisions are made, function by
    function, and proves what makes them correct.

    ** The program and the model

    The operator proper ([cmd/main.go]) turns custom resources into Kubernetes objects.

    - A SlurmCluster is reconciled by [internal/controller/clustercontroller]: [ClusterValues.v] computes the
      values ([internal/values]), [ConfigTexts.v] and [SlurmConfigs.v] write the configuration files
      (slurm.conf among them), [ClusterObjects.v] renders the objects ([internal/render]),
      [ClusterPods.v] their pods, [ClusterCtl.v] is the controller itself; [ClusterRuns.v] and [ClusterOutcome.v]
      follow a whole reconciliation.
    - A NodeSet, a group of Slurm nodes that run as pods of one StatefulSet, is reconciled by
      [internal/controller/nodesetcontroller]: [Workers.v] (values and objects), [WorkerPods.v] (the pod),
      [NodeSetCtl.v] (the controller), [NodeSetOutcome.v] (a whole reconciliation).
    - Both put every object through [internal/controller/reconciler]: [Reconciler.v] (create, replace,
      patch), [Patchers.v] (what is patched for each kind), in steps ([MultiStep.v]).
      [PodParts.v] has the containers and volumes that pods share, [Naming.v] names and labels.
    - A NodeConfigurator becomes a DaemonSet ([NodeConfigurators.v]).  [Admission.v] has the webhooks
      ([internal/webhook]).
    - [internal/controller/topologyconfcontroller] collects the topology labels of the nodes and writes
      Slurm's topology.conf: [Topology.v] (the graph and the text), [TopologyCtl.v] (the two
      controllers).
    - [internal/controller/updatecontroller] replaces the pods of an outdated worker StatefulSet
      ([RollingUpdate.v]): it reboots Slurm nodes within a budget and deletes pods that no longer run
      anything.

    The satellites keep the nodes healthy and Slurm informed.

    - A Kubernetes node is repaired by three programs that talk through its conditions
      ([internal/consts/conditions.go], [Kube.v]).  The Slurm nodes controller
      ([soperatorchecks/slurm_nodes_controller.go], [SlurmNodesCtl.v]) marks nodes as degraded,
      under maintenance or suspect once their Slurm nodes are drained.  The Kubernetes nodes
      controller ([soperatorchecks/k8s_nodes_controller.go], [soperatorchecks.go],
      [internal/check], [K8sChecks.v]) turns the marks into requests to drain and to
      reboot, clears them afterwards, and deletes nodes.  The rebooter
      ([internal/rebooter/reconcile.go], [Rebooter.v]), an agent on the node, carries the
      requests out.  [Recovery.v] composes the last two.
    - Active checks are jobs that test nodes: [ActiveChecks.v] (their controller), [CheckPods.v] and
      [CheckAccounts.v] (the pod and the account it runs under), [ActiveCheckJobs.v] and [ActiveCheckRuns.v] (what
      is made of the results).  [StorageCheck.v] drains nodes whose pods run out of ephemeral storage.
    - [internal/controller/sconfigcontroller] writes configuration files into the jail (the
      shared root file system of the workers) and makes Slurm read them: [Sconfig.v] (batches of replacements and
      the controller), [JailFs.v] (the file system with its path checks).
    - [cmd/powermanager/main.go] is what Slurm calls to power nodes up and down
      ([PowerManager.v]): it edits NodeSetPowerState objects under optimistic concurrency.
    - [internal/exporter] publishes metrics: [Exporter.v] (collection), [ExporterScrape.v] (the scrape),
      [ExporterTopology.v] (the cache of pods and nodes).
    - [internal/slurmapi] is the client of Slurm's REST API: [SlurmNode.v], [SlurmJob.v], [Tres.v] (trackable
      resources), [HostList.v] (host lists such as "worker-[0-2,5]"), [NodeCache.v] (a cache kept by a
      goroutine), [ApiClients.v] (the registry of clients), [Tokens.v] (its credentials: [internal/jwt],
      [internal/token-standalone]).  [internal/utils/slurm/pattern] prints host lists ([Pattern.v]).
    - [Startup.v] has what the programs decide from their flags: which controllers run, thresholds, and the
      options of the exporter.

    ** How the code is translated

    Definitions keep the names of the source; a record field has a prefix, and a name that several packages use
    has the package's.  Strings are byte strings, [int], [int32] and [int64] are [Z] with the range
    checks of [strconv] and the wrap-around of arithmetic written out where the code can reach it ([wrap],
    [countUp]); floats are the Standard Library's binary64 numbers.  Maps are [gmap]; where Go ranges over a map and the
    order could matter, the order is an argument ([order], [range], an association list) and the theorems
    hold for every order.  A [resource.Quantity] is the number of its nano-units, so that [Cmp] is exact and [Value] rounds up
    ([nano], [Quantity_Value]).

    A managed object ([Patchers.resource]) is its metadata with a body and a status that are JSON trees, flattened to
    maps from paths to leaves.  What the rendering computes is written into such trees; what it only passes on from a spec (probes, affinities,
    volume sources) is a subtree of it.  Containers, volumes and mounts are records, encoded by [PodParts.PodJSON].

    A fallible call returns an [outcome]: a value, an error (with the chain
    of wrapped and joined errors as far as the code inspects it), or [Halt] for a run-time panic or
    a loop that does not end.  A handler with effects is a function from worlds to worlds and
    outcomes ([M]).  Three kinds of worlds are used.  [RollingUpdate] logs commands against a list of
    faults, in which a request may be refused, or may take effect and still report an error
    ([Effects.v]).  [Reconciler] (and the controllers above it), [PowerManager], [Rebooter], [K8sChecks] and [Sconfig] have a
    server (objects, files), and a script of what the other clients do before each request, how much time passes, how far
    the cache lags and which requests are refused; theorems quantify over the whole script, or say
    "with no other client and no failing request" ([quiet]).  Goroutines ([NodeCache], [Exporter], the issuer in [Tokens]) are step
    relations, and the theorems are invariants of every interleaving.  What Slurm answers is an argument
    that may depend on everything done so far.

    The program logics: [Effects.v] has [traces] (what is issued and how it ends), [emits] (every command satisfies a
    predicate), [guards] (every command is justified by what was issued before it); [Ownership.v] compares a run
    with a store that only the other clients write; [QuietRuns.v] and [ClusterRuns.v] follow a controller through its requests.

    Interfaces are type classes: [Rendering] (pods and keys, for the cluster controller; [ClusterPods.rendered_pods] is the
    instance), [MergePatch] and [Patcher] (what the generic reconciler asks of a kind), [TokenIssuer] with
    [TokenIssuerSpec] (what the client asks of an issuer; both issuers meet it).  Third-party code is a parameter with its contract, each
    with a concrete instance in a witness: the placement of pods by OpenKruise ([KruiseOrdinals]), JSON ([JSON], [PodJSON]; what was
    written reads back, for ASCII text), the LRU cache ([ExpiringCacheSpec]), Slurm's reaction to a drain or resume
    ([StorageCheck.SlurmReaction]), signatures, Prometheus' durations.

    ** Fuel and bounds

    Loops of unknown length take their length as an argument and say so in the result: the
    attempts of [RetryOnConflict] (five in the code), the ticks of [waitForNodes], the pages of a listing, the polls
    of [pollSlurmNodesRestart].  When it is used up the outcome is an error where the code
    has a timeout and [Halt] where it would go on; theorems that promise a result ask for one
    attempt or one tick, and safety theorems hold for every length.  Where the length is known, the fuel is that length and
    enough: the ordinals of a NodeSet plus two ([Workers.reserve_ends]), the nodes left for the pages of a listing
    ([TopologyCtl]), the length of the text ([Startup.ParseDuration_total]); the kernel follows at most
    40 symbolic links ([JailFs]).

    ** What is proved

    The claims are numbered C1, C2, ... in the comments of the theorems, which also name the conditions under which each of them
    holds; the lines below only say what they are about.

    - Repair of nodes.  In an undisturbed world a degraded node goes through the whole cycle and is back in service
      ([Recovery.degraded_node_recovers]); a machine is rebooted only on request, with its pods
      gone and the Rebooting condition written ([Rebooter.reboot_only_when_requested]), and one reboot restores the node
      ([reboot_cycle]); a node is marked for reboot or replacement only when its
      Slurm nodes are idle, drained and not completing ([SlurmNodesCtl.condition_only_when_drained]),
      undrained only when the reason is over ([undrain_justified]), deleted only under maintenance or
      after the timeout ([K8sChecks.node_deleted_only_when], [not_ready_deleted_in_time]); events
      that the watch filter drops would change nothing ([filtered_update_irrelevant]).
    - Checks.  Every job of a run is counted and reacted to once ([ActiveCheckRuns.run_reported_once]); a check starts only
      when it may ([ActiveChecks.check_waits]), with its account in place ([CheckAccounts.check_account_ready]); the
      storage check, when nothing else drains or resumes the node, is a switch with two thresholds ([StorageCheck.storage_hysteresis]).
    - Rolling updates.  No pod is deleted that may run a job, the reboot budget holds, and only
      drains of the update itself are undone ([RollingUpdate.rolling_update_deletes_safely],
      [rolling_update_budget], [reconcile_undrains_only_its_own]).
    - Clusters and NodeSets.  Every managed object converges in one reconciliation ([Patchers.managed_converges]); nothing is deployed
      while the jail is populated, generated keys are kept, the phase tells the truth unless the database is external
      ([ClusterOutcome.jail_first], [secrets_kept], [phase_truthful]); a NodeSet's status says how far its
      pods are ([NodeSetOutcome.reconcile_outcome]), its pods are where they should be ([Workers.workers_at_ordinals]) and the nodes that the
      power manager activated are left alone ([NodeSetCtl.active_nodes_kept]); every mount of every pod refers to a declared
      volume ([WorkerPods.worker_pod_admissible], [ClusterPods.cluster_pods_admissible]); slurmd is told the memory that Slurm is
      told ([slurmd_memory_agrees]); admitted limits of users fit into their container ([Admission.admitted_isolation_fits]);
      slurm.conf refers only to what it defines ([SlurmConfigs.partition_references_defined]).
    - Power.  Updates are atomic against concurrent writers, have exactly the requested
      effect (but for the first resume of a NodeSet without a power state), and the waiting command agrees ([PowerManager.power_update_atomic],
      [power_action_exact], [power_action_then_wait]).
    - Files.  A finished batch is committed, an abandoned one is rolled back, Slurm is
      reconfigured only on synced files and success is reported only then
      ([Sconfig.batch_commit], [batch_rollback], [reconfigure_in_order], [restart_awaited]); the
      operations never leave the jail ([JailFs.jail_confined]).
    - Topology.  When the nodes agree on their tiers, topology.conf has every switch with exactly its nodes or switches and connects
      all of them; every node is where its labels put it, the text does not depend on iteration order, and it is published ([Topology.topology_complete],
      [topology_placement], [topology_text_deterministic], [block_topology_sound],
      [TopologyCtl.labels_roundtrip], [topology_published]).
    - Metrics and credentials.  The newest answer is shown, a scrape is well formed, the cache changes nothing
      ([Exporter.newest_answer_shown], [ExporterScrape.scrape_well_formed], [ExporterTopology.topology_through_cache]);
      tokens are genuine and fresh, and rotated once per interval ([Tokens.tokens_genuine], [standalone_rotation]).
    - Texts and numbers.  Printed host lists parse back ([HostPattern.Merge_roundtrip]) and
      depend only on the set of names; resources round trip ([Tres.tres_roundtrip]); memory figures
      are exact in their range; REST records convert or fail as stated ([SlurmNode.v],
      [SlurmJob.v]); cached nodes are never older than a bound ([NodeCache.cache_never_stale]); the options decide
      which controllers run ([Startup.controllers_selected]).
    - Behaviour that is probably not meant is proved too, as theorems
      ([resume_drops_first_ordinals], [restart_drains_again], [heartbeat_never_written]) or as
      closed examples beside the model.

    ** Files

    [Prelude] outcomes, the monad, shared lemmas and tactics; [GoStrings] and [GoPaths] the Go string, number and path
    functions used; [Effects] the program logic; [Kube] nodes, conditions, patches, retries; then one
    file per component as above.  [HostPattern] proves the properties that span printing and
    parsing of host lists, [Recovery] those that span controller and agent.

    ** Not modelled

    Watches, predicates and work queues (a reconciliation is a call; [SetupWithManager] and constructors are left out), events (but for the storage check) and
    logging; HTTP transport, retries and the decoding of answers; the generation of random keys and certificates and the conversion of
    affinities for MariaDB (arguments of the rendering); the modes of directories in the jail; the HTTP servers and the informers of the
    exporter; the kubelet clients of the rebooter and of the storage check (their answers are arguments); the [flag] package and the rest of the entry points.  The
    declarations of API types with their validation by the API server, generated copies, fakes and the end-to-end tests are
    not program logic. *)

From Stdlib Require Export ZArith Lia.
From stdpp Require Export base gmap strings sorting numbers.
From stdpp Require Export list list_relations list_basics list_monad list_numbers.

(** ** Errors and outcomes *)

(** Reasons of a Kubernetes API status error that the operator branches on. *)
Inductive api_reason := NotFound | AlreadyExists | Conflict | OtherAPI.

Global Instance api_reason_eq_dec : EqDecision api_reason.
Proof. solve_decision. Defined.

(** Go errors, as far as the code inspects them: the text, the wrapping chain
    ([fmt.Errorf] with a [%w] verb), [errors.Join], Kubernetes API status errors
    and the typed [PodNotEvictableError] of the rebooter. *)
Inductive gerror :=
| ErrMsg (msg : string)
| ErrWrap (msg : string) (e : gerror)
| ErrJoin (e1 e2 : gerror)
| ErrAPI (r : api_reason)
| ErrPodNotEvictable (pod : string).

Global Instance gerror_eq_dec : EqDecision gerror.
Proof. solve_decision. Defined.

(** The result of a Go call: a value, an error, or no return at all (a run-time
    panic, [os.Exit] or a loop that never ends). *)
Inductive outcome (A : Type) :=
| Ok (a : A)
| Err (e : gerror)
| Halt (why : string).
Arguments Ok {A} a.
Arguments Err {A} e.
Arguments Halt {A} why.

Global Instance outcome_eq_dec `{EqDecision A} : EqDecision (outcome A).
Proof. solve_decision. Defined.

Declare Scope go_scope.
Delimit Scope go_scope with go.
Open Scope go_scope.

(** [x, err := m; if err != nil { return err }; k]. *)
Definition obind {A B} (m : outcome A) (k : A → outcome B) : outcome B :=
  match m with Ok a => k a | Err e => Err e | Halt w => Halt w end.
Notation "'let?' x := m 'in' k" := (obind m (λ x, k))
  (at level 10, x pattern, m at level 200, k at level 200,
   format "'[v' let?  x  :=  m  in  '/' k ']'") : go_scope.

(** [fmt.Errorf("msg: %w", err)] on the error path of a call. *)
Definition wrap_err {A} (msg : string) (m : outcome A) : outcome A :=
  match m with Err e => Err (ErrWrap msg e) | _ => m end.

(** [errors.Join]: no error for the empty list. *)
Fixpoint errors_join (es : list gerror) : option gerror :=
  match es with
  | [] => None
  | e :: es =>
      match errors_join es with
      | None => Some e
      | Some r => Some (ErrJoin e r)
      end
  end.

(** [errors.As] to an API status error: the first one in the error tree. *)
Fixpoint as_api (e : gerror) : option api_reason :=
  match e with
  | ErrAPI r => Some r
  | ErrWrap _ e => as_api e
  | ErrJoin e1 e2 => match as_api e1 with Some r => Some r | None => as_api e2 end
  | _ => None
  end.

Definition IsNotFound (e : gerror) : bool := bool_decide (as_api e = Some NotFound).
Definition IsConflict (e : gerror) : bool := bool_decide (as_api e = Some Conflict).
Definition IsAlreadyExists (e : gerror) : bool :=
  bool_decide (as_api e = Some AlreadyExists).

(** [client.IgnoreNotFound]. *)
Definition IgnoreNotFound {A} (dflt : A) (m : outcome A) : outcome A :=
  match m with
  | Err e => if IsNotFound e then Ok dflt else Err e
  | _ => m
  end.

(** ** Stateful code

    A Go function that acts on a world [W] (the API server, the file system, a
    Slurm controller) is a function from worlds to worlds and outcomes: what was
    written before an error stays written. *)
Definition M (W A : Type) : Type := W → W * outcome A.
Definition ret {W A} (a : A) : M W A := λ w, (w, Ok a).
Definition bind {W A B} (m : M W A) (k : A → M W B) : M W B := λ w,
  match m w with
  | (w', Ok a) => k a w'
  | (w', Err e) => (w', Err e)
  | (w', Halt s) => (w', Halt s)
  end.
Notation "'let!' x := m 'in' k" := (bind m (λ x, k))
  (at level 10, x pattern, m at level 200, k at level 200,
   format "'[v' let!  x  :=  m  in  '/' k ']'") : go_scope.
Notation "'do!' m ; k" := (bind m (λ _ : (), k))
  (at level 10, m at level 200, k at level 200,
   format "'[v' do!  m ;  '/' k ']'") : go_scope.

(** The error as a value, for [if err := f(); err != nil]. *)
Definition attempt {W A} (m : M W A) : M W (A + gerror) := λ w,
  match m w with
  | (w', Ok a) => (w', Ok (inl a))
  | (w', Err e) => (w', Ok (inr e))
  | (w', Halt s) => (w', Halt s)
  end.
Definition fail {W A} (e : gerror) : M W A := λ w, (w, Err e).
Definition halt {W A} (s : string) : M W A := λ w, (w, Halt s).
Definition lift {W A} (o : outcome A) : M W A := λ w, (w, o).
Definition gets {W A} (f : W → A) : M W A := λ w, (w, Ok (f w)).
Definition modify {W} (f : W → W) : M W () := λ w, (f w, Ok tt).
Definition wrapM {W A} (msg : string) (m : M W A) : M W A := λ w,
  let '(w', o) := m w in (w', wrap_err msg o).

(** [for _, x := range xs { if err := f(x); err != nil { return err } }]. *)
Fixpoint forM {W A} (xs : list A) (f : A → M W ()) : M W () :=
  match xs with
  | [] => ret tt
  | x :: xs => do! f x; forM xs f
  end.

(** Steps whose result is known. *)
Lemma bind_ok {W A B} (m : M W A) (k : A → M W B) w w' a : m w = (w', Ok a) → bind m k w = k a w'.
Proof. unfold bind. by intros ->. Qed.
Lemma wrapM_ok {W A} msg (m : M W A) w w' a : m w = (w', Ok a) → wrapM msg m w = (w', Ok a).
Proof. unfold wrapM. by intros ->. Qed.

(** Successful runs, taken apart. *)
Lemma bind_inv {W A B} (m : M W A) (k : A → M W B) w w' b :
  bind m k w = (w', Ok b) → ∃ a w1, m w = (w1, Ok a) ∧ k a w1 = (w', Ok b).
Proof. unfold bind. destruct (m w) as [w1 [a|e|s]]; [|done..]. eauto. Qed.
Lemma wrapM_inv {W A} msg (m : M W A) w w' a : wrapM msg m w = (w', Ok a) → m w = (w', Ok a).
Proof. unfold wrapM. destruct (m w) as [w1 [x|e|s]]; simpl; congruence. Qed.

(** ** Automation *)

(** Membership in a literal list, as a goal and as a hypothesis. *)
Ltac in_list := solve [repeat (first [apply list_elem_of_here | apply list_elem_of_further])].
Ltac elem_cases H :=
  repeat (apply elem_of_cons in H as [H|H]); try (by apply not_elem_of_nil in H).

(** ** Quantities
    A [resource.Quantity] is a number of billionths of its unit, the finest it can be; [Value] rounds up to whole units, away from zero. *)
Definition nano : Z := 1000000000.
Definition Quantity_Value (q : Z) : Z := if (0 <=? q)%Z then (- ((- q) `div` nano))%Z else (q `div` nano)%Z.
Lemma Value_bounds q : (0 ≤ q → q ≤ Quantity_Value q * nano < q + nano)%Z.
Proof.
  intros Hq. unfold Quantity_Value. destruct (Z.leb_spec 0 q); [|lia]. unfold nano.
  pose proof (Z.div_mod (- q) 1000000000 ltac:(done)). pose proof (Z.mod_pos_bound (- q) 1000000000 ltac:(done)). lia.
Qed.
Lemma Value_mono q r : (0 ≤ q ≤ r → Quantity_Value q ≤ Quantity_Value r)%Z.
Proof. intros H. pose proof (Value_bounds q). pose proof (Value_bounds r). unfold nano in *. nia. Qed.
Lemma Value_whole n : (0 ≤ n → Quantity_Value (n * nano) = n)%Z.
Proof. intros H. pose proof (Value_bounds (n * nano)). unfold nano in *. nia. Qed.

(** ** Generic lemmas *)

(** Sorting forgets the order: the reason why ranging over a Go map in an
    arbitrary order and sorting afterwards is deterministic. *)
Lemma sort_perm {A} (R : relation A) `{!RelDecision R, !Transitive R, !Total R, !AntiSymm (=) R}
    (l1 l2 : list A) :
  l1 ≡ₚ l2 → merge_sort R l1 = merge_sort R l2.
Proof.
  intros Hp. apply (StronglySorted_unique R).
  - apply (StronglySorted_merge_sort R).
  - apply (StronglySorted_merge_sort R).
  - by rewrite !(merge_sort_Permutation R).
Qed.
Lemma elem_of_sort {A} (R : relation A) `{!RelDecision R} (l : list A) x :
  x ∈ merge_sort R l ↔ x ∈ l.
Proof. by rewrite (merge_sort_Permutation R). Qed.
Lemma NoDup_sort {A} (R : relation A) `{!RelDecision R} (l : list A) :
  NoDup (merge_sort R l) ↔ NoDup l.
Proof. by rewrite (merge_sort_Permutation R). Qed.
Lemma sort_nil_iff {A} (R : relation A) `{!RelDecision R} (l : list A) :
  merge_sort R l = [] ↔ l = [].
Proof.
  split; [|by intros ->]. intros H. apply Permutation_nil_r.
  by rewrite <-H, (merge_sort_Permutation R).
Qed.
(** Two duplicate-free lists with the same elements are sorted alike. *)
Lemma sort_same_elements {A} (R : relation A)
    `{!RelDecision R, !Transitive R, !Total R, !AntiSymm (=) R} (l1 l2 : list A) :
  NoDup l1 → NoDup l2 → (∀ x, x ∈ l1 ↔ x ∈ l2) → merge_sort R l1 = merge_sort R l2.
Proof. intros. apply (sort_perm R). by apply NoDup_Permutation. Qed.

Lemma filter_nil_iff {A} (P : A → Prop) `{!∀ x, Decision (P x)} (l : list A) :
  filter P l = [] ↔ ∀ x, x ∈ l → ¬ P x.
Proof.
  split.
  - intros Hn x Hx HP. assert (x ∈ filter P l) as Hf by (by apply list_elem_of_filter).
    rewrite Hn in Hf. by apply not_elem_of_nil in Hf.
  - intros Hn. destruct (filter P l) as [|x r] eqn:E; [done|].
    assert (x ∈ filter P l) as Hf by (rewrite E; apply list_elem_of_here).
    apply list_elem_of_filter in Hf as [HP Hx]. by destruct (Hn x Hx).
Qed.

Lemma filter_all {A} (P : A → Prop) `{!∀ x, Decision (P x)} (l : list A) :
  (∀ x, x ∈ l → P x) → filter P l = l.
Proof.
  induction l as [|x l IH]; intros HP; [done|]. rewrite filter_cons_True by (apply HP; left).
  f_equal. apply IH. intros. apply HP. by right.
Qed.
Lemma filter_full {A} (P : A → Prop) `{!∀ x, Decision (P x)} (l : list A) :
  length (filter P l) = length l → filter P l = l.
Proof.
  intros Hl. apply filter_all. intros x Hx. destruct (decide (P x)) as [|HP]; [done|].
  pose proof (length_filter_lt P l x Hx HP). lia.
Qed.

Lemma forallb_elem {A} (f : A → bool) (l : list A) :
  forallb f l = true ↔ ∀ x, x ∈ l → f x = true.
Proof.
  rewrite forallb_forall. by setoid_rewrite list_elem_of_In.
Qed.
Lemma existsb_elem {A} (f : A → bool) (l : list A) :
  existsb f l = true ↔ ∃ x, x ∈ l ∧ f x = true.
Proof.
  rewrite existsb_exists. by setoid_rewrite list_elem_of_In.
Qed.

(** ** Lists as sets *)
Definition same_elements {A} (l1 l2 : list A) : Prop := ∀ x, x ∈ l1 ↔ x ∈ l2.
Global Instance same_elements_equiv {A} : Equivalence (@same_elements A).
Proof.
  split.
  - by intros l x.
  - intros l1 l2 Hs x. by symmetry.
  - intros l1 l2 l3 H1 H2 x. by transitivity (x ∈ l2).
Qed.
Global Instance elem_of_same {A} :
  Proper ((=) ==> same_elements ==> iff) (elem_of : A → list A → Prop).
Proof. intros x _ <- l1 l2 Hs. apply Hs. Qed.
Global Instance Permutation_same {A} : subrelation Permutation (@same_elements A).
Proof. intros l1 l2 Hp x. by rewrite Hp. Qed.

Lemma same_elements_nil {A} (l : list A) : same_elements [] l ↔ l = [].
Proof.
  split; [|by intros ->]. destruct l as [|x l]; [done|]. intros H.
  assert (x ∈ @nil A) as ?%not_elem_of_nil by (apply H; left). done.
Qed.
Lemma same_elements_filter {A} (P : A → Prop) `{!∀ x, Decision (P x)} (l1 l2 : list A) :
  same_elements l1 l2 → same_elements (filter P l1) (filter P l2).
Proof. intros Hs x. rewrite !list_elem_of_filter. by rewrite Hs. Qed.
