(* ===== verification/GoStrings.v ===== *)
(** * Go strings and decimal numbers

    The part of Go's [strings], [strconv] and [fmt] packages the modelled code
    uses, on byte strings.  White space and letter case are those of ASCII: the
    strings the program handles (Kubernetes names, Slurm host lists, label
    values) are ASCII. *)
From S2P Require Import Prelude.
From Stdlib Require Import Ascii.
From Stdlib Require String.

(** ** Characters *)
Definition is_digit (c : ascii) : bool :=
  (48 <=? Z.of_N (N_of_ascii c))%Z && (Z.of_N (N_of_ascii c) <=? 57)%Z.
Definition digit_val (c : ascii) : Z := Z.of_N (N_of_ascii c) - 48.
Definition digit_char (d : Z) : ascii := ascii_of_N (Z.to_N (48 + d)).

(** ** Pieces of strings *)
Fixpoint str_take (n : nat) (s : string) : string :=
  match n, s with
  | S n, String c s => String c (str_take n s)
  | _, _ => EmptyString
  end.
Fixpoint str_drop (n : nat) (s : string) : string :=
  match n, s with
  | S n, String _ s => str_drop n s
  | _, _ => s
  end.
Fixpoint str_forallb (f : ascii → bool) (s : string) : bool :=
  match s with
  | EmptyString => true
  | String c s => f c && str_forallb f s
  end.
(** [strings.HasPrefix], [strings.TrimPrefix], [strings.Contains]. *)
Definition HasPrefix (s p : string) : bool := String.prefix p s.
Definition TrimPrefix (s p : string) : string :=
  if HasPrefix s p then str_drop (String.length p) s else s.
Fixpoint Contains (s sub : string) : bool :=
  HasPrefix s sub ||
  match s with EmptyString => false | String _ s => Contains s sub end.
(** [strings.LastIndex] of a one-character string. *)
Fixpoint LastIndex (s : string) (c : ascii) : option nat :=
  match s with
  | EmptyString => None
  | String d s =>
      match LastIndex s c with
      | Some i => Some (S i)
      | None => if Ascii.eqb d c then Some 0%nat else None
      end
  end.
(** [strings.TrimSpace]. *)
Fixpoint trim_left (s : string) : string :=
  match s with
  | EmptyString => EmptyString
  | String c s' => if Ascii.is_space c then trim_left s' else s
  end.
Fixpoint trim_right (s : string) : string :=
  match s with
  | EmptyString => EmptyString
  | String c s =>
      match trim_right s with
      | EmptyString => if Ascii.is_space c then EmptyString else String c EmptyString
      | r => String c r
      end
  end.
Definition TrimSpace (s : string) : string := trim_right (trim_left s).
(** [strings.ToLower]. *)
Definition lower_char (c : ascii) : ascii :=
  let n := N_of_ascii c in
  if (65 <=? n)%N && (n <=? 90)%N then ascii_of_N (n + 32) else c.
Definition upper_char (c : ascii) : ascii :=
  let n := N_of_ascii c in
  if (97 <=? n)%N && (n <=? 122)%N then ascii_of_N (n - 32) else c.
Fixpoint str_map (f : ascii → ascii) (s : string) : string :=
  match s with EmptyString => EmptyString | String c s => String (f c) (str_map f s) end.
Definition ToLower : string → string := str_map lower_char.
Definition ToUpper : string → string := str_map upper_char.

(** [strings.Split] on a one-character separator. *)
Fixpoint Split (s : string) (sep : ascii) : list string :=
  match s with
  | EmptyString => [EmptyString]
  | String c s =>
      if Ascii.eqb c sep then EmptyString :: Split s sep
      else match Split s sep with
           | [] => [String c EmptyString]
           | h :: t => String c h :: t
           end
  end.
(** [strings.SplitN(s, sep, 2)]: the text before and after the first [sep]. *)
Fixpoint cut (s sep : string) : option (string * string) :=
  if HasPrefix s sep then Some (EmptyString, str_drop (String.length sep) s)
  else match s with
       | EmptyString => None
       | String c s => '(a, b) ← cut s sep; Some (String c a, b)
       end.
Definition SplitN2 (s sep : string) : list string :=
  match cut s sep with Some (a, b) => [a; b] | None => [s] end.
(** [strings.Join]. *)
Definition newline : string := String "010" "".
Fixpoint Join (l : list string) (sep : string) : string :=
  match l with
  | [] => EmptyString
  | [x] => x
  | x :: l => x +:+ sep +:+ Join l sep
  end.

(** ** Decimal numbers *)
Fixpoint digits_val (acc : Z) (s : string) : Z :=
  match s with
  | EmptyString => acc
  | String c s => digits_val (acc * 10 + digit_val c) s
  end.
Definition isDigits : string → bool := str_forallb is_digit.

(** Decimal digits of a non-negative number, most significant first; [fuel]
    bounds the number of digits. *)
Fixpoint print_digits (fuel : nat) (n : Z) (acc : string) : string :=
  match fuel with
  | O => acc
  | S fuel =>
      let acc := String (digit_char (n `mod` 10)) acc in
      if (n <? 10)%Z then acc else print_digits fuel (n `div` 10) acc
  end.
Definition print_nonneg (n : Z) : string := print_digits (S (Z.to_nat (Z.log2 n))) n EmptyString.
(** [strconv.Itoa] and [strconv.FormatInt(n, 10)]. *)
Definition Itoa (n : Z) : string :=
  if (n <? 0)%Z then String "-" (print_nonneg (- n)) else print_nonneg n.
Fixpoint zeros (k : nat) : string :=
  match k with O => EmptyString | S k => String "0" (zeros k) end.
(** [fmt.Sprintf("%0*d", width, n)]: zero padding goes after the sign. *)
Definition PadInt (width : nat) (n : Z) : string :=
  if (n <? 0)%Z
  then let s := print_nonneg (- n) in
       String "-" (zeros (width - 1 - String.length s) +:+ s)
  else let s := print_nonneg n in zeros (width - String.length s) +:+ s.

Definition max_int (bits : Z) : Z := 2 ^ (bits - 1) - 1.
Definition min_int (bits : Z) : Z := - 2 ^ (bits - 1).
(** [strconv.ParseInt(s, 10, bits)]: an optional sign, then at least one digit;
    [None] for a syntax or a range error. *)
Definition ParseInt (bits : Z) (s : string) : option Z :=
  let '(neg, body) :=
    match s with
    | String "-" r => (true, r)
    | String "+" r => (false, r)
    | _ => (false, s)
    end in
  if String.eqb body EmptyString || negb (isDigits body) then None
  else let v := digits_val 0 body in
       let v := (if (neg : bool) then - v else v)%Z in
       if (min_int bits <=? v)%Z && (v <=? max_int bits)%Z then Some v else None.
(** [strconv.Atoi]: [int] has 64 bits on the supported platforms. *)
Definition Atoi : string → option Z := ParseInt 64.

Example Itoa_ex : (Itoa 0, Itoa 1203, Itoa (-45), PadInt 4 7, PadInt 2 123, PadInt 4 (-5))
  = ("0", "1203", "-45", "0007", "123", "-005").
Proof. reflexivity. Qed.
Example Split_ex : Split "a,,b" "," = ["a"; ""; "b"]. Proof. reflexivity. Qed.
Example Atoi_ex : (Atoi "+07", Atoi "-", Atoi "9223372036854775807", Atoi "9223372036854775808", Atoi "-9223372036854775808")
 = (Some 7%Z, None, Some 9223372036854775807%Z, None, Some (-9223372036854775808)%Z). Proof. reflexivity. Qed.
Example Trim_ex : TrimSpace "  a b  " = "a b". Proof. reflexivity. Qed.
Example cut_ex : cut "a: b: c" ": " = Some ("a", "b: c"). Proof. reflexivity. Qed.

(** ** Lemmas on pieces *)
Create Rewrite HintDb gostr.

Lemma str_app_nil_l s : EmptyString +:+ s = s.
Proof. reflexivity. Qed.
Lemma str_app_cons c s t : String c s +:+ t = String c (s +:+ t).
Proof. reflexivity. Qed.
Lemma str_app_nil_r s : s +:+ EmptyString = s.
Proof. induction s as [|c s IH]; [done|]. by rewrite str_app_cons, IH. Qed.
Lemma str_app_assoc s t u : (s +:+ t) +:+ u = s +:+ (t +:+ u).
Proof. induction s as [|c s IH]; [done|]. by rewrite !str_app_cons, IH. Qed.
Lemma str_length_app s t :
  String.length (s +:+ t) = (String.length s + String.length t)%nat.
Proof. induction s as [|c s IH]; [done|]. rewrite str_app_cons. simpl. by rewrite IH. Qed.
#[export] Hint Rewrite str_app_nil_l str_app_cons str_app_nil_r str_app_assoc str_length_app : gostr.

Lemma str_app_eq_nil s t : s +:+ t = EmptyString → s = EmptyString ∧ t = EmptyString.
Proof. destruct s; [done|by rewrite str_app_cons]. Qed.

Lemma str_rev_ind (P : string → Prop) :
  P EmptyString → (∀ s c, P s → P (s +:+ String c EmptyString)) → ∀ s, P s.
Proof.
  intros H0 Hs s.
  assert (∀ l : list ascii, P (String.string_of_list_ascii l)) as HP.
  { induction l as [|c l IH] using rev_ind; [done|].
    replace (String.string_of_list_ascii (l ++ [c]))
      with (String.string_of_list_ascii l +:+ String c EmptyString); [by apply Hs|].
    clear IH. induction l as [|d l IH]; [done|]. simpl. by rewrite str_app_cons, IH. }
  rewrite <-(String.string_of_list_ascii_of_string s). apply HP.
Qed.

Lemma str_forallb_app f s t : str_forallb f (s +:+ t) = str_forallb f s && str_forallb f t.
Proof. induction s as [|c s IH]; [done|]. rewrite str_app_cons. simpl. by rewrite IH, andb_assoc. Qed.
Lemma str_forallb_impl (f g : ascii → bool) s :
  (∀ c, f c = true → g c = true) → str_forallb f s = true → str_forallb g s = true.
Proof.
  intros Hfg. induction s as [|c s IH]; simpl; [done|].
  rewrite !andb_true_iff. intros [? ?]; auto.
Qed.

Lemma str_take_length_app s t : str_take (String.length s) (s +:+ t) = s.
Proof. induction s as [|c s IH]; [by destruct t|]. rewrite str_app_cons. simpl. by rewrite IH. Qed.
Lemma str_drop_length_app s t : str_drop (String.length s) (s +:+ t) = t.
Proof. induction s as [|c s IH]; [by destruct t|]. rewrite str_app_cons. simpl. by rewrite IH. Qed.
Lemma str_take_drop n s : str_take n s +:+ str_drop n s = s.
Proof.
  revert s. induction n as [|n IH]; intros [|c s]; try done.
  simpl. by rewrite str_app_cons, IH.
Qed.

Lemma HasPrefix_spec s p : HasPrefix s p = true ↔ ∃ r, s = p +:+ r.
Proof.
  unfold HasPrefix. revert s. induction p as [|c p IH]; intros s.
  { split; [exists s|destruct s]; done. }
  destruct s as [|d s]; simpl.
  { split; [done|]. intros [r Hr]. by rewrite str_app_cons in Hr. }
  destruct (ascii_dec c d) as [->|Hne].
  - rewrite IH. split; intros [r Hr]; exists r; rewrite str_app_cons in *; congruence.
  - split; [done|]. intros [r Hr]. rewrite str_app_cons in Hr. congruence.
Qed.
Lemma HasPrefix_app s t : HasPrefix (s +:+ t) s = true.
Proof. apply HasPrefix_spec. by exists t. Qed.
Lemma TrimPrefix_app s t : TrimPrefix (s +:+ t) s = t.
Proof. unfold TrimPrefix. by rewrite HasPrefix_app, str_drop_length_app. Qed.

Lemma LastIndex_Some s c i :
  LastIndex s c = Some i →
  ∃ p r, s = p +:+ String c r ∧ String.length p = i ∧
         str_forallb (λ d, negb (Ascii.eqb d c)) r = true.
Proof.
  revert i. induction s as [|d s IH]; intros i; simpl; [done|].
  destruct (LastIndex s c) as [j|] eqn:E.
  - intros [= <-]. destruct (IH j eq_refl) as (p & r & -> & <- & Hr).
    by exists (String d p), r.
  - destruct (Ascii.eqb_spec d c) as [->|]; [|done]. intros [= <-].
    exists EmptyString, s. split; [done|]. split; [done|]. clear IH.
    revert E. induction s as [|e s IH]; simpl; [done|].
    destruct (LastIndex s c); [done|]. destruct (Ascii.eqb e c); [done|]. auto.
Qed.
Lemma LastIndex_app p c r :
  str_forallb (λ d, negb (Ascii.eqb d c)) r = true →
  LastIndex (p +:+ String c r) c = Some (String.length p).
Proof.
  intros Hr. assert (LastIndex r c = None) as HN.
  { induction r as [|d r IH]; simpl in *; [done|].
    apply andb_true_iff in Hr as [Hd Hr]. rewrite IH by done.
    by destruct (Ascii.eqb d c). }
  induction p as [|d p IH]; rewrite ?str_app_nil_l, ?str_app_cons; simpl.
  - by rewrite HN, Ascii.eqb_refl.
  - by rewrite IH.
Qed.

(** ** Splitting, joining, trimming *)
Definition no_char (c : ascii) : string → bool := str_forallb (λ d, negb (Ascii.eqb d c)).

Lemma Split_no_char s c : no_char c s = true → Split s c = [s].
Proof.
  unfold no_char. induction s as [|d s IH]; simpl; [done|].
  rewrite andb_true_iff. intros [Hd Hs]. rewrite IH by done.
  by destruct (Ascii.eqb d c).
Qed.
Lemma Split_app_sep s t c :
  no_char c s = true → Split (s +:+ String c t) c = s :: Split t c.
Proof.
  unfold no_char. induction s as [|d s IH]; simpl.
  - intros _. by rewrite Ascii.eqb_refl.
  - rewrite andb_true_iff. intros [Hd Hs].
    rewrite IH by done. by destruct (Ascii.eqb d c).
Qed.
(** Splitting what was joined gives the parts back, when no part holds the
    separator. *)
Lemma Split_Join l c :
  l ≠ [] → Forall (λ s, no_char c s = true) l →
  Split (Join l (String c EmptyString)) c = l.
Proof.
  intros Hne Hl. induction Hl as [|x l Hx Hl IH]; [done|].
  destruct l as [|y l]; [by apply Split_no_char|].
  change (Join (x :: y :: l) (String c EmptyString))
    with (x +:+ String c (Join (y :: l) (String c EmptyString))).
  rewrite Split_app_sep by done. by rewrite IH.
Qed.

Lemma Split_parts s c : Forall (λ x, no_char c x = true) (Split s c).
Proof.
  induction s as [|d s IH]; simpl; [by repeat constructor|]. destruct (Ascii.eqb d c) eqn:Ec; [by constructor|].
  destruct (Split s c) as [|h l]; [repeat constructor|inversion IH; subst; constructor; [|done]];
    unfold no_char in *; simpl; rewrite Ec; simpl; done.
Qed.

Definition no_space : string → bool := str_forallb (λ c, negb (Ascii.is_space c)).
Lemma trim_left_no_space s : no_space s = true → trim_left s = s.
Proof. unfold no_space. destruct s as [|c s]; simpl; [done|]. by destruct (Ascii.is_space c). Qed.
Lemma trim_right_no_space s : no_space s = true → trim_right s = s.
Proof.
  unfold no_space. induction s as [|c s IH]; simpl; [done|]. rewrite andb_true_iff. intros [Hc Hs].
  rewrite IH by done. destruct s; [by destruct (Ascii.is_space c)|done].
Qed.
Lemma TrimSpace_no_space s : no_space s = true → TrimSpace s = s.
Proof. intros H. unfold TrimSpace. rewrite trim_left_no_space by done. by apply trim_right_no_space. Qed.

(** ** Decimal round trips *)
Lemma digit_char_spec d :
  (0 ≤ d < 10)%Z → is_digit (digit_char d) = true ∧ digit_val (digit_char d) = d.
Proof.
  intros Hd. assert (d = 0 ∨ d = 1 ∨ d = 2 ∨ d = 3 ∨ d = 4 ∨ d = 5 ∨ d = 6 ∨ d = 7 ∨ d = 8 ∨ d = 9)%Z
    as Hc by lia. by destruct_or! Hc; subst d.
Qed.
Lemma digit_val_spec c :
  is_digit c = true → (0 ≤ digit_val c < 10)%Z ∧ digit_char (digit_val c) = c.
Proof.
  unfold is_digit, digit_val, digit_char. rewrite andb_true_iff, !Z.leb_le. intros [H1 H2].
  split; [lia|]. replace (Z.to_N (48 + (Z.of_N (N_of_ascii c) - 48))) with (N_of_ascii c) by lia.
  apply ascii_N_embedding.
Qed.

Lemma digits_val_app a s t : digits_val a (s +:+ t) = digits_val (digits_val a s) t.
Proof. revert a. induction s as [|c s IH]; intros a; [done|]. rewrite str_app_cons. simpl. apply IH. Qed.
Lemma digits_val_nonneg a s : (0 ≤ a)%Z → isDigits s = true → (0 ≤ digits_val a s)%Z.
Proof.
  unfold isDigits. revert a. induction s as [|c s IH]; intros a Ha; simpl; [done|].
  rewrite andb_true_iff. intros [Hc Hs]. apply IH; [|done].
  apply digit_val_spec in Hc as [? _]. lia.
Qed.

Lemma print_digits_acc f n acc : print_digits f n acc = print_digits f n EmptyString +:+ acc.
Proof.
  revert n acc. induction f as [|f IH]; intros n acc; simpl; [done|].
  case_match; [done|].
  rewrite IH. rewrite (IH _ (String _ EmptyString)). by rewrite str_app_assoc.
Qed.
Lemma print_digits_fuel f1 f2 n acc :
  (0 ≤ n)%Z → (n < 2 ^ Z.of_nat f1)%Z → (n < 2 ^ Z.of_nat f2)%Z → f1 ≠ 0%nat → f2 ≠ 0%nat →
  print_digits f1 n acc = print_digits f2 n acc.
Proof.
  revert f2 n acc. induction f1 as [|f1 IH]; intros f2 n acc Hn H1 H2 Hf1 Hf2; [done|].
  destruct f2 as [|f2]; [done|]. simpl.
  destruct (Z.ltb_spec n 10); [done|].
  rewrite Nat2Z.inj_succ, Z.pow_succ_r in H1, H2 by lia.
  apply IH.
  - apply Z.div_pos; lia.
  - apply Z.div_lt_upper_bound; lia.
  - apply Z.div_lt_upper_bound; lia.
  - intros ->. simpl in H1. lia.
  - intros ->. simpl in H2. lia.
Qed.
Lemma log2_fuel n : (0 ≤ n)%Z → (n < 2 ^ Z.of_nat (S (Z.to_nat (Z.log2 n))))%Z.
Proof.
  intros Hn. rewrite Nat2Z.inj_succ, Z2Nat.id by apply Z.log2_nonneg.
  destruct (decide (n = 0%Z)) as [->|]; [done|]. apply Z.log2_spec. lia.
Qed.
Lemma print_nonneg_small n :
  (0 ≤ n < 10)%Z → print_nonneg n = String (digit_char n) EmptyString.
Proof.
  intros Hn. unfold print_nonneg. simpl.
  destruct (Z.ltb_spec n 10); [|lia]. by rewrite Z.mod_small.
Qed.
Lemma print_nonneg_step n :
  (10 ≤ n)%Z →
  print_nonneg n = print_nonneg (n `div` 10) +:+ String (digit_char (n `mod` 10)) EmptyString.
Proof.
  intros Hn. unfold print_nonneg at 1. simpl.
  destruct (Z.ltb_spec n 10); [lia|].
  rewrite print_digits_acc. f_equal. unfold print_nonneg.
  apply print_digits_fuel; [apply Z.div_pos; lia| | apply log2_fuel, Z.div_pos; lia | | done].
  - assert (n < 2 ^ Z.of_nat (S (Z.to_nat (Z.log2 n))))%Z as HL by (apply log2_fuel; lia).
    rewrite Nat2Z.inj_succ, Z.pow_succ_r in HL by lia. apply Z.div_lt_upper_bound; lia.
  - assert (1 ≤ Z.log2 n)%Z; [|lia]. apply Z.log2_le_pow2; lia.
Qed.
Lemma dec_ind (P : Z → Prop) :
  (∀ n, (0 ≤ n < 10)%Z → P n) → (∀ n, (10 ≤ n)%Z → P (n `div` 10)%Z → P n) →
  ∀ n, (0 ≤ n)%Z → P n.
Proof.
  intros H0 HS n. pattern n. apply (well_founded_induction (Z.lt_wf 0)). clear n.
  intros n IH Hn. destruct (Z_lt_le_dec n 10); [apply H0; lia|].
  apply HS; [done|]. apply IH; [|apply Z.div_pos; lia].
  split; [apply Z.div_pos; lia|apply Z.div_lt; lia].
Qed.

Lemma print_nonneg_spec n :
  (0 ≤ n)%Z →
  isDigits (print_nonneg n) = true ∧ digits_val 0 (print_nonneg n) = n ∧
  print_nonneg n ≠ EmptyString.
Proof.
  revert n. apply dec_ind; intros n Hn.
  - rewrite print_nonneg_small by done. destruct (digit_char_spec n Hn) as [H1 H2].
    unfold isDigits. simpl. rewrite H1. split_and!; [done|lia|done].
  - intros (H1 & H2 & _). rewrite print_nonneg_step by done.
    destruct (digit_char_spec (n `mod` 10)) as [H3 H4]; [apply Z.mod_pos_bound; lia|].
    unfold isDigits in *. rewrite str_forallb_app, digits_val_app. simpl.
    rewrite H1, H2, H3, H4. split_and!; [done| |].
    + rewrite (Z.div_mod n 10) at 3 by lia. lia.
    + intros [_ ?]%str_app_eq_nil. done.
Qed.

Lemma ParseInt_digits bits s :
  isDigits s = true → s ≠ EmptyString → (digits_val 0 s ≤ max_int bits)%Z → (0 < bits)%Z →
  ParseInt bits s = Some (digits_val 0 s).
Proof.
  intros Hd Hne Hmax Hb. assert (0 ≤ digits_val 0 s)%Z by (by apply digits_val_nonneg).
  assert (min_int bits ≤ 0)%Z by (unfold min_int; assert (0 < 2 ^ (bits - 1))%Z; [apply Z.pow_pos_nonneg|]; lia).
  unfold ParseInt.
  assert (match s with String "-" r => (true, r) | String "+" r => (false, r) | _ => (false, s) end
          = (false, s)) as ->.
  { destruct s as [|c s]; [done|]. unfold isDigits in Hd. simpl in Hd.
    apply andb_true_iff in Hd as [Hd _]. by destruct c as [[] [] [] [] [] [] [] []]. }
  rewrite Hd. destruct (String.eqb_spec s EmptyString); [done|]. simpl.
  destruct (Z.leb_spec (min_int bits) (digits_val 0 s)); [|lia].
  destruct (Z.leb_spec (digits_val 0 s) (max_int bits)); [done|lia].
Qed.
(** Parsing what was printed gives the number back, at every width it fits. *)
Lemma ParseInt_Itoa bits n :
  (0 ≤ n ≤ max_int bits)%Z → (0 < bits)%Z → ParseInt bits (Itoa n) = Some n.
Proof.
  intros Hn Hb. unfold Itoa. destruct (Z.ltb_spec n 0); [lia|].
  destruct (print_nonneg_spec n) as (H1 & H2 & H3); [lia|].
  rewrite ParseInt_digits; [by rewrite H2|done|done|by rewrite H2; lia|done].
Qed.

Lemma zeros_app j k : zeros (j + k) = zeros j +:+ zeros k.
Proof. induction j as [|j IH]; [done|]. simpl. by rewrite IH, str_app_cons. Qed.
Lemma length_zeros k : String.length (zeros k) = k.
Proof. induction k; simpl; congruence. Qed.

(** A run of digits is its number, zero padded. *)
Lemma digits_canonical s :
  isDigits s = true → s ≠ EmptyString →
  ∃ k, s = zeros k +:+ print_nonneg (digits_val 0 s).
Proof.
  revert s. refine (str_rev_ind _ _ _); [done|]. intros s c IH Hd _.
  unfold isDigits in *. rewrite str_forallb_app, andb_true_iff in Hd. simpl in Hd.
  destruct Hd as [Hs Hc]. rewrite andb_true_r in Hc.
  rewrite digits_val_app. simpl.
  destruct (digit_val_spec c Hc) as [Hr Hcc].
  destruct (decide (s = EmptyString)) as [->|Hne].
  { exists 0%nat. simpl. rewrite print_nonneg_small by lia.
    replace (0 * 10 + digit_val c)%Z with (digit_val c) by lia. by rewrite Hcc. }
  destruct (IH Hs Hne) as [k Hk].
  assert (0 ≤ digits_val 0 s)%Z as Hv by (by apply digits_val_nonneg).
  remember (digits_val 0 s) as v. clear Heqv IH.
  destruct (decide (v = 0%Z)) as [->|Hv0].
  - exists (k + 1)%nat. rewrite print_nonneg_small by lia.
    replace (0 * 10 + digit_val c)%Z with (digit_val c) by lia.
    rewrite Hcc, Hk, zeros_app. done.
  - exists k. rewrite print_nonneg_step by lia.
    replace ((v * 10 + digit_val c) `div` 10)%Z with v
      by (symmetry; rewrite Z.div_add_l by lia; rewrite Z.div_small by lia; lia).
    replace ((v * 10 + digit_val c) `mod` 10)%Z with (digit_val c)
      by (symmetry; rewrite Z.add_comm, Z.mod_add by lia; apply Z.mod_small; lia).
    rewrite Hcc, Hk at 1. by rewrite str_app_assoc.
Qed.
(** Printing at the width a run of digits was written with gives the run back. *)
Lemma Atoi_digits s n :
  isDigits s = true → s ≠ EmptyString → Atoi s = Some n → n = digits_val 0 s.
Proof.
  intros Hd Hne. unfold Atoi, ParseInt. destruct s as [|c s]; [done|].
  unfold isDigits in Hd. simpl in Hd. apply andb_true_iff in Hd as [Hc Hs].
  destruct c as [[] [] [] [] [] [] [] []]; simpl in Hc; try done; simpl; repeat case_match; naive_solver.
Qed.
Lemma PadInt_digits s :
  isDigits s = true → s ≠ EmptyString → PadInt (String.length s) (digits_val 0 s) = s.
Proof.
  intros Hd Hne. assert (0 ≤ digits_val 0 s)%Z as Hv by (by apply digits_val_nonneg).
  unfold PadInt. destruct (Z.ltb_spec (digits_val 0 s) 0); [lia|].
  destruct (digits_canonical s Hd Hne) as [k Hk].
  rewrite Hk at 1. rewrite str_length_app, length_zeros, Nat.add_sub. by rewrite <-Hk.
Qed.
Definition hasLeadingZero (s : string) : bool :=
  match s with String "0" (String _ _) => true | _ => false end.
(** Without a leading zero no width is needed. *)
Lemma PadInt_0_digits s :
  isDigits s = true → s ≠ EmptyString → hasLeadingZero s = false →
  PadInt 0 (digits_val 0 s) = s.
Proof.
  intros Hd Hne Hz. assert (0 ≤ digits_val 0 s)%Z as Hv by (by apply digits_val_nonneg).
  unfold PadInt. destruct (Z.ltb_spec (digits_val 0 s) 0); [lia|].
  destruct (digits_canonical s Hd Hne) as [k Hk]. simpl. rewrite str_app_nil_l.
  destruct k as [|k]; [done|]. exfalso.
  destruct (print_nonneg_spec _ Hv) as (_ & _ & H3).
  rewrite Hk in Hz. simpl in Hz.
  destruct (zeros k +:+ print_nonneg (digits_val 0 s)) eqn:E; [|done].
  by apply str_app_eq_nil in E as [_ ?].
Qed.
(** Numbers print as digits, whatever the width, and read back. *)
Lemma PadInt_spec w n :
  (0 ≤ n)%Z →
  isDigits (PadInt w n) = true ∧ digits_val 0 (PadInt w n) = n ∧ PadInt w n ≠ EmptyString.
Proof.
  intros Hn. unfold PadInt. destruct (Z.ltb_spec n 0); [lia|].
  destruct (print_nonneg_spec n Hn) as (H1 & H2 & H3). unfold isDigits in *.
  rewrite str_forallb_app, digits_val_app.
  generalize (w - String.length (print_nonneg n))%nat as k. intros k.
  assert (str_forallb is_digit (zeros k) = true ∧ digits_val 0 (zeros k) = 0%Z) as [-> ->]
    by (induction k; [done|]; done).
  rewrite H1. split_and!; [done|done|]. by intros [_ ?]%str_app_eq_nil.
Qed.
Lemma Atoi_PadInt w n : (0 ≤ n ≤ max_int 64)%Z → Atoi (PadInt w n) = Some n.
Proof.
  intros Hn. destruct (PadInt_spec w n) as (H1 & H2 & H3); [lia|].
  unfold Atoi. rewrite ParseInt_digits; [by rewrite H2|done|done|rewrite H2; lia|lia].
Qed.
Lemma print_nonneg_length_mono a b :
  (0 ≤ a ≤ b)%Z → (String.length (print_nonneg a) ≤ String.length (print_nonneg b))%nat.
Proof.
  intros [Ha Hab]. revert a Ha b Hab. refine (dec_ind _ _ _); intros a Ha.
  - intros b Hb. rewrite print_nonneg_small by done.
    destruct (print_nonneg_spec b) as (_ & _ & ?); [lia|].
    destruct (print_nonneg b); [done|]. simpl. lia.
  - intros IH b Hb. rewrite print_nonneg_step, (print_nonneg_step b) by lia.
    rewrite !str_length_app. simpl. specialize (IH (b `div` 10)%Z).
    assert (a `div` 10 ≤ b `div` 10)%Z by (apply Z.div_le_mono; lia). lia.
Qed.
(** The width read off the first number of a range prints the others as the
    group's own width does. *)
Lemma PadInt_range_width w a i :
  (0 ≤ a ≤ i)%Z → PadInt (String.length (PadInt w a)) i = PadInt w i.
Proof.
  intros Hai. unfold PadInt. destruct (Z.ltb_spec a 0), (Z.ltb_spec i 0); try lia.
  rewrite str_length_app, length_zeros.
  pose proof (print_nonneg_length_mono a i Hai). do 2 f_equal. lia.
Qed.

(** ** Machine integers *)

(** Two's complement wrap-around at a width. *)
Definition wrap (bits z : Z) : Z := (z + 2 ^ (bits - 1)) `mod` 2 ^ bits - 2 ^ (bits - 1).
Lemma wrap_small bits z : (0 < bits)%Z → (min_int bits ≤ z ≤ max_int bits)%Z → wrap bits z = z.
Proof.
  unfold min_int, max_int, wrap. intros Hb Hz.
  assert (2 ^ bits = 2 * 2 ^ (bits - 1))%Z as E.
  { rewrite <-Z.pow_succ_r by lia. f_equal. lia. }
  rewrite Z.mod_small by lia. lia.
Qed.
Lemma wrap_range bits z : (0 < bits)%Z → (min_int bits ≤ wrap bits z ≤ max_int bits)%Z.
Proof.
  intros Hb. unfold min_int, max_int, wrap.
  assert (2 ^ bits = 2 * 2 ^ (bits - 1))%Z as E.
  { rewrite <-Z.pow_succ_r by lia. f_equal. lia. }
  pose proof (Z.mod_pos_bound (z + 2 ^ (bits - 1)) (2 ^ bits)). lia.
Qed.

(** ** Cutting at a character *)
Lemma cut_char s t c :
  no_char c s = true → cut (s +:+ String c t) (String c EmptyString) = Some (s, t).
Proof.
  unfold no_char. induction s as [|d s IH]; simpl.
  - intros _. unfold HasPrefix. simpl. destruct (ascii_dec c c); [|done]. simpl. by destruct t.
  - rewrite andb_true_iff. intros [Hd Hs]. unfold HasPrefix. simpl.
    destruct (ascii_dec c d) as [<-|]; [by rewrite Ascii.eqb_refl in Hd|]. by rewrite IH.
Qed.
Lemma SplitN2_char s t c :
  no_char c s = true → SplitN2 (s +:+ String c t) (String c EmptyString) = [s; t].
Proof. intros H. unfold SplitN2. by rewrite cut_char. Qed.
Lemma no_char_app c s t : no_char c (s +:+ t) = no_char c s && no_char c t.
Proof. apply str_forallb_app. Qed.
