(* ===== verification/GoPaths.v ===== *)
(** * Slash-separated paths

    The functions of Go's [path] and, on Linux, [path/filepath] that the code uses: [IsAbs], [Clean], [Join], [Base] and [Dir].
    A path is a byte string; [abs] prints an absolute path from its segments, and on such paths the functions are list
    operations. *)
From S2P Require Import Prelude GoStrings.
From Stdlib Require Import Ascii.

Definition slash : ascii := "/".
Definition IsAbs (path : string) : bool := HasPrefix path "/".
(** The segments kept so far are in reverse. *)
Definition clean_step (rooted : bool) (stack : list string) (seg : string) : list string :=
  if String.eqb seg "" || String.eqb seg "." then stack
  else if String.eqb seg ".." then
    match stack with
    | [] => if rooted then [] else [".."]
    | top :: rest => if String.eqb top ".." then ".." :: stack else rest
    end
  else seg :: stack.
Definition clean_segments (rooted : bool) (segs : list string) : list string := reverse (foldl (clean_step rooted) [] segs).
Definition Clean (path : string) : string :=
  let rooted := IsAbs path in
  match clean_segments rooted (Split path slash) with
  | [] => if rooted then "/" else "."
  | segs => (if rooted then "/" else "") +:+ Join segs "/"
  end.
Fixpoint path_Join (elems : list string) : string :=
  match elems with
  | [] => ""
  | e :: rest => if String.eqb e "" then path_Join rest else Clean (Join elems "/")
  end.
Definition Base (path : string) : string :=
  if String.eqb path "" then "."
  else match last (filter (λ s, s ≠ "") (Split path slash)) with Some s => s | None => "/" end.
(** Everything up to the last slash. *)
Definition Dir (path : string) : string :=
  match LastIndex path slash with Some i => Clean (str_take (S i) path) | None => "." end.

Example Clean_ex : Clean "/a/./b//../../../c/" = "/c" ∧ Clean "a/../.." = ".." ∧ Clean "" = "." ∧ path_Join ["/mnt"; ""; "../x"] = "/x".
Proof. done. Qed.
Example Dir_ex : Dir "/mnt/jail/etc/slurm.conf" = "/mnt/jail/etc" ∧ Base "/mnt/jail/etc/slurm.conf" = "slurm.conf".
Proof. done. Qed.

(** ** Absolute paths and their segments *)
Definition abs (segs : list string) : string := "/" +:+ Join segs "/".
(** A name of a directory entry. *)
Definition plain (s : string) : Prop := s ≠ "" ∧ s ≠ "." ∧ s ≠ ".." ∧ no_char slash s = true.
Global Instance plain_dec s : Decision (plain s).
Proof. unfold plain. apply _. Defined.
(** The segments of a path that is free of dots. *)
Definition segments (path : string) : list string := filter (λ s, s ≠ "") (Split path slash).

Lemma Split_abs segs : Forall plain segs → filter (λ s, s ≠ "") (Split (abs segs) slash) = segs.
Proof.
  intros Hp. assert (filter (λ s, s ≠ "") segs = segs) as Hf by (induction Hp as [|s segs (Hne & _) _ IH]; [done|]; by rewrite filter_cons_True, IH).
  unfold abs. change ("/" +:+ Join segs "/") with (String "/" (Join segs "/")). simpl. rewrite filter_cons_False by naive_solver.
  destruct segs as [|s segs]; [done|]. rewrite Split_Join; [done|done|].
  eapply Forall_impl; [exact Hp|]. intros x (_ & _ & _ & Hx). exact Hx.
Qed.
Lemma segments_abs segs : Forall plain segs → segments (abs segs) = segs.
Proof. apply Split_abs. Qed.
Lemma abs_inj s1 s2 : Forall plain s1 → Forall plain s2 → abs s1 = abs s2 → s1 = s2.
Proof. intros H1 H2 He. by rewrite <-(segments_abs s1), <-(segments_abs s2), He. Qed.
Lemma Split_slash_free s : Forall (λ x, no_char slash x = true) (Split s slash).
Proof. apply Split_parts. Qed.
(** Segments that are no dots are names. *)
Definition dotless (segs : list string) : Prop := Forall (λ s, s ≠ "." ∧ s ≠ "..") segs.
Lemma segments_plain path : dotless (Split path slash) → Forall plain (segments path).
Proof.
  intros Hd. unfold segments. apply Forall_forall. intros s [Hne Hin]%list_elem_of_filter.
  unfold dotless in Hd. rewrite Forall_forall in Hd. specialize (Hd s Hin). destruct Hd as [H1 H2]. split_and!; [done..|].
  pose proof (Split_slash_free path) as Hs. rewrite Forall_forall in Hs. by apply Hs.
Qed.

Lemma clean_step_plain r stack s : plain s → clean_step r stack s = s :: stack.
Proof. intros (H1 & H2 & H3 & _). unfold clean_step. apply String.eqb_neq in H1, H2, H3. by rewrite H1, H2, H3. Qed.
Lemma clean_dotless r segs stack :
  dotless segs → foldl (clean_step r) stack segs = reverse (filter (λ s, s ≠ "") segs) ++ stack.
Proof.
  revert stack. induction segs as [|s segs IH]; intros stack Hd; [done|]. inversion Hd as [|? ? [H1 H2] Hd']; subst. simpl.
  rewrite IH by done. destruct (decide (s = "")) as [->|Hne].
  - by rewrite filter_cons_False by naive_solver.
  - rewrite filter_cons_True by done. rewrite reverse_cons, <-app_assoc. f_equal. unfold clean_step.
    apply String.eqb_neq in H1, H2, Hne. by rewrite H1, H2, Hne.
Qed.
Lemma Clean_dotless path : IsAbs path = true → dotless (Split path slash) → Clean path = abs (segments path).
Proof.
  intros Ha Hd. unfold Clean, clean_segments. rewrite Ha, clean_dotless, app_nil_r, reverse_involutive by done.
  unfold segments, abs. by destruct (filter _ _).
Qed.

(** Joining strings joins their segments. *)
Lemma Split_slash s t : Split (s +:+ "/" +:+ t) slash = Split s slash ++ Split t slash.
Proof.
  induction s as [|c s IH]; simpl; [done|]. rewrite IH. destruct (Ascii.eqb c slash); [done|].
  destruct (Split s slash) as [|h l] eqn:E; [|done].
  destruct s as [|d s]; simpl in E; [done|]. by destruct (Ascii.eqb d slash), (Split s slash).
Qed.
Lemma dotless_app l1 l2 : dotless l1 → dotless l2 → dotless (l1 ++ l2).
Proof. apply Forall_app_2. Qed.
Lemma dotless_plain segs : Forall plain segs → dotless segs.
Proof. intros H. eapply Forall_impl; [exact H|]. by intros s (_ & H1 & H2 & _). Qed.
Lemma Split_abs_dotless segs : Forall plain segs → dotless (Split (abs segs) slash).
Proof.
  intros Hp. unfold abs. change ("/" +:+ Join segs "/") with (String "/" (Join segs "/")). simpl. constructor; [done|].
  destruct segs as [|s segs]; [by repeat constructor|]. rewrite Split_Join; [by apply dotless_plain|done|].
  eapply Forall_impl; [exact Hp|]. intros x (_ & _ & _ & Hx). exact Hx.
Qed.
Lemma IsAbs_abs segs : IsAbs (abs segs) = true.
Proof. unfold IsAbs, abs. apply HasPrefix_app. Qed.
Lemma IsAbs_app s t : IsAbs s = true → IsAbs (s +:+ t) = true.
Proof. unfold IsAbs. intros [r ->]%HasPrefix_spec. apply HasPrefix_spec. exists (r +:+ t). by rewrite str_app_assoc. Qed.
(** Joining a path without dots to an absolute one. *)
Lemma path_Join_abs P path : Forall plain P → dotless (Split path slash) → path_Join [abs P; path] = abs (P ++ segments path).
Proof.
  intros HP Hd. cbn [path_Join]. destruct (String.eqb (abs P) "") eqn:E; [apply String.eqb_eq in E; done|].
  change (Join [abs P; path] "/") with (abs P +:+ "/" +:+ path).
  rewrite Clean_dotless; [|apply IsAbs_app, IsAbs_abs|rewrite Split_slash; apply dotless_app; [by apply Split_abs_dotless|done]].
  unfold segments. rewrite Split_slash, filter_app. by rewrite Split_abs.
Qed.
Lemma path_Join_segment P s : Forall plain P → plain s → path_Join [abs P; s] = abs (P ++ [s]).
Proof.
  intros HP Hs. pose proof Hs as (H1 & H2 & H3 & H4). rewrite path_Join_abs; [|done|rewrite Split_no_char by done; by repeat constructor].
  unfold segments. rewrite Split_no_char by done. by rewrite filter_cons_True.
Qed.
Lemma path_Join_empty P : Forall plain P → path_Join [abs P; ""] = abs P.
Proof. intros HP. rewrite path_Join_abs by (done || by repeat constructor). unfold segments. simpl. by rewrite app_nil_r. Qed.
Lemma Join_slash_snoc (l : list string) x : l ≠ [] → Join (l ++ [x]) "/" = Join l "/" +:+ "/" +:+ x.
Proof.
  intros Hne. induction l as [|a l IH]; [done|]. destruct l as [|b l]; [done|]. cbn [app Join] in *. rewrite IH by done.
  by rewrite !str_app_assoc.
Qed.
Lemma abs_snoc segs s : segs ≠ [] → abs (segs ++ [s]) = abs segs +:+ "/" +:+ s.
Proof. intros Hne. unfold abs. rewrite Join_slash_snoc by done. by rewrite !str_app_assoc. Qed.
Lemma Base_abs segs s : Forall plain (segs ++ [s]) → Base (abs (segs ++ [s])) = s.
Proof. intros Hp. unfold Base. rewrite Split_abs by done. by rewrite last_snoc. Qed.
Lemma Dir_abs segs s : Forall plain (segs ++ [s]) → Dir (abs (segs ++ [s])) = abs segs.
Proof.
  intros Hp. apply Forall_app in Hp as [Hp (_ & _ & _ & Hs)%Forall_singleton].
  assert (∃ r, abs (segs ++ [s]) = r +:+ String slash s ∧ Clean (r +:+ "/") = abs segs) as (r & -> & HC).
  { destruct (decide (segs = [])) as [->|Hne]; [by exists ""|]. exists (abs segs). split; [by rewrite abs_snoc|].
    rewrite Clean_dotless; [|apply IsAbs_app, IsAbs_abs|].
    - unfold segments. rewrite <-(str_app_nil_r "/"), Split_slash, filter_app, Split_abs by done. simpl. by rewrite app_nil_r.
    - rewrite <-(str_app_nil_r "/"), Split_slash. apply dotless_app; [by apply Split_abs_dotless|by repeat constructor]. }
  unfold Dir. rewrite LastIndex_app by done. change (String slash s) with ("/" +:+ s). rewrite <-str_app_assoc.
  replace (S (String.length r)) with (String.length (r +:+ "/")) by (rewrite str_length_app; simpl; lia).
  by rewrite str_take_length_app.
Qed.
