(* ===== verification/Effects.v ===== *)
(** * Effects of a reconciliation

    A controller reads the cluster and issues commands (API writes, Slurm requests,
    events).  What it reads is an argument of the model; what it does is a log of
    commands.  Each command consumes a fault: [Refused e] makes it fail with [e] and
    leaves no trace, [Lost e] makes it fail although it took effect (the answer was
    lost), [None] or the end of the list lets it through.  Theorems about a handler
    quantify over all fault lists, that is, over every way its calls can fail.

    [traces] is the program logic for such code: it relates the commands a
    computation issues to its outcome. *)
From S2P Require Import Prelude.

Inductive fault := Refused (e : gerror) | Lost (e : gerror).
Record run (C : Type) := Run { run_faults : list (option fault); run_log : list C }.
Arguments Run {C} _ _.
Arguments run_faults {C} _.
Arguments run_log {C} _.

Definition perform {C} (c : C) : M (run C) () := λ w,
  match run_faults w with
  | [] => (Run [] (run_log w ++ [c]), Ok tt)
  | None :: fs => (Run fs (run_log w ++ [c]), Ok tt)
  | Some (Refused e) :: fs => (Run fs (run_log w), Err e)
  | Some (Lost e) :: fs => (Run fs (run_log w ++ [c]), Err e)
  end.

(** [for _, x := range xs] with an accumulator. *)
Fixpoint foldM {W A B} (f : B → A → M W B) (b : B) (xs : list A) : M W B :=
  match xs with
  | [] => ret b
  | x :: xs => let! b := f b x in foldM f b xs
  end.

(** [if err := f(); client.IgnoreNotFound(err) != nil { return ... }]. *)
Definition ignoreNotFound {W} (m : M W ()) : M W () := λ w,
  let '(w', r) := m w in (w', IgnoreNotFound tt r).

(** ** The logic *)

(** A world that records what was done. *)
Class Logged (W C : Type) := log_of : W → list C.
Global Hint Mode Logged ! - : typeclass_instances.
Global Instance run_logged C : Logged (run C) C := run_log.

Definition traces {W C A} `{Logged W C} (m : M W A) (Q : list C → outcome A → Prop) : Prop :=
  ∀ w, ∃ l, log_of (m w).1 = log_of w ++ l ∧ Q l (m w).2.

Section generic_rules.
  Context {W C : Type} `{Logged W C}.
  Implicit Types l : list C.

Lemma traces_weaken {A} (m : M W A) (Q1 Q2 : list C → outcome A → Prop) :
  traces m Q1 → (∀ l r, Q1 l r → Q2 l r) → traces m Q2.
Proof. intros Hm HQ w. destruct (Hm w) as (l & ? & ?). eauto. Qed.
Lemma traces_ret {A} (a : A) (Q : list C → outcome A → Prop) : Q [] (Ok a) → traces (ret (W:=W) a) Q.
Proof. intros HQ w. exists []. by rewrite app_nil_r. Qed.
Lemma traces_fail {A} e (Q : list C → outcome A → Prop) : Q [] (Err e) → traces (fail (W:=W) e) Q.
Proof. intros HQ w. exists []. by rewrite app_nil_r. Qed.
Lemma traces_halt {A} s (Q : list C → outcome A → Prop) : Q [] (Halt s) → traces (halt (W:=W) s) Q.
Proof. intros HQ w. exists []. by rewrite app_nil_r. Qed.
Lemma traces_lift {A} (o : outcome A) (Q : list C → outcome A → Prop) : Q [] o → traces (lift (W:=W) o) Q.
Proof. intros HQ w. exists []. by rewrite app_nil_r. Qed.
Lemma traces_gets {A} (f : W → A) (Q : list C → outcome A → Prop) : (∀ w, Q [] (Ok (f w))) → traces (gets f) Q.
Proof. intros HQ w. exists []. rewrite app_nil_r. split; [done|apply HQ]. Qed.
Lemma traces_bind {A B} (m : M W A) (k : A → M W B) Q1 (Q : list C → outcome B → Prop) :
  traces m Q1 →
  (∀ a l1, Q1 l1 (Ok a) → traces (k a) (λ l2 r, Q (l1 ++ l2) r)) →
  (∀ e l, Q1 l (Err e) → Q l (Err e)) → (∀ s l, Q1 l (Halt s) → Q l (Halt s)) →
  traces (bind m k) Q.
Proof.
  intros Hm Hk He Hh w. destruct (Hm w) as (l1 & Hl1 & HQ). unfold bind.
  destruct (m w) as [w1 [a|e|s]]; simpl in *; [|by eauto..].
  destruct (Hk a l1 HQ w1) as (l2 & Hl2 & HQ2). exists (l1 ++ l2).
  rewrite Hl2, Hl1, app_assoc. done.
Qed.
Lemma traces_attempt {A} (m : M W A) Q1 (Q : list C → outcome (A + gerror) → Prop) :
  traces m Q1 →
  (∀ a l, Q1 l (Ok a) → Q l (Ok (inl a))) → (∀ e l, Q1 l (Err e) → Q l (Ok (inr e))) →
  (∀ s l, Q1 l (Halt s) → Q l (Halt s)) → traces (attempt m) Q.
Proof.
  intros Hm H1 H2 H3 w. destruct (Hm w) as (l & Hl & HQ). exists l. unfold attempt.
  destruct (m w) as [w1 [a|e|s]]; simpl in *; eauto.
Qed.
Lemma traces_wrapM {A} msg (m : M W A) (Q : list C → outcome A → Prop) :
  traces m (λ l r, Q l (wrap_err msg r)) → traces (wrapM msg m) Q.
Proof.
  intros Hm w. destruct (Hm w) as (l & Hl & HQ). exists l. unfold wrapM.
  destruct (m w) as [w1 r]. done.
Qed.
Lemma traces_ignoreNotFound (m : M W ()) (Q : list C → outcome () → Prop) :
  traces m (λ l r, Q l (IgnoreNotFound tt r)) → traces (ignoreNotFound m) Q.
Proof.
  intros Hm w. destruct (Hm w) as (l & Hl & HQ). exists l. unfold ignoreNotFound.
  destruct (m w) as [w1 r]. done.
Qed.
(** Two steps of which the second does nothing but return. *)
Lemma traces_bind_ret {A B} (m : M W A) (f : A → B) (Q : list C → outcome B → Prop) :
  traces m (λ l r, match r with Ok a => Q l (Ok (f a)) | Err e => Q l (Err e) | Halt s => Q l (Halt s) end) →
  traces (let! a := m in ret (f a)) Q.
Proof.
  intros Hm. eapply traces_bind; [exact Hm|..]; simpl; [|done..].
  intros a l1 H1. apply traces_ret. by rewrite app_nil_r.
Qed.
(** A loop: [I] relates the elements already visited, what was issued so far and
    the accumulator. *)
Lemma traces_foldM {A B} (f : B → A → M W B) (I : list A → list C → B → Prop)
    (Q : list C → outcome B → Prop) xs b :
  (∀ seen x rest l b, xs = seen ++ x :: rest → I seen l b →
     traces (f b x) (λ l' r, match r with
                             | Ok b' => I (seen ++ [x]) (l ++ l') b'
                             | _ => Q (l ++ l') r
                             end)) →
  (∀ l b, I xs l b → Q l (Ok b)) → I [] [] b → traces (foldM f b xs) Q.
Proof.
  intros Hf HQ HI.
  assert (∀ rest seen l0 b, xs = seen ++ rest → I seen l0 b →
            traces (foldM f b rest) (λ l r, Q (l0 ++ l) r)) as Hgen; [|exact (Hgen xs [] [] b eq_refl HI)].
  clear b HI. induction rest as [|x rest IH]; intros seen l0 b Hxs HI; simpl.
  { rewrite app_nil_r in Hxs. subst seen. apply traces_ret. rewrite app_nil_r. auto. }
  eapply traces_bind; [by apply (Hf seen x rest l0 b)|..]; simpl; [|done..].
  intros b' l1 HI'. eapply traces_weaken; [apply (IH (seen ++ [x]) (l0 ++ l1)); [|done]|].
  - by rewrite <-app_assoc.
  - intros l r. by rewrite app_assoc.
Qed.
Lemma traces_forM {A} (f : A → M W ()) (Q : list C → Prop) xs :
  Q [] → (∀ l1 l2, Q l1 → Q l2 → Q (l1 ++ l2)) →
  (∀ x, x ∈ xs → traces (f x) (λ l _, Q l)) → traces (forM xs f) (λ l _, Q l).
Proof.
  intros H0 Happ. induction xs as [|x xs IH]; intros Hf; simpl; [by apply traces_ret|].
  eapply traces_bind; [apply Hf; left|..]; [|done..]. intros u l1 H1.
  eapply traces_weaken; [apply IH; intros; apply Hf; by right|]. simpl. auto.
Qed.
End generic_rules.

Section rules.
  Context {C : Type}.
  Implicit Types l : list C.

Lemma traces_perform c (Q : list C → outcome () → Prop) :
  Q [c] (Ok tt) → (∀ e l, l = [] ∨ l = [c] → Q l (Err e)) → traces (perform c) Q.
Proof.
  intros H1 H2 w. unfold perform. destruct (run_faults w) as [|[[e|e]|] fs]; simpl.
  - by exists [c].
  - exists []. rewrite app_nil_r. auto.
  - exists [c]. auto.
  - by exists [c].
Qed.
(** A write whose NotFound is ignored and whose other errors are wrapped. *)
Lemma traces_ignored c msg (Q : list C → outcome () → Prop) :
  Q [c] (Ok tt) → Q [] (Ok tt) → (∀ e l, l = [] ∨ l = [c] → Q l (Err e)) →
  traces (wrapM msg (ignoreNotFound (perform c))) Q.
Proof.
  intros H1 H2 H3. apply traces_wrapM, traces_ignoreNotFound, traces_perform; [done|].
  intros e l Hl. unfold IgnoreNotFound. destruct (IsNotFound e); simpl; [|auto]. by destruct Hl as [-> | ->].
Qed.
End rules.

(** Every command issued satisfies [P]. *)
Definition emits {W C A} `{Logged W C} (P : C → Prop) (m : M W A) : Prop := traces m (λ l _, Forall P l).
Create HintDb effects.
Section emits.
  Context {W C : Type} `{Logged W C} (P : C → Prop).
Lemma emits_ret {A} (a : A) : emits P (ret (W:=W) a).
Proof. by apply traces_ret. Qed.
Lemma emits_fail {A} e : emits P (fail (W:=W) (A:=A) e).
Proof. by apply traces_fail. Qed.
Lemma emits_halt {A} s : emits P (halt (W:=W) (A:=A) s).
Proof. by apply traces_halt. Qed.
Lemma emits_lift {A} (o : outcome A) : emits P (lift (W:=W) o).
Proof. by apply traces_lift. Qed.
Lemma emits_bind {A B} (m : M W A) (k : A → M W B) :
  emits P m → (∀ a, emits P (k a)) → emits P (bind m k).
Proof.
  intros Hm Hk. eapply traces_bind; [exact Hm|..]; [|done..]. intros a l1 H1.
  eapply traces_weaken; [apply Hk|]. simpl. intros. by apply Forall_app.
Qed.
(** [bind] where the value is known to come from the computation. *)
Lemma emits_lift_bind {A B} (o : outcome A) (k : A → M W B) :
  (∀ a, o = Ok a → emits P (k a)) → emits P (bind (lift o) k).
Proof.
  intros Hk w. unfold bind, lift. destruct o as [a|e|s]; simpl.
  - by destruct (Hk a eq_refl w) as (l & ? & ?); eauto.
  - exists []. by rewrite app_nil_r.
  - exists []. by rewrite app_nil_r.
Qed.
Lemma emits_attempt {A} (m : M W A) : emits P m → emits P (attempt m).
Proof. intros Hm. eapply traces_attempt; [exact Hm|done..]. Qed.
Lemma emits_wrapM {A} msg (m : M W A) : emits P m → emits P (wrapM msg m).
Proof. intros Hm. by apply traces_wrapM. Qed.
Lemma emits_ignoreNotFound (m : M W ()) : emits P m → emits P (ignoreNotFound m).
Proof. intros Hm. by apply traces_ignoreNotFound. Qed.
Lemma emits_foldM {A B} (f : B → A → M W B) b xs :
  (∀ b x, x ∈ xs → emits P (f b x)) → emits P (foldM f b xs).
Proof.
  intros Hf. apply (traces_foldM f (λ _ l _, Forall P l)); [|done|constructor].
  intros seen x rest l b' -> Hl. eapply traces_weaken; [apply Hf, elem_of_app; right; left|].
  intros l' []; simpl; intros; by apply Forall_app.
Qed.
Lemma emits_forM {A} (f : A → M W ()) xs :
  (∀ x, x ∈ xs → emits P (f x)) → emits P (forM xs f).
Proof. intros Hf. apply traces_forM; [constructor|by intros; apply Forall_app|done]. Qed.
Lemma emits_elem {A} (m : M W A) w c :
  emits P m → log_of w = [] → c ∈ log_of (m w).1 → P c.
Proof.
  intros Hm Hw Hc. destruct (Hm w) as (l & Hl & HP). rewrite Hl, Hw in Hc.
  by eapply Forall_forall in HP.
Qed.
Lemma emits_gets {A} (f : W → A) : emits P (gets f).
Proof. by apply traces_gets. Qed.
End emits.
Section emits_run.
  Context {C : Type} (P : C → Prop).
Lemma emits_perform c : P c → emits P (perform c).
Proof. intros Hc. apply traces_perform; [auto|]. intros e l [-> | ->]; auto. Qed.
Lemma emits_run_elem {A} (m : M (run C) A) w c :
  emits P m → run_log w = [] → c ∈ run_log (m w).1 → P c.
Proof. exact (emits_elem P m w c). Qed.
End emits_run.
#[export] Hint Resolve emits_ret emits_gets emits_fail emits_halt emits_lift emits_perform
  emits_bind emits_attempt emits_wrapM emits_ignoreNotFound emits_foldM emits_forM : effects.

(** ** Rules that know what was issued before

    [traces_at l0 m Q]: started when [l0] was issued, [m] issues some [l] and ends with
    some [r] such that [Q l r]. *)
Definition traces_at {W C A} `{Logged W C} (l0 : list C) (m : M W A) (Q : list C → outcome A → Prop) : Prop :=
  ∀ w, log_of w = l0 → ∃ l, log_of (m w).1 = l0 ++ l ∧ Q l (m w).2.
Section at_rules.
  Context {W C : Type} `{Logged W C}.
Lemma traces_at_of {A} (m : M W A) l0 (Q : list C → outcome A → Prop) : traces m Q → traces_at l0 m Q.
Proof. intros Hm w <-. apply Hm. Qed.
Lemma traces_at_weaken {A} (m : M W A) l0 (Q1 Q2 : list C → outcome A → Prop) :
  traces_at l0 m Q1 → (∀ l r, Q1 l r → Q2 l r) → traces_at l0 m Q2.
Proof. intros Hm HQ w Hw. destruct (Hm w Hw) as (l & ? & ?). eauto. Qed.
Lemma traces_at_bind {A B} (m : M W A) (k : A → M W B) l0 (Q1 : list C → outcome A → Prop) (Q : list C → outcome B → Prop) :
  traces_at l0 m Q1 →
  (∀ a l1, Q1 l1 (Ok a) → traces_at (l0 ++ l1) (k a) (λ l r, Q (l1 ++ l) r)) →
  (∀ e l, Q1 l (Err e) → Q l (Err e)) → (∀ s l, Q1 l (Halt s) → Q l (Halt s)) →
  traces_at l0 (bind m k) Q.
Proof.
  intros Hm Hk He Hs w Hw. destruct (Hm w Hw) as (l & Hl & HQ). unfold bind.
  destruct (m w) as [w1 [a|e|s]]; simpl in *; [|by eauto..].
  destruct (Hk a l HQ w1 Hl) as (l' & Hl' & HQ'). exists (l ++ l'). rewrite app_assoc. done.
Qed.
Lemma traces_at_attempt {A} (m : M W A) l0 (Q : list C → outcome (A + gerror) → Prop) :
  traces_at l0 m (λ l r, match r with
                         | Ok a => Q l (Ok (inl a)) | Err e => Q l (Ok (inr e)) | Halt s => Q l (Halt s) end) →
  traces_at l0 (attempt m) Q.
Proof.
  intros Hm w Hw. destruct (Hm w Hw) as (l & Hl & HQ). exists l. unfold attempt.
  by destruct (m w) as [w1 [a|e|s]].
Qed.
Lemma traces_at_wrapM {A} msg (m : M W A) l0 (Q : list C → outcome A → Prop) :
  traces_at l0 m (λ l r, Q l (wrap_err msg r)) → traces_at l0 (wrapM msg m) Q.
Proof.
  intros Hm w Hw. destruct (Hm w Hw) as (l & Hl & HQ). exists l. unfold wrapM. by destruct (m w) as [w1 r].
Qed.
End at_rules.

(** Every command issued is justified by what was issued before it. *)
Section guards.
  Context {W C : Type} `{Logged W C} (G : list C → C → Prop).
Definition guarded (l0 l : list C) : Prop := ∀ l1 cmd l2, l = l1 ++ cmd :: l2 → G (l0 ++ l1) cmd.
Definition guards {A} (m : M W A) : Prop := ∀ l0, traces_at l0 m (λ l _, guarded l0 l).
Lemma guarded_nil l0 : guarded l0 [].
Proof. intros l1 cmd l2 Hl. by destruct l1. Qed.
Lemma guarded_app l0 l1 l2 : guarded l0 l1 → guarded (l0 ++ l1) l2 → guarded l0 (l1 ++ l2).
Proof.
  intros H1 H2 la cmd lb Hl. apply app_eq_inv in Hl as [(k & -> & Hk)|(k & -> & ->)].
  - destruct k as [|x k]; simpl in Hk.
    + subst l2. specialize (H2 [] cmd lb eq_refl). by rewrite !app_nil_r in H2.
    + simplify_eq. by apply (H1 la x k).
  - rewrite app_assoc. by apply (H2 k cmd lb).
Qed.
Lemma guarded_singleton l0 cmd : G l0 cmd → guarded l0 [cmd].
Proof.
  intros Hc [|x l1] c' l2 Hl; simplify_eq/=; [by rewrite app_nil_r|by destruct l1].
Qed.
Lemma guarded_all l0 l : (∀ l1 cmd, cmd ∈ l → G l1 cmd) → guarded l0 l.
Proof. intros Hl l1 cmd l2 ->. apply Hl, elem_of_app. right. left. Qed.
Lemma guards_of {A} (P : C → Prop) (m : M W A) : (∀ l cmd, P cmd → G l cmd) → emits P m → guards m.
Proof.
  intros HP Hm l0. apply traces_at_of. eapply traces_weaken; [exact Hm|]. simpl. intros l _ Hl.
  apply guarded_all. intros. apply HP. by eapply Forall_forall in Hl.
Qed.
Lemma guards_ret {A} (a : A) : guards (ret (W:=W) a).
Proof. intros l0. apply traces_at_of, traces_ret, guarded_nil. Qed.
Lemma guards_fail {A} e : guards (fail (W:=W) (A:=A) e).
Proof. intros l0. apply traces_at_of, traces_fail, guarded_nil. Qed.
Lemma guards_halt {A} s : guards (halt (W:=W) (A:=A) s).
Proof. intros l0. apply traces_at_of, traces_halt, guarded_nil. Qed.
Lemma guards_lift {A} (o : outcome A) : guards (lift (W:=W) o).
Proof. intros l0. apply traces_at_of, traces_lift, guarded_nil. Qed.
(** [bind] where the first part's outcome is known to satisfy [Q1]. *)
Lemma guards_bind_at {A B} (m : M W A) (k : A → M W B) l0 (Q1 : list C → outcome A → Prop) :
  traces_at l0 m (λ l r, guarded l0 l ∧ Q1 l r) →
  (∀ a l1, Q1 l1 (Ok a) → traces_at (l0 ++ l1) (k a) (λ l _, guarded (l0 ++ l1) l)) →
  traces_at l0 (bind m k) (λ l _, guarded l0 l).
Proof.
  intros Hm Hk. eapply traces_at_bind; [exact Hm|..]; simpl; [|by intros ? ? [? ?]..].
  intros a l1 [H1 HQ]. eapply traces_at_weaken; [by apply Hk|]. simpl. intros. by apply guarded_app.
Qed.
Lemma guards_bind {A B} (m : M W A) (k : A → M W B) : guards m → (∀ a, guards (k a)) → guards (bind m k).
Proof.
  intros Hm Hk l0. eapply traces_at_bind; [apply Hm|..]; simpl; [|done..].
  intros a l1 H1. eapply traces_at_weaken; [apply Hk|]. simpl. intros. by apply guarded_app.
Qed.
Lemma guards_attempt {A} (m : M W A) : guards m → guards (attempt m).
Proof. intros Hm l0. apply traces_at_attempt. eapply traces_at_weaken; [apply Hm|]. simpl. by intros l []. Qed.
Lemma guards_wrapM {A} msg (m : M W A) : guards m → guards (wrapM msg m).
Proof. intros Hm l0. apply traces_at_wrapM. by eapply traces_at_weaken; [apply Hm|]. Qed.
Lemma guards_forM {A} (f : A → M W ()) xs : (∀ x, x ∈ xs → guards (f x)) → guards (forM xs f).
Proof.
  induction xs as [|x xs IH]; intros Hf; simpl; [apply guards_ret|].
  apply guards_bind; [apply Hf; left|]. intros _. apply IH. intros. apply Hf. by right.
Qed.
Lemma guards_elem {A} (m : M W A) w l1 cmd l2 :
  guards m → log_of w = [] → log_of (m w).1 = l1 ++ cmd :: l2 → G l1 cmd.
Proof.
  intros Hm Hw Hl. destruct (Hm [] w Hw) as (l & Hl' & Hg). rewrite Hl' in Hl. exact (Hg l1 cmd l2 Hl).
Qed.
End guards.
Create HintDb guards.
#[export] Hint Resolve guards_ret guards_fail guards_halt guards_lift guards_bind guards_attempt guards_wrapM guards_forM : guards.
