(* ===== verification/Kube.v ===== *)
(** * Kubernetes nodes and API calls

    What the controllers share: the parts of a Node they read and write, JSON merge
    patches of it, and the retry helper of client-go. *)
From S2P Require Import Prelude.
From Stdlib Require String.

(** [retry.RetryOnConflict]: [steps] attempts of the back-off at most, another one
    only after a conflict; the last error is returned. *)
Fixpoint RetryOnConflict {W} (steps : nat) (fn : M W ()) : M W () := λ w,
  match steps with
  | 0%nat => (w, Err (ErrMsg "timed out waiting for the condition"))
  | S steps =>
      match fn w with
      | (w', Err e) =>
          if IsConflict e then
            match steps with
            | 0%nat => (w', Err e)
            | S _ => RetryOnConflict steps fn w'
            end
          else (w', Err e)
      | r => r
      end
  end.

(** ** Nodes *)
Inductive condition_status := ConditionTrue | ConditionFalse | ConditionUnknown.
Global Instance condition_status_eq_dec : EqDecision condition_status.
Proof. solve_decision. Defined.
(** Times in nanoseconds or any other unit: the code only compares and copies them. *)
Record NodeCondition := mkCondition {
  cond_Type : string;
  cond_Status : condition_status;
  cond_Reason : string;
  cond_Message : string;
  cond_LastTransitionTime : Z;
  cond_LastHeartbeatTime : Z
}.
Global Instance NodeCondition_eq_dec : EqDecision NodeCondition.
Proof. solve_decision. Defined.
Record Taint := mkTaint { taint_Key : string; taint_Value : string; taint_Effect : string }.
Global Instance Taint_eq_dec : EqDecision Taint.
Proof. solve_decision. Defined.
Record KNode := mkKNode {
  kn_Name : string;
  kn_Labels : gmap string string;
  kn_Unschedulable : bool;
  kn_Taints : list Taint;
  kn_Conditions : list NodeCondition
}.

(** [client.MergeFrom(base)]: a JSON merge patch holds the fields that differ between
    [base] and the modified object; a list is one field and is replaced as a whole.  A
    patch of the object leaves the status alone, a patch of the status the rest. *)
Definition merge_field {A} `{EqDecision A} (base new server : A) : A :=
  if decide (base = new) then server else new.
Definition patch_spec (base new server : KNode) : KNode :=
  mkKNode (kn_Name server) (merge_field (kn_Labels base) (kn_Labels new) (kn_Labels server))
    (merge_field (kn_Unschedulable base) (kn_Unschedulable new) (kn_Unschedulable server))
    (merge_field (kn_Taints base) (kn_Taints new) (kn_Taints server)) (kn_Conditions server).
Definition patch_status (base new server : KNode) : KNode :=
  mkKNode (kn_Name server) (kn_Labels server) (kn_Unschedulable server) (kn_Taints server)
    (merge_field (kn_Conditions base) (kn_Conditions new) (kn_Conditions server)).

Definition with_conditions (n : KNode) (cs : list NodeCondition) : KNode :=
  mkKNode (kn_Name n) (kn_Labels n) (kn_Unschedulable n) (kn_Taints n) cs.
Definition find_condition (conditions : list NodeCondition) (type : string) : option NodeCondition :=
  head (filter (λ c, cond_Type c = type) conditions).

(** Condition types and reasons of [internal/consts/conditions.go]. *)
Definition SlurmNodeDrain : string := "SlurmNodeDrain".
Definition SlurmNodeReboot : string := "SlurmNodeReboot".
Definition SoperatorChecksK8SNodeDegraded : string := "SoperatorChecksNodeDegraded".
Definition SoperatorChecksK8SNodeMaintenance : string := "SoperatorChecksNodeMaintenance".
Definition HardwareIssuesSuspected : string := "HardwareIssuesSuspected".
Definition DefaultMaintenanceConditionType : string := "NebiusMaintenanceScheduled".
Definition ReasonNodeNeedDrain : string := "NodeNeedDrain".
Definition ReasonNodeDraining : string := "NodeDraining".
Definition ReasonNodeDrained : string := "NodeDrained".
Definition ReasonNodeUndrained : string := "NodeUndrained".
Definition ReasonNodeNeedReboot : string := "NodeNeedReboot".
Definition ReasonNodeRebooting : string := "NodeRebooting".
Definition ReasonNodeRebooted : string := "NodeRebooted".
Definition ReasonGPUHealthCheckFailed : string := "GPUHealthCheckFailedSoperator".
Definition MessageDraining : string := "Node is draining".
Definition MessageDrained : string := "Node has been drained".
Definition MessageRebooting : string := "Node is rebooting".
Definition MessageRebooted : string := "Node has been rebooted".
Definition MessageUndrained : string := "Node has been undrained".
Definition MessageSlurmNodeDegraded : string := "Some slurm nodes on the k8s nod are degraded".
Definition MessageMaintenanceScheduled : string := "Maintenance is scheduled on k8s node".
Definition MessageHardwareIssuesSuspected : string := "Hardware issues suspected on k8s node".
Definition MessageNodeIsRebooted : string := "Node is rebooted".

(** ** Lemmas *)
Lemma find_condition_cons c cs type :
  find_condition (c :: cs) type = if String.eqb (cond_Type c) type then Some c else find_condition cs type.
Proof.
  unfold find_condition. rewrite filter_cons.
  destruct (String.eqb_spec (cond_Type c) type); by case_decide.
Qed.
Lemma find_condition_type cs type c : find_condition cs type = Some c → cond_Type c = type.
Proof.
  induction cs as [|d cs IH]; [done|]. rewrite find_condition_cons.
  destruct (String.eqb_spec (cond_Type d) type); [|done]. by intros [= <-].
Qed.
Lemma find_condition_snoc cs c type :
  find_condition (cs ++ [c]) type =
  match find_condition cs type with
  | Some d => Some d
  | None => if String.eqb (cond_Type c) type then Some c else None
  end.
Proof.
  induction cs as [|d cs IH]; [apply find_condition_cons|]. simpl. rewrite !find_condition_cons, IH.
  by destruct (String.eqb (cond_Type d) type).
Qed.
