(* ===== verification/MultiStep.v ===== *)
(** * Multi-step execution ([internal/utils/mutltistep.go])

    The controllers reconcile their objects in named steps.  With the collecting strategy a failing step does not keep the
    following ones from running. *)
From S2P Require Import Prelude GoStrings.

Inductive MultiStepExecutionStrategy := FailAtFirstError | CollectErrors | OtherStrategy (s : string).
Record MultiStepExecutionStep (W : Type) := Step { step_Name : string; step_Func : M W () }.
Arguments Step {W} _ _.
Arguments step_Name {W} _.
Arguments step_Func {W} _.

Section multistep.
  Context {W : Type}.
  Implicit Types steps : list (MultiStepExecutionStep W).
Fixpoint executeFailAtFirstError steps : M W () :=
  match steps with
  | [] => ret tt
  | s :: steps =>
      do! wrapM "multi-step execution failed at the first met error" (step_Func s);
      executeFailAtFirstError steps
  end.
(** The names of the failed steps; the code puts the text of each error next to it. *)
Fixpoint collectErrors steps (errs : list string) : M W (list string) :=
  match steps with
  | [] => ret errs
  | s :: steps =>
      let! r := attempt (step_Func s) in
      collectErrors steps (match r with inl _ => errs | inr _ => errs ++ [step_Name s] end)
  end.
Definition executeCollectErrors steps : M W () :=
  let! errs := collectErrors steps [] in
  match errs with
  | [] => ret tt
  | _ => fail (ErrMsg ("multi-step execution failed with collected errors: " +:+ Join errs "; "))
  end.
Definition ExecuteMultiStep (strategy : MultiStepExecutionStrategy) steps : M W () :=
  wrapM "failed to execute steps"
    (match strategy with
     | FailAtFirstError => executeFailAtFirstError steps
     | CollectErrors => executeCollectErrors steps
     | OtherStrategy _ => fail (ErrMsg "invalid execution strategy")
     end).

(** ** Every step runs *)
(** The worlds before each step and at the end, when each one runs whatever became of those before it. *)
Fixpoint worlds steps (w : W) : list (MultiStepExecutionStep W * W) :=
  match steps with [] => [] | s :: steps => (s, w) :: worlds steps (step_Func s w).1 end.
Definition final steps (w : W) : W := foldl (λ w s, (step_Func s w).1) w steps.
Definition halts (x : MultiStepExecutionStep W * W) : bool := match (step_Func x.1 x.2).2 with Halt _ => true | _ => false end.
Definition fails (x : MultiStepExecutionStep W * W) : bool := match (step_Func x.1 x.2).2 with Err _ => true | _ => false end.
Lemma worlds_snoc steps s w : worlds (steps ++ [s]) w = worlds steps w ++ [(s, final steps w)].
Proof. unfold final. revert w. induction steps as [|x steps IH]; intros w; simpl; [done|]. by rewrite IH. Qed.
Lemma final_snoc steps s w : final (steps ++ [s]) w = (step_Func s (final steps w)).1.
Proof. unfold final. by rewrite foldl_app. Qed.
Lemma collectErrors_runs steps errs w :
  forallb (λ x, negb (halts x)) (worlds steps w) = true →
  collectErrors steps errs w =
    (final steps w, Ok (errs ++ (step_Name ∘ fst <$> filter (λ x, fails x = true) (worlds steps w)))).
Proof.
  revert errs w. induction steps as [|s steps IH]; intros errs w Hh; simpl; [by rewrite app_nil_r|].
  simpl in Hh. apply andb_true_iff in Hh as [H1 H2]. unfold halts in H1. simpl in H1.
  unfold bind, attempt. destruct (step_Func s w) as [w1 [a|e|h]] eqn:Hs; simpl in *; [..|done].
  - rewrite IH by done. rewrite filter_cons_False; [done|]. unfold fails. simpl. by rewrite Hs.
  - rewrite IH by done. rewrite filter_cons_True by (unfold fails; simpl; by rewrite Hs). simpl.
    by rewrite <-app_assoc.
Qed.
(** Without a panic every step runs, in order, and the result is an error exactly when a step failed. *)
Lemma executeCollectErrors_runs steps w :
  forallb (λ x, negb (halts x)) (worlds steps w) = true →
  (executeCollectErrors steps w).1 = final steps w ∧
  ((executeCollectErrors steps w).2 = Ok tt ↔ forallb (λ x, negb (fails x)) (worlds steps w) = true).
Proof.
  intros Hh. unfold executeCollectErrors, bind. rewrite collectErrors_runs by done. simpl.
  assert (forallb (λ x, negb (fails x)) (worlds steps w) = true ↔
          filter (λ x, fails x = true) (worlds steps w) = []) as ->.
  { rewrite filter_nil_iff, forallb_elem. split; intros H x Hx; specialize (H x Hx); by destruct (fails x). }
  destruct (filter _ _); simpl; done.
Qed.
(** All of them succeed. *)
Lemma executeCollectErrors_ok steps w :
  (executeCollectErrors steps w).2 = Ok tt →
  (executeCollectErrors steps w).1 = final steps w ∧
  ∀ s v, (s, v) ∈ worlds steps w → (step_Func s v).2 = Ok tt.
Proof.
  intros Hok.
  assert (∀ steps errs w r, (collectErrors steps errs w).2 = Ok r → forallb (λ x, negb (halts x)) (worlds steps w) = true) as Hnh.
  { clear. induction steps as [|s steps IH]; intros errs w r Hr; [done|]. simpl in *. unfold bind, attempt, halts in *.
    simpl. destruct (step_Func s w) as [w1 [a|e|h]]; simpl in *; [by eapply IH..|done]. }
  assert (forallb (λ x, negb (halts x)) (worlds steps w) = true) as Hh.
  { unfold executeCollectErrors, bind in Hok. destruct (collectErrors steps [] w) as [w1 [errs|e|h]] eqn:Hc; [|done..].
    eapply (Hnh steps [] w errs). by rewrite Hc. }
  destruct (executeCollectErrors_runs steps w Hh) as [Hf Hall]. split; [done|]. intros s v Hs.
  apply Hall in Hok. rewrite forallb_elem in Hok, Hh. specialize (Hok _ Hs). specialize (Hh _ Hs).
  unfold fails, halts in *. simpl in *. destruct (step_Func s v) as [v1 [[]|e|h]]; done.
Qed.
End multistep.
