(* ===== verification/Naming.v ===== *)
(** * Names and labels of the managed objects

    [internal/naming/naming.go], the label maps of [internal/render/common/label.go], the constants of
    [internal/consts] they use, and [internal/check/maintenance.go]. *)
From S2P Require Import Prelude GoStrings.
From Stdlib Require Import Ascii.
From Stdlib Require String.

(** ** Components ([consts/component.go]) *)
Inductive ComponentType :=
| ComponentTypeCommon | ComponentTypeController | ComponentTypeAccounting | ComponentTypeREST | ComponentTypeWorker
| ComponentTypeNodeSet | ComponentTypeNodeConfigurator | ComponentTypeLogin | ComponentTypePopulateJail
| ComponentTypeExporter | ComponentTypeMariaDbOperator | ComponentTypeSConfigController | ComponentTypeSoperatorChecks.
Definition ComponentType_String (c : ComponentType) : string :=
  match c with
  | ComponentTypeCommon => "common"
  | ComponentTypeController => "controller"
  | ComponentTypeAccounting => "accounting"
  | ComponentTypeREST => "rest"
  | ComponentTypeWorker => "worker"
  | ComponentTypeNodeSet => "nodeset"
  | ComponentTypeNodeConfigurator => "node-configurator"
  | ComponentTypeLogin => "login"
  | ComponentTypePopulateJail => "populate-jail"
  | ComponentTypeExporter => "exporter"
  | ComponentTypeMariaDbOperator => "mariadb-operator"
  | ComponentTypeSConfigController => "sconfigcontroller"
  | ComponentTypeSoperatorChecks => "soperatorchecks"
  end.

(** ** Names *)
Record namedEntity := Named {
  clusterName : string; componentType : option ComponentType; componentSpecifier : string; entity : string }.
Definition when (s : string) : list string := if String.eqb s "" then [] else [s].
Definition namedEntity_String (e : namedEntity) : string :=
  Join (when (clusterName e) ++
        match componentType e with Some c => [ComponentType_String c] | None => [] end ++
        when (componentSpecifier e) ++ when (entity e)) "-".
Definition of_cluster (cluster entity : string) : string := namedEntity_String (Named cluster None "" entity).
Definition of_component (c : ComponentType) (cluster entity : string) : string :=
  namedEntity_String (Named cluster (Some c) "" entity).
Definition of_nodeSet (cluster nodeSet entity : string) : string :=
  namedEntity_String (Named cluster (Some ComponentTypeNodeSet) nodeSet entity).

Definition entityService : string := "svc".
Definition BuildServiceName (c : ComponentType) (cluster : string) : string := of_component c cluster entityService.
Definition BuildNodeSetServiceName (cluster nodeSet : string) : string := of_nodeSet cluster nodeSet entityService.
Definition BuildServiceFQDN (svcName namespace : string) : string :=
  svcName +:+ "." +:+ namespace +:+ ".svc.cluster.local".
Definition BuildNodeSetUmbrellaServiceFQDN (namespace cluster : string) : string :=
  BuildServiceFQDN (BuildServiceName ComponentTypeNodeSet cluster) namespace.
Definition BuildAppArmorProfileName (cluster namespace : string) : string :=
  of_cluster ("soperator-cluster-" +:+ cluster) ("ns-" +:+ namespace).
Definition BuildStatefulSetName (c : ComponentType) (cluster : string) : string := of_component c cluster "".
Definition BuildNodeSetStatefulSetName (nodeSet : string) : string := of_cluster "" nodeSet.
Definition BuildDaemonSetName (c : ComponentType) (cluster : string) : string := of_component c cluster "".
Definition BuildDeploymentName (c : ComponentType) (cluster : string) : string := of_component c cluster "".
Definition BuildConfigMapSlurmConfigsName (cluster : string) : string := of_cluster cluster "slurm-configs".
Definition BuildSecretMungeKeyName (cluster : string) : string := of_cluster cluster "munge".
Definition BuildConfigMapSSHDConfigsNameLogin (cluster : string) : string := of_cluster cluster "ssh-configs".
Definition BuildSecretSSHDKeysName (cluster : string) : string := of_cluster cluster "sshd-keys".
Definition BuildSecretSSSDConfName (cluster : string) : string := of_cluster cluster "sssd-conf".
Definition BuildNodeSetSecretSSSDConfName (cluster nodeSet : string) : string := of_nodeSet cluster nodeSet "sssd-conf".
Definition BuildConfigMapSshRootPublicKeysName (cluster : string) : string := of_cluster cluster "ssh-root-keys".
Definition BuildConfigMapSecurityLimitsName (c : ComponentType) (cluster : string) : string :=
  of_component c cluster "security-limits".
Definition BuildConfigMapUserIsolationName (cluster : string) : string :=
  of_component ComponentTypeLogin cluster "user-isolation".
Definition BuildConfigMapSecurityLimitsForNodeSetName (cluster nodeSet : string) : string :=
  of_nodeSet cluster nodeSet "security-limits".
Definition BuildLoginHeadlessServiceName (cluster : string) : string :=
  of_component ComponentTypeLogin cluster "headless-svc".
Definition BuildLoginHeadlessServiceFQDN (namespace cluster : string) : string :=
  BuildServiceFQDN (BuildLoginHeadlessServiceName cluster) namespace.
Definition BuildConfigMapSSHDConfigsNameWorker (cluster : string) : string := of_cluster cluster "ssh-configs-worker".
Definition BuildConfigMapSysctlName (cluster : string) : string := of_cluster cluster "sysctl".
Definition BuildConfigMapSupervisordName (cluster : string) : string := of_cluster cluster "supervisord".
Definition BuildPopulateJailJobName (cluster : string) : string := of_cluster cluster "populate-jail".
Definition BuildServiceAccountNodeSetName (cluster nodeSet : string) : string :=
  cluster +:+ "-" +:+ nodeSet +:+ "-nodeset-sa".
Definition BuildRoleNodeSetName (cluster nodeSet : string) : string := cluster +:+ "-" +:+ nodeSet +:+ "-nodeset-role".
Definition BuildRoleBindingNodeSetName (cluster nodeSet : string) : string :=
  cluster +:+ "-" +:+ nodeSet +:+ "-nodeset-role-binding".
Definition BuildServiceAccountActiveCheckName (cluster : string) : string := cluster +:+ "-activecheck-sa".
Definition BuildRoleActiveCheckName (cluster : string) : string := cluster +:+ "-activecheck-role".
Definition BuildRoleBindingActiveCheckName (cluster : string) : string := cluster +:+ "-activecheck-role-binding".
Definition BuildSecretSlurmdbdConfigsName (cluster : string) : string := of_cluster cluster "slurmdbd-configs".
Definition BuildSecretSlurmRESTSecretName (cluster : string) : string := of_cluster cluster "rest-jwt-key".
Definition BuildMariaDbName (cluster : string) : string := of_cluster cluster "acct-db".
Definition BuildConfigMapSbatchScriptName (script : string) : string := "sbatch-script-" +:+ script.

(** ** Labels *)
Definition LabelNameKey : string := "app.kubernetes.io/name".
Definition LabelNameValue : string := "slurmcluster".
Definition LabelInstanceKey : string := "app.kubernetes.io/instance".
Definition LabelComponentKey : string := "app.kubernetes.io/component".
Definition LabelPartOfKey : string := "app.kubernetes.io/part-of".
Definition LabelManagedByKey : string := "app.kubernetes.io/managed-by".
Definition LabelNodeSetKey : string := "slurm.nebius.ai/nodeset".
Definition LabelWorkerKey : string := "slurm.nebius.ai/worker".
Definition LabelSoperatorRollingUpdateEnabled : string := "slurm.nebius.ai/rolling-update-enabled".
Definition RenderLabels (c : ComponentType) (cluster : string) : gmap string string :=
  <[LabelNameKey := LabelNameValue]> (<[LabelInstanceKey := cluster]> (<[LabelComponentKey := ComponentType_String c]>
    (<[LabelPartOfKey := "slurm-operator"]> {[LabelManagedByKey := "slurm-operator"]}))).
Definition RenderMatchLabels (c : ComponentType) (cluster : string) : gmap string string :=
  <[LabelNameKey := LabelNameValue]> (<[LabelInstanceKey := cluster]> {[LabelComponentKey := ComponentType_String c]}).

(** ** Maintenance ([check/maintenance.go]) *)
Definition IsMaintenanceActive (maintenance : option string) : bool :=
  match maintenance with
  | None => false
  | Some m => negb (String.eqb m "none") && negb (String.eqb m "skipPopulateJail")
  end.
Definition IsModeDownscaleAndDeletePopulate (maintenance : option string) : bool :=
  match maintenance with Some m => String.eqb m "downscaleAndDeletePopulateJail" | None => false end.
Definition IsModeDownscaleAndOverwritePopulate (maintenance : option string) : bool :=
  match maintenance with Some m => String.eqb m "downscaleAndOverwritePopulateJail" | None => false end.
Definition IsModeSkipPopulateJail (maintenance : option string) : bool :=
  match maintenance with Some m => String.eqb m "skipPopulateJail" | None => false end.

(** ** The names of a NodeSet's objects are its own *)
Lemma str_app_inj_l (s t u : string) : s +:+ t = s +:+ u → t = u.
Proof. induction s; rewrite ?str_app_nil_l, ?str_app_cons; [done|]. intros [= ?]. auto. Qed.
Lemma str_app_inj_r (s t u : string) : s +:+ u = t +:+ u → s = t.
Proof.
  revert t. induction s as [|c s IH]; intros [|d t] Heq; [done|..].
  - apply (f_equal String.length) in Heq. rewrite !str_length_app in Heq. simpl in Heq. lia.
  - apply (f_equal String.length) in Heq. rewrite !str_length_app in Heq. simpl in Heq. lia.
  - rewrite !str_app_cons in Heq. injection Heq as -> Heq. f_equal. auto.
Qed.
Lemma of_nodeSet_text cluster nodeSet entity :
  cluster ≠ "" → nodeSet ≠ "" → entity ≠ "" →
  of_nodeSet cluster nodeSet entity = cluster +:+ ("-nodeset-" +:+ (nodeSet +:+ ("-" +:+ entity))).
Proof.
  intros Hc Hn He. unfold of_nodeSet, namedEntity_String, when. simpl.
  by rewrite !(proj2 (String.eqb_neq _ _)) by done.
Qed.
Lemma of_component_text c cluster entity :
  cluster ≠ "" → entity ≠ "" →
  of_component c cluster entity = cluster +:+ ("-" +:+ (ComponentType_String c +:+ ("-" +:+ entity))).
Proof.
  intros Hc He. unfold of_component, namedEntity_String, when. simpl.
  by rewrite !(proj2 (String.eqb_neq _ _)) by done.
Qed.
Lemma of_cluster_text cluster entity :
  cluster ≠ "" → entity ≠ "" → of_cluster cluster entity = cluster +:+ ("-" +:+ entity).
Proof.
  intros Hc He. unfold of_cluster, namedEntity_String, when. simpl.
  by rewrite !(proj2 (String.eqb_neq _ _)) by done.
Qed.
Lemma of_nodeSet_inj cluster n1 n2 entity :
  cluster ≠ "" → n1 ≠ "" → n2 ≠ "" → entity ≠ "" → of_nodeSet cluster n1 entity = of_nodeSet cluster n2 entity → n1 = n2.
Proof.
  intros Hc H1 H2 He. rewrite !of_nodeSet_text by done. intros Heq%str_app_inj_l%str_app_inj_l.
  by apply str_app_inj_r in Heq.
Qed.
Lemma of_nodeSet_component cluster n c entity :
  cluster ≠ "" → n ≠ "" → entity ≠ "" → of_nodeSet cluster n entity ≠ of_component c cluster entity.
Proof.
  intros Hc Hn He. rewrite of_nodeSet_text, of_component_text by done. intros Heq%str_app_inj_l.
  rewrite <-(str_app_assoc (ComponentType_String c)) in Heq.
  change ("-nodeset-" +:+ (n +:+ ("-" +:+ entity))) with ("-" +:+ ("nodeset-" +:+ (n +:+ ("-" +:+ entity)))) in Heq.
  apply str_app_inj_l in Heq. rewrite <-(str_app_assoc "nodeset-"), <-(str_app_assoc _ "-" entity) in Heq.
  apply str_app_inj_r in Heq. rewrite str_app_assoc in Heq.
  destruct c; simpl in Heq; try discriminate Heq.
  injection Heq as Heq. apply (f_equal String.length) in Heq. rewrite str_length_app in Heq. simpl in Heq. 
  destruct n; [done|]. simpl in Heq. lia.
Qed.
