(* ===== verification/Reconciler.v ===== *)
(** * The generic reconciler

    [internal/controller/reconciler/reconciler.go] and [versioning.go]: every Kubernetes object
    that a controller of the operator manages goes through [reconcile], which creates the object,
    replaces it when one of its dependencies has a new version, and patches it otherwise.

    The API server is a map of objects with resource versions.  A script says what other
    clients write before each request and which requests fail, with or without taking effect.  The parts
    of an object that the generic code does not look at are a type [B]; what a kind of object
    does with them is its patcher, an argument. *)
From S2P Require Import Prelude GoStrings Effects.
From Stdlib Require Import Ascii.
From Stdlib Require String.

(** ** Objects *)
Inductive kind :=
| ConfigMap | Secret | CronJob | BatchJob | Service | StatefulSet | DaemonSet | ServiceAccount | Role
| RoleBinding | AdvancedStatefulSet | Deployment | PodMonitor | ServiceMonitor | MariaDB | Grant
| AppArmorProfile | JailedConfig | NodeSetPowerState | SlurmCluster | NodeSet | ActiveCheck | PodTemplate | Pod
| Node | ResourceDistribution | NodeConfigurator.
Global Instance kind_eq_dec : EqDecision kind.
Proof. solve_decision. Defined.
Definition kinds : list kind :=
  [ConfigMap; Secret; CronJob; BatchJob; Service; StatefulSet; DaemonSet; ServiceAccount; Role; RoleBinding;
   AdvancedStatefulSet; Deployment; PodMonitor; ServiceMonitor; MariaDB; Grant; AppArmorProfile; JailedConfig;
   NodeSetPowerState; SlurmCluster; NodeSet; ActiveCheck; PodTemplate; Pod; Node; ResourceDistribution; NodeConfigurator].
Definition kind_code (k : kind) : nat := default 0%nat (fst <$> list_find (eq k) kinds).
Lemma kind_code_inv k : kinds !! kind_code k = Some k.
Proof. by destruct k. Qed.
Global Instance kind_countable : Countable kind := inj_countable kind_code (λ n, kinds !! n) kind_code_inv.

(** Kind, namespace and name. *)
Abbreviation key := (kind * string * string)%type.

(** [client.MergeFrom(base)]: what a JSON merge patch from [base] to the modified value does to
    the value on the server.  An unmodified value changes nothing, and a server that still has
    [base] gets the modified value. *)
Class MergePatch (B : Type) := {
  merge_patch : B → B → B → B;
  merge_patch_same : ∀ b s, merge_patch b b s = s;
  merge_patch_exact : ∀ b m, merge_patch b m b = m }.

(** A map is patched key by key. *)
Section merge_map.
  Context {K V : Type} `{Countable K, EqDecision V}.
Definition merge_map (base new server : gmap K V) : gmap K V :=
  filter (λ kv, base !! kv.1 ≠ Some kv.2) new ∪ filter (λ kv, base !! kv.1 = new !! kv.1) server.
Lemma merge_map_lookup base new server k :
  merge_map base new server !! k = if decide (base !! k = new !! k) then server !! k else new !! k.
Proof.
  unfold merge_map. rewrite lookup_union, !map_lookup_filter.
  destruct (new !! k) as [v|] eqn:Hn; simpl; rewrite ?Hn.
  - destruct (decide (base !! k = Some v)) as [Hb|Hb].
    + rewrite option_guard_False by naive_solver. simpl. rewrite (left_id_L None _).
      destruct (server !! k); simpl; [|done]. by rewrite option_guard_True by (simpl; congruence).
    + rewrite option_guard_True by done. simpl.
      destruct (server !! k); simpl; [|done]. by rewrite option_guard_False by (simpl; congruence).
  - rewrite (left_id_L None _). destruct (server !! k) as [x|]; simpl; [|by destruct (decide _)].
    destruct (decide (base !! k = None)); [by rewrite option_guard_True by (simpl; congruence)|].
    by rewrite option_guard_False by (simpl; congruence).
Qed.
Lemma merge_map_same b s : merge_map b b s = s.
Proof. apply map_eq. intros k. rewrite merge_map_lookup. by rewrite decide_True. Qed.
Lemma merge_map_exact b m : merge_map b m b = m.
Proof. apply map_eq. intros k. rewrite merge_map_lookup. by destruct (decide _). Qed.
Global Instance map_merge : MergePatch (gmap K V) :=
  {| merge_patch := merge_map; merge_patch_same := merge_map_same; merge_patch_exact := merge_map_exact |}.
End merge_map.
(** A field that is not an object of its own is replaced. *)
Definition merge_whole {A} `{EqDecision A} (base new server : A) : A := if decide (base = new) then server else new.

Record object (B S : Type) := Obj {
  o_key : key;
  o_resourceVersion : Z;
  o_controller : option string;                (* the UID of the controlling owner *)
  o_labels : gmap string string;
  o_annotations : gmap string string;
  o_template : gmap string string;             (* annotations of the pod template, if it has one *)
  o_body : B;                                  (* the rest, but for the status *)
  o_status : S }.
Arguments Obj {B S} _ _ _ _ _ _ _ _.
Arguments o_key {B S} _.
Arguments o_resourceVersion {B S} _.
Arguments o_controller {B S} _.
Arguments o_labels {B S} _.
Arguments o_annotations {B S} _.
Arguments o_template {B S} _.
Arguments o_body {B S} _.
Arguments o_status {B S} _.
Global Instance object_eq_dec {B S} `{EqDecision B, EqDecision S} : EqDecision (object B S).
Proof. solve_decision. Defined.

Section api.
  Context {B S : Type} `{EqDecision B, EqDecision S} `{MergePatch B, MergePatch S}.

Definition with_version (v : Z) (o : object B S) : object B S :=
  Obj (o_key o) v (o_controller o) (o_labels o) (o_annotations o) (o_template o) (o_body o) (o_status o).
Definition with_annotations (a : gmap string string) (o : object B S) : object B S :=
  Obj (o_key o) (o_resourceVersion o) (o_controller o) (o_labels o) a (o_template o) (o_body o) (o_status o).
Definition with_template (a : gmap string string) (o : object B S) : object B S :=
  Obj (o_key o) (o_resourceVersion o) (o_controller o) (o_labels o) (o_annotations o) a (o_body o) (o_status o).
Definition with_status (s : S) (o : object B S) : object B S :=
  Obj (o_key o) (o_resourceVersion o) (o_controller o) (o_labels o) (o_annotations o) (o_template o) (o_body o) s.
Definition with_controller (owner : string) (o : object B S) : object B S :=
  Obj (o_key o) (o_resourceVersion o) (Some owner) (o_labels o) (o_annotations o) (o_template o) (o_body o) (o_status o).

(** ** The API server *)
Record event := Event { ev_writes : list (key * option (object B S)); ev_fault : option fault }.
Record world := World { w_next : Z; w_objects : gmap key (object B S); w_script : list event }.

(** An object is stored under a version of its own. *)
Definition put (k : key) (o : object B S) (w : world) : world :=
  World (w_next w + 1) (<[k := with_version (w_next w) o]> (w_objects w)) (w_script w).
Definition other_write (w : world) (x : key * option (object B S)) : world :=
  match x with
  | (k, Some o) => put k o w
  | (k, None) => World (w_next w) (delete k (w_objects w)) (w_script w)
  end.
Definition request {A} (op : M world A) : M world A := λ w,
  match w_script w with
  | [] => op w
  | ev :: script =>
      let w1 := foldl other_write (World (w_next w) (w_objects w) script) (ev_writes ev) in
      match ev_fault ev with
      | None => op w1
      | Some (Refused e) => (w1, Err e)
      | Some (Lost e) => ((op w1).1, Err e)
      end
  end.
Definition client_Get (k : key) : M world (object B S) :=
  request (λ w, match w_objects w !! k with
                | Some o => (w, Ok o)
                | None => (w, Err (ErrAPI NotFound))
                end).
Definition client_Create (o : object B S) : M world () :=
  request (λ w, match w_objects w !! o_key o with
                | Some _ => (w, Err (ErrAPI AlreadyExists))
                | None => (put (o_key o) o w, Ok tt)
                end).
(** Writing what is there already changes nothing, not even the version. *)
Definition store (k : key) (new cur : object B S) (w : world) : world * outcome (object B S) :=
  if decide (new = cur) then (w, Ok cur) else (put k new w, Ok (with_version (w_next w) new)).
(** A write to the object at [k]: [f] makes the new object of the current one.  The answer is the object as
    stored. *)
Definition write (k : key) (f : object B S → outcome (object B S)) : M world (object B S) :=
  request (λ w, match w_objects w !! k with
                | None => (w, Err (ErrAPI NotFound))
                | Some cur =>
                    match f cur with
                    | Ok new => store k new cur w
                    | Err e => (w, Err e)
                    | Halt s => (w, Halt s)
                    end
                end).
(** The version given must be the current one. *)
Definition optimistic (o : object B S) (new : object B S → object B S) (cur : object B S) : outcome (object B S) :=
  if (o_resourceVersion cur =? o_resourceVersion o)%Z then Ok (new cur) else Err (ErrAPI Conflict).
Definition client_Update (o : object B S) : M world (object B S) :=
  write (o_key o) (optimistic o (λ cur, with_status (o_status cur) o)).
(** The status is a subresource: requests for the object leave it alone, requests for the status leave
    the rest alone. *)
Definition client_StatusUpdate (o : object B S) : M world (object B S) :=
  write (o_key o) (optimistic o (λ cur, with_status (o_status o) cur)).
Definition client_StatusPatch (base modified : object B S) : M world (object B S) :=
  write (o_key base)
    (λ cur, Ok (with_status (merge_patch (o_status base) (o_status modified) (o_status cur)) cur)).
Definition client_Delete (k : key) : M world () :=
  request (λ w, match w_objects w !! k with
                | None => (w, Err (ErrAPI NotFound))
                | Some _ => (World (w_next w) (delete k (w_objects w)) (w_script w), Ok tt)
                end).
(** The server's object after the patch. *)
Definition patched (base modified server : object B S) : object B S :=
  Obj (o_key server) (o_resourceVersion server)
    (merge_whole (o_controller base) (o_controller modified) (o_controller server))
    (merge_map (o_labels base) (o_labels modified) (o_labels server))
    (merge_map (o_annotations base) (o_annotations modified) (o_annotations server))
    (merge_map (o_template base) (o_template modified) (o_template server))
    (merge_patch (o_body base) (o_body modified) (o_body server)) (o_status server).
Definition client_Patch (base modified : object B S) : M world (object B S) :=
  write (o_key base) (λ cur, Ok (patched base modified cur)).
End api.
Arguments event : clear implicits.
Arguments world : clear implicits.

Section reconcile.
  Context {B S : Type} `{EqDecision B, EqDecision S} `{MergePatch B, MergePatch S}.
  (** [yaml.Marshal] and [yaml.UnmarshalStrict] on maps of strings. *)
  Context (marshal : gmap string string → string) (unmarshal : string → option (gmap string string)).

(** ** Versions of dependencies ([versioning.go]) *)
Definition AnnotationVersions : string := "versions".
Record dependency := Dep { dep_Namespace : string; dep_Name : string; dep_ResourceVersion : string }.
Definition generateDependencyVersionMap (deps : list dependency) : gmap string string :=
  foldl (λ m d, <[dep_Namespace d +:+ "." +:+ dep_Name d := dep_ResourceVersion d]> m) ∅ deps.
(** Of the annotations of a resource. *)
Definition getVersionsAnnotation (annotations : gmap string string) : outcome (gmap string string) :=
  match annotations !! AnnotationVersions with
  | None => Ok ∅
  | Some text =>
      match unmarshal text with
      | Some m => Ok m
      | None => Err (ErrMsg "unmarshalling versions annotation")
      end
  end.
Definition setVersionsAnnotation (deps : list dependency) (annotations : gmap string string) :
    outcome (gmap string string) :=
  let? versions := wrap_err "getting existing versions annotation" (getVersionsAnnotation annotations) in
  let versions := generateDependencyVersionMap deps ∪ versions in
  Ok (<[AnnotationVersions := TrimSpace (marshal versions)]> annotations).
Definition hasPodTemplate (k : kind) : bool :=
  match k with
  | StatefulSet | AdvancedStatefulSet | CronJob | BatchJob | Deployment => true
  | _ => false
  end.
Definition setVersionsRecursive (deps : list dependency) (resource : object B S) : outcome (object B S) :=
  let? a := wrap_err "setting versions annotation to base resource" (setVersionsAnnotation deps (o_annotations resource)) in
  let resource := with_annotations a resource in
  if hasPodTemplate (o_key resource).1.1 then
    let? t := wrap_err "setting pod template versions annotation" (setVersionsAnnotation deps (o_template resource)) in
    Ok (with_template t resource)
  else Ok resource.
Definition updateDependencyVersions (deps : list dependency) (resource : object B S) : outcome (object B S) :=
  match deps with
  | [] => Ok resource
  | _ => wrap_err "updating dependency versions" (setVersionsRecursive deps resource)
  end.

(** [ctrl.SetControllerReference]. *)
Definition SetControllerReference (owner : string) (o : object B S) : outcome (object B S) :=
  match o_controller o with
  | Some other => if String.eqb other owner then Ok o else Err (ErrMsg "already owned by another controller")
  | None => Ok (with_controller owner o)
  end.

(** ** Reconciliation ([reconciler.go])

    The code mutates [existing] and [desired] in place; here they are results. *)
Definition EnsureDeployed (owner : string) (desired : object B S) (deps : list dependency) :
    M (world B S) (object B S * object B S) :=
  let! got := attempt (client_Get (o_key desired)) in
  match got with
  | inl existing => ret (existing, desired)
  | inr err =>
      if negb (IsNotFound err) then fail (ErrWrap "getting existing resource" err)
      else
        let! desired := wrapM "setting controller reference" (lift (SetControllerReference owner desired)) in
        let! desired := wrapM "updating dependency versions" (lift (updateDependencyVersions deps desired)) in
        do! client_Create desired;
        let! existing := wrapM "getting newly created resource" (client_Get (o_key desired)) in
        ret (existing, desired)
  end.
Definition EnsureUpdated (owner : string) (base existing desired : object B S) (deps : list dependency) :
    M (world B S) () :=
  let! desired := wrapM "updating dependency versions" (lift (updateDependencyVersions deps desired)) in
  let! existingDepVersions := lift (getVersionsAnnotation (o_annotations existing)) in
  let! updatedDepVersions := lift (getVersionsAnnotation (o_annotations desired)) in
  if decide (updatedDepVersions ≠ existingDepVersions) then
    let! desired := wrapM "setting controller reference" (lift (SetControllerReference owner desired)) in
    let! _ := wrapM "updating resource" (client_Update (with_version (o_resourceVersion existing) desired)) in
    ret tt
  else
    let! _ := wrapM "patching resource" (client_Patch base existing) in
    ret tt.

(** The type switch over the kinds the operator manages. *)
Definition implemented (k : kind) : bool :=
  match k with SlurmCluster | NodeSet | ActiveCheck | PodTemplate | Pod | Node | ResourceDistribution | NodeConfigurator => false | _ => true end.
(** [patch existing desired] is the mutated [existing]; the patch is the difference to what it
    was. *)
Definition reconcile (owner : string) (desired : object B S)
    (patch : object B S → object B S → outcome (object B S)) (deps : list dependency) : M (world B S) () :=
  wrapM "reconciling"
    (if negb (implemented (o_key desired).1.1) then fail (ErrMsg "unimplemented resolver for resource type")
     else
       let! (existing, desired) := wrapM "deploying" (EnsureDeployed owner desired deps) in
       let! modified := wrapM "patching" (lift (patch existing desired)) in
       wrapM "updating" (EnsureUpdated owner existing modified desired deps)).
End reconcile.

(** ** Patchers

    What the generic code relies on in the patcher of a kind of object: it neither renames the
    object nor touches its version or controller, it keeps the recorded versions of the dependencies unless the
    desired object has its own, it changes nothing in an object that already has what the desired one
    asks for, and once applied it has nothing left to do. *)
Definition covers {B S} (o d : object B S) : Prop :=
  o_key o = o_key d ∧ o_labels o = o_labels d ∧ o_body o = o_body d ∧
  o_annotations d ⊆ o_annotations o ∧ o_template d ⊆ o_template o.
Class Patcher {B S} (patch : object B S → object B S → outcome (object B S)) : Prop := {
  patch_identity : ∀ e d m, patch e d = Ok m →
    o_key m = o_key e ∧ o_resourceVersion m = o_resourceVersion e ∧ o_controller m = o_controller e ∧
    o_status m = o_status e;
  patch_versions : ∀ e d m, patch e d = Ok m → o_annotations d !! AnnotationVersions = None →
    o_annotations m !! AnnotationVersions = o_annotations e !! AnnotationVersions;
  patch_covered : ∀ o d, covers o d → patch o d = Ok o;
  patch_settles : ∀ e d m v, patch e d = Ok m → patch (with_version v m) d = Ok (with_version v m) }.

Section quiet.
  Context {B S : Type} `{EqDecision B, EqDecision S} `{MergePatch B, MergePatch S}.
  Context (marshal : gmap string string → string) (unmarshal : string → option (gmap string string)).
  (** YAML texts of maps are read back as they were written. *)
  Hypothesis yaml_roundtrip : ∀ m, unmarshal (TrimSpace (marshal m)) = Some m.
  Context (patch : object B S → object B S → outcome (object B S)) `{!Patcher patch}.
  Local Abbreviation recon := (reconcile marshal unmarshal).
  Local Abbreviation versions_of := (getVersionsAnnotation unmarshal).

(** No other client and no fault. *)
Definition quiet (w : world B S) : Prop := w_script w = [].
Lemma quiet_request {A} (op : M (world B S) A) w : quiet w → request op w = op w.
Proof. unfold quiet, request. by intros ->. Qed.
Lemma put_quiet k o w : quiet w → quiet (put k o w).
Proof. done. Qed.

(** A desired object as the renderers make it: no versions yet, and no other controller. *)
Record desired_ok (owner : string) (d : object B S) : Prop := {
  do_versions : o_annotations d !! AnnotationVersions = None;
  do_template : o_template d !! AnnotationVersions = None;
  do_controller : o_controller d = None ∨ o_controller d = Some owner;
  do_kind : implemented (o_key d).1.1 = true }.

(** [desired] with the versions of its dependencies. *)
Definition versioned (deps : list dependency) (d : object B S) : object B S :=
  match deps with
  | [] => d
  | _ =>
      let text := TrimSpace (marshal (generateDependencyVersionMap deps)) in
      let d' := with_annotations (<[AnnotationVersions := text]> (o_annotations d)) d in
      if hasPodTemplate (o_key d).1.1
      then with_template (<[AnnotationVersions := text]> (o_template d)) d' else d'
  end.
Definition owned (owner : string) (d : object B S) : object B S := with_controller owner d.

Lemma update_versions deps d :
  o_annotations d !! AnnotationVersions = None → o_template d !! AnnotationVersions = None →
  updateDependencyVersions marshal unmarshal deps d = Ok (versioned deps d).
Proof.
  intros Ha Ht. unfold updateDependencyVersions, versioned. destruct deps as [|x deps]; [done|].
  unfold setVersionsRecursive, setVersionsAnnotation, getVersionsAnnotation. rewrite Ha. simpl.
  rewrite (right_id_L ∅ (∪)). destruct (hasPodTemplate _); [|done]. rewrite Ht. simpl.
  by rewrite (right_id_L ∅ (∪)).
Qed.
(** Setting them again changes nothing. *)
Lemma update_versions_again deps d :
  updateDependencyVersions marshal unmarshal deps (versioned deps d) = Ok (versioned deps d).
Proof.
  unfold updateDependencyVersions, versioned. destruct deps as [|x deps]; [done|].
  set (m := generateDependencyVersionMap (x :: deps)).
  assert (m ∪ m = m) as Hm by (apply (idemp_L (∪))).
  unfold setVersionsRecursive, setVersionsAnnotation, getVersionsAnnotation.
  destruct (hasPodTemplate (o_key d).1.1) eqn:Hp; simpl; rewrite lookup_insert_eq, yaml_roundtrip; simpl; fold m; rewrite Hm, Hp, ?insert_insert_eq; simpl; [|done].
  by rewrite lookup_insert_eq, yaml_roundtrip; simpl; fold m; rewrite Hm, insert_insert_eq.
Qed.

Definition dep_versions (deps : list dependency) : gmap string string := generateDependencyVersionMap deps.
Lemma versions_versioned deps d :
  o_annotations d !! AnnotationVersions = None →
  versions_of (o_annotations (versioned deps d)) = Ok (dep_versions deps).
Proof.
  intros Ha. unfold versioned, getVersionsAnnotation, dep_versions. destruct deps as [|x deps]; [by rewrite Ha|].
  by destruct (hasPodTemplate _); simpl; rewrite lookup_insert_eq, yaml_roundtrip.
Qed.
Lemma set_controller owner d :
  o_controller d = None ∨ o_controller d = Some owner → SetControllerReference owner d = Ok (owned owner d).
Proof.
  destruct d as [k v c l a t b s]. unfold SetControllerReference, owned, with_controller. simpl.
  intros [-> | ->]; [done|]. by rewrite String.eqb_refl.
Qed.
Lemma versioned_owned owner deps d : versioned deps (owned owner d) = owned owner (versioned deps d).
Proof. unfold versioned. destruct deps; [done|]. simpl. by destruct (hasPodTemplate _). Qed.
Lemma versioned_key deps d : o_key (versioned deps d) = o_key d.
Proof. unfold versioned. destruct deps; [done|]. by destruct (hasPodTemplate _). Qed.
Lemma versioned_controller deps d : o_controller (versioned deps d) = o_controller d.
Proof. unfold versioned. destruct deps; [done|]. by destruct (hasPodTemplate _). Qed.
Lemma covers_versioned owner deps d v s :
  o_annotations d !! AnnotationVersions = None → o_template d !! AnnotationVersions = None →
  covers (with_version v (with_status s (owned owner (versioned deps d)))) d.
Proof.
  intros Ha Ht. unfold covers, versioned. destruct deps as [|x deps]; [by split_and!|].
  destruct (hasPodTemplate _); simpl; split_and!; try done; by apply insert_subseteq.
Qed.
Lemma covers_refl v (o : object B S) : covers (with_version v o) o.
Proof. unfold covers. by split_and!. Qed.
Lemma patched_exact (e m : object B S) :
  o_key m = o_key e → o_resourceVersion m = o_resourceVersion e → o_controller m = o_controller e →
  o_status m = o_status e → patched e m e = m.
Proof.
  destruct m as [k v c l a t b s]. unfold patched. simpl. intros -> -> -> ->.
  unfold merge_whole. rewrite decide_True by done. f_equal;
    first [apply merge_map_exact|apply merge_patch_exact].
Qed.
Lemma patched_same (e : object B S) : patched e e e = e.
Proof. by apply patched_exact. Qed.

(** The object is there and its patcher succeeds. *)
Lemma recon_present owner d deps w e m ve :
  quiet w → desired_ok owner d → w_objects w !! o_key d = Some e → o_key e = o_key d →
  patch e d = Ok m → versions_of (o_annotations e) = Ok ve →
  recon owner d patch deps w =
    (if decide (dep_versions deps ≠ ve) then put (o_key d) (with_status (o_status e) (owned owner (versioned deps d))) w
     else if decide (m = e) then w else put (o_key d) m w, Ok tt).
Proof.
  intros Hq [Ha Ht Hc Hk] He Hke Hp Hv. destruct (patch_identity _ _ _ Hp) as (Hm1 & Hm2 & Hm3 & Hm4).
  unfold reconcile, EnsureDeployed, EnsureUpdated, client_Get, client_Update, client_Patch, write, optimistic, wrapM, bind, attempt, lift, ret.
  rewrite Hk. simpl. rewrite (quiet_request _ _ Hq), He. simpl. rewrite Hp. simpl.
  rewrite update_versions by done. simpl.
  assert (versions_of (o_annotations m) = Ok ve) as Hvm.
  { unfold getVersionsAnnotation in *. by rewrite (patch_versions _ _ _ Hp Ha). }
  rewrite Hvm, versions_versioned by done. destruct (decide _) as [Hne|Heq]; simpl.
  - rewrite set_controller by (by rewrite versioned_controller). simpl.
    rewrite (quiet_request _ _ Hq). simpl.
    rewrite versioned_key, He, Hm2, Z.eqb_refl. unfold store. rewrite decide_False; [done|].
    intros Heq. apply Hne. rewrite <-Heq in Hv. simpl in Hv. rewrite versions_versioned in Hv by done. by simplify_eq.
  - rewrite (quiet_request _ _ Hq), Hke, He, patched_exact by done. unfold store. by destruct (decide (m = e)).
Qed.
Lemma recon_absent owner d deps w :
  quiet w → desired_ok owner d → w_objects w !! o_key d = None →
  recon owner d patch deps w = (put (o_key d) (owned owner (versioned deps d)) w, Ok tt).
Proof.
  intros Hq [Ha Ht Hc Hk] He.
  unfold reconcile, EnsureDeployed, EnsureUpdated, client_Get, client_Create, client_Patch, write, wrapM, bind, attempt, lift, ret.
  rewrite Hk. simpl. rewrite (quiet_request _ _ Hq), He. simpl. rewrite set_controller by done. simpl.
  rewrite (update_versions deps (owned owner d)) by done. simpl.
  rewrite (quiet_request _ _ Hq). simpl. rewrite versioned_key. simpl. rewrite He.
  set (w1 := put (o_key d) _ w). assert (quiet w1) as Hq1 by done. rewrite (quiet_request _ _ Hq1).
  assert (w_objects w1 !! o_key d = Some (with_version (w_next w) (versioned deps (owned owner d)))) as Hw1.
  { unfold w1, put. simpl. by rewrite lookup_insert_eq. }
  rewrite Hw1. simpl.
  rewrite (patch_covered _ _ (covers_refl _ _)). simpl.
  rewrite (update_versions_again deps (owned owner d)). simpl.
  rewrite versions_versioned by done. rewrite decide_False by (intros Hne; by apply Hne).
  rewrite (quiet_request _ _ Hq1). simpl. rewrite versioned_key. simpl.
  rewrite lookup_insert_eq, patched_same. unfold store. rewrite decide_True by done.
  unfold w1. by rewrite versioned_owned.
Qed.

(** *** A reconciliation settles *)
Definition settled (owner : string) (d : object B S) (deps : list dependency) (w : world B S) : Prop :=
  ∃ o, w_objects w !! o_key d = Some o ∧ o_key o = o_key d ∧ patch o d = Ok o ∧
       versions_of (o_annotations o) = Ok (dep_versions deps).
Lemma settled_fixed owner d deps w :
  quiet w → desired_ok owner d → settled owner d deps w → recon owner d patch deps w = (w, Ok tt).
Proof.
  intros Hq Hd (o & Ho & Hk & Hp & Hv). rewrite (recon_present owner d deps w o o _ Hq Hd Ho Hk Hp Hv).
  rewrite decide_False by (intros Hne; by apply Hne). by rewrite decide_True.
Qed.
Lemma with_status_same (o : object B S) : with_status (o_status o) o = o.
Proof. by destruct o. Qed.
Lemma settled_new owner d deps w s :
  desired_ok owner d → settled owner d deps (put (o_key d) (with_status s (owned owner (versioned deps d))) w).
Proof.
  intros [Ha Ht _ _]. eexists. split; [simpl; by rewrite lookup_insert_eq|]. split_and!.
  - simpl. by rewrite versioned_key.
  - by apply patch_covered, covers_versioned.
  - simpl. by apply versions_versioned.
Qed.
(** What a successful reconciliation has found on the way. *)
Lemma recon_present_inv owner d deps w w' e :
  quiet w → desired_ok owner d → w_objects w !! o_key d = Some e → o_key e = o_key d →
  recon owner d patch deps w = (w', Ok tt) → ∃ m ve, patch e d = Ok m ∧ versions_of (o_annotations e) = Ok ve.
Proof.
  intros Hq [Ha Ht Hc Hk] He Hke Hr.
  unfold reconcile, EnsureDeployed, EnsureUpdated, client_Get, wrapM, bind, attempt, lift, ret in Hr.
  rewrite Hk in Hr. simpl in Hr. rewrite (quiet_request _ _ Hq), He in Hr. simpl in Hr.
  destruct (patch e d) as [m|er|s] eqn:Hp; simpl in Hr; [|done|done].
  rewrite update_versions in Hr by done. simpl in Hr. unfold getVersionsAnnotation in Hr at 1.
  rewrite (patch_versions _ _ _ Hp Ha) in Hr. unfold getVersionsAnnotation.
  destruct (o_annotations e !! AnnotationVersions) as [t|]; [|by eauto].
  destruct (unmarshal t) as [x|]; [by eauto|]. simpl in Hr. done.
Qed.
Lemma recon_settled owner d deps w w' :
  quiet w → desired_ok owner d → (∀ o, w_objects w !! o_key d = Some o → o_key o = o_key d) →
  recon owner d patch deps w = (w', Ok tt) →
  quiet w' ∧ settled owner d deps w' ∧ ∀ k, k ≠ o_key d → w_objects w' !! k = w_objects w !! k.
Proof.
  intros Hq Hd Hkeys Hr. destruct (w_objects w !! o_key d) as [e|] eqn:He; cycle 1.
  { rewrite recon_absent in Hr by done. simplify_eq. split_and!; [done|rewrite <-(with_status_same (owned _ _)); by apply settled_new|].
    intros k Hk. simpl. by rewrite lookup_insert_ne. }
  pose proof (Hkeys e eq_refl) as Hke.
  destruct (recon_present_inv _ _ _ _ _ _ Hq Hd He Hke Hr) as (m & ve & Hp & Hv).
  rewrite (recon_present owner d deps w e m ve Hq Hd He Hke Hp Hv) in Hr.
  destruct (patch_identity _ _ _ Hp) as (Hm1 & Hm2 & Hm3 & Hm4). destruct Hd as [Ha Ht Hc Hk].
  destruct (decide _) as [Hne|Heq]; [|destruct (decide (m = e)) as [->|Hme]]; simplify_eq.
  - split_and!; [done|by apply settled_new|]. intros k Hk'. simpl. by rewrite lookup_insert_ne.
  - split_and!; [done| |done]. exists e. split_and!; [done..|]. rewrite Hv. f_equal.
    destruct (decide (dep_versions deps = ve)); [done|]. by destruct Heq.
  - split_and!; [done| |intros k Hk'; simpl; by rewrite lookup_insert_ne].
    eexists. split; [simpl; by rewrite lookup_insert_eq|]. split_and!.
    + simpl. congruence.
    + by eapply patch_settles.
    + simpl. unfold getVersionsAnnotation in *. rewrite (patch_versions _ _ _ Hp Ha), Hv. f_equal.
      destruct (decide (dep_versions deps = ve)); [done|]. by destruct Heq.
Qed.

(** Nothing stops it but an existing object that its patcher or the versions annotation cannot deal with. *)
Lemma reconcile_succeeds owner d deps w :
  quiet w → desired_ok owner d →
  (∀ o, w_objects w !! o_key d = Some o →
     o_key o = o_key d ∧ (∃ m, patch o d = Ok m) ∧ ∃ ve, versions_of (o_annotations o) = Ok ve) →
  (recon owner d patch deps w).2 = Ok tt.
Proof.
  intros Hq Hd Ho. destruct (w_objects w !! o_key d) as [e|] eqn:He; [|by rewrite recon_absent].
  destruct (Ho e eq_refl) as (Hk & [m Hm] & [ve Hve]). by rewrite (recon_present owner d deps w e m ve).
Qed.

(** A reconciliation converges in one step.  For any kind of object whose patcher keeps the
    contract, with no other client and no failing request: after a successful [reconcile] the
    object is on the server, has recorded exactly the versions of the given dependencies, and
    has everything the patcher wants from the desired object; other objects are untouched; and a second
    [reconcile] succeeds and changes nothing, not even the resource version, so that it does not trigger
    itself through the watches. *)
Lemma reconcile_converges (owner : string) (d : object B S) (deps : list dependency) (w w' : world B S) :
  quiet w → desired_ok owner d → (∀ o, w_objects w !! o_key d = Some o → o_key o = o_key d) →
  reconcile marshal unmarshal owner d patch deps w = (w', Ok tt) →
  (∃ o, w_objects w' !! o_key d = Some o ∧ o_key o = o_key d ∧ patch o d = Ok o ∧
        getVersionsAnnotation unmarshal (o_annotations o) = Ok (generateDependencyVersionMap deps)) ∧
  (∀ k, k ≠ o_key d → w_objects w' !! k = w_objects w !! k) ∧
  reconcile marshal unmarshal owner d patch deps w' = (w', Ok tt).
Proof.
  intros Hq Hd Hk Hr. destruct (recon_settled _ _ _ _ _ Hq Hd Hk Hr) as (Hq' & Hs & Hf).
  split_and!; [|done|by apply settled_fixed]. destruct Hs as (o & ? & ? & ? & ?). eauto.
Qed.
End quiet.
