(* ===== verification/Patchers.v ===== *)
(** * Patchers of the managed kinds

    [internal/controller/reconciler/k8s_*.go], [mariadb.go], [mariadb_grant.go], [pod_monitor.go],
    [service_monitor.go], [jailedconfig.go], [apparmorprofile.go] and [nodesetpowerstate.go]: for every kind
    of object, which parts of the desired object are copied into the existing one, and how an
    object that is no longer wanted is deleted.

    An object's body and status are JSON trees, flattened: a map from the path of a leaf to its
    value.  Arrays are leaves.  On such a map a JSON merge patch works key by key, and assigning a
    field of a Go struct replaces the whole subtree below its path. *)
From S2P Require Import Prelude GoStrings Effects Reconciler.
From Stdlib Require Import Ascii.
From Stdlib Require String.

(** ** Flattened JSON *)
(** [metav1.Condition] with [ObservedGeneration]. *)
Record Condition := Cond {
  c_Type : string; c_Status : string; c_ObservedGeneration : Z; c_LastTransitionTime : Z;
  c_Reason : string; c_Message : string }.
Global Instance Condition_eq_dec : EqDecision Condition.
Proof. solve_decision. Defined.
(** [rbacv1.PolicyRule]. *)
Record PolicyRule := Rule { APIGroups : list string; Resources : list string; ResourceNames : list string; Verbs : list string }.
Global Instance PolicyRule_eq_dec : EqDecision PolicyRule.
Proof. solve_decision. Defined.
Inductive value :=
| VBool (b : bool) | VInt (z : Z) | VStr (s : string)
| VInts (l : list Z) | VStrs (l : list string) | VConds (l : list Condition) | VRules (l : list PolicyRule)
| VRows (l : list (list (string * string)))       (* an array of flat objects *)
| VRaw (s : string).                              (* the text of any other array *)
Global Instance value_eq_dec : EqDecision value.
Proof. solve_decision. Defined.
Abbreviation path := (list string).
Abbreviation fields := (@gmap path (@list_eq_dec string String.eq_dec) (@list_countable string String.eq_dec String.countable) value).

(** [dst.X = src.X] where [X] is the field at [p]. *)
Definition copy_field (src : fields) (dst : fields) (p : path) : fields :=
  filter (λ kv, p `prefix_of` kv.1) src ∪ filter (λ kv, ¬ p `prefix_of` kv.1) dst.
Definition copy_fields (ps : list path) (src dst : fields) : fields := foldl (copy_field src) dst ps.
Arguments copy_fields : simpl never.

Abbreviation resource := (object fields fields).
Abbreviation cluster_state := (world fields fields).
Definition with_body (b : fields) (o : resource) : resource :=
  Obj (o_key o) (o_resourceVersion o) (o_controller o) (o_labels o) (o_annotations o) (o_template o) b (o_status o).
Definition with_labels (l : gmap string string) (o : resource) : resource :=
  Obj (o_key o) (o_resourceVersion o) (o_controller o) l (o_annotations o) (o_template o) (o_body o) (o_status o).

Definition client_List (k : kind) (namespace : string) : M cluster_state (list resource) :=
  request (λ w, (w, Ok (filter (λ o, (o_key o).1 = (k, namespace)) (snd <$> map_to_list (w_objects w))))).

(** ** The patchers *)
Abbreviation patcher := (resource → resource → outcome resource).
(** The fields that each patcher assigns. *)
Definition configMap_fields : list path := [["data"]].
Definition secret_fields : list path := [["data"]].
Definition role_fields : list path := [["rules"]].
Definition roleBinding_fields : list path := [["subjects"]; ["roleRef"]].
Definition service_fields : list path := [["spec"; "type"]; ["spec"; "ports"]].
Definition cronJob_fields : list path :=
  [["spec"; "schedule"]; ["spec"; "suspend"]; ["spec"; "successfulJobsHistoryLimit"];
   ["spec"; "failedJobsHistoryLimit"]; ["spec"; "jobTemplate"; "spec"; "template"; "spec"]].
Definition job_fields : list path := [["spec"; "parallelism"]; ["spec"; "completions"]].
Definition daemonSet_fields : list path := [["spec"; "template"; "spec"]].
Definition deployment_fields : list path :=
  [["spec"; "replicas"]; ["spec"; "strategy"]; ["spec"; "selector"]; ["spec"; "template"; "spec"]].
Definition statefulSet_fields : list path :=
  [["spec"; "template"; "metadata"; "labels"]; ["spec"; "replicas"]; ["spec"; "updateStrategy"];
   ["spec"; "volumeClaimTemplates"]; ["spec"; "template"; "spec"]; ["spec"; "persistentVolumeClaimRetentionPolicy"]].
Definition advancedStatefulSet_fields : list path :=
  [["spec"; "template"; "metadata"; "labels"]; ["spec"; "replicas"]; ["spec"; "updateStrategy"];
   ["spec"; "volumeClaimUpdateStrategy"]; ["spec"; "scaleStrategy"]; ["spec"; "template"; "spec"];
   ["spec"; "reserveOrdinals"]; ["spec"; "persistentVolumeClaimRetentionPolicy"]].
Definition mariaDb_fields : list path :=
  [["spec"; "image"]; ["spec"; "replicas"]; ["spec"; "port"]; ["spec"; "passwordSecretKeyRef"];
   ["spec"; "rootEmptyPassword"]; ["spec"; "service"]; ["spec"; "tolerations"]; ["spec"; "nodeSelector"];
   ["spec"; "resources"]; ["spec"; "securityContext"]; ["spec"; "podSecurityContext"];
   ["spec"; "storage"; "volumeClaimTemplate"]; ["spec"; "storage"; "size"]; ["spec"; "myCnf"]].
Definition mariaDbGrant_fields : list path :=
  [["spec"; "username"]; ["spec"; "host"]; ["spec"; "database"]; ["spec"; "table"]; ["spec"; "privileges"];
   ["spec"; "grantOption"]; ["spec"; "mariaDbRef"]].
Definition podMonitor_fields : list path := [["spec"; "jobLabel"]; ["spec"; "podMetricsEndpoints"]].
Definition serviceMonitor_fields : list path :=
  [["spec"; "jobLabel"]; ["spec"; "endpoints"]; ["spec"; "selector"]; ["spec"; "namespaceSelector"]].
Definition appArmorProfile_fields : list path := [["spec"; "policy"]].
Definition jailedConfig_fields : list path := [["spec"]].
Definition nodeSetPowerState_fields : list path := [["spec"; "nodeSetRef"]].
(** Only the name, which is the same. *)
Definition serviceAccount_fields : list path := [].
Definition patched_fields (k : kind) : list path :=
  match k with
  | ConfigMap => configMap_fields | Secret => secret_fields | Role => role_fields | RoleBinding => roleBinding_fields
  | Service => service_fields | CronJob => cronJob_fields | BatchJob => job_fields | DaemonSet => daemonSet_fields
  | Deployment => deployment_fields | StatefulSet => statefulSet_fields | AdvancedStatefulSet => advancedStatefulSet_fields
  | MariaDB => mariaDb_fields | Grant => mariaDbGrant_fields | PodMonitor => podMonitor_fields
  | ServiceMonitor => serviceMonitor_fields | AppArmorProfile => appArmorProfile_fields | JailedConfig => jailedConfig_fields
  | NodeSetPowerState => nodeSetPowerState_fields | ServiceAccount => serviceAccount_fields
  | SlurmCluster | NodeSet | ActiveCheck | PodTemplate | Pod | Node | ResourceDistribution | NodeConfigurator => []
  end.
(** Most patchers do nothing else. *)
Definition assign (k : kind) (dst src : resource) : resource :=
  with_body (copy_fields (patched_fields k) (o_body src) (o_body dst)) dst.

(** Writing to the annotations of a pod template that has none is a write to a nil map. *)
Definition copy_template (dst src : resource) : outcome resource :=
  if bool_decide (o_template dst = ∅ ∧ o_template src ≠ ∅) then Halt "assignment to entry in nil map"
  else Ok (with_template (o_template src ∪ o_template dst) dst).
Definition configMap_patch : patcher := λ dst src,
  Ok (with_labels (o_labels src ∪ o_labels dst) (assign ConfigMap dst src)).
Definition service_patch : patcher := λ dst src,
  Ok (with_annotations (o_annotations src ∪ o_annotations dst) (assign Service dst src)).
Definition statefulSet_patch : patcher := λ dst src, copy_template (assign StatefulSet dst src) src.
Definition advancedStatefulSet_patch : patcher := λ dst src,
  let dst := with_labels (o_labels src ∪ o_labels dst) dst in
  let dst := with_annotations (o_annotations src ∪ o_annotations dst) dst in
  let? dst := copy_template dst src in
  let dst := assign AdvancedStatefulSet dst src in
  Ok (match o_body src !! ["spec"; "volumeClaimTemplates"] with
      | Some _ => with_body (copy_field (o_body src) (o_body dst) ["spec"; "volumeClaimTemplates"]) dst
      | None => dst
      end).
Definition assign_patch (k : kind) : patcher := λ dst src, Ok (assign k dst src).
(** The patcher that the reconciler of a kind passes to [reconcile]. *)
Definition patch_of (k : kind) : patcher :=
  match k with
  | ConfigMap => configMap_patch
  | Service => service_patch
  | StatefulSet => statefulSet_patch
  | AdvancedStatefulSet => advancedStatefulSet_patch
  | k => assign_patch k
  end.

(** ** Deletion of objects that are no longer wanted *)
(** [metav1.IsControlledBy]. *)
Definition IsControlledBy (o : resource) (owner : string) : bool :=
  match o_controller o with Some c => String.eqb c owner | None => false end.
(** [Cleanup] of Deployments, monitors and service accounts. *)
Definition Cleanup (owner : string) (k : key) : M cluster_state () :=
  let! got := attempt (client_Get k) in
  match got with
  | inr err => if IsNotFound err then ret tt else fail (ErrWrap "getting" err)
  | inl o =>
      if negb (IsControlledBy o owner) then ret tt
      else wrapM "deleting" (ignoreNotFound (client_Delete k))
  end.
(** [deleteIfOwnedByController] of Services and MariaDB objects: a failing delete is an error even when the
    object is gone. *)
Definition deleteIfOwnedByController (owner : string) (k : key) : M cluster_state () :=
  let! got := attempt (client_Get k) in
  match got with
  | inr err => if IsNotFound err then ret tt else fail (ErrWrap "getting" err)
  | inl o => if negb (IsControlledBy o owner) then ret tt else wrapM "deleting" (client_Delete k)
  end.

(** ** Reconciliation of one object *)
Section reconcilers.
  Context (marshal : gmap string string → string) (unmarshal : string → option (gmap string string)).
Definition Reconcile (owner : string) (desired : resource) (deps : list dependency) : M cluster_state () :=
  wrapM "reconciling resource" (reconcile marshal unmarshal owner desired (patch_of (o_key desired).1.1) deps).
(** Services and MariaDB objects: without a desired object the named one is deleted. *)
Definition Reconcile_or_delete (owner : string) (desired : option resource) (name : option key)
    (deps : list dependency) : M cluster_state () :=
  match desired, name with
  | Some desired, _ => Reconcile owner desired deps
  | None, None => ret tt
  | None, Some k => deleteIfOwnedByController owner k
  end.
Definition AppArmorProfile_Reconcile (owner : string) (desired : option resource) (deps : list dependency) :
    M cluster_state () :=
  match desired with
  | None => fail (ErrMsg "AppArmorProfile is not needed")
  | Some desired => Reconcile owner desired deps
  end.
End reconcilers.

(** ** Lemmas on copied fields *)
Lemma lookup_copy_field src dst p k :
  copy_field src dst p !! k = if decide (p `prefix_of` k) then src !! k else dst !! k.
Proof.
  unfold copy_field. rewrite lookup_union, !map_lookup_filter.
  destruct (decide (p `prefix_of` k)) as [Hp|Hp].
  - destruct (src !! k) as [v|]; simpl; [rewrite option_guard_True by done|];
      destruct (dst !! k); simpl; rewrite ?option_guard_False by (simpl; tauto); done.
  - destruct (src !! k) as [v|]; simpl; [rewrite option_guard_False by done|];
      destruct (dst !! k); simpl; rewrite ?option_guard_True by done; done.
Qed.
Definition covered (ps : list path) (k : path) : Prop := Exists (λ p, p `prefix_of` k) ps.
Global Instance covered_dec ps k : Decision (covered ps k).
Proof. unfold covered. apply _. Defined.
Lemma lookup_copy_fields ps src dst k :
  copy_fields ps src dst !! k = if decide (covered ps k) then src !! k else dst !! k.
Proof.
  unfold copy_fields. revert dst. induction ps as [|p ps IH]; intros dst; simpl.
  { done. }
  rewrite IH, lookup_copy_field. assert (covered (p :: ps) k ↔ p `prefix_of` k ∨ covered ps k) as Hc
    by apply Exists_cons.
  destruct (decide (covered (p :: ps) k)), (decide (covered ps k)), (decide (p `prefix_of` k)); tauto.
Qed.
Lemma copy_fields_same ps b : copy_fields ps b b = b.
Proof. apply map_eq. intros k. rewrite lookup_copy_fields. by destruct (decide _). Qed.
Lemma copy_fields_again ps src dst : copy_fields ps src (copy_fields ps src dst) = copy_fields ps src dst.
Proof. apply map_eq. intros k. rewrite !lookup_copy_fields. by destruct (decide _). Qed.
Lemma copy_field_fields p src dst : copy_field src dst p = copy_fields [p] src dst.
Proof. done. Qed.
Lemma copy_fields_app ps qs src dst :
  copy_fields qs src (copy_fields ps src dst) = copy_fields (ps ++ qs) src dst.
Proof. unfold copy_fields. by rewrite foldl_app. Qed.

(** ** Every patcher keeps the contract of the generic reconciler *)
Lemma union_covered {V} (a b : gmap string V) : a ⊆ b → a ∪ b = b.
Proof. apply map_subseteq_union. Qed.
Lemma sub_empty {V} (a : gmap string V) : a ⊆ ∅ → a = ∅.
Proof.
  intros Ha. apply map_empty. intros i. destruct (a !! i) as [x|] eqn:Hi; [|done].
  by apply (lookup_weaken _ _ _ _ Hi) in Ha.
Qed.
Lemma union_again {V} (a b : gmap string V) : a ∪ (a ∪ b) = a ∪ b.
Proof. by rewrite (assoc_L (∪)), (idemp_L (∪)). Qed.
Lemma union_keeps {V} (a b : gmap string V) k : a !! k = None → (a ∪ b) !! k = b !! k.
Proof. intros Ha. by rewrite lookup_union_r. Qed.
Lemma copy_template_ok dst src m :
  copy_template dst src = Ok m → m = with_template (o_template src ∪ o_template dst) dst.
Proof. unfold copy_template. destruct (bool_decide _); [done|]. by intros [= <-]. Qed.
Lemma copy_template_covered dst src :
  o_template src ⊆ o_template dst → copy_template dst src = Ok (with_template (o_template src ∪ o_template dst) dst).
Proof.
  intros Hs. unfold copy_template. rewrite bool_decide_false; [done|]. intros [He Hn]. apply Hn.
  rewrite He in Hs. by apply sub_empty.
Qed.

(** What a patcher does, in one normal form. *)
Definition patched_paths (k : kind) (src : resource) : list path :=
  patched_fields k ++
  match k, o_body src !! ["spec"; "volumeClaimTemplates"] with
  | AdvancedStatefulSet, Some _ => [["spec"; "volumeClaimTemplates"]]
  | _, _ => []
  end.
Definition copies_labels (k : kind) : bool := match k with ConfigMap | AdvancedStatefulSet => true | _ => false end.
Definition copies_annotations (k : kind) : bool := match k with Service | AdvancedStatefulSet => true | _ => false end.
Definition copies_template (k : kind) : bool := match k with StatefulSet | AdvancedStatefulSet => true | _ => false end.
Definition patch_result (k : kind) (dst src : resource) : resource :=
  Obj (o_key dst) (o_resourceVersion dst) (o_controller dst)
    (if copies_labels k then o_labels src ∪ o_labels dst else o_labels dst)
    (if copies_annotations k then o_annotations src ∪ o_annotations dst else o_annotations dst)
    (if copies_template k then o_template src ∪ o_template dst else o_template dst)
    (copy_fields (patched_paths k src) (o_body src) (o_body dst)) (o_status dst).
Lemma patch_of_result k dst src :
  patch_of k dst src =
  if copies_template k && bool_decide (o_template dst = ∅ ∧ o_template src ≠ ∅)
  then Halt "assignment to entry in nil map" else Ok (patch_result k dst src).
Proof.
  unfold patch_result, patched_paths, patch_of. destruct k; cbn [copies_template copies_labels copies_annotations andb];
    rewrite ?app_nil_r; try done.
  unfold advancedStatefulSet_patch, copy_template. cbn [o_template with_labels with_annotations].
  destruct (bool_decide _); [done|]. cbn [obind]. rewrite <-copy_fields_app.
  by destruct (o_body src !! ["spec"; "volumeClaimTemplates"]).
Qed.
Lemma patch_of_ok k dst src m : patch_of k dst src = Ok m → m = patch_result k dst src.
Proof. rewrite patch_of_result. destruct (_ && _); [done|]. by intros [= <-]. Qed.
Lemma patch_of_template k dst src :
  (copies_template k = true → o_template dst = ∅ → o_template src = ∅) →
  patch_of k dst src = Ok (patch_result k dst src).
Proof.
  intros Ht. rewrite patch_of_result. destruct (copies_template k); [|done].
  by rewrite bool_decide_false by naive_solver.
Qed.
Global Instance patch_of_patcher k : Patcher (patch_of k).
Proof.
  split.
  - intros e d m ->%patch_of_ok. done.
  - intros e d m ->%patch_of_ok Ha. simpl. destruct (copies_annotations k); [|done]. by apply union_keeps.
  - intros o d (Hk & Hl & Hb & Ha & Ht). rewrite patch_of_template.
    + unfold patch_result. rewrite Hb, copy_fields_same, Hl, (idemp_L (∪)), !union_covered by done.
      destruct o. simpl in *. by destruct (copies_labels k), (copies_annotations k), (copies_template k); subst.
    + intros _ He. rewrite He in Ht. by apply sub_empty.
  - intros e d m v Hm. pose proof (patch_of_ok _ _ _ _ Hm) as ->. rewrite patch_of_template.
    + unfold patch_result, with_version. simpl. rewrite copy_fields_again. do 2 f_equal.
      * destruct (copies_labels k); [by rewrite union_again|done].
      * destruct (copies_annotations k); [by rewrite union_again|done].
      * destruct (copies_template k); [by rewrite union_again|done].
    + simpl. intros -> He. apply map_empty. intros i. 
      apply (f_equal (.!! i)) in He. rewrite lookup_union, lookup_empty in He.
      by destruct (o_template d !! i), (o_template e !! i).
Qed.

(** ** Convergence for every managed kind *)
Section convergence.
  Context (marshal : gmap string string → string) (unmarshal : string → option (gmap string string)).
  (** YAML texts of maps are read back as they were written. *)
  Hypothesis yaml_roundtrip : ∀ m, unmarshal (TrimSpace (marshal m)) = Some m.

(** An existing object that does not stop the reconciliation of [d]: its versions annotation can be read and its
    pod template, where annotations are copied to it, has some. *)
Definition acceptable (d o : resource) : Prop :=
  o_key o = o_key d ∧
  (copies_template (o_key d).1.1 = true → o_template o = ∅ → o_template d = ∅) ∧
  ∃ versions, getVersionsAnnotation unmarshal (o_annotations o) = Ok versions.

Lemma assigned k o d : patch_of k o d = Ok o → ∀ p q, p ∈ patched_fields k → p `prefix_of` q → o_body o !! q = o_body d !! q.
Proof.
  intros Ho%patch_of_ok p q Hp Hq. rewrite Ho. cbn [patch_result o_body].
  rewrite lookup_copy_fields, decide_True; [done|]. apply Exists_exists. exists p. split; [|done].
  apply elem_of_app. by left.
Qed.
(** C18: every managed object converges in one reconciliation.  Whatever its kind, with no other client and no failing
    request, for a desired object as the renderers make it (no versions annotation yet, no controller but its owner), and unless the object
    on the server has an unreadable versions annotation or a pod template whose nil
    annotations would be written to: [Reconcile] succeeds; afterwards the object is on the server, every
    field that the patcher of its kind assigns is the desired one, and it has recorded exactly the versions of
    the given dependencies; all other objects are as they were; and a second [Reconcile] succeeds and
    changes nothing, not even the resource version, so that it does not trigger itself through the watches. *)
Theorem managed_converges (owner : string) (d : resource) (deps : list dependency) (w : cluster_state) :
  quiet w → desired_ok owner d → (∀ o, w_objects w !! o_key d = Some o → acceptable d o) →
  ∃ w' o,
    Reconcile marshal unmarshal owner d deps w = (w', Ok tt) ∧ w_objects w' !! o_key d = Some o ∧
    (∀ p q, p ∈ patched_fields (o_key d).1.1 → p `prefix_of` q → o_body o !! q = o_body d !! q) ∧
    getVersionsAnnotation unmarshal (o_annotations o) = Ok (generateDependencyVersionMap deps) ∧
    (∀ k, k ≠ o_key d → w_objects w' !! k = w_objects w !! k) ∧
    Reconcile marshal unmarshal owner d deps w' = (w', Ok tt).
Proof.
  intros Hq Hd Ho. unfold Reconcile, wrapM. set (r := reconcile _ _ _ _ _ _).
  destruct (r w) as [w' res] eqn:Hr.
  assert (res = Ok tt) as ->.
  { change res with ((w', res).2). rewrite <-Hr. apply reconcile_succeeds; [done|apply _|done..|].
    intros o (Hk & Ht & Hv)%Ho. split_and!; [done| |done]. eexists. by apply patch_of_template. }
  destruct (reconcile_converges marshal unmarshal yaml_roundtrip (patch_of (o_key d).1.1) owner d deps w w' Hq Hd) as ((o & Hl & Hk & Hp & Hv) & Hf & H2);
    [by intros o []%Ho|done|].
  exists w', o. split_and!; [done|done|by apply assigned|done|done|]. fold r in H2. by rewrite H2.
Qed.
End convergence.

(** A text for maps that is read back, to instantiate the theorem. *)
Fixpoint bits (p : positive) : string :=
  match p with xH => "" | xO p => String "0"%char (bits p) | xI p => String "1"%char (bits p) end.
Fixpoint unbits (s : string) : positive :=
  match s with
  | EmptyString => xH
  | String c s => if Ascii.eqb c "0"%char then xO (unbits s) else xI (unbits s)
  end.
Definition example_marshal (m : gmap string string) : string := bits (encode m).
Definition example_unmarshal (s : string) : option (gmap string string) := decode (unbits s).
Lemma example_yaml m : example_unmarshal (TrimSpace (example_marshal m)) = Some m.
Proof.
  unfold example_marshal, example_unmarshal. rewrite TrimSpace_no_space.
  - assert (∀ p, unbits (bits p) = p) as -> by (induction p; simpl; congruence). apply decode_encode.
  - generalize (encode m). by induction p.
Qed.

Definition example_desired : resource :=
  Obj (ConfigMap, "ns", "limits") 0 None ∅ ∅ ∅ {[["data"; "limits.conf"] := VStr "* soft nofile 1"]} ∅.
(** The ConfigMap exists with other data and without versions: it is replaced. *)
Definition example_world : cluster_state :=
  World 8 {[(ConfigMap, "ns", "limits") := Obj (ConfigMap, "ns", "limits") 7 None ∅ ∅ ∅ ∅ ∅]} [].
Definition example_deps : list dependency := [Dep "ns" "munge-key" "41"].
Lemma managed_converges_witness :
  let r := Reconcile example_marshal example_unmarshal "uid" example_desired example_deps in
  ∃ w' o, r example_world = (w', Ok tt) ∧ w_objects w' !! o_key example_desired = Some o ∧
          o_body o !! ["data"; "limits.conf"] = Some (VStr "* soft nofile 1") ∧ r w' = (w', Ok tt).
Proof.
  intros r.
  destruct (managed_converges example_marshal example_unmarshal example_yaml "uid" example_desired
              example_deps example_world) as (w' & o & H1 & H2 & H3 & _ & _ & H6); [done| | |].
  - split; [done|done|by left|done].
  - intros o Ho. unfold example_world, example_desired in Ho. simpl in Ho.
    rewrite lookup_singleton_eq in Ho. injection Ho as <-. split_and!; [done|done|by exists ∅].
  - exists w', o. split_and!; [exact H1|done| |exact H6].
    rewrite (H3 ["data"] ["data"; "limits.conf"]); [reflexivity|left|by exists ["limits.conf"]].
Defined.
