(* ===== verification/Ownership.v ===== *)
(** * Fields that belong to other clients

    Some fields of a managed object are written by another program: the operator creates the object and leaves
    the field alone afterwards.  This file is the logic for such claims.  A run of a controller is
    compared with a ghost store on which only the other clients' writes of the script take
    effect: [triple k q m Q] says that, however [m] is interleaved with them and whichever requests fail, field [q] of
    object [k] ends as it is in the ghost store, and that results of [m] satisfy [Q]. *)
From S2P Require Import Prelude GoStrings Effects Kube Reconciler Patchers MultiStep.
From Stdlib Require String.

Abbreviation api_event := (event fields fields).
Definition ghost_write (g : gmap key resource) (x : key * option resource) : gmap key resource :=
  match x with (k, Some o) => <[k := o]> g | (k, None) => delete k g end.
(** The store after the other clients' writes before the given requests. *)
Definition others (evs : list api_event) (g : gmap key resource) : gmap key resource :=
  foldl ghost_write g (concat (ev_writes <$> evs)).

(** A world with an API server in it. *)
Class HasCluster (W : Type) := cluster_of : W → cluster_state.
Global Instance cluster_cluster : HasCluster cluster_state := λ w, w.
Global Instance state_cluster {S} : HasCluster (S * cluster_state) := snd.
Section ownership.
  Context (k : key) (q : path).
(** Other clients store objects under their keys, do not delete the object and do not annotate it
    with versions, which is the operator's annotation. *)
Definition calm_write (x : key * option resource) : Prop :=
  (∀ o, x.2 = Some o → o_key o = x.1) ∧
  (x.1 = k → ∃ o, x.2 = Some o ∧ o_annotations o !! AnnotationVersions = None).
Definition calm (script : list api_event) : Prop := ∀ ev x, ev ∈ script → x ∈ ev_writes ev → calm_write x.
Definition filed (w : cluster_state) : Prop := ∀ i o, w_objects w !! i = Some o → o_key o = i.
Definition held (w : cluster_state) (g : gmap key resource) : Prop :=
  filed w ∧ ∃ o og, w_objects w !! k = Some o ∧ g !! k = Some og ∧
    o_annotations o !! AnnotationVersions = None ∧ o_body o !! q = o_body og !! q.
Definition triple {W A} `{HasCluster W} (m : M W A) (Q : A → Prop) : Prop :=
  ∀ w g, held (cluster_of w) g → calm (w_script (cluster_of w)) →
  ∃ evs, w_script (cluster_of w) = evs ++ w_script (cluster_of (m w).1) ∧
         held (cluster_of (m w).1) (others evs g) ∧ (∀ a, (m w).2 = Ok a → Q a).

(** ** Rules *)
Section rules.
  Context {W : Type} `{HasCluster W}.
Lemma triple_pure {A} (m : M W A) (Q : A → Prop) :
  (∀ w, (m w).1 = w ∧ (∀ a, (m w).2 = Ok a → Q a)) → triple m Q.
Proof. intros Hm w g Hh Hc. exists []. destruct (Hm w) as [-> ?]. done. Qed.
Lemma triple_ret {A} (a : A) (Q : A → Prop) : Q a → triple (ret (W:=W) a) Q.
Proof. intros HQ. apply triple_pure. intros w. split; [done|]. by intros ? [= <-]. Qed.
Lemma triple_fail {A} e (Q : A → Prop) : triple (fail (W:=W) e) Q.
Proof. by apply triple_pure. Qed.
Lemma triple_halt {A} s (Q : A → Prop) : triple (halt (W:=W) s) Q.
Proof. by apply triple_pure. Qed.
Lemma triple_lift {A} (o : outcome A) (Q : A → Prop) : (∀ a, o = Ok a → Q a) → triple (lift (W:=W) o) Q.
Proof. intros HQ. by apply triple_pure. Qed.
Lemma calm_app l1 l2 : calm (l1 ++ l2) → calm l2.
Proof. intros Hc ev x Hev. apply Hc. apply elem_of_app. by right. Qed.
Lemma others_app l1 l2 g : others (l1 ++ l2) g = others l2 (others l1 g).
Proof. unfold others. by rewrite fmap_app, concat_app, foldl_app. Qed.
Lemma triple_bind {A B : Type} (m : M W A) (f : A → M W B) Q R :
  triple m Q → (∀ a, Q a → triple (f a) R) → triple (bind m f) R.
Proof.
  intros Hm Hf w g Hh Hc. destruct (Hm w g Hh Hc) as (l1 & Hs & Hh1 & HQ). unfold bind.
  destruct (m w) as [w1 [a|e|s]]; simpl in *; [|by exists l1..].
  rewrite Hs in Hc. destruct (Hf a (HQ a eq_refl) w1 _ Hh1 (calm_app _ _ Hc)) as (l2 & Hs2 & Hh2 & HR).
  exists (l1 ++ l2). split_and!; [by rewrite Hs, Hs2, app_assoc| |done]. by rewrite others_app.
Qed.
Lemma triple_weaken {A} (m : M W A) (Q R : A → Prop) : triple m Q → (∀ a, Q a → R a) → triple m R.
Proof. intros Hm HQ w g Hh Hc. destruct (Hm w g Hh Hc) as (l & ? & ? & ?). exists l. eauto. Qed.
Lemma triple_attempt {A} (m : M W A) Q :
  triple m Q → triple (attempt m) (λ r, match r with inl a => Q a | inr _ => True end).
Proof.
  intros Hm w g Hh Hc. destruct (Hm w g Hh Hc) as (l & Hs & Hh' & HQ). exists l. unfold attempt.
  destruct (m w) as [w1 [a|e|s]]; simpl in *; split_and!; try done; intros ? [= <-]; auto.
Qed.
Lemma triple_wrapM {A} msg (m : M W A) Q : triple m Q → triple (wrapM msg m) Q.
Proof.
  intros Hm w g Hh Hc. destruct (Hm w g Hh Hc) as (l & Hs & Hh' & HQ). exists l. unfold wrapM.
  destruct (m w) as [w1 [a|e|s]]; simpl in *; split_and!; try done.
Qed.
Lemma triple_ignoreNotFound (m : M W ()) Q : triple m Q → triple (ignoreNotFound m) (λ _, True).
Proof.
  intros Hm w g Hh Hc. destruct (Hm w g Hh Hc) as (l & Hs & Hh' & HQ). exists l. unfold ignoreNotFound.
  by destruct (m w) as [w1 r].
Qed.
Lemma triple_RetryOnConflict n (m : M W ()) : triple m (λ _, True) → triple (RetryOnConflict n m) (λ _, True).
Proof.
  intros Hm. induction n as [|n IH]; [by apply triple_pure|]. intros w g Hh Hc.
  destruct (Hm w g Hh Hc) as (l & Hs & Hh' & HQ). simpl.
  destruct (m w) as [w1 [a|e|s]] eqn:Hw; simpl in *; [by exists l| |by exists l].
  destruct (IsConflict e); [|by exists l]. destruct n as [|n]; [by exists l|].
  rewrite Hs in Hc. destruct (IH w1 _ Hh' (calm_app _ _ Hc)) as (l2 & Hs2 & Hh2 & HR).
  exists (l ++ l2). split_and!; [by rewrite Hs, Hs2, app_assoc| |done]. by rewrite others_app.
Qed.
Lemma triple_steps steps : (∀ s, s ∈ steps → triple (W:=W) (step_Func s) (λ _, True)) → triple (executeCollectErrors steps) (λ _, True).
Proof.
  intros Hs. unfold executeCollectErrors. eapply triple_bind with (Q := λ _, True).
  - generalize (@nil string). induction steps as [|s steps IH]; intros errs; simpl; [by apply triple_ret|].
    eapply triple_bind; [apply triple_attempt, Hs; left|]. intros r _. apply IH. intros. apply Hs. by right.
  - intros errs _. destruct errs; [by apply triple_ret|apply triple_fail].
Qed.
End rules.

(** Another client's write takes effect on both sides. *)
Lemma held_other w g x : held w g → calm_write x → held (other_write w x) (ghost_write g x).
Proof.
  intros (Hf & o & og & Hw & Hg & Ha & Hb) [Hk Hx]. destruct x as [i [n|]]; simpl in *.
  - split.
    + intros j x. simpl. destruct (decide (j = i)) as [->|Hj]; [rewrite lookup_insert_eq|rewrite lookup_insert_ne by done; apply Hf].
      intros [= <-]. simpl. auto.
    + destruct (decide (i = k)) as [->|Hi].
      * destruct (Hx eq_refl) as (n' & [= <-] & Hn). exists (with_version (w_next w) n), n. simpl.
        by rewrite !lookup_insert_eq.
      * exists o, og. simpl. by rewrite !lookup_insert_ne.
  - assert (i ≠ k) as Hi by (intros ->; by destruct (Hx eq_refl) as (? & ? & _)). split.
    + intros j x. simpl. rewrite lookup_delete. by case_decide; [|apply Hf].
    + exists o, og. simpl. by rewrite !lookup_delete_ne.
Qed.
Lemma held_others w g xs :
  held w g → (∀ x, x ∈ xs → calm_write x) → held (foldl other_write w xs) (foldl ghost_write g xs).
Proof.
  revert w g. induction xs as [|x xs IH]; intros w g Hh Hx; [done|]. simpl. apply IH.
  - apply held_other; [done|]. apply Hx. by left.
  - intros y Hy. apply Hx. by right.
Qed.
Lemma others_script (w : cluster_state) xs : w_script (foldl other_write w xs) = w_script w.
Proof. revert w. induction xs as [|[i [n|]] xs IH]; intros w; simpl; [done|by rewrite IH..]. Qed.
(** A request: what its operation does to the store is what counts. *)
Lemma triple_request {A} (op : M cluster_state A) (Q : A → Prop) :
  (∀ w g, held w g → w_script (op w).1 = w_script w ∧ held (op w).1 g ∧ (∀ a, (op w).2 = Ok a → Q a)) →
  triple (request op) Q.
Proof.
  intros Hop w g Hh Hc. unfold cluster_of, cluster_cluster in *. unfold request. destruct (w_script w) as [|ev script] eqn:Hs.
  { exists []. destruct (Hop w g Hh) as (H1 & H2 & H3). by rewrite H1, Hs. }
  set (w1 := foldl other_write (World (w_next w) (w_objects w) script) (ev_writes ev)).
  assert (held w1 (others [ev] g)) as Hh1.
  { unfold others. simpl. rewrite app_nil_r. apply held_others; [done|]. intros x. apply Hc. left. }
  assert (w_script w1 = script) as Hs1 by (unfold w1; by rewrite others_script).
  destruct (Hop w1 _ Hh1) as (H1 & H2 & H3). exists [ev].
  destruct (ev_fault ev) as [[e|e]|]; simpl; rewrite ?H1, ?Hs1; split_and!; try done; simpl; by rewrite H1, Hs1.
Qed.

(** ** Requests *)
Lemma triple_Get i : triple (client_Get i) (λ o, o_key o = i ∧ (i = k → o_annotations o !! AnnotationVersions = None)).
Proof.
  apply triple_request. intros w g Hh. destruct (w_objects w !! i) as [o|] eqn:Ho; simpl; split_and!; try done.
  destruct Hh as (Hf & o' & og & Hw & _ & Ha & _). intros ? [= <-]. split; [by apply Hf|].
  intros ->. by rewrite Ho in Hw; simplify_eq.
Qed.
(** Storing an object under its key, another one or with the same field. *)
Lemma held_put w g o : held w g → o_key o ≠ k → held (put (o_key o) o w) g.
Proof.
  intros (Hf & o' & og & Hw & Hg & Ha & Hb) Hk. split.
  - intros j x. simpl. destruct (decide (j = o_key o)) as [->|Hj]; [rewrite lookup_insert_eq|rewrite lookup_insert_ne by done; apply Hf].
    by intros [= <-].
  - exists o', og. simpl. by rewrite lookup_insert_ne.
Qed.
Lemma held_store w g cur new :
  held w g → w_objects w !! o_key cur = Some cur → o_key new = o_key cur →
  (o_key cur = k → o_annotations new !! AnnotationVersions = o_annotations cur !! AnnotationVersions ∧
                   o_body new !! q = o_body cur !! q) →
  let r := store (o_key cur) new cur w in
  w_script r.1 = w_script w ∧ held r.1 g ∧ (∀ a, r.2 = Ok a → o_key a = o_key cur).
Proof.
  intros Hh Hcur Hk Hsame. unfold store. destruct (decide (new = cur)) as [_|Hne]; simpl.
  { split_and!; [done|done|]. by intros a [= <-]. }
  split_and!; [done| |by intros a [= <-]]. destruct (decide (o_key cur = k)) as [Hck|Hck].
  - destruct (Hsame Hck) as [Ha' Hb']. destruct Hh as (Hf & o' & og & Hw & Hg & Ha & Hb).
    rewrite Hck, Hw in Hcur. simplify_eq. split.
    + intros j x. simpl. destruct (decide (j = o_key cur)) as [->|Hj]; [rewrite lookup_insert_eq|rewrite lookup_insert_ne by done; apply Hf].
      by intros [= <-].
    + exists (with_version (w_next w) new), og. simpl. rewrite Hck, lookup_insert_eq, Ha', Hb'. done.
  - rewrite <-Hk. apply held_put; [done|by rewrite Hk].
Qed.
(** A write to the object at [i] that finds [cur] there. *)
Lemma triple_write (i : key) (f : resource → outcome resource) :
  (∀ cur new, o_key cur = i → f cur = Ok new →
     o_key new = o_key cur ∧
     (i = k → o_annotations new !! AnnotationVersions = o_annotations cur !! AnnotationVersions ∧
              o_body new !! q = o_body cur !! q)) →
  triple (write i f) (λ o, o_key o = i).
Proof.
  intros Hf. apply triple_request. intros w g Hh. destruct (w_objects w !! i) as [cur|] eqn:Hc; [|by split_and!].
  pose proof (proj1 Hh i cur Hc) as Hck. subst i.
  destruct (f cur) as [new|e|s] eqn:Hfc; [|by split_and!..].
  destruct (Hf cur new eq_refl Hfc) as [Hk Hsame]. by apply held_store.
Qed.
Lemma triple_Create d : triple (client_Create d) (λ _, True).
Proof.
  apply triple_request. intros w g Hh. destruct (w_objects w !! o_key d) as [cur|] eqn:Hc; [by split_and!|].
  split_and!; [done| |done]. apply held_put; [done|]. intros Hk. destruct Hh as (_ & o & og & Hw & _).
  rewrite <-Hk in Hw. congruence.
Qed.
Lemma triple_Update d : o_key d ≠ k → triple (client_Update d) (λ o, o_key o = o_key d).
Proof.
  intros Hk. apply triple_write. unfold optimistic. intros cur new Hc. destruct (_ =? _)%Z; [|done].
  by intros [= <-].
Qed.
Lemma triple_StatusUpdate o : triple (client_StatusUpdate o) (λ o', o_key o' = o_key o).
Proof.
  apply triple_write. unfold optimistic. intros cur new Hc. destruct (_ =? _)%Z; [|done]. by intros [= <-].
Qed.
Lemma triple_StatusPatch o m : triple (client_StatusPatch o m) (λ o', o_key o' = o_key o).
Proof. apply triple_write. by intros cur new Hc [= <-]. Qed.
(** A patch that changes neither the versions nor the field. *)
Lemma triple_Patch b m :
  (o_key b = k → o_annotations m !! AnnotationVersions = o_annotations b !! AnnotationVersions ∧
                 o_body m !! q = o_body b !! q) →
  triple (client_Patch b m) (λ o', o_key o' = o_key b).
Proof.
  intros Hsame. apply triple_write. intros cur new Hc [= <-]. split; [done|]. intros Hk.
  destruct (Hsame Hk) as [Ha Hb]. unfold patched. simpl. by rewrite !merge_map_lookup, !decide_True.
Qed.
Lemma triple_Delete i : i ≠ k → triple (client_Delete i) (λ _, True).
Proof.
  intros Hi. apply triple_request. intros w g Hh. destruct (w_objects w !! i) as [o|]; [|by split_and!].
  split_and!; [done| |done]. destruct Hh as (Hf & o' & og & Hw & Hr). split.
  - intros j x. simpl. rewrite lookup_delete. case_decide; [done|]. apply Hf.
  - exists o', og. simpl. by rewrite lookup_delete_ne.
Qed.

(** ** Reconciliation *)
Section reconcile.
  Context (marshal : gmap string string → string) (unmarshal : string → option (gmap string string)).
(** Rendering aids that change metadata only. *)
Definition same_spec (o d : resource) : Prop := o_key o = o_key d ∧ o_body o = o_body d.
Lemma controller_same owner (d d' : resource) :
  SetControllerReference owner d = Ok d' → same_spec d' d ∧ o_annotations d' = o_annotations d.
Proof.
  unfold SetControllerReference. destruct (o_controller d); [destruct (String.eqb _ _); [|done]|]; by intros [= <-].
Qed.
Lemma versions_same deps (d d' : resource) :
  updateDependencyVersions marshal unmarshal deps d = Ok d' → same_spec d' d ∧ (deps = [] → d' = d).
Proof.
  unfold updateDependencyVersions, setVersionsRecursive. destruct deps as [|x deps]; [by intros [= <-]|].
  destruct (setVersionsAnnotation _ _ _ (o_annotations d)) as [a|e|h]; simpl; [|done..].
  destruct (hasPodTemplate _); [|by intros [= <-]].
  destruct (setVersionsAnnotation _ _ _ (o_template d)) as [t|e|h]; simpl; [|done..]. by intros [= <-].
Qed.

Definition unversioned (o : resource) : Prop := o_annotations o !! AnnotationVersions = None.
Lemma triple_EnsureDeployed owner d deps :
  triple (EnsureDeployed marshal unmarshal owner d deps)
    (λ r, o_key r.1 = o_key d ∧ same_spec r.2 d ∧
          (o_key d = k → unversioned r.1) ∧ (deps = [] → unversioned d → unversioned r.2)).
Proof.
  unfold EnsureDeployed. eapply triple_bind; [apply triple_attempt, triple_Get|]. simpl.
  intros [o|err] Ho; [by apply triple_ret; destruct Ho|]. destruct (negb _); [apply triple_fail|].
  eapply triple_bind; [apply triple_wrapM, triple_lift, controller_same|]. intros d1 [[Hk1 Hb1] Ha1].
  eapply triple_bind; [apply triple_wrapM, triple_lift, versions_same|]. intros d2 [[Hk2 Hb2] Hd2].
  eapply triple_bind; [apply triple_Create|]. intros _ _.
  eapply triple_bind; [apply triple_wrapM, triple_Get|]. intros e [He Hv].
  apply triple_ret. simpl. split_and!; [congruence|split; congruence|intros; apply Hv; congruence|].
  unfold unversioned. intros ->. rewrite Hd2 by done. by rewrite Ha1.
Qed.
(** What the patcher of a kind must leave alone when the object is the one watched. *)
Lemma triple_EnsureUpdated owner base existing desired deps :
  o_key base = o_key desired →
  (o_key desired = k → deps = [] ∧ unversioned existing ∧ unversioned base ∧ unversioned desired ∧
                       o_body existing !! q = o_body base !! q) →
  triple (EnsureUpdated marshal unmarshal owner base existing desired deps) (λ _, True).
Proof.
  intros Hk Hown. unfold EnsureUpdated.
  eapply triple_bind; [apply triple_wrapM, triple_lift, versions_same|]. intros d1 [[Hk1 Hb1] Hd1].
  eapply triple_bind; [apply (triple_lift _ (λ v, getVersionsAnnotation unmarshal (o_annotations existing) = Ok v)); auto|].
  intros v1 Hv1.
  eapply triple_bind; [apply (triple_lift _ (λ v, getVersionsAnnotation unmarshal (o_annotations d1) = Ok v)); auto|].
  intros v2 Hv2. destruct (decide (v2 ≠ v1)) as [Hne|Heq].
  - eapply triple_bind; [apply triple_wrapM, triple_lift, controller_same|]. intros d2 [[Hk2 Hb2] Ha2].
    eapply triple_bind; [apply triple_wrapM, triple_Update|by intros; apply triple_ret].
    simpl. rewrite Hk2, Hk1. intros Hd. destruct (Hown Hd) as (Hdeps & He & _ & Hd0 & _). apply Hne.
    rewrite (Hd1 Hdeps) in Hv2. unfold unversioned, getVersionsAnnotation in *. rewrite He in Hv1. rewrite Hd0 in Hv2.
    by simplify_eq.
  - eapply triple_bind; [apply triple_wrapM, triple_Patch|by intros; apply triple_ret].
    rewrite Hk. intros Hd. destruct (Hown Hd) as (_ & He & Hb & _ & Hq). unfold unversioned in *. by rewrite He, Hb.
Qed.
(** Reconciling an object leaves [q] of [k] alone if it is another object, or if it has no dependencies
    and its patcher does not assign [q]. *)
Lemma triple_Reconcile owner d deps :
  (o_key d = k → deps = [] ∧ unversioned d ∧ ¬ covered (patched_paths (o_key d).1.1 d) q) →
  triple (Reconcile marshal unmarshal owner d deps) (λ _, True).
Proof.
  intros Hown. unfold Reconcile, reconcile. apply triple_wrapM, triple_wrapM.
  destruct (negb _); [apply triple_fail|].
  eapply triple_bind; [apply triple_wrapM, triple_EnsureDeployed|]. intros [e d'] (Hke & [Hkd Hbd] & Hve & Hvd).
  simpl in *. eapply triple_bind; [apply triple_wrapM, (triple_lift _ (λ m, patch_of (o_key d).1.1 e d' = Ok m)); auto|].
  intros m ->%patch_of_ok. apply triple_wrapM, triple_EnsureUpdated; [congruence|]. rewrite Hkd. intros Hk.
  destruct (Hown Hk) as (Hdeps & Hd & Hq). split_and!; auto.
  - unfold unversioned in *. simpl. destruct (copies_annotations _); [|auto]. rewrite union_keeps; auto.
  - cbn [patch_result o_body]. rewrite lookup_copy_fields, decide_False; [done|].
    unfold patched_paths in *. by rewrite Hbd.
Qed.
End reconcile.
End ownership.
