(* ===== verification/QuietRuns.v ===== *)
(** * Runs without other clients

    [writes F m Q]: with no other client and no failing request, [m] writes only objects whose keys satisfy [F], keeps objects
    stored under their own keys, and its results satisfy [Q].  Used to follow a controller through its requests. *)
From S2P Require Import Prelude GoStrings Effects Kube MultiStep Reconciler Patchers Ownership.
From Stdlib Require String.

Section quiet_runs.
  Context (F : key → Prop).
Definition writes {A} (m : M cluster_state A) (Q : A → Prop) : Prop :=
  ∀ w, quiet w → filed w →
  quiet (m w).1 ∧ filed (m w).1 ∧ (∀ i, ¬ F i → w_objects (m w).1 !! i = w_objects w !! i) ∧ (∀ a, (m w).2 = Ok a → Q a).

Lemma writes_pure {A} (m : M cluster_state A) (Q : A → Prop) :
  (∀ w, (m w).1 = w ∧ (∀ a, (m w).2 = Ok a → Q a)) → writes m Q.
Proof. intros Hm w Hq Hf. by destruct (Hm w) as [-> ?]. Qed.
Lemma writes_ret {A} (a : A) (Q : A → Prop) : Q a → writes (ret a) Q.
Proof. intros HQ. apply writes_pure. intros w. split; [done|]. by intros ? [= <-]. Qed.
Lemma writes_fail {A} e (Q : A → Prop) : writes (fail e) Q.
Proof. by apply writes_pure. Qed.
Lemma writes_lift {A} (o : outcome A) (Q : A → Prop) : (∀ a, o = Ok a → Q a) → writes (lift o) Q.
Proof. intros HQ. by apply writes_pure. Qed.
Lemma writes_bind {A B : Type} (m : M cluster_state A) (f : A → M cluster_state B) Q R :
  writes m Q → (∀ a, Q a → writes (f a) R) → writes (bind m f) R.
Proof.
  intros Hm Hf w Hq Hw. destruct (Hm w Hq Hw) as (Hq1 & Hw1 & Hs1 & HQ). unfold bind.
  destruct (m w) as [w1 [a|e|s]]; simpl in *; [|done..].
  destruct (Hf a (HQ a eq_refl) w1 Hq1 Hw1) as (Hq2 & Hw2 & Hs2 & HR). split_and!; [done|done| |done].
  intros i Hi. by rewrite Hs2, Hs1.
Qed.
Lemma writes_weaken {A} (m : M cluster_state A) (Q R : A → Prop) : writes m Q → (∀ a, Q a → R a) → writes m R.
Proof. intros Hm HQ w Hq Hw. destruct (Hm w Hq Hw) as (? & ? & ? & ?). split_and!; eauto. Qed.
Lemma writes_attempt {A} (m : M cluster_state A) Q :
  writes m Q → writes (attempt m) (λ r, match r with inl a => Q a | inr _ => True end).
Proof.
  intros Hm w Hq Hw. destruct (Hm w Hq Hw) as (? & ? & ? & HQ). unfold attempt.
  destruct (m w) as [w1 [a|e|s]]; simpl in *; split_and!; try done; intros ? [= <-]; auto.
Qed.
Lemma writes_wrapM {A} msg (m : M cluster_state A) Q : writes m Q → writes (wrapM msg m) Q.
Proof.
  intros Hm w Hq Hw. destruct (Hm w Hq Hw) as (? & ? & ? & HQ). unfold wrapM.
  destruct (m w) as [w1 [a|e|s]]; simpl in *; split_and!; try done.
Qed.
Lemma writes_request {A} (op : M cluster_state A) (Q : A → Prop) :
  (∀ w, quiet w → filed w →
     quiet (op w).1 ∧ filed (op w).1 ∧ (∀ i, ¬ F i → w_objects (op w).1 !! i = w_objects w !! i) ∧ (∀ a, (op w).2 = Ok a → Q a)) →
  writes (request op) Q.
Proof. intros Hop w Hq Hf. rewrite quiet_request by done. auto. Qed.
Lemma writes_Get i : writes (client_Get i) (λ o, o_key o = i).
Proof.
  apply writes_request. intros w Hq Hf. destruct (w_objects w !! i) as [o|] eqn:Ho; [|done]. split_and!; try done.
  intros a [= <-]. by apply Hf.
Qed.
Lemma filed_put (w : cluster_state) (o : resource) : filed w → filed (put (o_key o) o w).
Proof.
  intros Hf j x. simpl. destruct (decide (j = o_key o)) as [->|Hj]; [rewrite lookup_insert_eq|rewrite lookup_insert_ne by done; apply Hf].
  by intros [= <-].
Qed.
Lemma writes_put (w : cluster_state) (o : resource) : F (o_key o) → ∀ i, ¬ F i → w_objects (put (o_key o) o w) !! i = w_objects w !! i.
Proof. intros Ho i Hi. simpl. rewrite lookup_insert_ne; [done|]. by intros <-. Qed.
Lemma writes_Create d : F (o_key d) → writes (client_Create d) (λ _, True).
Proof.
  intros Hd. apply writes_request. intros w Hq Hf. destruct (w_objects w !! o_key d); [done|].
  split_and!; [done|by apply filed_put|by apply writes_put|done].
Qed.
Lemma writes_write i f :
  F i → (∀ cur new, o_key cur = i → f cur = Ok new → o_key new = i) → writes (write i f) (λ o, o_key o = i).
Proof.
  intros Hi Hf. apply writes_request. intros w Hq Hw. destruct (w_objects w !! i) as [cur|] eqn:Hc; [|done].
  pose proof (Hw i cur Hc) as Hk. destruct (f cur) as [new|e|h] eqn:Hn; [|done..].
  pose proof (Hf cur new Hk Hn) as Hk'. unfold store. destruct (decide (new = cur)); simpl.
  - split_and!; try done. intros a [= <-]. done.
  - subst i. rewrite <-Hk' in *. split_and!; [done|by apply filed_put|by apply writes_put|]. by intros a [= <-].
Qed.
Lemma writes_Update d : F (o_key d) → writes (client_Update d) (λ o, o_key o = o_key d).
Proof. intros Hd. apply writes_write; [done|]. unfold optimistic. intros cur new Hc. destruct (_ =? _)%Z; by intros [= <-]. Qed.
Lemma writes_Patch b m : F (o_key b) → writes (client_Patch b m) (λ o, o_key o = o_key b).
Proof. intros Hd. apply writes_write; [done|]. by intros cur new Hc [= <-]. Qed.
Lemma writes_StatusPatch b m : F (o_key b) → writes (client_StatusPatch b m) (λ o, o_key o = o_key b).
Proof. intros Hd. apply writes_write; [done|]. by intros cur new Hc [= <-]. Qed.
Lemma writes_StatusUpdate b : F (o_key b) → writes (client_StatusUpdate b) (λ o, o_key o = o_key b).
Proof. intros Hd. apply writes_write; [done|]. unfold optimistic. intros cur new Hc. destruct (_ =? _)%Z; by intros [= <-]. Qed.
Lemma writes_Delete i : F i → writes (client_Delete i) (λ _, True).
Proof.
  intros Hi. apply writes_request. intros w Hq Hw. destruct (w_objects w !! i); [|done]. split_and!; try done.
  - intros j x. simpl. rewrite lookup_delete. by case_decide; [|apply Hw].
  - intros j Hj. simpl. rewrite lookup_delete_ne; [done|]. by intros ->.
Qed.
Lemma writes_ignoreNotFound m Q : writes m Q → writes (ignoreNotFound m) (λ _, True).
Proof. intros Hm w Hq Hw. destruct (Hm w Hq Hw) as (? & ? & ? & _). unfold ignoreNotFound. by destruct (m w). Qed.
Lemma writes_List k ns : writes (client_List k ns) (λ _, True).
Proof. by apply writes_request. Qed.
Lemma writes_Cleanup owner i : F i → writes (Cleanup owner i) (λ _, True).
Proof.
  intros Hi. unfold Cleanup. eapply writes_bind; [apply writes_attempt, writes_Get|]. intros [o|e] _.
  - destruct (negb _); [by apply writes_ret|]. by eapply writes_wrapM, writes_ignoreNotFound, writes_Delete.
  - destruct (IsNotFound e); [by apply writes_ret|apply writes_fail].
Qed.
Lemma writes_deleteIfOwned owner i : F i → writes (deleteIfOwnedByController owner i) (λ _, True).
Proof.
  intros Hi. unfold deleteIfOwnedByController. eapply writes_bind; [apply writes_attempt, writes_Get|]. intros [o|e] _.
  - destruct (negb _); [by apply writes_ret|]. by apply writes_wrapM, writes_Delete.
  - destruct (IsNotFound e); [by apply writes_ret|apply writes_fail].
Qed.

(** The objects that the generic reconciler writes. *)
Lemma writes_Reconcile marshal unmarshal owner d deps :
  F (o_key d) → writes (Reconcile marshal unmarshal owner d deps) (λ _, True).
Proof.
  intros Hd. unfold Reconcile, reconcile. apply writes_wrapM, writes_wrapM.
  destruct (negb _); [apply writes_fail|].
  eapply writes_bind with (Q := λ r, o_key r.1 = o_key d ∧ o_key r.2 = o_key d).
  { apply writes_wrapM. unfold EnsureDeployed. eapply writes_bind; [apply writes_attempt, writes_Get|].
    intros [o|err] Ho; [by apply writes_ret|]. destruct (negb _); [apply writes_fail|].
    eapply writes_bind; [apply writes_wrapM, writes_lift, controller_same|]. intros d1 [[Hk1 _] _].
    eapply writes_bind; [apply writes_wrapM, writes_lift, versions_same|]. intros d2 [[Hk2 _] _].
    eapply writes_bind; [apply writes_Create; congruence|]. intros _ _.
    eapply writes_bind; [apply writes_wrapM, writes_Get|]. intros e He. apply writes_ret. simpl. split; congruence. }
  intros [e d'] [He Hd']. simpl in *.
  eapply writes_bind; [apply writes_wrapM, (writes_lift _ (λ m, o_key m = o_key d))|].
  { intros m ->%patch_of_ok. done. }
  intros m Hm. apply writes_wrapM. unfold EnsureUpdated.
  eapply writes_bind; [apply writes_wrapM, writes_lift, versions_same|]. intros d1 [[Hk1 _] _].
  do 2 (eapply writes_bind; [by apply (writes_lift _ (λ _, True))|]; intros ? _).
  destruct (decide _).
  - eapply writes_bind; [apply writes_wrapM, writes_lift, controller_same|]. intros d2 [[Hk2 _] _].
    eapply writes_bind; [apply writes_wrapM, writes_Update; simpl; congruence|]. intros. by apply writes_ret.
  - eapply writes_bind; [apply writes_wrapM, writes_Patch; congruence|]. intros. by apply writes_ret.
Qed.
End quiet_runs.

(** ** Exact results *)
(** Getting an object. *)
Lemma Get_quiet i (w : cluster_state) :
  quiet w → client_Get i w = (w, match w_objects w !! i with Some o => Ok o | None => Err (ErrAPI NotFound) end).
Proof. intros Hq. unfold client_Get. rewrite quiet_request by done. by destruct (w_objects w !! i). Qed.
(** Patching the status of the object as stored. *)
Lemma StatusPatch_quiet (w : cluster_state) o st :
  quiet w → w_objects w !! o_key o = Some o →
  ∃ v w', client_StatusPatch o (with_status st o) w = (w', Ok (with_version v (with_status st o))) ∧
          w_objects w' !! o_key o = Some (with_version v (with_status st o)).
Proof.
  intros Hq Ho. unfold client_StatusPatch, write. rewrite quiet_request by done. rewrite Ho. cbn [o_status with_status].
  rewrite merge_patch_exact. unfold store. destruct (decide _) as [Heq|Hne].
  - exists (o_resourceVersion o), w. assert (with_version (o_resourceVersion o) (with_status st o) = o) as ->; [|done].
    rewrite Heq. by destruct o.
  - eexists _, _. split; [done|]. simpl. by rewrite lookup_insert_eq.
Qed.

(** ** Runs that succeed

    [yields m Q objs]: with no other client and no failing request, [m] succeeds when the server has [objs], and [Q] holds of its result
    and of the objects afterwards. *)
Definition yields {A} (m : M cluster_state A) (Q : A → gmap key resource → Prop) (objs : gmap key resource) : Prop :=
  ∀ w, quiet w → filed w → w_objects w = objs → ∃ w' a, m w = (w', Ok a) ∧ quiet w' ∧ filed w' ∧ Q a (w_objects w').
Lemma yields_weaken {A} (m : M cluster_state A) (Q R : A → gmap key resource → Prop) (objs : gmap key resource) :
  yields m Q objs → (∀ a o, Q a o → R a o) → yields m R objs.
Proof. intros Hm HQ w Hq Hf Ho. destruct (Hm w Hq Hf Ho) as (w' & a & ? & ? & ? & ?). exists w', a. eauto. Qed.
Lemma yields_ret {A} (a : A) (Q : A → gmap key resource → Prop) (objs : gmap key resource) : Q a objs → yields (ret a) Q objs.
Proof. intros HQ w Hq Hf <-. by exists w, a. Qed.
Lemma yields_lift {A} (o : outcome A) (a : A) (Q : A → gmap key resource → Prop) (objs : gmap key resource) : o = Ok a → Q a objs → yields (lift o) Q objs.
Proof. intros -> HQ w Hq Hf <-. by exists w, a. Qed.
Lemma yields_bind {A B : Type} (m : M cluster_state A) (f : A → M cluster_state B) (Q : B → gmap key resource → Prop) (objs : gmap key resource) :
  yields m (λ a, yields (f a) Q) objs → yields (bind m f) Q objs.
Proof.
  intros Hm w Hq Hf Ho. destruct (Hm w Hq Hf Ho) as (w1 & a & Hr & Hq1 & Hf1 & Hk).
  destruct (Hk w1 Hq1 Hf1 eq_refl) as (w2 & b & Hr2 & ?). exists w2, b. unfold bind. by rewrite Hr.
Qed.
Lemma yields_wrapM {A} (msg : string) (m : M cluster_state A) (Q : A → gmap key resource → Prop) (objs : gmap key resource) : yields m Q objs → yields (wrapM msg m) Q objs.
Proof. intros Hm w Hq Hf Ho. destruct (Hm w Hq Hf Ho) as (w' & a & Hr & ?). exists w', a. unfold wrapM. by rewrite Hr. Qed.
Lemma yields_retry (n : nat) (m : M cluster_state ()) (Q : () → gmap key resource → Prop) (objs : gmap key resource) : yields m Q objs → yields (RetryOnConflict (S n) m) Q objs.
Proof. intros Hm w Hq Hf Ho. destruct (Hm w Hq Hf Ho) as (w' & a & Hr & ?). exists w', a. cbn. by rewrite Hr. Qed.
Lemma yields_attempt {A} (m : M cluster_state A) (Q : A + gerror → gmap key resource → Prop) (objs : gmap key resource) : yields m (λ a, Q (inl a)) objs → yields (attempt m) Q objs.
Proof. intros Hm w Hq Hf Ho. destruct (Hm w Hq Hf Ho) as (w' & a & Hr & ?). exists w', (inl a). unfold attempt. by rewrite Hr. Qed.
Lemma yields_Get (k : key) (o : resource) (Q : resource → gmap key resource → Prop) (objs : gmap key resource) :
  objs !! k = Some o → (o_key o = k → Q o objs) → yields (client_Get k) Q objs.
Proof. intros Ho HQ w Hq Hf <-. exists w, o. rewrite Get_quiet, Ho by done. pose proof (Hf _ _ Ho). auto. Qed.
(** An object that may not exist. *)
Lemma yields_try_Get (k : key) (Q : resource + gerror → gmap key resource → Prop) (objs : gmap key resource) :
  (∀ o, objs !! k = Some o → o_key o = k → Q (inl o) objs) → (objs !! k = None → Q (inr (ErrAPI NotFound)) objs) →
  yields (attempt (client_Get k)) Q objs.
Proof.
  intros H1 H2 w Hq Hf <-. unfold attempt. rewrite Get_quiet by done. destruct (w_objects w !! k) as [o|] eqn:Ho.
  - exists w, (inl o). pose proof (Hf _ _ Ho). eauto.
  - exists w, (inr (ErrAPI NotFound)). auto.
Qed.
Lemma yields_List (k : kind) (ns : string) (Q : list resource → gmap key resource → Prop) (objs : gmap key resource) :
  Q (filter (λ o, (o_key o).1 = (k, ns)) (snd <$> map_to_list objs)) objs → yields (client_List k ns) Q objs.
Proof. intros HQ w Hq Hf <-. unfold client_List. rewrite quiet_request by done. eexists _, _. split_and!; done. Qed.
Lemma yields_Create (d : resource) (Q : () → gmap key resource → Prop) (objs : gmap key resource) :
  objs !! o_key d = None → (∀ v, Q tt (<[o_key d := with_version v d]> objs)) → yields (client_Create d) Q objs.
Proof.
  intros Hn HQ w Hq Hf <-. unfold client_Create. rewrite quiet_request, Hn by done. eexists _, tt. split_and!; [done..|by apply filed_put|].
  cbn. apply HQ.
Qed.
(** The object as it was got, changed. *)
Lemma yields_Update (d cur : resource) (Q : resource → gmap key resource → Prop) (objs : gmap key resource) :
  objs !! o_key d = Some cur → o_resourceVersion cur = o_resourceVersion d →
  (∀ v, let o := with_version v (with_status (o_status cur) d) in Q o (<[o_key d := o]> objs)) → yields (client_Update d) Q objs.
Proof.
  intros Hc Hv HQ w Hq Hf <-. unfold client_Update, write, optimistic. rewrite quiet_request, Hc by done. rewrite (proj2 (Z.eqb_eq _ _) Hv).
  unfold store. destruct (decide _) as [He|Hne].
  - eexists w, cur. split_and!; [done..|]. specialize (HQ (o_resourceVersion cur)). cbn in HQ.
    assert (with_version (o_resourceVersion cur) (with_status (o_status cur) d) = cur) as E by (rewrite He; by destruct cur).
    rewrite E in HQ. rewrite insert_id in HQ by done. done.
  - eexists _, _. split_and!; [done..| |cbn; apply HQ].
    apply (filed_put w (with_status (o_status cur) d) Hf).
Qed.
