(* ===== verification/ConfigTexts.v ===== *)
(** * Texts of configuration files and small ConfigMaps

    [internal/render/utils] (configuration files line by line) and the ConfigMaps of [internal/render/worker/configmap.go]
    and [internal/render/common/configmap.go] that the workers mount. *)
From S2P Require Import Prelude GoStrings Naming Effects Reconciler Patchers.
From Stdlib Require String.

(** ** Configuration files *)
Record prop := Prop_ { prop_key : string; prop_value : string; prop_connector : string }.
Inductive ConfigFile :=
| PropertiesConfig (props : list prop)
| MultilineStringConfig (lines : list string)
| AsIsConfig (config : string).
Definition DefaultConnector : string := "=".
Definition AddProperty (key value : string) (props : list prop) : list prop := props ++ [Prop_ key value DefaultConnector].
Definition AddPropertyWithConnector (key value connector : string) (props : list prop) : list prop :=
  props ++ [Prop_ key value connector].
Definition AddComment (comment : string) (props : list prop) : list prop := props ++ [Prop_ "#" comment ""].
Definition Render (c : ConfigFile) : string :=
  match c with
  | PropertiesConfig props => Join ((λ p, prop_key p +:+ prop_connector p +:+ prop_value p) <$> props) newline
  | MultilineStringConfig lines => Join lines newline
  | AsIsConfig config => config
  end.

(** ** Files of the workers *)
Definition generateSysctlConfig : ConfigFile := PropertiesConfig (AddProperty "vm.max_map_count" "655300" []).
Definition generateDefaultSupervisordConfig : ConfigFile := MultilineStringConfig
  ["[supervisord]"; "nodaemon=true"; "logfile=/dev/null ; Output only to stdout/stderr"; "logfile_maxbytes=0";
   "pidfile=/var/run/supervisord.pid"; ""; "[program:slurmd]"; "priority=1"; "stdout_logfile=/dev/fd/1";
   "stdout_logfile_maxbytes=0"; "stderr_logfile=/dev/fd/2"; "stderr_logfile_maxbytes=0"; "redirect_stderr=true";
   "command=/opt/bin/slurm/slurmd_entrypoint.sh"; "autostart=true"; "autorestart=true"; "startsecs=0";
   "stopasgroup=true ; Send SIGTERM to all child processes of supervisord";
   "killasgroup=true ; Send SIGKILL to all child processes of supervisord";
   "stopsignal=SIGTERM ; Signal to send to the program to stop it";
   "stopwaitsecs=10 ; Wait for the process to stop before sending a SIGKILL"; ""; "[program:sshd]"; "priority=10";
   "stdout_logfile=/dev/fd/1"; "stdout_logfile_maxbytes=0"; "stderr_logfile=/dev/fd/2"; "stderr_logfile_maxbytes=0";
   "redirect_stderr=true"; "command=/usr/sbin/sshd -D -e -f /mnt/ssh-configs/sshd_config"; "autostart=true";
   "autorestart=true"; "startsecs=0"; "stopasgroup=true ; Send SIGTERM to all child processes of supervisord";
   "killasgroup=true ; Send SIGKILL to all child processes of supervisord";
   "stopsignal=SIGTERM ; Signal to send to the program to stop it";
   "stopwaitsecs=10 ; Wait for the process to stop before sending a SIGKILL"].
Definition generateUnlimitedSecurityLimitsConfig : ConfigFile := MultilineStringConfig
  ["# Set core file size to unlimited (-c)"; "*    soft    core        unlimited";
   "*    hard    core        unlimited"; "# Set data segment size to unlimited (-d)";
   "*    soft    data        unlimited"; "*    hard    data        unlimited"; "# Set file size to unlimited (-f)";
   "*    soft    fsize       unlimited"; "*    hard    fsize       unlimited";
   "# Set pending signals to unlimited (-i)"; "*    soft    sigpending  unlimited";
   "*    hard    sigpending  unlimited"; "# Set locked-in-memory size to unlimited (-l)";
   "*    soft    memlock     unlimited"; "*    hard    memlock     unlimited";
   "# Set resident set size (physical memory usage) to unlimited (-m)"; "*    soft    rss         unlimited";
   "*    hard    rss         unlimited"; "# Set the number of open files to 1048576 (-n)";
   "*    soft    nofile      1048576"; "*    hard    nofile      1048576";
   "# Set POSIX message queue size to unlimited (-q)"; "*    soft    msgqueue    unlimited";
   "*    hard    msgqueue    unlimited"; "# Set real-time priority to unlimited (-r)";
   "*    soft    rtprio      unlimited"; "*    hard    rtprio      unlimited"; "# Set stack size to unlimited (-s)";
   "*    soft    stack       unlimited"; "*    hard    stack       unlimited"; "# Set CPU time to unlimited (-t)";
   "*    soft    cpu         unlimited"; "*    hard    cpu         unlimited";
   "# Set the number of user processes to unlimited (-u)"; "*    soft    nproc       unlimited";
   "*    hard    nproc       unlimited"; "# Set virtual memory size to unlimited (-v)";
   "*    soft    as          unlimited"; "*    hard    as          unlimited";
   "# Set the number of file locks to unlimited (-x)"; "*    soft    locks       unlimited";
   "*    hard    locks       unlimited"; "# Set max scheduling priority to -20 (-e)"; "*    soft    nice        -20";
   "*    hard    nice        -20"].
Definition generateEmptySecurityLimitsConfig : ConfigFile := MultilineStringConfig ["#Empty security limits file"].
Definition sshdKeys : string := "/etc/ssh/sshd_keys".
Definition jailPath : string := "/mnt/jail".
(** Of the login nodes: the port of sshd, and whether users come from SSSD. *)
Definition generateSshdConfig (port : Z) (sssd : bool) : ConfigFile := MultilineStringConfig
  (["Port " +:+ Itoa port; "PermitRootLogin yes"; "PasswordAuthentication no"; "ChallengeResponseAuthentication no"; "UsePAM yes";
    "AcceptEnv LANG LC_*"; "X11Forwarding no"; "AllowTcpForwarding yes"; "Subsystem sftp internal-sftp";
    "HostKey " +:+ sshdKeys +:+ "/ssh_host_rsa_key"; "HostKey " +:+ sshdKeys +:+ "/ssh_host_ecdsa_key";
    "HostKey " +:+ sshdKeys +:+ "/ssh_host_ed25519_key"; "ChrootDirectory " +:+ jailPath; "ClientAliveInterval 3600";
    "ClientAliveCountMax 5"; "MaxStartups 100:50:300"; "LoginGraceTime 120"; "MaxAuthTries 4"; "LogLevel DEBUG3"] ++
   (if sssd then
      [""; "# Ask SSSD for users' public keys"; "AuthorizedKeysCommand /usr/bin/sss_ssh_authorizedkeys";
       "AuthorizedKeysCommandUser root"]
    else []) ++
   [""; "Match User root"; "    AuthorizedKeysFile /root/.ssh/authorized_keys " +:+ jailPath +:+ "/root/.ssh/authorized_keys";
    ""; "Match User *"; "    LogLevel INFO"]).

(** ** ConfigMaps *)
Definition new_ConfigMap (namespace name : string) (labels : gmap string string) (file : string) (data : string) : resource :=
  Obj (ConfigMap, namespace, name) 0 None labels ∅ ∅ {[["data"; file] := VStr data]} ∅.
Definition RenderConfigMapSysctl (namespace cluster : string) : resource :=
  new_ConfigMap namespace (BuildConfigMapSysctlName cluster) (RenderLabels ComponentTypeWorker cluster) "sysctl.conf"
    (Render generateSysctlConfig).
Definition RenderDefaultConfigMapSupervisord (namespace cluster : string) : resource :=
  new_ConfigMap namespace (BuildConfigMapSupervisordName cluster) (RenderLabels ComponentTypeWorker cluster)
    "supervisord.conf" (Render generateDefaultSupervisordConfig).
Definition RenderConfigMapSSHDConfigs (namespace cluster : string) (port : Z) (sssd : bool) (c : ComponentType) : resource :=
  new_ConfigMap namespace (BuildConfigMapSSHDConfigsNameWorker cluster) (RenderLabels c cluster) "sshd_config"
    (Render (generateSshdConfig port sssd)).
(** The limits of a component of the cluster, from the limits its spec gives (only login and controller have
    some). *)
Definition RenderConfigMapSecurityLimits (namespace cluster : string) (c : ComponentType) (login controller : string) : resource :=
  let data := match c with ComponentTypeLogin => login | ComponentTypeController => controller | _ => "" end in
  new_ConfigMap namespace (BuildConfigMapSecurityLimitsName c cluster) (RenderLabels c cluster) "limits.conf"
    (if String.eqb data "" then Render generateEmptySecurityLimitsConfig else data).
Definition RenderConfigMapSecurityLimitsForNodeSet (namespace cluster nodeSet data : string) : resource :=
  new_ConfigMap namespace (BuildConfigMapSecurityLimitsForNodeSetName cluster nodeSet)
    (RenderLabels ComponentTypeNodeSet cluster) "limits.conf"
    (if String.eqb data "" then Render generateUnlimitedSecurityLimitsConfig else data).
