(* ===== verification/Workers.v ===== *)
(** * Values and rendering of a NodeSet's worker objects

    [internal/values/slurm_nodeset.go] and [internal/render/worker]: what the NodeSet controller computes from
    a NodeSet and its cluster before it reconciles the objects.  The pod itself (containers, volumes, volume claims)
    is a parameter of the StatefulSet's rendering, which [WorkerPods.v] gives; everything else of it is here, above all how many
    pods there are and at which ordinals. *)
From S2P Require Import Prelude GoStrings Naming Effects Reconciler Patchers.
From Stdlib Require String.

(** ** Reading and writing flattened JSON *)
Definition field_str (b : fields) (p : path) : string :=
  match b !! p with Some (VStr s) => s | _ => "" end.
Definition field_optstr (b : fields) (p : path) : option string :=
  match b !! p with Some (VStr s) => Some s | _ => None end.
Definition field_int (b : fields) (p : path) : Z :=
  match b !! p with Some (VInt z) => z | _ => 0 end.
Definition field_optbool (b : fields) (p : path) : option bool :=
  match b !! p with Some (VBool x) => Some x | _ => None end.
Definition field_ints (b : fields) (p : path) : list Z :=
  match b !! p with Some (VInts l) => l | _ => [] end.
Definition field_conds (b : fields) (p : path) : list Condition :=
  match b !! p with Some (VConds l) => l | _ => [] end.
Definition field_strs (b : fields) (p : path) : list string :=
  match b !! p with Some (VStrs l) => l | _ => [] end.
Definition field_rows (b : fields) (p : path) : list (list (string * string)) :=
  match b !! p with Some (VRows l) => l | _ => [] end.
(** Is there anything at or below a path? *)
Definition has_field (b : fields) (p : path) : bool :=
  existsb (λ kv, bool_decide (p `prefix_of` kv.1)) (map_to_list b).
Fixpoint strip (p q : path) : option path :=
  match p, q with
  | [], q => Some q
  | x :: p, y :: q => if String.eqb x y then strip p q else None
  | _, _ => None
  end.
(** A map of strings at a path. *)
Definition strings_at (b : fields) (p : path) : gmap string string :=
  list_to_map (omap (λ kv, match strip p kv.1, kv.2 with
                           | Some [k], VStr s => Some (k, s)
                           | _, _ => None
                           end) (map_to_list b)).
Definition at_path (p : path) (m : gmap string string) : fields :=
  list_to_map ((λ kv, (p ++ [kv.1], VStr kv.2)) <$> map_to_list m).
(** A subtree put at a path. *)
Definition below (p : path) (b : fields) : fields :=
  list_to_map ((λ kv, (p ++ kv.1, kv.2)) <$> map_to_list b).
(** What is below a path. *)
Definition subtree (p : path) (b : fields) : fields :=
  list_to_map (omap (λ kv, (λ q, (q, kv.2)) <$> strip p kv.1) (map_to_list b)).
(** The elements of an array that is below its indices: only objects that are read have such arrays, and no element is
    empty. *)
Definition list_at (b : fields) (p : path) : list fields :=
  omap (λ i, let e := subtree (p ++ [Itoa i]) b in if decide (e = ∅) then None else Some e) (seqZ 0 (Z.of_nat (size b))).
Definition o_namespace (o : resource) : string := (o_key o).1.2.
Definition o_name (o : resource) : string := (o_key o).2.
Definition o_uid (o : resource) : string := field_str (o_body o) ["metadata"; "uid"].

(** ** Values ([BuildSlurmNodeSetFrom]) *)
Record SlurmNodeSet := mkSlurmNodeSet {
  v_Name : string;
  v_Namespace : string;                          (* ParentalCluster *)
  v_ClusterName : string;
  v_Annotations : gmap string string;
  v_SupervisorDConfigMapDefault : bool;
  v_SupervisorDConfigMapName : string;
  v_SSHDConfigMapDefault : bool;
  v_SSHDConfigMapName : string;
  v_ContainerSSSD : bool;                        (* is there one *)
  v_IsSSSDSecretDefault : bool;
  v_SSSDConfSecretName : string;
  v_StatefulSetName : string;
  v_Replicas : Z;
  v_MaxUnavailable : value;
  v_UpdateStrategy : string;
  v_Service : string;
  v_ServiceUmbrella : string;
  v_WhenDeleted : string;                        (* PersistentVolumeClaimRetentionPolicy *)
  v_WhenScaled : string;
  v_Maintenance : option string;
  v_EphemeralNodes : option bool;
  v_ActiveNodes : list Z;
  v_spec : fields                                (* what is only passed on to the rendering of the pod *)
}.
Definition DeletePolicy : string := "Delete".
Definition retention (explicit : string) : string := if String.eqb explicit "" then DeletePolicy else explicit.
Definition or_default (ref dflt : string) : bool * string :=
  if String.eqb ref "" then (true, dflt) else (false, ref).
Definition BuildSlurmNodeSetFrom (nodeSet : resource) (cluster : string) (maintenance : option string) : SlurmNodeSet :=
  let spec := o_body nodeSet in
  let name := o_name nodeSet in
  let '(supervisordDefault, supervisordName) :=
    or_default (field_str spec ["spec"; "configMapRefSupervisord"]) (BuildConfigMapSupervisordName cluster) in
  let '(sshdDefault, sshdName) :=
    or_default (field_str spec ["spec"; "configMapRefSshd"]) (BuildConfigMapSSHDConfigsNameWorker cluster) in
  let sssd := has_field spec ["spec"; "sssd"] in
  let '(sssdDefault, sssdName) :=
    if sssd then or_default (field_str spec ["spec"; "sssdConfSecretRefName"]) (BuildNodeSetSecretSSSDConfName cluster name)
    else (false, "") in
  let policy := ["spec"; "slurmd"; "volumes"; "persistentVolumeClaimRetentionPolicy"] in
  {| v_Name := name; v_Namespace := o_namespace nodeSet; v_ClusterName := cluster;
     v_Annotations := strings_at spec ["spec"; "workerAnnotations"];
     v_SupervisorDConfigMapDefault := supervisordDefault; v_SupervisorDConfigMapName := supervisordName;
     v_SSHDConfigMapDefault := sshdDefault; v_SSHDConfigMapName := sshdName;
     v_ContainerSSSD := sssd; v_IsSSSDSecretDefault := sssdDefault; v_SSSDConfSecretName := sssdName;
     v_StatefulSetName := BuildNodeSetStatefulSetName name;
     v_Replicas := field_int spec ["spec"; "replicas"];
     v_MaxUnavailable := default (VInt 0) (spec !! ["spec"; "maxUnavailable"]);
     v_UpdateStrategy := field_str spec ["spec"; "updateStrategy"];
     v_Service := BuildNodeSetServiceName cluster name;
     v_ServiceUmbrella := BuildServiceName ComponentTypeNodeSet cluster;
     v_WhenDeleted := retention (field_str spec (policy ++ ["whenDeleted"]));
     v_WhenScaled := retention (field_str spec (policy ++ ["whenScaled"]));
     v_Maintenance := maintenance;
     v_EphemeralNodes := field_optbool spec ["spec"; "ephemeralNodes"];
     v_ActiveNodes := [];
     v_spec := spec |}.
Definition with_ActiveNodes (active : list Z) (v : SlurmNodeSet) : SlurmNodeSet :=
  mkSlurmNodeSet (v_Name v) (v_Namespace v) (v_ClusterName v) (v_Annotations v) (v_SupervisorDConfigMapDefault v)
    (v_SupervisorDConfigMapName v) (v_SSHDConfigMapDefault v) (v_SSHDConfigMapName v) (v_ContainerSSSD v)
    (v_IsSSSDSecretDefault v) (v_SSSDConfSecretName v) (v_StatefulSetName v) (v_Replicas v) (v_MaxUnavailable v)
    (v_UpdateStrategy v) (v_Service v) (v_ServiceUmbrella v) (v_WhenDeleted v) (v_WhenScaled v) (v_Maintenance v)
    (v_EphemeralNodes v) active (v_spec v).
Definition isEphemeralNodesEnabled (v : SlurmNodeSet) : bool := default false (v_EphemeralNodes v).
Definition BuildClusterWithGPUFromNodeSets (nodeSets : list resource) : bool :=
  existsb (λ n, default false (field_optbool (o_body n) ["spec"; "gpu"; "enabled"])) nodeSets.

(** ** Ordinals *)
(** [for i := int32(0); i <= maxOrdinal; i++ { if !activeSet[i] { append } }]: [None] when the loop takes more than
    [fuel] rounds. *)
Fixpoint reserve (fuel : nat) (i maxOrdinal : Z) (active : list Z) : option (list Z) :=
  match fuel with
  | 0%nat => None
  | S fuel =>
      if (i <=? maxOrdinal)%Z then
        rest ← reserve fuel (wrap 32 (i + 1)) maxOrdinal active;
        Some (if bool_decide (i ∈ active) then rest else i :: rest)
      else Some []
  end.
(** The fuel is one round for every ordinal and one to leave the loop. *)
Definition calculateReplicasAndReserveOrdinals (activeNodes : list Z) : outcome (Z * list Z) :=
  match last (merge_sort Z.le activeNodes) with
  | None => Ok (0%Z, [])
  | Some maxOrdinal =>
      match reserve (Z.to_nat (maxOrdinal + 2)) 0 maxOrdinal activeNodes with
      | Some reserveOrdinals => Ok (wrap 32 (Z.of_nat (length activeNodes)), reserveOrdinals)
      | None => Halt "loop does not end"
      end
  end.
(** The number of pods that the controller waits for. *)
Definition expectedReplicas (v : SlurmNodeSet) : Z :=
  if isEphemeralNodesEnabled v then wrap 32 (Z.of_nat (length (v_ActiveNodes v))) else v_Replicas v.
(** The ordinals of the pods that the workers' Role covers. *)
Definition nodeSetOrdinals (v : SlurmNodeSet) : outcome (list Z) :=
  if isEphemeralNodesEnabled v then Ok (v_ActiveNodes v)
  else if (v_Replicas v <? 0)%Z then Halt "makeslice: cap out of range" else Ok (seqZ 0 (v_Replicas v)).

Example ordinals_comment : calculateReplicasAndReserveOrdinals [0; 3; 5; 7; 12]%Z = Ok (5, [1; 2; 4; 6; 8; 9; 10; 11])%Z.
Proof. vm_compute. reflexivity. Qed.

(** ** Rendered objects *)
Definition new (k : kind) (namespace name : string) (labels annotations : gmap string string) (body : fields) : resource :=
  Obj (k, namespace, name) 0 None labels annotations ∅ body ∅.
Definition RenderServiceAccount (namespace cluster nodeSet : string) : resource :=
  new ServiceAccount namespace (BuildServiceAccountNodeSetName cluster nodeSet) (RenderLabels ComponentTypeNodeSet cluster) ∅ ∅.
Definition PodName (statefulSet : string) (ordinal : Z) : string := statefulSet +:+ "-" +:+ Itoa ordinal.
Definition RenderRole (namespace cluster : string) (v : SlurmNodeSet) : outcome resource :=
  let? ordinals := nodeSetOrdinals v in
  let resourceNames := PodName (v_StatefulSetName v) <$> ordinals in
  Ok (new Role namespace (BuildRoleNodeSetName cluster (v_Name v)) (RenderLabels ComponentTypeNodeSet cluster) ∅
        {[["rules"] := VRules [Rule [""] ["pods"] resourceNames ["get"; "patch"]]]}).
Definition RenderRoleBinding (namespace cluster nodeSet : string) : resource :=
  new RoleBinding namespace (BuildRoleBindingNodeSetName cluster nodeSet) (RenderLabels ComponentTypeNodeSet cluster) ∅
    (list_to_map
       [(["subjects"], VRows [[("kind", "ServiceAccount"); ("name", BuildServiceAccountNodeSetName cluster nodeSet);
                               ("namespace", namespace)]]);
        (["roleRef"; "apiGroup"], VStr "rbac.authorization.k8s.io"); (["roleRef"; "kind"], VStr "Role");
        (["roleRef"; "name"], VStr (BuildRoleNodeSetName cluster nodeSet))]).
Definition slurmdPorts (v : SlurmNodeSet) : value :=
  VRows [[("protocol", "TCP"); ("port", Itoa (field_int (v_spec v) ["spec"; "slurmd"; "port"])); ("targetPort", "slurmd")]].
Definition RenderNodeSetUmbrellaService (v : SlurmNodeSet) : resource :=
  new Service (v_Namespace v) (v_ServiceUmbrella v) (RenderLabels ComponentTypeNodeSet (v_ClusterName v)) ∅
    (list_to_map
       [(["spec"; "publishNotReadyAddresses"], VBool true); (["spec"; "type"], VStr "ClusterIP");
        (["spec"; "clusterIP"], VStr "None"); (["spec"; "ports"], slurmdPorts v)] ∪
     at_path ["spec"; "selector"] (RenderMatchLabels ComponentTypeNodeSet (v_ClusterName v))).
Definition nodeSetMatchLabels (v : SlurmNodeSet) : gmap string string :=
  <[LabelNodeSetKey := v_Name v]> (RenderMatchLabels ComponentTypeNodeSet (v_ClusterName v)).
Definition RenderNodeSetService (v : SlurmNodeSet) : resource :=
  new Service (v_Namespace v) (v_Service v) (RenderLabels ComponentTypeNodeSet (v_ClusterName v)) ∅
    (list_to_map
       [(["spec"; "type"], VStr "ClusterIP"); (["spec"; "clusterIP"], VStr "None"); (["spec"; "ports"], slurmdPorts v)] ∪
     at_path ["spec"; "selector"] (nodeSetMatchLabels v)).
Definition RenderSecretDefaultSSSDConf (namespace cluster secretName : string) (c : ComponentType) : resource :=
  new Secret namespace secretName (RenderLabels c cluster) ∅
    {[["data"; "sssd.conf"] := VStr
        (Join ["[sssd]"; "services = nss, pam"; "enable_files_domain = true"; ""; "[nss]"; ""; "[pam]"; ""] newline)]}.

(** *** The StatefulSet

    Values that are constants of the Kruise and Kubernetes API stand for themselves. *)
Definition UpdateStrategyRollingUpdate : string := "rollingUpdate".
Definition UpdateStrategySlurmAwareRollingUpdate : string := "slurmAwareRollingUpdate".
Definition renderUpdateStrategies (v : SlurmNodeSet) : outcome fields :=
  if String.eqb (v_UpdateStrategy v) "" || String.eqb (v_UpdateStrategy v) UpdateStrategyRollingUpdate then
    Ok (list_to_map
          [(["spec"; "updateStrategy"; "type"], VStr "RollingUpdate");
           (["spec"; "updateStrategy"; "rollingUpdate"; "maxUnavailable"], v_MaxUnavailable v);
           (["spec"; "updateStrategy"; "rollingUpdate"; "podUpdatePolicy"], VStr "InPlaceIfPossible");
           (["spec"; "updateStrategy"; "rollingUpdate"; "partition"], VInt 0);
           (["spec"; "updateStrategy"; "rollingUpdate"; "minReadySeconds"], VInt 0);
           (["spec"; "volumeClaimUpdateStrategy"; "type"], VStr "OnPodRollingUpdate")])
  else if String.eqb (v_UpdateStrategy v) UpdateStrategySlurmAwareRollingUpdate then
    Ok (list_to_map
          [(["spec"; "updateStrategy"; "type"], VStr "OnDelete");
           (["spec"; "volumeClaimUpdateStrategy"; "type"], VStr "OnPVCDelete")])
  else Err (ErrMsg "unsupported update strategy").
Definition renderNodeSetAnnotations (v : SlurmNodeSet) : gmap string string :=
  v_Annotations v ∪ {["kubectl.kubernetes.io/default-container" := "slurmd"]}.
Definition podLabels (v : SlurmNodeSet) : gmap string string :=
  <[LabelSoperatorRollingUpdateEnabled :=
      if String.eqb (v_UpdateStrategy v) UpdateStrategySlurmAwareRollingUpdate then "true" else "false"]>
    (<[LabelWorkerKey := "true"]> (<[LabelNodeSetKey := v_Name v]> (RenderLabels ComponentTypeNodeSet (v_ClusterName v)))).
Definition renderReplicas (v : SlurmNodeSet) : outcome (Z * list Z) :=
  if IsMaintenanceActive (v_Maintenance v) then Ok (0%Z, [])
  else if isEphemeralNodesEnabled v then calculateReplicasAndReserveOrdinals (v_ActiveNodes v)
  else Ok (v_Replicas v, []).
Definition statefulSetSpec (v : SlurmNodeSet) (replicas : Z) (reserveOrdinals : list Z) (claims : option value) :
    list (path * value) :=
  [(["spec"; "podManagementPolicy"], VStr "Parallel"); (["spec"; "serviceName"], VStr (v_ServiceUmbrella v));
   (["spec"; "replicas"], VInt replicas); (["spec"; "scaleStrategy"; "maxUnavailable"], v_MaxUnavailable v);
   (["spec"; "persistentVolumeClaimRetentionPolicy"; "whenDeleted"], VStr (v_WhenDeleted v));
   (["spec"; "persistentVolumeClaimRetentionPolicy"; "whenScaled"], VStr (v_WhenScaled v))] ++
  match reserveOrdinals with [] => [] | _ => [(["spec"; "reserveOrdinals"], VInts reserveOrdinals)] end ++
  match claims with Some c => [(["spec"; "volumeClaimTemplates"], c)] | None => [] end.
Section statefulSet.
  (** The pod's spec and the volume claim templates, from the values, the secrets of the cluster, its cgroup version and
      topology plugin, and whether it has GPUs. *)
  Context {Args : Type} (renderPod : SlurmNodeSet → Args → outcome (fields * option value)).
Definition RenderNodeSetStatefulSet (v : SlurmNodeSet) (args : Args) : outcome resource :=
  let? (pod, claims) := renderPod v args in
  let? (replicas, reserveOrdinals) := renderReplicas v in
  let? strategies := wrap_err "rendering update strategies" (renderUpdateStrategies v) in
  let body : fields :=
    list_to_map (statefulSetSpec v replicas reserveOrdinals claims) ∪
    strategies ∪ at_path ["spec"; "selector"; "matchLabels"] (nodeSetMatchLabels v) ∪
    at_path ["spec"; "template"; "metadata"; "labels"] (podLabels v) ∪ below ["spec"; "template"; "spec"] pod in
  Ok (Obj (AdvancedStatefulSet, v_Namespace v, v_StatefulSetName v) 0 None (podLabels v)
        (list_to_map [("kruise.io/auto-generate-persistent-pod-state", "true");
                      ("kruise.io/preferred-persistent-topology", "kubernetes.io/hostname")])
        (renderNodeSetAnnotations v) body ∅).
End statefulSet.

(** ** Which pods there are *)
Lemma reserve_spec fuel i maxOrdinal active :
  (0 ≤ i)%Z → (maxOrdinal < max_int 32)%Z → (maxOrdinal - i + 2 ≤ Z.of_nat fuel)%Z → (i ≤ maxOrdinal + 1)%Z →
  ∃ R, reserve fuel i maxOrdinal active = Some R ∧ ∀ j, j ∈ R ↔ (i ≤ j ≤ maxOrdinal)%Z ∧ j ∉ active.
Proof.
  revert i. induction fuel as [|fuel IH]; intros i Hi Hm Hf Hle; [lia|]. simpl.
  destruct (Z.leb_spec i maxOrdinal) as [Him|Him].
  - rewrite wrap_small by (unfold max_int, min_int in *; lia).
    destruct (IH (i + 1)%Z) as (R & HR & Hel); [lia..|]. rewrite HR. simpl. eexists. split; [done|]. intros j.
    destruct (bool_decide_reflect (i ∈ active)) as [Hin|Hin].
    + rewrite Hel. split; intros [? ?]; split; try done; [lia|]. assert (j ≠ i) by congruence. lia.
    + rewrite elem_of_cons, Hel. split.
      * intros [-> |[? ?]]; split; try done; lia.
      * intros [? ?]. destruct (decide (j = i)); [by left|]. right. split; [lia|done].
  - exists []. split; [done|]. intros j. rewrite elem_of_nil. split; [done|]. intros [? _]. lia.
Qed.
(** An int32 is never above the largest one: the loop does not end. *)
Lemma reserve_diverges fuel i active : (min_int 32 ≤ i ≤ max_int 32)%Z → reserve fuel i (max_int 32) active = None.
Proof.
  revert i. induction fuel as [|fuel IH]; intros i Hi; simpl; [done|].
  destruct (Z.leb_spec i (max_int 32)); [|lia]. by rewrite IH by (apply wrap_range; lia).
Qed.
Lemma sorted_last l m : last (merge_sort Z.le l) = Some m → m ∈ l ∧ ∀ a, a ∈ l → (a ≤ m)%Z.
Proof.
  intros Hl. apply last_Some in Hl as [l' Hl]. split.
  - apply (elem_of_sort Z.le). rewrite Hl. apply elem_of_app. right. left.
  - intros a Ha%(elem_of_sort Z.le). rewrite Hl in Ha.
    pose proof (StronglySorted_merge_sort Z.le l) as Hs. rewrite Hl in Hs.
    apply elem_of_app in Ha as [Ha|Ha]; [|apply list_elem_of_singleton in Ha; lia].
    apply StronglySorted_app in Hs as (Hs & _ & _). apply (Hs a m); [done|]. left.
Qed.

(** Ordinals that a list of active nodes may have: different ones (the API server keeps the list a set) and small enough
    for the loop to end. *)
Definition valid_active (active : list Z) : Prop := NoDup active ∧ ∀ a, a ∈ active → (0 ≤ a < max_int 32)%Z.
Lemma valid_active_length active maxOrdinal :
  valid_active active → (∀ a, a ∈ active → (a ≤ maxOrdinal)%Z) → (Z.of_nat (length active) ≤ Z.max 0 (maxOrdinal + 1))%Z.
Proof.
  intros [Hnd Hr] Hmax. assert (active ⊆+ (seqZ 0 (maxOrdinal + 1))) as Hs.
  { apply NoDup_submseteq; [done|]. intros a Ha. apply elem_of_seqZ. specialize (Hr a Ha). specialize (Hmax a Ha). lia. }
  apply submseteq_length in Hs. rewrite length_seqZ in Hs. lia.
Qed.
Lemma calculate_spec active :
  valid_active active →
  ∃ R, calculateReplicasAndReserveOrdinals active = Ok (Z.of_nat (length active), R) ∧
       ∀ j, j ∈ R ↔ (j ∉ active) ∧ (0 ≤ j)%Z ∧ (∃ a, a ∈ active ∧ (j < a)%Z).
Proof.
  intros Hv. unfold calculateReplicasAndReserveOrdinals.
  destruct (last _) as [m|] eqn:Hl.
  - apply sorted_last in Hl as [Hm Hmax]. destruct Hv as [Hnd Hr]. pose proof (Hr m Hm) as Hm'.
    destruct (reserve_spec (Z.to_nat (m + 2)) 0 m active) as (R & -> & HR); [lia..|]. exists R. split.
    + pose proof (valid_active_length active m (conj Hnd Hr) Hmax).
      rewrite wrap_small; [done|lia|]. unfold min_int. lia.
    + intros j. rewrite HR. split.
      * intros [Hj Hn]. split_and!; [done|lia|]. exists m. split; [done|]. assert (j ≠ m) by congruence. lia.
      * intros (Hn & Hj & a & Ha & Hja). specialize (Hmax a Ha). split; [lia|done].
  - apply last_None, (sort_nil_iff Z.le) in Hl as ->. exists []. split; [done|]. intros j. rewrite elem_of_nil.
    split; [done|]. intros (_ & _ & a & Ha & _). by apply not_elem_of_nil in Ha.
Qed.

(** What OpenKruise documents for [spec.replicas] and [spec.reserveOrdinals] of an advanced StatefulSet: there are
    as many pods as replicas, and they have the lowest ordinals that are not reserved. *)
Class KruiseOrdinals (pods : Z → list Z → list Z) : Prop := {
  pods_nodup : ∀ r R, NoDup (pods r R);
  pods_count : ∀ r R, (0 ≤ r)%Z → Z.of_nat (length (pods r R)) = r;
  pods_free : ∀ r R i, i ∈ pods r R → (0 ≤ i)%Z ∧ i ∉ R;
  pods_lowest : ∀ r R i j, i ∈ pods r R → (0 ≤ j < i)%Z → j ∉ R → j ∈ pods r R }.
Lemma pods_unreserved pods `{!KruiseOrdinals pods} (l R : list Z) :
  NoDup l → (∀ a, a ∈ l → (0 ≤ a)%Z ∧ a ∉ R) → (∀ a j, a ∈ l → (0 ≤ j < a)%Z → j ∉ R → j ∈ l) →
  ∀ i, i ∈ pods (Z.of_nat (length l)) R ↔ i ∈ l.
Proof.
  intros Hnd Hfree Hlow. set (ps := pods _ R).
  assert (length ps = length l) as Hlen by (pose proof (pods_count (Z.of_nat (length l)) R ltac:(lia)); unfold ps; lia).
  assert (∀ i, i ∈ ps → i ∈ l) as Hin.
  { intros i Hi. destruct (decide (i ∈ l)) as [|Hn]; [done|]. exfalso. destruct (pods_free _ _ _ Hi) as [Hi0 HiR].
    assert (∀ a, a ∈ l → (a < i)%Z) as Hlt.
    { intros a Ha. destruct (Z.lt_ge_cases a i); [done|]. assert (i ≠ a) by congruence.
      exfalso. apply Hn. apply (Hlow a i); [done|lia|done]. }
    assert ((i :: l) ⊆+ ps) as Hs%submseteq_length; [|simpl in Hs; lia].
    apply NoDup_submseteq; [by constructor|]. intros a [-> |Ha]%elem_of_cons; [done|].
    destruct (Hfree a Ha). apply (pods_lowest _ _ i a); [done|split; [done|by apply Hlt]|done]. }
  assert (ps ≡ₚ l) as Hp.
  { apply submseteq_length_Permutation; [|lia]. apply NoDup_submseteq; [apply pods_nodup|done]. }
  intros i. by rewrite Hp.
Qed.

Lemma strip_Some (p k q : path) : strip p k = Some q ↔ k = p ++ q.
Proof.
  revert k. induction p as [|x p IH]; intros k; simpl; [naive_solver|]. destruct k as [|y k]; [done|].
  destruct (String.eqb_spec x y) as [->|Hne]; [rewrite IH; naive_solver|naive_solver].
Qed.
Lemma lookup_subtree p (b : fields) q : subtree p b !! q = b !! (p ++ q).
Proof.
  unfold subtree. set (l := omap _ _).
  assert (∀ v, (q, v) ∈ l ↔ b !! (p ++ q) = Some v) as Hl.
  { intros v. unfold l. rewrite list_elem_of_omap. split.
    - intros ([k v'] & Hk & Hs). cbn in Hs. destruct (strip p k) as [q'|] eqn:Hq; [|done]. apply strip_Some in Hq as ->.
      cbn in Hs. simplify_eq. by apply elem_of_map_to_list.
    - intros Hv. exists (p ++ q, v). split; [by apply elem_of_map_to_list|]. cbn. by rewrite (proj2 (strip_Some p (p ++ q) q)). }
  destruct (b !! (p ++ q)) as [v|] eqn:Hb.
  - apply elem_of_list_to_map_1'; [|by apply Hl]. intros v' Hv'. apply Hl in Hv'. congruence.
  - apply not_elem_of_list_to_map_1. intros ([q' v] & -> & Hv)%list_elem_of_fmap. apply Hl in Hv. by rewrite Hv in Hb.
Qed.
Lemma lookup_below p (b : fields) q : below p b !! (p ++ q) = b !! q.
Proof.
  unfold below. destruct (b !! q) as [v|] eqn:Hb.
  - apply elem_of_list_to_map_1'.
    + intros v' (kv & [= Hk ->] & Hin)%list_elem_of_fmap. apply app_inv_head in Hk. destruct kv as [k v']. apply elem_of_map_to_list in Hin.
      cbn in *. congruence.
    + apply list_elem_of_fmap. exists (q, v). split; [done|]. by apply elem_of_map_to_list.
  - apply not_elem_of_list_to_map_1. rewrite <-list_fmap_compose. intros ([k v] & Hk & Hin)%list_elem_of_fmap. cbn in Hk.
    apply app_inv_head in Hk as ->. apply elem_of_map_to_list in Hin. congruence.
Qed.
Lemma lookup_below_None p b q : ¬ p `prefix_of` q → below p b !! q = None.
Proof.
  intros Hn. unfold below. apply not_elem_of_list_to_map_1. rewrite <-list_fmap_compose.
  intros (x & -> & _)%list_elem_of_fmap. apply Hn. by exists x.1.
Qed.
Lemma lookup_at_path_None p m q : ¬ p `prefix_of` q → at_path p m !! q = None.
Proof.
  intros Hn. unfold at_path. apply not_elem_of_list_to_map_1. rewrite <-list_fmap_compose.
  intros (x & -> & _)%list_elem_of_fmap. apply Hn. by exists [x.1].
Qed.
Lemma strategies_ordinals v b : renderUpdateStrategies v = Ok b → b !! ["spec"; "reserveOrdinals"] = None.
Proof.
  unfold renderUpdateStrategies. destruct (_ || _); [by intros [= <-]|]. destruct (String.eqb _ _); by intros [= <-].
Qed.
Lemma union_Some_l {A} (a : A) (o : option A) : Some a ∪ o = Some a.
Proof. by destruct o. Qed.
Lemma spec_replicas v r R claims :
  (list_to_map (statefulSetSpec v r R claims) : fields) !! ["spec"; "replicas"] = Some (VInt r).
Proof. unfold statefulSetSpec. simpl. do 2 rewrite lookup_insert_ne by done. apply lookup_insert_eq. Qed.
Lemma spec_ordinals v r R claims :
  (list_to_map (statefulSetSpec v r R claims) : fields) !! ["spec"; "reserveOrdinals"] =
  match R with [] => None | _ => Some (VInts R) end.
Proof.
  unfold statefulSetSpec. simpl. do 6 rewrite lookup_insert_ne by done.
  destruct R; simpl; [|apply lookup_insert_eq]. destruct claims; simpl; [by rewrite lookup_insert_ne|done].
Qed.
(** The ordinals that the NodeSet asks for. *)
Definition worker_ordinals (v : SlurmNodeSet) : list Z :=
  if IsMaintenanceActive (v_Maintenance v) then []
  else if isEphemeralNodesEnabled v then v_ActiveNodes v else seqZ 0 (v_Replicas v).
Definition valid_size (v : SlurmNodeSet) : Prop :=
  if isEphemeralNodesEnabled v then valid_active (v_ActiveNodes v) else (0 ≤ v_Replicas v ≤ max_int 32)%Z.
Lemma render_ordinals v r R :
  valid_size v → renderReplicas v = Ok (r, R) →
  NoDup (worker_ordinals v) ∧ r = Z.of_nat (length (worker_ordinals v)) ∧
  (∀ a, a ∈ worker_ordinals v → (0 ≤ a)%Z ∧ a ∉ R) ∧
  (∀ a j, a ∈ worker_ordinals v → (0 ≤ j < a)%Z → j ∉ R → j ∈ worker_ordinals v).
Proof.
  unfold valid_size, renderReplicas, worker_ordinals. intros Hv.
  destruct (IsMaintenanceActive _).
  { intros [= <- <-]. split_and!; [apply NoDup_nil_2|done| |]; [intros a Ha|intros a j Ha]; by apply not_elem_of_nil in Ha. }
  destruct (isEphemeralNodesEnabled v).
  - destruct (calculate_spec _ Hv) as (R' & -> & HR). intros [= <- <-]. destruct Hv as [Hnd Hr].
    split_and!; [done|done| |].
    + intros a Ha. rewrite HR. split; [by apply Hr|]. tauto.
    + intros a j Ha Hj Hn. destruct (decide (j ∈ v_ActiveNodes v)) as [|Hna]; [done|]. exfalso. apply Hn, HR.
      split_and!; [done|lia|]. exists a. split; [done|lia].
  - intros [= <- <-]. split_and!; [apply NoDup_seqZ|rewrite length_seqZ; lia| |].
    + intros a Ha%elem_of_seqZ. split; [lia|apply not_elem_of_nil].
    + intros a j Ha%elem_of_seqZ Hj _. apply elem_of_seqZ. lia.
Qed.
Lemma Ok_inj {A} (a b : A) : Ok a = Ok b → a = b.
Proof. by intros [= ->]. Qed.
Section pods.
  Context {Args : Type} (renderPod : SlurmNodeSet → Args → outcome (fields * option value)).
  Context (pods : Z → list Z → list Z) `{!KruiseOrdinals pods}.
Lemma statefulSet_ordinals v args sts :
  RenderNodeSetStatefulSet renderPod v args = Ok sts →
  o_name sts = v_StatefulSetName v ∧
  renderReplicas v = Ok (field_int (o_body sts) ["spec"; "replicas"], field_ints (o_body sts) ["spec"; "reserveOrdinals"]).
Proof.
  unfold RenderNodeSetStatefulSet. destruct (renderPod v args) as [[pod claims]|e|h]; [|done..]. cbn [obind].
  destruct (renderReplicas v) as [[r R]|e|h]; [|done..]. cbn [obind].
  destruct (renderUpdateStrategies v) as [b|e|h] eqn:Hb; [|done..]. cbn [obind wrap_err]. intros Hs%Ok_inj. subst sts.
  split; [done|]. unfold field_int, field_ints. cbn [o_body]. rewrite !lookup_union.
  rewrite !lookup_at_path_None, !lookup_below_None, (strategies_ordinals v b Hb) by (intros [x Hx]; discriminate Hx).
  rewrite !(right_id_L None _), spec_replicas, spec_ordinals.
  rewrite union_Some_l. by destruct R.
Qed.

(** C28: the workers' pods are exactly where the NodeSet wants them.  Given what OpenKruise does with replicas and reserved
    ordinals, whenever the StatefulSet of a NodeSet of a valid size is rendered (an ephemeral NodeSet has different active ordinals, none negative and
    all below the largest 32-bit integer; another one has between none and that many replicas): its pods have exactly the
    ordinals wanted (none during maintenance; the active ones of an ephemeral NodeSet; the first [replicas] otherwise), and,
    outside maintenance, their number is the one the controller waits for and the Role
    of the workers names exactly these pods. *)
Theorem workers_at_ordinals (v : SlurmNodeSet) (args : Args) (sts : resource) :
  valid_size v → RenderNodeSetStatefulSet renderPod v args = Ok sts →
  let running := pods (field_int (o_body sts) ["spec"; "replicas"]) (field_ints (o_body sts) ["spec"; "reserveOrdinals"]) in
  (∀ i, i ∈ running ↔ i ∈ worker_ordinals v) ∧
  (IsMaintenanceActive (v_Maintenance v) = false →
   Z.of_nat (length running) = expectedReplicas v ∧
   ∃ role names, RenderRole (v_Namespace v) (v_ClusterName v) v = Ok role ∧
     o_body role !! ["rules"] = Some (VRules [Rule [""] ["pods"] names ["get"; "patch"]]) ∧
     ∀ n, n ∈ names ↔ ∃ i, i ∈ running ∧ n = PodName (o_name sts) i).
Proof.
  intros Hv Hs running. destruct (statefulSet_ordinals v args sts Hs) as [Hname Hr].
  destruct (render_ordinals v _ _ Hv Hr) as (Hnd & Hlen & Hfree & Hlow).
  assert (∀ i, i ∈ running ↔ i ∈ worker_ordinals v) as Hrun.
  { unfold running. rewrite Hlen. by apply pods_unreserved. }
  split; [done|]. intros Hm. split.
  - unfold running. rewrite Hlen, pods_count by lia. unfold worker_ordinals, expectedReplicas, valid_size in *. rewrite Hm in *.
    destruct (isEphemeralNodesEnabled v); [|rewrite length_seqZ; lia].
    assert (Z.of_nat (length (v_ActiveNodes v)) ≤ max_int 32)%Z as Hl.
    { etransitivity; [apply (valid_active_length _ (max_int 32 - 1) Hv)|done].
      intros a Ha. destruct Hv as [_ Hv]. specialize (Hv a Ha). lia. }
    rewrite wrap_small; [done|lia|]. unfold min_int. lia.
  - unfold RenderRole, nodeSetOrdinals, worker_ordinals, valid_size in *. rewrite Hm in *.
    destruct (isEphemeralNodesEnabled v); [|destruct (Z.ltb_spec (v_Replicas v) 0); [lia|]]; cbn [obind];
      eexists _, _; (split; [done|]); (split; [apply lookup_singleton_eq|]); intros n; rewrite list_elem_of_fmap, Hname;
      setoid_rewrite Hrun; naive_solver.
Qed.
End pods.

(** The ordinals, computed. *)
Definition lowest_free (r : Z) (R : list Z) : list Z :=
  take (Z.to_nat r) (filter (λ i, i ∉ R) (seqZ 0 (r + Z.of_nat (length R)))).
Lemma filter_length_split {A} (P : A → Prop) `{!∀ x, Decision (P x)} (l : list A) :
  length l = (length (filter P l) + length (filter (λ x, ¬ P x) l))%nat.
Proof. induction l as [|x l IH]; [done|]. rewrite !filter_cons. do 2 case_decide; simpl; lia || done. Qed.
Lemma seqZ_sorted m n : StronglySorted Z.lt (seqZ m n).
Proof.
  revert m. induction (Z.le_ge_cases n 0) as [Hn|Hn]; intros m; [by rewrite seqZ_nil by lia; constructor|].
  revert m. pattern n. apply natlike_ind; [intros m; rewrite seqZ_nil by lia; constructor| |lia].
  intros k Hk IH m. rewrite seqZ_cons by lia. constructor; [replace (Z.pred (Z.succ k)) with k by lia; apply IH|].
  apply Forall_forall. intros x Hx%elem_of_seqZ. lia.
Qed.
Lemma sorted_filter {A} (R : relation A) (P : A → Prop) `{!∀ x, Decision (P x)} (l : list A) :
  StronglySorted R l → StronglySorted R (filter P l).
Proof.
  induction 1 as [|x l Hl IH Hx]; [constructor|]. rewrite filter_cons. case_decide; [|done]. constructor; [done|].
  apply Forall_forall. intros y [_ Hy]%list_elem_of_filter. by apply (proj1 (Forall_forall _ _) Hx).
Qed.
Global Instance lowest_free_kruise : KruiseOrdinals lowest_free.
Proof.
  assert (∀ r R, NoDup (filter (λ i, i ∉ R) (seqZ 0 (r + Z.of_nat (length R))))) as Hnd
    by (intros; apply NoDup_filter, NoDup_seqZ).
  split; unfold lowest_free.
  - intros r R. apply (sublist_NoDup _ _ (Hnd r R)), sublist_take.
  - intros r R Hr. rewrite length_take. set (l := seqZ 0 _).
    pose proof (filter_length_split (λ i, i ∉ R) l) as Hs.
    assert (length l = Z.to_nat (r + Z.of_nat (length R))) as Hl by apply length_seqZ.
    assert (filter (λ x, ¬ (x ∉ R)) l ⊆+ R) as Hr'%submseteq_length.
    { apply NoDup_submseteq; [apply NoDup_filter, NoDup_seqZ|]. intros x [Hx _]%list_elem_of_filter.
      by apply dec_stable. }
    lia.
  - intros r R i Hi%elem_of_take. destruct Hi as (n & Hi & _). apply list_elem_of_lookup_2, list_elem_of_filter in Hi as [? Hi].
    apply elem_of_seqZ in Hi. split; [lia|done].
  - intros r R i j Hi Hj Hn. set (l := filter _ _) in *.
    assert (j ∈ l) as Hjl.
    { apply elem_of_take in Hi as (n & Hi & _). apply list_elem_of_lookup_2, list_elem_of_filter in Hi as [_ Hi].
      apply elem_of_seqZ in Hi. apply list_elem_of_filter. split; [done|]. apply elem_of_seqZ. lia. }
    assert (StronglySorted Z.lt l) as Hs.
    { apply sorted_filter, seqZ_sorted. }
    rewrite <-(take_drop (Z.to_nat r) l) in Hjl, Hs. apply elem_of_app in Hjl as [|Hjd]; [done|].
    pose proof (StronglySorted_app_1_elem_of _ _ _ i j Hs Hi Hjd). lia.
Qed.

(** C38: the loop over the ordinals ends exactly when the highest active ordinal is not the largest int32.  With that
    one the counter wraps around to the smallest int32 and the loop goes on for ever, collecting ordinals. *)
Theorem reserve_ends (active : list Z) (maxOrdinal : Z) :
  (0 ≤ maxOrdinal ≤ max_int 32)%Z →
  (∃ fuel R, reserve fuel 0 maxOrdinal active = Some R) ↔ maxOrdinal ≠ max_int 32.
Proof.
  intros Hm. split.
  - intros (fuel & R & HR) ->. rewrite reserve_diverges in HR; [done|]. unfold min_int, max_int. lia.
  - intros Hne. destruct (reserve_spec (Z.to_nat (maxOrdinal + 2)) 0 maxOrdinal active) as (R & HR & _); [lia..|]. eauto.
Qed.
Lemma reserve_ends_witness :
  (∃ fuel R, reserve fuel 0 12 [0; 3; 12]%Z = Some R) ∧ ¬ (∃ fuel R, reserve fuel 0 2147483647 [2147483647]%Z = Some R).
Proof.
  split.
  - apply (reserve_ends [0; 3; 12]%Z 12); [by vm_compute|done].
  - intros H. revert H. rewrite (reserve_ends [2147483647]%Z 2147483647) by (by vm_compute). intros H. by apply H.
Defined.

Definition example_values : SlurmNodeSet :=
  mkSlurmNodeSet "gpu" "ns" "c" ∅ true "c-supervisord" true "c-ssh-configs-worker" false false "" "gpu" 16 (VInt 1) ""
    "c-nodeset-gpu-svc" "c-nodeset-svc" "Delete" "Delete" (Some "none") (Some true) [3; 0; 5]%Z ∅.
Definition example_pod (v : SlurmNodeSet) (args : ()) : outcome (fields * option value) := Ok (∅, None).
Lemma workers_at_ordinals_witness :
  ∃ sts, RenderNodeSetStatefulSet example_pod example_values () = Ok sts ∧
    field_ints (o_body sts) ["spec"; "reserveOrdinals"] = [1; 2; 4]%Z ∧
    (∀ i, i ∈ lowest_free (field_int (o_body sts) ["spec"; "replicas"]) (field_ints (o_body sts) ["spec"; "reserveOrdinals"]) ↔
          i ∈ [3; 0; 5]%Z).
Proof.
  assert (match RenderNodeSetStatefulSet example_pod example_values () with
          | Ok s => field_ints (o_body s) ["spec"; "reserveOrdinals"]
          | _ => []
          end = [1; 2; 4]%Z) as He by (vm_compute; reflexivity).
  destruct (RenderNodeSetStatefulSet example_pod example_values ()) as [sts|e|h] eqn:Hs; [|done..].
  exists sts. split; [done|]. split; [done|].
  apply (workers_at_ordinals example_pod lowest_free example_values () sts); [|exact Hs]. split.
  - apply (bool_decide_unpack (NoDup [3; 0; 5]%Z)). vm_compute. exact I.
  - intros a Ha. elem_cases Ha; subst a; by vm_compute.
Defined.
