(* ===== verification/ClusterValues.v ===== *)
(** * Values of a cluster

    [internal/values]: [BuildSlurmClusterFrom] computes from a SlurmCluster what the cluster controller and the rendering work
    with, and [Validate] checks it; with the helpers of [internal/utils] that they use and the defaults of
    [api/v1/slurmcluster_types.go].  What is only passed on to the rendering of pods stays a subtree of the spec. *)
From S2P Require Import Prelude GoStrings Naming Effects Reconciler Patchers Workers MultiStep.
From Stdlib Require String.

(** ** Slices ([utils/unique.go], [utils/oneof.go], [utils/sliceutils/get_by.go]) *)
Section slices.
  Context {T : Type} (getter : T → string).
Definition GetBy (slice : list T) (value : string) : outcome T :=
  match list_find (λ v, getter v = value) slice with
  | Some (_, v) => Ok v
  | None => Err (ErrMsg ("element with value " +:+ value +:+ " not found"))
  end.
Definition MustGetBy (slice : list T) (value : string) : outcome T :=
  match list_find (λ v, getter v = value) slice with
  | Some (_, v) => Ok v
  | None => Halt ("element with value " +:+ value +:+ " not found")
  end.
Fixpoint unique_from (seen : gset string) (slice : list T) : bool :=
  match slice with
  | [] => true
  | item :: slice => if decide (getter item ∈ seen) then false else unique_from ({[getter item]} ∪ seen) slice
  end.
Definition ValidateUniqueEntries (slice : list T) : bool := unique_from ∅ slice.
End slices.
(** The fields of the struct that are not nil pointers: the keys of the object. *)
Definition ValidateOneOf (set : list string) : bool := (length set =? 1)%nat.

(** ** Types *)
Record Container := mkContainer { ct_Name : string; ct_SSSDDebugLevel : Z; ct_spec : fields }.
Definition ct_Image (c : Container) : string := field_str (ct_spec c) ["image"].
Definition ct_Port (c : Container) : Z := field_int (ct_spec c) ["port"].
Definition ct_SecurityLimitsConfig (c : Container) : string := field_str (ct_spec c) ["securityLimitsConfig"].
Definition buildContainerFrom (container : fields) (name : string) : Container := mkContainer name 0 container.
Record values_Service := mkService {
  svc_Name : string; svc_Type : string; svc_Annotations : gmap string string; svc_LoadBalancerIP : string;
  svc_LoadBalancerSourceRanges : list string; svc_NodePort : Z; svc_Protocol : string }.
Definition buildServiceFrom (name : string) : values_Service := mkService name "ClusterIP" ∅ "" [] 0 "TCP".
Record values_StatefulSet := mkStatefulSet { sts_Name : string; sts_Replicas : Z; sts_MaxUnavailable : value }.
Definition buildStatefulSetFrom (name : string) (size : Z) : values_StatefulSet := mkStatefulSet name size (VInt 1).
(** The zero value of an [IntOrString] is the integer 0. *)
Definition buildStatefulSetWithMaxUnavailableFrom (name : string) (size : Z) (maxUnavailable : option value) : values_StatefulSet :=
  mkStatefulSet name size (default (VInt 0) maxUnavailable).
Record values_Deployment := mkDeployment { dep_name : string; dep_Replicas : Z; dep_Strategy : string }.
Definition buildDeploymentFrom (name : string) : values_Deployment := mkDeployment name 1 "Recreate".
Definition VersionCR : string := "5.0.0".
Definition buildCRVersionFrom (crVersion : string) : string := if String.eqb crVersion "" then VersionCR else crVersion.
Definition VolumeNameJail : string := "jail".
Definition BuildPrefixedName (prefix base : string) : string :=
  if String.eqb prefix "" then base else prefix +:+ "-" +:+ base.

Record Partition := mkPartition { pt_Name : string; pt_IsAll : bool; pt_NodeSetRefs : list string; pt_Config : string }.
Record PartitionConfiguration := mkPartitionConfiguration {
  pc_ConfigType : string; pc_RawConfig : list string; pc_Partitions : list Partition }.
Record HealthCheckConfig := mkHealthCheckConfig {
  hc_HealthCheckInterval : Z; hc_HealthCheckProgram : string; hc_HealthCheckNodeState : list string }.
Record PopulateJail := mkPopulateJail {
  pj_Name : string; pj_K8sNodeFilterName : string; pj_ContainerPopulateJail : Container; pj_VolumeJail : string;
  pj_Overwrite : bool; pj_Maintenance : option string; pj_spec : fields }.
Record SlurmController := mkSlurmController {
  ctl_K8sNodeFilterName : string; ctl_ContainerSlurmctld : Container; ctl_ContainerMunge : Container;
  ctl_ContainerSSSD : option Container; ctl_Service : values_Service; ctl_StatefulSet : values_StatefulSet; ctl_DaemonSet : string;
  ctl_VolumeSpool : option string; ctl_VolumeJail : option string;          (* their source names *)
  ctl_CustomVolumeMounts : list (option string); ctl_Maintenance : option string; ctl_IsSSSDSecretDefault : bool;
  ctl_SSSDConfSecretName : string; ctl_OpenMetricsEnabled : option bool; ctl_spec : fields }.
Record SlurmLogin := mkSlurmLogin {
  lg_Size : Z; lg_K8sNodeFilterName : string; lg_ContainerSshd : Container; lg_ContainerMunge : Container;
  lg_ContainerSSSD : option Container; lg_Service : values_Service; lg_HeadlessService : values_Service;
  lg_StatefulSet : values_StatefulSet; lg_IsSSHDConfigMapDefault : bool; lg_SSHDConfigMapName : string;
  lg_IsSSSDSecretDefault : bool; lg_SSSDConfSecretName : string; lg_SSHRootPublicKeys : option (list string);
  lg_JailSubMounts : list (option string); lg_CustomVolumeMounts : list (option string); lg_UserIsolation : option fields;
  lg_UseDefaultAppArmorProfile : bool; lg_Maintenance : option string; lg_spec : fields }.
Record ExternalDB := mkExternalDB {
  xdb_Enabled : bool; xdb_Host : string; xdb_Port : Z; xdb_User : string; xdb_PasswordSecretName : string;
  xdb_PasswordSecretKey : string; xdb_ServerCASecretRef : string; xdb_ClientCertSecretRef : string;
  xdb_StorageParameters : gmap string string }.
Record SlurmAccounting := mkSlurmAccounting {
  acc_K8sNodeFilterName : string; acc_Enabled : bool; acc_ContainerAccounting : Container; acc_ContainerMunge : Container;
  acc_Service : values_Service; acc_Deployment : values_Deployment; acc_ExternalDB : ExternalDB; acc_MariaDbEnabled : bool;
  acc_MariaDbProtectedSecret : bool; acc_MariaDbPort : Z; acc_SlurmdbdConfig : fields; acc_SlurmConfig : fields;
  acc_Maintenance : option string; acc_spec : fields }.
Record SlurmREST := mkSlurmREST {
  rest_Size : Z; rest_K8sNodeFilterName : string; rest_Enabled : bool; rest_ContainerREST : Container;
  rest_Service : values_Service; rest_Deployment : values_Deployment; rest_Maintenance : option string; rest_spec : fields }.
Record SlurmExporter := mkSlurmExporter {
  exp_K8sNodeFilterName : string; exp_Enabled : bool; exp_Image : string;       (* of the deprecated exporter *)
  exp_Container : fields; exp_Maintenance : option string; exp_Deployment : values_Deployment; exp_spec : fields }.
Record SConfigController := mkSConfigController {
  scc_Size : Z; scc_K8sNodeFilterName : string; scc_Container : Container; scc_Maintenance : string;
  scc_Deployment : values_Deployment; scc_spec : fields }.
Record values_SlurmCluster := mkSlurmCluster {
  sc_Namespace : string; sc_Name : string; sc_CRVersion : string; sc_ClusterWithGPU : bool;
  sc_PartitionConfiguration : PartitionConfiguration; sc_HealthCheckConfig : option HealthCheckConfig;
  sc_PopulateJail : PopulateJail; sc_NodeFilters : list fields; sc_VolumeSources : list fields; sc_SshdKeysName : string;
  sc_NodeController : SlurmController; sc_NodeAccounting : SlurmAccounting; sc_NodeRest : SlurmREST; sc_NodeLogin : SlurmLogin;
  sc_SlurmExporter : SlurmExporter; sc_SlurmConfig : fields; sc_CustomSlurmConfig : option string;
  sc_CustomCgroupConfig : option string; sc_CgroupVersion : string; sc_PMIxEnv : string; sc_PlugStackConfig : fields;
  sc_SConfigController : SConfigController; sc_NodeSets : list resource; sc_UseDefaultAppArmorProfile : bool }.

(** ** Construction *)
Definition bool_at (b : fields) (p : path) : bool := default false (field_optbool b p).
Definition source_name (mount : fields) : option string := field_optstr mount ["volumeSourceName"].
Definition buildPartitionConfiguration (b : fields) : PartitionConfiguration :=
  mkPartitionConfiguration (field_str b ["configType"]) (field_strs b ["rawConfig"])
    ((λ p, mkPartition (field_str p ["name"]) (bool_at p ["isAll"]) (field_strs p ["nodeSetRefs"]) (field_str p ["config"])) <$>
       list_at b ["partitions"]).
Definition buildHealthCheckConfig (b : fields) : HealthCheckConfig :=
  mkHealthCheckConfig (field_int b ["healthCheckInterval"]) (field_str b ["healthCheckProgram"])
    ((λ s, field_str s ["state"]) <$> list_at b ["healthCheckNodeState"]).
Definition buildSlurmPopulateJailFrom (cluster : string) (maintenance : option string) (b : fields) : PopulateJail :=
  mkPopulateJail (BuildPopulateJailJobName cluster) (field_str b ["k8sNodeFilterName"])
    (mkContainer "populate-jail" 0
       (filter (λ kv, head kv.1 ∈ Some <$> ["image"; "imagePullPolicy"; "imagePullSecrets"; "appArmorProfile"]) b))
    VolumeNameJail (bool_at b ["overwrite"]) maintenance b.
(** The sidecar, with the debug level that stands next to it. *)
Definition buildSSSD (b : fields) : option Container :=
  if has_field b ["sssd"] then Some (mkContainer "sssd" (field_int b ["sssdDebugLevel"]) (subtree ["sssd"] b)) else None.
Definition buildSlurmControllerFrom (cluster namePrefix : string) (maintenance : option string) (b : fields) : SlurmController :=
  let '(sssdDefault, sssdName) := or_default (field_str b ["sssdConfSecretRefName"]) (BuildSecretSSSDConfName cluster) in
  {| ctl_K8sNodeFilterName := field_str b ["k8sNodeFilterName"];
     ctl_ContainerSlurmctld := buildContainerFrom (subtree ["slurmctld"] b) "slurmctld";
     ctl_ContainerMunge := buildContainerFrom (subtree ["munge"] b) "munge"; ctl_ContainerSSSD := buildSSSD b;
     ctl_Service := buildServiceFrom (BuildServiceName ComponentTypeController cluster);
     ctl_StatefulSet := buildStatefulSetWithMaxUnavailableFrom (BuildStatefulSetName ComponentTypeController namePrefix) 1 None;
     ctl_DaemonSet := BuildDaemonSetName ComponentTypeController namePrefix;
     ctl_VolumeSpool := field_optstr b ["volumes"; "spool"; "volumeSourceName"];
     ctl_VolumeJail := field_optstr b ["volumes"; "jail"; "volumeSourceName"];
     ctl_CustomVolumeMounts := source_name <$> list_at b ["volumes"; "customMounts"]; ctl_Maintenance := maintenance;
     ctl_IsSSSDSecretDefault := sssdDefault; ctl_SSSDConfSecretName := sssdName;
     ctl_OpenMetricsEnabled := field_optbool b ["openMetrics"; "enabled"]; ctl_spec := b |}.
Definition buildSlurmLoginFrom (cluster namePrefix : string) (maintenance : option string) (b : fields) (appArmor : bool) : SlurmLogin :=
  let svc := mkService (BuildServiceName ComponentTypeLogin cluster) (field_str b ["sshdServiceType"])
               (strings_at b ["sshdServiceAnnotations"]) (field_str b ["sshdServiceLoadBalancerIP"])
               (field_strs b ["sshdServiceLoadBalancerSourceRanges"]) (field_int b ["sshdServiceNodePort"]) "TCP" in
  let '(sshdDefault, sshdName) :=
    or_default (field_str b ["sshdConfigMapRefName"]) (BuildConfigMapSSHDConfigsNameLogin cluster) in
  let '(sssdDefault, sssdName) := or_default (field_str b ["sssdConfSecretRefName"]) (BuildSecretSSSDConfName cluster) in
  {| lg_Size := field_int b ["size"]; lg_K8sNodeFilterName := field_str b ["k8sNodeFilterName"];
     lg_ContainerSshd := buildContainerFrom (subtree ["sshd"] b) "sshd";
     lg_ContainerMunge := buildContainerFrom (subtree ["munge"] b) "munge"; lg_ContainerSSSD := buildSSSD b;
     lg_Service := svc; lg_HeadlessService := buildServiceFrom (BuildLoginHeadlessServiceName cluster);
     lg_StatefulSet := buildStatefulSetFrom (BuildStatefulSetName ComponentTypeLogin namePrefix) (field_int b ["size"]);
     lg_IsSSHDConfigMapDefault := sshdDefault; lg_SSHDConfigMapName := sshdName; lg_IsSSSDSecretDefault := sssdDefault;
     lg_SSSDConfSecretName := sssdName;
     lg_SSHRootPublicKeys := match b !! ["sshRootPublicKeys"] with Some (VStrs l) => Some l | _ => None end;
     lg_JailSubMounts := source_name <$> list_at b ["volumes"; "jailSubMounts"];
     lg_CustomVolumeMounts := source_name <$> list_at b ["volumes"; "customMounts"];
     lg_UserIsolation := if has_field b ["userIsolation"] then Some (subtree ["userIsolation"] b) else None;
     lg_UseDefaultAppArmorProfile := appArmor; lg_Maintenance := maintenance; lg_spec := b |}.
(** A container whose port has a default. *)
Definition with_port (port : Z) (c : Container) : Container :=
  if (ct_Port c =? 0)%Z then mkContainer (ct_Name c) (ct_SSSDDebugLevel c) (<[["port"] := VInt port]> (ct_spec c)) else c.
Definition DefaultAccountingPort : Z := 6819.
Definition DefaultRESTPort : Z := 6820.
Definition externalDB_of (b : fields) : ExternalDB :=
  mkExternalDB (bool_at b ["enabled"]) (field_str b ["host"]) (field_int b ["port"]) (field_str b ["user"])
    (field_str b ["passwordSecretKeyRef"; "name"]) (field_str b ["passwordSecretKeyRef"; "key"])
    (field_str b ["tls"; "serverCASecretRef"]) (field_str b ["tls"; "clientCertSecretRef"]) (strings_at b ["storageParameters"]).
Definition buildAccountingFrom (cluster namePrefix : string) (maintenance : option string) (b : fields) : SlurmAccounting :=
  {| acc_K8sNodeFilterName := field_str b ["k8sNodeFilterName"]; acc_Enabled := bool_at b ["enabled"];
     acc_ContainerAccounting := with_port DefaultAccountingPort (buildContainerFrom (subtree ["slurmdbd"] b) "accounting");
     acc_ContainerMunge := buildContainerFrom (subtree ["munge"] b) "munge";
     acc_Service := buildServiceFrom (BuildServiceName ComponentTypeAccounting cluster);
     acc_Deployment := buildDeploymentFrom (BuildDeploymentName ComponentTypeAccounting namePrefix);
     acc_ExternalDB := externalDB_of (subtree ["externalDB"] b); acc_MariaDbEnabled := bool_at b ["mariadbOperator"; "enabled"];
     acc_MariaDbProtectedSecret := bool_at b ["mariadbOperator"; "protectedSecret"];
     acc_MariaDbPort := field_int b ["mariadbOperator"; "port"]; acc_SlurmdbdConfig := subtree ["slurmdbdConfig"] b;
     acc_SlurmConfig := subtree ["slurmConfig"] b; acc_Maintenance := maintenance; acc_spec := b |}.
Definition buildRestFrom (cluster namePrefix : string) (maintenance : option string) (b : fields) : SlurmREST :=
  {| rest_Size := field_int b ["size"]; rest_K8sNodeFilterName := field_str b ["k8sNodeFilterName"];
     rest_Enabled := bool_at b ["enabled"];
     rest_ContainerREST := with_port DefaultRESTPort (buildContainerFrom (subtree ["rest"] b) "slurmrestd");
     rest_Service := buildServiceFrom (BuildServiceName ComponentTypeREST cluster);
     rest_Deployment := buildDeploymentFrom (BuildDeploymentName ComponentTypeREST namePrefix);
     rest_Maintenance := maintenance; rest_spec := b |}.
Definition buildSlurmExporterFrom (namePrefix : string) (maintenance : option string) (b : fields) : SlurmExporter :=
  {| exp_K8sNodeFilterName := field_str b ["k8sNodeFilterName"]; exp_Enabled := bool_at b ["enabled"];
     exp_Image := field_str b ["exporter"; "image"]; exp_Container := subtree ["exporterContainer"] b;
     exp_Maintenance := maintenance; exp_Deployment := buildDeploymentFrom (BuildPrefixedName namePrefix "slurm-exporter");
     exp_spec := b |}.
Definition SlurmDefaultResumeTimeout : Z := 1800.
Definition buildSlurmConfigFrom (b : fields) : fields :=
  match b !! ["resumeTimeout"] with Some _ => b | None => <[["resumeTimeout"] := VInt SlurmDefaultResumeTimeout]> b end.
Definition buildSConfigControllerFrom (b : fields) (maintenance namePrefix : string) : SConfigController :=
  mkSConfigController (field_int b ["node"; "size"]) (field_str b ["node"; "k8sNodeFilterName"])
    (buildContainerFrom (subtree ["container"] b) "sconfigctrl") maintenance
    (buildDeploymentFrom (BuildDeploymentName ComponentTypeSConfigController namePrefix)) b.

(** ** Validation ([validate.go]) *)
Definition filter_name (f : fields) : string := field_str f ["name"].
(** The pointers of a volume source that are set; an empty object is a leaf. *)
Definition sources_of (v : fields) : list string :=
  filter (λ k, k ≠ "name") (remove_dups (omap (λ kv, head kv.1) (map_to_list v))).
Definition custom_line_ok (l : string) : bool := HasPrefix (TrimSpace l) "PartitionName".
(** Which names of volume sources the mounts give; an empty name is only logged. *)
Definition volumeSourceNames (c : values_SlurmCluster) : list string :=
  omap id ([ctl_VolumeSpool (sc_NodeController c); ctl_VolumeJail (sc_NodeController c)] ++ lg_JailSubMounts (sc_NodeLogin c) ++
           lg_CustomVolumeMounts (sc_NodeLogin c) ++ ctl_CustomVolumeMounts (sc_NodeController c)).
Definition login_steps (svc : values_Service) : list (MultiStepExecutionStep ()) :=
  [Step "SshdServiceType valid"
     (if bool_decide (svc_Type svc ∈ ["LoadBalancer"; "NodePort"]) then ret tt else fail (ErrMsg "SshdServiceType is invalid"));
   Step "SshdServiceNodePort specified"
     (if negb (String.eqb (svc_Type svc) "NodePort") then ret tt
      else if negb (svc_NodePort svc =? 0)%Z then ret tt else fail (ErrMsg "SshdServiceNodePort is not specified"));
   Step "SshdServiceNodePort valid"
     (if negb (String.eqb (svc_Type svc) "NodePort") then ret tt
      else if (30000 <=? svc_NodePort svc)%Z && (svc_NodePort svc <=? 32768)%Z then ret tt
      else fail (ErrMsg "SshdServiceNodePort is invalid"))].
Definition with_SshdKeysName (name : string) (c : values_SlurmCluster) : values_SlurmCluster :=
  mkSlurmCluster (sc_Namespace c) (sc_Name c) (sc_CRVersion c) (sc_ClusterWithGPU c) (sc_PartitionConfiguration c)
    (sc_HealthCheckConfig c) (sc_PopulateJail c) (sc_NodeFilters c) (sc_VolumeSources c) name (sc_NodeController c)
    (sc_NodeAccounting c) (sc_NodeRest c) (sc_NodeLogin c) (sc_SlurmExporter c) (sc_SlurmConfig c) (sc_CustomSlurmConfig c)
    (sc_CustomCgroupConfig c) (sc_CgroupVersion c) (sc_PMIxEnv c) (sc_PlugStackConfig c) (sc_SConfigController c)
    (sc_NodeSets c) (sc_UseDefaultAppArmorProfile c).
Definition ensure (b : bool) (e : string) : outcome () := if b then Ok tt else Err (ErrMsg e).
(** Volume sources with the same name are only logged; the values with the default name of the host keys. *)
Definition Validate (c : values_SlurmCluster) : outcome values_SlurmCluster :=
  let? _ := ensure (negb (String.eqb (pc_ConfigType (sc_PartitionConfiguration c)) "custom") ||
                    forallb custom_line_ok (pc_RawConfig (sc_PartitionConfiguration c)))
              "partition configuration should start with PartitionName" in
  let? _ := ensure (ValidateUniqueEntries filter_name (sc_NodeFilters c)) "k8s node filters are invalid. names must be unique" in
  let? _ := wrap_err "specified k8s node filter name not found in K8sNodeFilters"
              (GetBy filter_name (sc_NodeFilters c) (ctl_K8sNodeFilterName (sc_NodeController c))) in
  let? _ := ensure (forallb (λ v, ValidateOneOf (sources_of v)) (sc_VolumeSources c)) "only one of sources must be specified" in
  let? _ := ensure (forallb (λ n, match GetBy filter_name (sc_VolumeSources c) n with Ok _ => true | _ => false end) (volumeSourceNames c))
              "specified node volume source name not found in VolumeSources" in
  let? _ := ensure (negb ((0 <? lg_Size (sc_NodeLogin c))%Z && bool_decide (lg_SSHRootPublicKeys (sc_NodeLogin c) = None)))
              "SSHRootPublicKeys are invalid" in
  let c := if String.eqb (sc_SshdKeysName c) "" then with_SshdKeysName (BuildSecretSSHDKeysName (sc_Name c)) c else c in
  let? _ := (ExecuteMultiStep CollectErrors (login_steps (lg_Service (sc_NodeLogin c))) tt).2 in
  Ok c.

(** [BuildSlurmClusterFrom]: the maintenance mode of the configuration controller is dereferenced. *)
Definition BuildSlurmClusterFrom (cluster : resource) (namePrefix : string) : outcome values_SlurmCluster :=
  let b := subtree ["spec"] (o_body cluster) in
  let name := o_name cluster in
  let maintenance := field_optstr b ["maintenance"] in
  let nodes c := subtree ["slurmNodes"; c] b in
  match maintenance with
  | None => Halt "invalid memory address or nil pointer dereference"
  | Some mode =>
      wrap_err "failed to validate SlurmCluster" (Validate
        {| sc_Namespace := o_namespace cluster; sc_Name := name; sc_CRVersion := buildCRVersionFrom (field_str b ["crVersion"]);
           sc_ClusterWithGPU := false;
           sc_PartitionConfiguration := buildPartitionConfiguration (subtree ["partitionConfiguration"] b);
           sc_HealthCheckConfig :=
             if has_field b ["healthCheckConfig"] then Some (buildHealthCheckConfig (subtree ["healthCheckConfig"] b)) else None;
           sc_PopulateJail := buildSlurmPopulateJailFrom name maintenance (subtree ["populateJail"] b);
           sc_NodeFilters := list_at b ["k8sNodeFilters"]; sc_VolumeSources := list_at b ["volumeSources"];
           sc_SshdKeysName := field_str b ["secrets"; "sshdKeysName"];
           sc_NodeController := buildSlurmControllerFrom name namePrefix maintenance (nodes "controller");
           sc_NodeAccounting := buildAccountingFrom name namePrefix maintenance (nodes "accounting");
           sc_NodeRest := buildRestFrom name namePrefix maintenance (nodes "rest");
           sc_NodeLogin := buildSlurmLoginFrom name namePrefix maintenance (nodes "login") (bool_at b ["useDefaultAppArmorProfile"]);
           sc_SlurmExporter := buildSlurmExporterFrom namePrefix maintenance (nodes "exporter");
           sc_SlurmConfig := buildSlurmConfigFrom (subtree ["slurmConfig"] b);
           sc_CustomSlurmConfig := field_optstr b ["customSlurmConfig"];
           sc_CustomCgroupConfig := field_optstr b ["customCgroupConfig"]; sc_CgroupVersion := field_str b ["cgroupVersion"];
           sc_PMIxEnv := field_str b ["mpiConfig"; "pmixEnv"]; sc_PlugStackConfig := subtree ["plugStackConfig"] b;
           sc_SConfigController := buildSConfigControllerFrom (subtree ["sConfigController"] b) mode namePrefix;
           sc_NodeSets := []; sc_UseDefaultAppArmorProfile := bool_at b ["useDefaultAppArmorProfile"] |})
  end.

(** The spec of a small cluster. *)
Definition example_spec : list (path * value) :=
  [(["metadata"; "uid"], VStr "uid-c"); (["spec"; "maintenance"], VStr "none");
   (["spec"; "k8sNodeFilters"; "0"; "name"], VStr "cpu"); (["spec"; "volumeSources"; "0"; "name"], VStr "jail");
   (["spec"; "volumeSources"; "0"; "emptyDir"], VRaw "{}");
   (["spec"; "slurmNodes"; "controller"; "k8sNodeFilterName"], VStr "cpu");
   (["spec"; "slurmNodes"; "controller"; "volumes"; "jail"; "volumeSourceName"], VStr "jail");
   (["spec"; "slurmNodes"; "login"; "k8sNodeFilterName"], VStr "cpu"); (["spec"; "slurmNodes"; "login"; "size"], VInt 2);
   (["spec"; "slurmNodes"; "login"; "sshRootPublicKeys"], VStrs ["ssh-ed25519 AAAA root"]);
   (["spec"; "slurmNodes"; "login"; "sshdServiceType"], VStr "LoadBalancer");
   (["spec"; "slurmNodes"; "login"; "sshd"; "port"], VInt 22); (["spec"; "populateJail"; "k8sNodeFilterName"], VStr "cpu");
   (["spec"; "sConfigController"; "node"; "k8sNodeFilterName"], VStr "cpu")].
Definition example_cluster : resource := Obj (SlurmCluster, "ns", "c") 1 None ∅ ∅ ∅ (list_to_map example_spec) ∅.
Example example_valid :
  match BuildSlurmClusterFrom example_cluster "c" with
  | Ok v => sc_SshdKeysName v = "c-sshd-keys" ∧ sts_Name (ctl_StatefulSet (sc_NodeController v)) = "c-controller"
  | _ => False
  end.
Proof. vm_compute. done. Qed.
(** Values of a cluster with nothing but NodeSets and partitions. *)
Definition example_values (partitions : PartitionConfiguration) (nodeSets : list resource) : values_SlurmCluster :=
  {| sc_Namespace := "ns"; sc_Name := "c"; sc_CRVersion := VersionCR; sc_ClusterWithGPU := false;
     sc_PartitionConfiguration := partitions; sc_HealthCheckConfig := None;
     sc_PopulateJail := buildSlurmPopulateJailFrom "c" (Some "none") ∅; sc_NodeFilters := []; sc_VolumeSources := []; sc_SshdKeysName := "c-sshd-keys";
     sc_NodeController := buildSlurmControllerFrom "c" "c" (Some "none") ∅; sc_NodeAccounting := buildAccountingFrom "c" "c" (Some "none") ∅;
     sc_NodeRest := buildRestFrom "c" "c" (Some "none") ∅; sc_NodeLogin := buildSlurmLoginFrom "c" "c" (Some "none") ∅ false;
     sc_SlurmExporter := buildSlurmExporterFrom "c" (Some "none") ∅; sc_SlurmConfig := buildSlurmConfigFrom ∅; sc_CustomSlurmConfig := None;
     sc_CustomCgroupConfig := None; sc_CgroupVersion := "v2"; sc_PMIxEnv := ""; sc_PlugStackConfig := ∅;
     sc_SConfigController := buildSConfigControllerFrom ∅ "none" "c"; sc_NodeSets := nodeSets; sc_UseDefaultAppArmorProfile := false |}.
Definition example_nodeSet (name : string) (replicas : Z) (ephemeral : bool) : resource :=
  Obj (NodeSet, "ns", name) 1 None ∅ ∅ ∅
    (list_to_map [(["spec"; "replicas"], VInt replicas); (["spec"; "ephemeralNodes"], VBool ephemeral)]) ∅.
