(* ===== verification/NodeSetCtl.v ===== *)
(** * NodeSet controller

    [internal/controller/nodesetcontroller], with the reconciliation state of [internal/controller/state], the getters of
    [internal/utils/resourcegetter] and [SetCondition] of [api/v1alpha1/nodeset_types.go].

    [Reconcile] gets the NodeSet, migrates its cluster reference, sets up the conditions, keeps the
    NodeSetPowerState of ephemeral NodeSets in existence, reconciles nine groups of objects, and writes conditions,
    replicas and phase to the status. *)
From S2P Require Import Prelude GoStrings Kube Naming Effects Reconciler Patchers Ownership QuietRuns ConfigTexts Workers MultiStep ClusterValues.
From Stdlib Require String.

(** ** Conditions *)
(** [meta.FindStatusCondition] and [meta.SetStatusCondition] of apimachinery, the latter with the time; it tells whether the
    conditions changed. *)
Class StatusConditions := {
  FindStatusCondition : list Condition → string → option Condition;
  SetStatusCondition : Z → list Condition → Condition → list Condition * bool;
  set_finds : ∀ t cs c, ∃ c', FindStatusCondition (SetStatusCondition t cs c).1 (c_Type c) = Some c' ∧
    c_Status c' = c_Status c ∧ c_Reason c' = c_Reason c ∧ c_Message c' = c_Message c;
  set_others : ∀ t cs c type, type ≠ c_Type c →
    FindStatusCondition (SetStatusCondition t cs c).1 type = FindStatusCondition cs type;
  set_unchanged : ∀ t cs c, (SetStatusCondition t cs c).2 = false → (SetStatusCondition t cs c).1 = cs;
  find_nil : ∀ type, FindStatusCondition [] type = None }.

Definition Status_Conditions (o : resource) : list Condition := field_conds (o_status o) ["conditions"].
Definition Status_Phase (o : resource) : string := field_str (o_status o) ["phase"].
Definition Status_Replicas (o : resource) : Z := field_int (o_status o) ["replicas"].
Definition condition (type status reason message : string) : Condition := Cond type status 0 0 reason message.

Definition ConditionNodeSetConfigUpdated : string := "ConfigUpdated".
Definition ConditionNodeSetConfigDynamicUpdated : string := "ConfigDynamicUpdated".
Definition ConditionNodeSetStatefulSetUpdated : string := "StatefulSetUpdated".
Definition ConditionNodeSetPodsReady : string := "PodsReady".
Definition ConditionNodeSetStatefulSetTerminated : string := "StatefulSetTerminated".
Definition ConditionNodeSetPowerStateReady : string := "Ready".
Definition PhaseNodeSetPending : string := "Pending".
Definition PhaseNodeSetProvisioning : string := "Provisioning".
Definition PhaseNodeSetReady : string := "Ready".
Definition PhaseNodeSetTerminating : string := "Terminating".
Definition AnnotationParentalClusterRefName : string := "slurm.nebius.ai/parental-cluster-ref".

(** ** Getters ([internal/utils/resourcegetter]) *)
Definition GetCluster (namespace name : string) : M cluster_state resource :=
  let! got := attempt (client_Get (SlurmCluster, namespace, name)) in
  match got with
  | inl cluster => ret cluster
  | inr err => fail (if IsNotFound err then err else ErrWrap "getting SlurmCluster" err)
  end.
Definition GetClusterInNamespace (namespace : string) : M cluster_state resource :=
  let! items := wrapM "listing SlurmCluster" (client_List SlurmCluster namespace) in
  match items with
  | [] => fail (ErrAPI NotFound)
  | [cluster] => ret cluster
  | _ => fail (ErrMsg "multiple SlurmCluster resources found in namespace")
  end.
Definition by_name (a b : resource) : Prop := String.leb (o_name a) (o_name b) = true.
Global Instance by_name_dec : RelDecision by_name.
Proof. intros a b. unfold by_name. apply _. Defined.
Definition ListNodeSetsByClusterRef (namespace name : string) : M cluster_state (list resource) :=
  let! items := wrapM "listing NodeSet" (client_List NodeSet namespace) in
  let mine := filter (λ n, (let c := field_str (o_body n) ["spec"; "clusterName"] in
                            if String.eqb c "" then default "" (o_annotations n !! AnnotationParentalClusterRefName) else c) = name)
                     items in
  ret (merge_sort by_name mine).
Definition hasClusterLabel (o : resource) (cluster : string) : bool :=
  String.eqb (default "" (o_labels o !! LabelInstanceKey)) cluster.
Definition ResolveWorkloadNamePrefix (namespace cluster : string) : M cluster_state string :=
  let! got := attempt (client_Get (AdvancedStatefulSet, namespace, ComponentType_String ComponentTypeController)) in
  match got with
  | inl sts => ret (if hasClusterLabel sts cluster then "" else cluster)
  | inr err => if IsNotFound err then ret cluster else fail (ErrWrap "checking legacy controller StatefulSet" err)
  end.
(** What both answer with no other client and no failing request.  Names are prefixed with the cluster's, but for a cluster that has
    workloads from before there were prefixes. *)
Definition workload_prefix (m : gmap key resource) (namespace name : string) : string :=
  match m !! (AdvancedStatefulSet, namespace, ComponentType_String ComponentTypeController) with
  | Some sts => if hasClusterLabel sts name then "" else name
  | None => name
  end.
Definition nodeSets_of (m : gmap key resource) (namespace name : string) : list resource :=
  merge_sort by_name
    (filter (λ n, (let c := field_str (o_body n) ["spec"; "clusterName"] in
                   if String.eqb c "" then default "" (o_annotations n !! AnnotationParentalClusterRefName) else c) = name)
       (filter (λ o, (o_key o).1 = (NodeSet, namespace)) (snd <$> map_to_list m))).
Lemma prefix_quiet w ns name :
  quiet w → ResolveWorkloadNamePrefix ns name w = (w, Ok (workload_prefix (w_objects w) ns name)).
Proof.
  intros Hq. unfold ResolveWorkloadNamePrefix, workload_prefix, bind, attempt. rewrite Get_quiet by done.
  by destruct (w_objects w !! _).
Qed.
Lemma nodeSets_quiet w ns name : quiet w → ListNodeSetsByClusterRef ns name w = (w, Ok (nodeSets_of (w_objects w) ns name)).
Proof. intros Hq. unfold ListNodeSetsByClusterRef, client_List, bind, wrapM. by rewrite quiet_request. Qed.

(** ** The reconciliation state ([internal/controller/state]) *)
Definition buildKey (gvk namespace name : string) : string := Join [gvk; namespace +:+ "/" +:+ name] "/".
Definition state_Set (k : string) (st : gset string) : gset string := {[k]} ∪ st.
Definition state_Present (k : string) (st : gset string) : bool := bool_decide (k ∈ st).
Definition state_Remove (k : string) (st : gset string) : gset string := st ∖ {[k]}.

(** ** The controller *)
Definition RequeueAfter : Type := option Z.      (* seconds *)

Section controller.
  Context (marshal : gmap string string → string) (unmarshal : string → option (gmap string string)).
  Context `{StatusConditions} (now : Z).
  (** The rendering of pods with what it takes from the cluster. *)
  Context {Args : Type} (podArgs : resource → bool → Args) (renderPod : SlurmNodeSet → Args → outcome (fields * option value)).
  Local Abbreviation recon := (Reconcile marshal unmarshal).

(** *** Status *)
Definition SetCondition (status : fields) (c : Condition) : fields * bool :=
  let cs := field_conds status ["conditions"] in
  let c := match FindStatusCondition cs (c_Type c) with
           | Some e => Cond (c_Type c) (c_Status c) (c_ObservedGeneration e) (c_LastTransitionTime c) (c_Reason c) (c_Message c)
           | None => c
           end in
  let '(cs', changed) := SetStatusCondition now cs c in
  (<[["conditions"] := VConds cs']> status, changed).
(** The patcher gets the status and tells whether to patch; the object becomes the server's answer. *)
Definition patchStatus (obj : resource) (patcher : fields → fields * bool) : M cluster_state resource :=
  let '(status, needToPatch) := patcher (o_status obj) in
  if negb needToPatch then ret obj
  else wrapM "patching cluster status" (client_StatusPatch obj (with_status status obj)).
Definition setUpConditions (nodeSet : resource) : M cluster_state resource :=
  let '(status, needToUpdate) :=
    foldl (λ '(status, needToUpdate) type,
             match FindStatusCondition (field_conds status ["conditions"]) type with
             | Some _ => (status, needToUpdate)
             | None =>
                 let '(status, updated) :=
                   SetCondition status (condition type "Unknown" "SetUpCondition" "The object is not ready yet.") in
                 (status, needToUpdate || updated)
             end)
      (o_status nodeSet, false)
      [ConditionNodeSetConfigUpdated; ConditionNodeSetConfigDynamicUpdated; ConditionNodeSetStatefulSetUpdated;
       ConditionNodeSetPodsReady; ConditionNodeSetStatefulSetTerminated] in
  if negb needToUpdate then ret nodeSet
  else wrapM "patching NodeSet status" (client_StatusPatch nodeSet (with_status status nodeSet)).
Definition computePhase (nodeSet : resource) : string :=
  let status type := c_Status <$> FindStatusCondition (Status_Conditions nodeSet) type in
  if bool_decide (status ConditionNodeSetStatefulSetTerminated = Some "True") then PhaseNodeSetTerminating
  else if bool_decide (status ConditionNodeSetPodsReady = Some "True") then PhaseNodeSetReady
  else if bool_decide (status ConditionNodeSetPodsReady = Some "False") then PhaseNodeSetProvisioning
  else PhaseNodeSetPending.
Definition updatePhase (nodeSet : resource) : M cluster_state resource :=
  let phase := computePhase nodeSet in
  if String.eqb (Status_Phase nodeSet) phase then ret nodeSet
  else patchStatus nodeSet (λ status,
         if String.eqb (field_str status ["phase"]) phase then (status, false)
         else (<[["phase"] := VStr phase]> status, true)).

(** *** The power state of an ephemeral NodeSet *)
Definition ActiveNodes (o : resource) : list Z := field_ints (o_body o) ["spec"; "activeNodes"].
Definition desiredPowerState (nodeSet : resource) (activeNodes : option (list Z)) : resource :=
  Obj (NodeSetPowerState, o_namespace nodeSet, o_name nodeSet) 0 None {[LabelNodeSetKey := o_name nodeSet]} ∅ ∅
    (list_to_map
       ((["spec"; "nodeSetRef"], VStr (o_name nodeSet)) ::
        match activeNodes with None | Some [] => [] | Some l => [(["spec"; "activeNodes"], VInts l)] end)) ∅.
Definition initialActiveNodes (nodeSet : resource) : outcome (list Z) :=
  let n := field_int (o_body nodeSet) ["spec"; "initialNumberEphemeralNodes"] in
  if (n <? 0)%Z then Halt "makeslice: len out of range" else Ok (seqZ 0 n).
Definition powerStateStatus (existing : resource) : fields * bool :=
  let activeCount := wrap 32 (Z.of_nat (length (ActiveNodes existing))) in
  let '(status, needsPatch) :=
    if (field_int (o_status existing) ["activeCount"] =? activeCount)%Z then (o_status existing, false)
    else (<[["activeCount"] := VInt activeCount]> (o_status existing), true) in
  let ready := condition ConditionNodeSetPowerStateReady "True" "ActiveNodesReconciled"
                 (Itoa activeCount +:+ " active nodes reconciled") in
  let cs := field_conds status ["conditions"] in
  if bool_decide (c_Status <$> FindStatusCondition cs ConditionNodeSetPowerStateReady = Some "True") then (status, needsPatch)
  else (<[["conditions"] := VConds (SetStatusCondition now cs ready).1]> status, true).
Definition reconcileNodeSetPowerState (nodeSet : resource) : M cluster_state (list Z) :=
  let k := (NodeSetPowerState, o_namespace nodeSet, o_name nodeSet) in
  let! got := attempt (client_Get k) in
  let! desired := match got with
                  | inl _ => ret (desiredPowerState nodeSet None)
                  | inr err =>
                      if IsNotFound err then
                        let! activeNodes := lift (initialActiveNodes nodeSet) in
                        ret (desiredPowerState nodeSet (Some activeNodes))
                      else fail (ErrWrap "getting NodeSetPowerState" err)
                  end in
  do! wrapM "reconciling NodeSetPowerState" (recon (o_uid nodeSet) desired []);
  let! existing := wrapM "getting NodeSetPowerState after reconcile" (client_Get k) in
  let '(status, needsPatch) := powerStateStatus existing in
  let! existing := if needsPatch
                   then wrapM "patching NodeSetPowerState status" (client_StatusPatch existing (with_status status existing))
                   else ret existing in
  ret (ActiveNodes existing).

(** *** The worker objects *)
Definition get_dep (k : key) : M cluster_state (list dependency) :=
  let! o := client_Get k in
  ret [Dep (o_namespace o) (o_name o) (Itoa (o_resourceVersion o))].
Definition getWorkersStatefulSetDependencies (v : SlurmNodeSet) (cluster : resource) : M cluster_state (list dependency) :=
  let ns := v_Namespace v in
  let! munge := get_dep (Secret, ns, BuildSecretMungeKeyName (v_ClusterName v)) in
  let! slurmdbd := if default false (field_optbool (o_body cluster) ["spec"; "slurmNodes"; "accounting"; "enabled"])
                   then get_dep (Secret, ns, BuildSecretSlurmdbdConfigsName (v_ClusterName v)) else ret [] in
  let! supervisord := if String.eqb (v_SupervisorDConfigMapName v) "" then ret []
                      else get_dep (ConfigMap, ns, v_SupervisorDConfigMapName v) in
  let! sshd := if String.eqb (v_SSHDConfigMapName v) "" then ret [] else get_dep (ConfigMap, ns, v_SSHDConfigMapName v) in
  ret (munge ++ slurmdbd ++ supervisord ++ sshd).
Definition SecurityLimitsConfig (v : SlurmNodeSet) : string := field_str (v_spec v) ["spec"; "slurmd"; "security"; "limitsConfig"].
Definition step_limits (nodeSet : resource) (v : SlurmNodeSet) : M cluster_state () :=
  wrapM "reconciling worker security limits configmap"
    (recon (o_uid nodeSet)
       (RenderConfigMapSecurityLimitsForNodeSet (v_Namespace v) (v_ClusterName v) (v_Name v) (SecurityLimitsConfig v)) []).
(** Shared by all NodeSets: the cluster owns them. *)
Definition step_defaults (v : SlurmNodeSet) (cluster : resource) : M cluster_state () :=
  let! namePrefix := wrapM "resolving workload name prefix" (ResolveWorkloadNamePrefix (o_namespace cluster) (o_name cluster)) in
  let! cv := wrapM "building cluster values" (lift (BuildSlurmClusterFrom cluster namePrefix)) in
  do! (if v_SupervisorDConfigMapDefault v then
         wrapM "reconciling default worker supervisord ConfigMap"
           (recon (o_uid cluster) (RenderDefaultConfigMapSupervisord (sc_Namespace cv) (sc_Name cv)) [])
       else ret tt);
  if v_SSHDConfigMapDefault v then
    wrapM "reconciling default worker sshd ConfigMap"
      (recon (o_uid cluster)
         (RenderConfigMapSSHDConfigs (sc_Namespace cv) (sc_Name cv) (ct_Port (lg_ContainerSshd (sc_NodeLogin cv)))
            (bool_decide (is_Some (lg_ContainerSSSD (sc_NodeLogin cv)))) ComponentTypeWorker) [])
  else ret tt.
Definition step_account (nodeSet : resource) (cluster : resource) : M cluster_state () :=
  wrapM "reconciling NodeSet ServiceAccount"
    (recon (o_uid nodeSet) (RenderServiceAccount (o_namespace nodeSet) (o_name cluster) (o_name nodeSet)) []).
Definition step_role (nodeSet : resource) (v : SlurmNodeSet) (cluster : resource) : M cluster_state () :=
  let! desired := lift (RenderRole (o_namespace nodeSet) (o_name cluster) v) in
  wrapM "reconciling NodeSet Role" (recon (o_uid nodeSet) desired []).
Definition step_binding (nodeSet : resource) (cluster : resource) : M cluster_state () :=
  wrapM "reconciling NodeSet RoleBinding"
    (recon (o_uid nodeSet) (RenderRoleBinding (o_namespace nodeSet) (o_name cluster) (o_name nodeSet)) []).
Definition step_sssd (nodeSet : resource) (v : SlurmNodeSet) (cluster : resource) : M cluster_state () :=
  if negb (v_ContainerSSSD v) then ret tt
  else if negb (v_IsSSSDSecretDefault v) then ret tt
  else wrapM "reconciling worker sssd Secret"
         (recon (o_uid nodeSet)
            (RenderSecretDefaultSSSDConf (o_namespace nodeSet) (o_name cluster) (v_SSSDConfSecretName v) ComponentTypeNodeSet) []).
Definition step_umbrella (v : SlurmNodeSet) (cluster : resource) : M cluster_state () :=
  wrapM "reconciling umbrella worker Service" (recon (o_uid cluster) (RenderNodeSetUmbrellaService v) []).
Definition step_service (nodeSet : resource) (v : SlurmNodeSet) : M cluster_state () :=
  wrapM "reconciling worker Service" (recon (o_uid nodeSet) (RenderNodeSetService v) []).
Definition step_statefulSet (nodeSet : resource) (v : SlurmNodeSet) (cluster : resource) (gpu : bool) : M cluster_state () :=
  let! desired := wrapM "rendering worker StatefulSet" (lift (RenderNodeSetStatefulSet renderPod v (podArgs cluster gpu))) in
  let! deps := wrapM "retrieving dependencies for worker StatefulSet" (getWorkersStatefulSetDependencies v cluster) in
  wrapM "reconciling worker StatefulSet" (recon (o_uid nodeSet) desired deps).
Definition worker_steps (nodeSet : resource) (v : SlurmNodeSet) (cluster : resource) (gpu : bool) :
    list (MultiStepExecutionStep cluster_state) :=
  [Step "Security limits ConfigMap" (step_limits nodeSet v); Step "Default worker ConfigMaps" (step_defaults v cluster);
   Step "Slurm NodeSet ServiceAccount" (step_account nodeSet cluster); Step "Slurm NodeSet Role" (step_role nodeSet v cluster);
   Step "Slurm NodeSet RoleBinding" (step_binding nodeSet cluster); Step "Worker sssd.conf Secret" (step_sssd nodeSet v cluster);
   Step "Umbrella worker Service" (step_umbrella v cluster); Step "Nodeset worker Service" (step_service nodeSet v);
   Step "Worker StatefulSet" (step_statefulSet nodeSet v cluster gpu)].
Definition executeReconciliation (nodeSet : resource) (v : SlurmNodeSet) (cluster : resource) (gpu : bool) : M cluster_state () :=
  wrapM "reconciling Slurm NodeSet resources" (ExecuteMultiStep CollectErrors (worker_steps nodeSet v cluster gpu)).

(** *** Validation *)
Definition AvailableReplicas (sts : resource) : Z := field_int (o_status sts) ["availableReplicas"].
Definition podsCondition (available expected : Z) : Condition :=
  if (available =? expected)%Z
  then condition ConditionNodeSetPodsReady "True" "NodeSetReady" ("All " +:+ Itoa expected +:+ " worker pods are available")
  else condition ConditionNodeSetPodsReady "False" "NodeSetNotReady"
         (Itoa available +:+ " of " +:+ Itoa expected +:+ " worker pods are available").
Definition validateResources (nodeSet : resource) (v : SlurmNodeSet) : M cluster_state (resource * RequeueAfter) :=
  let! got := attempt (client_Get (AdvancedStatefulSet, v_Namespace v, v_StatefulSetName v)) in
  match got with
  | inr err => if IsNotFound err then ret (nodeSet, Some 10%Z) else fail (ErrWrap "getting StatefulSet" err)
  | inl existing =>
      let available := AvailableReplicas existing in
      let expected := expectedReplicas v in
      let! nodeSet := wrapM "updating .Status" (patchStatus nodeSet (λ status,
        let changesInStatus := negb (field_int status ["replicas"] =? available)%Z in
        let status := if changesInStatus then <[["replicas"] := VInt available]> status else status in
        let '(status, changesInConditions) := SetCondition status (podsCondition available expected) in
        (status, changesInStatus || changesInConditions))) in
      ret (nodeSet, if (available =? expected)%Z then None else Some 10%Z)
  end.

(** *** One reconciliation *)
Definition migrateClusterName (nodeSet : resource) : M cluster_state resource :=
  if negb (String.eqb (field_str (o_body nodeSet) ["spec"; "clusterName"]) "") then ret nodeSet
  else
    match o_annotations nodeSet !! AnnotationParentalClusterRefName with
    | None | Some EmptyString => fail (ErrMsg "spec.clusterName must be set")
    | Some clusterName =>
        let modified := with_annotations (delete AnnotationParentalClusterRefName (o_annotations nodeSet))
                          (with_body (<[["spec"; "clusterName"] := VStr clusterName]> (o_body nodeSet)) nodeSet) in
        wrapM "migrating cluster name from annotation" (client_Patch nodeSet modified)
    end.
Definition maintenanceCondition (maintenance : option string) : Condition :=
  if IsMaintenanceActive maintenance
  then condition ConditionNodeSetStatefulSetTerminated "True" "Maintenance" "Workers are disabled"
  else condition ConditionNodeSetStatefulSetTerminated "False" "WorkersEnabled" "Workers are enabled".
Definition reconcile (nodeSet : resource) : M cluster_state RequeueAfter :=
  let! nodeSet := migrateClusterName nodeSet in
  let! cluster := wrapM "getting parental cluster"
                    (GetCluster (o_namespace nodeSet) (field_str (o_body nodeSet) ["spec"; "clusterName"])) in
  let! nodeSet := setUpConditions nodeSet in
  let v := BuildSlurmNodeSetFrom nodeSet (o_name cluster) (field_optstr (o_body cluster) ["spec"; "maintenance"]) in
  let! nodeSets := wrapM "listing node sets" (ListNodeSetsByClusterRef (o_namespace cluster) (o_name cluster)) in
  let! v := if isEphemeralNodesEnabled v then
              let! activeNodes := wrapM "reconciling NodeSetPowerState" (reconcileNodeSetPowerState nodeSet) in
              ret (with_ActiveNodes activeNodes v)
            else ret v in
  do! executeReconciliation nodeSet v cluster (BuildClusterWithGPUFromNodeSets nodeSets);
  let! nodeSet := patchStatus nodeSet (λ status, SetCondition status (maintenanceCondition (v_Maintenance v))) in
  let! (nodeSet, res) := wrapM "validating Slurm workers" (validateResources nodeSet v) in
  let! nodeSet := updatePhase nodeSet in
  ret res.
(** The last thing a reconciliation does: write the status it finds. *)
Definition refreshStatus (namespace name : string) : M cluster_state () :=
  RetryOnConflict 5
    (let! got := attempt (client_Get (NodeSet, namespace, name)) in
     match got with
     | inr err => if IsNotFound err then ret tt else fail (ErrWrap "getting NodeSet" err)
     | inl inner => let! _ := client_StatusUpdate inner in ret tt
     end).
(** A second reconciliation of the same object is skipped while one runs; [defer] removes the mark, also after a panic. *)
Definition reconcile_sync (nodeSet : resource) : M (gset string * cluster_state) RequeueAfter := λ '(st, w),
  let k := buildKey "slurm.nebius.ai/v1alpha1, Kind=NodeSet" (o_namespace nodeSet) (o_name nodeSet) in
  if state_Present k st then ((st, w), Ok None)
  else let '(w', r) := reconcile nodeSet w in ((state_Remove k (state_Set k st), w'), r).
Definition on_cluster {S A} (m : M cluster_state A) : M (S * cluster_state) A := λ '(st, w),
  let '(w', r) := m w in ((st, w'), r).
Definition NodeSet_Reconcile (namespace name : string) : M (gset string * cluster_state) RequeueAfter :=
  let! got := attempt (on_cluster (client_Get (NodeSet, namespace, name))) in
  match got with
  | inr err => if IsNotFound err then ret None else fail (ErrWrap "getting NodeSet" err)
  | inl nodeSet =>
      if has_field (o_body nodeSet) ["metadata"; "deletionTimestamp"] then ret None
      else
        let! r := attempt (wrapM "reconciling NodeSet" (reconcile_sync nodeSet)) in
        let! s := attempt (on_cluster (refreshStatus namespace name)) in
        match r, s with
        | inl res, inl _ => ret res
        | inr err, inl _ => fail err
        | _, inr statusErr => fail (ErrJoin (ErrWrap "updating NodeSet status" statusErr) statusErr)
        end
  end.
End controller.

(** ** Watches ([indexer.go]) *)
Definition findNodeSetForPowerState (powerState : resource) : list (string * string) :=
  let name := field_str (o_body powerState) ["spec"; "nodeSetRef"] in
  if String.eqb name "" then [] else [(o_namespace powerState, name)].
Definition findObjectsForSlurmCluster (cluster : resource) (listed : outcome (list resource)) : list (string * string) :=
  match listed with
  | Ok nodeSets => (λ n, (o_namespace n, o_name n)) <$> filter (λ n, o_namespace n = o_namespace cluster) nodeSets
  | _ => []
  end.
Definition findObjectsForConfigMap (configMap : resource) (listed : path → outcome (list resource)) : list (string * string) :=
  concat ((λ field, match listed field with
                    | Ok nodeSets =>
                        (λ n, (o_namespace n, o_name n)) <$>
                        filter (λ n, field_str (o_body n) field = o_name configMap ∧ o_namespace n = o_namespace configMap) nodeSets
                    | _ => []
                    end) <$> [["spec"; "configMapRefSupervisord"]; ["spec"; "configMapRefSshd"]]).

(** ** The active nodes belong to the power manager *)
Section active_nodes.
  Context (marshal : gmap string string → string) (unmarshal : string → option (gmap string string)).
  Context `{StatusConditions} (now : Z).
  Context {Args : Type} (podArgs : resource → bool → Args) (renderPod : SlurmNodeSet → Args → outcome (fields * option value)).
  (** Any power state, not only the one of the NodeSet reconciled. *)
  Context (k : key) (Hkind : k.1.1 = NodeSetPowerState).
  Local Abbreviation keeps := (triple k ["spec"; "activeNodes"]).

Definition is_nodeSet (o : resource) : Prop := (o_key o).1.1 = NodeSet.
Lemma keeps_List i ns : keeps (client_List i ns) (λ _, True).
Proof. apply triple_request. intros w g Hh. by split_and!. Qed.
Lemma keeps_other owner d deps :
  (o_key d).1.1 ≠ NodeSetPowerState → keeps (Reconcile marshal unmarshal owner d deps) (λ _, True).
Proof. intros Hd. apply triple_Reconcile. intros Hk. by rewrite Hk in Hd. Qed.
Lemma keeps_patchStatus o f : is_nodeSet o → keeps (patchStatus o f) is_nodeSet.
Proof.
  intros Ho. unfold patchStatus. destruct (f (o_status o)) as [st need]. destruct (negb need); [by apply triple_ret|].
  apply triple_wrapM. eapply triple_weaken; [apply triple_StatusPatch|]. simpl. unfold is_nodeSet. by intros a ->.
Qed.
Lemma keeps_setUp o : is_nodeSet o → keeps (setUpConditions now o) is_nodeSet.
Proof.
  intros Ho. unfold setUpConditions. destruct (foldl _ _ _) as [st need]. destruct (negb need); [by apply triple_ret|].
  apply triple_wrapM. eapply triple_weaken; [apply triple_StatusPatch|]. simpl. unfold is_nodeSet. by intros a ->.
Qed.
Lemma keeps_migrate o : is_nodeSet o → keeps (migrateClusterName o) is_nodeSet.
Proof.
  intros Ho. unfold migrateClusterName. destruct (negb _); [by apply triple_ret|].
  destruct (o_annotations o !! _) as [[|c t]|]; [apply triple_fail| |apply triple_fail].
  apply triple_wrapM. eapply triple_weaken; [apply triple_Patch|].
  - intros Hk. unfold is_nodeSet in Ho. by rewrite Hk, Hkind in Ho.
  - simpl. unfold is_nodeSet. by intros a ->.
Qed.
Lemma keeps_GetCluster ns name : keeps (GetCluster ns name) (λ _, True).
Proof.
  unfold GetCluster. eapply triple_bind; [apply triple_attempt, triple_Get|].
  intros [o|e] _; [by apply triple_ret|apply triple_fail].
Qed.
Lemma keeps_ListNodeSets ns name : keeps (ListNodeSetsByClusterRef ns name) (λ _, True).
Proof.
  unfold ListNodeSetsByClusterRef. eapply triple_bind; [apply triple_wrapM, keeps_List|]. intros l _. by apply triple_ret.
Qed.
Lemma keeps_prefix ns name : keeps (ResolveWorkloadNamePrefix ns name) (λ _, True).
Proof.
  unfold ResolveWorkloadNamePrefix. eapply triple_bind; [apply triple_attempt, triple_Get|].
  intros [o|e] _; [by apply triple_ret|]. destruct (IsNotFound e); [by apply triple_ret|apply triple_fail].
Qed.
Lemma keeps_powerState o : keeps (reconcileNodeSetPowerState marshal unmarshal now o) (λ _, True).
Proof.
  unfold reconcileNodeSetPowerState. eapply triple_bind; [apply triple_attempt, triple_Get|]. intros got _.
  eapply triple_bind with (Q := λ d, ∃ l, d = desiredPowerState o l).
  { destruct got as [x|e]; [apply triple_ret; by eexists|]. destruct (IsNotFound e); [|apply triple_fail].
    eapply triple_bind; [by apply (triple_lift _ _ _ (λ _, True))|]. intros l _. apply triple_ret. by eexists. }
  intros d [l ->]. eapply triple_bind; [apply triple_wrapM, triple_Reconcile|].
  - intros _. split_and!; [done|done|]. unfold covered, patched_paths. simpl.
    intros Hc. apply Exists_cons in Hc as [[x Hx]|Hc]; [discriminate Hx|]. by apply Exists_nil in Hc.
  - intros _ _. eapply triple_bind; [apply triple_wrapM, triple_Get|]. intros e He.
    destruct (powerStateStatus now e) as [st need].
    eapply triple_bind with (Q := λ _, True); [|intros; by apply triple_ret].
    destruct need; [|by apply triple_ret]. apply triple_wrapM. by eapply triple_weaken; [apply triple_StatusPatch|].
Qed.
Lemma keeps_dep i : keeps (get_dep i) (λ _, True).
Proof. unfold get_dep. eapply triple_bind; [apply triple_Get|]. intros o _. by apply triple_ret. Qed.
Lemma keeps_deps v cluster : keeps (getWorkersStatefulSetDependencies v cluster) (λ _, True).
Proof.
  unfold getWorkersStatefulSetDependencies. eapply triple_bind; [apply keeps_dep|]. intros a _.
  eapply triple_bind with (Q := λ _, True); [destruct (default false _); [apply keeps_dep|by apply triple_ret]|]. intros b _.
  do 2 (eapply triple_bind with (Q := λ _, True); [destruct (String.eqb _ _); [by apply triple_ret|apply keeps_dep]|]; intros ? _).
  by apply triple_ret.
Qed.
Lemma keeps_steps o v cluster gpu :
  keeps (executeReconciliation marshal unmarshal podArgs renderPod o v cluster gpu) (λ _, True).
Proof.
  unfold executeReconciliation, ExecuteMultiStep. apply triple_wrapM, triple_wrapM, triple_steps. intros s Hs.
  unfold worker_steps in Hs. elem_cases Hs; subst s; cbn [step_Func].
  - by apply triple_wrapM, keeps_other.
  - unfold step_defaults. eapply triple_bind; [apply triple_wrapM, keeps_prefix|]. intros pre _.
    eapply triple_bind; [apply triple_wrapM; by apply (triple_lift _ _ _ (λ _, True))|]. intros cv _.
    eapply triple_bind with (Q := λ _, True).
    + destruct (v_SupervisorDConfigMapDefault v); [by apply triple_wrapM, keeps_other|by apply triple_ret].
    + intros _ _. destruct (v_SSHDConfigMapDefault v); [by apply triple_wrapM, keeps_other|by apply triple_ret].
  - by apply triple_wrapM, keeps_other.
  - unfold step_role. eapply triple_bind; [apply (triple_lift _ _ _ (λ d, (o_key d).1.1 = Role))|].
    + intros d. unfold RenderRole. destruct (nodeSetOrdinals v); [|done..]. by intros [= <-].
    + intros d Hd. apply triple_wrapM, keeps_other. by rewrite Hd.
  - by apply triple_wrapM, keeps_other.
  - unfold step_sssd. do 2 (destruct (negb _); [by apply triple_ret|]). by apply triple_wrapM, keeps_other.
  - by apply triple_wrapM, keeps_other.
  - by apply triple_wrapM, keeps_other.
  - unfold step_statefulSet. eapply triple_bind; [apply triple_wrapM, (triple_lift _ _ _ (λ d, (o_key d).1.1 = AdvancedStatefulSet))|].
    + intros d. unfold RenderNodeSetStatefulSet. destruct (renderPod v _) as [[pod claims]|?|?]; [|done..]. cbn [obind].
      destruct (renderReplicas v) as [[r R]|?|?]; [|done..]. cbn [obind].
      destruct (renderUpdateStrategies v); [|done..]. cbn [obind wrap_err]. intros Hd%Ok_inj. by subst d.
    + intros d Hd. eapply triple_bind; [apply triple_wrapM, keeps_deps|]. intros deps _.
      apply triple_wrapM, keeps_other. by rewrite Hd.
Qed.
Lemma keeps_validate o v : is_nodeSet o → keeps (validateResources now o v) (λ r, is_nodeSet r.1).
Proof.
  intros Ho. unfold validateResources. eapply triple_bind; [apply triple_attempt, triple_Get|]. intros [e|err] _.
  - eapply triple_bind; [by apply triple_wrapM, keeps_patchStatus|]. intros a Ha. by apply triple_ret.
  - destruct (IsNotFound err); [by apply triple_ret|apply triple_fail].
Qed.
Lemma keeps_reconcile o :
  is_nodeSet o → keeps (reconcile marshal unmarshal now podArgs renderPod o) (λ _, True).
Proof.
  intros Ho. unfold reconcile. eapply triple_bind; [by apply keeps_migrate|]. clear o Ho. intros o Ho.
  eapply triple_bind; [apply triple_wrapM, keeps_GetCluster|]. intros cluster _.
  eapply triple_bind; [by apply keeps_setUp|]. clear o Ho. intros o Ho.
  eapply triple_bind; [apply triple_wrapM, keeps_ListNodeSets|]. intros l _.
  eapply triple_bind with (Q := λ _, True).
  { destruct (isEphemeralNodesEnabled _); [|by apply triple_ret].
    eapply triple_bind; [apply triple_wrapM, keeps_powerState|]. intros. by apply triple_ret. }
  intros v _. eapply triple_bind; [apply keeps_steps|]. intros _ _.
  eapply triple_bind; [by apply keeps_patchStatus|]. clear o Ho. intros o Ho.
  eapply triple_bind; [by apply triple_wrapM, keeps_validate|]. intros [o' res] Ho'. cbn [fst] in Ho'.
  eapply triple_bind with (Q := λ _, True); [|intros; by apply triple_ret].
  unfold updatePhase. destruct (String.eqb _ _); [by apply triple_ret|].
  eapply triple_weaken; [by apply keeps_patchStatus|done].
Qed.
Lemma keeps_on_cluster {S A} (m : M cluster_state A) Q : keeps m Q → keeps (on_cluster (S:=S) m) Q.
Proof.
  intros Hm [st w] g Hh Hc. destruct (Hm w g Hh Hc) as (l & Hs & Hh' & HQ). exists l. unfold on_cluster.
  by destruct (m w) as [w' r].
Qed.
Lemma keeps_sync o :
  is_nodeSet o → keeps (reconcile_sync marshal unmarshal now podArgs renderPod o) (λ _, True).
Proof.
  intros Ho [st w] g Hh Hc. unfold reconcile_sync. destruct (state_Present _ _); [by exists []|].
  destruct (keeps_reconcile o Ho w g Hh Hc) as (l & Hs & Hh' & HQ). exists l. by destruct (reconcile _ _ _ _ _ o w) as [w' r].
Qed.
Lemma keeps_NodeSet_Reconcile ns name :
  keeps (NodeSet_Reconcile marshal unmarshal now podArgs renderPod ns name) (λ _, True).
Proof.
  unfold NodeSet_Reconcile. eapply triple_bind; [apply triple_attempt, keeps_on_cluster, triple_Get|].
  intros [o|err] Ho; [|destruct (IsNotFound err); [by apply triple_ret|apply triple_fail]]. cbn in Ho.
  destruct (has_field _ _); [by apply triple_ret|].
  eapply triple_bind; [apply triple_attempt, triple_wrapM, keeps_sync; unfold is_nodeSet; by rewrite (proj1 Ho)|]. intros r _.
  eapply triple_bind with (Q := λ _, True).
  - eapply triple_weaken; [apply triple_attempt, keeps_on_cluster, triple_RetryOnConflict|done].
    eapply triple_bind; [apply triple_attempt, triple_Get|]. intros [x|err] Hx.
    + eapply triple_bind; [apply triple_StatusUpdate|]. intros. by apply triple_ret.
    + destruct (IsNotFound err); [by apply triple_ret|apply triple_fail].
  - intros s _. destruct r, s; first [by apply triple_ret|apply triple_fail].
Qed.

(** C12: the NodeSet controller never changes the active nodes of an existing power state.  However a reconciliation of
    any NodeSet is interleaved with the writes of the power manager and of other clients, and whichever of its requests
    fail, with or without effect, panics included: if the power state exists and the others neither delete it nor put the operator's
    versions annotation on it, then its list of active nodes afterwards is the one that
    the others' writes alone would have left. *)
Theorem active_nodes_kept (namespace name : string) (st : gset string) (w : cluster_state) (o : resource) :
  filed w → calm k (w_script w) → w_objects w !! k = Some o → o_annotations o !! AnnotationVersions = None →
  let w' := ((NodeSet_Reconcile marshal unmarshal now podArgs renderPod namespace name (st, w)).1).2 in
  ∃ evs, w_script w = evs ++ w_script w' ∧
    (ActiveNodes <$> w_objects w' !! k) = (ActiveNodes <$> others evs (w_objects w) !! k).
Proof.
  intros Hf Hc Ho Hv w'.
  destruct (keeps_NodeSet_Reconcile namespace name (st, w) (w_objects w)) as (evs & Hs & (_ & x & y & Hx & Hy & _ & Hq) & _);
    [split; [done|]; by exists o, o|done|].
  exists evs. split; [done|]. unfold w'. unfold cluster_of, state_cluster in Hx. rewrite Hx, Hy. simpl.
  unfold ActiveNodes, field_ints. by rewrite Hq.
Qed.
End active_nodes.
