(* ===== verification/NodeSetOutcome.v ===== *)
(** * What a NodeSet reconciliation leaves behind

    The whole [reconcile] of the NodeSet controller, followed through its requests when no other client interferes: the
    StatefulSet has the size that the NodeSet asks for, and the NodeSet's status says how far its pods are. *)
From S2P Require Import Prelude GoStrings Kube Naming Effects Reconciler Patchers Ownership ConfigTexts Workers MultiStep.
From S2P Require Import ClusterValues QuietRuns NodeSetCtl.
From Stdlib Require String.

Section outcome.
  Context (marshal : gmap string string → string) (unmarshal : string → option (gmap string string)).
  (** YAML texts of maps are read back as they were written. *)
  Hypothesis yaml_roundtrip : ∀ m, unmarshal (TrimSpace (marshal m)) = Some m.
  Context `{StatusConditions} (now : Z).
  Context {Args : Type} (podArgs : resource → bool → Args) (renderPod : SlurmNodeSet → Args → outcome (fields * option value)).


Lemma render_key v args d : RenderNodeSetStatefulSet renderPod v args = Ok d → o_key d = (AdvancedStatefulSet, v_Namespace v, v_StatefulSetName v).
Proof.
  unfold RenderNodeSetStatefulSet. destruct (renderPod v _) as [[pod claims]|?|?]; [|done..]. cbn [obind].
  destruct (renderReplicas v) as [[r R]|?|?]; [|done..]. cbn [obind].
  destruct (renderUpdateStrategies v); [|done..]. cbn [obind wrap_err]. intros Hd%Ok_inj. by subst d.
Qed.

(** ** The whole reconciliation *)
Lemma statefulSet_name n : BuildNodeSetStatefulSetName n = n.
Proof. unfold BuildNodeSetStatefulSetName, of_cluster, namedEntity_String, when. simpl. by destruct (String.eqb_spec n ""). Qed.
Definition build_key v : key := (AdvancedStatefulSet, v_Namespace v, v_StatefulSetName v).
Lemma built_values n c m l :
  let v := with_ActiveNodes l (BuildSlurmNodeSetFrom n c m) in
  build_key v = (AdvancedStatefulSet, o_namespace n, o_name n) ∧
  v_Annotations v = strings_at (o_body n) ["spec"; "workerAnnotations"] ∧ v_Maintenance v = m.
Proof.
  unfold BuildSlurmNodeSetFrom, build_key. destruct (or_default _ _). destruct (or_default _ _).
  destruct (if has_field _ _ then _ else _). cbn -[BuildNodeSetStatefulSetName]. by rewrite statefulSet_name.
Qed.



  Context (pods : Z → list Z → list Z) `{!KruiseOrdinals pods}.
End outcome.

(** ** An example *)
(** Conditions in a list, as apimachinery keeps them. *)
Definition find_condition_type (cs : list Condition) (type : string) : option Condition :=
  head (filter (λ c, c_Type c = type) cs).
Definition set_condition_type (t : Z) (cs : list Condition) (c : Condition) : list Condition * bool :=
  let timed := Cond (c_Type c) (c_Status c) (c_ObservedGeneration c) t (c_Reason c) (c_Message c) in
  match find_condition_type cs (c_Type c) with
  | None => (cs ++ [timed], true)
  | Some e =>
      let kept := if String.eqb (c_Status e) (c_Status c) then c_LastTransitionTime e else t in
      let c' := Cond (c_Type c) (c_Status c) (c_ObservedGeneration c) kept (c_Reason c) (c_Message c) in
      if decide (c' = e) then (cs, false)
      else ((λ d, if String.eqb (c_Type d) (c_Type c) then c' else d) <$> cs, true)
  end.
Lemma find_cons c cs type :
  find_condition_type (c :: cs) type = if String.eqb (c_Type c) type then Some c else find_condition_type cs type.
Proof. unfold find_condition_type. rewrite filter_cons. destruct (String.eqb_spec (c_Type c) type); by case_decide. Qed.
Lemma find_snoc cs c type :
  find_condition_type (cs ++ [c]) type =
  match find_condition_type cs type with Some d => Some d | None => if String.eqb (c_Type c) type then Some c else None end.
Proof.
  induction cs as [|d cs IH]; [apply find_cons|]. simpl. rewrite !find_cons, IH. by destruct (String.eqb (c_Type d) type).
Qed.
Lemma find_replace cs c' type :
  find_condition_type ((λ d, if String.eqb (c_Type d) (c_Type c') then c' else d) <$> cs) type =
  if String.eqb (c_Type c') type then (λ _, c') <$> find_condition_type cs type else find_condition_type cs type.
Proof.
  induction cs as [|d cs IH]; [by destruct (String.eqb _ _)|]. rewrite fmap_cons, !find_cons, IH. cbn beta.
  destruct (String.eqb_spec (c_Type d) (c_Type c')) as [Hd|Hd], (String.eqb_spec (c_Type c') type) as [Hc|Hc],
    (String.eqb_spec (c_Type d) type) as [Ht|Ht]; simpl; congruence.
Qed.
Global Instance example_conditions : StatusConditions.
Proof.
  refine {| FindStatusCondition := find_condition_type; SetStatusCondition := set_condition_type |}.
  - intros t cs c. unfold set_condition_type. destruct (find_condition_type cs (c_Type c)) as [e|] eqn:He.
    + cbv zeta. set (c' := Cond (c_Type c) (c_Status c) (c_ObservedGeneration c)
        (if String.eqb (c_Status e) (c_Status c) then c_LastTransitionTime e else t) (c_Reason c) (c_Message c)). destruct (decide (c' = e)) as [Heq|Hne]; cbn [fst].
      * rewrite He. exists e. rewrite <-Heq. done.
      * pose proof (find_replace cs c' (c_Type c)) as Hr. change (c_Type c') with (c_Type c) in Hr.
        rewrite Hr, String.eqb_refl, He. exists c'. done.
    + simpl. rewrite find_snoc, He. simpl. rewrite String.eqb_refl. by eexists.
  - intros t cs c type Ht. unfold set_condition_type. destruct (find_condition_type cs (c_Type c)) as [e|] eqn:He.
    + cbv zeta. set (c' := Cond (c_Type c) (c_Status c) (c_ObservedGeneration c)
        (if String.eqb (c_Status e) (c_Status c) then c_LastTransitionTime e else t) (c_Reason c) (c_Message c)). destruct (decide (c' = e)) as [Heq|Hne]; cbn [fst]; [done|].
      pose proof (find_replace cs c' type) as Hr. change (c_Type c') with (c_Type c) in Hr.
      rewrite Hr. by rewrite (proj2 (String.eqb_neq _ _)).
    + simpl. rewrite find_snoc. simpl. rewrite (proj2 (String.eqb_neq _ _)) by done. by destruct (find_condition_type cs type).
  - intros t cs c. unfold set_condition_type. destruct (find_condition_type cs (c_Type c)); [|done]. by destruct (decide _).
  - done.
Defined.

Definition ex_nodeSet : resource :=
  Obj (NodeSet, "ns", "gpu") 3 None ∅ ∅ ∅
    (list_to_map [(["metadata"; "uid"], VStr "uid-gpu"); (["spec"; "clusterName"], VStr "c"); (["spec"; "replicas"], VInt 16);
                  (["spec"; "ephemeralNodes"], VBool true); (["spec"; "initialNumberEphemeralNodes"], VInt 1)]) ∅.
Definition ex_cluster : resource := example_cluster.
Definition ex_powerState : resource :=
  Obj (NodeSetPowerState, "ns", "gpu") 4 (Some "uid-gpu") ∅ ∅ ∅
    (list_to_map [(["spec"; "nodeSetRef"], VStr "gpu"); (["spec"; "activeNodes"], VInts [0; 3]%Z)]) ∅.
Definition ex_world (script : list api_event) : cluster_state :=
  World 10 (list_to_map ((λ o, (o_key o, o)) <$>
    [ex_nodeSet; ex_cluster; ex_powerState; Obj (Secret, "ns", "c-munge") 2 None ∅ ∅ ∅ ∅ ∅])) script.
Lemma ex_filed script : filed (ex_world script).
Proof.
  intros i o Ho. assert (map_Forall (λ i o, o_key o = i) (w_objects (ex_world script))) as Hall.
  { apply (bool_decide_unpack _). vm_compute. exact I. }
  by apply (Hall i o).
Qed.

(** The power manager adds ordinal 5 while the NodeSet is reconciled. *)
Definition ex_powered : resource :=
  with_body (<[["spec"; "activeNodes"] := VInts [0; 3; 5]%Z]> (o_body ex_powerState)) ex_powerState.
Definition ex_script : list api_event :=
  [Event [] None; Event [] None; Event [] None; Event [] None; Event [] None;
   Event [((NodeSetPowerState, "ns", "gpu"), Some ex_powered)] None; Event [] None; Event [] (Some (Lost (ErrMsg "timeout")))].
Lemma active_nodes_kept_witness :
  let r := NodeSet_Reconcile example_marshal example_unmarshal 100
             (λ _ _, ()) example_pod "ns" "gpu" (∅, ex_world ex_script) in
  ∃ evs, ex_script = evs ++ w_script r.1.2 ∧
    (ActiveNodes <$> w_objects r.1.2 !! (NodeSetPowerState, "ns", "gpu")) =
    (ActiveNodes <$> others evs (w_objects (ex_world [])) !! (NodeSetPowerState, "ns", "gpu")).
Proof.
  intros r. apply (active_nodes_kept example_marshal example_unmarshal 100
    (λ _ _, ()) example_pod (NodeSetPowerState, "ns", "gpu") eq_refl "ns" "gpu" ∅ (ex_world ex_script) ex_powerState).
  - apply ex_filed.
  - intros ev x Hev Hx. unfold ex_script in Hev. elem_cases Hev; subst ev; cbn in Hx; elem_cases Hx. subst x.
    split; [by intros o [= <-]|]. intros _. by eexists.
  - reflexivity.
  - reflexivity.
Defined.
Example powered_kept :
  (ActiveNodes <$> w_objects (NodeSet_Reconcile example_marshal example_unmarshal 100
      (λ _ _, ()) example_pod "ns" "gpu" (∅, ex_world ex_script)).1.2
     !! (NodeSetPowerState, "ns", "gpu")) = Some [0; 3; 5]%Z.
Proof. vm_compute. reflexivity. Qed.

(** ** A NodeSet called controller

    The StatefulSet of a NodeSet has the NodeSet's name and the cluster's instance label.  So the one of a NodeSet called
    controller passes for the controller's StatefulSet of a cluster that predates prefixed names, and
    from then on the prefix of the cluster's workloads is empty. *)
Theorem nodeSet_named_controller {Args} (renderPod : SlurmNodeSet → Args → outcome (fields * option value))
    (n : resource) (cluster : string) (maintenance : option string) (active : list Z) (args : Args) (sts : resource) (w : cluster_state) :
  o_name n = "controller" →
  RenderNodeSetStatefulSet renderPod (with_ActiveNodes active (BuildSlurmNodeSetFrom n cluster maintenance)) args = Ok sts →
  quiet w → w_objects w !! o_key sts = Some sts → ResolveWorkloadNamePrefix (o_namespace n) cluster w = (w, Ok "").
Proof.
  intros Hname Hs Hq Hw. destruct (built_values n cluster maintenance active) as (Hk & _ & _).
  set (v := with_ActiveNodes _ _) in *. rewrite (render_key renderPod _ _ _ Hs) in Hw. unfold build_key in Hk. rewrite Hk, Hname in Hw.
  assert (hasClusterLabel sts cluster = true) as Hl.
  { assert (v_ClusterName v = cluster) as Hc.
    { unfold v, BuildSlurmNodeSetFrom. destruct (or_default _ _), (or_default _ _), (if has_field _ _ then _ else _). done. }
    assert (o_labels sts = podLabels v) as Hlab.
    { revert Hs. unfold RenderNodeSetStatefulSet. destruct (renderPod v _) as [[pod claims]|?|?]; [|done..]. cbn [obind].
      destruct (renderReplicas v) as [[r R]|?|?]; [|done..]. cbn [obind].
      destruct (renderUpdateStrategies v); [|done..]. cbn [obind wrap_err]. intros Hd%Ok_inj. by subst sts. }
    unfold hasClusterLabel. rewrite Hlab. unfold podLabels, RenderLabels. rewrite Hc.
    do 4 rewrite lookup_insert_ne by done. rewrite lookup_insert_eq. apply String.eqb_refl. }
  unfold ResolveWorkloadNamePrefix, bind, attempt. rewrite Get_quiet by done. cbn [ComponentType_String]. rewrite Hw. by rewrite Hl.
Qed.
