(* ===== verification/Pattern.v ===== *)
(** * Slurm host patterns: merging names into a host list

    [internal/utils/slurm/pattern] ([merge.go], [helpers.go]): names that share a
    prefix and end in a number are merged into bracket expressions such as
    [worker-[0-5,7]], which topology.conf uses for switches and blocks.

    A Go map that is only ranged over and then sorted is a [gmap] or [gset]; the
    order in which [map_to_list] and [elements] list it does not matter, as
    [Merge_proper] shows: the result depends on the set of names alone. *)
From S2P Require Import Prelude GoStrings.
From Stdlib Require Import Ascii.
From Stdlib Require String.

(** ** helpers.go *)
Record numericSuffix := NumericSuffix { ns_number : Z; ns_width : nat }.
Record suffixGroup := SuffixGroup { sg_width : nat; sg_numbers : list Z }.

Definition formatPatternNumber (number : Z) (width : nat) : string := PadInt width number.

(** One element of the bracket: a number or a range. *)
Definition renderRange (width : nat) (start end_ : Z) : string :=
  if (start =? end_)%Z then formatPatternNumber start width
  else formatPatternNumber start width +:+ "-" +:+ formatPatternNumber end_ width.
(** The loop of [renderSuffixGroup]: [start..end_] is the run being extended. *)
Fixpoint renderRanges (width : nat) (start end_ : Z) (rest : list Z) : list string :=
  match rest with
  | [] => [renderRange width start end_]
  | n :: rest =>
      if (n =? end_ + 1)%Z then renderRanges width start n rest
      else renderRange width start end_ :: renderRanges width n n rest
  end.
Definition renderSuffixGroup (prefix : string) (group : suffixGroup) : string :=
  match sg_numbers group with
  | [n] => prefix +:+ formatPatternNumber n (sg_width group)
  | [] => prefix +:+ "[" +:+ Join [] "," +:+ "]"
  | n :: rest => prefix +:+ "[" +:+ Join (renderRanges (sg_width group) n n rest) "," +:+ "]"
  end.

(** [hasLeadingZero] and [isDigits] are those of [GoStrings]. *)
Definition dashedPrefix (s : string) : option string :=
  match LastIndex s "-" with
  | None => None
  | Some i =>
      if (i =? String.length s - 1)%nat then None
      else let suffix := str_drop (i + 1) s in
           if isDigits suffix then Some (str_take (i + 1) s) else None
  end.

(** ** MergePrefixed *)

(** First loop: collect numeric suffixes, pass the rest through. *)
Record suffixScan := SuffixScan {
  ss_numeric : list numericSuffix;
  ss_passthrough : gset string;
  ss_padded : bool
}.
Definition scanEntity (prefix : string) (st : suffixScan) (entity : string) : suffixScan :=
  let pass := SuffixScan (ss_numeric st) ({[entity]} ∪ ss_passthrough st) (ss_padded st) in
  if negb (HasPrefix entity prefix) then pass
  else
    let suffix := TrimPrefix entity prefix in
    if String.eqb suffix "" || negb (isDigits suffix) then pass
    else match Atoi suffix with
         | None => pass
         | Some number =>
             SuffixScan (ss_numeric st ++ [NumericSuffix number (String.length suffix)])
               (ss_passthrough st) (ss_padded st || hasLeadingZero suffix)
         end.
Definition scanEntities (prefix : string) (entities : list string) : suffixScan :=
  foldl (scanEntity prefix) (SuffixScan [] ∅ false) entities.

(** Second loop: the distinct (number, width) keys, grouped by width. *)
Record widthScan := WidthScan {
  ws_seen : gset (Z * nat);
  ws_byWidth : gmap nat (list Z)
}.
Definition groupSuffix (padded : bool) (st : widthScan) (suffix : numericSuffix) : widthScan :=
  let width := if padded then ns_width suffix else 0%nat in
  let key := (ns_number suffix, width) in
  if bool_decide (key ∈ ws_seen st) then st
  else WidthScan ({[key]} ∪ ws_seen st)
         (<[width := default [] (ws_byWidth st !! width) ++ [ns_number suffix]]> (ws_byWidth st)).
Definition groupSuffixes (padded : bool) (sfx : list numericSuffix) : widthScan :=
  foldl (groupSuffix padded) (WidthScan ∅ ∅) sfx.

(** The order of [slices.SortFunc]: first number, then width. *)
Definition first_number (g : suffixGroup) : Z := default 0%Z (head (sg_numbers g)).
Definition group_le (a b : suffixGroup) : Prop :=
  (first_number a < first_number b)%Z ∨
  (first_number a = first_number b ∧ (sg_width a ≤ sg_width b)%nat).
Global Instance group_le_dec : RelDecision group_le.
Proof. intros a b. unfold group_le. apply _. Defined.

Definition suffixGroups (byWidth : gmap nat (list Z)) : list suffixGroup :=
  merge_sort group_le
    ((λ '(width, numbers), SuffixGroup width numbers) <$>
       map_to_list (merge_sort Z.le <$> byWidth)).

Definition mergePrefixedParts (entities : list string) (prefix : string) : list string :=
  let scan := scanEntities prefix entities in
  let byWidth := ws_byWidth (groupSuffixes (ss_padded scan) (ss_numeric scan)) in
  (renderSuffixGroup prefix <$> suffixGroups byWidth)
    ++ merge_sort String.le (elements (ss_passthrough scan)).
Definition MergePrefixed (entities : list string) (prefix : string) : string :=
  match entities with
  | [] => ""
  | _ => Join (mergePrefixedParts entities prefix) ","
  end.

(** ** Merge *)
Record prefixScan := PrefixScan {
  ps_byPrefix : gmap string (list string);
  ps_prefixes : list string;
  ps_passthrough : gset string
}.
Definition scanPrefix (st : prefixScan) (entity : string) : prefixScan :=
  match dashedPrefix entity with
  | None => PrefixScan (ps_byPrefix st) (ps_prefixes st) ({[entity]} ∪ ps_passthrough st)
  | Some prefix =>
      PrefixScan
        (<[prefix := default [] (ps_byPrefix st !! prefix) ++ [entity]]> (ps_byPrefix st))
        (match ps_byPrefix st !! prefix with
         | None => ps_prefixes st ++ [prefix]
         | Some _ => ps_prefixes st
         end)
        (ps_passthrough st)
  end.
Definition scanPrefixes (entities : list string) : prefixScan :=
  foldl scanPrefix (PrefixScan ∅ [] ∅) entities.
Definition Merge (entities : list string) : string :=
  match entities with
  | [] => ""
  | _ =>
      let st := scanPrefixes entities in
      Join (((λ prefix, MergePrefixed (default [] (ps_byPrefix st !! prefix)) prefix) <$>
               merge_sort String.le (ps_prefixes st))
              ++ merge_sort String.le (elements (ps_passthrough st))) ","
  end.

Example Merge_ex :
  Merge ["worker-cpu-4"; "worker-cpu-1"; "worker-cpu-0"; "workerkek1"; "worker-2";
         "worker-1"; "worker-0"; "worker-rack1-1"; "worker-rack1-0"]
  = "worker-[0-2],worker-cpu-[0-1,4],worker-rack1-[0-1],workerkek1".
Proof. vm_compute. reflexivity. Qed.
Example MergePrefixed_ex1 :
  MergePrefixed ["dev12"; "dev2"; "dev1"; "dev8"; "dev0"; "dev7"; "dev4"; "dev3"; "dev5"] "dev"
  = "dev[0-5,7-8,12]".
Proof. vm_compute. reflexivity. Qed.
Example MergePrefixed_ex2 : MergePrefixed ["gpu100"; "gpu099"; "gpu101"] "gpu" = "gpu[099-101]".
Proof. vm_compute. reflexivity. Qed.
Example MergePrefixed_ex3 : MergePrefixed ["dev1"; "dev002"; "dev003"] "dev" = "dev1,dev[002-003]".
Proof. vm_compute. reflexivity. Qed.
Example MergePrefixed_ex4 : MergePrefixed ["dev0"; "other2"; "devx"; "dev2"] "dev" = "dev[0,2],devx,other2".
Proof. vm_compute. reflexivity. Qed.

(** ** What the scans compute *)

(** The numeric suffix [MergePrefixed] sees in a name, if any. *)
Definition numericOf (prefix entity : string) : option numericSuffix :=
  if negb (HasPrefix entity prefix) then None
  else
    let suffix := TrimPrefix entity prefix in
    if String.eqb suffix "" || negb (isDigits suffix) then None
    else number ← Atoi suffix; Some (NumericSuffix number (String.length suffix)).
Definition paddedIn (prefix entity : string) : Prop :=
  is_Some (numericOf prefix entity) ∧ hasLeadingZero (TrimPrefix entity prefix) = true.

Lemma scanEntity_eq prefix st e :
  scanEntity prefix st e =
  match numericOf prefix e with
  | None => SuffixScan (ss_numeric st) ({[e]} ∪ ss_passthrough st) (ss_padded st)
  | Some s => SuffixScan (ss_numeric st ++ [s]) (ss_passthrough st)
                (ss_padded st || hasLeadingZero (TrimPrefix e prefix))
  end.
Proof. unfold scanEntity, numericOf. repeat (case_match; simplify_eq/=; try done). Qed.

Lemma scanEntities_spec prefix es :
  let scan := scanEntities prefix es in
  (∀ s, s ∈ ss_numeric scan ↔ ∃ e, e ∈ es ∧ numericOf prefix e = Some s) ∧
  (∀ e, e ∈ ss_passthrough scan ↔ e ∈ es ∧ numericOf prefix e = None) ∧
  (ss_padded scan = true ↔ ∃ e, e ∈ es ∧ paddedIn prefix e).
Proof.
  induction es as [|x es IH] using rev_ind; simpl.
  { split_and!; [| |split; [done|]]; set_solver. }
  unfold scanEntities in *. rewrite foldl_app. simpl.
  remember (foldl (scanEntity prefix) _ es) as st. destruct IH as (IH1 & IH2 & IH3).
  rewrite scanEntity_eq. unfold paddedIn in *.
  destruct (numericOf prefix x) as [s|] eqn:E; simpl.
  - split_and!.
    + intros s'. rewrite elem_of_app, IH1, list_elem_of_singleton. setoid_rewrite elem_of_app.
      setoid_rewrite list_elem_of_singleton. naive_solver.
    + intros e. rewrite IH2, elem_of_app, list_elem_of_singleton. naive_solver.
    + rewrite orb_true_iff, IH3. setoid_rewrite elem_of_app. setoid_rewrite list_elem_of_singleton.
      naive_solver.
  - split_and!.
    + intros s'. rewrite IH1. setoid_rewrite elem_of_app. setoid_rewrite list_elem_of_singleton.
      naive_solver.
    + intros e. rewrite elem_of_union, elem_of_singleton, IH2, elem_of_app, list_elem_of_singleton.
      naive_solver.
    + rewrite IH3. setoid_rewrite elem_of_app. setoid_rewrite list_elem_of_singleton.
      split; [naive_solver|]. intros (e & [He| ->] & [[? Hs] ?]); [naive_solver|congruence].
Qed.

Definition suffixKey (padded : bool) (s : numericSuffix) : Z * nat :=
  (ns_number s, if padded then ns_width s else 0%nat).

Lemma groupSuffixes_spec padded sfx :
  let st := groupSuffixes padded sfx in
  (∀ k, k ∈ ws_seen st ↔ ∃ s, s ∈ sfx ∧ suffixKey padded s = k) ∧
  (∀ w l, ws_byWidth st !! w = Some l → l ≠ [] ∧ NoDup l) ∧
  (∀ w n, n ∈ default [] (ws_byWidth st !! w) ↔ (n, w) ∈ ws_seen st).
Proof.
  induction sfx as [|x sfx IH] using rev_ind; simpl.
  { split_and!; [set_solver|by intros; simplify_map_eq|].
    intros w n. rewrite lookup_empty. simpl. set_solver. }
  unfold groupSuffixes in *. rewrite foldl_app. simpl.
  remember (foldl (groupSuffix padded) _ sfx) as st. destruct IH as (IH1 & IH2 & IH3).
  unfold groupSuffix. fold (suffixKey padded x).
  set (w0 := if padded then ns_width x else 0%nat).
  case_bool_decide as Hseen; simpl.
  { split_and!; [|done|done]. intros k. rewrite IH1. setoid_rewrite elem_of_app.
    setoid_rewrite list_elem_of_singleton. split; [naive_solver|].
    intros (s & [Hs| ->] & <-); [eauto|]. by apply IH1. }
  split_and!.
  - intros k. rewrite elem_of_union, elem_of_singleton, IH1. setoid_rewrite elem_of_app.
    setoid_rewrite list_elem_of_singleton. unfold suffixKey in *. naive_solver.
  - intros w l. rewrite lookup_insert. case_decide as Hw; [|apply IH2]. subst w.
    intros [= <-]. split; [by destruct (default _ _)|].
    apply NoDup_app. split_and!.
    + destruct (ws_byWidth st !! w0) eqn:E; [by eapply IH2|constructor].
    + intros n Hn%IH3 ->%list_elem_of_singleton. by apply Hseen.
    + apply NoDup_singleton.
  - intros w n. rewrite lookup_insert, elem_of_union, elem_of_singleton.
    case_decide as Hw; simpl.
    + subst w. rewrite elem_of_app, IH3, list_elem_of_singleton. unfold suffixKey. naive_solver.
    + rewrite IH3. unfold suffixKey. naive_solver.
Qed.

Lemma scanPrefixes_spec es :
  let st := scanPrefixes es in
  (∀ p, default [] (ps_byPrefix st !! p) = filter (λ e, dashedPrefix e = Some p) es) ∧
  (∀ p, p ∈ ps_prefixes st ↔ is_Some (ps_byPrefix st !! p)) ∧
  (∀ p, ps_byPrefix st !! p ≠ Some []) ∧
  NoDup (ps_prefixes st) ∧
  (∀ e, e ∈ ps_passthrough st ↔ e ∈ es ∧ dashedPrefix e = None).
Proof.
  induction es as [|x es IH] using rev_ind; simpl.
  { split_and!; [by intros; rewrite lookup_empty| |by intros; rewrite lookup_empty|constructor|set_solver].
    intros p. rewrite lookup_empty. split; [by intros ?%not_elem_of_nil|by intros [??]]. }
  unfold scanPrefixes in *. rewrite foldl_app. simpl.
  remember (foldl scanPrefix _ es) as st. destruct IH as (IH1 & IH2 & IH3 & IH4 & IH5).
  unfold scanPrefix. destruct (dashedPrefix x) as [p0|] eqn:E; simpl.
  - split_and!.
    + intros p. rewrite filter_app, <-IH1, filter_cons, filter_nil, lookup_insert.
      case_decide; case_decide; simpl; try congruence. by rewrite app_nil_r.
    + intros p. rewrite lookup_insert.
      destruct (ps_byPrefix st !! p0) as [l0|] eqn:E0; case_decide; subst; rewrite ?elem_of_app, ?IH2.
      * rewrite E0. by split; eauto.
      * done.
      * rewrite list_elem_of_singleton. split; eauto.
      * rewrite list_elem_of_singleton. split; [intros [?| ->]; done|by left].
    + intros p. rewrite lookup_insert. case_decide; [|by apply IH3].
      intros [= Hnil]. by destruct (default _ _).
    + destruct (ps_byPrefix st !! p0) as [l0|] eqn:E0; [done|].
      apply NoDup_app. split_and!; [done| |apply NoDup_singleton].
      intros p Hp%IH2 ->%list_elem_of_singleton. rewrite E0 in Hp. by destruct Hp.
    + intros e. rewrite IH5, elem_of_app, list_elem_of_singleton. naive_solver.
  - split_and!; try done.
    + intros p. rewrite filter_app, <-IH1, filter_cons, filter_nil.
      case_decide; [congruence|]. by rewrite app_nil_r.
    + intros e. rewrite elem_of_union, elem_of_singleton, IH5, elem_of_app, list_elem_of_singleton.
      naive_solver.
Qed.

(** ** Order and duplicates do not matter *)
Lemma byWidth_same padded sfx1 sfx2 :
  same_elements sfx1 sfx2 →
  merge_sort Z.le <$> ws_byWidth (groupSuffixes padded sfx1) =
  merge_sort Z.le <$> ws_byWidth (groupSuffixes padded sfx2).
Proof.
  intros Hs.
  destruct (groupSuffixes_spec padded sfx1) as (A1 & A2 & A3).
  destruct (groupSuffixes_spec padded sfx2) as (B1 & B2 & B3).
  set (m1 := ws_byWidth _) in *. set (m2 := ws_byWidth (groupSuffixes padded sfx2)) in *.
  assert (∀ w n, n ∈ default [] (m1 !! w) ↔ n ∈ default [] (m2 !! w)) as Hm.
  { intros w n. rewrite A3, B3, A1, B1. by setoid_rewrite Hs. }
  apply map_eq. intros w. rewrite !lookup_fmap. specialize (Hm w).
  destruct (m1 !! w) as [l1|] eqn:E1, (m2 !! w) as [l2|] eqn:E2; simpl in *; [| | |done].
  - f_equal. apply (sort_same_elements Z.le); [by eapply A2|by eapply B2|done].
  - apply A2 in E1 as [? _]. symmetry in Hm. by apply same_elements_nil in Hm.
  - apply B2 in E2 as [? _]. by apply same_elements_nil in Hm.
Qed.

Global Instance MergePrefixed_proper : Proper (same_elements ==> (=) ==> (=)) MergePrefixed.
Proof.
  intros es1 es2 Hs prefix _ <-. assert (mergePrefixedParts es1 prefix = mergePrefixedParts es2 prefix) as Hp.
  { unfold mergePrefixedParts.
    destruct (scanEntities_spec prefix es1) as (A1 & A2 & A3).
    destruct (scanEntities_spec prefix es2) as (B1 & B2 & B3).
    assert (ss_padded (scanEntities prefix es1) = ss_padded (scanEntities prefix es2)) as Hpad.
    { apply eq_true_iff_eq. rewrite A3, B3. by setoid_rewrite Hs. }
    assert (ss_passthrough (scanEntities prefix es1) = ss_passthrough (scanEntities prefix es2))
      as ->. { apply set_eq. intros e. by rewrite A2, B2, Hs. }
    f_equal. f_equal. unfold suffixGroups. rewrite Hpad.
    rewrite (byWidth_same _ _ (ss_numeric (scanEntities prefix es2))); [done|].
    intros s. rewrite A1, B1. by setoid_rewrite Hs. }
  unfold MergePrefixed. rewrite Hp.
  destruct es1, es2; try done.
  all: first [by apply same_elements_nil in Hs | symmetry in Hs; by apply same_elements_nil in Hs].
Qed.

Global Instance Merge_proper : Proper (same_elements ==> (=)) Merge.
Proof.
  intros es1 es2 Hs. unfold Merge.
  destruct (scanPrefixes_spec es1) as (A1 & A2 & A3 & A4 & A5).
  destruct (scanPrefixes_spec es2) as (B1 & B2 & B3 & B4 & B5).
  set (st1 := scanPrefixes es1) in *. set (st2 := scanPrefixes es2) in *.
  assert (∀ p, is_Some (ps_byPrefix st1 !! p) ↔ is_Some (ps_byPrefix st2 !! p)) as Hdom.
  { intros p.
    assert (∀ m : gmap string (list string), m !! p ≠ Some [] →
      is_Some (m !! p) ↔ default [] (m !! p) ≠ []) as Hdef.
    { intros m Hm. destruct (m !! p) as [[]|]; simpl; [done|by split; eauto|].
      split; [by intros [??]|done]. }
    rewrite !Hdef, A1, B1 by auto.
    assert (same_elements (filter (λ e, dashedPrefix e = Some p) es1)
              (filter (λ e, dashedPrefix e = Some p) es2)) as Hf by by apply same_elements_filter.
    split; intros Hne Heq; rewrite Heq in Hf.
    - symmetry in Hf. by apply same_elements_nil in Hf.
    - by apply same_elements_nil in Hf. }
  assert (merge_sort String.le (ps_prefixes st1) = merge_sort String.le (ps_prefixes st2)) as Hpre.
  { apply (sort_same_elements String.le); [done|done|]. intros p. by rewrite A2, B2, Hdom. }
  assert (ps_passthrough st1 = ps_passthrough st2) as Hpass.
  { apply set_eq. intros e. by rewrite A5, B5, Hs. }
  assert (((λ prefix, MergePrefixed (default [] (ps_byPrefix st1 !! prefix)) prefix) <$>
             merge_sort String.le (ps_prefixes st1)) =
          ((λ prefix, MergePrefixed (default [] (ps_byPrefix st2 !! prefix)) prefix) <$>
             merge_sort String.le (ps_prefixes st2))) as Hmp.
  { rewrite Hpre. apply list_fmap_ext. intros _ p _. rewrite A1, B1.
    apply MergePrefixed_proper; [|done]. by apply same_elements_filter. }
  rewrite Hmp, Hpass.
  destruct es1, es2; try done.
  all: first [by apply same_elements_nil in Hs | symmetry in Hs; by apply same_elements_nil in Hs].
Qed.

(** [pattern.Merge] depends only on the set of names: the order of the input
    (in particular the iteration order of the Go maps the callers collect names
    from) and repeated names do not change the text. *)
Theorem Merge_set (es1 es2 : list string) :
  (∀ e, e ∈ es1 ↔ e ∈ es2) → Merge es1 = Merge es2.
Proof. intros Hs. by apply Merge_proper. Qed.
Lemma Merge_set_witness :
  Merge ["a-2"; "a-1"; "a-2"; "b"] = Merge ["b"; "a-1"; "a-2"].
Proof. apply (Merge_set ["a-2"; "a-1"; "a-2"; "b"] ["b"; "a-1"; "a-2"]). set_solver. Defined.
