(* ===== verification/HostList.v ===== *)
(** * Expanding Slurm host lists

    The host-list parser of [internal/slurmapi/job.go] ([parseNodeList],
    [splitNodeString], [expandNodeRange]) that [Job.GetNodeList] and its
    siblings use. *)
From S2P Require Import Prelude GoStrings.
From Stdlib Require Import Ascii.
From Stdlib Require String.

(** The loop of [splitNodeString] over the characters, with the text read so far
    and the bracket depth; the result is what is appended from here on. *)
Definition flush (current : string) : list string :=
  let trimmed := TrimSpace current in
  if String.eqb trimmed "" then [] else [trimmed].
Fixpoint splitLoop (s : string) (depth : Z) (current : string) : list string :=
  match s with
  | EmptyString => flush current
  | String c s =>
      let more := current +:+ String c "" in
      if Ascii.eqb c "[" then splitLoop s (depth + 1) more
      else if Ascii.eqb c "]" then splitLoop s (depth - 1) more
      else if Ascii.eqb c "," then
        if (depth =? 0)%Z then flush current ++ splitLoop s depth ""
        else splitLoop s depth more
      else splitLoop s depth more
  end.
Definition splitNodeString (nodeString : string) : list string := splitLoop nodeString 0 "".

(** The expression [^(.+)\[(.+)]$] on a whole string.  The dot excludes the newline;
    the first group is greedy, so the bracket is the last one that leaves a
    non-empty second group. *)
Definition nodeRangeRegex (s : string) : option (string * string) :=
  let n := String.length s in
  if negb (String.eqb (str_drop (n - 1) s) "]") then None
  else if negb (no_char "010" s) then None
  else match LastIndex (str_take (n - 2) s) "[" with
       | None => None
       | Some i =>
           if (i =? 0)%nat then None
           else Some (str_take i s, str_drop (i + 1) (str_take (n - 1) s))
       end.

(** [for i := start; i <= end; i++]: with [end] the largest [int] the counter
    wraps around and the loop never ends. *)
Definition countUp (start end_ : Z) : outcome (list Z) :=
  if (end_ =? max_int 64)%Z then Halt "loop counter wraps around"
  else Ok (seqZ start (end_ - start + 1)).

(** One element of the range specification. *)
Definition expandPart (prefix part : string) : outcome (list string) :=
  let part := TrimSpace part in
  if Contains part "-" then
    match Split part "-" with
    | [a; b] =>
        match Atoi a, Atoi b with
        | None, _ => Err (ErrMsg "invalid start number in node pattern")
        | Some _, None => Err (ErrMsg "invalid end number in node pattern")
        | Some start, Some end_ =>
            if (end_ <? start)%Z then Err (ErrMsg "invalid range in node pattern: start > end")
            else let? nums := countUp start end_ in
                 Ok ((λ i, prefix +:+ PadInt (String.length a) i) <$> nums)
        end
    | _ => Err (ErrMsg "invalid range format in node pattern")
    end
  else
    match Atoi part with
    | None => Err (ErrMsg "invalid number in node pattern")
    | Some num => Ok [prefix +:+ PadInt (String.length part) num]
    end.
(** A loop [for _, x := range xs] that appends to a slice and stops at an error. *)
Fixpoint collect {A B} (f : A → outcome (list B)) (xs : list A) : outcome (list B) :=
  match xs with
  | [] => Ok []
  | x :: xs => let? ys := f x in let? zs := collect f xs in Ok (ys ++ zs)
  end.
Definition expandNodeRange (nodePattern : string) : outcome (list string) :=
  match nodeRangeRegex nodePattern with
  | None => Ok []
  | Some (prefix, rangeSpec) => collect (expandPart prefix) (Split rangeSpec ",")
  end.
(** The loop body of [parseNodeList]. *)
Definition parsePart (part : string) : outcome (list string) :=
  let? expanded := expandNodeRange part in
  match expanded with
  | [] => Ok [part]
  | _ => Ok expanded
  end.
Definition parseNodeList (nodeString : string) : outcome (list string) :=
  if String.eqb nodeString "" then Ok []
  else collect parsePart (splitNodeString nodeString).

Example parse_ex :
  parseNodeList "worker-[0-2,7], gpu-x,n[08-10]" =
  Ok ["worker-0"; "worker-1"; "worker-2"; "worker-7"; "gpu-x"; "n08"; "n09"; "n10"].
Proof. vm_compute. reflexivity. Qed.
Example parse_ex2 : parseNodeList "a[3-1]" = Err (ErrMsg "invalid range in node pattern: start > end").
Proof. vm_compute. reflexivity. Qed.
Example parse_ex3 : nodeRangeRegex "a[b[]" = Some ("a", "b["). Proof. reflexivity. Qed.

(** ** Lemmas *)
Lemma collect_ok {A B} (f : A → outcome (list B)) (g : A → list B) xs :
  (∀ x, x ∈ xs → f x = Ok (g x)) → collect f xs = Ok (xs ≫= g).
Proof.
  induction xs as [|x xs IH]; intros Hf; simpl; [done|].
  rewrite Hf by left. simpl. rewrite IH by (intros; apply Hf; by right). done.
Qed.
Lemma collect_app {A B} (f : A → outcome (list B)) xs ys :
  collect f (xs ++ ys) = (let? a := collect f xs in let? b := collect f ys in Ok (a ++ b)).
Proof.
  induction xs as [|x xs IH]; simpl; [by destruct (collect f ys)|].
  rewrite IH. destruct (f x), (collect f xs), (collect f ys); simpl; try done.
  by rewrite app_assoc.
Qed.

Definition is_bracket (c : ascii) : bool := Ascii.eqb c "[" || Ascii.eqb c "]".
Definition plain_char (c : ascii) : bool := negb (is_bracket c || Ascii.eqb c ",").

Lemma splitLoop_inner s r d cur :
  str_forallb (λ c, negb (is_bracket c)) s = true → d ≠ 0%Z →
  splitLoop (s +:+ r) d cur = splitLoop r d (cur +:+ s).
Proof.
  intros Hs Hd. revert cur Hs. induction s as [|c s IH]; intros cur Hs.
  { by rewrite str_app_nil_r. }
  simpl in Hs. apply andb_true_iff in Hs as [Hc Hs]. rewrite str_app_cons. simpl.
  unfold is_bracket in Hc. destruct (Ascii.eqb c "["), (Ascii.eqb c "]"); try done.
  destruct (Z.eqb_spec d 0); [done|].
  rewrite IH, str_app_assoc by done. by destruct (Ascii.eqb c ",").
Qed.
Lemma splitLoop_plain s r d cur :
  str_forallb plain_char s = true → splitLoop (s +:+ r) d cur = splitLoop r d (cur +:+ s).
Proof.
  revert cur. induction s as [|c s IH]; intros cur Hs.
  { by rewrite str_app_nil_r. }
  simpl in Hs. apply andb_true_iff in Hs as [Hc Hs]. rewrite str_app_cons. simpl.
  unfold plain_char, is_bracket in Hc.
  destruct (Ascii.eqb c "["), (Ascii.eqb c "]"), (Ascii.eqb c ","); try done.
  by rewrite IH, str_app_assoc by done.
Qed.

(** A part of a host list: the splitter passes over it at depth 0. *)
Record part_ok (p : string) : Prop := {
  part_closed : ∀ r cur, splitLoop (p +:+ r) 0 cur = splitLoop r 0 (cur +:+ p);
  part_no_space : no_space p = true;
  part_nonempty : p ≠ EmptyString
}.
Lemma flush_part p : part_ok p → flush p = [p].
Proof.
  intros [_ H1 H2]. unfold flush. rewrite TrimSpace_no_space by done.
  by destruct (String.eqb_spec p "").
Qed.
Lemma splitNodeString_Join ps : Forall part_ok ps → splitNodeString (Join ps ",") = ps.
Proof.
  unfold splitNodeString. intros Hps. induction Hps as [|p ps Hp Hps IH]; [done|].
  destruct ps as [|q ps].
  - simpl. rewrite <-(str_app_nil_r p), (part_closed p) by done.
    rewrite str_app_nil_l. simpl. by rewrite str_app_nil_r, flush_part.
  - change (Join (p :: q :: ps) ",") with (p +:+ String "," (Join (q :: ps) ",")).
    rewrite (part_closed p) by done. rewrite str_app_nil_l.
    change (flush p ++ splitLoop (Join (q :: ps) ",") 0 "" = p :: q :: ps).
    by rewrite IH, flush_part.
Qed.

Lemma part_ok_plain p :
  str_forallb plain_char p = true → no_space p = true → p ≠ EmptyString → part_ok p.
Proof. intros. split; [|done..]. intros. by apply splitLoop_plain. Qed.
Lemma part_ok_bracket pre body :
  str_forallb plain_char pre = true → no_space pre = true →
  str_forallb (λ c, negb (is_bracket c)) body = true → no_space body = true →
  part_ok (pre +:+ "[" +:+ body +:+ "]").
Proof.
  intros H1 H2 H3 H4. split.
  - intros r cur. rewrite !str_app_assoc, splitLoop_plain by done.
    change (splitLoop (body +:+ "]" +:+ r) 1 ((cur +:+ pre) +:+ "[") =
            splitLoop r 0 (cur +:+ pre +:+ "[" +:+ body +:+ "]")).
    rewrite splitLoop_inner by done.
    change (splitLoop r 0 ((((cur +:+ pre) +:+ "[") +:+ body) +:+ "]") =
            splitLoop r 0 (cur +:+ pre +:+ "[" +:+ body +:+ "]")).
    by rewrite !str_app_assoc.
  - unfold no_space in *. rewrite !str_forallb_app, H2, H4. done.
  - by intros [_ ?]%str_app_eq_nil.
Qed.

Lemma str_snoc_cases s : s = EmptyString ∨ ∃ t c, s = t +:+ String c EmptyString.
Proof. revert s. refine (str_rev_ind _ _ _); eauto. Qed.
Lemma str_take_app_le n s t :
  (n ≤ String.length s)%nat → str_take n (s +:+ t) = str_take n s.
Proof.
  revert s. induction n as [|n IH]; intros [|c s] Hn; simpl in *; try done; [lia|].
  rewrite IH by lia. done.
Qed.

Lemma LastIndex_None s c : no_char c s = true → LastIndex s c = None.
Proof.
  destruct (LastIndex s c) as [i|] eqn:E; [|done].
  apply LastIndex_Some in E as (p & r & -> & _ & _).
  unfold no_char. rewrite str_forallb_app. simpl. rewrite Ascii.eqb_refl. simpl.
  by rewrite andb_false_r.
Qed.
Lemma no_char_take c n s : no_char c s = true → no_char c (str_take n s) = true.
Proof.
  intros H. rewrite <-(str_take_drop n s), no_char_app in H. by apply andb_true_iff in H as [? _].
Qed.
Lemma nodeRangeRegex_plain p : no_char "[" p = true → nodeRangeRegex p = None.
Proof.
  intros Hp. unfold nodeRangeRegex. rewrite LastIndex_None by by apply no_char_take.
  by repeat case_match.
Qed.
Lemma nodeRangeRegex_bracket pre inner :
  pre ≠ EmptyString → inner ≠ EmptyString → no_char "[" inner = true →
  no_char "010" pre = true → no_char "010" inner = true →
  nodeRangeRegex (pre +:+ "[" +:+ inner +:+ "]") = Some (pre, inner).
Proof.
  intros Hpre Hne Hin Hn1 Hn2.
  destruct (str_snoc_cases inner) as [->|(t & c & ->)]; [done|].
  unfold nodeRangeRegex.
  set (n := String.length _).
  assert (n = String.length pre + (1 + (String.length t + 1) + 1))%nat as Hn.
  { unfold n. rewrite !str_length_app. simpl. lia. }
  assert (pre +:+ "[" +:+ (t +:+ String c "") +:+ "]"
          = (pre +:+ "[" +:+ t +:+ String c "") +:+ "]") as Hs1
    by by rewrite !str_app_assoc.
  assert (pre +:+ "[" +:+ (t +:+ String c "") +:+ "]"
          = (pre +:+ "[" +:+ t) +:+ String c "]") as Hs2
    by by rewrite !str_app_assoc.
  assert (str_drop (n - 1) (pre +:+ "[" +:+ (t +:+ String c "") +:+ "]") = "]") as ->.
  { rewrite Hs1. replace (n - 1)%nat with (String.length (pre +:+ "[" +:+ t +:+ String c ""))
      by (rewrite !str_length_app; simpl; lia). apply str_drop_length_app. }
  assert (str_take (n - 1) (pre +:+ "[" +:+ (t +:+ String c "") +:+ "]")
          = (pre +:+ "[") +:+ (t +:+ String c "")) as ->.
  { rewrite Hs1. replace (n - 1)%nat with (String.length (pre +:+ "[" +:+ t +:+ String c ""))
      by (rewrite !str_length_app; simpl; lia).
    by rewrite str_take_length_app, !str_app_assoc. }
  assert (str_take (n - 2) (pre +:+ "[" +:+ (t +:+ String c "") +:+ "]")
          = pre +:+ String "[" t) as ->.
  { rewrite Hs2. replace (n - 2)%nat with (String.length (pre +:+ "[" +:+ t))
      by (rewrite !str_length_app; simpl; lia). apply str_take_length_app. }
  rewrite !no_char_app, Hn1. rewrite no_char_app in Hn2, Hin.
  apply andb_true_iff in Hn2 as [-> ->]. apply andb_true_iff in Hin as [Ht _]. simpl.
  rewrite LastIndex_app by done.
  destruct (Nat.eqb_spec (String.length pre) 0) as [E|]; [by destruct pre|].
  f_equal. f_equal; [apply str_take_length_app|].
  replace (String.length pre + 1)%nat with (String.length (pre +:+ "["))
    by (rewrite str_length_app; simpl; lia).
  apply str_drop_length_app.
Qed.

(** ** Where the names come from *)
(** A text occurs in another. *)
Definition within (x s : string) : Prop := ∃ pre post, s = pre +:+ x +:+ post.
Lemma within_refl s : within s s.
Proof. exists "", "". by rewrite str_app_nil_r. Qed.
Lemma within_trans x y z : within x y → within y z → within x z.
Proof. intros (p1 & s1 & ->) (p2 & s2 & ->). exists (p2 +:+ p1), (s1 +:+ s2). by rewrite !str_app_assoc. Qed.
Lemma within_cons x c s : within x s → within x (String c s).
Proof. intros (p & q & ->). by exists (String c p), q. Qed.
Lemma within_l x s t : within x s → within x (s +:+ t).
Proof. intros (p & q & ->). exists p, (q +:+ t). by rewrite !str_app_assoc. Qed.
Lemma within_r x s t : within x t → within x (s +:+ t).
Proof. intros (p & q & ->). exists (s +:+ p), q. by rewrite !str_app_assoc. Qed.
Lemma within_forallb f x s : within x s → str_forallb f s = true → str_forallb f x = true.
Proof. intros (p & q & ->). rewrite !str_forallb_app. by intros (_ & [? _]%andb_prop)%andb_prop. Qed.
Lemma within_Contains x s : within x s → Contains s x = true.
Proof.
  intros (p & q & ->). induction p as [|c p IH].
  - rewrite str_app_nil_l. pose proof (HasPrefix_app x q) as Hp. by destruct (x +:+ q); cbn [Contains]; rewrite Hp.
  - rewrite str_app_cons. simpl. by rewrite IH, orb_true_r.
Qed.
Lemma take_within n s : within (str_take n s) s.
Proof. exists "", (str_drop n s). by rewrite str_app_nil_l, str_take_drop. Qed.
Lemma drop_within n s : within (str_drop n s) s.
Proof. exists (str_take n s), "". by rewrite str_app_nil_r, str_take_drop. Qed.
Lemma trim_within s : within (TrimSpace s) s.
Proof.
  assert (∀ s, within (trim_left s) s) as Hl.
  { clear. induction s as [|c s IH]; simpl; [apply within_refl|]. destruct (Ascii.is_space c); [by apply within_cons|apply within_refl]. }
  assert (∀ s, ∃ q, s = trim_right s +:+ q) as Hr.
  { clear. induction s as [|c s [q IH]]; simpl; [by exists ""|]. destruct (trim_right s) as [|d r] eqn:E.
    - destruct (Ascii.is_space c); [by exists (String c s)|by exists s].
    - exists q. rewrite str_app_cons. by f_equal. }
  destruct (Hr (trim_left s)) as [q Hq]. eapply within_trans; [|apply (Hl s)]. exists "", q. by rewrite str_app_nil_l.
Qed.
Lemma Split_within s c x : x ∈ Split s c → within x s.
Proof.
  revert x. assert (∀ h l, Split s c = h :: l → (∃ q, s = h +:+ q) ∧ ∀ x, x ∈ l → within x s) as H.
  { induction s as [|d s IH]; intros h l; simpl.
    { intros [= <- <-]. split; [by exists ""|]. by intros x ?%not_elem_of_nil. }
    destruct (Split s c) as [|h0 l0] eqn:E; [by destruct s; simpl in E; repeat case_match|]. destruct (IH h0 l0 eq_refl) as [[q Hq] Hl].
    destruct (Ascii.eqb d c); intros [= <- <-].
    - split; [by exists (String d s)|]. intros x [-> |Hx]%elem_of_cons; apply within_cons; [|by apply Hl]. rewrite Hq. apply within_l, within_refl.
    - split; [exists q; rewrite str_app_cons; by f_equal|]. intros x Hx. by apply within_cons, Hl. }
  intros x. destruct (Split s c) as [|h l]; [by intros ?%not_elem_of_nil|]. destruct (H h l eq_refl) as [[q Hq] Hl].
  intros [-> |Hx]%elem_of_cons; [|by apply Hl]. rewrite Hq. apply within_l, within_refl.
Qed.
Lemma splitLoop_within s d cur x : x ∈ splitLoop s d cur → within x (cur +:+ s).
Proof.
  assert (∀ cur x, x ∈ flush cur → within x cur) as Hf.
  { clear. intros cur x. unfold flush. destruct (String.eqb _ _); [by intros ?%not_elem_of_nil|]. intros ->%list_elem_of_singleton. apply trim_within. }
  revert d cur. induction s as [|c s IH]; intros d cur; simpl; [by rewrite str_app_nil_r; apply Hf|].
  assert (∀ d, x ∈ splitLoop s d (cur +:+ String c "") → within x (cur +:+ String c s)) as Hm.
  { intros d' Hx%IH. by rewrite str_app_assoc in Hx. }
  destruct (Ascii.eqb c "["); [apply Hm|]. destruct (Ascii.eqb c "]"); [apply Hm|]. destruct (Ascii.eqb c ","); [|apply Hm].
  destruct (d =? 0)%Z; [|apply Hm]. intros [Hx%Hf|Hx%IH]%elem_of_app; [by apply within_l|]. apply within_r. by apply within_cons.
Qed.
Lemma regex_within s p r : nodeRangeRegex s = Some (p, r) → within p s ∧ within r s.
Proof.
  unfold nodeRangeRegex. destruct (negb _); [done|]. destruct (negb _); [done|]. destruct (LastIndex _ _) as [i|]; [|done].
  destruct (i =? 0)%nat; [done|]. intros [= <- <-]. split; [apply take_within|]. eapply within_trans; [apply drop_within|apply take_within].
Qed.
Lemma collect_Halt {A B} (f : A → outcome (list B)) xs h : collect f xs = Halt h → ∃ x, x ∈ xs ∧ f x = Halt h.
Proof.
  induction xs as [|x xs IH]; simpl; [done|]. destruct (f x) as [ys|e|s] eqn:E; simpl; [|done|].
  - destruct (collect f xs) as [zs|e|s]; simpl; [done..|]. intros [= ->]. destruct (IH eq_refl) as (y & ? & ?). exists y. split; [by right|done].
  - intros [= ->]. exists x. split; [left|done].
Qed.
Lemma collect_Ok_elem {A B} (f : A → outcome (list B)) xs l y : collect f xs = Ok l → y ∈ l → ∃ x ys, x ∈ xs ∧ f x = Ok ys ∧ y ∈ ys.
Proof.
  revert l. induction xs as [|x xs IH]; intros l; simpl; [intros [= <-]; by intros ?%not_elem_of_nil|].
  destruct (f x) as [ys|e|s] eqn:E; simpl; [|done..]. destruct (collect f xs) as [zs|e|s]; simpl; [|done..]. intros [= <-] [Hy|Hy]%elem_of_app.
  - exists x, ys. split; [left|done].
  - destruct (IH zs eq_refl Hy) as (x' & ys' & ? & ? & ?). exists x', ys'. split; [by right|done].
Qed.
(** The largest integer has one notation, up to a sign and zeros in front. *)
Lemma ParseInt_body bits s v :
  ParseInt bits s = Some v →
  ∃ sign body, s = sign +:+ body ∧ isDigits body = true ∧ body ≠ "" ∧ (v = digits_val 0 body ∨ v = - digits_val 0 body)%Z.
Proof.
  unfold ParseInt. intros H.
  assert (∃ sign body neg, s = sign +:+ body ∧
    (if String.eqb body "" || negb (isDigits body) then None
     else let v := digits_val 0 body in let v := (if (neg : bool) then - v else v)%Z in
       if (min_int bits <=? v)%Z && (v <=? max_int bits)%Z then Some v else None) = Some v) as (sign & body & neg & -> & Hv).
  { destruct s as [|c r]; [exists "", "", false; by split|]. destruct c as [[] [] [] [] [] [] [] []];
      first [eexists "", (String _ r), false; split; [reflexivity|exact H]|exists "-", r, true; split; [reflexivity|exact H]|exists "+", r, false; split; [reflexivity|exact H]]. }
  exists sign, body. destruct (String.eqb_spec body ""); [done|]. destruct (isDigits body); [|done]. cbn [negb orb] in Hv.
  split_and!; [done..|]. destruct neg; case_match; simplify_eq; [by right|by left].
Qed.
Lemma Atoi_largest b : Atoi b = Some (max_int 64) → within (Itoa (max_int 64)) b.
Proof.
  intros (sign & body & -> & Hd & Hne & Hv)%ParseInt_body. apply within_r.
  assert (0 ≤ digits_val 0 body)%Z as H0 by (by apply digits_val_nonneg). assert (digits_val 0 body = max_int 64) as Hval by (unfold max_int in *; lia).
  destruct (digits_canonical body Hd Hne) as [k ->]. rewrite Hval in *. apply within_r. apply within_refl.
Qed.
Lemma expandPart_Halt prefix part h : expandPart prefix part = Halt h → within (Itoa (max_int 64)) part.
Proof.
  unfold expandPart. cbv zeta. set (t := TrimSpace part). intros H. eapply within_trans; [|apply trim_within]. fold t. revert H.
  destruct (Contains t "-"); [|by destruct (Atoi t)]. destruct (Split t "-") as [|a [|b []]] eqn:Hs; [done..| |done].
  destruct (Atoi a) as [x|]; [|done]. destruct (Atoi b) as [y|] eqn:Hb; [|done]. destruct (y <? x)%Z; [done|].
  unfold countUp. destruct (Z.eqb_spec y (max_int 64)) as [-> |]; [|done]. intros _. eapply within_trans; [by apply Atoi_largest|].
  apply (Split_within _ "-"). rewrite Hs. right. left.
Qed.
(** Reading a host list comes to an end, unless it has the largest integer in it. *)
Lemma parseNodeList_Halt s h : parseNodeList s = Halt h → within (Itoa (max_int 64)) s.
Proof.
  unfold parseNodeList. destruct (String.eqb s ""); [done|]. intros (part & Hp & Hh)%collect_Halt. unfold parsePart, expandNodeRange in Hh.
  apply (splitLoop_within s 0 "") in Hp. eapply within_trans; [|exact Hp]. destruct (nodeRangeRegex part) as [[prefix spec]|] eqn:Hr; [|done].
  destruct (collect (expandPart prefix) (Split spec ",")) as [l|e|h'] eqn:Hc; [by destruct l|done|].
  apply collect_Halt in Hc as (x & Hx%Split_within & Hx'%expandPart_Halt). apply regex_within in Hr as [_ Hr].
  eapply within_trans; [exact Hx'|]. by eapply within_trans.
Qed.
(** The characters of the names are those of the list, signs and digits. *)
Lemma PadInt_forallb f w n : (∀ c, is_digit c = true → f c = true) → f "-"%char = true → str_forallb f (PadInt w n) = true.
Proof.
  intros Hd Hm. unfold PadInt. assert (∀ k, str_forallb f (zeros k) = true) as Hz by (induction k as [|k IH]; simpl; [done|by rewrite Hd, IH]).
  destruct (Z.ltb_spec n 0) as [Hn|Hn]; cbn [str_forallb]; rewrite str_forallb_app, Hz, ?Hm; simpl.
  - destruct (print_nonneg_spec (- n)) as (Hp & _); [lia|]. by eapply str_forallb_impl.
  - destruct (print_nonneg_spec n) as (Hp & _); [lia|]. by eapply str_forallb_impl.
Qed.
Lemma parseNodeList_forallb f s l :
  (∀ c, is_digit c = true → f c = true) → f "-"%char = true → str_forallb f s = true → parseNodeList s = Ok l →
  Forall (λ x, str_forallb f x = true) l.
Proof.
  intros Hd Hm Hs. unfold parseNodeList. destruct (String.eqb s ""); [by intros [= <-]|]. intros Hc. apply Forall_forall. intros y Hy.
  destruct (collect_Ok_elem _ _ _ _ Hc Hy) as (part & ys & Hp & Hparse & Hin). apply (splitLoop_within s 0 "") in Hp.
  pose proof (within_forallb f _ _ Hp Hs) as Hpart. unfold parsePart, expandNodeRange in Hparse.
  destruct (nodeRangeRegex part) as [[prefix spec]|] eqn:Hr; simpl in Hparse.
  2: { injection Hparse as <-. by apply list_elem_of_singleton in Hin as ->. }
  destruct (collect (expandPart prefix) (Split spec ",")) as [zs|e|h] eqn:Hc'; [|done..].
  assert (ys = [part] ∨ ys = zs) as [-> | ->] by (destruct zs; simpl in Hparse; simplify_eq; auto).
  { by apply list_elem_of_singleton in Hin as ->. }
  destruct (collect_Ok_elem _ _ _ _ Hc' Hin) as (x & xs & _ & Hx & Hyx). apply regex_within in Hr as [Hr _].
  assert (∃ w n, y = prefix +:+ PadInt w n) as (w & n & ->).
  { revert Hx. unfold expandPart. cbv zeta. destruct (Contains _ "-").
    - destruct (Split _ "-") as [|a [|b []]]; [done..| |done]. destruct (Atoi a) as [i|]; [|done]. destruct (Atoi b) as [j|]; [|done].
      destruct (j <? i)%Z; [done|]. unfold countUp. destruct (_ =? _)%Z; [done|]. intros [= <-].
      apply list_elem_of_fmap in Hyx as (k & -> & _). by eexists _, _.
    - destruct (Atoi _) as [i|]; [|done]. intros [= <-]. apply list_elem_of_singleton in Hyx as ->. by eexists _, _. }
  rewrite str_forallb_app, PadInt_forallb by done. by rewrite (within_forallb f _ _ Hr Hpart).
Qed.
