(* ===== verification/HostPattern.v ===== *)
(** * Merging and expanding host lists are inverse

    [pattern.Merge] writes the host lists of topology.conf; [slurmapi]'s
    [parseNodeList] reads the host lists Slurm reports.  The text of a merged list
    expands to exactly the names it was built from. *)
From S2P Require Import Prelude GoStrings Pattern HostList.
From Stdlib Require Import Ascii.
From Stdlib Require String.

(** A name Slurm can list: no comma, bracket or white space, not empty. *)
Definition name_char (c : ascii) : bool := plain_char c && negb (Ascii.is_space c).
Definition clean_name (s : string) : bool :=
  str_forallb name_char s && negb (String.eqb s "").

(** ** One group of numbers *)
Lemma digits_forallb (f : ascii → bool) s :
  (∀ c, is_digit c = true → f c = true) → isDigits s = true → str_forallb f s = true.
Proof. apply str_forallb_impl. Qed.
Lemma digit_not_special c :
  is_digit c = true → c ≠ "-"%char ∧ c ≠ ","%char ∧ c ≠ "010"%char ∧ is_bracket c = false ∧ Ascii.is_space c = false.
Proof. by destruct c as [[] [] [] [] [] [] [] []]. Qed.
Lemma digits_no_char c s : is_digit c = false → isDigits s = true → no_char c s = true.
Proof.
  intros Hc. apply digits_forallb. intros d Hd. destruct (Ascii.eqb_spec d c); [congruence|done].
Qed.
Lemma digits_no_space s : isDigits s = true → no_space s = true.
Proof. apply digits_forallb. by intros c (_ & _ & _ & _ & ->)%digit_not_special. Qed.

Lemma Contains_app_char s t c : Contains (s +:+ String c t) (String c "") = true.
Proof.
  induction s as [|d s IH].
  - rewrite str_app_nil_l. simpl. unfold HasPrefix. simpl.
    destruct (ascii_dec c c); [|done]. by destruct t.
  - rewrite str_app_cons. simpl. by rewrite IH, orb_true_r.
Qed.
Lemma Contains_no_char s c : no_char c s = true → Contains s (String c "") = false.
Proof.
  unfold no_char, HasPrefix. induction s as [|d s IH]; simpl; [done|].
  rewrite andb_true_iff. intros [Hd Hs]. rewrite IH by done.
  destruct (Ascii.eqb_spec d c); [done|]. unfold HasPrefix. simpl.
  destruct (ascii_dec c d); [congruence|done].
Qed.

Definition renderNum (prefix : string) (w : nat) (i : Z) : string := prefix +:+ PadInt w i.

Lemma expandPart_range prefix w s e :
  (0 ≤ s ≤ e)%Z → (e < max_int 64)%Z →
  expandPart prefix (renderRange w s e) = Ok (renderNum prefix w <$> seqZ s (e - s + 1)).
Proof.
  intros Hse He. unfold expandPart, renderRange, formatPatternNumber.
  destruct (PadInt_spec w s) as (A1 & A2 & A3); [lia|].
  destruct (PadInt_spec w e) as (B1 & B2 & B3); [lia|].
  destruct (Z.eqb_spec s e) as [->|Hne].
  - rewrite TrimSpace_no_space by by apply digits_no_space.
    rewrite Contains_no_char by by apply digits_no_char.
    rewrite Atoi_PadInt by lia. replace (e - e + 1)%Z with 1%Z by lia.
    rewrite PadInt_range_width by lia. done.
  - assert (PadInt w s +:+ "-" +:+ PadInt w e = PadInt w s +:+ String "-" (PadInt w e)) as -> by done.
    rewrite TrimSpace_no_space.
    2:{ unfold no_space. rewrite str_forallb_app. simpl.
        pose proof (digits_no_space _ A1) as H1. pose proof (digits_no_space _ B1) as H2.
        unfold no_space in H1, H2. by rewrite H1, H2. }
    rewrite Contains_app_char, Split_app_sep, Split_no_char by by apply digits_no_char.
    rewrite !Atoi_PadInt by lia. destruct (Z.ltb_spec e s); [lia|].
    unfold countUp. destruct (Z.eqb_spec e (max_int 64)); [lia|]. simpl. f_equal.
    apply list_fmap_ext. intros _ i Hi%list_elem_of_lookup_2.
    apply elem_of_seqZ in Hi. unfold renderNum. by rewrite PadInt_range_width by lia.
Qed.

(** [rest] continues a run that ends in [lo]. *)
Definition ascending (lo : Z) (l : list Z) : Prop := Sorted Z.lt (lo :: l).

Lemma seqZ_1 m : seqZ m 1 = [m].
Proof. unfold seqZ. simpl. f_equal. Qed.

Lemma expand_ranges prefix w start end_ rest :
  (0 ≤ start ≤ end_)%Z → ascending end_ rest →
  (∀ n, n ∈ end_ :: rest → (n < max_int 64)%Z) →
  collect (expandPart prefix) (renderRanges w start end_ rest) =
  Ok (renderNum prefix w <$> (seqZ start (end_ - start + 1) ++ rest)).
Proof.
  revert start end_. induction rest as [|n rest IH]; intros start end_ Hse Hasc Hmax; simpl.
  - rewrite expandPart_range by first [lia | apply Hmax; left]. simpl. by rewrite !app_nil_r.
  - apply Sorted_inv in Hasc as [Hasc Hhd]. apply HdRel_inv in Hhd.
    destruct (Z.eqb_spec n (end_ + 1)) as [->|Hne].
    + rewrite IH; [|lia|done|intros; apply Hmax; by right].
      do 2 f_equal. replace (end_ + 1 - start + 1)%Z with ((end_ - start + 1) + 1)%Z by lia.
      rewrite seqZ_app by lia. rewrite <-app_assoc. f_equal.
      rewrite seqZ_1. simpl. f_equal. lia.
    + simpl. rewrite expandPart_range by first [lia | apply Hmax; left]. simpl.
      rewrite IH; [|lia|done|intros; apply Hmax; by right]. simpl.
      rewrite fmap_app. replace (n - n + 1)%Z with 1%Z by lia. by rewrite seqZ_1, fmap_app.
Qed.

Lemma renderRange_chars (f : ascii → bool) w s e :
  (0 ≤ s ≤ e)%Z → (∀ c, is_digit c = true → f c = true) → f "-"%char = true →
  str_forallb f (renderRange w s e) = true ∧ renderRange w s e ≠ "".
Proof.
  intros Hse Hf Hdash. destruct (PadInt_spec w s) as (A1 & _ & A3); [lia|].
  destruct (PadInt_spec w e) as (B1 & _ & _); [lia|].
  unfold renderRange, formatPatternNumber. case_match.
  - split; [by apply digits_forallb|done].
  - rewrite !str_forallb_app. simpl. rewrite Hdash, !(digits_forallb f) by done.
    split; [done|]. by intros [? _]%str_app_eq_nil.
Qed.
Lemma renderRanges_chars (f : ascii → bool) w start end_ rest :
  (0 ≤ start ≤ end_)%Z → ascending end_ rest →
  (∀ c, is_digit c = true → f c = true) → f "-"%char = true →
  Forall (λ r, str_forallb f r = true ∧ r ≠ "") (renderRanges w start end_ rest).
Proof.
  intros Hse Hasc Hf Hd. revert start end_ Hse Hasc.
  induction rest as [|n rest IH]; intros start end_ Hse Hasc; simpl.
  - constructor; [by apply renderRange_chars|constructor].
  - apply Sorted_inv in Hasc as [Hasc Hhd]. apply HdRel_inv in Hhd. case_match.
    + apply IH; [lia|done].
    + constructor; [by apply renderRange_chars|]. apply IH; [lia|done].
Qed.
Lemma renderRanges_nonempty w start end_ rest : renderRanges w start end_ rest ≠ [].
Proof. revert start end_. induction rest; intros; simpl; [done|]. case_match; [auto|done]. Qed.
Lemma Join_chars (f : ascii → bool) l :
  Forall (λ r, str_forallb f r = true ∧ r ≠ "") l → f ","%char = true →
  str_forallb f (Join l ",") = true ∧ (l ≠ [] → Join l "," ≠ "").
Proof.
  intros Hl Hc. induction Hl as [|r l [Hr Hne] Hl [IH _]]; [done|].
  destruct l as [|q l]; [done|].
  change (Join (r :: q :: l) ",") with (r +:+ String "," (Join (q :: l) ",")).
  rewrite str_forallb_app. simpl in *. rewrite Hr, Hc, IH. split; [done|].
  intros _ [_ ?]%str_app_eq_nil. done.
Qed.

(** ** Parts of a merged list *)

(** [ps] is a sequence of parts that the parser expands to the names [l]. *)
Record expands (ps l : list string) : Prop := {
  expands_parts : Forall part_ok ps;
  expands_parse : collect parsePart ps = Ok l
}.
Lemma expands_nil : expands [] [].
Proof. split; [constructor|done]. Qed.
Lemma expands_app ps1 l1 ps2 l2 :
  expands ps1 l1 → expands ps2 l2 → expands (ps1 ++ ps2) (l1 ++ l2).
Proof.
  intros [A1 A2] [B1 B2]. split; [by apply Forall_app|]. by rewrite collect_app, A2, B2.
Qed.
Lemma expands_bind {A} (f : A → list string) (g : A → list string) xs :
  (∀ x, x ∈ xs → expands (f x) (g x)) → expands (xs ≫= f) (xs ≫= g).
Proof.
  induction xs as [|x xs IH]; intros Hf; [apply expands_nil|].
  apply expands_app; [apply Hf; left|]. apply IH. intros. apply Hf. by right.
Qed.
Lemma expands_Join ps l : expands ps l → parseNodeList (Join ps ",") = Ok l.
Proof.
  intros [H1 H2]. unfold parseNodeList. rewrite splitNodeString_Join by done.
  destruct (String.eqb_spec (Join ps ",") "") as [E|]; [|done].
  assert (splitNodeString (Join ps ",") = ps) as Hs by by apply splitNodeString_Join.
  rewrite E in Hs. simpl in Hs. by subst.
Qed.

Lemma clean_name_inv s :
  clean_name s = true →
  str_forallb plain_char s = true ∧ no_space s = true ∧ s ≠ "" ∧
  no_char "[" s = true ∧ no_char "010" s = true.
Proof.
  unfold clean_name. rewrite andb_true_iff. intros [Hs Hne].
  split_and!.
  - eapply str_forallb_impl; [|exact Hs]. intros c Hc. by apply andb_true_iff in Hc as [? _].
  - eapply str_forallb_impl; [|exact Hs]. intros c Hc. by apply andb_true_iff in Hc as [_ ?].
  - by destruct (String.eqb_spec s "").
  - eapply str_forallb_impl; [|exact Hs]. intros c Hc. destruct (Ascii.eqb_spec c "["); by subst.
  - eapply str_forallb_impl; [|exact Hs]. intros c Hc. destruct (Ascii.eqb_spec c "010"); by subst.
Qed.

Lemma expands_name s : clean_name s = true → expands [s] [s].
Proof.
  intros (H1 & H2 & H3 & H4 & _)%clean_name_inv. split.
  - constructor; [by apply part_ok_plain|constructor].
  - simpl. unfold parsePart, expandNodeRange. by rewrite nodeRangeRegex_plain.
Qed.

Definition group_names (prefix : string) (g : suffixGroup) : list string :=
  renderNum prefix (sg_width g) <$> sg_numbers g.
Definition group_ok (g : suffixGroup) : Prop :=
  match sg_numbers g with
  | [] => False
  | n :: rest => (0 ≤ n)%Z ∧ ascending n rest ∧ ∀ m, m ∈ n :: rest → (m < max_int 64)%Z
  end.

Lemma clean_name_render prefix w n :
  clean_name prefix = true → (0 ≤ n)%Z → clean_name (renderNum prefix w n) = true.
Proof.
  unfold clean_name, renderNum. rewrite !andb_true_iff. intros [Hp Hne] Hn.
  destruct (PadInt_spec w n Hn) as (D1 & _ & D3).
  rewrite str_forallb_app, Hp, (digits_forallb name_char (PadInt w n)); [|clear|done].
  - split; [done|]. destruct (String.eqb_spec (prefix +:+ PadInt w n) "") as [E|]; [|done].
    by apply str_app_eq_nil in E as [_ ?].
  - intros c Hc. by destruct c as [[] [] [] [] [] [] [] []].
Qed.

Lemma expands_group prefix g :
  clean_name prefix = true → group_ok g →
  expands [renderSuffixGroup prefix g] (group_names prefix g).
Proof.
  intros Hpre. destruct (clean_name_inv _ Hpre) as (H1 & H2 & H3 & H4 & H5).
  destruct g as [w [|n rest]]; unfold group_ok; simpl; [done|]. intros (Hn & Hasc & Hmax).
  unfold renderSuffixGroup, group_names. simpl. destruct rest as [|m rest].
  - by apply (expands_name (renderNum prefix w n)), clean_name_render.
  - set (rs := renderRanges w n n (m :: rest)).
    assert (Hrs : ∀ f, (∀ c, is_digit c = true → f c = true) → f "-"%char = true →
              Forall (λ r, str_forallb f r = true ∧ r ≠ "") rs)
      by (intros; apply renderRanges_chars; [lia|done..]).
    assert (HJ : ∀ f, (∀ c, is_digit c = true → f c = true) → f "-"%char = true → f ","%char = true →
              str_forallb f (Join rs ",") = true) by (intros; by apply Join_chars; auto).
    assert (Join rs "," ≠ "") as HJne.
    { eapply (Join_chars (λ _, true)); [by apply Hrs|done|apply renderRanges_nonempty]. }
    split.
    + constructor; [|constructor]. apply part_ok_bracket; try done.
      * apply HJ; [|done..]. by intros c (_ & _ & _ & -> & _)%digit_not_special.
      * apply HJ; [|done..]. by intros c (_ & _ & _ & _ & ->)%digit_not_special.
    + simpl. unfold parsePart, expandNodeRange.
      rewrite nodeRangeRegex_bracket; [|done|done| |done|].
      2: { apply HJ; [|done..]. intros c Hc. destruct (Ascii.eqb_spec c "["); by subst. }
      2: { apply HJ; [|done..]. intros c Hc. destruct (Ascii.eqb_spec c "010"); by subst. }
      rewrite Split_Join; [|apply renderRanges_nonempty|].
      2: { eapply Forall_impl; [apply (Hrs (λ d, negb (Ascii.eqb d ",")))|].
           - intros c Hc. destruct (Ascii.eqb_spec c ","); by subst.
           - done.
           - by intros r [? _]. }
      unfold rs. rewrite expand_ranges by (done || lia).
      replace (n - n + 1)%Z with 1%Z by lia. rewrite seqZ_1. simpl. by rewrite app_nil_r.
Qed.

(** ** The groups of [MergePrefixed] *)

(** A numeric suffix is the number printed at its width, and at width 0 when it
    has no leading zero. *)
Lemma numericOf_render p e s :
  numericOf p e = Some s →
  (0 ≤ ns_number s)%Z ∧ renderNum p (ns_width s) (ns_number s) = e ∧
  (hasLeadingZero (TrimPrefix e p) = false → renderNum p 0 (ns_number s) = e).
Proof.
  unfold numericOf, renderNum. destruct (HasPrefix e p) eqn:Hp; [|done]. simpl.
  apply HasPrefix_spec in Hp as [r ->]. rewrite TrimPrefix_app.
  destruct (String.eqb_spec r "") as [|Hne]; [done|].
  destruct (isDigits r) eqn:Hd; [|done]. simpl.
  destruct (Atoi r) as [n|] eqn:Hn; [|done]. simpl. intros [= <-]. simpl.
  assert (n = digits_val 0 r) as -> by by apply Atoi_digits.
  split_and!; [by apply digits_val_nonneg|by rewrite PadInt_digits|].
  intros. by rewrite PadInt_0_digits.
Qed.

Lemma list_bind_singleton_fmap {A B} (f : A → B) l : (l ≫= λ x, [f x]) = f <$> l.
Proof. induction l as [|x l IH]; [done|]. by rewrite bind_cons, IH. Qed.

Lemma elem_of_suffixGroups m g :
  g ∈ suffixGroups m ↔ ∃ l, m !! sg_width g = Some l ∧ sg_numbers g = merge_sort Z.le l.
Proof.
  unfold suffixGroups. rewrite elem_of_sort, list_elem_of_fmap. split.
  - intros ([w l] & -> & Hl%elem_of_map_to_list). simpl.
    rewrite lookup_fmap in Hl. apply fmap_Some in Hl as (l0 & ? & ->). eauto.
  - intros (l & Hl & Hn). exists (sg_width g, sg_numbers g). split; [by destruct g|].
    apply elem_of_map_to_list. by rewrite lookup_fmap, Hl, Hn.
Qed.

Lemma sorted_ascending l :
  NoDup l → merge_sort Z.le l = [] ∨
  ∃ n r, merge_sort Z.le l = n :: r ∧ ascending n r.
Proof.
  intros Hnd. destruct (merge_sort Z.le l) as [|n r] eqn:E; [by left|right].
  exists n, r. split; [done|]. unfold ascending. rewrite <-E.
  assert (NoDup (merge_sort Z.le l)) as Hnd' by by apply NoDup_sort.
  pose proof (Sorted_merge_sort Z.le l) as Hs. clear -Hnd' Hs.
  induction (merge_sort Z.le l) as [|x s IH]; [constructor|].
  apply NoDup_cons in Hnd' as [Hx Hnd]. apply Sorted_inv in Hs as [Hs Hhd].
  constructor; [by apply IH|]. destruct Hhd as [|y s Hxy]; constructor.
  assert (x ≠ y) by (intros ->; apply Hx; left). lia.
Qed.

Section prefixed.
  Context (es : list string) (p : string).
  Context (Hclean : ∀ e, e ∈ es → clean_name e = true) (Hp : clean_name p = true).
  Context (Hsmall : ∀ e s, e ∈ es → numericOf p e = Some s → (ns_number s < max_int 64)%Z).

Local Abbreviation scan := (scanEntities p es).
Local Abbreviation groups := (groupSuffixes (ss_padded scan) (ss_numeric scan)).

Lemma key_render e s :
  e ∈ es → numericOf p e = Some s →
  renderNum p (if ss_padded scan then ns_width s else 0%nat) (ns_number s) = e.
Proof.
  intros He Hs. destruct (numericOf_render _ _ _ Hs) as (_ & H1 & H2).
  destruct (ss_padded scan) eqn:Epad; [done|]. apply H2.
  destruct (hasLeadingZero (TrimPrefix e p)) eqn:Ez; [|done].
  assert (ss_padded scan = true) as Hpad; [|congruence].
  apply (scanEntities_spec p es). exists e. split; [done|]. split; [by rewrite Hs; eauto|done].
Qed.
Lemma seen_key n w :
  (n, w) ∈ ws_seen groups → renderNum p w n ∈ es ∧ (0 ≤ n < max_int 64)%Z.
Proof.
  intros (s & (e & He & Hs)%scanEntities_spec & Hk)%groupSuffixes_spec.
  pose proof (key_render e s He Hs) as Hr. injection Hk as <- <-.
  rewrite Hr. split; [done|].
  split; [by destruct (numericOf_render _ _ _ Hs)|by apply (Hsmall e s)].
Qed.
Lemma key_seen e s :
  e ∈ es → numericOf p e = Some s → ∃ n w, (n, w) ∈ ws_seen groups ∧ renderNum p w n = e.
Proof.
  intros He Hs. eexists _, _. split; [|exact (key_render e s He Hs)].
  destruct (groupSuffixes_spec (ss_padded scan) (ss_numeric scan)) as [B1 _].
  apply B1. exists s. split; [|done].
  apply scanEntities_spec. eauto.
Qed.

Lemma elem_of_group g n :
  g ∈ suffixGroups (ws_byWidth groups) → n ∈ sg_numbers g → (n, sg_width g) ∈ ws_seen groups.
Proof.
  destruct (groupSuffixes_spec (ss_padded scan) (ss_numeric scan)) as (_ & _ & B3).
  intros (l & Hl & ->)%elem_of_suffixGroups. rewrite elem_of_sort. intros Hn.
  apply B3. by rewrite Hl.
Qed.
Lemma suffixGroups_ok g : g ∈ suffixGroups (ws_byWidth groups) → group_ok g.
Proof.
  intros Hg. pose proof (elem_of_group g) as Hin.
  assert (∀ m, m ∈ sg_numbers g → (0 ≤ m < max_int 64)%Z) as Hr
    by (intros m Hm; by apply (seen_key m (sg_width g)), Hin).
  apply elem_of_suffixGroups in Hg as (l & Hl & Hn).
  apply groupSuffixes_spec in Hl as [Hne Hnd]. unfold group_ok.
  destruct (sorted_ascending l Hnd) as [E|(n & r & E & Hasc)].
  { by apply sort_nil_iff in E. }
  rewrite Hn, E in *. split_and!; [apply Hr; left|done|]. intros m Hm. by apply Hr.
Qed.

Definition merged_names : list string :=
  (suffixGroups (ws_byWidth groups) ≫= group_names p)
    ++ merge_sort String.le (elements (ss_passthrough scan)).

Lemma merged_names_same : same_elements merged_names es.
Proof.
  intros e. unfold merged_names, group_names.
  rewrite elem_of_app, elem_of_sort, elem_of_elements, list_elem_of_bind.
  destruct (scanEntities_spec p es) as (_ & A2 & _). rewrite A2. split.
  - intros [(g & He & Hg)|[? _]]; [|done].
    apply list_elem_of_fmap in He as (n & -> & Hn). by apply seen_key, elem_of_group.
  - intros He. destruct (numericOf p e) as [s|] eqn:Hs; [left|by right].
    destruct (key_seen e s He Hs) as (n & w & Hk & <-).
    apply groupSuffixes_spec in Hk as Hd.
    destruct (ws_byWidth groups !! w) as [l|] eqn:Hl; simpl in Hd; [|by apply not_elem_of_nil in Hd].
    exists (SuffixGroup w (merge_sort Z.le l)). simpl. split.
    + apply list_elem_of_fmap. exists n. by rewrite elem_of_sort.
    + apply elem_of_suffixGroups. eauto.
Qed.

Lemma expands_names l : (∀ e, e ∈ l → clean_name e = true) → expands l l.
Proof.
  induction l as [|e l IH]; intros Hl; [apply expands_nil|].
  apply (expands_app [e] [e]); [apply expands_name, Hl; left|]. apply IH. intros. apply Hl. by right.
Qed.
Lemma expands_mergePrefixed : expands (mergePrefixedParts es p) merged_names.
Proof.
  apply expands_app.
  - rewrite <-(list_bind_singleton_fmap (renderSuffixGroup p)). apply expands_bind.
    intros g Hg. by apply expands_group, suffixGroups_ok.
  - apply expands_names. intros e He%elem_of_sort%elem_of_elements.
    apply Hclean. by apply (scanEntities_spec p es) in He as [? _].
Qed.
End prefixed.

(** ** The whole merged list *)
Lemma Join_cons x l sep : l ≠ [] → Join (x :: l) sep = x +:+ sep +:+ Join l sep.
Proof. by destruct l. Qed.
Lemma Join_app l1 l2 sep :
  l1 ≠ [] → l2 ≠ [] → Join (l1 ++ l2) sep = Join l1 sep +:+ sep +:+ Join l2 sep.
Proof.
  intros H1 H2. induction l1 as [|x l1 IH]; [done|]. destruct l1 as [|y l1].
  - by apply Join_cons.
  - change ((x :: y :: l1) ++ l2) with (x :: ((y :: l1) ++ l2)).
    rewrite Join_cons, IH, (Join_cons x (y :: l1)) by done. by rewrite !str_app_assoc.
Qed.
(** Joining joined lists is joining their concatenation. *)
Lemma Join_Join {A} (f : A → list string) xs ys sep :
  (∀ x, x ∈ xs → f x ≠ []) →
  Join (((λ x, Join (f x) sep) <$> xs) ++ ys) sep = Join ((xs ≫= f) ++ ys) sep.
Proof.
  induction xs as [|x xs IH]; intros Hf; [done|].
  rewrite fmap_cons, bind_cons. simpl.
  assert (f x ≠ []) as Hx by (apply Hf; left).
  assert (∀ y, y ∈ xs → f y ≠ []) as Hxs by (intros; apply Hf; by right).
  specialize (IH Hxs). rewrite <-(app_assoc (f x)).
  destruct (decide ((xs ≫= f) ++ ys = [])) as [E|E].
  - rewrite E, app_nil_r. apply app_eq_nil in E as [E ->].
    destruct xs as [|x' xs]; [done|]. rewrite bind_cons in E. apply app_eq_nil in E as [E _].
    by destruct (Hxs x' ltac:(left)).
  - rewrite (Join_app (f x)), <-IH by done. apply Join_cons. intros [E1 E2]%app_eq_nil.
    apply fmap_nil_inv in E1. by subst.
Qed.

Lemma dashedPrefix_prefix e p : dashedPrefix e = Some p → ∃ r, e = p +:+ r ∧ p ≠ EmptyString.
Proof.
  unfold dashedPrefix. destruct (LastIndex e "-") as [i|] eqn:E; [|done]. case_match; [done|].
  case_match; [|done]. intros [= <-]. exists (str_drop (i + 1) e).
  rewrite str_take_drop. split; [done|].
  apply LastIndex_Some in E as (q & r & -> & <- & _).
  replace (String.length q + 1)%nat with (S (String.length q)) by lia. by destruct q.
Qed.
Lemma clean_prefix p r : clean_name (p +:+ r) = true → p ≠ EmptyString → clean_name p = true.
Proof.
  unfold clean_name. rewrite str_forallb_app, !andb_true_iff. intros [[Hp _] _] Hne.
  split; [done|]. by destruct (String.eqb_spec p "").
Qed.

(** The one numeric suffix the range loop of the parser cannot count up to. *)
Definition small_suffix (e : string) : bool :=
  match dashedPrefix e with
  | None => true
  | Some p =>
      match numericOf p e with
      | None => true
      | Some s => (ns_number s <? max_int 64)%Z
      end
  end.

Section merge.
  Context (es : list string).
  Context (Hclean : ∀ e, e ∈ es → clean_name e = true).
  Context (Hsmall : ∀ e, e ∈ es → small_suffix e = true).

Definition with_prefix (p : string) : list string := filter (λ e, dashedPrefix e = Some p) es.

Lemma with_prefix_expands p :
  p ∈ ps_prefixes (scanPrefixes es) →
  expands (mergePrefixedParts (with_prefix p) p) (merged_names (with_prefix p) p) ∧
  same_elements (merged_names (with_prefix p) p) (with_prefix p) ∧
  with_prefix p ≠ [].
Proof.
  destruct (scanPrefixes_spec es) as (A1 & A2 & A3 & _ & _). intros [l Hl]%A2.
  assert (with_prefix p = l) as Hw by (unfold with_prefix; by rewrite <-A1, Hl).
  assert (with_prefix p ≠ []) as Hne by (rewrite Hw; intros ->; by apply (A3 p)).
  assert (∀ e, e ∈ with_prefix p → dashedPrefix e = Some p ∧ e ∈ es) as Hin
    by (intros e ?%list_elem_of_filter; done).
  assert (clean_name p = true) as Hp.
  { destruct (with_prefix p) as [|e r]; [done|]. destruct (Hin e) as [Hd He]; [left|].
    destruct (dashedPrefix_prefix _ _ Hd) as (t & -> & ?). by eapply clean_prefix; [apply Hclean|]. }
  assert (∀ e s, e ∈ with_prefix p → numericOf p e = Some s → (ns_number s < max_int 64)%Z) as Hs.
  { intros e s [Hd He]%Hin Hs. specialize (Hsmall e He). unfold small_suffix in Hsmall.
    rewrite Hd, Hs in Hsmall. by apply Z.ltb_lt. }
  split_and!; [|by apply merged_names_same|done].
  apply expands_mergePrefixed; [|done|done]. intros e [_ He]%Hin. by apply Hclean.
Qed.

Lemma parts_nonempty fs p : fs ≠ [] → mergePrefixedParts fs p ≠ [].
Proof.
  intros Hne. destruct fs as [|e fs]; [done|]. intros [E1 E2]%app_eq_nil.
  apply fmap_nil_inv in E1. apply sort_nil_iff in E2.
  destruct (numericOf p e) as [s|] eqn:Hs.
  - destruct (key_seen (e :: fs) p e s) as (n & w & Hk & _); [left|done|].
    apply groupSuffixes_spec in Hk.
    destruct (ws_byWidth _ !! w) as [l|] eqn:Hl; simpl in Hk; [|by apply not_elem_of_nil in Hk].
    assert (SuffixGroup w (merge_sort Z.le l) ∈ @nil suffixGroup) as ?%not_elem_of_nil; [|done].
    rewrite <-E1. apply elem_of_suffixGroups. eauto.
  - assert (e ∈ elements (ss_passthrough (scanEntities p (e :: fs)))) as Hx.
    { apply elem_of_elements. apply scanEntities_spec. split; [left|done]. }
    rewrite E2 in Hx. by apply not_elem_of_nil in Hx.
Qed.

Definition all_merged_names : list string :=
  (merge_sort String.le (ps_prefixes (scanPrefixes es)) ≫= λ p, merged_names (with_prefix p) p)
    ++ merge_sort String.le (elements (ps_passthrough (scanPrefixes es))).

Lemma all_merged_names_same : same_elements all_merged_names es.
Proof.
  destruct (scanPrefixes_spec es) as (A1 & A2 & A3 & _ & A5). intros e.
  unfold all_merged_names. rewrite elem_of_app, elem_of_sort, elem_of_elements, A5, list_elem_of_bind.
  split.
  - intros [(p & He & Hp%elem_of_sort)|[? _]]; [|done].
    apply with_prefix_expands in Hp as (_ & Hs & _). apply Hs in He.
    by apply list_elem_of_filter in He as [_ ?].
  - intros He. destruct (dashedPrefix e) as [p|] eqn:Hd; [left|by right].
    assert (e ∈ with_prefix p) as Hw by by apply list_elem_of_filter.
    exists p. rewrite elem_of_sort.
    assert (p ∈ ps_prefixes (scanPrefixes es)) as Hp.
    { apply A2. specialize (A1 p). unfold with_prefix in Hw. rewrite <-A1 in Hw.
      destruct (_ !! p); [eauto|by apply not_elem_of_nil in Hw]. }
    split; [|done]. by apply with_prefix_expands in Hp as (_ & -> & _).
Qed.

Lemma Merge_parts :
  Merge es =
  Join ((merge_sort String.le (ps_prefixes (scanPrefixes es)) ≫= λ p, mergePrefixedParts (with_prefix p) p)
          ++ merge_sort String.le (elements (ps_passthrough (scanPrefixes es)))) ",".
Proof.
  rewrite <-Join_Join.
  2: { intros p Hp%elem_of_sort. apply with_prefix_expands in Hp as (_ & _ & ?).
       by apply parts_nonempty. }
  assert (∀ p, p ∈ merge_sort String.le (ps_prefixes (scanPrefixes es)) →
    MergePrefixed (default [] (ps_byPrefix (scanPrefixes es) !! p)) p =
    Join (mergePrefixedParts (with_prefix p) p) ",") as Hmp.
  { intros p Hp%elem_of_sort. destruct (scanPrefixes_spec es) as (-> & _).
    apply with_prefix_expands in Hp as (_ & _ & Hne). fold (with_prefix p).
    unfold MergePrefixed. by destruct (with_prefix p). }
  transitivity (Join (((λ prefix, MergePrefixed (default [] (ps_byPrefix (scanPrefixes es) !! prefix)) prefix) <$>
     merge_sort String.le (ps_prefixes (scanPrefixes es)))
       ++ merge_sort String.le (elements (ps_passthrough (scanPrefixes es)))) ",").
  { by destruct es. }
  do 2 f_equal. apply list_fmap_ext. intros _ p Hp%list_elem_of_lookup_2. by apply Hmp.
Qed.

Lemma expands_Merge : parseNodeList (Merge es) = Ok all_merged_names.
Proof.
  rewrite Merge_parts. apply expands_Join, expands_app.
  - apply expands_bind. intros p Hp%elem_of_sort. by apply with_prefix_expands.
  - apply expands_names. intros e He%elem_of_sort%elem_of_elements.
    apply Hclean. by apply (scanPrefixes_spec es) in He as [? _].
Qed.
End merge.

(** ** Properties *)

(** C17: the text [pattern.Merge] writes for a list of node names expands, under
    the host-list parser of [slurmapi], to exactly those names: none is lost,
    renamed or invented, whatever the order, the zero padding and the duplicates of
    the input. *)
Theorem Merge_roundtrip (es : list string) :
  Forall (λ e, clean_name e = true ∧ small_suffix e = true) es →
  ∃ l, parseNodeList (Merge es) = Ok l ∧ same_elements l es.
Proof.
  rewrite Forall_forall. intros H. exists (all_merged_names es).
  split; [apply expands_Merge|apply all_merged_names_same]; naive_solver.
Qed.
Lemma Merge_roundtrip_witness :
  ∃ l, parseNodeList (Merge ["gpu-007"; "gpu-10"; "gpu-008"; "cpu-3"; "login"; "cpu-4"]) = Ok l ∧
       same_elements l ["gpu-007"; "gpu-10"; "gpu-008"; "cpu-3"; "login"; "cpu-4"].
Proof.
  apply (Merge_roundtrip ["gpu-007"; "gpu-10"; "gpu-008"; "cpu-3"; "login"; "cpu-4"]).
  repeat constructor.
Defined.
