(* ===== verification/SlurmConfigs.v ===== *)
(** * The Slurm configuration files

    [internal/render/common/configmap.go], [nodesetrefs.go] and [slurm_config_warning.go]: the texts of slurm.conf and the
    files next to it, as functions of the cluster's values and its NodeSets, the ConfigMap that holds them and the JailedConfig
    that puts them into the jail. *)
From S2P Require Import Prelude GoStrings Naming Effects Reconciler Patchers ConfigTexts Workers ClusterValues Pattern HostList HostPattern.
From Stdlib Require Import Ascii.
From Stdlib Require String.

(** ** Properties *)
Definition property (key value : string) : prop := Prop_ key value DefaultConnector.
Definition int_property (key : string) (value : Z) : prop := property key (Itoa value).
Definition comment (c : string) : prop := Prop_ "#" c "".
(** Reflection over a struct: the names of its fields, in order, with their JSON names.  Strings are left out when empty, pointers
    when nil; all integers of the structs walked are pointers. *)
Definition addSlurmConfigProperties (struct : list (string * string)) (config : fields) : list prop :=
  omap (λ '(fieldName, json), match config !! [json] with
                              | Some (VStr s) => if String.eqb s "" then None else Some (property fieldName s)
                              | Some (VInt z) => Some (int_property fieldName z)
                              | _ => None
                              end) struct.
Definition SlurmConfig_fields : list (string * string) :=
  [("DefMemPerNode", "defMemPerNode"); ("DefCpuPerGPU", "defCpuPerGPU"); ("CompleteWait", "completeWait"); ("Epilog", "epilog");
   ("Prolog", "prolog"); ("TaskProlog", "taskProlog"); ("TaskPluginParam", "taskPluginParam"); ("MaxJobCount", "maxJobCount");
   ("MinJobAge", "minJobAge"); ("MessageTimeout", "messageTimeout"); ("TopologyPlugin", "topologyPlugin");
   ("TopologyParam", "topologyParam"); ("SuspendTime", "suspendTime"); ("ResumeTimeout", "resumeTimeout")].
Definition AccountingSlurmConf_fields : list (string * string) :=
  [("AccountingStorageTRES", "accountingStorageTRES"); ("AccountingStoreFlags", "accountingStoreFlags");
   ("AcctGatherInterconnectType", "acctGatherInterconnectType"); ("AcctGatherFilesystemType", "acctGatherFilesystemType");
   ("AcctGatherProfileType", "acctGatherProfileType"); ("JobAcctGatherType", "jobAcctGatherType");
   ("JobAcctGatherFrequency", "jobAcctGatherFrequency"); ("JobAcctGatherParams", "jobAcctGatherParams");
   ("PriorityWeightAge", "priorityWeightAge"); ("PriorityWeightFairshare", "priorityWeightFairshare");
   ("PriorityWeightQOS", "priorityWeightQOS"); ("PriorityWeightTRES", "priorityWeightTRES")].

(** ** NodeSets *)
Definition ns_Replicas (n : resource) : Z := field_int (o_body n) ["spec"; "replicas"].
Definition ns_Ephemeral (n : resource) : bool := bool_at (o_body n) ["spec"; "ephemeralNodes"].
(** The hosts of a NodeSet in Slurm's syntax: what the code writes when there is one replica and when not. *)
Definition nodeRange (name : string) (replicas : Z) : string :=
  if (replicas =? 1)%Z then name +:+ "-0" else name +:+ "-[0-" +:+ Itoa (replicas - 1) +:+ "]".
Definition noNodeSets : prop := comment "WARNING: No nodesets defined in structured configuration!".
Definition noReplicas (n : resource) : prop := comment ("WARNING: NodeSet " +:+ o_name n +:+ " has 0 replicas, skipping").
Definition AddNodeSetsToSlurmConfig (c : values_SlurmCluster) : list prop :=
  comment "NodeSet section" ::
  match sc_NodeSets c with
  | [] => [noNodeSets]
  | nodeSets =>
      (λ n, if (0 <? ns_Replicas n)%Z then property "NodeSet" (o_name n +:+ " Nodes=" +:+ nodeRange (o_name n) (ns_Replicas n))
            else noReplicas n) <$> nodeSets
  end.
(** The memory is a quantity. *)
Definition RenderRealMemorySlurmd (memory : Z) : Z := Quantity_Value memory `quot` 1048576.
Definition staticConfig (static : string) : string :=
  Join (filter (λ s, HasPrefix s "Feature=" = false ∧ HasPrefix s "State=" = false) (Split static " ")) " ".
Definition nodeConfig (cluster : string) (n : resource) : string :=
  let b := o_body n in
  let parts :=
    ["NodeAddr=" +:+ nodeRange (o_name n) (ns_Replicas n) +:+ "." +:+ BuildNodeSetUmbrellaServiceFQDN (o_namespace n) cluster;
     "RealMemory=" +:+ Itoa (RenderRealMemorySlurmd (field_int b ["spec"; "slurmd"; "resources"; "memory"]))] ++
    (if bool_decide (field_optbool b ["spec"; "nodeConfig"; "autoResume"] = Some false) then ["AutoResume=Off"] else []) ++
    (let port := field_int b ["spec"; "slurmd"; "port"] in if (port =? 0)%Z then [] else ["Port=" +:+ Itoa port]) in
  let features := match field_strs b ["spec"; "nodeConfig"; "features"] with [] => [] | l => ["Feature=" +:+ Join l ","] end in
  Join [Join (Join parts " " :: features) " "; staticConfig (field_str b ["spec"; "nodeConfig"; "static"])] " ".
Definition AddNodesToSlurmConfig (c : values_SlurmCluster) : list prop :=
  comment "Nodes section" ::
  match sc_NodeSets c with
  | [] => [noNodeSets]
  | nodeSets =>
      (λ n, if (ns_Replicas n =? 0)%Z then noReplicas n
            else property "NodeName" (nodeRange (o_name n) (ns_Replicas n) +:+ " State=CLOUD " +:+ nodeConfig (sc_Name c) n)) <$> nodeSets
  end.
Definition AddNodesToGresConfig (c : values_SlurmCluster) : list prop :=
  comment "Nodes section" ::
  match sc_NodeSets c with
  | [] => [noNodeSets]
  | nodeSets =>
      nodeSets ≫= λ n,
        if (ns_Replicas n =? 0)%Z then [noReplicas n]
        else comment ("NodeSet " +:+ o_name n +:+ ":") ::
             match field_strs (o_body n) ["spec"; "nodeConfig"; "gresConfig"] with
             | [] => [comment "No custom configuration provided"]
             | gresLines =>
                 (λ l, property "NodeName" (o_name n +:+ "-[0-" +:+ Itoa (ns_Replicas n - 1) +:+ "] " +:+ l)) <$> gresLines
             end
  end.
Definition HasEphemeralNodes (c : values_SlurmCluster) : bool := existsb ns_Ephemeral (sc_NodeSets c).
Definition staticNodeSets (c : values_SlurmCluster) : list resource :=
  filter (λ n, ns_Ephemeral n = false ∧ ns_Replicas n ≠ 0%Z) (sc_NodeSets c).
Definition buildSuspendExcNodes (c : values_SlurmCluster) : string :=
  Join ((λ n, nodeRange (o_name n) (ns_Replicas n)) <$> staticNodeSets c) ",".
Definition totalWorkerNodes (c : values_SlurmCluster) : Z := foldl (λ total n, wrap 32 (total + ns_Replicas n)) 0%Z (sc_NodeSets c).
(** [1 << bits.Len(uint(n-1))] in an [int32]. *)
Definition bits_Len (n : Z) : Z := if (n =? 0)%Z then 0 else Z.log2 n + 1.
Definition nextPow2 (n : Z) : Z := if (n <=? 1)%Z then 1 else wrap 32 (Z.shiftl 1 (bits_Len (n - 1))).

(** ** Partitions and their references to NodeSets *)
Record IgnoredNodeSetRef := mkIgnored { ig_Partition : string; ig_NodeSet : string; ig_Reason : string }.
Record NodeSetRefResolution := mkResolution { Ignored : list IgnoredNodeSetRef; PartitionsWithoutNodes : list string }.
Definition NodeSetRefIgnoreReasonNotFound : string := "NodeSet does not exist".
Definition NodeSetRefIgnoreReasonNoReplicas : string := "NodeSet has no replicas".
(** Of NodeSets with the same name the last one counts. *)
Definition nodeSetReplicas (c : values_SlurmCluster) : gmap string Z :=
  foldl (λ m n, <[o_name n := ns_Replicas n]> m) ∅ (sc_NodeSets c).
(** The reference, resolved or ignored. *)
Definition resolveRef (p : Partition) (replicas : gmap string Z) (ref : string) : string + IgnoredNodeSetRef :=
  match replicas !! ref with
  | None => inr (mkIgnored (pt_Name p) ref NodeSetRefIgnoreReasonNotFound)
  | Some r => if (r <=? 0)%Z then inr (mkIgnored (pt_Name p) ref NodeSetRefIgnoreReasonNoReplicas) else inl ref
  end.
Definition resolvePartitionNodeSetRefs (p : Partition) (replicas : gmap string Z) : list string * list IgnoredNodeSetRef :=
  (omap (λ ref, match resolveRef p replicas ref with inl r => Some r | inr _ => None end) (pt_NodeSetRefs p),
   omap (λ ref, match resolveRef p replicas ref with inl _ => None | inr i => Some i end) (pt_NodeSetRefs p)).
Definition dquote : string := String "034" "".
Definition partition_line (p : Partition) (nodes : string) : prop :=
  property "PartitionName" (pt_Name p +:+ " Nodes=" +:+ nodes +:+ " " +:+ pt_Config p).
Definition partition_props (replicas : gmap string Z) (p : Partition) : list prop :=
  if pt_IsAll p then [partition_line p "ALL"]
  else
    let '(resolved, ignored) := resolvePartitionNodeSetRefs p replicas in
    ((λ i, comment ("WARNING: Partition " +:+ ig_Partition i +:+ " references NodeSet " +:+ ig_NodeSet i +:+ " ignored: " +:+
                    ig_Reason i)) <$> ignored) ++
    match resolved, ignored with
    | _ :: _, _ => [partition_line p (Join resolved ",")]
    | [], _ :: _ =>
        [comment ("WARNING: Partition " +:+ pt_Name p +:+ " has no usable nodeset refs, rendering it without nodes");
         partition_line p (dquote +:+ dquote)]
    | [], [] => [comment ("WARNING: Partition " +:+ pt_Name p +:+ " has no nodeset refs and is not 'all', skipping")]
    end.
Definition AddPartitionsToSlurmConfig (c : values_SlurmCluster) : list prop :=
  comment "Partitions section" ::
  match pc_Partitions (sc_PartitionConfiguration c) with
  | [] => [comment "WARNING: No partitions defined in structured configuration!"]
  | partitions => partitions ≫= partition_props (nodeSetReplicas c)
  end.
Definition PartitionConfigTypeStructured : string := "structured".
Definition ResolveNodeSetRefs (c : values_SlurmCluster) : NodeSetRefResolution :=
  if negb (String.eqb (pc_ConfigType (sc_PartitionConfiguration c)) PartitionConfigTypeStructured) then mkResolution [] []
  else
    let ps := filter (λ p, pt_IsAll p = false ∧ pt_NodeSetRefs p ≠ []) (pc_Partitions (sc_PartitionConfiguration c)) in
    let r := nodeSetReplicas c in
    mkResolution (ps ≫= λ p, (resolvePartitionNodeSetRefs p r).2)
                 (pt_Name <$> filter (λ p, (resolvePartitionNodeSetRefs p r).1 = []) ps).
Definition IsEmpty (r : NodeSetRefResolution) : bool :=
  (length (Ignored r) =? 0)%nat && (length (PartitionsWithoutNodes r) =? 0)%nat.

(** [strconv.Quote] of the printable characters that names are made of. *)
Definition quote_char (c : ascii) : string :=
  if Ascii.eqb c "034" || Ascii.eqb c "092" then String "092" (String c "") else String c "".
Fixpoint quoted (s : string) : string :=
  match s with EmptyString => dquote | String c s => quote_char c +:+ quoted s end.
Definition Quote (s : string) : string := dquote +:+ quoted s.
(** The builder's text so far; [i] counts the entries done, of [n]. *)
Definition appendPart (res part : string) : string := (if String.eqb res "" then "" else res +:+ "; ") +:+ part.
Fixpoint joinWithinLimit_from (res : string) (entries : list string) (limit : Z) : string :=
  match entries with
  | [] => res
  | entry :: rest =>
      let tail := "and " +:+ Itoa (Z.of_nat (length entries)) +:+ " more" in
      if (limit <? Z.of_nat (String.length res) + 2 + Z.of_nat (String.length entry) + 2 + Z.of_nat (String.length tail))%Z
      then appendPart res tail
      else joinWithinLimit_from (appendPart res entry) rest limit
  end.
Definition joinWithinLimit : list string → Z → string := joinWithinLimit_from "".
Definition ignored_entries (r : NodeSetRefResolution) : list string :=
  ((λ i, "partition " +:+ Quote (ig_Partition i) +:+ ": nodeSetRef " +:+ Quote (ig_NodeSet i) +:+ " ignored (" +:+ ig_Reason i +:+ ")")
     <$> Ignored r) ++
  ((λ p, "partition " +:+ Quote p +:+ " has no nodes: none of its nodeSetRefs are usable") <$> PartitionsWithoutNodes r).
Definition FormatIgnoredNodeSetRefs (r : NodeSetRefResolution) (limit : Z) : string := joinWithinLimit (ignored_entries r) limit.

(** ** slurm.conf *)
Definition custom_partition (l : string) : list prop :=
  let line := TrimSpace l in
  if HasPrefix line "PartitionName" then
    [property "PartitionName" (match cut line "PartitionName=" with Some (before, after) => before +:+ after | None => line end)]
  else [].
Definition partition_section (c : values_SlurmCluster) : list prop :=
  let pc := sc_PartitionConfiguration c in
  if String.eqb (pc_ConfigType pc) "custom" then pc_RawConfig pc ≫= custom_partition
  else if String.eqb (pc_ConfigType pc) PartitionConfigTypeStructured then
    AddNodesToSlurmConfig c ++ AddPartitionsToSlurmConfig c ++ AddNodeSetsToSlurmConfig c
  else
    [property "PartitionName" "main Nodes=ALL Default=YES PriorityTier=10 MaxTime=INFINITE State=UP OverSubscribe=YES";
     property "PartitionName" "hidden Nodes=ALL Default=NO PriorityTier=10 PreemptMode=OFF Hidden=YES MaxTime=INFINITE State=UP OverSubscribe=YES"].
Definition max_nodes (c : values_SlurmCluster) : Z := Z.max 1024 (nextPow2 (wrap 32 (totalWorkerNodes c * 2))).
Definition head_section (c : values_SlurmCluster) : list prop :=
  [property "ClusterName" (sc_Name c); comment "";
   property "SlurmctldHost" (sts_Name (ctl_StatefulSet (sc_NodeController c)) +:+ "-0(" +:+ svc_Name (ctl_Service (sc_NodeController c)) +:+ ")");
   comment ""; property "AuthType" "auth/munge"; property "CredType" "cred/munge"; comment ""; comment "SlurmConfig Spec"] ++
  addSlurmConfigProperties SlurmConfig_fields (sc_SlurmConfig c) ++ [comment ""] ++
  (if sc_ClusterWithGPU c then [property "GresTypes" "gpu"] else []) ++
  [property "MpiDefault" "pmix"; property "MailProg" "/usr/bin/true"; property "PluginDir" "/usr/lib/slurm";
   property "ProctrackType" "proctrack/cgroup"; int_property "ReturnToService" 2; comment "";
   property "SlurmctldPidFile" "/var/run/slurmctld.pid";
   int_property "SlurmctldPort" (ct_Port (ctl_ContainerSlurmctld (sc_NodeController c))); comment ""] ++
  (if default true (ctl_OpenMetricsEnabled (sc_NodeController c)) then [property "MetricsType" "metrics/openmetrics"; comment ""] else []) ++
  [property "SlurmdPidFile" "/var/run/slurmd.pid"; comment ""; property "SlurmdSpoolDir" "/var/spool/slurmd"; comment "";
   property "SlurmUser" "root"; comment ""; property "StateSaveLocation" "/var/spool/slurmctld"; comment "";
   property "TaskPlugin" "task/cgroup,task/affinity"; comment ""; property "CliFilterPlugins" "cli_filter/user_defaults"; comment "";
   property "LaunchParameters" "use_interactive_step"; comment "Scrontab"; property "ScronParameters" "enable,explicit_scancel"; comment "";
   property "PropagateResourceLimits" "NONE"; comment ""].
Definition health_section (h : HealthCheckConfig) : list prop :=
  [comment "HEALTH CHECKS"; comment "https://slurm.schedmd.com/slurm.conf.html#OPT_HealthCheckInterval";
   int_property "HealthCheckInterval" (hc_HealthCheckInterval h); property "HealthCheckProgram" (hc_HealthCheckProgram h);
   property "HealthCheckNodeState" (Join (hc_HealthCheckNodeState h) ","); comment ""].
Definition limits_section (c : values_SlurmCluster) : list prop :=
  [int_property "InactiveLimit" 0; int_property "KillOnBadExit" 1; int_property "KillWait" 180; int_property "UnkillableStepTimeout" 600;
   int_property "SlurmctldTimeout" 180; int_property "SlurmdTimeout" 180; int_property "TCPTimeout" 15; int_property "WaitTime" 0;
   comment "";
   property "SlurmctldParameters"
     (Join (["conmgr_max_connections=" +:+ Itoa (max_nodes c); "conmgr_threads=32"; "validate_nodeaddr_threads=32"; "enable_stepmgr"] ++
            if HasEphemeralNodes c then ["cloud_dns"; "idle_on_node_suspend"] else []) ",");
   property "PrologFlags" "contain"; comment ""; property "RebootProgram" "/opt/bin/slurm/reboot.sh";
   property "PowerAction" "soperator-worker-handoff Location=slurmd Program=/opt/bin/slurm/worker_handoff.py"; comment ""].
Definition power_section (c : values_SlurmCluster) : list prop :=
  [comment "POWER MANAGEMENT (ephemeral nodes)"; property "ResumeProgram" "/opt/soperator/bin/power_resume.sh";
   property "ResumeFailProgram" "/opt/soperator/bin/power_resume_fail.sh"; property "SuspendProgram" "/opt/soperator/bin/power_suspend.sh";
   int_property "SuspendTimeout" 90; int_property "ResumeRate" 100; int_property "SuspendRate" 100;
   property "ReconfigFlags" "KeepPowerSaveSettings"] ++
  (let suspendExcNodes := buildSuspendExcNodes c in
   if String.eqb suspendExcNodes "" then [] else [property "SuspendExcNodes" suspendExcNodes]) ++ [comment ""].
Definition scheduling_section (c : values_SlurmCluster) : list prop :=
  [comment "SCHEDULING"; property "SchedulerType" "sched/backfill";
   property "SchedulerParameters"
     (Join ["nohold_on_prolog_fail"; "extra_constraints"; "pack_serial_at_end"; "salloc_wait_nodes"; "sbatch_wait_nodes"; "defer_batch";
            "max_rpc_cnt=100"; "bf_continue"; "bf_max_time=60"; "bf_max_job_test=1000"; "bf_max_job_part=300"; "bf_running_job_reserve"] ",");
   property "SelectType" "select/cons_tres"; property "SelectTypeParameters" "CR_Core_Memory,CR_CORE_DEFAULT_DIST_BLOCK"; comment "";
   comment "LOGGING"; property "SlurmctldDebug" "debug"; property "SlurmctldLogFile" "/dev/null"; property "SlurmdDebug" "debug";
   property "SlurmdLogFile" "/dev/null"; property "DebugFlags" "Script,Power"; comment ""; comment "COMPUTE NODES";
   comment ("We're using the " +:+ dquote +:+ "dynamic nodes" +:+ dquote +:+ " feature: https://slurm.schedmd.com/dynamic_nodes.html");
   int_property "MaxNodeCount" (max_nodes c); int_property "MaxArraySize" (Z.max 1024 (wrap 32 (totalWorkerNodes c * 5)));
   int_property "JobRequeue" 1; property "PreemptMode" "REQUEUE"; property "PreemptType" "preempt/partition_prio";
   comment "Partition Configuration"].
Definition accounting_section (c : values_SlurmCluster) : list prop :=
  if negb (acc_Enabled (sc_NodeAccounting c)) then []
  else
    [comment "ACCOUNTING"; property "AccountingStorageType" "accounting_storage/slurmdbd";
     property "AccountingStorageHost" (BuildServiceFQDN (BuildServiceName ComponentTypeAccounting (sc_Name c)) (sc_Namespace c));
     int_property "AccountingStoragePort" DefaultAccountingPort; property "JobCompType" "jobcomp/none"] ++
    addSlurmConfigProperties AccountingSlurmConf_fields (acc_SlurmConfig (sc_NodeAccounting c)) ++
    (if rest_Enabled (sc_NodeRest c) then
       [comment ""; comment "REST API"; property "AuthAltTypes" "auth/jwt";
        property "AuthAltParameters" "jwt_key=/var/spool/slurmctld/jwt_hs256.key"]
     else []).
Definition slurm_props (c : values_SlurmCluster) : list prop :=
  head_section c ++ match sc_HealthCheckConfig c with Some h => health_section h | None => [] end ++ limits_section c ++
  power_section c ++ scheduling_section c ++ partition_section c ++ [comment ""] ++ accounting_section c.
Definition generateSlurmConfig (c : values_SlurmCluster) : ConfigFile := PropertiesConfig (slurm_props c).

(** ** The other files *)
Definition generateCustomSlurmConfig (c : values_SlurmCluster) : ConfigFile :=
  MultilineStringConfig ("# CUSTOM SLURM CONFIG" :: option_list (sc_CustomSlurmConfig c)).
Definition parseCGroupKV (line : string) : option string :=
  let trimmed := TrimSpace line in
  if String.eqb trimmed "" || HasPrefix trimmed "#" then None
  else if negb (Contains trimmed "=") then None
  else let key := TrimSpace (default "" (head (SplitN2 trimmed "="))) in if String.eqb key "" then None else Some key.
Definition renderDefaultCGroupConfig (cgroupVersion : string) : string :=
  Render (PropertiesConfig
    ([property "CgroupMountpoint" "/sys/fs/cgroup"; property "ConstrainCores" "yes"; property "ConstrainDevices" "yes";
      property "ConstrainRAMSpace" "yes"] ++
     (if String.eqb cgroupVersion "v1" then [property "CgroupPlugin" "cgroup/v1"; property "ConstrainSwapSpace" "yes"]
      else if String.eqb cgroupVersion "v2" then
        [property "CgroupPlugin" "cgroup/v2"; property "ConstrainSwapSpace" "no"; property "EnableControllers" "yes";
         property "IgnoreSystemd" "yes"]
      else []))).
(** [strings.TrimRight(s, "\n")]. *)
Fixpoint trim_newlines (s : string) : string :=
  match s with
  | EmptyString => EmptyString
  | String c s => let s := trim_newlines s in if Ascii.eqb c "010" && String.eqb s "" then EmptyString else String c s
  end.
Definition customCGroupLines (custom : string) : list string :=
  filter (λ l, TrimSpace l ≠ "") (Split (trim_newlines custom) "010").
Definition filteredDefaults (defaults custom : list string) : list string :=
  filter (λ l, match parseCGroupKV l with Some k => bool_decide (k ∉ omap parseCGroupKV custom) | None => true end = true) defaults.
Definition generateCGroupConfig (c : values_SlurmCluster) : ConfigFile :=
  let version := if String.eqb (sc_CgroupVersion c) "" then "v2" else sc_CgroupVersion c in
  let defaults := Split (renderDefaultCGroupConfig version) "010" in
  match sc_CustomCgroupConfig c with
  | Some custom =>
      if String.eqb (TrimSpace custom) "" then AsIsConfig (Join defaults newline)
      else let lines := customCGroupLines custom in
           AsIsConfig (Join (filteredDefaults defaults lines ++ ["###"; "# Custom config"; "###"] ++ lines) newline)
  | None => AsIsConfig (Join defaults newline)
  end.

(** The order in which [range] visits a map is not specified: it is an argument. *)
Definition map_order : Type := gmap string string → list (string * string).
Definition bit (b : bool) : string := if b then "1" else "0".
Definition level (required : bool) : string := if required then "required" else "optional".
Definition or_text (s dflt : string) : string := if String.eqb s "" then dflt else s.
Definition pyxis_line (b : fields) : string :=
  Join [level (bool_at b ["pyxis"; "required"]); "spank_pyxis.so"; "runtime_path=/run/pyxis"; "execute_entrypoint=0";
        "container_scope=global"; "sbatch_support=1"; "importer=" +:+ field_str b ["pyxis"; "importerPath"];
        "use_squashfuse=" +:+ bit (bool_at b ["pyxis"; "useSquashfuse"])] " ".
Definition ncclDebug_line (b : fields) : string :=
  let p x := ["ncclDebug"; x] in
  Join [level (bool_at b (p "required")); "spanknccldebug.so"; "enabled=" +:+ bit (bool_at b (p "enabled"));
        "log-level=" +:+ or_text (field_str b (p "logLevel")) "INFO"; "out-file=" +:+ bit (bool_at b (p "outputToFile"));
        "out-dir=" +:+ or_text (field_str b (p "outputDirectory")) "/opt/soperator-outputs/local/nccl_logs";
        "out-stdout=" +:+ bit (bool_at b (p "outputToStdOut"))] " ".
Definition ncclInspector_line (b : fields) : string :=
  let p x := ["ncclInspectorPreConf"; x] in
  let interval := field_int b (p "dumpThreadIntervalMicroseconds") in
  Join [level (bool_at b (p "required")); "spank_nccl_inspector_preconf.so"; "enabled=" +:+ bit (bool_at b (p "enabled"));
        "profiler-plugin=" +:+ or_text (field_str b (p "profilerPlugin")) "/usr/lib/x86_64-linux-gnu/libnccl-profiler-inspector.so";
        "dump-dir=" +:+ or_text (field_str b (p "dumpDir")) "/opt/soperator-outputs/shared/nccl_profiles/%j/%s";
        "dump-verbose=" +:+ bit (bool_at b (p "dumpVerbose"));
        "dump-thread-interval-microseconds=" +:+ Itoa (if (0 <? interval)%Z then interval else 1000000)] " ".
Definition plugin_line (order : map_order) (b : fields) : string :=
  Join ([level (bool_at b ["required"]); field_str b ["path"]] ++
        ((λ kv, kv.1 +:+ "=" +:+ kv.2) <$> order (strings_at b ["arguments"]))) " ".
Definition generateSpankConfig (order : map_order) (c : values_SlurmCluster) : ConfigFile :=
  let b := sc_PlugStackConfig c in
  MultilineStringConfig
    (["required chroot.so /mnt/jail"; pyxis_line b; ncclDebug_line b; ncclInspector_line b] ++
     (plugin_line order <$> list_at b ["customPlugins"])).
Definition generateGresConfig (c : values_SlurmCluster) : ConfigFile :=
  PropertiesConfig
    ([comment "Gres config"] ++ (if sc_ClusterWithGPU c then [property "AutoDetect" "nvidia"] else []) ++
     (if String.eqb (pc_ConfigType (sc_PartitionConfiguration c)) PartitionConfigTypeStructured then AddNodesToGresConfig c else [])).
Definition generateMPIConfig (c : values_SlurmCluster) : ConfigFile :=
  PropertiesConfig (comment "PMIx config" :: if String.eqb (sc_PMIxEnv c) "" then [] else [property "PMIxEnv" (sc_PMIxEnv c)]).
Definition slurmConfigPath (fileName : string) : string := "/etc/slurm/" +:+ fileName.
Definition generateRESTConfig : ConfigFile :=
  PropertiesConfig [comment "REST API config"; Prop_ "include" (slurmConfigPath "slurm.conf") " "; property "AuthType" "auth/jwt"].

(** ** The ConfigMap and the JailedConfig *)
Definition managedSlurmConfigWarning : string :=
  Join ["# Managed by Soperator."; "# Do not edit this file."; "# Changes are overwritten."] newline.
Definition slurmConfigEntrypointWarning : string :=
  Join [managedSlurmConfigWarning; "# Generated settings are in slurm_base.conf.noedit."; "# Overrides are in slurm_k8s_extra.conf.noedit."]
    newline.
Definition overrideSlurmConfigWarning : string :=
  Join [managedSlurmConfigWarning; "# Overrides are generated by Soperator."] newline.
Definition RenderSlurmConfigEntrypoint : ConfigFile :=
  AsIsConfig (slurmConfigEntrypointWarning +:+ newline +:+ newline +:+ "include " +:+ slurmConfigPath "slurm_base.conf.noedit" +:+ newline +:+
              "include " +:+ slurmConfigPath "slurm_k8s_extra.conf.noedit").
Definition WithManagedSlurmConfigWarning (config : ConfigFile) : ConfigFile :=
  AsIsConfig (managedSlurmConfigWarning +:+ newline +:+ newline +:+ Render config).
Definition WithOverrideSlurmConfigWarning (config : ConfigFile) : ConfigFile :=
  AsIsConfig (overrideSlurmConfigWarning +:+ newline +:+ newline +:+ Render config).
Definition slurm_files (order : map_order) (c : values_SlurmCluster) : list (string * string) :=
  let managed f := Render (WithManagedSlurmConfigWarning f) in
  [("slurm.conf", Render RenderSlurmConfigEntrypoint); ("slurm_base.conf.noedit", managed (generateSlurmConfig c));
   ("slurm_rest.conf", managed generateRESTConfig);
   ("slurm_k8s_extra.conf.noedit", Render (WithOverrideSlurmConfigWarning (generateCustomSlurmConfig c)));
   ("cgroup.conf", managed (generateCGroupConfig c)); ("plugstack.conf", managed (generateSpankConfig order c));
   ("gres.conf", managed (generateGresConfig c)); ("mpi.conf", managed (generateMPIConfig c))].
Definition RenderConfigMapSlurmConfigs (order : map_order) (c : values_SlurmCluster) : resource :=
  new ConfigMap (sc_Namespace c) (BuildConfigMapSlurmConfigsName (sc_Name c)) (RenderLabels ComponentTypeController (sc_Name c)) ∅
    (list_to_map ((λ '(file, text), (["data"; file], VStr text)) <$> slurm_files order c)).
Definition jailed_items : list string :=
  ["slurm.conf"; "slurm_base.conf.noedit"; "slurm_rest.conf"; "slurm_k8s_extra.conf.noedit"; "cgroup.conf"; "plugstack.conf"; "gres.conf";
   "mpi.conf"].
Definition RenderJailedConfigSlurmConfigs (c : values_SlurmCluster) : resource :=
  let name := BuildConfigMapSlurmConfigsName (sc_Name c) in
  new JailedConfig (sc_Namespace c) name
    (<["slurm.nebius.ai/jailed-aggregation" := "common"]> (RenderLabels ComponentTypeController (sc_Name c))) ∅
    (list_to_map [(["spec"; "configMap"; "name"], VStr name);
                  (["spec"; "items"], VRows ((λ f, [("key", f); ("path", slurmConfigPath f)]) <$> jailed_items));
                  (["spec"; "updateActions"], VStrs ["Reconfigure"])]).

(** ** Which nodes Slurm never suspends *)
Definition nodes_of (n : resource) : list string := (λ i, o_name n +:+ "-" +:+ Itoa i) <$> seqZ 0 (ns_Replicas n).
Lemma PadInt_0 n : (0 ≤ n)%Z → PadInt 0 n = Itoa n.
Proof. intros Hn. unfold PadInt, Itoa. by rewrite (proj2 (Z.ltb_ge n 0)) by lia. Qed.
Lemma renderRanges_run w s e k :
  renderRanges w s e (seqZ (e + 1) (Z.of_nat k)) = [renderRange w s (e + Z.of_nat k)].
Proof.
  revert e. induction k as [|k IH]; intros e; [simpl; by rewrite Z.add_0_r|].
  rewrite seqZ_cons by lia. cbn [renderRanges]. rewrite Z.eqb_refl.
  replace (Z.succ (e + 1)) with (e + 1 + 1)%Z by lia. replace (Z.pred (Z.of_nat (S k))) with (Z.of_nat k) by lia.
  rewrite IH. do 2 f_equal. lia.
Qed.
Lemma nodeRange_group name r :
  (1 ≤ r)%Z → nodeRange name r = renderSuffixGroup (name +:+ "-") (SuffixGroup 0 (seqZ 0 r)).
Proof.
  intros Hr. unfold nodeRange, renderSuffixGroup. cbn [sg_numbers sg_width]. destruct (Z.eqb_spec r 1) as [->|Hne].
  - rewrite seqZ_1. unfold formatPatternNumber. rewrite PadInt_0 by lia. by rewrite str_app_assoc.
  - pose proof (renderRanges_run 0 0 0 (Z.to_nat (r - 1))) as Hrun.
    replace (0 + 1)%Z with (Z.succ 0) in Hrun by lia. replace (Z.of_nat (Z.to_nat (r - 1))) with (Z.pred r) in Hrun by lia.
    rewrite (seqZ_cons 0 r) by lia. destruct (seqZ (Z.succ 0) (Z.pred r)) as [|x l] eqn:Hl; [rewrite seqZ_cons in Hl by lia; done|].
    rewrite Hrun. unfold renderRange, formatPatternNumber. rewrite (proj2 (Z.eqb_neq 0 (0 + Z.pred r))) by lia.
    rewrite (PadInt_0 0), (PadInt_0 (0 + Z.pred r)) by lia. replace (0 + Z.pred r)%Z with (r - 1)%Z by lia. cbn [Join]. rewrite !str_app_assoc. reflexivity.
Qed.
Lemma seqZ_ascending s k : ascending s (seqZ (s + 1) (Z.of_nat k)).
Proof.
  unfold ascending. revert s. induction k as [|k IH]; intros s; [repeat constructor|].
  rewrite seqZ_cons by lia. replace (Z.succ (s + 1)) with (s + 1 + 1)%Z by lia. replace (Z.pred (Z.of_nat (S k))) with (Z.of_nat k) by lia.
  constructor; [apply IH|]. constructor. lia.
Qed.
Lemma expands_nodeSet n :
  clean_name (o_name n) = true → (1 ≤ ns_Replicas n ≤ max_int 32)%Z →
  expands [nodeRange (o_name n) (ns_Replicas n)] (nodes_of n).
Proof.
  intros Hc Hr. rewrite nodeRange_group by lia.
  assert (nodes_of n = group_names (o_name n +:+ "-") (SuffixGroup 0 (seqZ 0 (ns_Replicas n)))) as ->.
  { unfold nodes_of, group_names. apply list_fmap_ext. intros _ i Hi%list_elem_of_lookup_2. apply elem_of_seqZ in Hi.
    unfold renderNum. cbn [sg_width]. pose proof (PadInt_0 i ltac:(lia)) as ->. by rewrite str_app_assoc. }
  apply expands_group.
  - unfold clean_name in *. rewrite !andb_true_iff, str_forallb_app in *. destruct Hc as [Hc Hne]. rewrite Hc. split; [done|].
    destruct (String.eqb_spec (o_name n +:+ "-") "") as [E|]; [|done]. by apply str_app_eq_nil in E as [_ ?].
  - unfold group_ok. cbn [sg_numbers]. rewrite seqZ_cons by lia. split_and!; [lia| |].
    + replace (Z.pred (ns_Replicas n)) with (Z.of_nat (Z.to_nat (ns_Replicas n - 1))) by lia. apply (seqZ_ascending 0).
    + intros m Hm. rewrite <-seqZ_cons in Hm by lia. apply elem_of_seqZ in Hm. unfold max_int in *. lia.
Qed.
(** The nodes that Slurm is told never to suspend are exactly the nodes of the NodeSets that are not ephemeral: expanding
    the SuspendExcNodes of slurm.conf with Slurm's host-list syntax gives, for each such NodeSet with replicas, all its
    pods' names and nothing else; and the setting is left out exactly when there are none. *)
Theorem static_nodes_never_suspended (c : values_SlurmCluster) :
  (∀ n, n ∈ sc_NodeSets c → clean_name (o_name n) = true ∧ (0 ≤ ns_Replicas n ≤ max_int 32)%Z) →
  parseNodeList (buildSuspendExcNodes c) = Ok (staticNodeSets c ≫= nodes_of) ∧
  (property "SuspendExcNodes" (buildSuspendExcNodes c) ∈ power_section c ↔ staticNodeSets c ≫= nodes_of ≠ []).
Proof.
  intros Hok.
  assert (expands ((λ n, nodeRange (o_name n) (ns_Replicas n)) <$> staticNodeSets c) (staticNodeSets c ≫= nodes_of)) as He.
  { rewrite <-list_bind_singleton_fmap. apply expands_bind. intros n Hn. unfold staticNodeSets in Hn.
    apply list_elem_of_filter in Hn as [[_ Hr] Hn]. destruct (Hok n Hn). apply expands_nodeSet; [done|lia]. }
  split; [by apply expands_Join|]. unfold power_section, buildSuspendExcNodes.
  destruct (staticNodeSets c) as [|n l] eqn:Hs.
  - split; [|done]. intros Hin. cbn in Hin. by elem_cases Hin.
  - assert (n ∈ staticNodeSets c) as Hn by (rewrite Hs; left). unfold staticNodeSets in Hn.
    apply list_elem_of_filter in Hn as [[_ Hr] Hn]. destruct (Hok n Hn) as [Hc Hr']. split.
    + intros _ Hnil. apply app_eq_nil in Hnil as [Hnil _]. unfold nodes_of in Hnil.
      rewrite seqZ_cons in Hnil by lia. done.
    + intros _. rewrite (proj2 (String.eqb_neq _ _)); [apply elem_of_app; right; left|].
      intros E. pose proof (expands_Join _ _ He) as Hp. rewrite E in Hp. cbn in Hp. injection Hp as Hp. symmetry in Hp.
      apply app_eq_nil in Hp as [Hp _]. unfold nodes_of in Hp. rewrite seqZ_cons in Hp by lia. done.
Qed.

(** ** Partitions refer to NodeSets that are there *)
Definition usable (c : values_SlurmCluster) (ref : string) : bool := (0 <? default 0 (nodeSetReplicas c !! ref))%Z.
Lemma replicas_found l (m : gmap string Z) ref r :
  foldl (λ m n, <[o_name n := ns_Replicas n]> m) m l !! ref = Some r →
  m !! ref = Some r ∨ ∃ n : resource, n ∈ l ∧ o_name n = ref ∧ ns_Replicas n = r.
Proof.
  revert m. induction l as [|n l IH]; intros m Hl; simpl in Hl; [by left|]. apply IH in Hl as [Hl|(x & Hx & ? & ?)].
  - apply lookup_insert_Some in Hl as [[? ?]|[_ Hl]]; [|by left]. right. exists n. split; [left|done].
  - right. exists x. split; [by right|done].
Qed.
Lemma usable_nodeSet c ref :
  usable c ref = true → ∃ n, n ∈ sc_NodeSets c ∧ o_name n = ref ∧ (0 < ns_Replicas n)%Z.
Proof.
  unfold usable, nodeSetReplicas. destruct (_ !! ref) as [r|] eqn:Hr; simpl; [|lia]. intros Hp.
  apply replicas_found in Hr as [?|(n & ? & ? & ?)]; [done|]. exists n. split_and!; [done..|lia].
Qed.
Lemma resolveRef_usable c p ref :
  resolveRef p (nodeSetReplicas c) ref =
    if usable c ref then inl ref
    else inr (mkIgnored (pt_Name p) ref
                (if decide (is_Some (nodeSetReplicas c !! ref)) then NodeSetRefIgnoreReasonNoReplicas else NodeSetRefIgnoreReasonNotFound)).
Proof.
  unfold resolveRef, usable. destruct (nodeSetReplicas c !! ref) as [r|]; [|done]. cbn [default from_option id].
  rewrite decide_True by (by eexists). destruct (Z.leb_spec r 0), (Z.ltb_spec 0 r); try lia; done.
Qed.
Lemma resolved_usable c p :
  (resolvePartitionNodeSetRefs p (nodeSetReplicas c)).1 = filter (λ r, usable c r = true) (pt_NodeSetRefs p).
Proof.
  unfold resolvePartitionNodeSetRefs. cbn [fst]. induction (pt_NodeSetRefs p) as [|r l IH]; [done|]. cbn [omap list_omap].
  rewrite resolveRef_usable. destruct (usable c r) eqn:Hu.
  - rewrite filter_cons_True by done. by f_equal.
  - rewrite filter_cons_False by congruence. done.
Qed.
Lemma ignored_unusable c p i :
  i ∈ (resolvePartitionNodeSetRefs p (nodeSetReplicas c)).2 →
  ig_Partition i = pt_Name p ∧ ig_NodeSet i ∈ pt_NodeSetRefs p ∧ usable c (ig_NodeSet i) = false.
Proof.
  unfold resolvePartitionNodeSetRefs. simpl. rewrite list_elem_of_omap. intros (r & Hr & Hi). rewrite resolveRef_usable in Hi.
  destruct (usable c r) eqn:Hu; [done|]. by injection Hi as <-.
Qed.
Lemma unusable_ignored c p r :
  r ∈ pt_NodeSetRefs p → usable c r = false →
  ∃ i, i ∈ (resolvePartitionNodeSetRefs p (nodeSetReplicas c)).2 ∧ ig_Partition i = pt_Name p ∧ ig_NodeSet i = r.
Proof.
  intros Hr Hu. unfold resolvePartitionNodeSetRefs. simpl.
  eexists. split; [apply list_elem_of_omap; exists r; split; [done|rewrite resolveRef_usable, Hu; reflexivity]|done].
Qed.
Lemma partition_in_config c p x :
  pc_ConfigType (sc_PartitionConfiguration c) = PartitionConfigTypeStructured → p ∈ pc_Partitions (sc_PartitionConfiguration c) →
  x ∈ partition_props (nodeSetReplicas c) p → x ∈ slurm_props c.
Proof.
  intros Ht Hp Hx. unfold slurm_props, partition_section. rewrite Ht. cbn [String.eqb Ascii.eqb Bool.eqb].
  do 5 (apply elem_of_app; right). apply elem_of_app. left. apply elem_of_app. right. apply elem_of_app. left. right.
  destruct (pc_Partitions _) as [|q l] eqn:Hl; [by apply not_elem_of_nil in Hp|]. apply list_elem_of_bind. by exists p.
Qed.
Lemma nodeSet_in_config c n :
  pc_ConfigType (sc_PartitionConfiguration c) = PartitionConfigTypeStructured → n ∈ sc_NodeSets c → (0 < ns_Replicas n)%Z →
  property "NodeSet" (o_name n +:+ " Nodes=" +:+ nodeRange (o_name n) (ns_Replicas n)) ∈ slurm_props c.
Proof.
  intros Ht Hn Hr. unfold slurm_props, partition_section. rewrite Ht. cbn [String.eqb Ascii.eqb Bool.eqb].
  do 5 (apply elem_of_app; right). apply elem_of_app. left. apply elem_of_app. right. apply elem_of_app. right. right.
  destruct (sc_NodeSets c) as [|q l] eqn:Hl; [by apply not_elem_of_nil in Hn|]. apply list_elem_of_fmap. exists n.
  by rewrite (proj2 (Z.ltb_lt _ _)).
Qed.

(** C32: slurm.conf never refers to a NodeSet that it does not define, and what is left out is reported.  With
    structured partitions, every partition that refers to NodeSets has a line, whose nodes are, in order, the references to NodeSets
    that exist and have replicas (the positive entries of [nodeSetReplicas], which has the replicas of each NodeSet under its name), or an empty list if there are none; each of them has a NodeSet line in the same
    file; and the references left out are exactly those that [ResolveNodeSetRefs] reports for the status, which
    names the partition if it was left without nodes. *)
Theorem partition_references_defined (c : values_SlurmCluster) (p : Partition) :
  pc_ConfigType (sc_PartitionConfiguration c) = PartitionConfigTypeStructured →
  p ∈ pc_Partitions (sc_PartitionConfiguration c) → pt_IsAll p = false → pt_NodeSetRefs p ≠ [] →
  let refs := filter (λ r, usable c r = true) (pt_NodeSetRefs p) in
  let report := ResolveNodeSetRefs c in
  partition_line p (if decide (refs = []) then dquote +:+ dquote else Join refs ",") ∈ slurm_props c ∧
  (∀ r, r ∈ refs → ∃ n, n ∈ sc_NodeSets c ∧ o_name n = r ∧
     property "NodeSet" (r +:+ " Nodes=" +:+ nodeRange r (ns_Replicas n)) ∈ slurm_props c) ∧
  (∀ r, r ∈ pt_NodeSetRefs p →
     (r ∉ refs) ↔ ∃ i, i ∈ Ignored report ∧ ig_Partition i = pt_Name p ∧ ig_NodeSet i = r) ∧
  (refs = [] → pt_Name p ∈ PartitionsWithoutNodes report).
Proof.
  intros Ht Hp Hall Hrefs refs report.
  assert (report = let ps := filter (λ p, pt_IsAll p = false ∧ pt_NodeSetRefs p ≠ []) (pc_Partitions (sc_PartitionConfiguration c)) in
    mkResolution (ps ≫= λ p, (resolvePartitionNodeSetRefs p (nodeSetReplicas c)).2)
                 (pt_Name <$> filter (λ p, (resolvePartitionNodeSetRefs p (nodeSetReplicas c)).1 = []) ps)) as Hrep
    by (unfold report, ResolveNodeSetRefs; by rewrite Ht).
  assert (p ∈ filter (λ p, pt_IsAll p = false ∧ pt_NodeSetRefs p ≠ []) (pc_Partitions (sc_PartitionConfiguration c))) as Hps
    by (by apply list_elem_of_filter). split_and!.
  - apply (partition_in_config c p); [done..|]. unfold partition_props. rewrite Hall.
    pose proof (resolved_usable c p) as Hres. pose proof (unusable_ignored c p) as Hign.
    destruct (resolvePartitionNodeSetRefs p (nodeSetReplicas c)) as [resolved ignored]. simpl in Hres, Hign. subst resolved. fold refs.
    apply elem_of_app. right. destruct refs as [|r0 l0] eqn:Hr; [|rewrite decide_False by done; left].
    rewrite decide_True by done. destruct ignored as [|i0 l1]; [|right; left]. exfalso.
    destruct (pt_NodeSetRefs p) as [|r l]; [done|]. destruct (usable c r) eqn:Hu.
    + unfold refs in Hr. by rewrite filter_cons_True in Hr.
    + destruct (Hign r) as (i & Hi & _); [left|done|]. by apply not_elem_of_nil in Hi.
  - intros r [Hu Hr]%list_elem_of_filter. destruct (usable_nodeSet c r Hu) as (n & Hn & <- & Hpos). exists n.
    split_and!; [done..|]. by apply nodeSet_in_config.
  - intros r Hr. rewrite Hrep. cbn [Ignored]. split.
    + intros Hn. assert (usable c r = false) as Hu by (destruct (usable c r) eqn:E; [destruct Hn; by apply list_elem_of_filter|done]).
      destruct (unusable_ignored c p r Hr Hu) as (i & Hi & ? & ?). exists i. split; [|done]. apply list_elem_of_bind. by exists p.
    + intros (i & Hi & _ & <-) [Hu _]%list_elem_of_filter. apply list_elem_of_bind in Hi as (q & Hi & _).
      apply ignored_unusable in Hi as (_ & _ & Hn). congruence.
  - intros Hnil. rewrite Hrep. cbn [PartitionsWithoutNodes]. apply list_elem_of_fmap. exists p. split; [done|].
    apply list_elem_of_filter. by rewrite resolved_usable.
Qed.

(** ** The report fits into the status *)
Lemma Join_snoc l x :
  Forall (λ s, s ≠ "") l → appendPart (Join l "; ") x = Join (l ++ [x]) "; ".
Proof.
  intros Hl. unfold appendPart. destruct l as [|y l]; [done|]. rewrite Join_app by done.
  rewrite (proj2 (String.eqb_neq _ _)); [by rewrite str_app_assoc|]. apply Forall_cons in Hl as [Hy _].
  destruct l; simpl; [done|]. by intros [? _]%str_app_eq_nil.
Qed.
Definition more (n : nat) : string := "and " +:+ Itoa (Z.of_nat n) +:+ " more".
Lemma more_length m n : (m ≤ n)%nat → (String.length (more m) ≤ String.length (more n))%nat.
Proof.
  intros Hmn. unfold more. rewrite !str_length_app. unfold Itoa. rewrite !(proj2 (Z.ltb_ge _ 0)) by lia.
  pose proof (print_nonneg_length_mono (Z.of_nat m) (Z.of_nat n)). lia.
Qed.
Definition len (s : string) : Z := Z.of_nat (String.length s).
Lemma append_length res x : (len (appendPart res x) ≤ len res + 2 + len x)%Z.
Proof. unfold appendPart, len. rewrite str_length_app. destruct (String.eqb res ""); rewrite ?str_length_app; simpl; lia. Qed.
Lemma join_spec entries : ∀ done limit,
  Forall (λ s, s ≠ "") done → Forall (λ s, s ≠ "") entries → (len (Join done "; ") ≤ limit)%Z →
  (entries ≠ [] → len (appendPart (Join done "; ") (more (length entries))) ≤ limit)%Z →
  ∃ k, (k ≤ length entries)%nat ∧
    joinWithinLimit_from (Join done "; ") entries limit =
      Join (done ++ take k entries ++ if decide (k = length entries) then [] else [more (length entries - k)]) "; " ∧
    (len (joinWithinLimit_from (Join done "; ") entries limit) ≤ limit)%Z.
Proof.
  induction entries as [|e entries IH]; intros done limit Hd He Hlen Htail; cbn [joinWithinLimit_from].
  { exists 0%nat. split_and!; [done| |done]. simpl. by rewrite app_nil_r. }
  apply Forall_cons in He as [He Hes]. change ("and " +:+ _) with (more (length (e :: entries))). 
  repeat change (Z.of_nat (String.length ?x)) with (len x).
  destruct (Z.ltb_spec limit (len (Join done "; ") + 2 + len e + 2 + len (more (length (e :: entries))))%Z) as [Hover|Hfit].
  - exists 0%nat. split_and!; [lia| |by apply Htail]. rewrite Join_snoc by done. by rewrite decide_False by done.
  - rewrite Join_snoc by done. pose proof (append_length (Join done "; ") e) as Ha. rewrite Join_snoc in Ha by done.
    assert (0 ≤ len (more (length (e :: entries))))%Z by (unfold len; lia).
    destruct (IH (done ++ [e]) limit) as (k & Hk & Heq & Hle).
    + apply Forall_app. split; [done|]. by constructor.
    + done.
    + lia.
    + intros _. pose proof (append_length (Join (done ++ [e]) "; ") (more (length entries))).
      pose proof (more_length (length entries) (length (e :: entries)) ltac:(simpl; lia)). unfold len in *. lia.
    + exists (S k). split_and!; [simpl; lia| |done]. rewrite Heq. cbn [take length]. rewrite <-app_assoc. do 2 f_equal. simpl. f_equal.
      destruct (decide (k = length entries)); [by rewrite decide_True by lia|]. by rewrite decide_False by lia.
Qed.

(** The report of ignored references stays within the limit of the API server.  For any resolution and any limit that
    the last words have room in, the message is not longer than the limit; it lists the first entries in order, and when it
    does not list all of them it ends with the number of those left out. *)
Theorem report_within_limit (r : NodeSetRefResolution) (limit : Z) :
  let n := length (ignored_entries r) in
  (len (more n) ≤ limit)%Z →
  (len (FormatIgnoredNodeSetRefs r limit) ≤ limit)%Z ∧
  ∃ k, (k ≤ n)%nat ∧
    FormatIgnoredNodeSetRefs r limit = Join (take k (ignored_entries r) ++ if decide (k = n) then [] else [more (n - k)]) "; ".
Proof.
  intros n Hl. destruct (join_spec (ignored_entries r) [] limit) as (k & Hk & Heq & Hle).
  - constructor.
  - apply Forall_app. split; apply Forall_fmap, Forall_forall; intros x _; done.
  - unfold len in *. simpl. lia.
  - done.
  - unfold FormatIgnoredNodeSetRefs, joinWithinLimit. change "" with (Join [] "; "). split; [done|]. by exists k.
Qed.

(** ** A cluster with three NodeSets *)
Definition ex_partitions : PartitionConfiguration :=
  mkPartitionConfiguration "structured" []
    [mkPartition "main" true [] "Default=YES"; mkPartition "gpu" false ["h100"; "b200"; "old"] "State=UP";
     mkPartition "spare" false ["empty"] ""].
Definition ex_config : values_SlurmCluster :=
  example_values ex_partitions [example_nodeSet "b200" 3 true; example_nodeSet "empty" 0 false; example_nodeSet "h100" 2 false].
Lemma static_nodes_never_suspended_witness :
  parseNodeList (buildSuspendExcNodes ex_config) = Ok ["h100-0"; "h100-1"] ∧
  (property "SuspendExcNodes" (buildSuspendExcNodes ex_config) ∈ power_section ex_config ↔ ["h100-0"; "h100-1"] ≠ []).
Proof.
  apply (static_nodes_never_suspended ex_config). intros n Hn. unfold ex_config in Hn. cbn [sc_NodeSets example_values] in Hn.
  elem_cases Hn; subst n; vm_compute; done.
Defined.
Lemma partition_references_defined_witness :
  partition_line (mkPartition "gpu" false ["h100"; "b200"; "old"] "State=UP") "h100,b200" ∈ slurm_props ex_config ∧
  ∃ i, i ∈ Ignored (ResolveNodeSetRefs ex_config) ∧ ig_Partition i = "gpu" ∧ ig_NodeSet i = "old".
Proof.
  destruct (partition_references_defined ex_config (mkPartition "gpu" false ["h100"; "b200"; "old"] "State=UP"))
    as (Hl & _ & Hi & _); [done|right; left|done|done|].
  assert (filter (λ r, usable ex_config r = true) ["h100"; "b200"; "old"] = ["h100"; "b200"]) as Hf by (vm_compute; reflexivity).
  cbn [pt_NodeSetRefs] in Hl, Hi. rewrite Hf in Hl, Hi. split; [exact Hl|]. apply (Hi "old"); [right; right; left|].
  intros Hin. by elem_cases Hin.
Defined.
Lemma report_within_limit_witness :
  (len (FormatIgnoredNodeSetRefs (ResolveNodeSetRefs ex_config) 100) ≤ 100)%Z.
Proof. apply (report_within_limit (ResolveNodeSetRefs ex_config) 100). vm_compute. discriminate. Defined.
Example report_text :
  FormatIgnoredNodeSetRefs (ResolveNodeSetRefs ex_config) 100 =
    "partition " +:+ Quote "gpu" +:+ ": nodeSetRef " +:+ Quote "old" +:+ " ignored (NodeSet does not exist); and 2 more".
Proof. vm_compute. reflexivity. Qed.

(** ** What goes wrong *)
(** The arguments of a custom plugin are written in the order in which [range] visits the map: the same spec has several
    texts, and with each of them a new version of the ConfigMap. *)
Definition ex_plugins : values_SlurmCluster :=
  let c := example_values ex_partitions [] in
  mkSlurmCluster (sc_Namespace c) (sc_Name c) (sc_CRVersion c) (sc_ClusterWithGPU c) (sc_PartitionConfiguration c)
    (sc_HealthCheckConfig c) (sc_PopulateJail c) (sc_NodeFilters c) (sc_VolumeSources c) (sc_SshdKeysName c) (sc_NodeController c)
    (sc_NodeAccounting c) (sc_NodeRest c) (sc_NodeLogin c) (sc_SlurmExporter c) (sc_SlurmConfig c) (sc_CustomSlurmConfig c)
    (sc_CustomCgroupConfig c) (sc_CgroupVersion c) (sc_PMIxEnv c)
    (list_to_map [(["customPlugins"; "0"; "path"], VStr "p.so"); (["customPlugins"; "0"; "arguments"; "a"], VStr "1");
                  (["customPlugins"; "0"; "arguments"; "b"], VStr "2")])
    (sc_SConfigController c) (sc_NodeSets c) (sc_UseDefaultAppArmorProfile c).
Example plugin_arguments_unordered :
  ∃ o1 o2 : map_order, (∀ m, o1 m ≡ₚ map_to_list m) ∧ (∀ m, o2 m ≡ₚ map_to_list m) ∧
    Render (generateSpankConfig o1 ex_plugins) ≠ Render (generateSpankConfig o2 ex_plugins).
Proof.
  exists map_to_list, (λ m, reverse (map_to_list m)). split_and!; [done|intros m; by rewrite reverse_Permutation|].
  vm_compute. discriminate.
Qed.
(** A custom partition line without the equals sign passes the validation and is rendered with the keyword twice. *)
Example custom_partition_keyword :
  custom_line_ok "PartitionName main" = true ∧
  Render (PropertiesConfig (custom_partition "PartitionName main")) = "PartitionName=PartitionName main".
Proof. vm_compute. done. Qed.
(** With it, the line is the user's. *)
Lemma custom_partition_kept line :
  HasPrefix (TrimSpace line) "PartitionName=" = true → Render (PropertiesConfig (custom_partition line)) = TrimSpace line.
Proof.
  unfold custom_partition, HasPrefix. generalize (TrimSpace line) as l. intros l Hl.
  assert (∃ r, l = "PartitionName=" +:+ r) as [r ->].
  { exists (str_drop 14 l). revert Hl. do 14 (destruct l as [|? l]; [done|]; cbn [String.prefix]; destruct (ascii_dec _ _); [subst|done]).
    done. }
  assert (cut ("PartitionName=" +:+ r) "PartitionName=" = Some ("", r)) as ->.
  { cbn. unfold HasPrefix. cbn. by destruct r. }
  done.
Qed.
(** The power of two is the next one, up to 2^30. *)
Lemma nextPow2_spec n :
  (1 ≤ n ≤ 2 ^ 30)%Z → (n ≤ nextPow2 n < 2 * n)%Z ∧ ∃ k, (0 ≤ k)%Z ∧ nextPow2 n = (2 ^ k)%Z.
Proof.
  intros Hn. unfold nextPow2. destruct (Z.leb_spec n 1).
  { replace n with 1%Z by lia. split; [lia|]. by exists 0%Z. }
  unfold bits_Len. rewrite (proj2 (Z.eqb_neq _ _)) by lia. rewrite Z.shiftl_mul_pow2 by (pose proof (Z.log2_nonneg (n - 1)); lia).
  destruct (Z.log2_spec (n - 1)) as [Hlo Hhi]; [lia|]. rewrite <-Z.add_1_r in Hhi. pose proof (Z.log2_nonneg (n - 1)).
  rewrite Z.pow_add_r in * by lia.
  rewrite wrap_small by (unfold min_int, max_int; change (2 ^ 1)%Z with 2%Z in *; lia). split; [lia|].
  exists (Z.log2 (n - 1) + 1)%Z. split; [lia|]. rewrite Z.pow_add_r by lia. lia.
Qed.
Example nextPow2_overflow : nextPow2 (2 ^ 30 + 1) = (- 2 ^ 31)%Z.
Proof. vm_compute. reflexivity. Qed.
