(* ===== verification/ClusterObjects.v ===== *)
(** * Objects of a cluster

    The objects that the cluster controller renders: [internal/render/login], [controller], [rest], [accounting], [populate_jail],
    [sconfigcontroller], [exporter], and [secret.go] and [apparmorprofile.go] of [internal/render/common].  Pods (containers, volumes
    and volume claims) and random keys are parameters ([ClusterPods.v] has the pods); the look-ups of node filters and of the jail's volume source, which
    fail or panic, are here. *)
From S2P Require Import Prelude GoStrings Naming Effects Reconciler Patchers ConfigTexts Workers ClusterValues SlurmConfigs.
From Stdlib Require Import Ascii.
From Stdlib Require String.

(** What the rendering gets from elsewhere. *)
Class Rendering := {
  (** [crypto/rand] and the password generator. *)
  generateRandBytes : outcome string;
  collectSshdKeyPairsData : outcome (gmap string string);
  generatePassword : outcome string;
  jwt_GenerateSigningKey : outcome string;
  (** The pods, from the values and the node filter found: the spec of the pod and the volume claim templates. *)
  pod_login : values_SlurmCluster → fields → outcome (fields * option value);
  pod_controller : values_SlurmCluster → fields → outcome (fields * option value);
  pod_rest : values_SlurmCluster → fields → fields;
  pod_accounting : values_SlurmCluster → fields → fields;
  pod_sconfig : values_SlurmCluster → string → fields → fields;
  pod_exporter : values_SlurmCluster → fields → fields;
  pod_populateJail : values_SlurmCluster → fields → outcome fields;
  body_mariaDb : values_SlurmCluster → fields → fields;
  (** The relabelings that are passed on to Prometheus. *)
  relabel_podMonitor : fields → fields }.

Definition DefaultContainer (name : string) : gmap string string := {["kubectl.kubernetes.io/default-container" := name]}.
(** An object with a pod template: its annotations are separate. *)
Definition workload (k : kind) (namespace name : string) (labels template : gmap string string) (body : fields) : resource :=
  Obj (k, namespace, name) 0 None labels ∅ template body ∅.
Definition selected (p : path) (labels : gmap string string) (body : list (path * value)) : fields := list_to_map body ∪ at_path p labels.
Definition service_port (name protocol : string) (port : Z) (target : string) (nodePort : Z) : list (string * string) :=
  (if String.eqb name "" then [] else [("name", name)]) ++
  [("protocol", protocol); ("port", Itoa port); ("targetPort", target)] ++
  (if (nodePort =? 0)%Z then [] else [("nodePort", Itoa nodePort)]).
Definition replicas_under (maintenance : option string) (n : Z) : Z := if IsMaintenanceActive maintenance then 0 else n.
Definition option_field (p : path) (v : option value) : list (path * value) := match v with Some v => [(p, v)] | None => [] end.

(** ** Login *)
Definition generateSshRootPublicKeysConfig (c : values_SlurmCluster) : ConfigFile :=
  MultilineStringConfig (default [] (lg_SSHRootPublicKeys (sc_NodeLogin c))).
Definition RenderSshRootPublicKeysConfig (c : values_SlurmCluster) : resource :=
  new_ConfigMap (sc_Namespace c) (BuildConfigMapSshRootPublicKeysName (sc_Name c)) (RenderLabels ComponentTypeLogin (sc_Name c))
    "authorized_keys" (Render (generateSshRootPublicKeysConfig c)).
(** The text is the one of the workers' file. *)
Definition login_RenderConfigMapSSHDConfigs (c : values_SlurmCluster) (t : ComponentType) : resource :=
  new_ConfigMap (sc_Namespace c) (BuildConfigMapSSHDConfigsNameLogin (sc_Name c)) (RenderLabels t (sc_Name c)) "sshd_config"
    (Render (generateSshdConfig (ct_Port (lg_ContainerSshd (sc_NodeLogin c))) (bool_decide (is_Some (lg_ContainerSSSD (sc_NodeLogin c)))))).
(** The derived quantity is a whole number of bytes. *)
Definition deriveLoginUserIsolationMemory (containerMemory percent : Z) : option Z :=
  if (containerMemory <=? 0)%Z then None else Some (wrap 64 (Quantity_Value containerMemory * percent) `quot` 100 * nano)%Z.
Definition field_optint (b : fields) (p : path) : option Z := match b !! p with Some (VInt z) => Some z | _ => None end.
Definition ResolveLoginUserIsolationMemoryLimits (isolation : fields) (containerMemory : Z) : option Z * option Z :=
  (match field_optint isolation ["memoryHigh"] with Some m => Some m | None => deriveLoginUserIsolationMemory containerMemory 80 end,
   match field_optint isolation ["memoryMax"] with Some m => Some m | None => deriveLoginUserIsolationMemory containerMemory 90 end).
Definition isolationEnabled (l : SlurmLogin) : bool :=
  match lg_UserIsolation l with Some i => bool_at i ["enabled"] | None => false end.
Definition generateUserIsolationConfig (c : values_SlurmCluster) : ConfigFile :=
  let l := sc_NodeLogin c in
  let i := default ∅ (lg_UserIsolation l) in
  let '(memoryHigh, memoryMax) :=
    ResolveLoginUserIsolationMemoryLimits i (field_int (ct_spec (lg_ContainerSshd l)) ["resources"; "memory"]) in
  let weight := field_int i ["cpuWeight"] in
  let p x := "SOPERATOR_USER_ISOLATION_" +:+ x in
  PropertiesConfig
    ([comment " Managed by soperator. Consumed by sshd_entrypoint.sh and the PAM session hook.";
      comment " Memory values are in bytes (cgroup v2 memory.high / memory.max)."] ++
     if negb (isolationEnabled l) then [property (p "ENABLED") "false"]
     else [property (p "ENABLED") "true"] ++ option_list (int_property (p "MEMORY_HIGH") ∘ Quantity_Value <$> memoryHigh) ++
          option_list (int_property (p "MEMORY_MAX") ∘ Quantity_Value <$> memoryMax) ++
          [int_property (p "CPU_WEIGHT") (if (weight =? 0)%Z then 100 else weight)]).
Definition RenderConfigMapUserIsolation (c : values_SlurmCluster) : resource :=
  new_ConfigMap (sc_Namespace c) (BuildConfigMapUserIsolationName (sc_Name c)) (RenderLabels ComponentTypeLogin (sc_Name c))
    "user-isolation.conf" (Render (generateUserIsolationConfig c)).
Definition login_RenderService (c : values_SlurmCluster) : resource :=
  let l := sc_NodeLogin c in
  let s := lg_Service l in
  let nodePort := if String.eqb (svc_Type s) "NodePort" then svc_NodePort s else 0%Z in
  new Service (sc_Namespace c) (svc_Name s) (RenderLabels ComponentTypeLogin (sc_Name c)) (svc_Annotations s)
    (selected ["spec"; "selector"] (RenderMatchLabels ComponentTypeLogin (sc_Name c))
       ([(["spec"; "type"], VStr (svc_Type s));
         (["spec"; "ports"], VRows [service_port "" (svc_Protocol s) (ct_Port (lg_ContainerSshd l)) (ct_Name (lg_ContainerSshd l)) nodePort])] ++
        (if String.eqb (svc_Type s) "LoadBalancer" then
           (if String.eqb (svc_LoadBalancerIP s) "" then [] else [(["spec"; "loadBalancerIP"], VStr (svc_LoadBalancerIP s))]) ++
           match svc_LoadBalancerSourceRanges s with [] => [] | r => [(["spec"; "loadBalancerSourceRanges"], VStrs r)] end
         else []))).
Definition RenderHeadlessService (c : values_SlurmCluster) : resource :=
  let l := sc_NodeLogin c in
  new Service (sc_Namespace c) (svc_Name (lg_HeadlessService l)) (RenderLabels ComponentTypeLogin (sc_Name c)) ∅
    (selected ["spec"; "selector"] (RenderMatchLabels ComponentTypeLogin (sc_Name c))
       [(["spec"; "type"], VStr "ClusterIP"); (["spec"; "clusterIP"], VStr "None");
        (["spec"; "ports"],
         VRows [service_port "" (svc_Protocol (lg_HeadlessService l)) (ct_Port (lg_ContainerSshd l)) (ct_Name (lg_ContainerSshd l)) 0])]).

Section rendering.
  Context `{Rendering}.
Definition login_RenderStatefulSet (c : values_SlurmCluster) : outcome resource :=
  let l := sc_NodeLogin c in
  let labels := RenderLabels ComponentTypeLogin (sc_Name c) in
  let? nodeFilter := MustGetBy filter_name (sc_NodeFilters c) (lg_K8sNodeFilterName l) in
  let? (pod, claims) := wrap_err "rendering volumes and claim template specs" (pod_login c nodeFilter) in
  Ok (workload AdvancedStatefulSet (sc_Namespace c) (sts_Name (lg_StatefulSet l)) labels (DefaultContainer "sshd")
        (list_to_map
           ([(["spec"; "podManagementPolicy"], VStr "Parallel"); (["spec"; "serviceName"], VStr (svc_Name (lg_HeadlessService l)));
             (["spec"; "replicas"], VInt (replicas_under (lg_Maintenance l) (sts_Replicas (lg_StatefulSet l))));
             (["spec"; "updateStrategy"; "type"], VStr "RollingUpdate");
             (["spec"; "updateStrategy"; "rollingUpdate"; "maxUnavailable"], sts_MaxUnavailable (lg_StatefulSet l));
             (["spec"; "updateStrategy"; "rollingUpdate"; "podUpdatePolicy"], VStr "ReCreate");
             (["spec"; "updateStrategy"; "rollingUpdate"; "partition"], VInt 0);
             (["spec"; "updateStrategy"; "rollingUpdate"; "minReadySeconds"], VInt 0);
             (["spec"; "volumeClaimUpdateStrategy"; "type"], VStr "OnPodRollingUpdate")] ++
            option_field ["spec"; "volumeClaimTemplates"] claims) ∪
         at_path ["spec"; "selector"; "matchLabels"] (RenderMatchLabels ComponentTypeLogin (sc_Name c)) ∪
         at_path ["spec"; "template"; "metadata"; "labels"] labels ∪ below ["spec"; "template"; "spec"] pod)).

(** ** Controller *)
Definition LabelControllerType : string := "slurm.nebius.ai/controller-type".
Definition controller_RenderService (c : values_SlurmCluster) : resource :=
  let t := sc_NodeController c in
  let s := ctl_Service t in
  new Service (sc_Namespace c) (svc_Name s) (RenderLabels ComponentTypeController (sc_Name c)) ∅
    (selected ["spec"; "selector"] (<[LabelControllerType := "main"]> (RenderMatchLabels ComponentTypeController (sc_Name c)))
       [(["spec"; "type"], VStr (svc_Type s));
        (["spec"; "ports"],
         VRows [service_port (ct_Name (ctl_ContainerSlurmctld t)) (svc_Protocol s) (ct_Port (ctl_ContainerSlurmctld t))
                  (ct_Name (ctl_ContainerSlurmctld t)) 0])]).
Definition ServiceMonitorName (cluster : string) : string := cluster +:+ "-slurmctld-metrics".
Definition allNativeMetricsEndpoints : list string := ["jobs"; "jobs-users-accts"; "nodes"; "partitions"; "scheduler"].
Definition RenderServiceMonitor (c : values_SlurmCluster) : resource :=
  let cfg := subtree ["openMetrics"; "serviceMonitor"] (ctl_spec (sc_NodeController c)) in
  let chosen := match field_strs cfg ["endpoints"] with [] => allNativeMetricsEndpoints | l => l end in
  let endpoint e := [("port", ct_Name (ctl_ContainerSlurmctld (sc_NodeController c))); ("path", "/metrics/" +:+ e); ("scheme", "http");
                     ("interval", field_str cfg ["interval"]); ("scrapeTimeout", field_str cfg ["scrapeTimeout"]);
                     ("metricRelabelings", "labeldrop pod|instance|container")] in
  new ServiceMonitor (sc_Namespace c) (ServiceMonitorName (sc_Name c)) (RenderLabels ComponentTypeController (sc_Name c)) ∅
    (selected ["spec"; "selector"; "matchLabels"] (RenderMatchLabels ComponentTypeController (sc_Name c))
       [(["spec"; "namespaceSelector"; "matchNames"], VStrs [sc_Namespace c]); (["spec"; "endpoints"], VRows (endpoint <$> chosen))]).
Definition controller_RenderStatefulSet (c : values_SlurmCluster) : outcome resource :=
  let t := sc_NodeController c in
  let labels := <[LabelControllerType := "main"]> (RenderLabels ComponentTypeController (sc_Name c)) in
  let? nodeFilter := MustGetBy filter_name (sc_NodeFilters c) (ctl_K8sNodeFilterName t) in
  let? (pod, claims) := wrap_err "rendering volumes and claim template specs" (pod_controller c nodeFilter) in
  Ok (workload AdvancedStatefulSet (sc_Namespace c) (sts_Name (ctl_StatefulSet t)) labels (DefaultContainer "slurmctld")
        (list_to_map
           ([(["spec"; "podManagementPolicy"], VStr "Parallel"); (["spec"; "serviceName"], VStr (svc_Name (ctl_Service t)));
             (["spec"; "replicas"], VInt (replicas_under (ctl_Maintenance t) 1)); (["spec"; "updateStrategy"; "type"], VStr "RollingUpdate");
             (["spec"; "updateStrategy"; "rollingUpdate"; "podUpdatePolicy"], VStr "InPlaceIfPossible");
             (["spec"; "volumeClaimUpdateStrategy"; "type"], VStr "OnPodRollingUpdate")] ++
            option_field ["spec"; "volumeClaimTemplates"] claims) ∪
         at_path ["spec"; "selector"; "matchLabels"]
           (<[LabelControllerType := "main"]> (RenderMatchLabels ComponentTypeController (sc_Name c))) ∪
         at_path ["spec"; "template"; "metadata"; "labels"] labels ∪ below ["spec"; "template"; "spec"] pod)).

(** ** Deployments *)
Definition deployment (c : values_SlurmCluster) (t : ComponentType) (name : string) (replicas : Z) (strategy : string)
    (template : gmap string string) (pod : fields) : resource :=
  let matchLabels := RenderMatchLabels t (sc_Name c) in
  workload Deployment (sc_Namespace c) name (RenderLabels t (sc_Name c)) template
    (list_to_map [(["spec"; "replicas"], VInt replicas); (["spec"; "strategy"; "type"], VStr strategy)] ∪
     at_path ["spec"; "selector"; "matchLabels"] matchLabels ∪ at_path ["spec"; "template"; "metadata"; "labels"] matchLabels ∪
     below ["spec"; "template"; "spec"] pod).
Definition jail_source (c : values_SlurmCluster) : outcome fields := MustGetBy filter_name (sc_VolumeSources c) VolumeNameJail.
Definition RenderDeploymentREST (c : values_SlurmCluster) : outcome resource :=
  let r := sc_NodeRest c in
  let? _ := ensure (rest_Enabled r) "REST API is not enabled" in
  let? _ := ensure (negb (String.eqb (ct_Image (rest_ContainerREST r)) "")) "image for ContainerREST is empty" in
  let? _ := jail_source c in
  let? nodeFilter := GetBy filter_name (sc_NodeFilters c) (rest_K8sNodeFilterName r) in
  Ok (deployment c ComponentTypeREST (dep_name (rest_Deployment r)) (replicas_under (rest_Maintenance r) (rest_Size r)) "Recreate"
        (DefaultContainer "slurmrestd") (pod_rest c nodeFilter)).
Definition rest_RenderService (c : values_SlurmCluster) : resource :=
  let r := sc_NodeRest c in
  let s := rest_Service r in
  new Service (sc_Namespace c) (svc_Name s) (RenderLabels ComponentTypeREST (sc_Name c)) ∅
    (selected ["spec"; "selector"] (RenderMatchLabels ComponentTypeREST (sc_Name c))
       [(["spec"; "type"], VStr (svc_Type s));
        (["spec"; "ports"], VRows [service_port "" (svc_Protocol s) (ct_Port (rest_ContainerREST r)) (ct_Name (rest_ContainerREST r)) 0])]).
Definition GetServiceURL (c : values_SlurmCluster) : string :=
  let r := sc_NodeRest c in
  "http://" +:+ svc_Name (rest_Service r) +:+ "." +:+ sc_Namespace c +:+ ".svc:" +:+ Itoa (ct_Port (rest_ContainerREST r)).
Definition accounting_RenderDeployment (c : values_SlurmCluster) : outcome resource :=
  let a := sc_NodeAccounting c in
  let? _ := jail_source c in
  let? nodeFilter := GetBy filter_name (sc_NodeFilters c) (acc_K8sNodeFilterName a) in
  Ok (deployment c ComponentTypeAccounting (dep_name (acc_Deployment a)) (replicas_under (acc_Maintenance a) (dep_Replicas (acc_Deployment a)))
        "Recreate" (DefaultContainer "accounting") (pod_accounting c nodeFilter)).
Definition sconfig_RenderDeployment (c : values_SlurmCluster) : outcome resource :=
  let s := sc_SConfigController c in
  let? _ := jail_source c in
  let? nodeFilter := GetBy filter_name (sc_NodeFilters c) (scc_K8sNodeFilterName s) in
  Ok (deployment c ComponentTypeSConfigController (dep_name (scc_Deployment s)) (replicas_under (Some (scc_Maintenance s)) (scc_Size s))
        "RollingUpdate" (DefaultContainer "sconfigctrl") (pod_sconfig c (GetServiceURL c) nodeFilter)).
(** A missing filter is an empty one. *)
Definition RenderDeploymentExporter (c : values_SlurmCluster) : outcome resource :=
  let e := sc_SlurmExporter c in
  let? _ := ensure (negb (String.eqb (field_str (exp_Container e) ["image"]) "")) "image for ExporterContainer is empty" in
  let nodeFilter := match GetBy filter_name (sc_NodeFilters c) (exp_K8sNodeFilterName e) with Ok f => f | _ => ∅ end in
  Ok (deployment c ComponentTypeExporter (dep_name (exp_Deployment e)) (replicas_under (exp_Maintenance e) 1) "Recreate" ∅
        (pod_exporter c nodeFilter)).
Definition RenderPodMonitor (c : values_SlurmCluster) : resource :=
  let cfg := subtree ["podMonitorConfig"] (exp_spec (sc_SlurmExporter c)) in
  let endpoint port := [("interval", field_str cfg ["interval"]); ("scrapeTimeout", field_str cfg ["scrapeTimeout"]); ("path", "/metrics");
                        ("port", port); ("scheme", "http")] in
  new PodMonitor (sc_Namespace c) (sc_Name c) {[LabelNameKey := "slurm-exporter"]} ∅
    (selected ["spec"; "selector"; "matchLabels"] {[LabelComponentKey := "exporter"]}
       [(["spec"; "jobLabel"], VStr (field_str cfg ["jobLabel"]));
        (["spec"; "podMetricsEndpoints"], VRows [endpoint "metrics"; endpoint "monitoring"])] ∪
     below ["spec"; "relabelings"] (relabel_podMonitor cfg)).

(** ** The populate-jail Job *)
Definition RenderPopulateJailJob (c : values_SlurmCluster) : outcome resource :=
  let j := sc_PopulateJail c in
  let labels := RenderLabels ComponentTypePopulateJail (sc_Name c) in
  let? nodeFilter := MustGetBy filter_name (sc_NodeFilters c) (pj_K8sNodeFilterName j) in
  let? _ := jail_source c in
  let? pod := pod_populateJail c nodeFilter in
  Ok (workload BatchJob (sc_Namespace c) (pj_Name j) labels (DefaultContainer "populate-jail")
        (list_to_map [(["spec"; "parallelism"], VInt 1); (["spec"; "completions"], VInt 1)] ∪
         at_path ["spec"; "template"; "metadata"; "labels"] labels ∪ below ["spec"; "template"; "spec"] pod)).

(** ** Secrets *)
Definition new_Secret (namespace name : string) (labels annotations : gmap string string) (data : gmap string string) : resource :=
  new Secret namespace name labels annotations (at_path ["data"] data).
Definition rest_RenderSecret (c : values_SlurmCluster) : outcome resource :=
  let? key := jwt_GenerateSigningKey in
  Ok (new_Secret (sc_Namespace c) (BuildSecretSlurmRESTSecretName (sc_Name c)) (RenderLabels ComponentTypeREST (sc_Name c)) ∅
        {["rest_jwt.key" := key]}).
Definition RenderMungeKeySecret (c : values_SlurmCluster) : outcome resource :=
  let? key := wrap_err "error generating munge key" generateRandBytes in
  Ok (new_Secret (sc_Namespace c) (BuildSecretMungeKeyName (sc_Name c)) (RenderLabels ComponentTypeCommon (sc_Name c)) ∅
        {["munge.key" := key]}).
Definition RenderSSHDKeysSecret (c : values_SlurmCluster) (t : ComponentType) : outcome resource :=
  let? data := wrap_err "error collecting SSHD key pairs" collectSshdKeyPairsData in
  Ok (new_Secret (sc_Namespace c) (sc_SshdKeysName c) (RenderLabels t (sc_Name c)) ∅ data).
Definition RenderSecretMariaDb (c : values_SlurmCluster) (secretName : string) : outcome resource :=
  let? password := wrap_err "error generating password Secret" generatePassword in
  Ok (new_Secret (sc_Namespace c) secretName
        (<[LabelNameKey := LabelNameValue]> {["slurm.nebius.ai/webhook" := "true"]}) {["slurm.nebius.ai/cluster" := sc_Name c]}
        {["password" := password]}).
(** The data of a Secret, by key. *)
Definition secret_data (s : resource) : gmap string string := strings_at (o_body s) ["data"].
Definition checkPasswordSecret (a : SlurmAccounting) (secret : resource) : outcome string :=
  let data := secret_data secret in
  let? _ := ensure (negb (bool_decide (data = ∅))) "secret data is empty" in
  let? password :=
    if xdb_Enabled (acc_ExternalDB a) then
      let? _ := ensure (negb (String.eqb (xdb_User (acc_ExternalDB a)) "")) "external DB user is empty" in
      let? _ := ensure (negb (String.eqb (xdb_Host (acc_ExternalDB a)) "")) "external DB host is empty" in
      match data !! xdb_PasswordSecretKey (acc_ExternalDB a) with
      | Some p => Ok p
      | None => Err (ErrMsg "secret data does not contain password key")
      end
    else if acc_MariaDbEnabled a then
      match data !! "password" with Some p => Ok p | None => Err (ErrMsg "secret data does not contain password key") end
    else Ok "" in
  let? _ := ensure (negb (String.eqb password "")) "password is empty" in
  Ok password.
Definition generateSlurmdbdConfigStorageParameters (a : SlurmAccounting) : string :=
  let x := acc_ExternalDB a in
  let ca : gmap string string :=
    if String.eqb (xdb_ServerCASecretRef x) "" then ∅ else {["SSL_CA" := "/mnt/slurmdbd-ssl-ca-cert/ca.crt"]} in
  let cert : gmap string string :=
    if String.eqb (xdb_ClientCertSecretRef x) "" then ∅
    else <["SSL_CERT" := "/mnt/slurmdbd-ssl-client-key/tls.crt"]> {["SSL_KEY" := "/mnt/slurmdbd-ssl-client-key/tls.key"]} in
  Join (merge_sort String.le ((λ kv, kv.1 +:+ "=" +:+ kv.2) <$> map_to_list (cert ∪ (ca ∪ xdb_StorageParameters x)))) ",".
Definition storage_port (a : SlurmAccounting) : Z :=
  let port := if acc_MariaDbEnabled a then acc_MariaDbPort a else xdb_Port (acc_ExternalDB a) in if (port =? 0)%Z then 3306 else port.
Definition slurmdbd_fields : list (string * string) :=
  [("ArchiveEvents", "archiveEvents"); ("ArchiveJobs", "archiveJobs"); ("ArchiveResvs", "archiveResvs"); ("ArchiveSteps", "archiveSteps");
   ("ArchiveSuspend", "archiveSuspend"); ("ArchiveTXN", "archiveTXN"); ("ArchiveUsage", "archiveUsage"); ("DebugLevel", "debugLevel")].
Definition slurmdbd_purges : list (string * string) :=
  [("PurgeEventAfter", "purgeEventAfter"); ("PurgeJobAfter", "purgeJobAfter"); ("PurgeResvAfter", "purgeResvAfter");
   ("PurgeStepAfter", "purgeStepAfter"); ("PurgeSuspendAfter", "purgeSuspendAfter"); ("PurgeTXNAfter", "purgeTXNAfter");
   ("PurgeUsageAfter", "purgeUsageAfter")].
Definition generateSlurmdbdConfig (cluster : string) (a : SlurmAccounting) (password : string) (isRestEnabled : bool) : ConfigFile :=
  let b := acc_SlurmdbdConfig a in
  let text '(key, json) := property key (field_str b [json]) in
  let optional key json := let s := field_str b [json] in if String.eqb s "" then [] else [property key s] in
  PropertiesConfig
    ([property "AuthType" "auth/munge"; property "SlurmUser" "root"; property "LogFile" "/dev/null"; property "PidFile" "/var/run/slurmdbd.pid";
      property "DbdHost" "accounting"; int_property "DbdPort" DefaultAccountingPort; property "StorageLoc" "slurm_acct_db";
      property "StorageType" "accounting_storage/mysql"] ++
     (if String.eqb password "" then [] else [property "StoragePass" password]) ++
     (if acc_MariaDbEnabled a then [property "StorageUser" "slurm"; property "StorageHost" (BuildMariaDbName cluster)]
      else [property "StorageUser" (xdb_User (acc_ExternalDB a)); property "StorageHost" (xdb_Host (acc_ExternalDB a))] ++
           (let p := generateSlurmdbdConfigStorageParameters a in if String.eqb p "" then [] else [property "StorageParameters" p])) ++
     [int_property "StoragePort" (storage_port a)] ++
     (if isRestEnabled then
        [comment ""; comment "REST API settings"; property "AuthAltTypes" "auth/jwt";
         property "AuthAltParameters" "jwt_key=/var/spool/slurmdbd/jwt_hs256.key"]
      else []) ++
     (text <$> slurmdbd_fields) ++ [int_property "TCPTimeout" (field_int b ["tcpTimeout"])] ++ (text <$> slurmdbd_purges) ++
     optional "PrivateData" "privateData" ++ optional "DebugFlags" "debugFlags").
Definition accounting_RenderSecret (c : values_SlurmCluster) (passwordSecret : option resource) : outcome resource :=
  let a := sc_NodeAccounting c in
  let? password := match passwordSecret with Some s => checkPasswordSecret a s | None => Ok "" end in
  Ok (new_Secret (sc_Namespace c) (BuildSecretSlurmdbdConfigsName (sc_Name c)) (RenderLabels ComponentTypeAccounting (sc_Name c)) ∅
        (list_to_map
           [("slurmdbd.conf",
             Render (WithManagedSlurmConfigWarning (generateSlurmdbdConfig (sc_Name c) a password (rest_Enabled (sc_NodeRest c)))));
            ("storageHost", if acc_MariaDbEnabled a then BuildMariaDbName (sc_Name c) else xdb_Host (acc_ExternalDB a));
            ("storagePort", Itoa (storage_port a));
            ("storageUser", if acc_MariaDbEnabled a then "slurm" else xdb_User (acc_ExternalDB a)); ("storagePass", password)])).

(** ** Accounting *)
Definition accounting_RenderService (c : values_SlurmCluster) : resource :=
  let a := sc_NodeAccounting c in
  let s := acc_Service a in
  new Service (sc_Namespace c) (svc_Name s) (RenderLabels ComponentTypeAccounting (sc_Name c)) ∅
    (selected ["spec"; "selector"] (RenderMatchLabels ComponentTypeAccounting (sc_Name c))
       [(["spec"; "type"], VStr (svc_Type s));
        (["spec"; "ports"],
         VRows [service_port "" (svc_Protocol s) (ct_Port (acc_ContainerAccounting a)) (ct_Name (acc_ContainerAccounting a)) 0])]).
(** The intervals are [metav1.Duration]s: nanoseconds. *)
Definition RenderMariaDbGrant (c : values_SlurmCluster) : outcome resource :=
  let? _ := ensure (acc_MariaDbEnabled (sc_NodeAccounting c)) "MariaDb is not enabled" in
  let name := BuildMariaDbName (sc_Name c) in
  Ok (new Grant (sc_Namespace c) name (RenderLabels ComponentTypeMariaDbOperator (sc_Name c)) ∅
        (list_to_map
           [(["spec"; "mariaDbRef"; "waitForIt"], VBool true); (["spec"; "mariaDbRef"; "name"], VStr name);
            (["spec"; "mariaDbRef"; "namespace"], VStr (sc_Namespace c)); (["spec"; "privileges"], VStrs ["ALL PRIVILEGES"]);
            (["spec"; "database"], VStr "slurm_acct_db"); (["spec"; "username"], VStr "slurm"); (["spec"; "table"], VStr "slurm_acct_db.*");
            (["spec"; "grantOption"], VBool true); (["spec"; "host"], VStr "%"); (["spec"; "requeueInterval"], VInt 30);
            (["spec"; "retryInterval"], VInt 5)])).
Definition deriveMariaDbBufferPoolSizeMi (memory : Z) : Z :=
  if (memory <=? 0)%Z then 32768
  else let derived := ((wrap 64 (Quantity_Value memory * 50) `quot` 100) `quot` 1048576)%Z in if (derived <=? 0)%Z then 32768 else derived.
Definition getMariaDbConfig (b : fields) : Z * Z * bool :=
  let port := field_int b ["port"] in
  let replicas := field_int b ["replicas"] in
  let replicas := if (replicas =? 0)%Z then 1%Z else replicas in
  ((if (port =? 0)%Z then 3306%Z else port), replicas, (1 <? replicas)%Z).
Definition generated_ref (p : string) (secretName : string) (generate : bool) : list (path * value) :=
  [(["spec"; p; "name"], VStr secretName); (["spec"; p; "key"], VStr "password"); (["spec"; p; "generate"], VBool generate)].
Definition RenderMariaDb (c : values_SlurmCluster) : outcome resource :=
  let a := sc_NodeAccounting c in
  let b := subtree ["mariadbOperator"] (acc_spec a) in
  let? _ := ensure (acc_MariaDbEnabled a) "MariaDb is not enabled" in
  let '(port, replicas, antiAffinity) := getMariaDbConfig b in
  let? nodeFilter := GetBy filter_name (sc_NodeFilters c) (acc_K8sNodeFilterName a) in
  let generate := negb (acc_MariaDbProtectedSecret a) in
  Ok (new MariaDB (sc_Namespace c) (BuildMariaDbName (sc_Name c)) (RenderLabels ComponentTypeMariaDbOperator (sc_Name c)) ∅
        (list_to_map
           ([(["spec"; "image"], VStr (field_str b ["image"])); (["spec"; "replicas"], VInt (replicas_under (acc_Maintenance a) replicas));
             (["spec"; "port"], VInt port); (["spec"; "database"], VStr "slurm_acct_db"); (["spec"; "username"], VStr "slurm");
             (["spec"; "rootEmptyPassword"], VBool false); (["spec"; "service"; "type"], VStr "ClusterIP");
             (["spec"; "affinity"; "antiAffinityEnabled"], VBool antiAffinity);
             (["spec"; "metrics"; "enabled"], VBool (bool_at b ["metrics"; "enabled"]));
             (["spec"; "myCnf"],
              VStr (Join ["[mariadb]"; "bind-address=*"; "default_storage_engine=InnoDB"; "innodb_default_row_format=DYNAMIC";
                          "innodb_buffer_pool_size=" +:+ Itoa (deriveMariaDbBufferPoolSizeMi (field_int b ["resources"; "memory"])) +:+ "M";
                          "innodb_log_file_size=64M"; "innodb_lock_wait_timeout=900"; "max_allowed_packet=16M"] newline))] ++
            generated_ref "passwordSecretKeyRef" "mariadb-password" generate ++
            generated_ref "rootPasswordSecretKeyRef" "mariadb-root" generate) ∪
         body_mariaDb c nodeFilter)).
End rendering.

(** ** AppArmor *)
Definition generateAppArmorPolicy (cluster namespace : string) : string :=
  Join
    ["#include <tunables/global>"; "";
     "profile " +:+ BuildAppArmorProfileName cluster namespace +:+ " flags=(attach_disconnected,mediate_deleted) {";
     "  include <abstractions/base>"; ""; "  file,"; "  mount,"; "  capability,"; "  network,"; "  dbus,"; "  pivot_root,";
     "  remount,"; "  ptrace,"; "  signal,"; "  umount,"; "  unix,"; ""; "  /** lrixw,"; "";
     "  deny /usr/lib/x86_64-linux-gnu/libGLES* w,"; "  deny /usr/lib/x86_64-linux-gnu/libGLX_nvidia* w,";
     "  deny /usr/lib/x86_64-linux-gnu/libnvcuvid* w,"; "  deny /usr/lib/x86_64-linux-gnu/gbm/nvidia-* w,";
     "  deny /usr/lib/x86_64-linux-gnu/nvidia/wine/_nvngx.dll w,"; "  deny /usr/lib/x86_64-linux-gnu/nvidia/wine/nvngx.dll w,";
     "  deny /usr/lib/x86_64-linux-gnu/nvidia/xorg/libglxserver_nvidia* w,";
     "  deny /usr/lib/x86_64-linux-gnu/nvidia/xorg/nvidia_drv.so w,"; "  deny /usr/lib/x86_64-linux-gnu/vdpau/libvdpau_nvidia w,";
     "  deny /usr/lib/x86_64-linux-gnu/libnvidia-*.so.[0-9][0-9][0-9].[0-9][0-9].[0-9]* w,";
     "  deny /usr/lib/x86_64-linux-gnu/libcuda.so.[0-9][0-9][0-9].[0-9][0-9].[0-9]* w,";
     "  deny /usr/lib/x86_64-linux-gnu/libcudadebugger.so.[0-9][0-9][0-9].[0-9][0-9].[0-9]* w,"; "";
     "  deny /lib/x86_64-linux-gnu/libnvidia-*.so.[0-9][0-9][0-9].[0-9][0-9].[0-9]* w,";
     "  deny /usr/local/lib/x86_64-linux-gnu/libcuda.so.[0-9][0-9][0-9].[0-9][0-9].[0-9]* w,";
     "  deny /lib/x86_64-linux-gnu/libcudadebugger.so.[0-9][0-9][0-9].[0-9][0-9].[0-9]* w,"; "";
     "  deny /usr/local/lib/x86_64-linux-gnu/libnvidia-*.so.[0-9][0-9][0-9].[0-9][0-9].[0-9]* w,";
     "  deny /usr/local/lib/x86_64-linux-gnu/libcuda.so.[0-9][0-9][0-9].[0-9][0-9].[0-9]* w,";
     "  deny /usr/local/lib/x86_64-linux-gnu/libcudadebugger.so.[0-9][0-9][0-9].[0-9][0-9].[0-9]* w,"; "";
     "  deny /usr/local/nvidia/lib/x86_64-linux-gnu/libnvidia-*.so.[0-9][0-9][0-9].[0-9][0-9].[0-9]* w,";
     "  deny /usr/local/nvidia/lib/x86_64-linux-gnu/libcuda.so.[0-9][0-9][0-9].[0-9][0-9].[0-9]* w,";
     "  deny /usr/local/nvidia/lib/x86_64-linux-gnu/libcudadebugger.so.[0-9][0-9][0-9].[0-9][0-9].[0-9]* w,"; "";
     "  deny /usr/local/nvidia/lib64/libnvidia-*.so.[0-9][0-9][0-9].[0-9][0-9].[0-9]* w,";
     "  deny /usr/local/nvidia/lib64/libcuda.so.[0-9][0-9][0-9].[0-9][0-9].[0-9]* w,";
     "  deny /usr/local/nvidia/lib64/libcudadebugger.so.[0-9][0-9][0-9].[0-9][0-9].[0-9]* w,"; ""; "  deny /usr/bin/nvidia-smi w,";
     "  deny /usr/bin/nvidia-debugdump w,"; "  deny /usr/bin/nvidia-persistenced w,"; "  deny /usr/bin/nv-fabricmanager w,";
     "  deny /usr/bin/nvidia-cuda-mps-control w,"; "  deny /usr/bin/nvidia-cuda-mps-server w,";
     "  deny /lib/firmware/nvidia/**/gsp_*.bin w,"; "}"] newline.
Definition RenderAppArmorProfile (c : values_SlurmCluster) : resource :=
  new AppArmorProfile (sc_Namespace c) (BuildAppArmorProfileName (sc_Name c) (sc_Namespace c)) ∅ ∅
    {[["spec"; "policy"] := VStr (generateAppArmorPolicy (sc_Name c) (sc_Namespace c))]}.
