(* ===== verification/ClusterCtl.v ===== *)
(** * Cluster controller

    [internal/controller/clustercontroller]: [Reconcile] gets the SlurmCluster, fills in defaults, waits for the jail to be
    populated, reconciles seven groups of objects, validates four workloads, and writes conditions and phase to the status.
    [SetCondition] and [SetDefaults] are of [api/v1/slurmcluster_types.go].

    The code works on a pointer to the cluster that every status patch overwrites, so the state of a reconciliation is this object
    in memory with the API server. *)
From S2P Require Import Prelude GoStrings Kube Naming Effects MultiStep Reconciler Patchers Ownership ConfigTexts Workers.
From S2P Require Import ClusterValues NodeSetCtl SlurmConfigs ClusterObjects.
From Stdlib Require String.

Definition ConditionClusterCommonAvailable : string := "CommonAvailable".
Definition ConditionClusterControllersAvailable : string := "ControllersAvailable".
Definition ConditionClusterLoginAvailable : string := "LoginAvailable".
Definition ConditionClusterSConfigControllerAvailable : string := "SConfigControllerAvailable".
Definition ConditionClusterAccountingAvailable : string := "AccountingAvailable".
Definition ConditionClusterPopulateJailMode : string := "PopulateJailMode".
Definition ConditionClusterNodeSetRefsResolved : string := "NodeSetRefsResolved".
Definition PhaseClusterPending : string := "Pending".
Definition PhaseClusterNotAvailable : string := "Not available".
Definition PhaseClusterAvailable : string := "Available".

(** The custom resources of other operators that are installed ([internal/check]). *)
Record Installed := mkInstalled { inst_Prometheus : bool; inst_MariaDb : bool; inst_AppArmor : bool }.

(** ** The cluster in memory *)
Abbreviation in_memory := (resource * cluster_state)%type.
Definition the_cluster : M in_memory resource := gets fst.
(** The server's answer is decoded into the object in memory: a field that it does not have keeps its value. *)
Definition decode_into (mem answer : resource) : resource :=
  Obj (o_key answer) (o_resourceVersion answer) (o_controller answer) (o_labels answer ∪ o_labels mem)
    (o_annotations answer ∪ o_annotations mem) (o_template answer ∪ o_template mem) (o_body answer ∪ o_body mem)
    (o_status answer ∪ o_status mem).
(** The patcher changes the status in memory, and tells whether the server is to be told; it is not changed back when that
    fails. *)
Definition patch_memory (what : string) (patcher : fields → fields * bool) : M in_memory () := λ '(cluster, w),
  let '(status, needToPatch) := patcher (o_status cluster) in
  let mem := with_status status cluster in
  if negb needToPatch then ((mem, w), Ok tt)
  else
    match client_StatusPatch cluster mem w with
    | (w', Ok answer) => ((decode_into mem answer, w'), Ok tt)
    | (w', Err err) => ((mem, w'), Err (ErrWrap what err))
    | (w', Halt s) => ((mem, w'), Halt s)
    end.
Definition cluster_patchStatus : (fields → fields * bool) → M in_memory () := patch_memory "patching cluster status".

(** ** Assignments to the values *)
Definition with_NodeSets (nodeSets : list resource) (c : values_SlurmCluster) : values_SlurmCluster :=
  mkSlurmCluster
    (sc_Namespace c) (sc_Name c) (sc_CRVersion c) (sc_ClusterWithGPU c) (sc_PartitionConfiguration c)
    (sc_HealthCheckConfig c) (sc_PopulateJail c) (sc_NodeFilters c) (sc_VolumeSources c) (sc_SshdKeysName c)
    (sc_NodeController c) (sc_NodeAccounting c) (sc_NodeRest c) (sc_NodeLogin c) (sc_SlurmExporter c) (sc_SlurmConfig c)
    (sc_CustomSlurmConfig c) (sc_CustomCgroupConfig c) (sc_CgroupVersion c) (sc_PMIxEnv c) (sc_PlugStackConfig c)
    (sc_SConfigController c) nodeSets (sc_UseDefaultAppArmorProfile c).
Definition with_ClusterWithGPU (gpu : bool) (c : values_SlurmCluster) : values_SlurmCluster :=
  mkSlurmCluster
    (sc_Namespace c) (sc_Name c) (sc_CRVersion c) gpu (sc_PartitionConfiguration c) (sc_HealthCheckConfig c)
    (sc_PopulateJail c) (sc_NodeFilters c) (sc_VolumeSources c) (sc_SshdKeysName c) (sc_NodeController c)
    (sc_NodeAccounting c) (sc_NodeRest c) (sc_NodeLogin c) (sc_SlurmExporter c) (sc_SlurmConfig c)
    (sc_CustomSlurmConfig c) (sc_CustomCgroupConfig c) (sc_CgroupVersion c) (sc_PMIxEnv c) (sc_PlugStackConfig c)
    (sc_SConfigController c) (sc_NodeSets c) (sc_UseDefaultAppArmorProfile c).

(** ** Defaults *)
Definition default_field (p : path) (v : value) (b : fields) : fields := if has_field b p then b else <[p := v]> b.
Definition default_str (p : path) (s : string) (b : fields) : fields :=
  if String.eqb (field_str b p) "" then <[p := VStr s]> b else b.
Definition Pyxis_SetDefaults (b : fields) : fields :=
  let p := ["spec"; "plugStackConfig"; "pyxis"] in
  default_field (p ++ ["useSquashfuse"]) (VBool false) (default_field (p ++ ["required"]) (VBool true) b).
Definition NcclDebug_SetDefaults : fields → fields := default_field ["spec"; "plugStackConfig"; "ncclDebug"; "enabled"] (VBool false).
Definition NcclInspectorPreConf_SetDefaults (b : fields) : fields :=
  let p := ["spec"; "plugStackConfig"; "ncclInspectorPreConf"] in
  default_field (p ++ ["dumpVerbose"]) (VBool false)
    (default_field (p ++ ["enabled"]) (VBool true) (default_field (p ++ ["required"]) (VBool false) b)).
Definition SlurmExporter_SetDefaults (b : fields) : fields :=
  let p := ["spec"; "slurmNodes"; "exporter"] in
  let b := default_str (p ++ ["jobSource"]) "controller" (default_field (p ++ ["enabled"]) (VBool false) b) in
  let b := if (field_int b (p ++ ["maxCollectorInflight"]) =? 0)%Z then <[p ++ ["maxCollectorInflight"] := VInt 1]> b else b in
  default_str (p ++ ["accountingJobsLookback"]) "1h" b.
Definition cluster_defaults (b : fields) : fields :=
  SlurmExporter_SetDefaults (NcclInspectorPreConf_SetDefaults (NcclDebug_SetDefaults (Pyxis_SetDefaults b))).

(** ** Populating the jail ([populate_job.go]) *)
Definition populateJailRequeueDuration : Z := 10.
Definition Job_Succeeded (job : resource) : Z := field_int (o_status job) ["succeeded"].
Fixpoint isConditionNonOverwrite (conditions : list Condition) : bool :=
  match conditions with
  | [] => false
  | c :: conditions =>
      if String.eqb (c_Type c) ConditionClusterPopulateJailMode then negb (String.eqb (c_Reason c) "downscaleAndOverwritePopulateJail")
      else isConditionNonOverwrite conditions
  end.
Definition hasNonTerminalPods (pods : list resource) : bool :=
  existsb (λ pod, let phase := field_str (o_status pod) ["phase"] in negb (String.eqb phase "Succeeded") && negb (String.eqb phase "Failed"))
    pods.
(** [client.MatchingLabels]. *)
Definition pods_with (namespace : string) (labels : gmap string string) : M cluster_state (list resource) :=
  let! pods := client_List Pod namespace in
  ret (filter (λ pod, labels ⊆ o_labels pod) pods).
Definition hasNonTerminalLoginOrWorkerPods (namespace clusterName : string) : M cluster_state bool :=
  let! loginPods := wrapM "listing login pods"
    (pods_with namespace
       (<[LabelInstanceKey := clusterName]> {[LabelComponentKey := ComponentType_String ComponentTypeLogin]})) in
  if hasNonTerminalPods loginPods then ret true
  else
    let! workerPods := wrapM "listing worker pods"
      (pods_with namespace (<[LabelInstanceKey := clusterName]> {[LabelWorkerKey := "true"]})) in
    ret (hasNonTerminalPods workerPods).

Section controller.
  Context (marshal : gmap string string → string) (unmarshal : string → option (gmap string string)).
  Context `{StatusConditions} (now : Z) `{Rendering} (order : map_order) (inst : Installed).
  (** How often the populate-jail Job is polled before the context is cancelled. *)
  Context (polls : nat).
  Local Abbreviation recon := (Reconcile marshal unmarshal).

(** [wait.PollUntilContextCancel], the first poll at once. *)
Fixpoint wait_job (n : nat) (k : key) : M cluster_state () :=
  match n with
  | 0%nat => fail (ErrMsg "context canceled")
  | S n =>
      let! job := wrapM "getting Populate jail Job" (client_Get k) in
      if (0 <? Job_Succeeded job)%Z then ret tt else wait_job n k
  end.
(** What the step leaves in the two flags of the enclosing function. *)
Inductive jail_state := JailReady | JailNotReady | JailRequeue.
Definition jail_key (cv : values_SlurmCluster) : key := (BatchJob, sc_Namespace cv, pj_Name (sc_PopulateJail cv)).
Definition jail_step (cluster : resource) (cv : values_SlurmCluster) : M cluster_state jail_state :=
  let k := jail_key cv in
  let isMaintenanceStopMode := IsModeDownscaleAndDeletePopulate (pj_Maintenance (sc_PopulateJail cv)) in
  let isMaintenanceOverwriteMode := IsModeDownscaleAndOverwritePopulate (pj_Maintenance (sc_PopulateJail cv)) in
  let remove := wrapM "deleting Populate jail Job" (client_Delete k) in
  let! got := attempt (client_Get k) in
  match got with
  | inl job =>
      let unfinished := if (Job_Succeeded job =? 0)%Z then JailNotReady else JailReady in
      if isMaintenanceStopMode then do! remove; ret JailReady
      else if isMaintenanceOverwriteMode then
        do! (if isConditionNonOverwrite (Status_Conditions cluster) then remove else ret tt);
        ret unfinished
      else ret unfinished
  | inr err =>
      if negb (IsNotFound err) && negb isMaintenanceStopMode then fail (ErrWrap "getting Populate jail Job" err)
      else if isMaintenanceStopMode then ret JailReady
      else
        let! hasActivePods := wrapM "checking running login/worker pods"
                                (hasNonTerminalLoginOrWorkerPods (sc_Namespace cv) (sc_Name cv)) in
        if hasActivePods then ret (if isMaintenanceOverwriteMode then JailRequeue else JailReady)
        else
          let! desired := lift (RenderPopulateJailJob cv) in
          do! wrapM "reconciling Populate jail Job" (recon (o_uid cluster) desired []);
          do! wrapM "waiting Populate jail Job" (wait_job polls k);
          ret JailReady
  end.
(** The result and whether the rest of the reconciliation is to be skipped.  The job is the only step of a multi-step execution. *)
Definition ReconcilePopulateJail (cv : values_SlurmCluster) : M in_memory (RequeueAfter * bool) :=
  let! cluster := the_cluster in
  let! s := wrapM "reconciling Populate jail Job"
              (wrapM "failed to execute steps" (wrapM "multi-step execution failed at the first met error" (on_cluster (jail_step cluster cv)))) in
  ret (match s with
       | JailNotReady => (Some populateJailRequeueDuration, true)
       | JailRequeue => (Some populateJailRequeueDuration, false)
       | JailReady => (None, false)
       end).

(** ** Common objects ([common.go]) *)
(** A Secret with generated keys: rendered only if it is not there. *)
Definition reconcile_generated (owner : string) (k : key) (what : string) (render : outcome resource) : M cluster_state () :=
  let! got := attempt (client_Get k) in
  let! desired := match got with
                  | inl secret => ret secret
                  | inr err => if IsNotFound err then wrapM ("rendering " +:+ what) (lift render)
                               else fail (ErrWrap ("getting " +:+ what) err)
                  end in
  wrapM ("reconciling " +:+ what) (recon owner desired []).
Definition jwt_secret (cv : values_SlurmCluster) : key := (Secret, sc_Namespace cv, BuildSecretSlurmRESTSecretName (sc_Name cv)).
Definition munge_secret (cv : values_SlurmCluster) : key := (Secret, sc_Namespace cv, BuildSecretMungeKeyName (sc_Name cv)).
Definition sshd_secret (cv : values_SlurmCluster) : key := (Secret, sc_Namespace cv, sc_SshdKeysName cv).
Definition step_jwt (cv : values_SlurmCluster) (owner : string) : M cluster_state () :=
  reconcile_generated owner (jwt_secret cv) "REST JWT secret key" (rest_RenderSecret cv).
Definition step_munge (cv : values_SlurmCluster) (owner : string) : M cluster_state () :=
  reconcile_generated owner (munge_secret cv) "Munge Key Secret" (RenderMungeKeySecret cv).
Definition step_sshd (cv : values_SlurmCluster) (owner : string) : M cluster_state () :=
  reconcile_generated owner (sshd_secret cv) "worker SSHDKeys Secrets" (RenderSSHDKeysSecret cv ComponentTypeWorker).
Definition nodeSetRefsConditionMessageLimit : Z := 32768.
Definition nodeSetRefsCondition (cv : values_SlurmCluster) : Condition :=
  let resolution := ResolveNodeSetRefs cv in
  if IsEmpty resolution
  then condition ConditionClusterNodeSetRefsResolved "True" "AllNodeSetRefsResolved" "All partition nodeSetRefs are rendered into slurm.conf"
  else condition ConditionClusterNodeSetRefsResolved "False" "IgnoredNodeSetRefs"
         (FormatIgnoredNodeSetRefs resolution nodeSetRefsConditionMessageLimit).
(** Without the event that repeats the message. *)
Definition reportNodeSetRefs (cv : values_SlurmCluster) : M in_memory () :=
  cluster_patchStatus (λ status, SetCondition now status (nodeSetRefsCondition cv)).
Definition step_configs (cv : values_SlurmCluster) : M in_memory () :=
  let! cluster := the_cluster in
  let! nodeSets := on_cluster (ListNodeSetsByClusterRef (o_namespace cluster) (o_name cluster)) in
  let cv := with_NodeSets nodeSets cv in
  do! wrapM "reconciling ConfigMap with Slurm configs" (on_cluster (recon (o_uid cluster) (RenderConfigMapSlurmConfigs order cv) []));
  reportNodeSetRefs cv.
Definition step_jailedConfigs (cv : values_SlurmCluster) (owner : string) : M cluster_state () :=
  wrapM "reconciling JailedConfig with Slurm configs" (recon owner (RenderJailedConfigSlurmConfigs cv) []).
Definition step_appArmor (cv : values_SlurmCluster) (owner : string) : M cluster_state () :=
  if negb (inst_AppArmor inst) then ret tt
  else if negb (sc_UseDefaultAppArmorProfile cv) then ret tt
  else wrapM "reconciling AppArmor profiles" (AppArmorProfile_Reconcile marshal unmarshal owner (Some (RenderAppArmorProfile cv)) []).
Definition step_sysctl (cv : values_SlurmCluster) (owner : string) : M cluster_state () :=
  wrapM "reconciling worker Sysctl ConfigMap" (recon owner (RenderConfigMapSysctl (sc_Namespace cv) (sc_Name cv)) []).
(** A step that needs nothing of the cluster but its UID, for the owner references. *)
Definition owner_step (name : string) (f : string → M cluster_state ()) : MultiStepExecutionStep in_memory :=
  Step name (let! cluster := the_cluster in on_cluster (f (o_uid cluster))).
Definition common_steps (cv : values_SlurmCluster) : list (MultiStepExecutionStep in_memory) :=
  [owner_step "Slurm JWT secret key for REST API" (step_jwt cv); Step "Slurm configs ConfigMap" (step_configs cv);
   owner_step "Slurm configs JailedConfigs" (step_jailedConfigs cv); owner_step "Munge key Secret" (step_munge cv);
   owner_step "AppArmor profiles" (step_appArmor cv); owner_step "Slurm Worker sysctl ConfigMap" (step_sysctl cv);
   owner_step "Slurm Worker sshd keys Secret" (step_sshd cv)].
Definition ReconcileCommon (cv : values_SlurmCluster) : M in_memory () :=
  wrapM "reconciling common resources" (ExecuteMultiStep CollectErrors (common_steps cv)).

(** ** Accounting ([accounting.go]) *)
Definition isDBEnabled (a : SlurmAccounting) : bool := xdb_Enabled (acc_ExternalDB a) || acc_MariaDbEnabled a.
Definition MariaDbSecretName : string := "mariadb-password".
Definition MariaDbSecretRootName : string := "mariadb-root".
Definition handleExternalDBClientCert (cv : values_SlurmCluster) : M cluster_state () :=
  let name := xdb_ClientCertSecretRef (acc_ExternalDB (sc_NodeAccounting cv)) in
  if String.eqb name "" then fail (ErrMsg "client cert secret name is empty")
  else
    let! secret := client_Get (Secret, sc_Namespace cv, name) in
    let data := secret_data secret in
    do! lift (ensure (negb (bool_decide (data = ∅))) "client cert secret: data is empty");
    do! lift (ensure (negb (String.eqb (default "" (data !! "tls.crt")) "")) "client cert secret: certificate is empty");
    lift (ensure (negb (String.eqb (default "" (data !! "tls.key")) "")) "client cert secret: private key is empty").
Definition handleExternalDBPassword (cv : values_SlurmCluster) : M cluster_state resource :=
  let name := xdb_PasswordSecretName (acc_ExternalDB (sc_NodeAccounting cv)) in
  if String.eqb name "" then fail (ErrMsg "password secret name is empty")
  else wrapM ("getting Secret " +:+ name) (client_Get (Secret, sc_Namespace cv, name)).
Definition handleMariaDB (cv : values_SlurmCluster) (secretName : string) : M cluster_state resource :=
  wrapM "getting Secret" (client_Get (Secret, sc_Namespace cv, secretName)).
Definition step_slurmdbd (cv : values_SlurmCluster) (owner : string) : M cluster_state () :=
  let a := sc_NodeAccounting cv in
  let x := acc_ExternalDB a in
  if negb (acc_Enabled a) && negb (isDBEnabled a) then ret tt
  else
    do! (if xdb_Enabled x && negb (String.eqb (xdb_ClientCertSecretRef x) "") then handleExternalDBClientCert cv else ret tt);
    let! secret := if xdb_Enabled x && negb (String.eqb (xdb_PasswordSecretName x) "")
                   then let! s := handleExternalDBPassword cv in ret (Some s) else ret None in
    let! secret := if acc_MariaDbEnabled a then let! s := handleMariaDB cv MariaDbSecretName in ret (Some s) else ret secret in
    let! desired := wrapM "rendering accounting Secret" (lift (accounting_RenderSecret cv secret)) in
    wrapM "reconciling accounting Secret" (recon owner desired []).
(** The variables for rendering and creating shadow the one that is returned: after a successful creation the step still
    fails with the error of the look-up. *)
Definition step_mariaDbSecret (cv : values_SlurmCluster) (secretName : string) : M cluster_state () :=
  let a := sc_NodeAccounting cv in
  if negb (acc_Enabled a) && negb (isDBEnabled a) then ret tt
  else if negb (acc_MariaDbEnabled a) || negb (acc_MariaDbProtectedSecret a) then ret tt
  else
    let! got := attempt (handleMariaDB cv secretName) in
    match got with
    | inl _ => ret tt
    | inr err =>
        do! (if IsNotFound err then
               let! desired := wrapM "rendering mariadb Secret" (lift (RenderSecretMariaDb cv secretName)) in
               wrapM "creating mariadb Secret" (client_Create desired)
             else ret tt);
        fail err
    end.
Definition step_accountingService (cv : values_SlurmCluster) (owner : string) : M cluster_state () :=
  wrapM "reconciling accounting service"
    (if acc_Enabled (sc_NodeAccounting cv) then Reconcile_or_delete marshal unmarshal owner (Some (accounting_RenderService cv)) None []
     else Reconcile_or_delete marshal unmarshal owner None
            (Some (Service, sc_Namespace cv, BuildServiceName ComponentTypeAccounting (sc_Name cv))) []).
(** A MariaDB object of the cluster, with [k] its kind. *)
Definition reconcile_mariaDb (cv : values_SlurmCluster) (owner : string) (k : kind) (what : string) (render : outcome resource) :
    M cluster_state () :=
  if negb (inst_MariaDb inst) then ret tt
  else if negb (acc_MariaDbEnabled (sc_NodeAccounting cv)) || negb (acc_Enabled (sc_NodeAccounting cv)) then
    wrapM ("reconciling accounting " +:+ what)
      (Reconcile_or_delete marshal unmarshal owner None (Some (k, sc_Namespace cv, BuildMariaDbName (sc_Name cv))) [])
  else
    let! desired := wrapM ("rendering accounting " +:+ what) (lift render) in
    wrapM ("reconciling accounting " +:+ what) (Reconcile_or_delete marshal unmarshal owner (Some desired) None []).
Definition step_grant (cv : values_SlurmCluster) (owner : string) : M cluster_state () :=
  reconcile_mariaDb cv owner Grant "mariadb grant" (RenderMariaDbGrant cv).
Definition step_mariaDb (cv : values_SlurmCluster) (owner : string) : M cluster_state () :=
  reconcile_mariaDb cv owner MariaDB "mariadb" (RenderMariaDb cv).
(** The versions of several objects, in their order. *)
Fixpoint get_deps (ks : list key) : M cluster_state (list dependency) :=
  match ks with
  | [] => ret []
  | k :: ks => let! d := get_dep k in let! ds := get_deps ks in ret (d ++ ds)
  end.
Definition getAccountingDeploymentDependencies (cv : values_SlurmCluster) : M cluster_state (list dependency) :=
  let ns := sc_Namespace cv in
  let x := acc_ExternalDB (sc_NodeAccounting cv) in
  get_deps
    ([(ConfigMap, ns, BuildConfigMapSlurmConfigsName (sc_Name cv)); (Secret, ns, BuildSecretSlurmdbdConfigsName (sc_Name cv));
      munge_secret cv] ++
     if xdb_Enabled x
     then (λ ref, (Secret, ns, ref)) <$>
          filter (λ ref, ref ≠ "") [xdb_PasswordSecretName x; xdb_ServerCASecretRef x; xdb_ClientCertSecretRef x]
     else []).
Definition accounting_key (cv : values_SlurmCluster) : key := (Deployment, sc_Namespace cv, dep_name (acc_Deployment (sc_NodeAccounting cv))).
Definition step_accountingDeployment (cv : values_SlurmCluster) (owner : string) : M cluster_state () :=
  if negb (acc_Enabled (sc_NodeAccounting cv)) then wrapM "cleanup accounting Deployment" (Cleanup owner (accounting_key cv))
  else
    let! desired := wrapM "rendering accounting Deployment" (lift (accounting_RenderDeployment cv)) in
    let! deps := wrapM "retrieving dependencies for accounting Deployment" (getAccountingDeploymentDependencies cv) in
    wrapM "reconciling accounting Deployment" (recon owner desired deps).
Definition accounting_steps (cv : values_SlurmCluster) : list (MultiStepExecutionStep in_memory) :=
  [owner_step "Slurm Secret Slurmdbd Configs" (step_slurmdbd cv);
   owner_step "Slurm Secret MariaDB password" (λ _, step_mariaDbSecret cv MariaDbSecretName);
   owner_step "Slurm Secret MariaDB root password" (λ _, step_mariaDbSecret cv MariaDbSecretRootName);
   owner_step "Slurm accounting service" (step_accountingService cv); owner_step "Slurm MariaDB Grant" (step_grant cv);
   owner_step "Slurm MariaDB Database" (step_mariaDb cv); owner_step "Slurm Deployment" (step_accountingDeployment cv)].
Definition ReconcileAccounting (cv : values_SlurmCluster) : M in_memory () :=
  wrapM "reconciling Slurm Accounting" (ExecuteMultiStep CollectErrors (accounting_steps cv)).

(** ** Controllers ([controller.go]) *)
Definition security_limits (cv : values_SlurmCluster) (t : ComponentType) : resource :=
  RenderConfigMapSecurityLimits (sc_Namespace cv) (sc_Name cv) t (ct_SecurityLimitsConfig (lg_ContainerSshd (sc_NodeLogin cv)))
    (ct_SecurityLimitsConfig (ctl_ContainerSlurmctld (sc_NodeController cv))).
(** The default [sssd.conf] of a component that has an SSSD container and no Secret of its own. *)
Definition reconcile_sssd (cv : values_SlurmCluster) (owner : string) (container : option Container) (isDefault : bool)
    (secretName : string) (t : ComponentType) (what : string) : M cluster_state () :=
  match container with
  | None => ret tt
  | Some _ =>
      if negb isDefault then ret tt
      else wrapM what (recon owner (RenderSecretDefaultSSSDConf (sc_Namespace cv) (sc_Name cv) secretName t) [])
  end.
Definition step_controllerSSSD (cv : values_SlurmCluster) (owner : string) : M cluster_state () :=
  let t := sc_NodeController cv in
  reconcile_sssd cv owner (ctl_ContainerSSSD t) (ctl_IsSSSDSecretDefault t) (ctl_SSSDConfSecretName t) ComponentTypeController
    "reconciling controller sssd Secret".
Definition step_controllerLimits (cv : values_SlurmCluster) (owner : string) : M cluster_state () :=
  wrapM "reconciling controller security limits configmap" (recon owner (security_limits cv ComponentTypeController) []).
Definition step_controllerService (cv : values_SlurmCluster) (owner : string) : M cluster_state () :=
  wrapM "reconciling controller Service" (Reconcile_or_delete marshal unmarshal owner (Some (controller_RenderService cv)) None []).
Definition step_serviceMonitor (cv : values_SlurmCluster) (owner : string) : M cluster_state () :=
  if negb (inst_Prometheus inst) then ret tt
  else if default true (ctl_OpenMetricsEnabled (sc_NodeController cv))
  then wrapM "reconciling controller ServiceMonitor" (recon owner (RenderServiceMonitor cv) [])
  else wrapM "cleanup controller ServiceMonitor" (Cleanup owner (ServiceMonitor, sc_Namespace cv, ServiceMonitorName (sc_Name cv))).
Definition slurmdbd_dep (cv : values_SlurmCluster) : list key :=
  if acc_Enabled (sc_NodeAccounting cv) then [(Secret, sc_Namespace cv, BuildSecretSlurmdbdConfigsName (sc_Name cv))] else [].
Definition getControllersStatefulSetDependencies (cv : values_SlurmCluster) : M cluster_state (list dependency) :=
  get_deps (munge_secret cv :: slurmdbd_dep cv).
Definition controller_key (cv : values_SlurmCluster) : key :=
  (AdvancedStatefulSet, sc_Namespace cv, sts_Name (ctl_StatefulSet (sc_NodeController cv))).
Definition step_controllerStatefulSet (cv : values_SlurmCluster) (owner : string) : M cluster_state () :=
  let! desired := wrapM "rendering controller StatefulSet" (lift (controller_RenderStatefulSet cv)) in
  let! deps := wrapM "retrieving dependencies for controller StatefulSet" (getControllersStatefulSetDependencies cv) in
  wrapM "reconciling controller StatefulSet" (recon owner desired deps).
Definition controller_steps (cv : values_SlurmCluster) : list (MultiStepExecutionStep in_memory) :=
  [owner_step "Slurm Controller sssd.conf Secret" (step_controllerSSSD cv);
   owner_step "Slurm Controller Security limits ConfigMap" (step_controllerLimits cv);
   owner_step "Slurm Controller Service" (step_controllerService cv);
   owner_step "Slurm Controller OpenMetrics ServiceMonitor" (step_serviceMonitor cv);
   owner_step "Slurm Controller StatefulSet" (step_controllerStatefulSet cv)].
Definition ReconcileControllers (cv : values_SlurmCluster) : M in_memory () :=
  wrapM "reconciling Slurm Controllers" (ExecuteMultiStep CollectErrors (controller_steps cv)).

(** ** Login ([login.go]) *)
Definition step_loginSSHD (cv : values_SlurmCluster) (owner : string) : M cluster_state () :=
  if negb (lg_IsSSHDConfigMapDefault (sc_NodeLogin cv)) then ret tt
  else wrapM "reconciling login default SSHD ConfigMap" (recon owner (login_RenderConfigMapSSHDConfigs cv ComponentTypeLogin) []).
Definition step_loginRootKeys (cv : values_SlurmCluster) (owner : string) : M cluster_state () :=
  wrapM "reconciling login SSHRootPublicKeys ConfigMap" (recon owner (RenderSshRootPublicKeysConfig cv) []).
(** The Secret of the workers' keys. *)
Definition step_loginKeys (cv : values_SlurmCluster) (owner : string) : M cluster_state () :=
  reconcile_generated owner (sshd_secret cv) "login SSHDKeys Secrets" (RenderSSHDKeysSecret cv ComponentTypeLogin).
Definition step_loginSSSD (cv : values_SlurmCluster) (owner : string) : M cluster_state () :=
  let l := sc_NodeLogin cv in
  reconcile_sssd cv owner (lg_ContainerSSSD l) (lg_IsSSSDSecretDefault l) (lg_SSSDConfSecretName l) ComponentTypeLogin
    "reconciling login sssd Secret".
Definition step_loginLimits (cv : values_SlurmCluster) (owner : string) : M cluster_state () :=
  wrapM "reconciling login security limits configmap" (recon owner (security_limits cv ComponentTypeLogin) []).
Definition step_loginIsolation (cv : values_SlurmCluster) (owner : string) : M cluster_state () :=
  wrapM "reconciling login user isolation configmap" (recon owner (RenderConfigMapUserIsolation cv) []).
Definition step_loginService (cv : values_SlurmCluster) (owner : string) : M cluster_state () :=
  wrapM "reconciling login Service" (Reconcile_or_delete marshal unmarshal owner (Some (login_RenderService cv)) None []).
Definition step_loginHeadless (cv : values_SlurmCluster) (owner : string) : M cluster_state () :=
  wrapM "reconciling login Headless Service" (Reconcile_or_delete marshal unmarshal owner (Some (RenderHeadlessService cv)) None []).
Definition getLoginStatefulSetDependencies (cv : values_SlurmCluster) : M cluster_state (list dependency) :=
  let ns := sc_Namespace cv in
  let l := sc_NodeLogin cv in
  get_deps
    ([(ConfigMap, ns, BuildConfigMapSshRootPublicKeysName (sc_Name cv)); munge_secret cv;
      (ConfigMap, ns, BuildConfigMapSSHDConfigsNameLogin (sc_Name cv))] ++
     (if isolationEnabled l then [(ConfigMap, ns, BuildConfigMapUserIsolationName (sc_Name cv))] else []) ++ slurmdbd_dep cv ++
     (if String.eqb (lg_SSHDConfigMapName l) "" then [] else [(ConfigMap, ns, lg_SSHDConfigMapName l)])).
Definition login_key (cv : values_SlurmCluster) : key := (AdvancedStatefulSet, sc_Namespace cv, sts_Name (lg_StatefulSet (sc_NodeLogin cv))).
Definition step_loginStatefulSet (cv : values_SlurmCluster) (owner : string) : M cluster_state () :=
  let! desired := wrapM "rendering login StatefulSet" (lift (login_RenderStatefulSet cv)) in
  let! deps := wrapM "retrieving dependencies for login StatefulSet" (getLoginStatefulSetDependencies cv) in
  wrapM "reconciling login StatefulSet" (recon owner desired deps).
Definition reconcileLogin_steps (cv : values_SlurmCluster) : list (MultiStepExecutionStep in_memory) :=
  [owner_step "Slurm Login SSHD ConfigMap" (step_loginSSHD cv);
   owner_step "Slurm Login SSH root public keys ConfigMap" (step_loginRootKeys cv);
   owner_step "Slurm Login sshd keys Secret" (step_loginKeys cv); owner_step "Slurm Login sssd.conf Secret" (step_loginSSSD cv);
   owner_step "Slurm Login Security limits ConfigMap" (step_loginLimits cv);
   owner_step "Slurm Login User Isolation ConfigMap" (step_loginIsolation cv); owner_step "Slurm Login Service" (step_loginService cv);
   owner_step "Slurm Login Headless Service" (step_loginHeadless cv); owner_step "Slurm Login StatefulSet" (step_loginStatefulSet cv)].
Definition ReconcileLogin (cv : values_SlurmCluster) : M in_memory () :=
  wrapM "reconciling Slurm Login" (ExecuteMultiStep CollectErrors (reconcileLogin_steps cv)).

(** ** REST API ([rest.go]), [sconfigcontroller.go] and [soperator_exporter.go] *)
Definition step_restService (cv : values_SlurmCluster) (owner : string) : M cluster_state () :=
  wrapM "reconciling REST API service" (Reconcile_or_delete marshal unmarshal owner (Some (rest_RenderService cv)) None []).
Definition getRESTDeploymentDependencies (cv : values_SlurmCluster) : M cluster_state (list dependency) :=
  let ns := sc_Namespace cv in
  get_deps [(ConfigMap, ns, BuildConfigMapSlurmConfigsName (sc_Name cv)); (Secret, ns, BuildSecretSlurmdbdConfigsName (sc_Name cv)); jwt_secret cv].
Definition step_restDeployment (cv : values_SlurmCluster) (owner : string) : M cluster_state () :=
  let! desired := wrapM "rendering ConfigMap with Slurm configs" (lift (RenderDeploymentREST cv)) in
  let! deps := wrapM "retrieving dependencies for REST API Deployment" (getRESTDeploymentDependencies cv) in
  wrapM "reconciling REST API Deployment" (recon owner desired deps).
Definition rest_steps (cv : values_SlurmCluster) : list (MultiStepExecutionStep in_memory) :=
  [owner_step "Slurm REST API Service" (step_restService cv); owner_step "REST API" (step_restDeployment cv)].
Definition ReconcileREST (cv : values_SlurmCluster) : M in_memory () :=
  let a := sc_NodeAccounting cv in
  if negb (rest_Enabled (sc_NodeRest cv)) then ret tt
  else if negb (acc_Enabled a) && negb (acc_Enabled a && isDBEnabled a) then ret tt
  else wrapM "reconciling REST resources" (ExecuteMultiStep CollectErrors (rest_steps cv)).
Definition step_sconfig (cv : values_SlurmCluster) (owner : string) : M cluster_state () :=
  let! desired := wrapM "rendering SConfigController Deployment" (lift (sconfig_RenderDeployment cv)) in
  wrapM "reconciling SConfigController Deployment" (recon owner desired []).
Definition ReconcileSConfigController (cv : values_SlurmCluster) : M in_memory () :=
  wrapM "reconciling SConfigController" (ExecuteMultiStep CollectErrors [owner_step "SConfigController Deployment" (step_sconfig cv)]).
Definition step_podMonitor (cv : values_SlurmCluster) (owner : string) : M cluster_state () :=
  if exp_Enabled (sc_SlurmExporter cv) then wrapM "reconcile PodMonitor" (recon owner (RenderPodMonitor cv) [])
  else wrapM "cleanup PodMonitor" (Cleanup owner (PodMonitor, sc_Namespace cv, sc_Name cv)).
Definition step_exporter (cv : values_SlurmCluster) (owner : string) : M cluster_state () :=
  if exp_Enabled (sc_SlurmExporter cv) then
    let! desired := wrapM "render deployment exporter" (lift (RenderDeploymentExporter cv)) in
    wrapM "reconcile soperator exporter deployment" (recon owner desired [])
  else wrapM "cleanup soperator exporter deployment"
         (Cleanup owner (Deployment, sc_Namespace cv, dep_name (exp_Deployment (sc_SlurmExporter cv)))).
Definition exporter_steps (cv : values_SlurmCluster) : list (MultiStepExecutionStep in_memory) :=
  [owner_step "PodMonitor" (step_podMonitor cv); owner_step "Exporter Deployment" (step_exporter cv)].
Definition ReconcileSoperatorExporter (cv : values_SlurmCluster) : M in_memory () :=
  if negb (inst_Prometheus inst) then ret tt
  else if negb (String.eqb (exp_Image (sc_SlurmExporter cv)) "") then ret tt
  else wrapM "reconcile soperator exporter" (ExecuteMultiStep CollectErrors (exporter_steps cv)).

(** ** Validation *)
Definition set_condition (c : Condition) : M in_memory () := cluster_patchStatus (λ status, SetCondition now status c).
Definition requeueDuration : Z := 10.
(** The condition of a workload and when to look again. *)
Definition availability (type what : string) (ok : bool) : Condition :=
  if ok then condition type "True" "Available" ("Slurm " +:+ what +:+ " available")
  else condition type "False" "NotAvailable" ("Slurm " +:+ what +:+ " not available yet").
Definition requeue_unless (ok : bool) : RequeueAfter := if ok then None else Some requeueDuration.
Definition ReadyReplicas (sts : resource) : Z := field_int (o_status sts) ["readyReplicas"].
Definition controllers_ready (cv : values_SlurmCluster) (sts : resource) : bool :=
  (ReadyReplicas sts =? sts_Replicas (ctl_StatefulSet (sc_NodeController cv)))%Z.
Definition ValidateControllers (cv : values_SlurmCluster) : M in_memory RequeueAfter :=
  let! got := attempt (on_cluster (client_Get (controller_key cv))) in
  match got with
  | inr err => if IsNotFound err then ret (Some requeueDuration) else fail (ErrWrap "getting controller StatefulSet" err)
  | inl existing =>
      let ok := controllers_ready cv existing in
      do! wrapM "updating .Status" (set_condition (availability ConditionClusterControllersAvailable "controllers are" ok));
      ret (requeue_unless ok)
  end.
(** The number of ready pods in the status, and the condition. *)
Definition report_ready (field : string) (available : Z) (c : Condition) : M in_memory () :=
  wrapM "updating .Status" (cluster_patchStatus (λ status,
    let changesInStatus := negb (bool_decide (field_optint status [field] = Some available)) in
    let status := if changesInStatus then <[[field] := VInt available]> status else status in
    let '(status, changesInConditions) := SetCondition now status c in
    (status, changesInStatus || changesInConditions))).
Definition login_ready (cv : values_SlurmCluster) (sts : resource) : bool :=
  (AvailableReplicas sts =? sts_Replicas (lg_StatefulSet (sc_NodeLogin cv)))%Z.
Definition ValidateLogin (cv : values_SlurmCluster) : M in_memory RequeueAfter :=
  let! got := attempt (on_cluster (client_Get (login_key cv))) in
  match got with
  | inr err => if IsNotFound err then ret (Some requeueDuration) else fail (ErrWrap "getting login StatefulSet" err)
  | inl existing =>
      let ok := login_ready cv existing in
      do! report_ready "readyLogin" (AvailableReplicas existing) (availability ConditionClusterLoginAvailable "login is" ok);
      ret (requeue_unless ok)
  end.
(** An object that is not there is a nil pointer. *)
Definition getTypedResource (k : key) : M cluster_state (option resource) :=
  let! got := attempt (client_Get k) in
  match got with
  | inl o => ret (Some o)
  | inr err => if IsNotFound err then ret None else fail (ErrWrap "failed to get resource" err)
  end.
Definition isConditionReady (conditions : list Condition) (type : string) : bool :=
  existsb (λ c, String.eqb (c_Type c) type && String.eqb (c_Status c) "True") conditions.
Definition updateAccountingAvailabilityStatus (status reason message : string) (requeueAfter : RequeueAfter) : M in_memory RequeueAfter :=
  do! set_condition (condition ConditionClusterAccountingAvailable status reason message);
  ret (if String.eqb status "True" then None else requeueAfter).
(** MariaDB and its grant: objects with nothing in them when MariaDB is not enabled. *)
Definition mariaDb_conditions (cv : values_SlurmCluster) (k : kind) (message : string) : M in_memory (list Condition + RequeueAfter) :=
  if negb (acc_MariaDbEnabled (sc_NodeAccounting cv)) then ret (inl [])
  else
    let! got := attempt (on_cluster (getTypedResource (k, sc_Namespace cv, BuildMariaDbName (sc_Name cv)))) in
    match got with
    | inl (Some o) => ret (inl (Status_Conditions o))
    | _ => let! res := updateAccountingAvailabilityStatus "Unknown" "Unknown" message (Some 10%Z) in ret (inr res)
    end.
Definition accountingStatus (cv : values_SlurmCluster) (mariaDb grant : list Condition) (deployment : resource) :
    string * string * string :=
  let available := AvailableReplicas deployment in
  let targetReplicas := default (dep_Replicas (acc_Deployment (sc_NodeAccounting cv))) (field_optint (o_body deployment) ["spec"; "replicas"]) in
  if negb (isConditionReady mariaDb "Ready") then ("False", "NotAvailable", "MariaDB is not ready")
  else if negb (isConditionReady grant "Ready") then ("False", "NotAvailable", "MariaDB Grant is not ready")
  else if (available =? 0)%Z then ("False", "NotAvailable", "Slurm accounting is not available yet")
  else if negb (available =? targetReplicas)%Z then
    ("False", "NotAvailable",
     "Slurm accounting available replicas: " +:+ Itoa available +:+ ", but target replicas: " +:+ Itoa targetReplicas)
  else ("True", "Available", "Slurm accounting is available").
(** The code takes the replicas of the Deployment without looking whether it was found. *)
Definition ValidateAccounting (cv : values_SlurmCluster) : M in_memory RequeueAfter :=
  let! got := attempt (on_cluster (getTypedResource (accounting_key cv))) in
  match got with
  | inr _ => updateAccountingAvailabilityStatus "Unknown" "Unknown" "Failed to get Deployment" (Some 10%Z)
  | inl None => halt "invalid memory address or nil pointer dereference"
  | inl (Some deployment) =>
      let! mariaDb := mariaDb_conditions cv MariaDB "Failed to get MariaDB" in
      match mariaDb with
      | inr res => ret res
      | inl mariaDb =>
          let! grant := mariaDb_conditions cv Grant "Failed to get MariaDB Grant" in
          match grant with
          | inr res => ret res
          | inl grant =>
              let '(status, reason, message) := accountingStatus cv mariaDb grant deployment in
              updateAccountingAvailabilityStatus status reason message (Some 10%Z)
          end
      end
  end.
Definition sconfig_key (cv : values_SlurmCluster) : key := (Deployment, sc_Namespace cv, dep_name (scc_Deployment (sc_SConfigController cv))).
(** Both arguments of [Ternary] are evaluated. *)
Definition ValidateSConfigController (cv : values_SlurmCluster) : M in_memory RequeueAfter :=
  let! got := attempt (on_cluster (client_Get (sconfig_key cv))) in
  match got with
  | inr err => if IsNotFound err then ret (Some requeueDuration) else fail (ErrWrap "getting SConfigController Deployment" err)
  | inl existing =>
      match field_optint (o_body existing) ["spec"; "replicas"] with
      | None => halt "invalid memory address or nil pointer dereference"
      | Some replicas =>
          let ok := (AvailableReplicas existing =? replicas)%Z in
          do! report_ready "readySConfigController" (AvailableReplicas existing)
                (availability ConditionClusterSConfigControllerAvailable "SConfigController is" ok);
          ret (requeue_unless ok)
      end
  end.
Definition commonCondition (cv : values_SlurmCluster) : Condition :=
  if IsMaintenanceActive (rest_Maintenance (sc_NodeRest cv))
  then condition ConditionClusterCommonAvailable "False" "Maintenance" "Slurm common components are in maintenance"
  else condition ConditionClusterCommonAvailable "True" "Available" "Slurm common components are available".
Definition jailCondition (maintenance : option string) : Condition :=
  let mode reason := condition ConditionClusterPopulateJailMode "True" reason in
  if IsModeSkipPopulateJail maintenance then mode "skipPopulateJail" "Populate Jail is skipped"
  else if IsModeDownscaleAndDeletePopulate maintenance then mode "downscaleAndDeletePopulateJail" "Populate Jail is deleted"
  else if IsModeDownscaleAndOverwritePopulate maintenance then mode "downscaleAndOverwritePopulateJail" "Populate Jail is overwritten"
  else if negb (IsMaintenanceActive maintenance) then mode "none" "Populate Jail maintenanceMode is none"
  else condition ConditionClusterPopulateJailMode "Unknown" "Unknown" "Unknown Populate Jail maintenanceMode".
Definition maintenance_of (type what : string) : Condition := condition type "False" "Maintenance" ("Slurm " +:+ what +:+ " in maintenance").
(** The validations in their order; the first one that wants to look again ends them. *)
Fixpoint validations (vs : list (M in_memory RequeueAfter)) : M in_memory (RequeueAfter * bool) :=
  match vs with
  | [] => ret (None, true)
  | v :: vs => let! res := v in match res with Some _ => ret (res, false) | None => validations vs end
  end.
Definition validate_controllers (cv : values_SlurmCluster) : M in_memory RequeueAfter :=
  if IsMaintenanceActive (ctl_Maintenance (sc_NodeController cv))
  then do! set_condition (maintenance_of ConditionClusterControllersAvailable "controllers are"); ret None
  else wrapM "validating Slurm controllers" (ValidateControllers cv).
Definition validate_login (cv : values_SlurmCluster) : M in_memory RequeueAfter :=
  if IsMaintenanceActive (lg_Maintenance (sc_NodeLogin cv))
  then do! set_condition (maintenance_of ConditionClusterLoginAvailable "login is"); ret None
  else wrapM "validating Slurm login" (ValidateLogin cv).
Definition validate_accounting (cv : values_SlurmCluster) : M in_memory RequeueAfter :=
  if IsMaintenanceActive (acc_Maintenance (sc_NodeAccounting cv))
  then do! set_condition (maintenance_of ConditionClusterAccountingAvailable "accounting is"); ret None
  else if negb (acc_Enabled (sc_NodeAccounting cv))
  then do! set_condition (condition ConditionClusterAccountingAvailable "False" "NotAvailable" "Slurm accounting is disabled"); ret None
  else wrapM "validating Slurm accounting" (ValidateAccounting cv).
Definition validation (cv : values_SlurmCluster) : M in_memory (RequeueAfter * bool) :=
  do! set_condition (commonCondition cv);
  do! set_condition (jailCondition (pj_Maintenance (sc_PopulateJail cv)));
  validations [validate_controllers cv; validate_login cv; validate_accounting cv;
               wrapM "validating Slurm SConfigController" (ValidateSConfigController cv)].

(** ** One reconciliation ([reconcile.go]) *)
Definition setUpStatus : M in_memory () :=
  patch_memory "patching SlurmCluster status" (λ status,
    let set_field '(status, needToUpdate) '(field, v) :=
      match (status : fields) !! [field] with Some _ => (status, needToUpdate) | None => (<[[field] := v]> status, true) end in
    let set_condition '(status, needToUpdate) type :=
      match FindStatusCondition (field_conds status ["conditions"]) type with
      | Some _ => (status, needToUpdate)
      | None =>
          let '(status, updated) := SetCondition now status (condition type "Unknown" "SetUpCondition" "The object is not ready yet.") in
          (status, needToUpdate || updated)
      end in
    foldl set_condition
      (foldl set_field (status, false)
         [("phase", VStr PhaseClusterPending); ("readyLogin", VInt 0); ("readySConfigController", VInt 0)])
      [ConditionClusterCommonAvailable; ConditionClusterControllersAvailable; ConditionClusterLoginAvailable;
       ConditionClusterSConfigControllerAvailable; ConditionClusterAccountingAvailable]).
Definition set_phase (phase : string) : M in_memory () :=
  cluster_patchStatus (λ status,
    if bool_decide (field_optstr status ["phase"] = Some phase) then (status, false) else (<[["phase"] := VStr phase]> status, true)).
(** The groups of objects, in their order; the first error ends the reconciliation. *)
Definition reconcile_groups (cv : values_SlurmCluster) : M in_memory () :=
  do! ReconcileCommon cv;
  do! ReconcileAccounting cv;
  do! ReconcileSConfigController cv;
  do! ReconcileControllers cv;
  do! ReconcileLogin cv;
  do! ReconcileREST cv;
  ReconcileSoperatorExporter cv.
Definition build_values : M in_memory values_SlurmCluster :=
  let! cluster := the_cluster in
  let! namePrefix := on_cluster (ResolveWorkloadNamePrefix (o_namespace cluster) (o_name cluster)) in
  let! cv := lift (BuildSlurmClusterFrom cluster namePrefix) in
  let! nodeSets := wrapM "listing node sets" (on_cluster (ListNodeSetsByClusterRef (o_namespace cluster) (o_name cluster))) in
  ret (with_ClusterWithGPU (BuildClusterWithGPUFromNodeSets nodeSets) cv).
(** Validation, and the phase whatever became of it. *)
Definition validate_and_report (cv : values_SlurmCluster) (populateJailRes : RequeueAfter) : M in_memory RequeueAfter :=
  let! r := attempt (validation cv) in
  let isClusterAvailable := match r with inl (_, ok) => ok | inr _ => false end in
  let! p := attempt (set_phase (if isClusterAvailable then PhaseClusterAvailable else PhaseClusterNotAvailable)) in
  match r, p with
  | inl (res, _), inl _ => ret (match res with Some t => Some t | None => populateJailRes end)
  | inr err, inl _ => fail err
  | inl _, inr err => fail err
  | inr err, inr err' => fail (ErrJoin err err')
  end.
Definition reconcile_with (cv : values_SlurmCluster) : M in_memory RequeueAfter :=
  let! (populateJailRes, notReady) :=
    if IsModeSkipPopulateJail (pj_Maintenance (sc_PopulateJail cv)) then ret (None, false) else ReconcilePopulateJail cv in
  if notReady then ret populateJailRes
  else
    do! reconcile_groups cv;
    validate_and_report cv populateJailRes.
Definition cluster_reconcile : M in_memory RequeueAfter :=
  do! setUpStatus;
  let! cv := build_values in
  reconcile_with cv.
Definition cluster_refreshStatus (namespace name : string) : M cluster_state () :=
  RetryOnConflict 5
    (let! got := attempt (client_Get (SlurmCluster, namespace, name)) in
     match got with
     | inr err => if IsNotFound err then ret tt else fail (ErrWrap "getting SlurmCluster" err)
     | inl cluster => let! _ := client_StatusUpdate cluster in ret tt
     end).
Definition cluster_reconcile_sync (cluster : resource) : M (gset string * cluster_state) RequeueAfter := λ '(st, w),
  let k := buildKey "slurm.nebius.ai/v1, Kind=SlurmCluster" (o_namespace cluster) (o_name cluster) in
  if state_Present k st then ((st, w), Ok None)
  else let '((_, w'), r) := cluster_reconcile (cluster, w) in ((state_Remove k (state_Set k st), w'), r).
Definition SlurmCluster_Reconcile (namespace name : string) : M (gset string * cluster_state) RequeueAfter :=
  let! got := attempt (on_cluster (client_Get (SlurmCluster, namespace, name))) in
  match got with
  | inr err => if IsNotFound err then ret None else fail (ErrWrap "getting SlurmCluster" err)
  | inl cluster =>
      let cluster := with_body (cluster_defaults (o_body cluster)) cluster in
      if has_field (o_body cluster) ["metadata"; "deletionTimestamp"] then ret None
      else
        let! r := attempt (wrapM "reconciling SlurmCluster" (cluster_reconcile_sync cluster)) in
        let! s := attempt (on_cluster (cluster_refreshStatus namespace name)) in
        match r, s with
        | inl res, inl _ => ret res
        | inr err, inl _ => fail err
        | _, inr statusErr => fail (ErrJoin (ErrWrap "updating SlurmCluster status" statusErr) statusErr)
        end
  end.
End controller.

(** ** Watches *)
Definition requests_of (clusters : list resource) : list (string * string) := (λ c, (o_namespace c, o_name c)) <$> clusters.
(** [listed field value] are the clusters of the namespace with this value in an index; a field without an index is an error. *)
Definition sshdLoginConfigMapField : path := ["spec"; "slurmNodes"; "login"; "sshdConfigMapRefName"].
Definition secret_index_fields : list path :=
  [["spec"; "slurmNodes"; "accounting"; "externalDB"; "passwordSecretKeyRef"; "name"];
   ["spec"; "slurmNodes"; "accounting"; "externalDB"; "tls"; "serverCASecretRef"];
   ["spec"; "slurmNodes"; "accounting"; "externalDB"; "tls"; "clientCertSecretRef"]].
Definition indexed_fields : list path := sshdLoginConfigMapField :: secret_index_fields.
Definition list_indexed (clusters : list resource) (namespace : string) (field : path) (name : string) : outcome (list resource) :=
  if bool_decide (field ∈ indexed_fields)
  then Ok (filter (λ c, o_namespace c = namespace ∧ field_str (o_body c) field = name ∧ name ≠ "") clusters)
  else Err (ErrMsg "Index does not exist").
Definition cluster_requests (clusters : list resource) (fs : list path) (o : resource) : list (string * string) :=
  concat ((λ field, match list_indexed clusters (o_namespace o) field (o_name o) with Ok l => requests_of l | _ => [] end) <$> fs).
Definition podTemplateField : path := ["spec"; "slurmNodes"; "exporter"; "exporter"; "podTemplateNameRef"].
Definition findObjectsForPodTemplate (clusters : list resource) : resource → list (string * string) :=
  cluster_requests clusters [podTemplateField].
Definition cluster_findObjectsForConfigMap (clusters : list resource) : resource → list (string * string) :=
  cluster_requests clusters [sshdLoginConfigMapField].
Definition findObjectsForSecret (clusters : list resource) : resource → list (string * string) := cluster_requests clusters secret_index_fields.
Definition findObjectsForNodeSet (clusters : list resource) (nodeSet : resource) : list (string * string) :=
  requests_of (filter (λ c, o_namespace c = o_namespace nodeSet) clusters).
(** The controller watches pod templates and never reconciles for one: their field has no index. *)
Lemma podTemplate_never_requests clusters o : findObjectsForPodTemplate clusters o = [].
Proof. done. Qed.
