(* ===== verification/ClusterRuns.v ===== *)
(** * What a cluster reconciliation leaves behind

    The reconciliation of a SlurmCluster, followed through its requests when no other client interferes.  [follows F J m Q]: [m] keeps the object in
    memory and the one on the server in step, writes only objects whose keys satisfy [F] and the status of the cluster, and
    its results satisfy [Q]; [J] is what it may assume of the objects it does not write. *)
From S2P Require Import Prelude GoStrings Kube Naming Effects MultiStep Reconciler Patchers Ownership QuietRuns ConfigTexts Workers.
From S2P Require Import ClusterValues NodeSetCtl NodeSetOutcome SlurmConfigs ClusterObjects ClusterCtl.
From Stdlib Require String.

(** The cluster in memory and the one on the server have the same status. *)
Definition in_step (x : in_memory) : Prop :=
  quiet x.2 ∧ filed x.2 ∧ (o_key x.1).1.1 = SlurmCluster ∧
  ∃ s, w_objects x.2 !! o_key x.1 = Some s ∧ o_status s = o_status x.1.

Section follows.
  Context (F : key → Prop) (HF : ∀ i, F i → i.1.1 ≠ SlurmCluster).
  Context (J : gmap key resource → Prop).
  Context (HJ : ∀ m1 m2, (∀ i, ¬ F i → i.1.1 ≠ SlurmCluster → m1 !! i = m2 !! i) → J m1 → J m2).

(** The spec on the server stays; the one in memory can only take in what the server has. *)
Definition moved (x y : in_memory) : Prop :=
  o_key y.1 = o_key x.1 ∧ (∀ i, ¬ F i → i ≠ o_key x.1 → w_objects y.2 !! i = w_objects x.2 !! i) ∧
  ∀ s, w_objects x.2 !! o_key x.1 = Some s →
    ∃ s', w_objects y.2 !! o_key x.1 = Some s' ∧ o_body s' = o_body s ∧
          (o_body y.1 = o_body x.1 ∨ o_body y.1 = o_body s ∪ o_body x.1).
Lemma moved_refl x : moved x x.
Proof. split_and!; [done|done|]. intros s Hs. exists s. auto. Qed.
Lemma moved_trans x y z : moved x y → moved y z → moved x z.
Proof.
  intros (Hk1 & Hf1 & Hs1) (Hk2 & Hf2 & Hs2). split_and!; [congruence| |].
  - intros i Hi Hne. rewrite Hf2, Hf1; [done|done|done|done|congruence].
  - intros s Hs. destruct (Hs1 s Hs) as (s1 & Hl1 & Hb1 & Hm1). rewrite <-Hk1 in Hl1.
    destruct (Hs2 s1 Hl1) as (s2 & Hl2 & Hb2 & Hm2). exists s2. rewrite <-Hk1. split_and!; [done|congruence|].
    rewrite Hb1 in Hm2. destruct Hm1 as [Hm1|Hm1], Hm2 as [Hm2|Hm2]; rewrite Hm2, Hm1; auto.
    right. by rewrite (assoc_L (∪)), (idemp_L (∪)).
Qed.
Lemma moved_J x y : (o_key x.1).1.1 = SlurmCluster → moved x y → J (w_objects x.2) → J (w_objects y.2).
Proof. intros Hk (_ & Hf & _). apply HJ. intros i Hi Hne. symmetry. apply Hf; [done|]. intros ->. done. Qed.

Definition follows {A} (m : M in_memory A) (Q : A → Prop) : Prop :=
  ∀ x, in_step x → J (w_objects x.2) → in_step (m x).1 ∧ moved x (m x).1 ∧ (∀ a, (m x).2 = Ok a → Q a).

Lemma follows_pure {A} (m : M in_memory A) (Q : A → Prop) :
  (∀ x, (m x).1 = x ∧ (∀ a, (m x).2 = Ok a → Q a)) → follows m Q.
Proof. intros Hm x Hx _. destruct (Hm x) as [-> ?]. split_and!; [done|apply moved_refl|done]. Qed.
Lemma follows_ret {A} (a : A) (Q : A → Prop) : Q a → follows (ret a) Q.
Proof. intros HQ. apply follows_pure. intros x. split; [done|]. by intros ? [= <-]. Qed.
Lemma follows_fail {A} e (Q : A → Prop) : follows (fail e) Q.
Proof. by apply follows_pure. Qed.
Lemma follows_halt {A} s (Q : A → Prop) : follows (halt s) Q.
Proof. by apply follows_pure. Qed.
Lemma follows_lift {A} (o : outcome A) (Q : A → Prop) : (∀ a, o = Ok a → Q a) → follows (lift o) Q.
Proof. intros HQ. by apply follows_pure. Qed.
Lemma follows_the_cluster : follows the_cluster (λ c, (o_key c).1.1 = SlurmCluster).
Proof. intros x Hx _. split_and!; [done|apply moved_refl|]. destruct Hx as (_ & _ & Hk & _). by intros a [= <-]. Qed.
Lemma follows_bind {A B : Type} (m : M in_memory A) (f : A → M in_memory B) Q R :
  follows m Q → (∀ a, Q a → follows (f a) R) → follows (bind m f) R.
Proof.
  intros Hm Hf x Hx Hj. destruct (Hm x Hx Hj) as (Hx1 & Hm1 & HQ). unfold bind.
  destruct (m x) as [y [a|e|s]]; simpl in *; [|by split_and!..].
  assert (J (w_objects y.2)) as Hj1 by (apply (moved_J x); [apply Hx|done|done]).
  destruct (Hf a (HQ a eq_refl) y Hx1 Hj1) as (Hx2 & Hm2 & HR). split_and!; [done|by apply (moved_trans _ y)|done].
Qed.
Lemma follows_weaken {A} (m : M in_memory A) (Q R : A → Prop) : follows m Q → (∀ a, Q a → R a) → follows m R.
Proof. intros Hm HQ x Hx Hj. destruct (Hm x Hx Hj) as (? & ? & ?). split_and!; eauto. Qed.
Lemma follows_attempt {A} (m : M in_memory A) Q :
  follows m Q → follows (attempt m) (λ r, match r with inl a => Q a | inr _ => True end).
Proof.
  intros Hm x Hx Hj. destruct (Hm x Hx Hj) as (? & ? & HQ). unfold attempt.
  destruct (m x) as [y [a|e|s]]; simpl in *; split_and!; try done; intros ? [= <-]; auto.
Qed.
Lemma follows_wrapM {A} msg (m : M in_memory A) Q : follows m Q → follows (wrapM msg m) Q.
Proof.
  intros Hm x Hx Hj. destruct (Hm x Hx Hj) as (? & ? & HQ). unfold wrapM.
  destruct (m x) as [y [a|e|s]]; simpl in *; split_and!; try done.
Qed.
(** Requests that leave the cluster alone. *)
Lemma follows_on_cluster {A} (m : M cluster_state A) Q : writes F m Q → follows (on_cluster m) Q.
Proof.
  intros Hm [c w] (Hq & Hf & Hk & s & Hs & Hst) _. simpl in *. destruct (Hm w Hq Hf) as (Hq' & Hf' & Hs' & HQ).
  unfold on_cluster. destruct (m w) as [w' r]. simpl in *.
  assert (w_objects w' !! o_key c = Some s) as Hl by (rewrite Hs'; [done|intros ?%HF; done]).
  split_and!; [|split_and!|done]; simpl; try done.
  - by split_and!; [..|exists s].
  - auto.
  - intros s1 Hs1. exists s1. rewrite Hs1 in Hs. simplify_eq. auto.
Qed.
Lemma follows_steps steps :
  (∀ s, s ∈ steps → follows (step_Func s) (λ _, True)) → follows (ExecuteMultiStep CollectErrors steps) (λ _, True).
Proof.
  intros Hs. apply follows_wrapM. unfold executeCollectErrors. eapply follows_bind with (Q := λ _, True).
  - generalize (@nil string). induction steps as [|s steps IH]; intros errs; simpl; [by apply follows_ret|].
    eapply follows_bind; [apply follows_attempt, Hs; left|]. intros r _. apply IH. intros. apply Hs. by right.
  - intros errs _. destruct errs; [by apply follows_ret|apply follows_fail].
Qed.
(** A status patch. *)
Lemma store_quiet (w : cluster_state) k (new cur : resource) :
  quiet w → filed w → w_objects w !! k = Some cur → o_key new = k →
  ∃ v w', store k new cur w = (w', Ok (with_version v new)) ∧ w_objects w' !! k = Some (with_version v new) ∧
    quiet w' ∧ filed w' ∧ ∀ i, i ≠ k → w_objects w' !! i = w_objects w !! i.
Proof.
  intros Hq Hf Hc <-. unfold store. destruct (decide (new = cur)) as [->|Hne].
  - exists (o_resourceVersion cur), w. assert (with_version (o_resourceVersion cur) cur = cur) as -> by (by destruct cur). done.
  - eexists _, _. split; [done|]. split_and!; [simpl; by rewrite lookup_insert_eq|done|by apply filed_put|].
    intros i Hi. simpl. by rewrite lookup_insert_ne.
Qed.
Lemma patch_memory_quiet what f c w :
  in_step (c, w) → ((f (o_status c)).2 = true ∨ (f (o_status c)).1 = o_status c) →
  ∃ c' w', patch_memory what f (c, w) = ((c', w'), Ok tt) ∧ in_step (c', w') ∧ o_status c' = (f (o_status c)).1 ∧ moved (c, w) (c', w').
Proof.
  intros (Hq & Hf & Hk & s & Hs & Hst) Hflag. simpl in *. unfold patch_memory.
  destruct (f (o_status c)) as [st need]. destruct need; cbn [negb fst snd] in *.
  - unfold client_StatusPatch, write. rewrite quiet_request by done. rewrite Hs.
    cbn [o_status with_status]. rewrite Hst, merge_patch_exact. pose proof (Hf _ _ Hs) as Hks.
    destruct (store_quiet w (o_key c) (with_status st s) s Hq Hf Hs Hks) as (v & w' & -> & Hl & Hq' & Hf' & Ho).
    eexists _, _. split; [done|]. split; [|split].
    + split_and!; simpl; [done|done|by rewrite Hks|]. rewrite Hks. eexists. split; [done|]. simpl. by rewrite (idemp_L (∪)).
    + simpl. by rewrite (idemp_L (∪)).
    + split_and!; simpl; [done|intros i _; apply Ho|].
      intros s1 Hs1. rewrite Hs1 in Hs. simplify_eq. eexists. split; [done|]. auto.
  - destruct Hflag as [Hx| ->]; [done|]. eexists _, _. split; [done|]. split; [|split; [done|]].
    + split_and!; simpl; try done. by exists s.
    + split_and!; simpl; [done|done|]. intros s1 Hs1. exists s1. rewrite Hs1 in Hs. simplify_eq. auto.
Qed.
Lemma follows_patch what f :
  (∀ st, (f st).2 = true ∨ (f st).1 = st) → follows (patch_memory what f) (λ _, True).
Proof.
  intros Hf [c w] Hx _. destruct (patch_memory_quiet what f c w Hx (Hf _)) as (c' & w' & Hp & Hin & _ & Hm). rewrite Hp. simpl. done.
Qed.
End follows.

(** ** The status *)
Lemma SetCondition_flag `{StatusConditions} now st c : (SetCondition now st c).2 = true ∨ (SetCondition now st c).1 = st.
Proof.
  unfold SetCondition. set (cs := field_conds st ["conditions"]). set (c1 := match FindStatusCondition cs (c_Type c) with Some e => _ | None => c end).
  pose proof (set_finds now cs c1) as Hf. pose proof (set_unchanged now cs c1) as Hu.
  destruct (SetStatusCondition now cs c1) as [cs' [|]]; [by left|]. simpl in *. right. rewrite Hu in Hf by done. rewrite Hu by done.
  apply insert_id. unfold cs, field_conds in *. destruct (st !! ["conditions"]) as [[]|]; try done;
    destruct Hf as (c' & Hf & _); by rewrite find_nil in Hf.
Qed.
Lemma fold_flag {A B} (f : A * bool → B → A * bool) (xs : list B) (x : A * bool) (a0 : A) :
  (∀ x b, x.2 = true ∨ x.1 = a0 → (f x b).2 = true ∨ (f x b).1 = a0) →
  x.2 = true ∨ x.1 = a0 → (foldl f x xs).2 = true ∨ (foldl f x xs).1 = a0.
Proof. intros Hf. revert x. induction xs as [|b xs IH]; intros x Hx; simpl; [done|]. apply IH, Hf, Hx. Qed.

(** ** The groups of objects *)
(** The Secrets that the controller writes and does not generate. *)
Definition other_secrets (cluster : string) : list string :=
  [BuildSecretSlurmdbdConfigsName cluster; BuildSecretSSSDConfName cluster; MariaDbSecretName; MariaDbSecretRootName].
Section groups.
  Context (marshal : gmap string string → string) (unmarshal : string → option (gmap string string)).
  Context `{StatusConditions} (now : Z) `{Rendering} (order : map_order) (inst : Installed) (polls : nat).
  Context (F : key → Prop) (HF : ∀ i, F i → i.1.1 ≠ SlurmCluster).
  Context (J : gmap key resource → Prop).
  Context (HJ : ∀ m1 m2, (∀ i, ¬ F i → i.1.1 ≠ SlurmCluster → m1 !! i = m2 !! i) → J m1 → J m2).
  Context (HFo : ∀ i, i.1.1 ≠ SlurmCluster → i.1.1 ≠ Secret → F i).
  Context (cv : values_SlurmCluster).
  Context (HFs : ∀ n, n ∈ other_secrets (sc_Name cv) → F (Secret, sc_Namespace cv, n)).
  Context (Hgen : ∀ owner k what render, k.1.1 = Secret → (∀ d, render = Ok d → o_key d = k) →
    follows F J (on_cluster (reconcile_generated marshal unmarshal owner k what render)) (λ _, True)).
  Context (Hctl : ctl_IsSSSDSecretDefault (sc_NodeController cv) = true →
    ctl_SSSDConfSecretName (sc_NodeController cv) = BuildSecretSSSDConfName (sc_Name cv)).
  Context (Hlog : lg_IsSSSDSecretDefault (sc_NodeLogin cv) = true →
    lg_SSSDConfSecretName (sc_NodeLogin cv) = BuildSecretSSSDConfName (sc_Name cv)).
  Local Abbreviation follow := (follows F J).

Lemma writes_managed owner d deps :
  (o_key d).1.1 ≠ SlurmCluster → (o_key d).1.1 ≠ Secret → writes F (Reconcile marshal unmarshal owner d deps) (λ _, True).
Proof. intros H1 H2. by apply writes_Reconcile, HFo. Qed.
Lemma writes_service owner d : (o_key d).1.1 = Service → writes F (Reconcile_or_delete marshal unmarshal owner (Some d) None []) (λ _, True).
Proof. intros Hd. simpl. apply writes_managed; by rewrite Hd. Qed.
Lemma writes_get_deps ks : writes F (get_deps ks) (λ _, True).
Proof.
  induction ks as [|k ks IH]; simpl; [by apply writes_ret|].
  eapply writes_bind; [unfold get_dep; eapply writes_bind; [apply writes_Get|]; intros; by apply (writes_ret _ _ (λ _, True))|].
  intros d _. eapply writes_bind; [apply IH|]. intros. by apply writes_ret.
Qed.
(** A rendered workload with the versions of its dependencies. *)
Lemma writes_rendered owner msg1 msg2 msg3 (render : outcome resource) k ks :
  (∀ d, render = Ok d → (o_key d).1.1 = k) → k ≠ SlurmCluster → k ≠ Secret →
  writes F (let! d := wrapM msg1 (lift render) in let! deps := wrapM msg2 (get_deps ks) in
            wrapM msg3 (Reconcile marshal unmarshal owner d deps)) (λ _, True).
Proof.
  intros Hr H1 H2. eapply writes_bind; [apply writes_wrapM, writes_lift, Hr|]. intros d Hd.
  eapply writes_bind; [apply writes_wrapM, writes_get_deps|]. intros deps _. apply writes_wrapM, writes_managed; congruence.
Qed.
Lemma follow_owner name f : (∀ owner, follow (on_cluster (f owner)) (λ _, True)) → follow (step_Func (owner_step name f)) (λ _, True).
Proof. intros Hf. cbn [owner_step step_Func]. eapply follows_bind; [done|apply follows_the_cluster|]. intros c _. apply Hf. Qed.
Lemma follow_writes name f : (∀ owner, writes F (f owner) (λ _, True)) → follow (step_Func (owner_step name f)) (λ _, True).
Proof. intros Hf. apply follow_owner. intros owner. by apply follows_on_cluster. Qed.
Lemma follow_condition c : follow (set_condition now c) (λ _, True).
Proof. apply follows_patch. intros st. apply SetCondition_flag. Qed.

(** *** Kinds and keys of what is rendered *)
Ltac rendered :=
  repeat match goal with
         | |- context [obind ?o _] => destruct o as [?|?|?]; cbn [obind]; [|done..]
         | |- context [wrap_err _ ?o] => destruct o as [?|?|?]; cbn [wrap_err]; [|done..]
         | |- context [let '(_, _) := ?p in _] => destruct p
         end; intros Heq%Ok_inj; by subst.
Lemma login_kind d : login_RenderStatefulSet cv = Ok d → (o_key d).1.1 = AdvancedStatefulSet.
Proof. unfold login_RenderStatefulSet. rendered. Qed.
Lemma controller_kind d : controller_RenderStatefulSet cv = Ok d → (o_key d).1.1 = AdvancedStatefulSet.
Proof. unfold controller_RenderStatefulSet. rendered. Qed.
Lemma rest_kind d : RenderDeploymentREST cv = Ok d → (o_key d).1.1 = Deployment.
Proof. unfold RenderDeploymentREST, deployment. rendered. Qed.
Lemma accounting_kind d : accounting_RenderDeployment cv = Ok d → (o_key d).1.1 = Deployment.
Proof. unfold accounting_RenderDeployment, deployment. rendered. Qed.
Lemma sconfig_kind d : sconfig_RenderDeployment cv = Ok d → (o_key d).1.1 = Deployment.
Proof. unfold sconfig_RenderDeployment, deployment. rendered. Qed.
Lemma exporter_kind d : RenderDeploymentExporter cv = Ok d → (o_key d).1.1 = Deployment.
Proof. unfold RenderDeploymentExporter, deployment. rendered. Qed.
Lemma grant_kind d : RenderMariaDbGrant cv = Ok d → (o_key d).1.1 = Grant.
Proof. unfold RenderMariaDbGrant. rendered. Qed.
Lemma mariaDb_kind d : RenderMariaDb cv = Ok d → (o_key d).1.1 = MariaDB.
Proof. unfold RenderMariaDb. rendered. Qed.
Lemma job_kind d : RenderPopulateJailJob cv = Ok d → o_key d = jail_key cv.
Proof. unfold RenderPopulateJailJob. rendered. Qed.
Lemma jwt_key d : rest_RenderSecret cv = Ok d → o_key d = jwt_secret cv.
Proof. unfold rest_RenderSecret. rendered. Qed.
Lemma munge_key d : RenderMungeKeySecret cv = Ok d → o_key d = munge_secret cv.
Proof. unfold RenderMungeKeySecret. rendered. Qed.
Lemma sshd_key t d : RenderSSHDKeysSecret cv t = Ok d → o_key d = sshd_secret cv.
Proof. unfold RenderSSHDKeysSecret. rendered. Qed.
Lemma slurmdbd_key s d : accounting_RenderSecret cv s = Ok d → o_key d = (Secret, sc_Namespace cv, BuildSecretSlurmdbdConfigsName (sc_Name cv)).
Proof. unfold accounting_RenderSecret. rendered. Qed.
Lemma mariaDbSecret_key n d : RenderSecretMariaDb cv n = Ok d → o_key d = (Secret, sc_Namespace cv, n).
Proof. unfold RenderSecretMariaDb. rendered. Qed.

(** *** The steps *)
Lemma follow_common : follow (ReconcileCommon marshal unmarshal now order inst cv) (λ _, True).
Proof.
  apply follows_wrapM, follows_steps; [done|]. intros s Hs. unfold common_steps in Hs. elem_cases Hs; subst s.
  - apply follow_owner. intros owner. apply Hgen; [done|apply jwt_key].
  - cbn [step_Func]. unfold step_configs. eapply follows_bind; [done|apply follows_the_cluster|]. intros c _.
    eapply follows_bind with (Q := λ _, True); [done| |].
    { apply follows_on_cluster; [done|]. unfold ListNodeSetsByClusterRef.
      eapply writes_bind; [apply writes_wrapM, writes_List|]. intros. by apply writes_ret. }
    intros l _. eapply follows_bind; [done|by apply follows_wrapM, follows_on_cluster, writes_managed|]. intros _ _.
    apply follow_condition.
  - apply follow_writes. intros owner. by apply writes_wrapM, writes_managed.
  - apply follow_owner. intros owner. apply Hgen; [done|apply munge_key].
  - apply follow_writes. intros owner. unfold step_appArmor. do 2 (destruct (negb _); [by apply writes_ret|]).
    by apply writes_wrapM, writes_managed.
  - apply follow_writes. intros owner. by apply writes_wrapM, writes_managed.
  - apply follow_owner. intros owner. apply Hgen; [done|apply sshd_key].
Qed.
Lemma writes_clientCert : writes F (handleExternalDBClientCert cv) (λ _, True).
Proof.
  unfold handleExternalDBClientCert. destruct (String.eqb _ _); [apply writes_fail|].
  eapply writes_bind; [apply writes_Get|]. intros s _.
  do 2 (eapply writes_bind; [by apply (writes_lift _ _ (λ _, True))|]; intros _ _). by apply (writes_lift _ _ (λ _, True)).
Qed.
Lemma writes_password : writes F (handleExternalDBPassword cv) (λ _, True).
Proof.
  unfold handleExternalDBPassword. destruct (String.eqb _ _); [apply writes_fail|].
  apply writes_wrapM. by eapply writes_weaken; [apply writes_Get|].
Qed.
Lemma writes_mariaDbGet n : writes F (handleMariaDB cv n) (λ _, True).
Proof. apply writes_wrapM. by eapply writes_weaken; [apply writes_Get|]. Qed.
Lemma writes_slurmdbd owner : writes F (step_slurmdbd marshal unmarshal cv owner) (λ _, True).
Proof.
  unfold step_slurmdbd. destruct (_ && _); [by apply writes_ret|].
  eapply writes_bind with (Q := λ _, True); [destruct (_ && _); [apply writes_clientCert|by apply writes_ret]|]. intros _ _.
  eapply writes_bind with (Q := λ _, True).
  { destruct (_ && _); [|by apply writes_ret]. eapply writes_bind; [apply writes_password|]. intros. by apply writes_ret. }
  intros s1 _. eapply writes_bind with (Q := λ _, True).
  { destruct (acc_MariaDbEnabled _); [|by apply writes_ret]. eapply writes_bind; [apply writes_mariaDbGet|]. intros. by apply writes_ret. }
  intros s2 _. eapply writes_bind; [apply writes_wrapM, writes_lift, slurmdbd_key|]. intros d Hd.
  apply writes_wrapM, writes_Reconcile. rewrite Hd. apply HFs. unfold other_secrets. in_list.
Qed.
Lemma writes_mariaDbSecret n : n ∈ [MariaDbSecretName; MariaDbSecretRootName] → writes F (step_mariaDbSecret cv n) (λ _, True).
Proof.
  intros Hn. unfold step_mariaDbSecret. destruct (_ && _); [by apply writes_ret|]. destruct (_ || _); [by apply writes_ret|].
  eapply writes_bind; [apply writes_attempt, writes_mariaDbGet|]. intros [o|e] _; [by apply writes_ret|].
  eapply writes_bind with (Q := λ _, True); [|intros; apply writes_fail]. destruct (IsNotFound e); [|by apply writes_ret].
  eapply writes_bind; [apply writes_wrapM, writes_lift, mariaDbSecret_key|]. intros d Hd.
  apply writes_wrapM, writes_Create. rewrite Hd. apply HFs. unfold other_secrets. do 2 right. done.
Qed.
Lemma writes_mariaDbObject owner k what render :
  (∀ d, render = Ok d → (o_key d).1.1 = k) → k ≠ SlurmCluster → k ≠ Secret →
  writes F (reconcile_mariaDb marshal unmarshal inst cv owner k what render) (λ _, True).
Proof.
  intros Hr H1 H2. unfold reconcile_mariaDb. destruct (negb _); [by apply writes_ret|]. destruct (_ || _).
  - apply writes_wrapM. simpl. by apply writes_deleteIfOwned, HFo.
  - eapply writes_bind; [apply writes_wrapM, writes_lift, Hr|]. intros d Hd. apply writes_wrapM. simpl. apply writes_managed; congruence.
Qed.
Lemma follow_accounting : follow (ReconcileAccounting marshal unmarshal inst cv) (λ _, True).
Proof.
  apply follows_wrapM, follows_steps; [done|]. intros s Hs. unfold accounting_steps in Hs. elem_cases Hs; subst s;
    apply follow_writes; intros owner.
  - apply writes_slurmdbd.
  - apply writes_mariaDbSecret. in_list.
  - apply writes_mariaDbSecret. in_list.
  - apply writes_wrapM. destruct (acc_Enabled _); [by apply writes_service|]. simpl. by apply writes_deleteIfOwned, HFo.
  - apply writes_mariaDbObject; [apply grant_kind|done..].
  - apply writes_mariaDbObject; [apply mariaDb_kind|done..].
  - unfold step_accountingDeployment. destruct (negb _); [by apply writes_wrapM, writes_Cleanup, HFo|].
    by eapply writes_rendered; [apply accounting_kind|..].
Qed.
Lemma writes_sssd owner container isDefault n t what :
  (isDefault = true → n = BuildSecretSSSDConfName (sc_Name cv)) →
  writes F (reconcile_sssd marshal unmarshal cv owner container isDefault n t what) (λ _, True).
Proof.
  intros Hn. unfold reconcile_sssd. destruct container; [|by apply writes_ret]. destruct isDefault; [|by apply writes_ret]. cbn [negb].
  apply writes_wrapM, writes_Reconcile. rewrite Hn by done. apply HFs. unfold other_secrets. in_list.
Qed.
Lemma follow_controllers : follow (ReconcileControllers marshal unmarshal inst cv) (λ _, True).
Proof.
  apply follows_wrapM, follows_steps; [done|]. intros s Hs. unfold controller_steps in Hs. elem_cases Hs; subst s;
    apply follow_writes; intros owner.
  - by apply writes_sssd.
  - by apply writes_wrapM, writes_managed.
  - by apply writes_wrapM, writes_service.
  - unfold step_serviceMonitor. destruct (negb _); [by apply writes_ret|].
    destruct (default _ _); [by apply writes_wrapM, writes_managed|by apply writes_wrapM, writes_Cleanup, HFo].
  - by eapply writes_rendered; [apply controller_kind|..].
Qed.
Lemma follow_login : follow (ReconcileLogin marshal unmarshal cv) (λ _, True).
Proof.
  apply follows_wrapM, follows_steps; [done|]. intros s Hs. unfold reconcileLogin_steps in Hs. elem_cases Hs; subst s.
  3: apply follow_owner; intros owner; apply Hgen; [done|apply sshd_key].
  all: apply follow_writes; intros owner.
  - unfold step_loginSSHD. destruct (negb _); [by apply writes_ret|]. by apply writes_wrapM, writes_managed.
  - by apply writes_wrapM, writes_managed.
  - by apply writes_sssd.
  - by apply writes_wrapM, writes_managed.
  - by apply writes_wrapM, writes_managed.
  - by apply writes_wrapM, writes_service.
  - by apply writes_wrapM, writes_service.
  - by eapply writes_rendered; [apply login_kind|..].
Qed.
Lemma follow_rest : follow (ReconcileREST marshal unmarshal cv) (λ _, True).
Proof.
  unfold ReconcileREST. destruct (negb _); [by apply follows_ret|]. destruct (_ && _); [by apply follows_ret|].
  apply follows_wrapM, follows_steps; [done|]. intros s Hs. unfold rest_steps in Hs. elem_cases Hs; subst s;
    apply follow_writes; intros owner.
  - by apply writes_wrapM, writes_service.
  - by eapply writes_rendered; [apply rest_kind|..].
Qed.
Lemma follow_sconfig : follow (ReconcileSConfigController marshal unmarshal cv) (λ _, True).
Proof.
  apply follows_wrapM, follows_steps; [done|]. intros s Hs. elem_cases Hs; subst s. apply follow_writes. intros owner.
  unfold step_sconfig. eapply writes_bind; [apply writes_wrapM, writes_lift, sconfig_kind|]. intros d Hd.
  apply writes_wrapM, writes_managed; by rewrite Hd.
Qed.
Lemma follow_exporter : follow (ReconcileSoperatorExporter marshal unmarshal inst cv) (λ _, True).
Proof.
  unfold ReconcileSoperatorExporter. do 2 (destruct (negb _); [by apply follows_ret|]).
  apply follows_wrapM, follows_steps; [done|]. intros s Hs. unfold exporter_steps in Hs. elem_cases Hs; subst s;
    apply follow_writes; intros owner.
  - unfold step_podMonitor. destruct (exp_Enabled _); [by apply writes_wrapM, writes_managed|by apply writes_wrapM, writes_Cleanup, HFo].
  - unfold step_exporter. destruct (exp_Enabled _); [|by apply writes_wrapM, writes_Cleanup, HFo].
    eapply writes_bind; [apply writes_wrapM, writes_lift, exporter_kind|]. intros d Hd. apply writes_wrapM, writes_managed; by rewrite Hd.
Qed.
Lemma follow_groups : follow (reconcile_groups marshal unmarshal now order inst cv) (λ _, True).
Proof.
  unfold reconcile_groups.
  eapply follows_bind; [done|apply follow_common|intros _ _]. eapply follows_bind; [done|apply follow_accounting|intros _ _].
  eapply follows_bind; [done|apply follow_sconfig|intros _ _]. eapply follows_bind; [done|apply follow_controllers|intros _ _].
  eapply follows_bind; [done|apply follow_login|intros _ _]. eapply follows_bind; [done|apply follow_rest|intros _ _].
  apply follow_exporter.
Qed.

(** *** Validation *)
Lemma report_flag field available c st :
  let f := λ status : fields,
    let changesInStatus := negb (bool_decide (field_optint status [field] = Some available)) in
    let status := if changesInStatus then <[[field] := VInt available]> status else status in
    let '(status, changesInConditions) := SetCondition now status c in
    (status, changesInStatus || changesInConditions) in
  (f st).2 = true ∨ (f st).1 = st.
Proof.
  cbv zeta beta. destruct (negb _); [left; by destruct (SetCondition _ _ _)|].
  pose proof (SetCondition_flag now st c) as Hs. by destruct (SetCondition now st c) as [st' b].
Qed.
Lemma follow_report field available c : follow (report_ready now field available c) (λ _, True).
Proof. apply follows_wrapM, follows_patch. intros st. apply report_flag. Qed.
Lemma follow_get k : follow (on_cluster (client_Get k)) (λ _, True).
Proof. apply follows_on_cluster; [done|]. by eapply writes_weaken; [apply writes_Get|]. Qed.
Lemma follow_typed k : follow (on_cluster (getTypedResource k)) (λ _, True).
Proof.
  apply follows_on_cluster; [done|]. unfold getTypedResource. eapply writes_bind; [apply writes_attempt, writes_Get|].
  intros [o|e] _; [by apply writes_ret|]. destruct (IsNotFound e); [by apply writes_ret|apply writes_fail].
Qed.
Lemma follow_update status reason message t : follow (updateAccountingAvailabilityStatus now status reason message t) (λ _, True).
Proof. unfold updateAccountingAvailabilityStatus. eapply follows_bind; [done|apply follow_condition|]. intros. by apply follows_ret. Qed.
Lemma follow_mariaDb k message : follow (mariaDb_conditions now cv k message) (λ _, True).
Proof.
  unfold mariaDb_conditions. destruct (negb _); [by apply follows_ret|].
  eapply follows_bind; [done|apply follows_attempt, follow_typed|].
  intros [[o|]|e] _; [by apply follows_ret|..]; (eapply follows_bind; [done|apply follow_update|]; intros; by apply follows_ret).
Qed.
Lemma follow_validateAccounting : follow (ValidateAccounting now cv) (λ _, True).
Proof.
  unfold ValidateAccounting. eapply follows_bind; [done|apply follows_attempt, follow_typed|].
  intros [[o|]|e] _; [|apply follows_halt|apply follow_update].
  eapply follows_bind; [done|apply follow_mariaDb|]. intros [m|r] _; [|by apply follows_ret].
  eapply follows_bind; [done|apply follow_mariaDb|]. intros [g|r] _; [|by apply follows_ret].
  destruct (accountingStatus _ _ _ _) as [[st re] me]. apply follow_update.
Qed.
(** A workload that is looked up and reported. *)
Lemma follow_lookup {A} (k : key) (onErr : gerror → M in_memory A) (f : resource → M in_memory A) Q :
  (∀ e, follow (onErr e) Q) → (∀ o, follow (f o) Q) →
  follow (let! got := attempt (on_cluster (client_Get k)) in match got with inr e => onErr e | inl o => f o end) Q.
Proof. intros He Hf. eapply follows_bind; [done|apply follows_attempt, follow_get|]. by intros [o|e] _. Qed.
Lemma follow_validation : follow (validation now cv) (λ _, True).
Proof.
  unfold validation. do 2 (eapply follows_bind; [done|apply follow_condition|intros _ _]).
  assert (∀ vs, (∀ v, v ∈ vs → follow v (λ _, True)) → follow (validations vs) (λ _, True)) as Hvs.
  { induction vs as [|v vs IH]; intros Hv; simpl; [by apply follows_ret|].
    eapply follows_bind; [done|apply Hv; left|]. intros [t|] _; [by apply follows_ret|]. apply IH. intros. apply Hv. by right. }
  apply Hvs. intros v Hv.
  assert (∀ e msg t, follow (if IsNotFound e then ret (Some t) else fail (ErrWrap msg e) : M in_memory RequeueAfter) (λ _, True)) as Herr.
  { intros e msg t. destruct (IsNotFound e); [by apply follows_ret|apply follows_fail]. }
  elem_cases Hv; subst v.
  - unfold validate_controllers. destruct (IsMaintenanceActive _).
    { eapply follows_bind; [done|apply follow_condition|]. intros. by apply follows_ret. }
    apply follows_wrapM, follow_lookup; [done|]. intros o. eapply follows_bind; [done|apply follows_wrapM, follow_condition|].
    intros. by apply follows_ret.
  - unfold validate_login. destruct (IsMaintenanceActive _).
    { eapply follows_bind; [done|apply follow_condition|]. intros. by apply follows_ret. }
    apply follows_wrapM, follow_lookup; [done|]. intros o. eapply follows_bind; [done|apply follow_report|]. intros. by apply follows_ret.
  - unfold validate_accounting. destruct (IsMaintenanceActive _); [|destruct (negb _)].
    1,2: eapply follows_bind; [done|apply follow_condition|]; intros; by apply follows_ret.
    apply follows_wrapM, follow_validateAccounting.
  - apply follows_wrapM, follow_lookup; [done|]. intros o. destruct (field_optint _ _); [|apply follows_halt].
    eapply follows_bind; [done|apply follow_report|]. intros. by apply follows_ret.
Qed.
Lemma follow_phase phase : follow (set_phase phase) (λ _, True).
Proof. apply follows_patch. intros st. destruct (bool_decide _); [by right|by left]. Qed.
Lemma follow_outcome res : follow (validate_and_report now cv res) (λ _, True).
Proof.
  unfold validate_and_report. eapply follows_bind; [done|apply follows_attempt, follow_validation|]. intros r _.
  eapply follows_bind; [done|apply follows_attempt, follow_phase|]. intros p _.
  destruct r as [[t ok]|e], p as [u|e']; first [by apply follows_ret|apply follows_fail].
Qed.

(** *** The jail *)
Lemma writes_wait n k : writes F (wait_job n k) (λ _, True).
Proof.
  induction n as [|n IH]; [apply writes_fail|]. cbn. eapply writes_bind; [apply writes_wrapM, writes_Get|]. intros j _.
  by destruct (_ <? _)%Z; [apply writes_ret|].
Qed.
Lemma writes_pods ns labels : writes F (pods_with ns labels) (λ _, True).
Proof. unfold pods_with. eapply writes_bind; [apply writes_List|]. intros. by apply writes_ret. Qed.
Lemma writes_jail c : writes F (jail_step marshal unmarshal polls c cv) (λ _, True).
Proof.
  assert (F (jail_key cv)) as Hk by (by apply HFo). unfold jail_step.
  eapply writes_bind; [apply writes_attempt, writes_Get|]. intros [job|e] _.
  - destruct (IsModeDownscaleAndDeletePopulate _).
    { eapply writes_bind; [by apply writes_wrapM, writes_Delete|]. intros. by apply writes_ret. }
    destruct (IsModeDownscaleAndOverwritePopulate _); [|by apply writes_ret].
    eapply writes_bind with (Q := λ _, True); [|intros; by apply writes_ret].
    destruct (isConditionNonOverwrite _); [by apply writes_wrapM, writes_Delete|by apply writes_ret].
  - destruct (_ && _); [apply writes_fail|]. destruct (IsModeDownscaleAndDeletePopulate _); [by apply writes_ret|].
    eapply writes_bind with (Q := λ _, True).
    { apply writes_wrapM. unfold hasNonTerminalLoginOrWorkerPods. eapply writes_bind; [apply writes_wrapM, writes_pods|]. intros l _.
      destruct (hasNonTerminalPods l); [by apply writes_ret|].
      eapply writes_bind; [apply writes_wrapM, writes_pods|]. intros. by apply writes_ret. }
    intros [|] _; [by apply writes_ret|].
    eapply writes_bind; [apply writes_lift, job_kind|]. intros d Hd.
    eapply writes_bind; [apply writes_wrapM, writes_Reconcile; by rewrite Hd|]. intros _ _.
    eapply writes_bind; [apply writes_wrapM, writes_wait|]. intros. by apply writes_ret.
Qed.
Lemma follow_jail : follow (ReconcilePopulateJail marshal unmarshal polls cv) (λ _, True).
Proof.
  unfold ReconcilePopulateJail. eapply follows_bind; [done|apply follows_the_cluster|]. intros c _.
  eapply follows_bind; [done|apply follows_wrapM, follows_wrapM, follows_wrapM, follows_on_cluster; [done|apply writes_jail]|].
  intros s _. by apply follows_ret.
Qed.
Lemma follow_reconcile : follow (reconcile_with marshal unmarshal now order inst polls cv) (λ _, True).
Proof.
  unfold reconcile_with. eapply follows_bind with (Q := λ _, True); [done|destruct (IsModeSkipPopulateJail _); [by apply follows_ret|apply follow_jail]|].
  intros [res [|]] _; [by apply follows_ret|]. eapply follows_bind; [done|apply follow_groups|]. intros _ _. apply follow_outcome.
Qed.
End groups.

(** ** The values *)
Lemma Validate_same c c' : Validate c = Ok c' → c' = c ∨ ∃ n, c' = with_SshdKeysName n c.
Proof.
  unfold Validate. do 6 (match goal with |- context [obind ?o _] => destruct o as [?|?|?]; cbn [obind]; [|done..] end).
  destruct (String.eqb _ _).
  - destruct (ExecuteMultiStep _ _ _) as [u [?|?|?]]; [|done..]. cbn. intros [= <-]. eauto.
  - destruct (ExecuteMultiStep _ _ _) as [u [?|?|?]]; [|done..]. cbn. intros [= <-]. auto.
Qed.
Lemma or_default_name ref dflt : (or_default ref dflt).1 = true → (or_default ref dflt).2 = dflt.
Proof. unfold or_default. by destruct (String.eqb ref ""). Qed.
(** What the controller relies on in them. *)
Record built (c : resource) (cv : values_SlurmCluster) : Prop := {
  b_Namespace : sc_Namespace cv = o_namespace c;
  b_Name : sc_Name cv = o_name c;
  b_Job : pj_Name (sc_PopulateJail cv) = BuildPopulateJailJobName (o_name c);
  b_Maintenance : pj_Maintenance (sc_PopulateJail cv) = field_optstr (subtree ["spec"] (o_body c)) ["maintenance"];
  b_Controller : ctl_IsSSSDSecretDefault (sc_NodeController cv) = true →
    ctl_SSSDConfSecretName (sc_NodeController cv) = BuildSecretSSSDConfName (sc_Name cv);
  b_Login : lg_IsSSSDSecretDefault (sc_NodeLogin cv) = true →
    lg_SSSDConfSecretName (sc_NodeLogin cv) = BuildSecretSSSDConfName (sc_Name cv) }.
Lemma values_built c prefix cv : BuildSlurmClusterFrom c prefix = Ok cv → built c cv.
Proof.
  unfold BuildSlurmClusterFrom. destruct (field_optstr _ _) as [mode|] eqn:Hm; [|done]. intros Hv.
  match type of Hv with wrap_err _ (Validate ?v) = _ => set (v0 := v) in * end.
  assert (built c v0) as Hb.
  { split; [done|done|done|by rewrite Hm|..]; unfold v0; cbn -[or_default].
    - unfold buildSlurmControllerFrom. pose proof (or_default_name (field_str (subtree ["slurmNodes"; "controller"] (subtree ["spec"] (o_body c)))
        ["sssdConfSecretRefName"]) (BuildSecretSSSDConfName (o_name c))) as Hd. by destruct (or_default _ _).
    - unfold buildSlurmLoginFrom. pose proof (or_default_name (field_str (subtree ["slurmNodes"; "login"] (subtree ["spec"] (o_body c)))
        ["sssdConfSecretRefName"]) (BuildSecretSSSDConfName (o_name c))) as Hd.
      destruct (or_default (field_str _ ["sshdConfigMapRefName"]) _). by destruct (or_default _ _). }
  clearbody v0. destruct (Validate v0) as [v|e|h] eqn:Hval; [|done..]. injection Hv as ->.
  destruct (Validate_same _ _ Hval) as [->|[n ->]]; [done|]. destruct Hb. by split.
Qed.
Lemma built_gpu c cv gpu : built c cv → built c (with_ClusterWithGPU gpu cv).
Proof. intros []. by split. Qed.

(** ** Before the groups *)
Section start.
  Context `{StatusConditions} (now : Z).
Lemma setUp_flag st0 :
  let f := λ status : fields,
    let set_field '(status, needToUpdate) '(field, v) :=
      match (status : fields) !! [field] with Some _ => (status, needToUpdate) | None => (<[[field] := v]> status, true) end in
    let set_condition '(status, needToUpdate) type :=
      match FindStatusCondition (field_conds status ["conditions"]) type with
      | Some _ => (status, needToUpdate)
      | None =>
          let '(status, updated) := SetCondition now status (condition type "Unknown" "SetUpCondition" "The object is not ready yet.") in
          (status, needToUpdate || updated)
      end in
    foldl set_condition
      (foldl set_field (status, false)
         [("phase", VStr PhaseClusterPending); ("readyLogin", VInt 0); ("readySConfigController", VInt 0)])
      [ConditionClusterCommonAvailable; ConditionClusterControllersAvailable; ConditionClusterLoginAvailable;
       ConditionClusterSConfigControllerAvailable; ConditionClusterAccountingAvailable] in
  (f st0).2 = true ∨ (f st0).1 = st0.
Proof.
  cbv zeta beta. apply fold_flag.
  - intros [st b] type Hx. simpl in *. destruct (FindStatusCondition _ _); [done|].
    pose proof (SetCondition_flag now st (condition type "Unknown" "SetUpCondition" "The object is not ready yet.")) as Hs.
    destruct (SetCondition _ _ _) as [st' b']. simpl in *. destruct Hx as [->| ->], Hs as [->|Hs]; rewrite ?orb_true_r; auto.
  - apply fold_flag; [|by right]. intros [st b] [field v] Hx. simpl in *. destruct (st !! [field]); [done|]. by left.
Qed.
Lemma build_values_quiet c w :
  quiet w → ∃ r, build_values (c, w) = ((c, w), r) ∧
    ∀ cv, r = Ok cv → ∃ gpu cv0, BuildSlurmClusterFrom c (workload_prefix (w_objects w) (o_namespace c) (o_name c)) = Ok cv0 ∧
                                 cv = with_ClusterWithGPU gpu cv0.
Proof.
  intros Hq. unfold build_values. rewrite (bind_ok the_cluster _ (c, w) (c, w) c eq_refl).
  rewrite (bind_ok _ _ _ (c, w) (workload_prefix (w_objects w) (o_namespace c) (o_name c)))
    by (unfold on_cluster; by rewrite prefix_quiet).
  unfold bind at 1, lift. destruct (BuildSlurmClusterFrom _ _) as [cv0|e|h]; [|by eexists..].
  pose proof (nodeSets_quiet w (o_namespace c) (o_name c) Hq) as Hl. set (l := nodeSets_of _ _ _) in Hl.
  rewrite (bind_ok _ _ _ (c, w) l) by (apply wrapM_ok; unfold on_cluster; by rewrite Hl).
  eexists. split; [done|]. intros cv [= <-]. eauto.
Qed.
End start.

(** ** The defaults *)
Definition default_paths : list path :=
  ((λ f, ["spec"; "plugStackConfig"] ++ f) <$>
     [["pyxis"; "useSquashfuse"]; ["pyxis"; "required"]; ["ncclDebug"; "enabled"]; ["ncclInspectorPreConf"; "dumpVerbose"];
      ["ncclInspectorPreConf"; "enabled"]; ["ncclInspectorPreConf"; "required"]]) ++
  ((λ f, ["spec"; "slurmNodes"; "exporter"; f]) <$> ["enabled"; "jobSource"; "maxCollectorInflight"; "accountingJobsLookback"]).
Lemma default_field_other p v b q : q ≠ p → default_field p v b !! q = b !! q.
Proof. intros Hq. unfold default_field. destruct (has_field b p); [done|]. by rewrite lookup_insert_ne. Qed.
Lemma default_str_other p v b q : q ≠ p → default_str p v b !! q = b !! q.
Proof. intros Hq. unfold default_str. destruct (String.eqb _ _); [|done]. by rewrite lookup_insert_ne. Qed.
Lemma defaults_other b q : q ∉ default_paths → cluster_defaults b !! q = b !! q.
Proof.
  intros Hq. assert (∀ p, p ∈ default_paths → q ≠ p) as Hne by (intros p Hp ->; done).
  unfold cluster_defaults, SlurmExporter_SetDefaults, NcclInspectorPreConf_SetDefaults, NcclDebug_SetDefaults, Pyxis_SetDefaults. cbn [app].
  rewrite default_str_other by (apply Hne; unfold default_paths; cbn; in_list).
  destruct (_ =? 0)%Z; [rewrite lookup_insert_ne by (symmetry; apply Hne; unfold default_paths; cbn; in_list)|];
    rewrite default_str_other by (apply Hne; unfold default_paths; cbn; in_list);
    rewrite !default_field_other by (apply Hne; unfold default_paths; cbn; in_list); done.
Qed.
