(* ===== verification/ClusterOutcome.v ===== *)
(** * Guarantees of the cluster controller

    For a whole [Reconcile] of a SlurmCluster with no other client and no failing request: nothing is deployed while the jail is being
    populated, the phase says whether the workloads are available, and Secrets with generated keys are never written again. *)
From S2P Require Import Prelude GoStrings Kube Naming Effects MultiStep Reconciler Patchers Ownership QuietRuns ConfigTexts Workers.
From S2P Require Import ClusterValues NodeSetCtl NodeSetOutcome SlurmConfigs ClusterObjects ClusterCtl ClusterRuns.
From Stdlib Require String.

Section outcome.
  Context (marshal : gmap string string → string) (unmarshal : string → option (gmap string string)).
  Context `{StatusConditions} (now : Z) `{Rendering} (order : map_order) (inst : Installed) (polls : nat).
  Local Abbreviation run := (cluster_reconcile marshal unmarshal now order inst polls).
  Local Abbreviation run_all := (SlurmCluster_Reconcile marshal unmarshal now order inst polls).

(** ** One reconciliation, from the request *)
Lemma moved_mono (F G : key → Prop) x y : (∀ i, F i → G i) → moved F x y → moved G x y.
Proof. intros HFG (Hk & Hf & Hs). split_and!; [done| |done]. intros i Hi. apply Hf. auto. Qed.
Lemma setUp_run x : in_step x → ∃ y, setUpStatus now x = (y, Ok tt) ∧ in_step y ∧ moved (λ _, False) x y.
Proof.
  destruct x as [c w]. intros Hx.
  destruct (patch_memory_quiet (λ _, False) "patching SlurmCluster status" _ c w Hx (setUp_flag now (o_status c))) as (c' & w' & Hp & Hin & _ & Hm).
  by exists (c', w').
Qed.
Lemma refresh_quiet ns name w : quiet w → filed w → cluster_refreshStatus ns name w = (w, Ok tt).
Proof.
  intros Hq Hf. unfold cluster_refreshStatus. cbn [RetryOnConflict]. unfold bind, attempt. rewrite Get_quiet by done.
  destruct (w_objects w !! _) as [o|] eqn:Ho; [|done]. pose proof (Hf _ _ Ho) as Hk.
  unfold client_StatusUpdate, write. rewrite quiet_request by done. rewrite Hk, Ho. unfold optimistic. rewrite Z.eqb_refl.
  unfold store. rewrite decide_True; [done|]. by destruct o.
Qed.
(** The object as it is got. *)
Definition with_defaults (cl : resource) : resource := with_body (cluster_defaults (o_body cl)) cl.
Definition free (st : gset string) (ns name : string) : Prop :=
  buildKey "slurm.nebius.ai/v1, Kind=SlurmCluster" ns name ∉ st.
Lemma in_step_got ns name w cl :
  quiet w → filed w → w_objects w !! (SlurmCluster, ns, name) = Some cl → in_step (with_defaults cl, w).
Proof. intros Hq Hf Hcl. pose proof (Hf _ _ Hcl) as Hk. split_and!; simpl; [done|done|by rewrite Hk|]. exists cl. by rewrite Hk. Qed.
(** Nothing but the reconciliation itself happens to the objects. *)
Lemma Reconcile_run ns name st w cl x' r :
  quiet w → w_objects w !! (SlurmCluster, ns, name) = Some cl → filed w → free st ns name →
  has_field (o_body (with_defaults cl)) ["metadata"; "deletionTimestamp"] = false →
  run (with_defaults cl, w) = (x', r) → in_step x' →
  ((run_all ns name (st, w)).1).2 = x'.2 ∧ ∀ res, (run_all ns name (st, w)).2 = Ok res → r = Ok res.
Proof.
  intros Hq Hcl Hf Hst Hdel Hrun (Hq' & Hf' & _). destruct x' as [c' w']. cbn [snd] in *. pose proof (Hf _ _ Hcl) as Hk.
  assert (∃ st', run_all ns name (st, w) = ((st', w'), wrap_err "reconciling SlurmCluster" r)) as [st' ->].
  2: { split; [done|]. by destruct r. }
  unfold SlurmCluster_Reconcile, bind at 1, attempt at 1, on_cluster at 1. rewrite Get_quiet by done. rewrite Hcl. cbv iota beta zeta.
  fold (with_defaults cl). rewrite Hdel. unfold cluster_reconcile_sync.
  unfold bind at 1, attempt at 1, wrapM at 1. unfold state_Present. rewrite bool_decide_eq_false_2.
  2: { unfold o_namespace, o_name. cbn [o_key with_defaults with_body]. by rewrite Hk. }
  rewrite Hrun. destruct r as [res|e|h]; cbn [wrap_err]; [..|by eexists];
    unfold bind, attempt, on_cluster; rewrite refresh_quiet by done; by eexists.
Qed.

(** ** The jail comes first *)
Definition mode_of (cl : resource) : option string := field_optstr (o_body cl) ["spec"; "maintenance"].
Definition cluster_job (ns name : string) : key := (BatchJob, ns, BuildPopulateJailJobName name).
(** The maintenance mode in memory is the one on the server. *)
Lemma mode_moved F w cl y :
  w_objects w !! o_key cl = Some cl → moved F (with_defaults cl, w) y →
  field_optstr (subtree ["spec"] (o_body y.1)) ["maintenance"] = mode_of cl.
Proof.
  intros Hcl (_ & _ & Hs). destruct (Hs cl Hcl) as (s' & _ & _ & Hb). unfold mode_of, field_optstr. rewrite lookup_subtree. cbn [app].
  assert (cluster_defaults (o_body cl) !! ["spec"; "maintenance"] = o_body cl !! ["spec"; "maintenance"]) as Hd.
  { apply defaults_other. unfold default_paths. cbn. intros Hin. elem_cases Hin; discriminate Hin. }
  simpl in Hb. destruct Hb as [Hb|Hb]; rewrite Hb; [by rewrite Hd|].
  rewrite lookup_union, Hd. by destruct (o_body cl !! _).
Qed.
(** Populating the jail, with the Job on the server and not yet done. *)
Lemma jail_unfinished cv c w job :
  quiet w → w_objects w !! jail_key cv = Some job → Job_Succeeded job = 0%Z →
  IsModeDownscaleAndDeletePopulate (pj_Maintenance (sc_PopulateJail cv)) = false →
  ∃ w', ReconcilePopulateJail marshal unmarshal polls cv (c, w) = ((c, w'), Ok (Some 10%Z, true)) ∧ quiet w' ∧
    (w' = w ∨ w' = World (w_next w) (delete (jail_key cv) (w_objects w)) (w_script w) ∧
              IsModeDownscaleAndOverwritePopulate (pj_Maintenance (sc_PopulateJail cv)) = true).
Proof.
  intros Hq Hjob Hs Hdel. unfold ReconcilePopulateJail. rewrite (bind_ok the_cluster _ (c, w) (c, w) c eq_refl).
  assert (∃ w', jail_step marshal unmarshal polls c cv w = (w', Ok JailNotReady) ∧ quiet w' ∧
    (w' = w ∨ w' = World (w_next w) (delete (jail_key cv) (w_objects w)) (w_script w) ∧
              IsModeDownscaleAndOverwritePopulate (pj_Maintenance (sc_PopulateJail cv)) = true)) as (w' & Hstep & Hw').
  { unfold jail_step. rewrite Hdel. unfold bind at 1, attempt at 1. rewrite Get_quiet by done. rewrite Hjob, Hs. cbn.
    destruct (IsModeDownscaleAndOverwritePopulate _); [|by exists w; auto].
    destruct (isConditionNonOverwrite _); [|by exists w; auto].
    eexists. unfold bind, wrapM, client_Delete. rewrite quiet_request by done. rewrite Hjob. cbn. split; [done|]. auto. }
  exists w'. split; [|done].
  rewrite (bind_ok _ _ _ (c, w') JailNotReady); [done|]. apply wrapM_ok, wrapM_ok, wrapM_ok. unfold on_cluster. by rewrite Hstep.
Qed.
Lemma jail_blocks w cl job :
  in_step (with_defaults cl, w) → w_objects w !! o_key cl = Some cl →
  w_objects w !! cluster_job (o_namespace cl) (o_name cl) = Some job → Job_Succeeded job = 0%Z →
  IsModeSkipPopulateJail (mode_of cl) = false → IsModeDownscaleAndDeletePopulate (mode_of cl) = false →
  let '(x', r) := run (with_defaults cl, w) in
  in_step x' ∧ moved (λ i, i = cluster_job (o_namespace cl) (o_name cl)) (with_defaults cl, w) x' ∧
  (w_objects x'.2 !! cluster_job (o_namespace cl) (o_name cl) = Some job ∨
   w_objects x'.2 !! cluster_job (o_namespace cl) (o_name cl) = None ∧ IsModeDownscaleAndOverwritePopulate (mode_of cl) = true) ∧
  (∀ res, r = Ok res → res = Some 10%Z).
Proof.
  intros Hx Hcl Hjob Hs Hskip Hdel. set (k := cluster_job _ _) in *. pose proof (proj1 (proj2 (proj2 Hx))) as HK. cbn in HK.
  destruct (setUp_run _ Hx) as ([c1 w1] & Hset & Hx1 & Hm1). unfold cluster_reconcile. rewrite (bind_ok _ _ _ _ _ Hset).
  assert (w_objects w1 !! k = Some job) as Hjob1.
  { destruct Hm1 as (_ & Hf & _). cbn in Hf. rewrite Hf; [done|tauto|]. intros Hk. by rewrite <-Hk in HK. }
  destruct (build_values_quiet c1 w1 (proj1 Hx1)) as (r & Hb & Hcv).
  assert (moved (λ i, i = k) (with_defaults cl, w) (c1, w1)) as Hm1' by (by eapply moved_mono; [|exact Hm1]).
  destruct r as [cv|e|h]; cycle 1.
  1, 2: unfold bind; rewrite Hb; cbn beta iota; split; [done|split; [done|split; [by left|done]]].
  rewrite (bind_ok _ _ _ _ _ Hb). unfold reconcile_with. destruct (Hcv cv eq_refl) as (gpu & cv0 & Hv & ->). apply values_built, (built_gpu _ _ gpu) in Hv as [Hns Hn Hj Hmode _ _].
  pose proof (mode_moved _ _ _ _ Hcl Hm1) as Hmode'. cbn [fst] in Hmode'. rewrite Hmode' in Hmode. clear Hmode'. rewrite Hmode, Hskip.
  assert (jail_key (with_ClusterWithGPU gpu cv0) = k) as Hk.
  { unfold jail_key. rewrite Hns, Hj. unfold k, cluster_job, o_namespace, o_name. destruct Hm1 as (Hkey & _). cbn in Hkey. by rewrite Hkey. }
  destruct (jail_unfinished (with_ClusterWithGPU gpu cv0) c1 w1 job) as (w2 & Hp & Hq2 & Hw2);
    [apply Hx1|by rewrite Hk|done|by rewrite Hmode|]. rewrite Hk, Hmode in Hw2. rewrite (bind_ok _ _ _ _ _ Hp). cbn beta iota.
  destruct Hw2 as [->|[-> Hover]].
  - split; [done|split; [done|split; [by left|by intros ? [= <-]]]].
  - destruct Hx1 as (Hq1 & Hf1 & Hk1 & s & Hl & Hst). cbn in Hk1, Hl, Hst, Hf1. assert (o_key c1 ≠ k) as Hne by (intros Heq; by rewrite Heq in Hk1).
    split; [|split; [|split]].
    + split_and!; cbn; [done| |done|].
      * intros i o. simpl. rewrite lookup_delete. by case_decide; [|apply Hf1].
      * exists s. by rewrite lookup_delete_ne.
    + destruct Hm1' as (Hkey & Hfr & Hsv). split_and!; cbn in *; [done| |].
      * intros i Hi Hi'. rewrite lookup_delete_ne by done. by apply Hfr.
      * intros s0 Hs0. destruct (Hsv s0 Hs0) as (s' & Hs' & Hb'). exists s'.
        rewrite lookup_delete_ne; [done|]. intros Heq. by rewrite <-Heq in HK.
    + right. cbn. by rewrite lookup_delete_eq.
    + by intros ? [= <-].
Qed.

(** C9: nothing is deployed while the jail is being populated.  With no other client and no failing request: while the
    populate-jail Job of a cluster exists and has not succeeded, and the maintenance mode is neither to skip nor to delete it, a
    reconciliation changes no object but the cluster's status and, in the mode that overwrites the jail, possibly deletes the
    Job; whatever its outcome, a panic included; and if it succeeds it asks to be repeated in ten seconds. *)
Theorem jail_first (ns name : string) (st : gset string) (w : cluster_state) (cl job : resource) :
  quiet w → filed w → w_objects w !! (SlurmCluster, ns, name) = Some cl → free st ns name →
  has_field (cluster_defaults (o_body cl)) ["metadata"; "deletionTimestamp"] = false →
  w_objects w !! cluster_job ns name = Some job → Job_Succeeded job = 0%Z →
  IsModeSkipPopulateJail (mode_of cl) = false → IsModeDownscaleAndDeletePopulate (mode_of cl) = false →
  let r := SlurmCluster_Reconcile marshal unmarshal now order inst polls ns name (st, w) in
  let w' := r.1.2 in
  (∀ i, i ≠ (SlurmCluster, ns, name) → i ≠ cluster_job ns name → w_objects w' !! i = w_objects w !! i) ∧
  (o_body <$> w_objects w' !! (SlurmCluster, ns, name)) = Some (o_body cl) ∧
  (w_objects w' !! cluster_job ns name = Some job ∨
   w_objects w' !! cluster_job ns name = None ∧ IsModeDownscaleAndOverwritePopulate (mode_of cl) = true) ∧
  (∀ res, r.2 = Ok res → res = Some 10%Z).
Proof.
  intros Hq Hf Hcl Hst Hdel Hjob Hs Hskip Hstop r w'. pose proof (in_step_got _ _ _ _ Hq Hf Hcl) as Hx. pose proof (Hf _ _ Hcl) as Hk.
  assert (o_namespace cl = ns ∧ o_name cl = name) as [Hns Hn] by (unfold o_namespace, o_name; by rewrite Hk).
  pose proof (jail_blocks w cl job Hx) as Hb. rewrite Hk, Hns, Hn in Hb. specialize (Hb Hcl Hjob Hs Hskip Hstop).
  destruct (run (with_defaults cl, w)) as [x' r'] eqn:Hrun. destruct Hb as (Hx' & (_ & Hfr & Hsv) & Hj & Hres).
  destruct (Reconcile_run ns name st w cl x' r' Hq Hcl Hf Hst Hdel Hrun Hx') as [Hw Hr]. unfold w', r. rewrite Hw. cbn in Hfr, Hsv. rewrite Hk in *.
  split_and!; [intros i Hi Hi'; by apply Hfr| |done|auto].
  destruct (Hsv cl Hcl) as (s' & -> & Hbody & _). cbn. by rewrite Hbody.
Qed.

(** ** Secrets with generated keys *)
(** A Secret that is there is left as it is. *)
Lemma patch_self (o : resource) : (o_key o).1.1 = Secret → patch_of Secret o o = Ok o.
Proof.
  intros Hk. cbn. unfold assign_patch, assign. f_equal. destruct o as [k v c l a t b s]. unfold with_body. cbn. f_equal.
  apply map_eq. intros q. rewrite lookup_copy_fields. by destruct (decide _).
Qed.
Lemma generated_kept owner k what render w e :
  quiet w → w_objects w !! k = Some e → o_key e = k → k.1.1 = Secret → o_annotations e !! AnnotationVersions = None →
  reconcile_generated marshal unmarshal owner k what render w = (w, Ok tt).
Proof.
  intros Hq He Hk Hs Hv. unfold reconcile_generated. unfold bind at 1, attempt at 1. rewrite Get_quiet by done. rewrite He.
  rewrite (bind_ok (ret e) _ w w e eq_refl). apply wrapM_ok. unfold Reconcile. apply wrapM_ok. unfold reconcile. apply wrapM_ok.
  rewrite Hk, Hs. cbn [implemented negb].
  rewrite (bind_ok _ _ w w (e, e)).
  2: { apply wrapM_ok. unfold EnsureDeployed, bind, attempt. rewrite Hk, Get_quiet by done. by rewrite He. }
  rewrite (bind_ok _ _ w w e). 2: { apply wrapM_ok. unfold lift. by rewrite patch_self by (by rewrite Hk). }
  apply wrapM_ok. unfold EnsureUpdated. rewrite (bind_ok _ _ w w e) by done.
  assert (lift (getVersionsAnnotation unmarshal (o_annotations e)) w = (w, Ok ∅)) as Hve.
  { unfold lift, getVersionsAnnotation. by rewrite Hv. }
  rewrite (bind_ok _ _ w w ∅ Hve), (bind_ok _ _ w w ∅ Hve). rewrite decide_False by (intros Hne; by apply Hne).
  rewrite (bind_ok _ _ w w e); [done|]. apply wrapM_ok. unfold client_Patch, write. rewrite quiet_request by done.
  rewrite Hk, He, patched_same. unfold store. by rewrite decide_True.
Qed.
(** One that is not there is created. *)
Lemma writes_generated (F : key → Prop) owner k what render :
  F k → (∀ d, render = Ok d → o_key d = k) →
  writes F (reconcile_generated marshal unmarshal owner k what render) (λ _, True).
Proof.
  intros Hk Hr. unfold reconcile_generated. eapply writes_bind; [apply writes_attempt, writes_Get|]. intros got Hgot.
  eapply writes_bind with (Q := λ d, o_key d = k).
  - destruct got as [o|e]; [by apply writes_ret|]. destruct (IsNotFound e); [|apply writes_fail]. by apply writes_wrapM, writes_lift.
  - intros d Hd. apply writes_wrapM, writes_Reconcile. by rewrite Hd.
Qed.
(** The start of a reconciliation, and what is left to do with the values. *)
Lemma run_split x :
  in_step x →
  ∃ y, in_step y ∧ moved (λ _, False) x y ∧
    ((run x).1 = y ∧ (∀ res, (run x).2 ≠ Ok res) ∨
     ∃ gpu cv0, BuildSlurmClusterFrom y.1 (workload_prefix (w_objects y.2) (o_namespace y.1) (o_name y.1)) = Ok cv0 ∧
       run x = reconcile_with marshal unmarshal now order inst polls (with_ClusterWithGPU gpu cv0) y).
Proof.
  intros Hx. destruct (setUp_run _ Hx) as ([c1 w1] & Hset & Hx1 & Hm1). exists (c1, w1). split; [done|]. split; [done|].
  unfold cluster_reconcile. rewrite (bind_ok _ _ _ _ _ Hset). destruct (build_values_quiet c1 w1 (proj1 Hx1)) as (r & Hb & Hcv).
  destruct r as [cv|e|h]; cycle 1. 1, 2: unfold bind; rewrite Hb; by left.
  right. destruct (Hcv cv eq_refl) as (gpu & cv0 & Hv & ->). exists gpu, cv0. split; [done|]. by rewrite (bind_ok _ _ _ _ _ Hb).
Qed.
Lemma run_follows (F : key → Prop) (J : gmap key resource → Prop) x :
  (∀ i, F i → i.1.1 ≠ SlurmCluster) →
  (∀ m1 m2, (∀ i, ¬ F i → i.1.1 ≠ SlurmCluster → m1 !! i = m2 !! i) → J m1 → J m2) →
  (∀ i, i.1.1 ≠ SlurmCluster → i.1.1 ≠ Secret → F i) →
  (∀ n, n ∈ other_secrets (o_name x.1) → F (Secret, o_namespace x.1, n)) →
  (∀ owner k what render, k.1.1 = Secret → (∀ d, render = Ok d → o_key d = k) →
    follows F J (on_cluster (reconcile_generated marshal unmarshal owner k what render)) (λ _, True)) →
  in_step x → J (w_objects x.2) → in_step (run x).1 ∧ moved F x (run x).1.
Proof.
  intros HF HJ HFo HFs Hgen Hx Hj. destruct (run_split x Hx) as (y & Hy & Hm & Hrun).
  assert (moved F x y) as Hm' by (by eapply moved_mono; [|exact Hm]).
  destruct Hrun as [[-> _]|(gpu & cv0 & Hv & ->)]; [done|]. apply values_built, (built_gpu _ _ gpu) in Hv as [Hns Hn _ _ Hctl Hlog].
  assert (J (w_objects y.2)) as Hjy by (eapply moved_J; [done|apply Hx|done|done]).
  destruct (follow_reconcile marshal unmarshal now order inst polls F HF J HJ HFo (with_ClusterWithGPU gpu cv0)) with (x := y) as (Hin & Hmv & _);
    [|done|done|done|done|done|].
  - rewrite Hns, Hn. unfold o_name, o_namespace. destruct Hm as (-> & _). apply HFs.
  - split; [done|by apply (moved_trans _ _ y)].
Qed.
(** Also when the cluster is not reconciled: it is being deleted, or is already being reconciled. *)
Lemma Reconcile_world ns name st w cl :
  quiet w → filed w → w_objects w !! (SlurmCluster, ns, name) = Some cl → in_step (run (with_defaults cl, w)).1 →
  ((run_all ns name (st, w)).1).2 = w ∨ ((run_all ns name (st, w)).1).2 = (run (with_defaults cl, w)).1.2.
Proof.
  intros Hq Hf Hcl Hx. destruct (has_field (o_body (with_defaults cl)) ["metadata"; "deletionTimestamp"]) eqn:Hdel.
  { left. unfold SlurmCluster_Reconcile, bind, attempt, on_cluster. rewrite Get_quiet by done. rewrite Hcl. cbv iota beta zeta.
    fold (with_defaults cl). by rewrite Hdel. }
  destruct (decide (buildKey "slurm.nebius.ai/v1, Kind=SlurmCluster" ns name ∈ st)) as [Hin|Hst].
  - left. unfold SlurmCluster_Reconcile, bind at 1, attempt at 1, on_cluster at 1. rewrite Get_quiet by done. rewrite Hcl. cbv iota beta zeta.
    fold (with_defaults cl). rewrite Hdel. unfold cluster_reconcile_sync, bind at 1, attempt at 1, wrapM at 1, state_Present.
    rewrite bool_decide_eq_true_2.
    2: { unfold o_namespace, o_name. cbn [o_key with_defaults with_body]. by rewrite (Hf _ _ Hcl). }
    unfold bind, attempt, on_cluster. cbn [wrap_err]. by rewrite refresh_quiet.
  - right. destruct (run (with_defaults cl, w)) as [x' r] eqn:Hrun. by destruct (Reconcile_run ns name st w cl x' r) as [-> _].
Qed.
(** C10: keys are generated once.  With no other client and no failing request, a reconciliation of a cluster, whatever its outcome, leaves every
    Secret that exists exactly as it is, resource version included, but for the four that the controller keeps equal to what it
    renders or creates (slurmdbd's configuration, the default [sssd.conf], the two passwords of MariaDB) and for Secrets with a versions
    annotation, which these never have: the munge key, the JWT key and the host keys are never generated again. *)
Theorem secrets_kept (ns name : string) (st : gset string) (w : cluster_state) (cl : resource) (k : key) (e : resource) :
  quiet w → filed w → w_objects w !! (SlurmCluster, ns, name) = Some cl →
  k.1.1 = Secret → w_objects w !! k = Some e → o_annotations e !! AnnotationVersions = None →
  (k.1.2 = ns → k.2 ∉ other_secrets name) →
  w_objects ((SlurmCluster_Reconcile marshal unmarshal now order inst polls ns name (st, w)).1).2 !! k = Some e.
Proof.
  intros Hq Hf Hcl Hk He Hv Hn. pose proof (in_step_got _ _ _ _ Hq Hf Hcl) as Hx. pose proof (Hf _ _ He) as Hke. pose proof (Hf _ _ Hcl) as Hkc.
  set (F := λ i : key, i.1.1 ≠ SlurmCluster ∧ i ≠ k). set (J := λ m : gmap key resource, m !! k = Some e).
  assert (¬ F k) as HFk by (by intros [_ ?]). assert (k.1.1 ≠ SlurmCluster) as Hkn by (by rewrite Hk).
  destruct (run_follows F J (with_defaults cl, w)) as [Hx' (_ & Hfr & _)].
  - by intros i [? _].
  - intros m1 m2 Hm Hj. unfold J in *. by rewrite <-Hm.
  - intros i Hi Hs. split; [done|]. intros ->. done.
  - assert (o_name (with_defaults cl) = name ∧ o_namespace (with_defaults cl) = ns) as [Hcn Hcns].
    { unfold o_name, o_namespace. cbn [o_key with_defaults with_body]. by rewrite Hkc. }
    cbn [fst]. rewrite Hcn, Hcns. intros n Hin. split; [done|]. intros <-. by apply Hn.
  - intros owner k' what render Hk' Hr. destruct (decide (k' = k)) as [->|Hne].
    + intros [c w1] Hx1 Hj. unfold on_cluster. rewrite (generated_kept owner k what render w1 e (proj1 Hx1) Hj Hke Hk Hv).
      split; [done|]. split; [apply moved_refl|done].
    + apply follows_on_cluster; [by intros i [? _]|]. apply writes_generated; [|done]. split; [by rewrite Hk'|done].
  - done.
  - done.
  - destruct (Reconcile_world ns name st w cl Hq Hf Hcl Hx') as [-> | ->]; [done|]. rewrite Hfr; [done|done|].
    cbn. rewrite Hkc. by intros ->.
Qed.

(** ** The phase *)
(** What the phase stands for: each workload is in maintenance, disabled, or has the pods it should have. *)
Definition controllers_available (cv : values_SlurmCluster) (m : gmap key resource) : Prop :=
  IsMaintenanceActive (ctl_Maintenance (sc_NodeController cv)) = true ∨
  ∃ sts, m !! controller_key cv = Some sts ∧ ReadyReplicas sts = sts_Replicas (ctl_StatefulSet (sc_NodeController cv)).
Definition login_available (cv : values_SlurmCluster) (m : gmap key resource) : Prop :=
  IsMaintenanceActive (lg_Maintenance (sc_NodeLogin cv)) = true ∨
  ∃ sts, m !! login_key cv = Some sts ∧ AvailableReplicas sts = sts_Replicas (lg_StatefulSet (sc_NodeLogin cv)).
Definition target_replicas (cv : values_SlurmCluster) (d : resource) : Z :=
  default (dep_Replicas (acc_Deployment (sc_NodeAccounting cv))) (field_optint (o_body d) ["spec"; "replicas"]).
(** Accounting: with a database of the operator's own, that database and the grant on it are ready too.  An external database is not looked at. *)
Definition accounting_available (cv : values_SlurmCluster) (m : gmap key resource) : Prop :=
  let db k := (k, sc_Namespace cv, BuildMariaDbName (sc_Name cv)) : key in
  IsMaintenanceActive (acc_Maintenance (sc_NodeAccounting cv)) = true ∨ acc_Enabled (sc_NodeAccounting cv) = false ∨
  ∃ d, m !! accounting_key cv = Some d ∧ AvailableReplicas d ≠ 0%Z ∧ AvailableReplicas d = target_replicas cv d ∧
    (acc_MariaDbEnabled (sc_NodeAccounting cv) = true → ∃ mariaDb grant, m !! db MariaDB = Some mariaDb ∧ m !! db Grant = Some grant ∧
       isConditionReady (Status_Conditions mariaDb) "Ready" = true ∧ isConditionReady (Status_Conditions grant) "Ready" = true).
(** What the validation of accounting asks for: the database of the operator even where there is none. *)
Definition accounting_validated (cv : values_SlurmCluster) (m : gmap key resource) : Prop :=
  let db k := (k, sc_Namespace cv, BuildMariaDbName (sc_Name cv)) : key in
  IsMaintenanceActive (acc_Maintenance (sc_NodeAccounting cv)) = true ∨ acc_Enabled (sc_NodeAccounting cv) = false ∨
  acc_MariaDbEnabled (sc_NodeAccounting cv) = true ∧
  ∃ d mariaDb grant, m !! accounting_key cv = Some d ∧ m !! db MariaDB = Some mariaDb ∧ m !! db Grant = Some grant ∧
    isConditionReady (Status_Conditions mariaDb) "Ready" = true ∧ isConditionReady (Status_Conditions grant) "Ready" = true ∧
    AvailableReplicas d ≠ 0%Z ∧ AvailableReplicas d = target_replicas cv d.
Definition sconfig_available (cv : values_SlurmCluster) (m : gmap key resource) : Prop :=
  ∃ d n, m !! sconfig_key cv = Some d ∧ field_optint (o_body d) ["spec"; "replicas"] = Some n ∧ AvailableReplicas d = n.
Definition available (cv : values_SlurmCluster) (m : gmap key resource) : Prop :=
  Forall (λ P, P cv m) [controllers_available; login_available; accounting_available; sconfig_available].
Definition validated (cv : values_SlurmCluster) (m : gmap key resource) : Prop :=
  Forall (λ P, P cv m) [controllers_available; login_available; accounting_validated; sconfig_available].
(** Accounting runs outside maintenance, and not with a database of the operator's. *)
Definition external_database (cv : values_SlurmCluster) : Prop :=
  acc_Enabled (sc_NodeAccounting cv) = true ∧ acc_MariaDbEnabled (sc_NodeAccounting cv) = false ∧
  IsMaintenanceActive (acc_Maintenance (sc_NodeAccounting cv)) = false.
Lemma accounting_validated_iff cv m : accounting_validated cv m ↔ accounting_available cv m ∧ ¬ external_database cv.
Proof.
  unfold accounting_validated, accounting_available, external_database. cbv zeta. split.
  - intros [Hx|[Hx|(Hx & d & mariaDb & grant & ? & ? & ? & ? & ? & ? & ?)]]; rewrite Hx; split; naive_solver.
  - destruct (IsMaintenanceActive _); [naive_solver|]. destruct (acc_Enabled _); [|naive_solver].
    destruct (acc_MariaDbEnabled _); [|by intros [_ []]]. intros [[?|[?|(d & ? & ? & ? & Hdb)]] _]; [done..|].
    destruct (Hdb eq_refl) as (mariaDb & grant & ? & ? & ? & ?). right. right. split; [done|]. exists d, mariaDb, grant. by split_and!.
Qed.
Lemma validated_iff cv m : validated cv m ↔ available cv m ∧ ¬ external_database cv.
Proof. unfold validated, available. rewrite !Forall_cons, accounting_validated_iff, !Forall_nil. tauto. Qed.

(** A validation: it only writes the status of the cluster, and asks for nothing more exactly when [P] holds. *)
Local Abbreviation nowhere := (λ _ : key, False).
Definition result_of (P : Prop) (r : outcome RequeueAfter) : Prop :=
  (∃ s, r = Halt s) ∨ (r = Ok None ∧ P) ∨ (r = Ok (Some 10%Z) ∧ ¬ P).
Definition checks (v : M in_memory RequeueAfter) (P : gmap key resource → Prop) : Prop :=
  ∀ x, in_step x → in_step (v x).1 ∧ moved nowhere x (v x).1 ∧ result_of (P (w_objects x.2)) (v x).2.
Lemma condition_ok c x : in_step x → ∃ y, set_condition now c x = (y, Ok tt) ∧ in_step y ∧ moved nowhere x y.
Proof.
  destruct x as [cl w]. intros Hx.
  destruct (patch_memory_quiet nowhere "patching cluster status" (λ st, SetCondition now st c) cl w Hx (SetCondition_flag now _ c)) as (c' & w' & Hp & Hin & _ & Hm).
  by exists (c', w').
Qed.
Lemma report_ok field n c x : in_step x → ∃ y, report_ready now field n c x = (y, Ok tt) ∧ in_step y ∧ moved nowhere x y.
Proof.
  destruct x as [cl w]. intros Hx.
  destruct (patch_memory_quiet nowhere "patching cluster status" _ cl w Hx (report_flag now field n c (o_status cl))) as (c' & w' & Hp & Hin & _ & Hm).
  exists (c', w'). split; [|done]. by apply wrapM_ok.
Qed.
Lemma result_wrap P msg (v : M in_memory RequeueAfter) x : result_of P (v x).2 → result_of P (wrapM msg v x).2.
Proof.
  unfold wrapM. destruct (v x) as [y r]. cbn. intros [[s ->]|[[-> HP]|[-> HP]]]; cbn; [left|right; left|right; right]; eauto.
Qed.
Lemma wrap_state {A} msg (v : M in_memory A) x : (wrapM msg v x).1 = (v x).1.
Proof. unfold wrapM. by destruct (v x). Qed.
Lemma checks_wrap msg v P : checks v P → checks (wrapM msg v) P.
Proof. intros Hv x Hx. rewrite wrap_state. destruct (Hv x Hx) as (? & ? & ?). split; [done|]. split; [done|]. by apply result_wrap. Qed.
(** A condition is set and nothing more asked for. *)
Lemma checks_set (c : Condition) (P : gmap key resource → Prop) : (∀ m, P m) → checks (do! set_condition now c; ret None) P.
Proof.
  intros HP x Hx. destruct (condition_ok c x Hx) as (y & Hy & Hin & Hm). rewrite (bind_ok _ _ _ _ _ Hy). cbn.
  split; [done|]. split; [done|]. right. left. auto.
Qed.
(** A workload that is looked up. *)
Lemma checks_lookup (k : key) (err : string) (f : resource → M in_memory RequeueAfter) (Q : resource → Prop) (P : gmap key resource → Prop) :
  (∀ m, P m ↔ ∃ o, m !! k = Some o ∧ Q o) →
  (∀ o x, in_step x → in_step (f o x).1 ∧ moved nowhere x (f o x).1 ∧ result_of (Q o) (f o x).2) →
  checks (let! got := attempt (on_cluster (client_Get k)) in
          match got with inr e => if IsNotFound e then ret (Some requeueDuration) else fail (ErrWrap err e) | inl o => f o end) P.
Proof.
  intros HP Hf [c w] Hx. pose proof (proj1 Hx) as Hq. cbn in Hq. unfold bind, attempt, on_cluster. rewrite Get_quiet by done.
  destruct (w_objects w !! k) as [o|] eqn:Ho.
  - destruct (Hf o (c, w) Hx) as (H1 & H2 & H3). split; [done|]. split; [done|].
    assert (P (w_objects w) ↔ Q o) as Hiff by (rewrite HP, Ho; naive_solver).
    cbn [snd]. destruct H3 as [?|[[-> ?]|[-> ?]]]; [by left|right; left|right; right]; tauto.
  - cbn. split; [done|]. split; [apply moved_refl|]. right. right. split; [done|]. rewrite HP, Ho. naive_solver.
Qed.
(** The report of a number of pods that is compared with the one wanted. *)
Lemma requeue_result (b : bool) : result_of (b = true) (Ok (requeue_unless b)).
Proof. right. destruct b; [by left|by right]. Qed.
Lemma checks_controllers cv : checks (validate_controllers now cv) (controllers_available cv).
Proof.
  unfold validate_controllers, controllers_available. destruct (IsMaintenanceActive _); [apply checks_set; by left|].
  apply checks_wrap. eapply checks_lookup with (Q := λ o, controllers_ready cv o = true).
  - intros m. split; [intros [?|(o & Ho & Hr)]; [done|]; exists o; split; [done|]; by apply Z.eqb_eq|].
    intros (o & Ho & Hr). right. exists o. split; [done|]. by apply Z.eqb_eq.
  - intros o x Hx. destruct (condition_ok (availability ConditionClusterControllersAvailable "controllers are" (controllers_ready cv o)) x Hx)
      as (y & Hy & Hin & Hm). rewrite (bind_ok _ _ _ _ _ (wrapM_ok _ _ _ _ _ Hy)). cbn. split; [done|]. split; [done|]. apply requeue_result.
Qed.
Lemma checks_login cv : checks (validate_login now cv) (login_available cv).
Proof.
  unfold validate_login, login_available. destruct (IsMaintenanceActive _); [apply checks_set; by left|].
  apply checks_wrap. eapply checks_lookup with (Q := λ o, login_ready cv o = true).
  - intros m. split; [intros [?|(o & Ho & Hr)]; [done|]; exists o; split; [done|]; by apply Z.eqb_eq|].
    intros (o & Ho & Hr). right. exists o. split; [done|]. by apply Z.eqb_eq.
  - intros o x Hx. destruct (report_ok "readyLogin" (AvailableReplicas o) (availability ConditionClusterLoginAvailable "login is" (login_ready cv o)) x Hx)
      as (y & Hy & Hin & Hm). rewrite (bind_ok _ _ _ _ _ Hy). cbn. split; [done|]. split; [done|]. apply requeue_result.
Qed.
Lemma checks_sconfig cv : checks (ValidateSConfigController now cv) (sconfig_available cv).
Proof.
  unfold sconfig_available. eapply checks_lookup with (Q := λ o, ∃ n, field_optint (o_body o) ["spec"; "replicas"] = Some n ∧ AvailableReplicas o = n).
  - intros m. naive_solver.
  - intros o x Hx. destruct (field_optint _ _) as [n|] eqn:Hn.
    + destruct (report_ok "readySConfigController" (AvailableReplicas o)
        (availability ConditionClusterSConfigControllerAvailable "SConfigController is" (AvailableReplicas o =? n)%Z) x Hx)
        as (y & Hy & Hin & Hm). rewrite (bind_ok _ _ _ _ _ Hy). cbn. split; [done|]. split; [done|].
      destruct (requeue_result (AvailableReplicas o =? n)%Z) as [?|[[-> HP]|[-> HP]]]; [by left|right; left|right; right].
      * split; [done|]. exists n. split; [done|]. by apply Z.eqb_eq.
      * split; [done|]. intros (n' & [= <-] & Heq). by apply HP, Z.eqb_eq.
    + split; [done|]. split; [apply moved_refl|]. left. by eexists.
Qed.
(** Accounting. *)
Lemma typed_quiet k (c : resource) w :
  quiet w → attempt (on_cluster (getTypedResource k)) (c, w) = ((c, w), Ok (inl (w_objects w !! k))).
Proof.
  intros Hq. unfold attempt, on_cluster, getTypedResource, bind, attempt. rewrite Get_quiet by done.
  by destruct (w_objects w !! k).
Qed.
Lemma update_ok status reason message x :
  in_step x → ∃ y, updateAccountingAvailabilityStatus now status reason message (Some 10%Z) x =
    (y, Ok (if String.eqb status "True" then None else Some 10%Z)) ∧ in_step y ∧ moved nowhere x y.
Proof.
  intros Hx. destruct (condition_ok (condition ConditionClusterAccountingAvailable status reason message) x Hx) as (y & Hy & Hin & Hm).
  exists y. unfold updateAccountingAvailabilityStatus. by rewrite (bind_ok _ _ _ _ _ Hy).
Qed.
(** The conditions of an object of MariaDB, or a report that it is missing. *)
Lemma mariaDb_ok cv k message c w :
  in_step (c, w) →
  (acc_MariaDbEnabled (sc_NodeAccounting cv) = false ∧ mariaDb_conditions now cv k message (c, w) = ((c, w), Ok (inl []))) ∨
  (acc_MariaDbEnabled (sc_NodeAccounting cv) = true ∧
   match w_objects w !! (k, sc_Namespace cv, BuildMariaDbName (sc_Name cv)) with
   | Some o => mariaDb_conditions now cv k message (c, w) = ((c, w), Ok (inl (Status_Conditions o)))
   | None => ∃ y, mariaDb_conditions now cv k message (c, w) = (y, Ok (inr (Some 10%Z))) ∧ in_step y ∧ moved nowhere (c, w) y
   end).
Proof.
  intros Hx. pose proof (proj1 Hx) as Hq. cbn in Hq. unfold mariaDb_conditions. destruct (acc_MariaDbEnabled _); [right|by left]. cbn [negb]. split; [done|].
  destruct (w_objects w !! _) as [o|] eqn:Ho; rewrite (bind_ok _ _ _ _ _ (typed_quiet _ c w Hq)), Ho; [done|].
  destruct (update_ok "Unknown" "Unknown" message (c, w) Hx) as (y & Hy & Hin & Hm). exists y. by rewrite (bind_ok _ _ _ _ _ Hy).
Qed.
Lemma accountingStatus_spec cv mariaDb grant d :
  ((accountingStatus cv mariaDb grant d).1).1 = "True" ↔
  isConditionReady mariaDb "Ready" = true ∧ isConditionReady grant "Ready" = true ∧ AvailableReplicas d ≠ 0%Z ∧
  AvailableReplicas d = target_replicas cv d.
Proof.
  unfold accountingStatus. fold (target_replicas cv d). destruct (isConditionReady mariaDb "Ready"); cbn [negb]; [|naive_solver].
  destruct (isConditionReady grant "Ready"); cbn [negb]; [|naive_solver].
  destruct (Z.eqb_spec (AvailableReplicas d) 0); [naive_solver|].
  destruct (Z.eqb_spec (AvailableReplicas d) (target_replicas cv d)); cbn [negb]; naive_solver.
Qed.
Lemma accountingStatus_cases cv mariaDb grant d :
  ((accountingStatus cv mariaDb grant d).1).1 = "True" ∨ ((accountingStatus cv mariaDb grant d).1).1 = "False".
Proof.
  unfold accountingStatus. destruct (negb (isConditionReady mariaDb _)); [by right|]. destruct (negb (isConditionReady grant _)); [by right|].
  destruct (_ =? 0)%Z; [by right|]. destruct (negb _); [by right|by left].
Qed.
Lemma checks_accounting cv : checks (validate_accounting now cv) (accounting_validated cv).
Proof.
  unfold validate_accounting, accounting_validated. destruct (IsMaintenanceActive _); [apply checks_set; by left|].
  destruct (acc_Enabled _); [|apply checks_set; right; by left]. cbn [negb]. apply checks_wrap. intros [c w] Hx.
  pose proof (proj1 Hx) as Hq. cbn in Hq. unfold ValidateAccounting. rewrite (bind_ok _ _ _ _ _ (typed_quiet _ c w Hq)).
  destruct (w_objects w !! accounting_key cv) as [d|] eqn:Hd.
  2: { split; [done|]. split; [apply moved_refl|]. left. by eexists. }
  destruct (mariaDb_ok cv MariaDB "Failed to get MariaDB" c w Hx) as [[Hoff H1]|[Hon H1]].
  { rewrite (bind_ok _ _ _ _ _ H1). cbn beta iota.
    destruct (mariaDb_ok cv Grant "Failed to get MariaDB Grant" c w Hx) as [[_ H2]|[Hon _]]; [|congruence].
    rewrite (bind_ok _ _ _ _ _ H2). cbn beta iota. cbn.
    destruct (update_ok "False" "NotAvailable" "MariaDB is not ready" (c, w) Hx) as (y & Hy & Hin & Hm). rewrite Hy.
    split; [done|]. split; [done|]. right. right. split; [done|]. intros [?|[?|[? _]]]; congruence. }
  destruct (w_objects w !! (MariaDB, _, _)) as [mdb|] eqn:Hmdb; cycle 1.
  { destruct H1 as (y & Hy & Hin & Hm). rewrite (bind_ok _ _ _ _ _ Hy). cbn. split; [done|]. split; [done|]. right. right. split; [done|].
    intros [?|[?|(_ & ? & ? & ? & _ & Hn & _)]]; [done..|]. cbn in Hn. by rewrite Hmdb in Hn. }
  rewrite (bind_ok _ _ _ _ _ H1). cbn beta iota.
  destruct (mariaDb_ok cv Grant "Failed to get MariaDB Grant" c w Hx) as [[Hoff _]|[_ H2]]; [congruence|].
  destruct (w_objects w !! (Grant, _, _)) as [gr|] eqn:Hgr; cycle 1.
  { destruct H2 as (y & Hy & Hin & Hm). rewrite (bind_ok _ _ _ _ _ Hy). cbn. split; [done|]. split; [done|]. right. right. split; [done|].
    intros [?|[?|(_ & ? & ? & ? & _ & _ & Hn & _)]]; [done..|]. cbn in Hn. by rewrite Hgr in Hn. }
  rewrite (bind_ok _ _ _ _ _ H2). cbn beta iota.
  pose proof (accountingStatus_spec cv (Status_Conditions mdb) (Status_Conditions gr) d) as Hspec.
  pose proof (accountingStatus_cases cv (Status_Conditions mdb) (Status_Conditions gr) d) as Hcases.
  destruct (accountingStatus _ _ _ _) as [[status reason] message]. cbn [fst] in *.
  destruct (update_ok status reason message (c, w) Hx) as (y & Hy & Hin & Hm). rewrite Hy. split; [done|]. split; [done|]. cbn [snd].
  destruct Hcases as [-> | ->]; cbn [String.eqb]; [right; left|right; right]; (split; [done|]).
  - right. right. split; [done|]. exists d, mdb, gr. cbn. rewrite Hd, Hmdb, Hgr. naive_solver.
  - intros [?|[?|(_ & d' & m' & g' & Hd' & Hm' & Hg' & Hrest)]]; [done..|]. cbn in Hd', Hm', Hg'. rewrite Hd in Hd'. rewrite Hmdb in Hm'. rewrite Hgr in Hg'.
    simplify_eq. apply Hspec in Hrest. discriminate Hrest.
Qed.
(** *** All validations *)
Definition stable (P : gmap key resource → Prop) : Prop :=
  ∀ m1 m2, (∀ i, i.1.1 ≠ SlurmCluster → m1 !! i = m2 !! i) → P m1 → P m2.
Lemma available_stable cv P :
  P ∈ [controllers_available; login_available; accounting_validated; sconfig_available] → stable (P cv).
Proof.
  intros HP m1 m2 Hm. elem_cases HP; subst P.
  - unfold controllers_available. rewrite Hm by done. tauto.
  - unfold login_available. rewrite Hm by done. tauto.
  - unfold accounting_validated. cbv zeta. intros [?|[?|(? & d & db & g & Hd & Hdb & Hg & Hr)]]; [by left|right; by left|].
    right. right. split; [done|]. exists d, db, g. by rewrite <-!Hm.
  - unfold sconfig_available. by rewrite Hm.
Qed.
Lemma same_others x y : in_step x → moved nowhere x y → ∀ i : key, i.1.1 ≠ SlurmCluster → w_objects y.2 !! i = w_objects x.2 !! i.
Proof. intros Hx (_ & Hf & _) i Hi. apply Hf; [tauto|]. intros ->. apply Hi, Hx. Qed.
Lemma validations_spec (vs : list (M in_memory RequeueAfter)) (Ps : list (gmap key resource → Prop)) :
  Forall2 checks vs Ps → Forall stable Ps → ∀ x, in_step x →
  in_step (validations vs x).1 ∧ moved nowhere x (validations vs x).1 ∧
  ((∃ s, (validations vs x).2 = Halt s) ∨
   ((validations vs x).2 = Ok (None, true) ∧ Forall (λ P, P (w_objects x.2)) Ps) ∨
   ((validations vs x).2 = Ok (Some 10%Z, false) ∧ ¬ Forall (λ P, P (w_objects x.2)) Ps)).
Proof.
  induction 1 as [|v P vs Ps Hv Hvs IH]; intros Hst x Hx.
  { cbn. split; [done|]. split; [apply moved_refl|]. right. left. done. }
  apply Forall_cons in Hst as [HP Hst]. destruct (Hv x Hx) as (Hin & Hm & Hres). cbn. unfold bind.
  destruct (v x) as [y r]. cbn [fst snd] in *. destruct Hres as [[s ->]|[[-> HPx]|[-> HPx]]].
  - split; [done|]. split; [done|]. left. by eexists.
  - destruct (IH Hst y Hin) as (Hin' & Hm' & Hres'). split; [done|]. split; [by apply (moved_trans _ _ y)|].
    pose proof (same_others x y Hx Hm) as Hsame.
    assert (Forall (λ P, P (w_objects y.2)) Ps ↔ Forall (λ P, P (w_objects x.2)) (P :: Ps)) as Hiff.
    { rewrite Forall_cons. rewrite !Forall_forall in *. split.
      - intros Hall. split; [done|]. intros Q HQ. apply (Hst Q HQ (w_objects y.2)); [exact Hsame|exact (Hall Q HQ)].
      - intros [_ Hall] Q HQ. apply (Hst Q HQ (w_objects x.2)); [|exact (Hall Q HQ)]. intros i Hi. symmetry. auto. }
    destruct Hres' as [?|[[-> ?]|[-> ?]]]; [by left|right; left|right; right]; tauto.
  - cbn. split; [done|]. split; [done|]. right. right. split; [done|]. by intros [??]%Forall_cons.
Qed.
Lemma validation_spec cv x :
  in_step x → in_step (validation now cv x).1 ∧ moved nowhere x (validation now cv x).1 ∧
  ((∃ s, (validation now cv x).2 = Halt s) ∨
   ((validation now cv x).2 = Ok (None, true) ∧ validated cv (w_objects x.2)) ∨
   ((validation now cv x).2 = Ok (Some 10%Z, false) ∧ ¬ validated cv (w_objects x.2))).
Proof.
  intros Hx. unfold validation. destruct (condition_ok (commonCondition cv) x Hx) as (y & Hy & Hin1 & Hm1).
  rewrite (bind_ok _ _ _ _ _ Hy). destruct (condition_ok (jailCondition (pj_Maintenance (sc_PopulateJail cv))) y Hin1) as (z & Hz & Hin2 & Hm2).
  rewrite (bind_ok _ _ _ _ _ Hz). set (Ps := [controllers_available; login_available; accounting_validated; sconfig_available]).
  destruct (validations_spec [validate_controllers now cv; validate_login now cv; validate_accounting now cv;
    wrapM "validating Slurm SConfigController" (ValidateSConfigController now cv)] ((λ P, P cv) <$> Ps)) with (x := z) as (Hin & Hm & Hres).
  - constructor; [apply checks_controllers|]. constructor; [apply checks_login|]. constructor; [apply checks_accounting|].
    constructor; [apply checks_wrap, checks_sconfig|]. constructor.
  - rewrite Forall_fmap, Forall_forall. apply available_stable.
  - done.
  - assert (moved nowhere x z) as Hm3 by (by apply (moved_trans _ _ y)). split; [done|]. split; [by apply (moved_trans _ _ z)|].
    assert (Forall (λ P, P (w_objects z.2)) ((λ P, P cv) <$> Ps) ↔ validated cv (w_objects x.2)) as Hiff.
    { rewrite Forall_fmap. unfold validated. fold Ps. pose proof (same_others x z Hx Hm3) as Hsame. rewrite !Forall_forall. split.
      - intros Hall P HP. apply (available_stable cv P HP (w_objects z.2)); [done|]. by apply Hall.
      - intros Hall P HP. apply (available_stable cv P HP (w_objects x.2)); [intros; symmetry; auto|]. by apply Hall. }
    destruct Hres as [?|[[-> ?]|[-> ?]]]; [by left|right; left|right; right]; tauto.
Qed.
(** The end of a reconciliation: the phase is written, and says what the validations found. *)
Lemma phase_ok p x : in_step x → ∃ y, set_phase p x = (y, Ok tt) ∧ in_step y ∧ moved nowhere x y ∧ Status_Phase y.1 = p.
Proof.
  destruct x as [c w]. intros Hx. unfold set_phase, cluster_patchStatus. set (f := λ status : fields, _).
  assert ((f (o_status c)).2 = true ∨ (f (o_status c)).1 = o_status c) as Hf by (unfold f; destruct (bool_decide _); auto).
  destruct (patch_memory_quiet nowhere "patching cluster status" f c w Hx Hf) as (c' & w' & Hp & Hin & Hst & Hm).
  exists (c', w'). split_and!; try done. unfold Status_Phase. cbn. rewrite Hst. unfold f, field_optstr, field_str.
  destruct (bool_decide _) eqn:Hb; [|cbn; by rewrite lookup_insert_eq]. apply bool_decide_eq_true in Hb. cbn.
  destruct (o_status c !! ["phase"]) as [[]|]; congruence.
Qed.
Lemma report_spec cv jres x :
  in_step x → let '(y, r) := validate_and_report now cv jres x in
  in_step y ∧ moved nowhere x y ∧
  ∀ res, r = Ok res →
    Status_Phase y.1 = PhaseClusterAvailable ∧ validated cv (w_objects y.2) ∧ res = jres ∨
    Status_Phase y.1 = PhaseClusterNotAvailable ∧ ¬ validated cv (w_objects y.2) ∧ res = Some 10%Z.
Proof.
  intros Hx. unfold validate_and_report, bind at 1, attempt at 1. destruct (validation_spec cv x Hx) as (Hin & Hm & Hres).
  destruct (validation now cv x) as [y r]. cbn [fst snd] in *. destruct Hres as [[s ->]|Hres]; [done|].
  assert (∃ ok t, r = Ok (t, ok)) as (ok & t & ->) by (destruct Hres as [[-> _]|[-> _]]; eauto).
  destruct (phase_ok (if ok then PhaseClusterAvailable else PhaseClusterNotAvailable) y Hin) as (z & Hz & Hin' & Hm' & Hph).
  rewrite (bind_ok _ _ y z (inl tt)) by (unfold attempt; by rewrite Hz).
  assert (moved nowhere x z) as Hm2 by (by apply (moved_trans _ _ y)). split; [done|]. split; [done|].
  assert (validated cv (w_objects z.2) ↔ validated cv (w_objects x.2)) as Hiff.
  { pose proof (same_others x z Hx Hm2) as Hsame. unfold validated. rewrite !Forall_forall. split; intros Hall P HP.
    - apply (available_stable cv P HP (w_objects z.2)); [done|by apply Hall].
    - apply (available_stable cv P HP (w_objects x.2)); [intros; symmetry; auto|by apply Hall]. }
  intros res [= <-]. rewrite !Hiff. destruct Hres as [[[= -> ->] ?]|[[= -> ->] ?]]; [left|right]; done.
Qed.

Lemma jail_inv cv c w y jres :
  quiet w → ReconcilePopulateJail marshal unmarshal polls cv (c, w) = (y, Ok (jres, true)) →
  jres = Some 10%Z ∧ ∃ job, w_objects w !! jail_key cv = Some job ∧ Job_Succeeded job = 0%Z.
Proof.
  intros Hq Hr. unfold ReconcilePopulateJail in Hr. rewrite (bind_ok the_cluster _ (c, w) (c, w) c eq_refl) in Hr.
  apply bind_inv in Hr as (s & y1 & Hs & Hr). do 3 apply wrapM_inv in Hs. unfold on_cluster in Hs.
  destruct (jail_step marshal unmarshal polls c cv w) as [w1 r] eqn:Hstep. injection Hs as <- ->. injection Hr as <- Hr.
  destruct s; [done| |done]. injection Hr as <-. split; [done|].
  unfold jail_step in Hstep. unfold bind at 1, attempt at 1 in Hstep. rewrite Get_quiet in Hstep by done.
  destruct (w_objects w !! jail_key cv) as [job|].
  - exists job. split; [done|]. destruct (Z.eqb_spec (Job_Succeeded job) 0) as [|Hne]; [done|].
    destruct (IsModeDownscaleAndDeletePopulate _); [by apply bind_inv in Hstep as (? & ? & _ & ?)|].
    destruct (IsModeDownscaleAndOverwritePopulate _); [by apply bind_inv in Hstep as (? & ? & _ & ?)|done].
  - cbn in Hstep. destruct (IsModeDownscaleAndDeletePopulate _); [done|].
    apply bind_inv in Hstep as ([|] & w2 & _ & Hstep); [by destruct (IsModeDownscaleAndOverwritePopulate _)|].
    apply bind_inv in Hstep as (d & w3 & _ & Hstep). apply bind_inv in Hstep as (u & w4 & _ & Hstep).
    by apply bind_inv in Hstep as (u' & w5 & _ & Hstep).
Qed.
Lemma Build_ext a b prefix : o_key a = o_key b → o_body a = o_body b → BuildSlurmClusterFrom a prefix = BuildSlurmClusterFrom b prefix.
Proof. unfold BuildSlurmClusterFrom, o_name, o_namespace. by intros -> ->. Qed.
(** Everything but the cluster may be written. *)
Definition elsewhere (i : key) : Prop := i.1.1 ≠ SlurmCluster.
Lemma follows_before cv c y0 y jres :
  built c cv → in_step y0 →
  (if IsModeSkipPopulateJail (pj_Maintenance (sc_PopulateJail cv)) then ret (None, false)
   else ReconcilePopulateJail marshal unmarshal polls cv) y0 = (y, Ok (jres, false)) → in_step y ∧ moved elsewhere y0 y.
Proof.
  intros _ Hx. destruct (IsModeSkipPopulateJail _); intros Hy.
  - injection Hy as <- _. split; [done|apply moved_refl].
  - destruct (follow_jail marshal unmarshal polls elsewhere) with (J := λ _ : gmap key resource, True) (cv := cv) (x := y0) as (Hin & Hm & _);
      [by intros i|by intros|by intros i ? ?|done|done|]. by rewrite Hy in Hin, Hm.
Qed.
Lemma follows_objects cv c y0 y :
  built c cv → in_step y0 → reconcile_groups marshal unmarshal now order inst cv y0 = (y, Ok tt) → in_step y ∧ moved elsewhere y0 y.
Proof.
  intros [_ _ _ _ Hctl Hlog] Hx Hy.
  destruct (follow_groups marshal unmarshal now order inst elsewhere) with (J := λ _ : gmap key resource, True) (cv := cv) (x := y0) as (Hin & Hm & _);
    [by intros i|by intros|by intros i ? ?|by intros n _| |done|done|done|done|].
  - intros owner k what render Hk Hr. apply follows_on_cluster; [by intros i|]. apply writes_generated; [|done]. unfold elsewhere. by rewrite Hk.
  - by rewrite Hy in Hin, Hm.
Qed.
Lemma validated_gpu gpu cv m : validated (with_ClusterWithGPU gpu cv) m ↔ validated cv m.
Proof. unfold validated. by rewrite !Forall_cons, !Forall_nil. Qed.
Lemma run_phase w cl x' res :
  in_step (with_defaults cl, w) → w_objects w !! o_key cl = Some cl → cluster_defaults (o_body cl) = o_body cl →
  run (with_defaults cl, w) = (x', Ok res) →
  in_step x' ∧ moved elsewhere (with_defaults cl, w) x' ∧
  ((res = Some 10%Z ∧ ∃ job, w_objects w !! cluster_job (o_namespace cl) (o_name cl) = Some job ∧ Job_Succeeded job = 0%Z) ∨
   ∃ cv, BuildSlurmClusterFrom cl (workload_prefix (w_objects w) (o_namespace cl) (o_name cl)) = Ok cv ∧
     (Status_Phase x'.1 = PhaseClusterAvailable ∧ validated cv (w_objects x'.2) ∨
      Status_Phase x'.1 = PhaseClusterNotAvailable ∧ ¬ validated cv (w_objects x'.2) ∧ res = Some 10%Z)).
Proof.
  intros Hx Hcl Hdef Hrun. destruct (run_split _ Hx) as ([c1 w1] & Hy & Hm & [[_ Hno]|(gpu & cv0 & Hv & Hrest)]); [by rewrite Hrun in Hno; destruct (Hno res)|].
  rewrite Hrun in Hrest. symmetry in Hrest. clear Hrun. cbn [fst snd] in Hv.
  assert (moved elsewhere (with_defaults cl, w) (c1, w1)) as Hm' by (by eapply moved_mono; [|exact Hm]).
  pose proof (same_others _ _ Hx Hm) as Hsame. cbn in Hsame.
  destruct Hm as (Hk1 & _ & Hs1). cbn in Hk1, Hs1. destruct (Hs1 cl Hcl) as (s' & _ & _ & Hb1).
  assert (o_body c1 = o_body cl) as Hbody by (rewrite Hdef in Hb1; destruct Hb1 as [->| ->]; [done|by rewrite (idemp_L (∪))]).
  assert (o_namespace c1 = o_namespace cl ∧ o_name c1 = o_name cl) as [Hns Hn] by (unfold o_namespace, o_name; by rewrite Hk1).
  pose proof (built_gpu _ _ gpu (values_built _ _ _ Hv)) as Hbuilt.
  assert (BuildSlurmClusterFrom cl (workload_prefix (w_objects w) (o_namespace cl) (o_name cl)) = Ok cv0) as Hcv.
  { rewrite <-Hv, Hns, Hn. unfold workload_prefix. rewrite Hsame by done. by apply Build_ext. }
  set (cv := with_ClusterWithGPU gpu cv0) in *. unfold reconcile_with in Hrest.
  apply bind_inv in Hrest as ([jres notReady] & y2 & Hj & Hrest). destruct notReady.
  - assert (x' = y2 ∧ res = jres) as [-> ->] by (by injection Hrest). destruct (IsModeSkipPopulateJail _); [done|].
    destruct (jail_inv cv c1 w1 y2 jres (proj1 Hy) Hj) as (-> & job & Hjob & Hsucc).
    destruct (follow_jail marshal unmarshal polls elsewhere) with (J := λ _ : gmap key resource, True) (cv := cv) (x := (c1, w1)) as (Hin & Hmv & _);
      [by intros i|by intros|by intros i ? ?|done|done|]. rewrite Hj in Hin, Hmv. split; [done|]. split; [by apply (moved_trans _ _ (c1, w1))|].
    left. split; [done|]. exists job. split; [|done]. rewrite <-Hsame by done. destruct Hbuilt as [Hbns _ Hbj _ _ _]. unfold jail_key in Hjob.
    rewrite Hbns, Hbj, Hns, Hn in Hjob. done.
  - destruct (follows_before cv c1 _ _ _ Hbuilt Hy Hj) as [Hin2 Hm2].
    apply bind_inv in Hrest as ([] & y3 & Hg & Hrest). destruct (follows_objects cv c1 _ _ Hbuilt Hin2 Hg) as [Hin3 Hm3].
    pose proof (report_spec cv jres y3 Hin3) as Hrep. rewrite Hrest in Hrep. destruct Hrep as (Hin4 & Hm4 & Hph). split; [done|]. split.
    { eapply moved_trans; [exact Hm'|]. eapply moved_trans; [exact Hm2|]. eapply moved_trans; [exact Hm3|]. by eapply moved_mono; [|exact Hm4]. }
    right. exists cv0. split; [done|]. destruct (Hph res eq_refl) as [(? & Ha & _)|(? & Ha & ?)]; unfold cv in Ha; rewrite validated_gpu in Ha; [by left|by right].
Qed.
(** A reconciliation that succeeds, seen on the server. *)
Lemma outcome_run ns name st w cl st' w' res :
  quiet w → filed w → w_objects w !! (SlurmCluster, ns, name) = Some cl → free st ns name →
  has_field (o_body cl) ["metadata"; "deletionTimestamp"] = false → cluster_defaults (o_body cl) = o_body cl →
  SlurmCluster_Reconcile marshal unmarshal now order inst polls ns name (st, w) = ((st', w'), Ok res) →
  (res = Some 10%Z ∧ ∃ job, w_objects w !! cluster_job ns name = Some job ∧ Job_Succeeded job = 0%Z) ∨
  ∃ cv cl', BuildSlurmClusterFrom cl (workload_prefix (w_objects w) ns name) = Ok cv ∧
    w_objects w' !! (SlurmCluster, ns, name) = Some cl' ∧
    (Status_Phase cl' = PhaseClusterAvailable ∧ validated cv (w_objects w') ∨
     Status_Phase cl' = PhaseClusterNotAvailable ∧ ¬ validated cv (w_objects w') ∧ res = Some 10%Z).
Proof.
  intros Hq Hf Hcl Hst Hdel Hdef Hall. pose proof (in_step_got _ _ _ _ Hq Hf Hcl) as Hx. pose proof (Hf _ _ Hcl) as Hk.
  assert (o_namespace cl = ns ∧ o_name cl = name) as [Hns Hn] by (unfold o_namespace, o_name; by rewrite Hk).
  destruct (run_follows elsewhere (λ _, True) (with_defaults cl, w)) as [Hin _]; [by intros i|by intros|by intros i ? ?|by intros n _| |done|done|].
  { intros owner k what render Hkk Hr. apply follows_on_cluster; [by intros i|]. apply writes_generated; [|done]. unfold elsewhere. by rewrite Hkk. }
  destruct (run (with_defaults cl, w)) as [x' r] eqn:Hrun. cbn [fst] in Hin.
  destruct (Reconcile_run ns name st w cl x' r Hq Hcl Hf Hst) as [Hw Hr]; [cbn; by rewrite Hdef|done|done|].
  rewrite Hall in Hw, Hr. cbn in Hw, Hr. pose proof (Hr res eq_refl) as ->.
  destruct (run_phase w cl x' res Hx) as (_ & (Hkx & _) & Hres); [by rewrite Hk|done|done|]. cbn in Hkx. rewrite Hns, Hn in Hres.
  destruct Hres as [?|(cv & Hcv & Hph)]; [by left|]. right. destruct Hin as (_ & _ & _ & cl' & Hcl' & Hstat).
  rewrite Hkx, Hk in Hcl'. exists cv, cl'. rewrite Hw. unfold Status_Phase in *. by rewrite Hstat.
Qed.
(** Accounting with an external database is never available.  Under the same conditions, when accounting is enabled, MariaDB is not (the
    database is external, say) and there is no maintenance: whatever the workloads do, a successful reconciliation that is not waiting for
    the jail leaves the phase "Not available" and asks to be repeated, for the validation of accounting looks at MariaDB objects that were
    never got. *)
Theorem external_database_unavailable (ns name : string) (st st' : gset string) (w w' : cluster_state) (cl : resource) (res : RequeueAfter)
    (cv : values_SlurmCluster) :
  quiet w → filed w → w_objects w !! (SlurmCluster, ns, name) = Some cl → free st ns name →
  has_field (o_body cl) ["metadata"; "deletionTimestamp"] = false → cluster_defaults (o_body cl) = o_body cl →
  BuildSlurmClusterFrom cl (workload_prefix (w_objects w) ns name) = Ok cv →
  acc_Enabled (sc_NodeAccounting cv) = true → acc_MariaDbEnabled (sc_NodeAccounting cv) = false →
  IsMaintenanceActive (acc_Maintenance (sc_NodeAccounting cv)) = false →
  (∀ job, w_objects w !! cluster_job ns name = Some job → Job_Succeeded job ≠ 0%Z) →
  SlurmCluster_Reconcile marshal unmarshal now order inst polls ns name (st, w) = ((st', w'), Ok res) →
  res = Some 10%Z ∧ (Status_Phase <$> w_objects w' !! (SlurmCluster, ns, name)) = Some PhaseClusterNotAvailable.
Proof.
  intros Hq Hf Hcl Hst Hdel Hdef Hcv Hacc Hdb Hmaint Hjob Hall.
  destruct (outcome_run ns name st w cl st' w' res Hq Hf Hcl Hst Hdel Hdef Hall) as [(_ & job & Hj & Hs)|(cv' & cl' & Hcv' & Hcl' & Hph)]; [by destruct (Hjob job Hj)|].
  rewrite Hcv in Hcv'. apply Ok_inj in Hcv'. subst cv'. rewrite Hcl'. cbn. destruct Hph as [[_ Hav]|(-> & _ & ->)]; [|done].
  apply validated_iff in Hav as [_ []]. by split_and!.
Qed.
End outcome.

(** ** Examples *)
Global Instance example_rendering : Rendering :=
  {| generateRandBytes := Ok "bytes"; collectSshdKeyPairsData := Ok {["ssh_host_ed25519_key" := "key"]}; generatePassword := Ok "password";
     jwt_GenerateSigningKey := Ok "jwt"; pod_login _ _ := Ok (∅, None); pod_controller _ _ := Ok (∅, None); pod_rest _ _ := ∅;
     pod_accounting _ _ := ∅; pod_sconfig _ _ _ := ∅; pod_exporter _ _ := ∅; pod_populateJail _ _ := Ok ∅; body_mariaDb _ _ := ∅;
     relabel_podMonitor _ := ∅ |}.
Definition ex_installed : Installed := mkInstalled false false false.
Definition ex_run (w : cluster_state) : (gset string * cluster_state) * outcome RequeueAfter :=
  SlurmCluster_Reconcile example_marshal example_unmarshal 100 map_to_list ex_installed 3 "ns" "c" (∅, w).
(** A cluster with its defaults. *)
Definition ex_cluster_with (spec : list (path * value)) : resource :=
  Obj (SlurmCluster, "ns", "c") 1 None ∅ ∅ ∅ (cluster_defaults (list_to_map (spec ++ example_spec))) ∅.
Definition ex_job (succeeded : Z) : resource :=
  Obj (BatchJob, "ns", "c-populate-jail") 2 (Some "uid-c") ∅ ∅ ∅ ∅ {[["succeeded"] := VInt succeeded]}.
Definition ex_munge : resource :=
  Obj (Secret, "ns", "c-munge") 3 (Some "uid-c") ∅ ∅ ∅ {[["data"; "munge.key"] := VStr "secret"]} ∅.
Definition cluster_world (objects : list resource) : cluster_state := World 10 (list_to_map ((λ o, (o_key o, o)) <$> objects)) [].
Lemma world_filed objects : filed (cluster_world objects).
Proof.
  intros i o Ho. apply elem_of_list_to_map_2, list_elem_of_fmap in Ho as (x & [= -> ->] & _). done.
Qed.
Lemma jail_first_witness :
  let w' := (ex_run (cluster_world [ex_cluster_with []; ex_job 0; ex_munge])).1.2 in
  w_objects w' !! (AdvancedStatefulSet, "ns", "c-login") = None ∧ w_objects w' !! o_key (ex_job 0) = Some (ex_job 0).
Proof.
  intros w'. destruct (jail_first example_marshal example_unmarshal 100 map_to_list ex_installed 3 "ns" "c" ∅
    (cluster_world [ex_cluster_with []; ex_job 0; ex_munge]) (ex_cluster_with []) (ex_job 0)) as (Hframe & _ & Hjob & _).
  - reflexivity.
  - apply world_filed.
  - reflexivity.
  - apply not_elem_of_empty.
  - vm_compute. reflexivity.
  - reflexivity.
  - reflexivity.
  - vm_compute. reflexivity.
  - vm_compute. reflexivity.
  - split; [rewrite Hframe; [reflexivity|done|done]|]. destruct Hjob as [Hjob|[_ Hover]]; [exact Hjob|]. vm_compute in Hover. discriminate Hover.
Defined.
Lemma secrets_kept_witness :
  w_objects ((ex_run (cluster_world [ex_cluster_with []; ex_job 1; ex_munge])).1).2 !! (Secret, "ns", "c-munge") = Some ex_munge.
Proof.
  unfold ex_run. apply (secrets_kept example_marshal example_unmarshal 100 map_to_list ex_installed 3 "ns" "c" ∅
    (cluster_world [ex_cluster_with []; ex_job 1; ex_munge]) (ex_cluster_with []) (Secret, "ns", "c-munge") ex_munge).
  - reflexivity.
  - apply world_filed.
  - reflexivity.
  - reflexivity.
  - reflexivity.
  - reflexivity.
  - intros _. vm_compute. intros Hin. elem_cases Hin; discriminate Hin.
Defined.
