(* ===== verification/PodParts.v ===== *)
(** * Parts of pods

    [internal/render/common]: the volumes, volume mounts, claim templates and side containers that the pods of a cluster share
    ([volume.go], [container.go], [resources.go], [nvidia_imex.go], [apparmorprofile.go]), with the types of
    [k8s.io/api/core/v1] as far as the rendering fills them in.  What the user of the operator wrote into a spec
    and the rendering only passes on (probes, volume sources, claims, environment variables,
    containers) stays a tree of fields. *)
From S2P Require Import Prelude GoStrings GoPaths Naming Patchers Workers MultiStep ClusterValues.
From Stdlib Require String.

(** ** Types *)
(** The last field is what only a mount that a spec brings along can have. *)
Record VolumeMount := mkFullVolumeMount {
  vm_Name : string; vm_MountPath : string; vm_SubPath : string; vm_ReadOnly : bool; vm_MountPropagation : option string; vm_Given : fields }.
Definition mkVolumeMount (name mountPath subPath : string) (readOnly : bool) (propagation : option string) : VolumeMount :=
  mkFullVolumeMount name mountPath subPath readOnly propagation ∅.
Record KeyToPath := mkKeyToPath { kp_Key : string; kp_Path : string; kp_Mode : Z }.
Inductive VolumeProjection :=
| ConfigMapProjection (name : string)
| SecretProjection (name : string) (items : list KeyToPath).
Inductive VolumeSource :=
| ConfigMapVolumeSource (name : string) (items : list KeyToPath) (defaultMode : option Z) (optional : option bool)
| SecretVolumeSource (secretName : string) (items : list KeyToPath) (defaultMode : option Z)
| EmptyDirVolumeSource (medium : string) (sizeLimit : option Z)
| HostPathVolumeSource (path : string) (type : string)
| ProjectedVolumeSource (sources : list VolumeProjection)
| GivenVolumeSource (source : fields).
Record Volume := mkVolume { vol_Name : string; vol_Source : VolumeSource }.
Inductive EnvVarSource :=
| EnvValue (value : string)
| EnvFieldRef (apiVersion fieldPath : string)
| EnvSecretKeyRef (name key : string)
| EnvGiven (source : fields).
Record EnvVar := mkEnvVar { env_Name : string; env_Source : EnvVarSource }.
Record AppArmorProfile := mkAppArmorProfile { aa_Type : string; aa_LocalhostProfile : option string }.
Record SecurityContext := mkSecurityContext {
  sec_Privileged : option bool; sec_Add : list string; sec_Drop : list string; sec_Seccomp : option string;
  sec_ProcMount : option string; sec_AppArmorProfile : option AppArmorProfile; sec_RunAsUser : option Z; sec_RunAsGroup : option Z;
  sec_RunAsNonRoot : option bool; sec_ReadOnlyRootFilesystem : option bool; sec_AllowPrivilegeEscalation : option bool }.
(** Quantities are in billionths of bytes and of CPUs. *)
Abbreviation ResourceList := (gmap string Z).
Record ContainerPort := mkContainerPort { port_Name : string; port_ContainerPort : Z; port_Protocol : string }.
Record core_Container := mkCoreContainer {
  c_Name : string; c_Image : string; c_Command : list string; c_Args : list string; c_WorkingDir : string; c_Env : list EnvVar;
  c_RestartPolicy : option string; c_ImagePullPolicy : string; c_Ports : list ContainerPort; c_VolumeMounts : list VolumeMount;
  c_ReadinessProbe : option fields; c_LivenessProbe : option fields; c_SecurityContext : option SecurityContext;
  c_Limits : ResourceList; c_Requests : ResourceList;
  c_TerminationMessage : option (string * string) (* path and policy *) }.
(** A container of a pod: one that a spec brings along, or one that is rendered. *)
Inductive PodContainer := CustomContainer (container : fields) | Rendered (container : core_Container).
Record PersistentVolumeClaim := mkClaim {
  pvc_Name : string; pvc_Namespace : string; pvc_Labels : gmap string string; pvc_Spec : fields }.
Record PVCTemplateSpec := mkPVCTemplateSpec { pts_Name : string; pts_Spec : option fields }.

(** ** Reading specs *)
Definition ints_at (b : fields) (p : path) : gmap string Z :=
  list_to_map (omap (λ kv, match strip p kv.1, kv.2 with Some [k], VInt z => Some (k, z) | _, _ => None end) (map_to_list b)).
Definition optsubtree (p : path) (b : fields) : option fields := if has_field b p then Some (subtree p b) else None.
Definition ct_ImagePullPolicy (c : Container) : string := field_str (ct_spec c) ["imagePullPolicy"].
Definition ct_ImagePullSecrets (c : Container) : fields := subtree ["imagePullSecrets"] (ct_spec c).
Definition ct_Command (c : Container) : list string := field_strs (ct_spec c) ["command"].
Definition ct_Args (c : Container) : list string := field_strs (ct_spec c) ["args"].
Definition env_of (e : fields) : EnvVar := mkEnvVar (field_str e ["name"]) (EnvGiven e).
Definition ct_CustomEnv (c : Container) : list EnvVar := env_of <$> list_at (ct_spec c) ["customEnv"].
Definition ct_Resources (c : Container) : ResourceList := ints_at (ct_spec c) ["resources"].
Definition ct_AppArmorProfile (c : Container) : string := field_str (ct_spec c) ["appArmorProfile"].
Definition ct_ProcMount (c : Container) : string := field_str (ct_spec c) ["procMount"].
Definition ct_ReadinessProbe (c : Container) : option fields := optsubtree ["readinessProbe"] (ct_spec c).
Definition ct_LivenessProbe (c : Container) : option fields := optsubtree ["livenessProbe"] (ct_spec c).
(** [Memory] and [Storage] of a resource list: the zero quantity when there is none. *)
Definition quantity (r : ResourceList) (name : string) : Z := default 0%Z (r !! name).
(** A [NodeVolumeMount] of either API version, and a [NodeVolume]: at most the fields that there are. *)
Record NodeVolumeMount := mkNodeVolumeMount {
  nvm_Name : string; nvm_MountPath : string; nvm_SubPath : string; nvm_ReadOnly : bool; nvm_VolumeSourceName : option string;
  nvm_VolumeSource : option fields; nvm_VolumeClaimTemplateSpec : option fields }.
Definition volumeMount_of (b : fields) : NodeVolumeMount :=
  mkNodeVolumeMount (field_str b ["name"]) (field_str b ["mountPath"]) (field_str b ["subPath"]) (bool_at b ["readOnly"])
    (field_optstr b ["volumeSourceName"]) (optsubtree ["volumeSource"] b) (optsubtree ["volumeClaimTemplateSpec"] b).

(** ** Names and paths ([internal/consts]) *)
Definition VolumeNameSlurmConfigs : string := "slurm-configs".
Definition VolumeNameSpool : string := "spool".
Definition VolumeNameJailSnapshot : string := "jail-snapshot".
Definition VolumeNameMungeSocket : string := "munge-socket".
Definition VolumeNameMungeKey : string := "munge-key".
Definition VolumenameRESTJWTKey : string := "rest-jwt-key".
Definition VolumeNameNvidiaIMEXCLI : string := "nvidia-imex-cli".
Definition VolumeNameNvidiaIMEXCLIJail : string := "nvidia-imex-cli-jail".
Definition VolumeNameNvidiaIMEXConfig : string := "nvidia-imex-config".
Definition VolumeNameNvidiaIMEXConfigJail : string := "nvidia-imex-config-jail".
Definition VolumeNameSSHRootKeys : string := "ssh-root-keys".
Definition VolumeNameSSHDKeys : string := "sshd-keys".
Definition VolumeNameSSSDConf : string := "sssd-conf".
Definition VolumeNameSSSDLdapCA : string := "sssd-ldap-ca".
Definition VolumeNameSSSDSocket : string := "sssd-socket".
Definition VolumeNameSecurityLimits : string := "security-limits".
Definition VolumeNameInMemorySubmount : string := "in-memory".
Definition VolumeNameTmpDisk : string := "tmp-disk".
Definition VolumeMountPathJail : string := "/mnt/jail".
Definition VolumeMountPathJailUpper : string := "/mnt/jail.upper".
Definition VolumeMountPathSpool : string := "/var/spool".
Definition VolumeMountPathSSSDSocket : string := "/var/lib/sss/pipes".
Definition NvidiaIMEXCLIHostPath : string := "/usr/bin/nvidia-imex-ctl".
Definition NvidiaIMEXConfigHostPath : string := "/etc/nvidia-imex".
Definition BuildVolumeMountSpoolPath (directory : string) : string := path_Join [VolumeMountPathSpool; directory].
(** [int32(0420)] is an octal literal. *)
Definition DefaultFileMode : Z := 272.
Definition mode_0400 : Z := 256.
Definition mode_0600 : Z := 384.
Definition mode_0644 : Z := 420.
Definition SysAdmin : string := "SYS_ADMIN".
Definition default_termination : option (string * string) := Some ("/dev/termination-log", "File").

(** ** Volumes and mounts ([volume.go], [nvidia_imex.go]) *)
Definition mount (name path : string) : VolumeMount := mkVolumeMount name path "" false None.
Definition mount_ro (name path : string) : VolumeMount := mkVolumeMount name path "" true None.
Definition config_volume (name configMap : string) (mode : option Z) : Volume :=
  mkVolume name (ConfigMapVolumeSource configMap [] mode None).
Definition emptyDir (name : string) : Volume := mkVolume name (EmptyDirVolumeSource "" None).
Definition renderVolumeClaimTemplate (t : ComponentType) (namespace cluster pvcName : string) (spec : fields) : PersistentVolumeClaim :=
  mkClaim pvcName namespace (RenderLabels t cluster) spec.
(** A template without a spec is skipped. *)
Definition RenderVolumeClaimTemplates (t : ComponentType) (namespace cluster : string) (templates : list PVCTemplateSpec) :
    list PersistentVolumeClaim :=
  omap (λ template, renderVolumeClaimTemplate t namespace cluster (pts_Name template) <$> pts_Spec template) templates.
Definition RenderVolumeSlurmConfigs (cluster : string) : Volume :=
  config_volume VolumeNameSlurmConfigs (BuildConfigMapSlurmConfigsName cluster) None.
Definition RenderVolumeMountSlurmConfigs : VolumeMount := mount_ro VolumeNameSlurmConfigs "/mnt/slurm-configs".
Definition RenderVolumeProjectedSlurmConfigs (cluster : string) (additional : list (option VolumeProjection)) : Volume :=
  mkVolume VolumeNameSlurmConfigs
    (ProjectedVolumeSource (ConfigMapProjection (BuildConfigMapSlurmConfigsName cluster) :: omap id additional)).
Definition RenderVolumeNameSpool (t : ComponentType) : string := ComponentType_String t +:+ "-" +:+ VolumeNameSpool.
Definition RenderVolumeMountSpool (t : ComponentType) (directory : string) : VolumeMount :=
  mount (RenderVolumeNameSpool t) (BuildVolumeMountSpoolPath directory).
(** The source found, without its name. *)
Definition RenderVolumeFromSource (sources : list fields) (sourceName volumeName : string) : outcome Volume :=
  let? s := MustGetBy filter_name sources sourceName in
  Ok (mkVolume volumeName (GivenVolumeSource (delete ["name"] s))).
Definition RenderVolumeSpoolFromSource (t : ComponentType) (sources : list fields) (sourceName : string) : outcome Volume :=
  RenderVolumeFromSource sources sourceName (RenderVolumeNameSpool t).
Definition RenderVolumeJailFromSource (sources : list fields) (sourceName : string) : outcome Volume :=
  RenderVolumeFromSource sources sourceName VolumeNameJail.
Definition RenderVolumeMountJail : VolumeMount := mount VolumeNameJail VolumeMountPathJail.
Definition RenderVolumeMountJailReadOnly : VolumeMount := mount_ro VolumeNameJail VolumeMountPathJail.
Definition RenderVolumeJailSnapshotFromSource (sources : list fields) (sourceName : string) : outcome Volume :=
  RenderVolumeFromSource sources sourceName VolumeNameJailSnapshot.
Definition RenderVolumeMountJailSnapshot : VolumeMount := mount VolumeNameJailSnapshot "/jail".
Definition RenderVolumeMungeSocket : Volume := emptyDir VolumeNameMungeSocket.
Definition RenderVolumeMountMungeSocket : VolumeMount := mount VolumeNameMungeSocket "/run/munge".
Definition RenderVolumeMungeKey (cluster : string) : Volume :=
  mkVolume VolumeNameMungeKey
    (SecretVolumeSource (BuildSecretMungeKeyName cluster) [mkKeyToPath "munge.key" "munge.key" mode_0400] (Some DefaultFileMode)).
Definition RenderVolumeMountMungeKey : VolumeMount := mount_ro VolumeNameMungeKey "/mnt/munge-key".
Definition RenderVolumeMount (m : NodeVolumeMount) (subMountPath : string) : VolumeMount :=
  mkVolumeMount (nvm_Name m) (path_Join [subMountPath; nvm_MountPath m]) (nvm_SubPath m) (nvm_ReadOnly m) None.
Definition RenderVolumeMounts (mounts : list NodeVolumeMount) (subMountPath : string) : list VolumeMount :=
  (λ m, RenderVolumeMount m subMountPath) <$> mounts.
Definition RenderVolumeSecurityLimits (cluster : string) (t : ComponentType) : Volume :=
  config_volume VolumeNameSecurityLimits (BuildConfigMapSecurityLimitsName t cluster) (Some DefaultFileMode).
Definition RenderVolumeSecurityLimitsForNodeSet (cluster nodeSet : string) : Volume :=
  config_volume VolumeNameSecurityLimits (BuildConfigMapSecurityLimitsForNodeSetName cluster nodeSet) (Some DefaultFileMode).
Definition RenderVolumeMountSecurityLimits : VolumeMount :=
  mkVolumeMount VolumeNameSecurityLimits "/etc/security/limits.conf" "limits.conf" false None.
Definition RenderVolumeRESTJWTKey (cluster : string) : Volume :=
  mkVolume VolumenameRESTJWTKey
    (SecretVolumeSource (BuildSecretSlurmRESTSecretName cluster) [mkKeyToPath "rest_jwt.key" "rest_jwt.key" mode_0400] (Some DefaultFileMode)).
Definition RenderVolumeMountRESTJWTKey : VolumeMount := mount_ro VolumenameRESTJWTKey "/mnt/rest-jwt-key".
Definition RenderVolumeSshdRootKeys (cluster : string) : Volume :=
  config_volume VolumeNameSSHRootKeys (BuildConfigMapSshRootPublicKeysName cluster) (Some 384%Z).
Definition RenderVolumeMountSshdRootKeys : VolumeMount :=
  mkVolumeMount VolumeNameSSHRootKeys "/root/.ssh/authorized_keys" "authorized_keys" true None.
Definition sshd_key_items : list KeyToPath :=
  (λ kv, mkKeyToPath kv.1 kv.1 kv.2) <$>
    [("ssh_host_ecdsa_key", mode_0600); ("ssh_host_ecdsa_key.pub", mode_0644); ("ssh_host_ed25519_key", mode_0600);
     ("ssh_host_ed25519_key.pub", mode_0644); ("ssh_host_rsa_key", mode_0600); ("ssh_host_rsa_key.pub", mode_0644)].
Definition RenderVolumeSshdKeys (secretName : string) : Volume :=
  mkVolume VolumeNameSSHDKeys (SecretVolumeSource secretName sshd_key_items (Some DefaultFileMode)).
Definition RenderVolumeMountSshdKeys : VolumeMount := mount_ro VolumeNameSSHDKeys "/etc/ssh/sshd_keys".
Definition RenderVolumeInMemory (sizeLimit : option Z) : Volume :=
  mkVolume VolumeNameInMemorySubmount (EmptyDirVolumeSource "Memory" sizeLimit).
Definition RenderVolumeMountInMemory : VolumeMount :=
  mount VolumeNameInMemorySubmount (VolumeMountPathJailUpper +:+ "/mnt/memory").
Definition RenderVolumeTmpDisk : Volume := emptyDir VolumeNameTmpDisk.
Definition RenderVolumeMountTmpDisk : VolumeMount := mount VolumeNameTmpDisk "/tmp".
Definition RenderVolumeSSSDSocket : Volume := emptyDir VolumeNameSSSDSocket.
Definition RenderVolumeSSSDConf (secretName : string) : Volume :=
  mkVolume VolumeNameSSSDConf (SecretVolumeSource secretName [] (Some mode_0600)).
Definition RenderVolumeSSSDLdapCA (configMapName : string) : Volume :=
  config_volume VolumeNameSSSDLdapCA configMapName (Some DefaultFileMode).
Definition RenderVolumeMountSSSDConf : VolumeMount := mount_ro VolumeNameSSSDConf "/etc/sssd".
Definition RenderVolumeMountSSSDSocket : VolumeMount := mount VolumeNameSSSDSocket VolumeMountPathSSSDSocket.
Definition RenderVolumeMountSSSDLdapCA : VolumeMount := mount_ro VolumeNameSSSDLdapCA "/mnt/ldapCA".
Definition renderVolumeNvidiaIMEXCLI (name : string) : Volume := mkVolume name (HostPathVolumeSource NvidiaIMEXCLIHostPath "FileOrCreate").
Definition renderVolumeNvidiaIMEXConfig (name : string) : Volume :=
  mkVolume name (HostPathVolumeSource NvidiaIMEXConfigHostPath "DirectoryOrCreate").
Definition RenderVolumesNvidiaIMEX : list Volume :=
  [renderVolumeNvidiaIMEXCLI VolumeNameNvidiaIMEXCLI; renderVolumeNvidiaIMEXCLI VolumeNameNvidiaIMEXCLIJail;
   renderVolumeNvidiaIMEXConfig VolumeNameNvidiaIMEXConfig; renderVolumeNvidiaIMEXConfig VolumeNameNvidiaIMEXConfigJail].
Definition RenderVolumeMountsNvidiaIMEX : list VolumeMount :=
  [mount_ro VolumeNameNvidiaIMEXCLI NvidiaIMEXCLIHostPath;
   mount_ro VolumeNameNvidiaIMEXCLIJail (VolumeMountPathJailUpper +:+ NvidiaIMEXCLIHostPath);
   mount_ro VolumeNameNvidiaIMEXConfig NvidiaIMEXConfigHostPath;
   mount_ro VolumeNameNvidiaIMEXConfigJail (VolumeMountPathJailUpper +:+ NvidiaIMEXConfigHostPath)].
(** The volume and the claim template of a mount: one of the two. *)
Definition AddVolumeOrSpec (volumeSourceName : option string) (volumeCreator : string → outcome Volume)
    (pvcTemplateSpec : option fields) (specName : string) : outcome (list Volume * list PVCTemplateSpec) :=
  match volumeSourceName, pvcTemplateSpec with
  | Some name, None => let? v := volumeCreator name in Ok ([v], [])
  | None, Some spec => Ok ([], [mkPVCTemplateSpec specName (Some spec)])
  | _, _ => Err (ErrMsg "only one of VolumeSourceName or VolumeClaimTemplateSpec should be set")
  end.
Definition AddVolumeOrSpecVanilla (name : string) (volumeSource pvcTemplateSpec : option fields) :
    outcome (list Volume * list PVCTemplateSpec) :=
  match volumeSource, pvcTemplateSpec with
  | Some source, None => Ok ([mkVolume name (GivenVolumeSource source)], [])
  | None, Some spec => Ok ([], [mkPVCTemplateSpec name (Some spec)])
  | _, _ => Err (ErrMsg "only one of VolumeSource or VolumeClaimTemplateSpec should be set")
  end.
(** The loops over mounts: both lists grow, the first error ends them. *)
Fixpoint add_all (add : NodeVolumeMount → outcome (list Volume * list PVCTemplateSpec)) (mounts : list NodeVolumeMount)
    (acc : list Volume * list PVCTemplateSpec) : outcome (list Volume * list PVCTemplateSpec) :=
  match mounts with
  | [] => Ok acc
  | m :: mounts => let? (v, s) := add m in add_all add mounts (acc.1 ++ v, acc.2 ++ s)
  end.
Definition add_mount (sources : list fields) (m : NodeVolumeMount) : outcome (list Volume * list PVCTemplateSpec) :=
  AddVolumeOrSpec (nvm_VolumeSourceName m) (λ name, RenderVolumeFromSource sources name (nvm_Name m))
    (nvm_VolumeClaimTemplateSpec m) (nvm_Name m).
Definition add_mount_vanilla (m : NodeVolumeMount) : outcome (list Volume * list PVCTemplateSpec) :=
  AddVolumeOrSpecVanilla (nvm_Name m) (nvm_VolumeSource m) (nvm_VolumeClaimTemplateSpec m).

(** ** Side containers ([container.go], [resources.go], [apparmorprofile.go]) *)
Definition CopyNonCPUResources (resources : ResourceList) : ResourceList := filter (λ kv, kv.1 ≠ "cpu") resources.
Record renderOptions := mkRenderOptions { guaranteed : bool; sssdLdapCAConfigMapName : string }.
Abbreviation RenderOption := (renderOptions → renderOptions).
Definition GuaranteedPod (g : bool) : RenderOption := λ o, mkRenderOptions g (sssdLdapCAConfigMapName o).
Definition SSSDLdapCAConfigMap (name : string) : RenderOption := λ o, mkRenderOptions (guaranteed o) name.
Definition apply_options (opts : list RenderOption) : renderOptions := foldl (λ o f, f o) (mkRenderOptions false "") opts.
Definition ParseAppArmorProfile (profile : string) : option AppArmorProfile :=
  if String.eqb profile "" then None
  else if String.eqb profile "unconfined" then Some (mkAppArmorProfile "Unconfined" None)
  else Some (mkAppArmorProfile "Localhost" (Some (TrimPrefix profile "localhost/"))).
Definition security (privileged : option bool) (add : list string) (seccomp procMount : option string) (profile : string) : SecurityContext :=
  mkSecurityContext privileged add [] seccomp procMount (ParseAppArmorProfile profile) None None None None None.
Definition limits_of (o : renderOptions) (resources : ResourceList) : ResourceList :=
  if guaranteed o then resources else CopyNonCPUResources resources.
Definition RenderContainerMunge (c : Container) (opts : list RenderOption) : core_Container :=
  let o := apply_options opts in
  mkCoreContainer "munge" (ct_Image c) (ct_Command c) (ct_Args c) "" (ct_CustomEnv c) (Some "Always") (ct_ImagePullPolicy c) []
    [RenderVolumeMountMungeKey; RenderVolumeMountMungeSocket] (ct_ReadinessProbe c) (ct_LivenessProbe c)
    (Some (security None [SysAdmin] None None (ct_AppArmorProfile c))) (limits_of o (ct_Resources c)) (ct_Resources c) default_termination.
Definition backslash_newline : string := "\" +:+ newline.
Definition renderCommandAndArgsSSSD (c : Container) : list string * list string :=
  match ct_Command c, ct_Args c with
  | [], [] =>
      let private := path_Join [VolumeMountPathSSSDSocket; "private"] in
      (["/bin/sh"; "-c"],
       ["mkdir -p " +:+ private +:+ " " +:+ backslash_newline +:+ "&& chmod 700 " +:+ private +:+ " " +:+ backslash_newline +:+
        "&& exec /usr/sbin/sssd --interactive -d " +:+ Itoa (ct_SSSDDebugLevel c) +:+ " --logger=stderr"])
  | command, args => (command, args)
  end.
Definition RenderContainerSSSD (c : Container) (opts : list RenderOption) : core_Container :=
  let o := apply_options opts in
  let mounts := [RenderVolumeMountSSSDConf; RenderVolumeMountSSSDSocket] ++
                (if String.eqb (sssdLdapCAConfigMapName o) "" then [] else [RenderVolumeMountSSSDLdapCA]) in
  let '(command, args) := renderCommandAndArgsSSSD c in
  mkCoreContainer "sssd" (ct_Image c) command args "" (ct_CustomEnv c) (Some "Always") (ct_ImagePullPolicy c) []
    mounts (ct_ReadinessProbe c) (ct_LivenessProbe c) (Some (security None [] None None (ct_AppArmorProfile c)))
    (limits_of o (ct_Resources c)) (ct_Resources c) default_termination.

(** ** Pods *)
Record PodSpec := mkPodSpec {
  pod_HostUsers : option bool; pod_ReadinessGates : list string; pod_PriorityClassName : string; pod_ServiceAccountName : string;
  pod_ImagePullSecrets : fields; pod_Affinity : fields; pod_NodeSelector : fields; pod_Tolerations : fields;
  pod_InitContainers : list PodContainer; pod_Containers : list PodContainer; pod_Volumes : list Volume;
  pod_Hostname : string; pod_Subdomain : string; pod_DNSPolicy : string; pod_DNSSearches : list string; pod_RestartPolicy : string;
  pod_TerminationGracePeriodSeconds : option Z; pod_ActiveDeadlineSeconds : option Z;
  pod_SecurityContext : option (option Z * option Z);  (* runAsUser and runAsGroup *)
  pod_SchedulerName : string; pod_HostNetwork : bool; pod_HostIPC : bool; pod_HostPID : bool; pod_ShareProcessNamespace : option bool }.
Definition DefaultPodTerminationGracePeriodSeconds : Z := 30.

(** A StatefulSet has the pod in its flattened JSON form, in which an array that is only written is its text.  The printing of these
    arrays is the API's. *)
Class PodJSON := {
  json_containers : list PodContainer → string;
  json_volumes : list Volume → string;
  json_claims : list PersistentVolumeClaim → string }.
Definition str_field (p : path) (s : string) : list (path * value) := if String.eqb s "" then [] else [(p, VStr s)].
Definition true_field (p : path) (b : bool) : list (path * value) := if b then [(p, VBool true)] else [].
Definition opt_field {A} (p : path) (v : A → value) (o : option A) : list (path * value) :=
  match o with Some a => [(p, v a)] | None => [] end.
Definition array_field {A} (p : path) (text : list A → string) (l : list A) : list (path * value) :=
  match l with [] => [] | _ => [(p, VRaw (text l))] end.
Section encoding.
  Context `{PodJSON}.
Definition encode_podSecurity (s : option (option Z * option Z)) : list (path * value) :=
  match s with
  | None => []
  | Some (None, None) => [(["securityContext"], VRaw "{}")]
  | Some (user, group) => opt_field ["securityContext"; "runAsUser"] VInt user ++ opt_field ["securityContext"; "runAsGroup"] VInt group
  end.
Definition encode_pod (p : PodSpec) : fields :=
  list_to_map
    ([(["containers"], VRaw (json_containers (pod_Containers p)))] ++
     array_field ["initContainers"] json_containers (pod_InitContainers p) ++ array_field ["volumes"] json_volumes (pod_Volumes p) ++
     opt_field ["hostUsers"] VBool (pod_HostUsers p) ++
     match pod_ReadinessGates p with [] => [] | l => [(["readinessGates"], VRows ((λ g, [("conditionType", g)]) <$> l))] end ++
     str_field ["priorityClassName"] (pod_PriorityClassName p) ++ str_field ["serviceAccountName"] (pod_ServiceAccountName p) ++
     str_field ["hostname"] (pod_Hostname p) ++ str_field ["subdomain"] (pod_Subdomain p) ++ str_field ["dnsPolicy"] (pod_DNSPolicy p) ++
     match pod_DNSSearches p with [] => [] | l => [(["dnsConfig"; "searches"], VStrs l)] end ++
     str_field ["restartPolicy"] (pod_RestartPolicy p) ++ opt_field ["terminationGracePeriodSeconds"] VInt (pod_TerminationGracePeriodSeconds p) ++
     opt_field ["activeDeadlineSeconds"] VInt (pod_ActiveDeadlineSeconds p) ++ encode_podSecurity (pod_SecurityContext p) ++
     str_field ["schedulerName"] (pod_SchedulerName p) ++ true_field ["hostNetwork"] (pod_HostNetwork p) ++
     true_field ["hostIPC"] (pod_HostIPC p) ++ true_field ["hostPID"] (pod_HostPID p) ++
     opt_field ["shareProcessNamespace"] VBool (pod_ShareProcessNamespace p)) ∪
  below ["imagePullSecrets"] (pod_ImagePullSecrets p) ∪ below ["affinity"] (pod_Affinity p) ∪
  below ["nodeSelector"] (pod_NodeSelector p) ∪ below ["tolerations"] (pod_Tolerations p).
Definition encode_claims (claims : list PersistentVolumeClaim) : option value :=
  match claims with [] => None | _ => Some (VRaw (json_claims claims)) end.
End encoding.

(** ** Mounts refer to volumes

    The API server refuses a pod with a container that mounts a volume which the pod does not declare; the claim templates of a StatefulSet
    become volumes of its pods. *)
Definition volume_names (volumes : list Volume) (claims : list string) : list string := (vol_Name <$> volumes) ++ claims.
Definition mounts_in (names : list string) (mounts : list VolumeMount) : Prop := Forall (λ m, vm_Name m ∈ names) mounts.
Definition container_mounts_in (names : list string) (c : PodContainer) : Prop :=
  match c with CustomContainer _ => True | Rendered c => mounts_in names (c_VolumeMounts c) end.
Definition mounts_declared (p : PodSpec) (claims : list PersistentVolumeClaim) : Prop :=
  let names := volume_names (pod_Volumes p) (pvc_Name <$> claims) in
  Forall (container_mounts_in names) (pod_InitContainers p) ∧ Forall (container_mounts_in names) (pod_Containers p).
Global Instance container_mounts_in_dec names c : Decision (container_mounts_in names c).
Proof. destruct c; simpl; apply _. Defined.
Global Instance mounts_declared_dec p claims : Decision (mounts_declared p claims).
Proof. unfold mounts_declared. apply _. Defined.

(** Closed statements about names, decided lazily: the rest of the volumes is not looked at. *)
Ltac by_computation := apply (bool_decide_unpack _); lazy; reflexivity.
Lemma mounts_in_app names l1 l2 : mounts_in names (l1 ++ l2) ↔ mounts_in names l1 ∧ mounts_in names l2.
Proof. apply Forall_app. Qed.
Lemma mounts_in_mono names names' l : names ⊆ names' → mounts_in names l → mounts_in names' l.
Proof. intros Hs Hl. eapply Forall_impl; [exact Hl|]. intros m Hm. by apply Hs. Qed.
Lemma mounts_in_custom names mounts sub :
  nvm_Name <$> mounts ⊆ names → mounts_in names (RenderVolumeMounts mounts sub).
Proof.
  intros Hs. apply Forall_fmap, Forall_forall. intros m Hm. simpl. apply Hs. by apply list_elem_of_fmap_2.
Qed.
Lemma claim_names t namespace cluster (templates : list PVCTemplateSpec) :
  Forall (λ s, is_Some (pts_Spec s)) templates →
  pvc_Name <$> RenderVolumeClaimTemplates t namespace cluster templates = pts_Name <$> templates.
Proof.
  induction 1 as [|s l [b Hb] _ IH]; [done|]. unfold RenderVolumeClaimTemplates. simpl. rewrite Hb. simpl. f_equal. apply IH.
Qed.
(** Every way of adding a mount declares it once, as a volume or as a claim. *)
Definition names_of (l : list Volume * list PVCTemplateSpec) : list string := (vol_Name <$> l.1) ++ (pts_Name <$> l.2).
Definition declares (m : NodeVolumeMount) (added : list Volume * list PVCTemplateSpec) : Prop :=
  names_of added = [nvm_Name m] ∧ Forall (λ s, is_Some (pts_Spec s)) added.2.
Lemma AddVolumeOrSpec_names source creator template name added :
  (∀ s vol, creator s = Ok vol → vol_Name vol = name) → AddVolumeOrSpec source creator template name = Ok added →
  names_of added = [name] ∧ Forall (λ s, is_Some (pts_Spec s)) added.2.
Proof.
  unfold AddVolumeOrSpec. intros Hc. destruct source as [s|], template as [t|]; try done.
  - destruct (creator s) as [vol|?|?] eqn:Hs; [|done..]. intros [= <-]. unfold names_of. cbn. by rewrite (Hc _ _ Hs).
  - intros [= <-]. split; [done|]. by repeat constructor.
Qed.
Lemma RenderVolumeFromSource_name sources s name vol : RenderVolumeFromSource sources s name = Ok vol → vol_Name vol = name.
Proof. unfold RenderVolumeFromSource. destruct (MustGetBy _ _ _); [|done..]. by intros [= <-]. Qed.
Lemma add_mount_declares sources m added : add_mount sources m = Ok added → declares m added.
Proof. apply AddVolumeOrSpec_names. intros s vol. apply RenderVolumeFromSource_name. Qed.
Lemma add_mount_vanilla_declares m added : add_mount_vanilla m = Ok added → declares m added.
Proof.
  unfold add_mount_vanilla, AddVolumeOrSpecVanilla, declares.
  destruct (nvm_VolumeSource m) as [s|], (nvm_VolumeClaimTemplateSpec m) as [t|]; try done; intros [= <-]; split; by repeat constructor.
Qed.
Lemma names_of_app v1 s1 v2 s2 : names_of (v1 ++ v2, s1 ++ s2) ≡ₚ names_of (v1, s1) ++ names_of (v2, s2).
Proof. unfold names_of. cbn. rewrite !fmap_app. solve_Permutation. Qed.
Lemma add_all_names add mounts acc res :
  (∀ m added, add m = Ok added → declares m added) → add_all add mounts acc = Ok res →
  Forall (λ s, is_Some (pts_Spec s)) acc.2 →
  names_of res ≡ₚ names_of acc ++ (nvm_Name <$> mounts) ∧ Forall (λ s, is_Some (pts_Spec s)) res.2.
Proof.
  intros Hadd. revert acc. induction mounts as [|m mounts IH]; intros acc; simpl.
  - intros [= <-] Hacc. by rewrite app_nil_r.
  - destruct (add m) as [[v s]|?|?] eqn:Hm; [|done..]. simpl. intros Hres Hacc.
    destruct (Hadd _ _ Hm) as [Hin Hs]. destruct (IH _ Hres) as (Hn & Hf); [by apply Forall_app|]. split; [|done].
    rewrite Hn, names_of_app. destruct acc. cbn [fst snd]. rewrite Hin. solve_Permutation.
Qed.
Lemma add_two_names add m1 m2 acc res :
  (∀ m added, add m = Ok added → declares m added) → Forall (λ s, is_Some (pts_Spec s)) acc.2 →
  (let? acc := add_all add m1 acc in add_all add m2 acc) = Ok res →
  names_of res ≡ₚ names_of acc ++ (nvm_Name <$> m1 ++ m2) ∧ Forall (λ s, is_Some (pts_Spec s)) res.2.
Proof.
  intros Hadd H0. destruct (add_all add m1 _) as [acc'|?|?] eqn:H1; [|done..]. cbn [obind]. intros H2.
  destruct (add_all_names _ _ _ _ Hadd H1 H0) as [Hn1 Hs1]. destruct (add_all_names _ _ _ _ Hadd H2 Hs1) as [Hn2 Hs2].
  split; [|done]. rewrite Hn2, Hn1, fmap_app. solve_Permutation.
Qed.
Lemma add_all_extends add mounts acc res : add_all add mounts acc = Ok res → acc.1 `prefix_of` res.1.
Proof.
  revert acc. induction mounts as [|m mounts IH]; intros acc; simpl; [by intros [= <-]|].
  destruct (add m) as [[v s]|?|?]; [|done..]. simpl. intros Hr%IH. etrans; [|exact Hr]. by eexists.
Qed.
(** The claim templates are the specs, so that the names stay. *)
Lemma claims_volume_names t namespace cluster volumes templates extra :
  Forall (λ s, is_Some (pts_Spec s)) templates →
  volume_names (volumes ++ extra) (pvc_Name <$> RenderVolumeClaimTemplates t namespace cluster templates) ≡ₚ
  names_of (volumes, templates) ++ (vol_Name <$> extra).
Proof. intros Hs. unfold volume_names, names_of. rewrite claim_names by done. cbn. rewrite fmap_app. solve_Permutation. Qed.
Lemma lookup_ints_at (b : fields) p k :
  ints_at b p !! k = match b !! (p ++ [k]) with Some (VInt z) => Some z | _ => None end.
Proof.
  unfold ints_at. set (l := omap _ _).
  assert (∀ z, (k, z) ∈ l ↔ b !! (p ++ [k]) = Some (VInt z)) as Hl.
  { intros z. unfold l. rewrite list_elem_of_omap. split.
    - intros ([k' v] & Hk & Hs). cbn in Hs. destruct (strip p k') as [q'|] eqn:Hq; [|done]. apply strip_Some in Hq as ->.
      destruct q' as [|x [|]], v; simplify_eq. by apply elem_of_map_to_list.
    - intros Hv. exists (p ++ [k], VInt z). split; [by apply elem_of_map_to_list|]. cbn. by rewrite (proj2 (strip_Some p (p ++ [k]) [k])). }
  destruct (b !! (p ++ [k])) as [v|] eqn:Hb.
  - destruct v; try (apply not_elem_of_list_to_map_1; intros ([k' z'] & -> & Hv)%list_elem_of_fmap; apply Hl in Hv; congruence).
    apply elem_of_list_to_map_1'; [|by apply Hl]. intros v' Hv'. apply Hl in Hv'. congruence.
  - apply not_elem_of_list_to_map_1. intros ([k' z'] & -> & Hv)%list_elem_of_fmap. apply Hl in Hv. congruence.
Qed.
(** The limits that are derived from requests never hold back the CPU, and are the requests otherwise. *)
Lemma lookup_CopyNonCPUResources (r : ResourceList) k :
  CopyNonCPUResources r !! k = if decide (k = "cpu") then None else r !! k.
Proof.
  unfold CopyNonCPUResources. destruct (decide (k = "cpu")) as [-> |Hk].
  - apply map_lookup_filter_None. right. intros x _ Hx. by apply Hx.
  - rewrite map_lookup_filter. destruct (r !! k); simpl; [|done]. by rewrite option_guard_True.
Qed.
(** *** The pod in an object *)
Section encoded.
  Context `{PodJSON}.
Lemma union_Some_l_eq {A} (o1 o2 : option A) a : o1 = Some a → o1 ∪ o2 = Some a.
Proof. intros ->. apply union_Some_l. Qed.
Ltac at_head := unfold encode_pod; rewrite !lookup_union; do 4 apply union_Some_l_eq; cbn [app list_to_map foldr fst snd uncurry].
Lemma encode_containers p : encode_pod p !! ["containers"] = Some (VRaw (json_containers (pod_Containers p))).
Proof. at_head. apply lookup_insert_eq. Qed.
Lemma encode_initContainers p :
  pod_InitContainers p ≠ [] → encode_pod p !! ["initContainers"] = Some (VRaw (json_containers (pod_InitContainers p))).
Proof.
  intros Hne. at_head. rewrite lookup_insert_ne by done. unfold array_field. destruct (pod_InitContainers p); [done|]. apply lookup_insert_eq.
Qed.
Lemma encode_volumes p : pod_Volumes p ≠ [] → encode_pod p !! ["volumes"] = Some (VRaw (json_volumes (pod_Volumes p))).
Proof.
  intros Hne. at_head. rewrite lookup_insert_ne by done. unfold array_field.
  destruct (pod_InitContainers p); [|cbn [app list_to_map foldr uncurry]; rewrite lookup_insert_ne by done];
    destruct (pod_Volumes p); try done; apply lookup_insert_eq.
Qed.
End encoded.
