(* ===== verification/WorkerPods.v ===== *)
(** * The worker pods

    [internal/render/worker/container.go], [volume.go] and the pod of [statefulset.go], from the values of a NodeSet
    ([internal/values/slurm_nodeset.go]): the init containers, slurmd and the Docker proxy, with every volume and claim
    template.  [renderPod_worker] is the pod that [Workers.RenderNodeSetStatefulSet] puts into the StatefulSet. *)
From S2P Require Import Prelude GoStrings GoPaths Naming Effects Reconciler Patchers Workers MultiStep ClusterValues ConfigTexts HostPattern SlurmConfigs PodParts.
From Stdlib Require Import Ascii.
From Stdlib Require String.

(** ** Values of a NodeSet that only the pod needs *)
Definition spec_of (v : SlurmNodeSet) : fields := subtree ["spec"] (v_spec v).
Definition GetURI (image : fields) : string := field_str image ["repository"] +:+ ":" +:+ field_str image ["tag"].
(** The [NodeContainer] of a side container: image, resources, probes and the profile. *)
Definition nodeContainer_side (b : fields) : fields :=
  list_to_map [(["image"], VStr (GetURI (subtree ["image"] b))); (["imagePullPolicy"], VStr (field_str b ["image"; "pullPolicy"]));
               (["appArmorProfile"], VStr (field_str b ["security"; "appArmorProfile"]));
               (["securityLimitsConfig"], VStr (field_str b ["security"; "limitsConfig"]))] ∪
  below ["resources"] (subtree ["resources"] b) ∪ below ["livenessProbe"] (subtree ["livenessProbe"] b) ∪
  below ["readinessProbe"] (subtree ["readinessProbe"] b).
Definition nodeContainer_slurmd (b : fields) : fields :=
  list_to_map [(["port"], VInt (field_int b ["port"])); (["procMount"], VStr (field_str b ["security"; "procMount"]))] ∪
  nodeContainer_side b ∪ below ["customEnv"] (subtree ["customEnv"] b).
Definition ContainerSlurmd (v : SlurmNodeSet) : Container :=
  buildContainerFrom (nodeContainer_slurmd (subtree ["slurmd"] (spec_of v))) "slurmd".
Definition ContainerMunge (v : SlurmNodeSet) : Container := buildContainerFrom (nodeContainer_side (subtree ["munge"] (spec_of v))) "munge".
Definition ContainerSSSD (v : SlurmNodeSet) : option Container :=
  if v_ContainerSSSD v then
    Some (mkContainer "sssd" (field_int (spec_of v) ["sssdDebugLevel"]) (nodeContainer_side (subtree ["sssd"] (spec_of v))))
  else None.
Definition SSSDLdapCAConfigMapName (v : SlurmNodeSet) : string :=
  if v_ContainerSSSD v then field_str (spec_of v) ["sssdLdapCAConfigMapRefName"] else "".
Definition GPU_Enabled (v : SlurmNodeSet) : bool := bool_at (spec_of v) ["gpu"; "enabled"].
Definition GDRCopyEnabled (v : SlurmNodeSet) : bool := bool_at (spec_of v) ["gpu"; "nvidia"; "gdrCopyEnabled"].
Definition DockerEnabled (v : SlurmNodeSet) : bool := default true (field_optbool (spec_of v) ["docker"; "enabled"]).
Definition JailSubMounts (v : SlurmNodeSet) : list NodeVolumeMount := volumeMount_of <$> list_at (spec_of v) ["slurmd"; "volumes"; "jailSubMounts"].
Definition CustomVolumeMounts (v : SlurmNodeSet) : list NodeVolumeMount :=
  volumeMount_of <$> list_at (spec_of v) ["slurmd"; "volumes"; "customVolumeMounts"].
Definition SharedMemorySize (v : SlurmNodeSet) : option Z :=
  match spec_of v !! ["slurmd"; "volumes"; "sharedMemorySize"] with Some (VInt z) => Some z | _ => None end.
Definition NodeExtra (v : SlurmNodeSet) : string := field_str (spec_of v) ["nodeConfig"; "dynamic"].

(** What the StatefulSet's rendering takes from the cluster. *)
Record PodArgs := mkPodArgs {
  pa_clusterName : string; pa_SshdKeysName : string; pa_cgroupVersion : string; pa_clusterWithGPU : bool; pa_topologyPlugin : string;
  pa_useDefaultAppArmorProfile : bool }.
Definition topologyPluginEnabled (a : PodArgs) : bool := negb (String.eqb (pa_topologyPlugin a) "").
Definition worker_podArgs (cluster : resource) (clusterWithGPU : bool) : PodArgs :=
  let b := subtree ["spec"] (o_body cluster) in
  let keys := field_str b ["secrets"; "sshdKeysName"] in
  mkPodArgs (o_name cluster) (if String.eqb keys "" then BuildSecretSSHDKeysName (o_name cluster) else keys)
    (field_str b ["cgroupVersion"]) clusterWithGPU (field_str b ["slurmConfig"; "topologyPlugin"]) (bool_at b ["useDefaultAppArmorProfile"]).

(** ** Volumes ([volume.go]) *)
Definition VolumeNameTopologyNodeLabels : string := "topology-node-labels".
Definition VolumeMountPathTopologyNodeLabels : string := "/tmp/slurm/topology-node-labels".
Definition VolumeNameSSHDConfigsWorker : string := "ssh-configs-worker".
Definition renderSupervisordConfigMap (name : string) : Volume := config_volume "supervisord-config" name (Some DefaultFileMode).
Definition renderVolumeMountSupervisordConfigMap : VolumeMount := mount_ro "supervisord-config" "/etc/supervisor/conf.d/".
Definition renderVolumeRuntime : Volume := emptyDir "runtime".
Definition renderVolumeMountRuntime : VolumeMount := mount "runtime" "/run".
Definition renderVolumeHostLogJournal : Volume := mkVolume "hostlog-journal" (HostPathVolumeSource "/var/log/journal" "").
Definition renderVolumeMountHostLogJournal : VolumeMount := mount_ro "hostlog-journal" (VolumeMountPathJailUpper +:+ "/var/hostlog/journal").
Definition renderVolumeSoperatorOutputs : Volume :=
  mkVolume "soperator-outputs" (HostPathVolumeSource "/var/log/soperator-outputs" "DirectoryOrCreate").
Definition renderVolumeMountSoperatorOutputs : VolumeMount :=
  mount "soperator-outputs" (VolumeMountPathJailUpper +:+ "/opt/soperator-outputs/local").
Definition renderVolumeNvidia : Volume := mkVolume "nvidia" (HostPathVolumeSource "/run/nvidia" "").
Definition renderVolumeMountNvidia : VolumeMount := mkVolumeMount "nvidia" "/run/nvidia" "" false (Some "HostToContainer").
Definition renderVolumeBoot : Volume := mkVolume "boot" (HostPathVolumeSource "/boot" "").
Definition renderVolumeMountBoot : VolumeMount := mkVolumeMount "boot" "/boot" "" false (Some "HostToContainer").
Definition renderVolumeSharedMemory (size : option Z) : Volume := mkVolume "dev-shm" (EmptyDirVolumeSource "Memory" size).
Definition renderVolumeMountSharedMemory : VolumeMount := mount "dev-shm" "/dev/shm".
Definition renderVolumeSysctl (cluster : string) : Volume := config_volume "sysctl" (BuildConfigMapSysctlName cluster) (Some DefaultFileMode).
Definition renderVolumeMountSysctl : VolumeMount := mkVolumeMount "sysctl" "/etc/sysctl.conf" "sysctl.conf" false None.
Definition renderVolumeSshdConfigs (name : string) : Volume := config_volume VolumeNameSSHDConfigsWorker name (Some DefaultFileMode).
Definition renderVolumeMountSshdConfigs : VolumeMount := mount_ro VolumeNameSSHDConfigsWorker "/mnt/ssh-configs".
Definition worker_base_volumes (v : SlurmNodeSet) (sshdKeysName : string) : list Volume :=
  [RenderVolumeMungeKey (v_ClusterName v); RenderVolumeMungeSocket; renderVolumeRuntime;
   RenderVolumeSecurityLimitsForNodeSet (v_ClusterName v) (v_Name v); RenderVolumeSshdKeys sshdKeysName;
   RenderVolumeSshdRootKeys (v_ClusterName v); RenderVolumeInMemory (Some (quantity (ct_Resources (ContainerSlurmd v)) "memory"));
   RenderVolumeTmpDisk; renderVolumeBoot; renderVolumeHostLogJournal; renderVolumeSoperatorOutputs;
   renderVolumeSharedMemory (SharedMemorySize v); renderVolumeSysctl (v_ClusterName v);
   renderSupervisordConfigMap (v_SupervisorDConfigMapName v); renderVolumeSshdConfigs (v_SSHDConfigMapName v)] ++
  (if v_ContainerSSSD v then
     [RenderVolumeSSSDSocket; RenderVolumeSSSDConf (v_SSSDConfSecretName v)] ++
     (if String.eqb (SSSDLdapCAConfigMapName v) "" then [] else [RenderVolumeSSSDLdapCA (SSSDLdapCAConfigMapName v)])
   else []) ++
  (if GPU_Enabled v then renderVolumeNvidia :: RenderVolumesNvidiaIMEX else []) ++
  [mkVolume (RenderVolumeNameSpool ComponentTypeWorker) (GivenVolumeSource (subtree ["slurmd"; "volumes"; "spool"] (spec_of v)));
   mkVolume VolumeNameJail (GivenVolumeSource (subtree ["slurmd"; "volumes"; "jail"] (spec_of v)))].
Definition renderVolumesAndClaimTemplateSpecsForNodeSet (v : SlurmNodeSet) (sshdKeysName : string) :
    outcome (list Volume * list PVCTemplateSpec) :=
  let? acc := add_all add_mount_vanilla (JailSubMounts v) (worker_base_volumes v sshdKeysName, []) in
  add_all add_mount_vanilla (CustomVolumeMounts v) acc.

(** ** Containers ([container.go]) *)
Definition FormatBool (b : bool) : string := if b then "true" else "false".
Definition text_env (name value : string) : EnvVar := mkEnvVar name (EnvValue value).
Definition topology_mount (enabled : bool) : list VolumeMount :=
  if enabled then [mount_ro VolumeNameTopologyNodeLabels VolumeMountPathTopologyNodeLabels] else [].
Definition worker_init_env (cluster : string) (topologyEnabled gpuEnabled : bool) (waitTimeoutSeconds : Z) (topologyPlugin topologyFabric : string)
    (randomDelaySeconds : Z) : list EnvVar :=
  [mkEnvVar "K8S_NODE_NAME" (EnvFieldRef "v1" "spec.nodeName"); mkEnvVar "K8S_POD_NAME" (EnvFieldRef "v1" "metadata.name");
   mkEnvVar "K8S_POD_NAMESPACE" (EnvFieldRef "v1" "metadata.namespace"); text_env "CONTROLLER_MAX_ATTEMPTS" "60";
   text_env "CONTROLLER_POLL_INTERVAL" "5"; text_env "K8S_SERVICE_NAME" (BuildServiceName ComponentTypeNodeSet cluster)] ++
  (if (0 <? randomDelaySeconds)%Z then [text_env "WORKER_INIT_RANDOM_DELAY_SECONDS" (Itoa randomDelaySeconds)] else []) ++
  (if gpuEnabled then [text_env "NODESET_GPU_ENABLED" "true"] else []) ++
  (if topologyEnabled then
     [text_env "TOPOLOGY_CONFIGMAP_PATH" VolumeMountPathTopologyNodeLabels; text_env "TOPOLOGY_WAIT_TIMEOUT" (Itoa waitTimeoutSeconds);
      text_env "TOPOLOGY_POLL_INTERVAL" "5"] ++
     (if String.eqb topologyPlugin "" then [] else [text_env "SLURM_TOPOLOGY_PLUGIN" topologyPlugin]) ++
     [text_env "SLURM_TOPOLOGY_FABRIC" (if String.eqb topologyFabric "" then "root" else topologyFabric)]
   else []).
Definition RenderContainerWorkerInit (cluster : string) (c : Container) (topologyEnabled gpuEnabled : bool) (waitTimeoutSeconds : Z)
    (topologyPlugin topologyFabric : string) (randomDelaySeconds : Z) : core_Container :=
  mkCoreContainer "worker-init" (ct_Image c)
    (["python3"; "/opt/bin/slurm/worker_init.py"; "wait-controller"] ++ if topologyEnabled then ["wait-topology"] else []) [] ""
    (worker_init_env cluster topologyEnabled gpuEnabled waitTimeoutSeconds topologyPlugin topologyFabric randomDelaySeconds)
    None (ct_ImagePullPolicy c) [] ([RenderVolumeMountJail; RenderVolumeMountMungeSocket] ++ topology_mount topologyEnabled)
    None None None ∅ ∅ default_termination.
Definition EnvNodeRealMemoryBytes : string := "SOPERATOR_NODE_REAL_MEMORY_BYTES".
Definition renderNodeSetSlurmdEnv (cgroupVersion : string) (clusterWithGPU nodeSetGPUEnabled enableGDRCopy dockerEnabled : bool)
    (slurmNodeExtra : string) (realMemoryBytes : Z) : list EnvVar :=
  [mkEnvVar "INSTANCE_ID" (EnvFieldRef "v1" "spec.nodeName"); text_env "SLURM_CLUSTER_WITH_GPU" (FormatBool clusterWithGPU);
   text_env "NODESET_GPU_ENABLED" (FormatBool nodeSetGPUEnabled); text_env "SOPERATOR_DOCKER_ENABLED" (FormatBool dockerEnabled);
   text_env EnvNodeRealMemoryBytes (Itoa realMemoryBytes)] ++
  (if String.eqb slurmNodeExtra "" then [] else [text_env "SLURM_NODE_EXTRA" slurmNodeExtra]) ++
  (if String.eqb cgroupVersion "v2" then [text_env "CGROUP_V2" "true"] else []) ++
  (if enableGDRCopy then [text_env "NVIDIA_GDRCOPY" "enabled"] else []).
(** [check.CheckResourceRequests] *)
Definition CheckResourceRequests (requests : ResourceList) : outcome () :=
  let? _ := ensure (negb (quantity requests "memory" =? 0)%Z) "memory request not set or is zero" in
  ensure (negb (quantity requests "cpu" =? 0)%Z) "CPU request not set or is zero".
Definition slurmd_mounts (v : SlurmNodeSet) (topologyEnabled : bool) : list VolumeMount :=
  [renderVolumeMountRuntime; RenderVolumeMountSpool ComponentTypeWorker "slurmd"; RenderVolumeMountJail; RenderVolumeMountMungeSocket;
   RenderVolumeMountSecurityLimits; RenderVolumeMountSshdKeys; RenderVolumeMountSshdRootKeys; RenderVolumeMountInMemory;
   RenderVolumeMountTmpDisk; renderVolumeMountBoot; renderVolumeMountHostLogJournal; renderVolumeMountSoperatorOutputs;
   renderVolumeMountSharedMemory; renderVolumeMountSysctl; renderVolumeMountSupervisordConfigMap; renderVolumeMountSshdConfigs] ++
  (if v_ContainerSSSD v then [RenderVolumeMountSSSDSocket; RenderVolumeMountSSSDConf] else []) ++
  (if GPU_Enabled v then renderVolumeMountNvidia :: RenderVolumeMountsNvidiaIMEX else []) ++ topology_mount topologyEnabled.
Definition slurmd_profile (v : SlurmNodeSet) (useDefault : bool) : string :=
  let profile := if useDefault then "localhost/" +:+ BuildAppArmorProfileName (v_ClusterName v) (v_Namespace v)
                 else ct_AppArmorProfile (ContainerSlurmd v) in
  if String.eqb profile "" then "unconfined" else profile.
(** The byte representation of the node's RealMemory, at 64 bits; the memory is a quantity. *)
Definition realMemoryBytes (memory : Z) : Z := wrap 64 (wrap 64 (RenderRealMemorySlurmd memory * 1024) * 1024).
Definition renderContainerNodeSetSlurmd (v : SlurmNodeSet) (a : PodArgs) : outcome core_Container :=
  let c := ContainerSlurmd v in
  let resources := ct_Resources c in
  let? _ := wrap_err "checking resource requests" (CheckResourceRequests resources) in
  let? _ := ensure (forallb (λ e, negb (String.eqb (env_Name e) EnvNodeRealMemoryBytes)) (ct_CustomEnv c))
              "environment variable is managed by Soperator" in
  Ok (mkCoreContainer "slurmd" (ct_Image c) (ct_Command c) (ct_Args c) ""
        (renderNodeSetSlurmdEnv (pa_cgroupVersion a) (pa_clusterWithGPU a) (GPU_Enabled v) (GDRCopyEnabled v) (DockerEnabled v) (NodeExtra v)
           (realMemoryBytes (quantity resources "memory")) ++ ct_CustomEnv c)
        None (ct_ImagePullPolicy c) [mkContainerPort (ct_Name c) (ct_Port c) "TCP"]
        (slurmd_mounts v (topologyPluginEnabled a) ++ RenderVolumeMounts (JailSubMounts v) VolumeMountPathJailUpper ++
         RenderVolumeMounts (CustomVolumeMounts v) "")
        (ct_ReadinessProbe c) (ct_LivenessProbe c)
        (Some (security (Some true) [SysAdmin] (Some "Unconfined") (if String.eqb (ct_ProcMount c) "" then None else Some (ct_ProcMount c))
                 (slurmd_profile v (pa_useDefaultAppArmorProfile a))))
        resources resources default_termination).
Definition renderContainerNodeSetDockerProxy (v : SlurmNodeSet) : core_Container :=
  let c := ContainerSlurmd v in
  mkCoreContainer "docker-proxy" (ct_Image c) ["/opt/bin/slurm/docker_proxy_nginx_entrypoint.sh"] [] "" [] None (ct_ImagePullPolicy c) []
    [renderVolumeMountRuntime] None None None ∅ ∅ default_termination.

(** ** The pod ([statefulset.go]) *)
Definition worker_init_containers (v : SlurmNodeSet) (a : PodArgs) : list PodContainer :=
  let timeout := field_int (spec_of v) ["ephemeralTopologyWaitTimeout"] in
  (CustomContainer <$> list_at (spec_of v) ["customInitContainers"]) ++ [Rendered (RenderContainerMunge (ContainerMunge v) [])] ++
  match ContainerSSSD v with
  | Some sssd => [Rendered (RenderContainerSSSD sssd [SSSDLdapCAConfigMap (SSSDLdapCAConfigMapName v)])]
  | None => []
  end ++
  [Rendered (RenderContainerWorkerInit (pa_clusterName a) (ContainerSlurmd v) (topologyPluginEnabled a) (GPU_Enabled v)
               (if (timeout =? 0)%Z then 180 else timeout) (pa_topologyPlugin a) (field_str (spec_of v) ["topology"; "fabric"])
               (field_int (spec_of v) ["workerInitRandomDelaySeconds"]))].
Definition topology_volume (enabled : bool) : list Volume :=
  if enabled then [mkVolume VolumeNameTopologyNodeLabels (ConfigMapVolumeSource "topology-node-labels" [] None (Some true))] else [].
Definition worker_pod (v : SlurmNodeSet) (a : PodArgs) : outcome (PodSpec * list PersistentVolumeClaim) :=
  let? (volumes, templates) := wrap_err "rendering volumes and claim template specs"
                                 (renderVolumesAndClaimTemplateSpecsForNodeSet v (pa_SshdKeysName a)) in
  let? slurmd := wrap_err "rendering slurmd container" (renderContainerNodeSetSlurmd v a) in
  Ok ({| pod_HostUsers := Some (bool_at (spec_of v) ["enableHostUserNamespace"]); pod_ReadinessGates := ["InPlaceUpdateReady"];
         pod_PriorityClassName := field_str (spec_of v) ["priorityClass"];
         pod_ServiceAccountName := BuildServiceAccountNodeSetName (v_ClusterName v) (v_Name v);
         pod_ImagePullSecrets := subtree ["imagePullSecrets"] (spec_of v); pod_Affinity := subtree ["affinity"] (spec_of v);
         pod_NodeSelector := subtree ["nodeSelector"] (spec_of v); pod_Tolerations := subtree ["tolerations"] (spec_of v);
         pod_InitContainers := worker_init_containers v a;
         pod_Containers := Rendered slurmd :: if DockerEnabled v then [Rendered (renderContainerNodeSetDockerProxy v)] else [];
         pod_Volumes := volumes ++ topology_volume (topologyPluginEnabled a); pod_Hostname := ""; pod_Subdomain := v_ServiceUmbrella v;
         pod_DNSPolicy := "ClusterFirst";
         pod_DNSSearches := [BuildServiceFQDN (v_ServiceUmbrella v) (v_Namespace v); BuildLoginHeadlessServiceFQDN (v_Namespace v) (v_ClusterName v)];
         pod_RestartPolicy := "Always"; pod_TerminationGracePeriodSeconds := Some DefaultPodTerminationGracePeriodSeconds;
         pod_ActiveDeadlineSeconds := None; pod_SecurityContext := Some (None, None); pod_SchedulerName := "default-scheduler";
         pod_HostNetwork := false; pod_HostIPC := false; pod_HostPID := false; pod_ShareProcessNamespace := None |},
      RenderVolumeClaimTemplates ComponentTypeNodeSet (v_Namespace v) (v_ClusterName v) templates).
Definition renderPod_worker `{PodJSON} (v : SlurmNodeSet) (a : PodArgs) : outcome (fields * option value) :=
  let? (pod, claims) := worker_pod v a in Ok (encode_pod pod, encode_claims claims).

(** ** What the pod mounts and declares *)
Definition user_mounts (v : SlurmNodeSet) : list NodeVolumeMount := JailSubMounts v ++ CustomVolumeMounts v.
(** The names of the volumes that the pod has of itself. *)
Definition worker_names (sssd ldap gpu topology : bool) : list string :=
  ["munge-key"; "munge-socket"; "runtime"; "security-limits"; "sshd-keys"; "ssh-root-keys"; "in-memory"; "tmp-disk"; "boot"; "hostlog-journal";
   "soperator-outputs"; "dev-shm"; "sysctl"; "supervisord-config"; "ssh-configs-worker"] ++
  (if sssd then ["sssd-socket"; "sssd-conf"] ++ if ldap then ["sssd-ldap-ca"] else [] else []) ++
  (if gpu then ["nvidia"; "nvidia-imex-cli"; "nvidia-imex-cli-jail"; "nvidia-imex-config"; "nvidia-imex-config-jail"] else []) ++
  ["worker-spool"; "jail"] ++ if topology then ["topology-node-labels"] else [].
Lemma worker_names_of v keys topology :
  vol_Name <$> worker_base_volumes v keys ++ topology_volume topology =
  worker_names (v_ContainerSSSD v) (negb (String.eqb (SSSDLdapCAConfigMapName v) "")) (GPU_Enabled v) topology.
Proof.
  unfold worker_base_volumes. rewrite !fmap_app, <-!(assoc_L (++)). unfold worker_names. f_equal. f_equal; [|f_equal].
  - by destruct (v_ContainerSSSD v), (String.eqb (SSSDLdapCAConfigMapName v) "").
  - by destruct (GPU_Enabled v).
  - by destruct topology.
Qed.
Lemma worker_base_mounts v keys topology :
  mounts_in (vol_Name <$> worker_base_volumes v keys ++ topology_volume topology) (slurmd_mounts v topology).
Proof.
  rewrite worker_names_of. unfold slurmd_mounts.
  destruct (v_ContainerSSSD v), (negb _), (GPU_Enabled v), topology; by_computation.
Qed.
Lemma worker_side_mounts v a keys :
  Forall (container_mounts_in (vol_Name <$> worker_base_volumes v keys ++ topology_volume (topologyPluginEnabled a))) (worker_init_containers v a).
Proof.
  rewrite worker_names_of. unfold worker_init_containers. apply Forall_app. split; [by apply Forall_fmap, Forall_true|].
  unfold ContainerSSSD, RenderContainerSSSD. cbn [apply_options foldl SSSDLdapCAConfigMap sssdLdapCAConfigMapName].
  destruct (v_ContainerSSSD v); [destruct (renderCommandAndArgsSSSD _)|];
    destruct (String.eqb (SSSDLdapCAConfigMapName v) ""), (GPU_Enabled v), (topologyPluginEnabled a); by_computation.
Qed.
#[local] Opaque worker_base_volumes slurmd_mounts JailSubMounts CustomVolumeMounts.
Lemma worker_volumes v keys volumes templates :
  renderVolumesAndClaimTemplateSpecsForNodeSet v keys = Ok (volumes, templates) →
  names_of (volumes, templates) ≡ₚ (vol_Name <$> worker_base_volumes v keys) ++ (nvm_Name <$> user_mounts v) ∧
  Forall (λ s, is_Some (pts_Spec s)) templates.
Proof.
  intros Hv. destruct (add_two_names _ _ _ (worker_base_volumes v keys, []) _ add_mount_vanilla_declares (Forall_nil_2 _) Hv) as [Hn Hs].
  split; [|done].
  etrans; [exact Hn|]. unfold names_of. cbn [fst snd]. by rewrite fmap_nil, app_nil_r.
Qed.
Lemma worker_pod_names v a pod claims :
  worker_pod v a = Ok (pod, claims) →
  volume_names (pod_Volumes pod) (pvc_Name <$> claims) ≡ₚ
  (vol_Name <$> worker_base_volumes v (pa_SshdKeysName a) ++ topology_volume (topologyPluginEnabled a)) ++ (nvm_Name <$> user_mounts v).
Proof.
  unfold worker_pod. destruct (renderVolumesAndClaimTemplateSpecsForNodeSet _ _) as [[volumes templates]|?|?] eqn:Hv; [|done..].
  cbn [obind wrap_err]. destruct (renderContainerNodeSetSlurmd v a) as [slurmd|?|?]; [|done..]. cbn [obind wrap_err].
  intros [= <- <-]. cbn [pod_Volumes]. destruct (worker_volumes _ _ _ _ Hv) as [Hn Hs].
  rewrite claims_volume_names by done. rewrite Hn, fmap_app. solve_Permutation.
Qed.
#[local] Transparent worker_base_volumes.
Lemma worker_volumes_some v a pod claims : worker_pod v a = Ok (pod, claims) → pod_Volumes pod ≠ [].
Proof.
  unfold worker_pod, renderVolumesAndClaimTemplateSpecsForNodeSet.
  destruct (add_all _ (JailSubMounts v) _) as [acc|?|?] eqn:H1; [|done..]. cbn [obind wrap_err].
  destruct (add_all _ (CustomVolumeMounts v) _) as [[vs ts]|?|?] eqn:H2; [|done..]. cbn [obind wrap_err].
  destruct (renderContainerNodeSetSlurmd v a) as [slurmd|?|?]; [|done..]. cbn [obind wrap_err]. intros [= <- _]. cbn [pod_Volumes].
  apply add_all_extends in H1. apply add_all_extends in H2. pose proof (transitivity H1 H2) as [l Hl]. cbn [fst] in Hl. rewrite Hl. done.
Qed.
#[local] Opaque worker_base_volumes.
Lemma worker_pod_inv v a pod claims :
  worker_pod v a = Ok (pod, claims) →
  ∃ slurmd, renderContainerNodeSetSlurmd v a = Ok slurmd ∧ pod_InitContainers pod = worker_init_containers v a ∧
    pod_Containers pod = Rendered slurmd :: if DockerEnabled v then [Rendered (renderContainerNodeSetDockerProxy v)] else [].
Proof.
  unfold worker_pod. destruct (renderVolumesAndClaimTemplateSpecsForNodeSet _ _) as [[volumes templates]|?|?]; [|done..].
  cbn [obind wrap_err]. destruct (renderContainerNodeSetSlurmd v a) as [slurmd|?|?]; [|done..]. cbn [obind wrap_err].
  intros [= <- <-]. by exists slurmd.
Qed.
Lemma slurmd_inv v a slurmd :
  renderContainerNodeSetSlurmd v a = Ok slurmd →
  c_VolumeMounts slurmd = slurmd_mounts v (topologyPluginEnabled a) ++ RenderVolumeMounts (JailSubMounts v) VolumeMountPathJailUpper ++
                          RenderVolumeMounts (CustomVolumeMounts v) "" ∧
  c_Limits slurmd = ct_Resources (ContainerSlurmd v) ∧ c_Requests slurmd = ct_Resources (ContainerSlurmd v) ∧
  quantity (ct_Resources (ContainerSlurmd v)) "memory" ≠ 0%Z ∧ quantity (ct_Resources (ContainerSlurmd v)) "cpu" ≠ 0%Z ∧
  Forall (λ e, env_Name e ≠ EnvNodeRealMemoryBytes) (ct_CustomEnv (ContainerSlurmd v)) ∧
  ∃ extra, Forall (λ e, env_Name e ≠ EnvNodeRealMemoryBytes) extra ∧
    c_Env slurmd =
      [mkEnvVar "INSTANCE_ID" (EnvFieldRef "v1" "spec.nodeName"); text_env "SLURM_CLUSTER_WITH_GPU" (FormatBool (pa_clusterWithGPU a));
       text_env "NODESET_GPU_ENABLED" (FormatBool (GPU_Enabled v)); text_env "SOPERATOR_DOCKER_ENABLED" (FormatBool (DockerEnabled v));
       text_env EnvNodeRealMemoryBytes (Itoa (realMemoryBytes (quantity (ct_Resources (ContainerSlurmd v)) "memory")))] ++ extra.
Proof.
  unfold renderContainerNodeSetSlurmd, CheckResourceRequests, ensure.
  destruct (Z.eqb_spec (quantity (ct_Resources (ContainerSlurmd v)) "memory") 0) as [|Hm]; [done|]. cbn [negb obind wrap_err].
  destruct (Z.eqb_spec (quantity (ct_Resources (ContainerSlurmd v)) "cpu") 0) as [|Hc]; [done|]. cbn [negb obind wrap_err].
  destruct (forallb _ _) eqn:Henv; [|done]. cbn [obind]. intros [= <-]. cbn [c_VolumeMounts c_Limits c_Requests c_Env].
  assert (Forall (λ e, env_Name e ≠ EnvNodeRealMemoryBytes) (ct_CustomEnv (ContainerSlurmd v))) as Hf.
  { apply Forall_forall. intros e He. rewrite forallb_forall in Henv. apply list_elem_of_In, Henv, negb_true_iff, String.eqb_neq in He. done. }
  split_and!; [done..|]. unfold renderNodeSetSlurmdEnv. rewrite <-(assoc_L (++)). eexists. split; [|done].
  rewrite !Forall_app. split_and!; [| | |done]; destruct_or?; repeat case_match; by repeat constructor.
Qed.
Lemma worker_pod_mounts v a pod claims : worker_pod v a = Ok (pod, claims) → mounts_declared pod claims.
Proof.
  intros Hp. pose proof (worker_pod_names _ _ _ _ Hp) as Hn. destruct (worker_pod_inv _ _ _ _ Hp) as (slurmd & Hs & Hi & Hc).
  destruct (slurmd_inv _ _ _ Hs) as [Hm _]. unfold mounts_declared. set (names := volume_names _ _) in *. rewrite Hi, Hc.
  assert (∀ l, mounts_in (vol_Name <$> worker_base_volumes v (pa_SshdKeysName a) ++ topology_volume (topologyPluginEnabled a)) l → mounts_in names l) as Hbase.
  { intros l. apply mounts_in_mono. intros x Hx. rewrite Hn. apply elem_of_app. by left. }
  assert (nvm_Name <$> user_mounts v ⊆ names) as Huser by (intros x Hx; rewrite Hn; apply elem_of_app; by right).
  unfold user_mounts in Huser. rewrite fmap_app in Huser. split.
  - eapply Forall_impl; [apply worker_side_mounts|]. intros [c|c]; [done|]. apply Hbase.
  - constructor.
    + cbn [container_mounts_in]. rewrite Hm, !mounts_in_app. split_and!; [apply Hbase, worker_base_mounts| |];
        apply mounts_in_custom; intros x Hx; apply Huser, elem_of_app; [left|right]; exact Hx.
    + destruct (DockerEnabled v); [|constructor]. constructor; [|constructor].
      apply (Hbase [renderVolumeMountRuntime]). rewrite worker_names_of.
      destruct (v_ContainerSSSD v), (negb _), (GPU_Enabled v), (topologyPluginEnabled a); by_computation.
Qed.

(** *** The StatefulSet *)
Section statefulSet.
  Context `{PodJSON}.
Lemma statefulSet_template v a pod claims sts q :
  worker_pod v a = Ok (pod, claims) → RenderNodeSetStatefulSet renderPod_worker v a = Ok sts →
  o_body sts !! (["spec"; "template"; "spec"] ++ q) = encode_pod pod !! q ∧ o_body sts !! ["spec"; "volumeClaimTemplates"] = encode_claims claims.
Proof.
  intros Hp. unfold RenderNodeSetStatefulSet, renderPod_worker. rewrite Hp. cbn [obind].
  destruct (renderReplicas v) as [[r R]|e|h]; [|done..]. cbn [obind].
  destruct (renderUpdateStrategies v) as [b|e|h] eqn:Hb; [|done..]. cbn [obind wrap_err]. intros Hs%Ok_inj. subst sts. cbn [o_body].
  rewrite !lookup_union, lookup_below, !lookup_at_path_None by (intros [x Hx]; discriminate Hx).
  rewrite (lookup_below_None _ _ ["spec"; "volumeClaimTemplates"]) by (intros [x Hx]; discriminate Hx).
  assert (b !! (["spec"; "template"; "spec"] ++ q) = None ∧ b !! ["spec"; "volumeClaimTemplates"] = None) as [-> ->].
  { revert Hb. unfold renderUpdateStrategies. destruct (_ || _); [intros [= <-]|destruct (String.eqb _ _); intros [= <-]];
      cbn [list_to_map foldr uncurry]; rewrite !lookup_insert_ne by done; done. }
  unfold statefulSetSpec. cbn [app list_to_map foldr uncurry]. rewrite !(right_id_L None _).
  do 12 rewrite lookup_insert_ne by done.
  assert (∀ k, k ≠ ["spec"; "reserveOrdinals"] →
    (list_to_map (match R with [] => [] | _ => [(["spec"; "reserveOrdinals"], VInts R)] end ++
       match encode_claims claims with Some c => [(["spec"; "volumeClaimTemplates"], c)] | None => [] end) : fields) !! k =
    (list_to_map (match encode_claims claims with Some c => [(["spec"; "volumeClaimTemplates"], c)] | None => [] end) : fields) !! k) as HR.
  { intros k Hk. destruct R; [done|]. cbn [app list_to_map foldr uncurry]. by rewrite lookup_insert_ne. }
  rewrite !HR by done. destruct (encode_claims claims); cbn [list_to_map foldr uncurry]; [|by rewrite (left_id_L None _)].
  rewrite lookup_insert_eq, lookup_insert_ne by done. by rewrite (left_id_L None _).
Qed.
End statefulSet.

(** Names and paths that a NodeSet's own mounts have to avoid. *)
Definition reserved_names : list string := worker_names true true true true.
Definition fresh_mounts (v : SlurmNodeSet) : Prop :=
  NoDup (nvm_Name <$> user_mounts v) ∧ Forall (λ m, nvm_Name m ∉ reserved_names) (user_mounts v).
Lemma worker_names_reserved sssd ldap gpu topology : worker_names sssd ldap gpu topology ⊆ reserved_names.
Proof. destruct sssd, ldap, gpu, topology; by_computation. Qed.
Lemma worker_names_distinct sssd ldap gpu topology : NoDup (worker_names sssd ldap gpu topology).
Proof. destruct sssd, ldap, gpu, topology; by_computation. Qed.
Lemma worker_volumes_distinct v a pod claims :
  worker_pod v a = Ok (pod, claims) → fresh_mounts v → NoDup (volume_names (pod_Volumes pod) (pvc_Name <$> claims)).
Proof.
  intros Hp [Hnd Hf]. rewrite (worker_pod_names _ _ _ _ Hp), worker_names_of. apply NoDup_app. split_and!; [apply worker_names_distinct| |done].
  intros x Hx (m & -> & Hm)%list_elem_of_fmap. rewrite Forall_forall in Hf. by apply (Hf m Hm), (worker_names_reserved _ _ _ _ _ Hx).
Qed.
#[local] Transparent slurmd_mounts.
Lemma slurmd_paths_distinct v topology : NoDup (vm_MountPath <$> slurmd_mounts v topology).
Proof. unfold slurmd_mounts. destruct (v_ContainerSSSD v), (GPU_Enabled v), topology; by_computation. Qed.
#[local] Opaque slurmd_mounts.
Lemma slurmd_memory v : quantity (ct_Resources (ContainerSlurmd v)) "memory" = field_int (v_spec v) ["spec"; "slurmd"; "resources"; "memory"].
Proof.
  unfold quantity, ct_Resources, ContainerSlurmd, nodeContainer_slurmd, nodeContainer_side. cbn [ct_spec buildContainerFrom].
  rewrite lookup_ints_at. cbn [app]. rewrite !lookup_union, !(lookup_below_None ["customEnv"]), !(lookup_below_None ["livenessProbe"]),
    !(lookup_below_None ["readinessProbe"]) by (intros [x Hx]; discriminate Hx).
  rewrite (lookup_below ["resources"] _ ["memory"]), !lookup_subtree. cbn [list_to_map foldr uncurry app].
  do 6 rewrite lookup_insert_ne by done. rewrite lookup_empty, !(left_id_L None _), !(right_id_L None _). unfold spec_of, field_int.
  rewrite lookup_subtree. cbn [app]. by destruct (v_spec v !! _) as [[]|].
Qed.
(** The value that the kubelet gives a variable: the last one of its name. *)
Definition getenv (env : list EnvVar) (name : string) : option EnvVarSource := last (env_Source <$> filter (λ e, env_Name e = name) env).
Lemma getenv_managed pre e rest name :
  env_Name e = name → Forall (λ e, env_Name e ≠ name) rest → getenv (pre ++ e :: rest) name = Some (env_Source e).
Proof.
  intros He Hr. unfold getenv. rewrite filter_app, filter_cons_True by done.
  assert (filter (λ e, env_Name e = name) rest = []) as ->.
  { induction Hr as [|x l Hx _ IH]; [done|]. by rewrite filter_cons_False. }
  rewrite fmap_app. apply last_snoc.
Qed.
Lemma realMemoryBytes_exact m :
  (0 ≤ m)%Z → (Quantity_Value m ≤ max_int 64)%Z →
  realMemoryBytes m = (RenderRealMemorySlurmd m * 1048576)%Z ∧
  (Quantity_Value m - 1048576 < realMemoryBytes m ≤ Quantity_Value m)%Z.
Proof.
  intros H0 Hm. pose proof (Value_bounds m H0) as Hv. unfold nano in Hv. unfold realMemoryBytes, RenderRealMemorySlurmd.
  set (q := Quantity_Value m) in *. rewrite Z.quot_div_nonneg by lia.
  pose proof (Z.div_mod q 1048576 ltac:(lia)) as Hd. pose proof (Z.mod_pos_bound q 1048576 ltac:(lia)) as Hb.
  assert (max_int 64 = 9223372036854775807)%Z as Hmax by done. assert (min_int 64 = -9223372036854775808)%Z as Hmin by done.
  rewrite (wrap_small 64 (q `div` 1048576 * 1024)), wrap_small by lia. lia.
Qed.

(** ** The words of a node's line *)
Lemma Join_flat l m sep : l ≠ [] → Join (Join l sep :: m) sep = Join (l ++ m) sep.
Proof.
  intros Hl. pose proof (Join_Join (λ x : list string, x) [l] m sep) as Hj. cbn [fmap list_fmap app mbind list_bind] in Hj.
  rewrite app_nil_r in Hj. apply Hj. by intros x ->%list_elem_of_singleton.
Qed.
Lemma Split_words l s c :
  Forall (λ w, no_char c w = true) l → Split (Join (l ++ [s]) (String c "")) c = l ++ Split s c.
Proof.
  induction 1 as [|w l Hw Hl IH]; [done|]. cbn [app]. rewrite <-IH.
  destruct (l ++ [s]) as [|y r] eqn:Hr; [by destruct l|]. apply (Split_app_sep w (Join (y :: r) (String c "")) c Hw).
Qed.
Lemma Itoa_no_char c n : is_digit c = false → c ≠ "-"%char → no_char c (Itoa n) = true.
Proof.
  intros Hc Hm. unfold Itoa. destruct (Z.ltb_spec n 0).
  - destruct (print_nonneg_spec (- n)) as (Hd & _); [lia|]. unfold no_char. cbn [str_forallb]. apply andb_true_iff. split.
    + apply negb_true_iff, Ascii.eqb_neq. congruence.
    + by apply digits_no_char.
  - destruct (print_nonneg_spec n) as (Hd & _); [lia|]. by apply digits_no_char.
Qed.
(** A word of the line sets the memory; Slurm reads the keys whatever their case. *)
Definition sets_memory (w : string) : bool := HasPrefix (ToLower w) "realmemory=".
Lemma memory_word x : sets_memory ("RealMemory=" +:+ x) = true.
Proof. by destruct x. Qed.
Lemma no_equals w : no_char "=" w = true → sets_memory w = false.
Proof.
  intros Hw. apply not_true_iff_false. intros [r Hr]%HasPrefix_spec.
  assert (no_char "=" (ToLower w) = true) as Hl.
  { clear Hr. unfold no_char, ToLower in *. induction w as [|c w IH]; [done|]. simpl in *. apply andb_true_iff in Hw as [Hc Hw].
    rewrite IH by done. rewrite andb_true_r. clear -Hc. by destruct c as [[] [] [] [] [] [] [] []]. }
  by rewrite Hr in Hl.
Qed.
(** What the NodeSet and the cluster must be like: names without blanks or equals signs, features without blanks, and no RealMemory
    in the static configuration. *)
Definition plain_node (c : values_SlurmCluster) (n : resource) : Prop :=
  Forall (λ s, no_char " " s = true ∧ no_char "=" s = true) [o_name n; o_namespace n; sc_Name c] ∧
  Forall (λ s, no_char " " s = true) (field_strs (o_body n) ["spec"; "nodeConfig"; "features"]) ∧
  Forall (λ w, sets_memory w = false) (Split (field_str (o_body n) ["spec"; "nodeConfig"; "static"]) " ").
Lemma nodeRange_no_char c name r :
  no_char c name = true → Forall (λ d, d ≠ c) ["-"; "["; "]"; "0"]%char → is_digit c = false → no_char c (nodeRange name r) = true.
Proof.
  intros Hn Hc Hd. pose proof (Itoa_no_char c (r - 1) Hd) as Hi. unfold no_char, nodeRange in *.
  repeat (apply Forall_cons in Hc as [?%Ascii.eqb_neq Hc]). 
  destruct (_ =? _)%Z; rewrite !str_forallb_app, Hn, ?Hi by (intros ->; done); cbn [str_forallb];
    by repeat match goal with H : _ = false |- _ => rewrite H; clear H end.
Qed.

Lemma staticConfig_words static :
  Forall (λ w, sets_memory w = false) (Split static " ") → Forall (λ w, sets_memory w = false) (Split (staticConfig static) " ").
Proof.
  intros Hf. unfold staticConfig. set (l := filter _ _).
  assert (∀ P : string → Prop, Forall P (Split static " ") → Forall P l) as Hl.
  { intros P HP. rewrite Forall_forall in HP |- *. intros w [_ Hw]%list_elem_of_filter. by apply HP. }
  destruct (decide (l = [])) as [-> |Hne]; [by repeat constructor|]. rewrite Split_Join; [by apply Hl|done|]. apply Hl, Split_parts.
Qed.
(** The words of the line: the nodes, their state, where they are, their memory, and nothing else that sets the memory. *)
Definition node_line (c : values_SlurmCluster) (n : resource) : string :=
  nodeRange (o_name n) (ns_Replicas n) +:+ " State=CLOUD " +:+ nodeConfig (sc_Name c) n.
Lemma fqdn_no_blank namespace cluster :
  no_char " " namespace = true → no_char " " cluster = true → no_char " " (BuildNodeSetUmbrellaServiceFQDN namespace cluster) = true.
Proof.
  intros Hn Hc. unfold BuildNodeSetUmbrellaServiceFQDN, BuildServiceFQDN, BuildServiceName, of_component, namedEntity_String, no_char in *.
  cbn [clusterName componentType componentSpecifier entity entityService ComponentType_String when app String.eqb].
  unfold when. destruct (String.eqb cluster ""); cbn [app Join String.eqb Ascii.eqb Bool.eqb];
    by rewrite !str_forallb_app, Hn, ?Hc.
Qed.
Lemma Join_no_char c l sep : Forall (λ w, no_char c w = true) l → no_char c sep = true → no_char c (Join l sep) = true.
Proof.
  unfold no_char. intros Hl Hs. induction Hl as [|w l Hw _ IH]; [done|]. destruct l as [|x l]; [done|].
  cbn [Join] in *. by rewrite !str_forallb_app, Hw, Hs, IH.
Qed.
Lemma node_line_words c n :
  plain_node c n → ∃ pre post,
  Split (node_line c n) " " =
    pre ++ ["RealMemory=" +:+ Itoa (RenderRealMemorySlurmd (field_int (o_body n) ["spec"; "slurmd"; "resources"; "memory"]))] ++ post ∧
  Forall (λ w, sets_memory w = false) (pre ++ post).
Proof.
  intros (Hn & Hf & Hs). unfold node_line, nodeConfig. rewrite !Join_flat; [|done..]. rewrite <-app_comm_cons, Join_flat by done.
  set (range := nodeRange _ _). set (addr := "NodeAddr=" +:+ _). set (mem := "RealMemory=" +:+ _).
  set (auto := if bool_decide _ then _ else _). set (port := if (_ =? 0)%Z then _ else _).
  set (feats := match field_strs _ _ with [] => _ | _ => _ end). set (static := staticConfig _).
  repeat (apply Forall_cons in Hn as [[? ?] Hn]).
  assert (no_char " " range = true) as Hr by (apply nodeRange_no_char; [done|by repeat constructor|done]).
  assert (Forall (λ w, no_char " " w = true ∧ sets_memory w = false) [range; "State=CLOUD"; addr]) as Hpre.
  { repeat apply Forall_cons_2; [| | |constructor]; split.
    - done.
    - apply no_equals. by apply nodeRange_no_char; [|by repeat constructor|].
    - done.
    - done.
    - unfold addr. by rewrite !no_char_app, fqdn_no_blank, Hr.
    - done. }
  assert (Forall (λ w, no_char " " w = true ∧ sets_memory w = false) (auto ++ port ++ feats)) as Hpost.
  { repeat apply Forall_app_2.
    - unfold auto. by case_bool_decide; repeat constructor.
    - unfold port. destruct (_ =? _)%Z; repeat constructor. rewrite no_char_app. by apply Itoa_no_char.
    - unfold feats. destruct (field_strs _ _) as [|f l]; repeat constructor. rewrite no_char_app. by apply Join_no_char. }
  assert (no_char " " mem = true) as Hmem by (unfold mem; rewrite no_char_app; by apply Itoa_no_char).
  exists [range; "State=CLOUD"; addr], (auto ++ port ++ feats ++ Split static " "). split.
  - transitivity (([range; "State=CLOUD"; addr; mem] ++ auto ++ port ++ feats) ++ Split static " "); [|by rewrite <-!app_assoc].
    rewrite <-(Split_words ([range; "State=CLOUD"; addr; mem] ++ auto ++ port ++ feats)).
    + f_equal. rewrite <-!app_assoc. cbn [app Join]. destruct (auto ++ port ++ feats ++ [static]) eqn:Hl; [|done].
      by repeat (apply app_eq_nil in Hl as [_ Hl]).
    + apply Forall_app. split; [|eapply Forall_impl; [exact Hpost|by intros ? []]]. apply (Forall_app _ [range; _; addr] [mem]). split.
      * eapply Forall_impl; [exact Hpre|by intros ? []].
      * by repeat constructor.
  - assert (Forall (λ w, sets_memory w = false) (Split static " ")) by (by apply staticConfig_words).
    apply Forall_app in Hpost as [? [? ?]%Forall_app].
    repeat apply Forall_app_2; first [done|eapply Forall_impl; [eassumption|by intros ? []]].
Qed.
Lemma filter_one {A} (f : A → bool) pre x post :
  f x = true → Forall (λ w, f w = false) (pre ++ post) → filter (λ w, f w = true) (pre ++ [x] ++ post) = [x].
Proof.
  intros Hx [H1 H2]%Forall_app. assert (∀ l, Forall (λ w, f w = false) l → filter (λ w, f w = true) l = []) as Hn.
  { induction 1 as [|w l Hw _ IH]; [done|]. rewrite filter_cons_False; [done|by rewrite Hw]. }
  rewrite !filter_app, (Hn pre), (Hn post), app_nil_r by done. by rewrite filter_cons_True.
Qed.
Lemma node_in_config c n :
  pc_ConfigType (sc_PartitionConfiguration c) = PartitionConfigTypeStructured → n ∈ sc_NodeSets c → ns_Replicas n ≠ 0%Z →
  property "NodeName" (node_line c n) ∈ slurm_props c.
Proof.
  intros Ht Hn Hr. unfold slurm_props, partition_section. rewrite Ht. cbn [String.eqb Ascii.eqb Bool.eqb].
  do 5 (apply elem_of_app; right). apply elem_of_app. left. apply elem_of_app. left. right.
  destruct (sc_NodeSets c) as [|q l] eqn:Hl; [by apply not_elem_of_nil in Hn|]. apply list_elem_of_fmap. exists n.
  by rewrite (proj2 (Z.eqb_neq _ _)).
Qed.

(** ** Results *)
Section results.
  Context `{PodJSON}.
(** C29: the pods of a NodeSet's StatefulSet hang together.  Whenever the StatefulSet is rendered, its template holds a pod and its claim
    templates in which every volume that a rendered container mounts (munge, sssd, worker-init, slurmd, the Docker proxy) is
    declared, as a volume or as a claim; what the operator mounts into slurmd lies at different paths; and if the NodeSet's own mounts have
    names of their own, the names of all volumes are different. *)
Theorem worker_pod_admissible (v : SlurmNodeSet) (a : PodArgs) (sts : resource) :
  RenderNodeSetStatefulSet renderPod_worker v a = Ok sts →
  ∃ pod claims,
    o_body sts !! ["spec"; "template"; "spec"; "containers"] = Some (VRaw (json_containers (pod_Containers pod))) ∧
    o_body sts !! ["spec"; "template"; "spec"; "initContainers"] = Some (VRaw (json_containers (pod_InitContainers pod))) ∧
    o_body sts !! ["spec"; "template"; "spec"; "volumes"] = Some (VRaw (json_volumes (pod_Volumes pod))) ∧
    o_body sts !! ["spec"; "volumeClaimTemplates"] = encode_claims claims ∧
    mounts_declared pod claims ∧ NoDup (vm_MountPath <$> slurmd_mounts v (topologyPluginEnabled a)) ∧
    (fresh_mounts v → NoDup (volume_names (pod_Volumes pod) (pvc_Name <$> claims))).
Proof.
  intros Hs. destruct (worker_pod v a) as [[pod claims]|e|h] eqn:Hp;
    [|revert Hs; unfold RenderNodeSetStatefulSet, renderPod_worker; by rewrite Hp..].
  pose proof (λ q, statefulSet_template _ _ _ _ _ q Hp Hs) as Ht. destruct (worker_pod_inv _ _ _ _ Hp) as (slurmd & _ & Hi & _).
  exists pod, claims. split_and!.
  - rewrite <-encode_containers. apply (Ht ["containers"]).
  - rewrite <-encode_initContainers; [apply (Ht ["initContainers"])|].
    rewrite Hi. unfold worker_init_containers. by destruct (CustomContainer <$> _).
  - rewrite <-encode_volumes; [apply (Ht ["volumes"])|].
    by apply (worker_volumes_some v a _ claims).
  - apply (Ht []).
  - by apply (worker_pod_mounts v a).
  - apply slurmd_paths_distinct.
  - by apply worker_volumes_distinct with a.
Qed.
End results.

(** C31: slurmd is told the memory that Slurm is told.  For a NodeSet with replicas of a cluster with structured partitions, whose pod
    is rendered: slurm.conf has a NodeName line for its nodes, in which exactly one word sets RealMemory, to some [k] MiB; the variable
    SOPERATOR_NODE_REAL_MEMORY_BYTES that the kubelet gives to slurmd is the same amount in bytes, computed without overflow, whatever
    variables the NodeSet brings along; [k] MiB is the memory of the container, in bytes rounded up, rounded down to MiB; and the
    container's limits are its requests, with memory and CPU.  The conditions: names without blanks and equals signs, as
    Kubernetes names are; features without blanks; no RealMemory in the NodeSet's static node configuration, which is copied into the
    line after the computed one; and a memory that is not negative and fits 64 bits. *)
Theorem slurmd_memory_agrees (c : values_SlurmCluster) (n : resource) (maintenance : option string) (active : list Z) (a : PodArgs)
    (pod : PodSpec) (claims : list PersistentVolumeClaim) :
  let memory := field_int (o_body n) ["spec"; "slurmd"; "resources"; "memory"] in
  pc_ConfigType (sc_PartitionConfiguration c) = PartitionConfigTypeStructured → n ∈ sc_NodeSets c → ns_Replicas n ≠ 0%Z → plain_node c n →
  (0 ≤ memory)%Z → (Quantity_Value memory ≤ max_int 64)%Z →
  worker_pod (with_ActiveNodes active (BuildSlurmNodeSetFrom n (sc_Name c) maintenance)) a = Ok (pod, claims) →
  ∃ line slurmd k,
    property "NodeName" (nodeRange (o_name n) (ns_Replicas n) +:+ " " +:+ line) ∈ slurm_props c ∧
    filter (λ w, sets_memory w = true) (Split (nodeRange (o_name n) (ns_Replicas n) +:+ " " +:+ line) " ") = ["RealMemory=" +:+ Itoa k] ∧
    head (pod_Containers pod) = Some (Rendered slurmd) ∧
    getenv (c_Env slurmd) EnvNodeRealMemoryBytes = Some (EnvValue (Itoa (k * 1048576))) ∧
    (Quantity_Value memory - 1048576 < k * 1048576 ≤ Quantity_Value memory)%Z ∧
    c_Limits slurmd = c_Requests slurmd ∧ quantity (c_Requests slurmd) "memory" = memory ∧ memory ≠ 0%Z ∧ quantity (c_Requests slurmd) "cpu" ≠ 0%Z.
Proof.
  intros memory Ht Hn Hrep Hplain H0 Hm Hp. set (v := with_ActiveNodes _ _) in *. assert (v_spec v = o_body n) as Hv.
  { unfold v, BuildSlurmNodeSetFrom, with_ActiveNodes. by repeat case_match. }
  pose proof (slurmd_memory v) as Hmem. rewrite Hv in Hmem. fold memory in Hmem.
  destruct (worker_pod_inv _ _ _ _ Hp) as (slurmd & Hs & _ & Hc).
  destruct (slurmd_inv _ _ _ Hs) as (_ & Hl & Hr & Hm0 & Hc0 & _ & extra & Hx & Henv).
  destruct (realMemoryBytes_exact memory H0 Hm) as [He Hb].
  exists ("State=CLOUD " +:+ nodeConfig (sc_Name c) n), slurmd, (RenderRealMemorySlurmd memory). split_and!.
  - by apply node_in_config.
  - destruct (node_line_words c n Hplain) as (pre & post & Hw & Hf). change (_ +:+ " " +:+ _) with (node_line c n). rewrite Hw.
    apply filter_one; [apply memory_word|done].
  - by rewrite Hc.
  - rewrite Henv, Hmem, He. by apply (getenv_managed [_; _; _; _] (text_env _ _) extra).
  - lia.
  - lia.
  - by rewrite Hl, Hr.
  - by rewrite Hr.
  - by rewrite <-Hmem.
  - by rewrite Hr.
Qed.

(** Sub-mounts of the jail stay in the jail: for every one whose path has no segment "." or "..", slurmd has a mount with its name
    and options at this path below the upper layer of the jail. *)
Theorem jail_submounts_confined (v : SlurmNodeSet) (a : PodArgs) (pod : PodSpec) (claims : list PersistentVolumeClaim) (m : NodeVolumeMount) :
  worker_pod v a = Ok (pod, claims) → m ∈ JailSubMounts v → dotless (Split (nvm_MountPath m) slash) →
  ∃ slurmd, head (pod_Containers pod) = Some (Rendered slurmd) ∧
    mkVolumeMount (nvm_Name m) (abs (["mnt"; "jail.upper"] ++ segments (nvm_MountPath m))) (nvm_SubPath m) (nvm_ReadOnly m) None ∈ c_VolumeMounts slurmd.
Proof.
  intros Hp Hm Hd. destruct (worker_pod_inv _ _ _ _ Hp) as (slurmd & Hs & _ & Hc). destruct (slurmd_inv _ _ _ Hs) as [Hv _].
  exists slurmd. split; [by rewrite Hc|]. rewrite Hv. apply elem_of_app. right. apply elem_of_app. left. apply list_elem_of_fmap.
  exists m. split; [|done]. unfold RenderVolumeMount. f_equal. rewrite <-path_Join_abs; [done| |done]. by repeat constructor.
Qed.
(** A path with ".." leaves the jail. *)
Example submount_escapes :
  vm_MountPath (RenderVolumeMount (mkNodeVolumeMount "x" "../../etc/ssh" "" false None None None) VolumeMountPathJailUpper) = "/etc/ssh".
Proof. vm_compute. reflexivity. Qed.
(** 0420 gives the group the right to write and not to read; 420, that is 0644, was probably meant. *)
Example default_mode_is_octal : DefaultFileMode = (4 * 64 + 2 * 8 + 0)%Z ∧ mode_0644 = 420%Z.
Proof. by split. Qed.

(** ** A NodeSet *)
Definition ex_spec : fields :=
  list_to_map
    [(["spec"; "replicas"], VInt 2); (["spec"; "slurmd"; "image"; "repository"], VStr "registry/worker"); (["spec"; "slurmd"; "image"; "tag"], VStr "1.0");
     (["spec"; "slurmd"; "port"], VInt 6818); (["spec"; "slurmd"; "resources"; "memory"], VInt (1073741824 * nano));
     (["spec"; "slurmd"; "resources"; "cpu"], VInt (4 * nano)); (["spec"; "gpu"; "enabled"], VBool true);
     (["spec"; "slurmd"; "volumes"; "jail"; "persistentVolumeClaim"; "claimName"], VStr "jail-pvc");
     (["spec"; "slurmd"; "volumes"; "jailSubMounts"; "0"; "name"], VStr "home");
     (["spec"; "slurmd"; "volumes"; "jailSubMounts"; "0"; "mountPath"], VStr "/home");
     (["spec"; "slurmd"; "volumes"; "jailSubMounts"; "0"; "volumeSource"; "persistentVolumeClaim"; "claimName"], VStr "home-pvc");
     (["spec"; "slurmd"; "volumes"; "customVolumeMounts"; "0"; "name"], VStr "scratch");
     (["spec"; "slurmd"; "volumes"; "customVolumeMounts"; "0"; "mountPath"], VStr "/scratch");
     (["spec"; "slurmd"; "volumes"; "customVolumeMounts"; "0"; "volumeClaimTemplateSpec"; "storageClassName"], VStr "local")].
Definition ex_nodeSet : resource := Obj (NodeSet, "slurm", "gpu") 0 None ∅ ∅ ∅ ex_spec ∅.
Definition ex_values : SlurmNodeSet := with_ActiveNodes [] (BuildSlurmNodeSetFrom ex_nodeSet "cl" None).
Definition ex_args : PodArgs := mkPodArgs "cl" "cl-sshd-keys" "v2" true "topology/tree" false.
#[local] Transparent worker_base_volumes slurmd_mounts JailSubMounts CustomVolumeMounts.
Lemma ex_mounts : user_mounts ex_values =
  [mkNodeVolumeMount "home" "/home" "" false None (Some {[["persistentVolumeClaim"; "claimName"] := VStr "home-pvc"]}) None;
   mkNodeVolumeMount "scratch" "/scratch" "" false None None (Some {[["storageClassName"] := VStr "local"]})].
Proof. vm_compute. reflexivity. Qed.
Definition json_example : PodJSON := {| json_containers _ := "[]"; json_volumes _ := "[]"; json_claims _ := "[]" |}.
Definition is_Ok {A} (o : outcome A) : bool := match o with Ok _ => true | _ => false end.
Lemma is_Ok_inv {A} (o : outcome A) : is_Ok o = true → ∃ a, o = Ok a.
Proof. destruct o; [by eexists|done..]. Qed.
Lemma worker_pod_admissible_witness :
  ∃ sts, RenderNodeSetStatefulSet (@renderPod_worker json_example) ex_values ex_args = Ok sts ∧ fresh_mounts ex_values ∧
    ∃ pod claims, mounts_declared pod claims ∧ NoDup (volume_names (pod_Volumes pod) (pvc_Name <$> claims)).
Proof.
  destruct (is_Ok_inv (RenderNodeSetStatefulSet (@renderPod_worker json_example) ex_values ex_args)) as [sts Hs]; [vm_compute; reflexivity|].
  exists sts. split; [exact Hs|]. assert (fresh_mounts ex_values) as Hf by (unfold fresh_mounts; rewrite ex_mounts; split; by_computation).
  split; [exact Hf|]. destruct (@worker_pod_admissible json_example ex_values ex_args sts Hs) as (pod & claims & _ & _ & _ & _ & Hm & _ & Hn).
  exists pod, claims. split; [exact Hm|exact (Hn Hf)].
Defined.
Definition ex_cluster : values_SlurmCluster := example_values ex_partitions [ex_nodeSet].
Lemma slurmd_memory_agrees_witness :
  ∃ pod claims line slurmd k,
    worker_pod (with_ActiveNodes [] (BuildSlurmNodeSetFrom ex_nodeSet (sc_Name ex_cluster) None)) ex_args = Ok (pod, claims) ∧
    property "NodeName" ("gpu-[0-1]" +:+ " " +:+ line) ∈ slurm_props ex_cluster ∧
    filter (λ w, sets_memory w = true) (Split ("gpu-[0-1]" +:+ " " +:+ line) " ") = ["RealMemory=" +:+ Itoa k] ∧
    head (pod_Containers pod) = Some (Rendered slurmd) ∧
    getenv (c_Env slurmd) EnvNodeRealMemoryBytes = Some (EnvValue (Itoa (k * 1048576))) ∧
    (1073741824 - 1048576 < k * 1048576 ≤ 1073741824)%Z.
Proof.
  destruct (is_Ok_inv (worker_pod (with_ActiveNodes [] (BuildSlurmNodeSetFrom ex_nodeSet (sc_Name ex_cluster) None)) ex_args))
    as [[pod claims] Hp]; [vm_compute; reflexivity|].
  assert (field_int (o_body ex_nodeSet) ["spec"; "slurmd"; "resources"; "memory"] = 1073741824 * nano)%Z as Hm by (vm_compute; reflexivity).
  destruct (slurmd_memory_agrees ex_cluster ex_nodeSet None [] ex_args pod claims) as (line & slurmd & k & Hl & Hw & Hh & He & Hk & _).
  - reflexivity.
  - left.
  - vm_compute. discriminate.
  - split_and!; [by repeat constructor|vm_compute; constructor|vm_compute; by repeat constructor].
  - rewrite Hm. unfold nano. lia.
  - rewrite Hm, Value_whole by lia. unfold max_int. lia.
  - exact Hp.
  - assert (nodeRange (o_name ex_nodeSet) (ns_Replicas ex_nodeSet) = "gpu-[0-1]") as Hr by (vm_compute; reflexivity).
    rewrite Hr in Hl, Hw. rewrite Hm, Value_whole in Hk by lia. exists pod, claims, line, slurmd, k.
    split; [exact Hp|]. split; [exact Hl|]. split; [exact Hw|]. split; [exact Hh|]. split; [exact He|exact Hk].
Defined.
