(* ===== verification/ClusterPods.v ===== *)
(** * The pods of a cluster

    The pods of [internal/render/controller], [login], [rest], [accounting], [exporter], [sconfigcontroller] and [populate_jail]
    ([container.go], [volume.go], [pod.go] and the pods of [statefulset.go] and [job.go]).  [rendered_pods] is the instance of
    [ClusterObjects.Rendering] with these pods. *)
From S2P Require Import Prelude GoStrings GoPaths Naming Effects Reconciler Patchers Workers MultiStep ClusterValues ConfigTexts SlurmConfigs.
From S2P Require Import ClusterObjects PodParts WorkerPods.
From Stdlib Require String.
From Stdlib Require Import Ascii.

(** ** Common shapes *)
Definition field_optint (b : fields) (p : path) : option Z := match b !! p with Some (VInt z) => Some z | _ => None end.
(** A pod with what the filter and the spec of the component say; most fields stay empty. *)
Definition plain_pod (spec secrets nodeFilter : fields) (init containers : list PodContainer) (volumes : list Volume)
    (serviceAccount hostname restartPolicy : string) (securityContext : option (option Z * option Z)) : PodSpec :=
  {| pod_HostUsers := field_optbool spec ["hostUsers"]; pod_ReadinessGates := []; pod_PriorityClassName := field_str spec ["priorityClass"];
     pod_ServiceAccountName := serviceAccount; pod_ImagePullSecrets := secrets; pod_Affinity := subtree ["affinity"] nodeFilter;
     pod_NodeSelector := subtree ["nodeSelector"] nodeFilter; pod_Tolerations := subtree ["tolerations"] nodeFilter; pod_InitContainers := init;
     pod_Containers := containers; pod_Volumes := volumes; pod_Hostname := hostname; pod_Subdomain := ""; pod_DNSPolicy := "";
     pod_DNSSearches := []; pod_RestartPolicy := restartPolicy; pod_TerminationGracePeriodSeconds := None; pod_ActiveDeadlineSeconds := None;
     pod_SecurityContext := securityContext; pod_SchedulerName := ""; pod_HostNetwork := false; pod_HostIPC := false; pod_HostPID := false;
     pod_ShareProcessNamespace := None |}.
(** A pod of a StatefulSet. *)
Definition stateful_pod (spec secrets nodeFilter : fields) (init containers : list PodContainer) (volumes : list Volume)
    (gates searches : list string) (serviceAccount : string) : PodSpec :=
  {| pod_HostUsers := field_optbool spec ["hostUsers"]; pod_ReadinessGates := gates; pod_PriorityClassName := field_str spec ["priorityClass"];
     pod_ServiceAccountName := serviceAccount; pod_ImagePullSecrets := secrets; pod_Affinity := subtree ["affinity"] nodeFilter;
     pod_NodeSelector := subtree ["nodeSelector"] nodeFilter; pod_Tolerations := subtree ["tolerations"] nodeFilter; pod_InitContainers := init;
     pod_Containers := containers; pod_Volumes := volumes; pod_Hostname := ""; pod_Subdomain := ""; pod_DNSPolicy := "ClusterFirst";
     pod_DNSSearches := searches; pod_RestartPolicy := "Always";
     pod_TerminationGracePeriodSeconds := Some DefaultPodTerminationGracePeriodSeconds; pod_ActiveDeadlineSeconds := None;
     pod_SecurityContext := Some (None, None); pod_SchedulerName := "default-scheduler"; pod_HostNetwork := false; pod_HostIPC := false;
     pod_HostPID := false; pod_ShareProcessNamespace := None |}.
Definition custom_inits (spec : fields) : list PodContainer := CustomContainer <$> list_at spec ["customInitContainers"].
Definition ldap_name (spec : fields) : string := field_str spec ["sssdLdapCAConfigMapRefName"].
Definition sssd_volumes (sssd : option Container) (secretName ldap : string) : list Volume :=
  match sssd with
  | Some _ => [RenderVolumeSSSDSocket; RenderVolumeSSSDConf secretName] ++ if String.eqb ldap "" then [] else [RenderVolumeSSSDLdapCA ldap]
  | None => []
  end.
Definition sssd_inits (sssd : option Container) (ldap : string) : list PodContainer :=
  match sssd with Some c => [Rendered (RenderContainerSSSD c [SSSDLdapCAConfigMap ldap])] | None => [] end.
(** A volume of a component: the name of a source or a claim. *)
Definition add_volume (spec : fields) (p : path) (creator : string → outcome Volume) (name : string) (acc : list Volume * list PVCTemplateSpec) :
    outcome (list Volume * list PVCTemplateSpec) :=
  let? (v, s) := AddVolumeOrSpec (field_optstr spec (p ++ ["volumeSourceName"])) creator (optsubtree (p ++ ["volumeClaimTemplateSpec"]) spec) name in
  Ok (acc.1 ++ v, acc.2 ++ s).
(** Scripts are written with backquotes for quotation marks. *)
Definition quotation_mark : ascii := "034".
Definition backquote : ascii := "`".
Fixpoint quoted (s : string) : string :=
  match s with
  | "" => ""
  | String c s => String (if Ascii.eqb c backquote then quotation_mark else c) (quoted s)
  end.
Definition script (lines : list string) : string := quoted (Join lines newline).

(** ** Controller *)
Definition ctl_CustomMounts (t : SlurmController) : list NodeVolumeMount := volumeMount_of <$> list_at (ctl_spec t) ["volumes"; "customMounts"].
Definition renderContainerSlurmctld (c : Container) (customMounts : list NodeVolumeMount) : core_Container :=
  mkCoreContainer "slurmctld" (ct_Image c) [] [] "" [] None (ct_ImagePullPolicy c) [mkContainerPort (ct_Name c) (ct_Port c) "TCP"]
    ([RenderVolumeMountSpool ComponentTypeController "slurmctld"; RenderVolumeMountJail; RenderVolumeMountMungeSocket;
      RenderVolumeMountSecurityLimits; RenderVolumeMountRESTJWTKey] ++ RenderVolumeMounts customMounts "")
    (ct_ReadinessProbe c) (ct_LivenessProbe c) (Some (security None [SysAdmin] None None (ct_AppArmorProfile c)))
    (CopyNonCPUResources (ct_Resources c)) (ct_Resources c) default_termination.
Definition with_mounts (extra : list VolumeMount) (c : core_Container) : core_Container :=
  mkCoreContainer (c_Name c) (c_Image c) (c_Command c) (c_Args c) (c_WorkingDir c) (c_Env c) (c_RestartPolicy c) (c_ImagePullPolicy c) (c_Ports c)
    (c_VolumeMounts c ++ extra) (c_ReadinessProbe c) (c_LivenessProbe c) (c_SecurityContext c) (c_Limits c) (c_Requests c) (c_TerminationMessage c).
Definition renderContainerSlurmctldWithSSSD (c : Container) (customMounts : list NodeVolumeMount) : core_Container :=
  with_mounts [RenderVolumeMountSSSDSocket; RenderVolumeMountSSSDConf] (renderContainerSlurmctld c customMounts).
Definition renderContainerAccountingWaiter (c : Container) : core_Container :=
  mkCoreContainer "wait-for-accounting" (ct_Image c)
    ["/bin/bash"; "-c";
     script ["set -eu"; ""; "ln -s /mnt/jail/etc/passwd /etc/passwd"; "ln -s /mnt/jail/etc/group /etc/group";
             "ln -s /mnt/jail/etc/shadow /etc/shadow"; "ln -s /mnt/jail/etc/gshadow /etc/gshadow"; "chown -h 0:42 /etc/{shadow,gshadow}"; "";
             "rm -rf /etc/slurm && ln -s /mnt/jail/etc/slurm /etc/slurm"; ""; "INTERVAL=5"; ""; "echo `Waiting until munge started`";
             "while [ ! -S `/run/munge/munge.socket.2` ]; do sleep ${INTERVAL}; done"; ""; "echo `Waiting for accounting via sacctmgr...`";
             "until sacctmgr -n --parsable2 list cluster >/dev/null 2>&1; do"; "  echo `slurmdbd not ready yet, retrying...`";
             "  sleep ${INTERVAL}"; "done"; "echo `Accounting is ready.`"]] [] "" [] None (ct_ImagePullPolicy c) []
    [RenderVolumeMountJail; RenderVolumeMountMungeSocket] None None None ∅ ∅ None.
Definition controller_volumes (cluster : string) (sources : list fields) (t : SlurmController) : outcome (list Volume * list PVCTemplateSpec) :=
  let base := [RenderVolumeMungeKey cluster; RenderVolumeMungeSocket; RenderVolumeSecurityLimits cluster ComponentTypeController;
               RenderVolumeRESTJWTKey cluster] ++ sssd_volumes (ctl_ContainerSSSD t) (ctl_SSSDConfSecretName t) (ldap_name (ctl_spec t)) in
  let? acc := add_volume (ctl_spec t) ["volumes"; "spool"] (RenderVolumeSpoolFromSource ComponentTypeController sources)
                (RenderVolumeNameSpool ComponentTypeController) (base, []) in
  let? acc := add_volume (ctl_spec t) ["volumes"; "jail"] (RenderVolumeJailFromSource sources) VolumeNameJail acc in
  add_all (add_mount sources) (ctl_CustomMounts t) acc.
Definition controller_pod (c : values_SlurmCluster) (nodeFilter : fields) : outcome (PodSpec * list PersistentVolumeClaim) :=
  let t := sc_NodeController c in
  let? (volumes, templates) := controller_volumes (sc_Name c) (sc_VolumeSources c) t in
  let slurmctld := match ctl_ContainerSSSD t with
                   | Some _ => renderContainerSlurmctldWithSSSD (ctl_ContainerSlurmctld t) (ctl_CustomMounts t)
                   | None => renderContainerSlurmctld (ctl_ContainerSlurmctld t) (ctl_CustomMounts t)
                   end in
  Ok (stateful_pod (ctl_spec t) (ct_ImagePullSecrets (ctl_ContainerSlurmctld t)) nodeFilter
        (custom_inits (ctl_spec t) ++ [Rendered (RenderContainerMunge (ctl_ContainerMunge t) [])] ++
         sssd_inits (ctl_ContainerSSSD t) (ldap_name (ctl_spec t)) ++
         if acc_Enabled (sc_NodeAccounting c) then [Rendered (renderContainerAccountingWaiter (ctl_ContainerSlurmctld t))] else [])
        [Rendered slurmctld] volumes ["InPlaceUpdateReady"] [] (field_str (ctl_spec t) ["serviceAccountName"]),
      RenderVolumeClaimTemplates ComponentTypeController (sc_Namespace c) (sc_Name c) templates).

(** ** Login *)
Definition lg_SubMounts (l : SlurmLogin) : list NodeVolumeMount := volumeMount_of <$> list_at (lg_spec l) ["volumes"; "jailSubMounts"].
Definition lg_CustomMounts (l : SlurmLogin) : list NodeVolumeMount := volumeMount_of <$> list_at (lg_spec l) ["volumes"; "customMounts"].
Definition login_renderVolumeSshdConfigs (name : string) : Volume := config_volume "ssh-configs" name (Some DefaultFileMode).
Definition login_renderVolumeMountSshdConfigs : VolumeMount := mount_ro "ssh-configs" "/mnt/ssh-configs".
Definition renderVolumeUserIsolation (cluster : string) : Volume :=
  config_volume "user-isolation" (BuildConfigMapUserIsolationName cluster) (Some DefaultFileMode).
Definition renderVolumeMountUserIsolation : VolumeMount :=
  mkVolumeMount "user-isolation" "/etc/soperator/user-isolation.conf" "user-isolation.conf" true None.
Definition login_volumes (cluster sshdKeysName : string) (sources : list fields) (l : SlurmLogin) : outcome (list Volume * list PVCTemplateSpec) :=
  let base := [RenderVolumeMungeKey cluster; RenderVolumeMungeSocket; RenderVolumeSecurityLimits cluster ComponentTypeLogin;
               RenderVolumeSshdKeys sshdKeysName; RenderVolumeSshdRootKeys cluster;
               RenderVolumeInMemory (Some (quantity (ct_Resources (lg_ContainerSshd l)) "memory")); RenderVolumeTmpDisk;
               login_renderVolumeSshdConfigs (lg_SSHDConfigMapName l)] ++
              (if isolationEnabled l then [renderVolumeUserIsolation cluster] else []) ++
              sssd_volumes (lg_ContainerSSSD l) (lg_SSSDConfSecretName l) (ldap_name (lg_spec l)) in
  let? acc := add_volume (lg_spec l) ["volumes"; "jail"] (RenderVolumeJailFromSource sources) VolumeNameJail (base, []) in
  let? acc := add_all (add_mount sources) (lg_SubMounts l) acc in
  add_all (add_mount sources) (lg_CustomMounts l) acc.
Definition renderContainerSshd (clusterWithGPU : bool) (l : SlurmLogin) (appArmorProfile : string) : core_Container :=
  let c := lg_ContainerSshd l in
  mkCoreContainer "sshd" (ct_Image c) (ct_Command c) (ct_Args c) ""
    (text_env "SLURM_CLUSTER_WITH_GPU" (FormatBool clusterWithGPU) :: ct_CustomEnv c) None (ct_ImagePullPolicy c)
    [mkContainerPort (ct_Name c) (ct_Port c) "TCP"]
    ([RenderVolumeMountJail; RenderVolumeMountMungeSocket; RenderVolumeMountSecurityLimits; RenderVolumeMountSshdKeys;
      RenderVolumeMountSshdRootKeys; RenderVolumeMountInMemory; RenderVolumeMountTmpDisk; login_renderVolumeMountSshdConfigs] ++
     (if isolationEnabled l then [renderVolumeMountUserIsolation] else []) ++
     (match lg_ContainerSSSD l with Some _ => [RenderVolumeMountSSSDSocket; RenderVolumeMountSSSDConf] | None => [] end) ++
     RenderVolumeMounts (lg_SubMounts l) VolumeMountPathJailUpper ++ RenderVolumeMounts (lg_CustomMounts l) "")
    (ct_ReadinessProbe c) (ct_LivenessProbe c) (Some (security (Some true) [SysAdmin] None None appArmorProfile))
    (CopyNonCPUResources (ct_Resources c)) (ct_Resources c) default_termination.
Definition login_pod (c : values_SlurmCluster) (nodeFilter : fields) : outcome (PodSpec * list PersistentVolumeClaim) :=
  let l := sc_NodeLogin c in
  let? (volumes, templates) := login_volumes (sc_Name c) (sc_SshdKeysName c) (sc_VolumeSources c) l in
  let profile := if lg_UseDefaultAppArmorProfile l then "localhost/" +:+ BuildAppArmorProfileName (sc_Name c) (sc_Namespace c)
                 else ct_AppArmorProfile (lg_ContainerSshd l) in
  Ok (stateful_pod (lg_spec l) (ct_ImagePullSecrets (lg_ContainerSshd l)) nodeFilter
        (custom_inits (lg_spec l) ++ [Rendered (RenderContainerMunge (lg_ContainerMunge l) [])] ++
         sssd_inits (lg_ContainerSSSD l) (ldap_name (lg_spec l)))
        [Rendered (renderContainerSshd (sc_ClusterWithGPU c) l profile)] volumes []
        [BuildNodeSetUmbrellaServiceFQDN (sc_Namespace c) (sc_Name c); BuildLoginHeadlessServiceFQDN (sc_Namespace c) (sc_Name c)] "",
      RenderVolumeClaimTemplates ComponentTypeLogin (sc_Namespace c) (sc_Name c) templates).

(** ** REST *)
Definition renderContainerREST (r : SlurmREST) : core_Container :=
  let c := with_port DefaultRESTPort (rest_ContainerREST r) in
  let number name p := match field_optint (rest_spec r) [p] with Some n => [text_env name (Itoa n)] | None => [] end in
  mkCoreContainer "slurmrestd" (ct_Image c) (ct_Command c) (ct_Args c) ""
    (number "SLURMRESTD_THREAD_COUNT" "threadCount" ++ number "SLURMRESTD_MAX_CONNECTIONS" "maxConnections" ++ ct_CustomEnv c) None
    (ct_ImagePullPolicy c) [mkContainerPort (ct_Name c) (ct_Port c) "TCP"] [RenderVolumeMountSlurmConfigs; RenderVolumeMountJailReadOnly]
    (ct_ReadinessProbe c) (ct_LivenessProbe c) (Some (security None [] None None (ct_AppArmorProfile c)))
    (CopyNonCPUResources (ct_Resources c)) (ct_Resources c) None.
Definition rest_pod (c : values_SlurmCluster) (nodeFilter : fields) : outcome PodSpec :=
  let r := sc_NodeRest c in
  let? jail := RenderVolumeJailFromSource (sc_VolumeSources c) VolumeNameJail in
  Ok (plain_pod (rest_spec r) (ct_ImagePullSecrets (rest_ContainerREST r)) nodeFilter (custom_inits (rest_spec r))
        [Rendered (renderContainerREST r)] [RenderVolumeSlurmConfigs (sc_Name c); jail] "" "rest" "" None).

(** ** Accounting *)
Definition RenderVolumeProjectionSlurmdbdConfigs (cluster : string) : VolumeProjection :=
  SecretProjection (BuildSecretSlurmdbdConfigsName cluster) [mkKeyToPath "slurmdbd.conf" "slurmdbd.conf" mode_0600].
Definition RenderVolumeMountSlurmdbdSpool : VolumeMount := mount VolumeNameSpool "/var/spool/slurmdbd".
Definition RenderVolumeSlurmdbdSpool (a : SlurmAccounting) : Volume :=
  mkVolume VolumeNameSpool (EmptyDirVolumeSource "" (Some (quantity (ct_Resources (acc_ContainerAccounting a)) "storage"))).
Definition RenderVolumeMountSlurmdbdSSLCACertificate : VolumeMount := mount_ro "slurmdbd-ssl-ca-cert" "/mnt/slurmdbd-ssl-ca-cert".
Definition RenderVolumeSlurmdbdSSLCACertificate (secretName : string) : Volume :=
  mkVolume "slurmdbd-ssl-ca-cert" (SecretVolumeSource secretName [mkKeyToPath "ca.crt" "ca.crt" mode_0400] (Some DefaultFileMode)).
Definition RenderVolumeMountSlurmdbdSSLClientKey : VolumeMount := mount_ro "slurmdbd-ssl-client-key" "/mnt/slurmdbd-ssl-client-key".
Definition RenderVolumeSlurmdbdSSLClientKey (secretName : string) : Volume :=
  mkVolume "slurmdbd-ssl-client-key"
    (SecretVolumeSource secretName [mkKeyToPath "tls.key" "tls.key" mode_0400; mkKeyToPath "tls.crt" "tls.crt" mode_0400] (Some DefaultFileMode)).
Definition renderContainerAccounting (c : Container) (additional : list VolumeMount) : core_Container :=
  let c := with_port DefaultAccountingPort c in
  mkCoreContainer "accounting" (ct_Image c) (ct_Command c) (ct_Args c) "" (ct_CustomEnv c) None (ct_ImagePullPolicy c)
    [mkContainerPort (ct_Name c) (ct_Port c) "TCP"]
    ([RenderVolumeMountSlurmConfigs; RenderVolumeMountMungeSocket; RenderVolumeMountRESTJWTKey; RenderVolumeMountSlurmdbdSpool] ++ additional)
    (ct_ReadinessProbe c) (ct_LivenessProbe c) (Some (security None [SysAdmin] None None (ct_AppArmorProfile c)))
    (CopyNonCPUResources (ct_Resources c)) (ct_Resources c) None.
Definition renderContainerDbwaiter (cluster : string) (a : SlurmAccounting) : core_Container :=
  let image := field_str (acc_spec a) ["mariadbOperator"; "image"] in
  let secret '(env, key) := mkEnvVar env (EnvSecretKeyRef (BuildSecretSlurmdbdConfigsName cluster) key) in
  mkCoreContainer "wait-for-database" (if String.eqb image "" then "docker-registry1.mariadb.com/library/mariadb:12.1.2" else image)
    ["/bin/sh"; "-c";
     script ["set -eu"; ""; "HOST=`${STORAGE_HOST:-soperator-acct-db}`"; "PORT=`${STORAGE_PORT:-3306}`"; "USER=`${STORAGE_USER:-slurm}`";
             "PASS=`${STORAGE_PASS:-}`"; ""; "CONNECT_TIMEOUT=3"; "TIMEOUT=300"; "INTERVAL=5"; ""; "start_ts=`$(date +%s)`";
             "end_ts=$((start_ts + TIMEOUT))"; "";
             "echo `Waiting for DB at ${HOST}:${PORT} (timeout=${TIMEOUT}s, interval=${INTERVAL}s)...`"; ""; "while :; do";
             "  now_ts=`$(date +%s)`"; "  if [ `${now_ts}` -ge `${end_ts}` ]; then"; "    echo `ERROR: timed out waiting for DB at ${HOST}:${PORT}`";
             "    exit 1"; "  fi"; ""; "  if mariadb \"; "    --connect-timeout=`${CONNECT_TIMEOUT}` \"; "    -h `${HOST}` \"; "    -P `${PORT}` \";
             "    -u `${USER}` \"; "    -p`${PASS}` \"; "    -e `SELECT 1;` >/dev/null 2>&1"; "  then"; "    echo `DB is ready.`"; "    exit 0"; "  fi"; "";
             "  echo `DB is not ready at ${HOST}:${PORT}, retrying in ${INTERVAL}s...`"; "  sleep `${INTERVAL}`"; "done"]] [] ""
    (secret <$> [("STORAGE_HOST", "storageHost"); ("STORAGE_PORT", "storagePort"); ("STORAGE_USER", "storageUser"); ("STORAGE_PASS", "storagePass")])
    None "IfNotPresent" [] [] None None None ∅ ∅ None.
(** The certificates of an external database: volumes and mounts. *)
Definition tls_parts (x : ExternalDB) : list (Volume * VolumeMount) :=
  if xdb_Enabled x then
    (if String.eqb (xdb_ServerCASecretRef x) "" then []
     else [(RenderVolumeSlurmdbdSSLCACertificate (xdb_ServerCASecretRef x), RenderVolumeMountSlurmdbdSSLCACertificate)]) ++
    (if String.eqb (xdb_ClientCertSecretRef x) "" then []
     else [(RenderVolumeSlurmdbdSSLClientKey (xdb_ClientCertSecretRef x), RenderVolumeMountSlurmdbdSSLClientKey)])
  else [].
Definition accounting_pod (c : values_SlurmCluster) (nodeFilter : fields) : outcome PodSpec :=
  let a := sc_NodeAccounting c in
  let tls := tls_parts (acc_ExternalDB a) in
  let? jail := RenderVolumeJailFromSource (sc_VolumeSources c) VolumeNameJail in
  Ok (plain_pod (acc_spec a) (ct_ImagePullSecrets (acc_ContainerAccounting a)) nodeFilter
        (custom_inits (acc_spec a) ++ [Rendered (renderContainerDbwaiter (sc_Name c) a); Rendered (RenderContainerMunge (acc_ContainerMunge a) [])])
        [Rendered (renderContainerAccounting (acc_ContainerAccounting a) (snd <$> tls))]
        ([jail; RenderVolumeProjectedSlurmConfigs (sc_Name c) [Some (RenderVolumeProjectionSlurmdbdConfigs (sc_Name c))];
          RenderVolumeMungeKey (sc_Name c); RenderVolumeRESTJWTKey (sc_Name c); RenderVolumeMungeSocket; RenderVolumeSlurmdbdSpool a] ++ (fst <$> tls))
        "" "accounting" "" None).

(** ** Exporter *)
Definition renderContainerExporter (c : values_SlurmCluster) : core_Container :=
  let e := sc_SlurmExporter c in
  let x := mkContainer "" 0 (exp_Container e) in
  let inflight := field_int (exp_spec e) ["maxCollectorInflight"] in
  let optional name p := let s := field_str (exp_spec e) [p] in if String.eqb s "" then [] else [text_env name s] in
  mkCoreContainer "exporter" (ct_Image x) (ct_Command x)
    ["--cluster-namespace=" +:+ sc_Namespace c; "--cluster-name=" +:+ sc_Name c; "--slurm-api-server=" +:+ GetServiceURL c] ""
    ([text_env "SLURM_EXPORTER_CLUSTER_NAMESPACE" (sc_Namespace c); text_env "SLURM_EXPORTER_CLUSTER_NAME" (sc_Name c);
      text_env "SLURM_EXPORTER_SLURM_API_SERVER" (GetServiceURL c);
      text_env "SLURM_EXPORTER_COLLECTION_INTERVAL" (field_str (exp_spec e) ["collectionInterval"]);
      text_env "SLURM_EXPORTER_MAX_COLLECTOR_INFLIGHT" (Itoa (if (inflight <? 1)%Z then 1 else inflight))] ++
     optional "SLURM_EXPORTER_JOB_SOURCE" "jobSource" ++ optional "SLURM_EXPORTER_ACCOUNTING_JOBS_LOOKBACK" "accountingJobsLookback")
    None (ct_ImagePullPolicy x) [mkContainerPort "metrics" 8080 ""; mkContainerPort "monitoring" 8081 ""] []
    (ct_ReadinessProbe x) (ct_LivenessProbe x) None (CopyNonCPUResources (ct_Resources x)) (ct_Resources x) None.
Definition renderMinimalNoopContainer : core_Container :=
  let resources : ResourceList := <["cpu" := (20 * (nano / 1000))%Z]> {["memory" := (20971520 * nano)%Z]} in
  mkCoreContainer "munge" "cr.eu-north1.nebius.cloud/soperator/busybox:latest" ["sleep"] ["0s"] "" [] None "IfNotPresent" [] [] None None None
    resources resources None.
Definition exporter_pod (c : values_SlurmCluster) (nodeFilter : fields) : PodSpec :=
  let e := sc_SlurmExporter c in
  plain_pod (exp_spec e) (subtree ["imagePullSecrets"] (exp_Container e)) nodeFilter
    (custom_inits (exp_spec e) ++ [Rendered renderMinimalNoopContainer]) [Rendered (renderContainerExporter c)] []
    (field_str (exp_spec e) ["serviceAccountName"]) "" "" None.

(** ** Configuration controller *)
Definition defaultUid : Z := 1001.
Definition defaultGid : Z := 1001.
Definition renderContainerSConfigController (namespace cluster slurmAPIServer : string) (s : SConfigController) : core_Container :=
  let c := scc_Container s in
  let optional flag p := match field_optstr (scc_spec s) [p] with Some v => [flag +:+ v] | None => [] end in
  mkCoreContainer "sconfigctrl" (ct_Image c) ["/usr/bin/sconfigcontroller"]
    (["--cluster-namespace=" +:+ namespace; "--cluster-name=" +:+ cluster; "--jail-path=" +:+ vm_MountPath RenderVolumeMountJail;
      "--slurmapiserver=" +:+ slurmAPIServer; "--metrics-bind-address=:8443"; "--metrics-secure=true"; "--leader-elect"] ++
     optional "--reconfigure-poll-interval=" "reconfigurePollInterval" ++ optional "--reconfigure-wait-timeout=" "reconfigureWaitTimeout")
    "" [] None (ct_ImagePullPolicy c) [mkContainerPort "https" 8443 "TCP"] [RenderVolumeMountJail] (ct_ReadinessProbe c) (ct_LivenessProbe c) None
    (CopyNonCPUResources (ct_Resources c)) (ct_Resources c) None.
Definition renderInitContainerSConfigController (runAsUid runAsGid : option Z) : core_Container :=
  mkCoreContainer "init-dir" "cr.eu-north1.nebius.cloud/soperator/busybox" ["/bin/sh"; "-c"]
    [script ["echo `Waiting for populate-jail to complete...`"; "timeout=600; elapsed=0";
             "while [ ! -f /mnt/jail/etc/soperator-jail-populated ] && [ $elapsed -lt $timeout ]; do"; "    sleep 5; elapsed=$((elapsed + 5))"; "done";
             "if [ ! -f /mnt/jail/etc/soperator-jail-populated ]; then"; "    echo `ERROR: populate-jail did not complete within ${timeout}s`";
             "    exit 1"; "fi";
             "mkdir -p `${JAIL_CONFIG_PATH}` && chown `${JAIL_UID}:${JAIL_GID}` `${JAIL_CONFIG_PATH}` && chmod 755 `${JAIL_CONFIG_PATH}`"]] ""
    [text_env "JAIL_CONFIG_PATH" "/mnt/jail/etc/slurm"; text_env "JAIL_UID" (Itoa (default defaultUid runAsUid));
     text_env "JAIL_GID" (Itoa (default defaultGid runAsGid))] None "IfNotPresent" [] [RenderVolumeMountJail] None None
    (Some (mkSecurityContext None [] [] None None None (Some 0%Z) None None None None)) ∅ ∅ None.
(** The pod takes the host's users from the node of the spec. *)
Definition sconfig_pod (c : values_SlurmCluster) (slurmAPIServer : string) (nodeFilter : fields) : outcome PodSpec :=
  let s := sc_SConfigController c in
  let uid := field_optint (scc_spec s) ["runAsUid"] in
  let gid := field_optint (scc_spec s) ["runAsGid"] in
  let? jail := RenderVolumeJailFromSource (sc_VolumeSources c) VolumeNameJail in
  Ok (plain_pod (subtree ["node"] (scc_spec s)) (ct_ImagePullSecrets (scc_Container s)) nodeFilter
        [Rendered (renderInitContainerSConfigController uid gid)]
        [Rendered (renderContainerSConfigController (sc_Namespace c) (sc_Name c) slurmAPIServer s)] [jail]
        (field_str (scc_spec s) ["serviceAccountName"]) "" ""
        match uid, gid with None, None => None | _, _ => Some (uid, gid) end).

(** ** The populate-jail Job *)
Definition renderContainerPopulateJail (j : PopulateJail) : core_Container :=
  let c := pj_ContainerPopulateJail j in
  mkCoreContainer (ct_Name c) (ct_Image c) [] [] ""
    [text_env "OVERWRITE" (if pj_Overwrite j || IsModeDownscaleAndOverwritePopulate (pj_Maintenance j) then "1" else "0")] None (ct_ImagePullPolicy c) []
    (RenderVolumeMountJail :: if has_field (pj_spec j) ["jailSnapshotVolume"] then [RenderVolumeMountJailSnapshot] else []) None None
    (Some (security None [SysAdmin; "SETFCAP"] None None (ct_AppArmorProfile c))) ∅ ∅ None.
Definition populateJail_pod (c : values_SlurmCluster) (nodeFilter : fields) : outcome PodSpec :=
  let j := sc_PopulateJail c in
  let? jail := RenderVolumeJailFromSource (sc_VolumeSources c) VolumeNameJail in
  let? snapshot :=
    if has_field (pj_spec j) ["jailSnapshotVolume"] then
      match field_optstr (pj_spec j) ["jailSnapshotVolume"; "volumeSourceName"] with
      | Some name => let? v := RenderVolumeJailSnapshotFromSource (sc_VolumeSources c) name in Ok [v]
      | None => Halt "invalid memory address or nil pointer dereference"
      end
    else Ok [] in
  Ok (plain_pod (pj_spec j) (ct_ImagePullSecrets (pj_ContainerPopulateJail j)) nodeFilter [] [Rendered (renderContainerPopulateJail j)]
        (jail :: snapshot) "" "" "Never" None).

(** ** The rendering of the cluster's objects, with these pods

    The pods that need the jail's source are only asked for after it has been found. *)
Definition pod_or_nothing `{PodJSON} (p : outcome PodSpec) : fields := match p with Ok p => encode_pod p | _ => ∅ end.
Definition rendered_pods `{PodJSON} (base : Rendering) : Rendering :=
  {| generateRandBytes := @generateRandBytes base; collectSshdKeyPairsData := @collectSshdKeyPairsData base;
     generatePassword := @generatePassword base; jwt_GenerateSigningKey := @jwt_GenerateSigningKey base;
     pod_login c f := let? (p, claims) := login_pod c f in Ok (encode_pod p, encode_claims claims);
     pod_controller c f := let? (p, claims) := controller_pod c f in Ok (encode_pod p, encode_claims claims);
     pod_rest c f := pod_or_nothing (rest_pod c f); pod_accounting c f := pod_or_nothing (accounting_pod c f);
     pod_sconfig c url f := pod_or_nothing (sconfig_pod c url f); pod_exporter c f := encode_pod (exporter_pod c f);
     pod_populateJail c f := let? p := populateJail_pod c f in Ok (encode_pod p); body_mariaDb := @body_mariaDb base;
     relabel_podMonitor := @relabel_podMonitor base |}.

(** *** Mounts *)
Lemma sssd_inits_mounts sssd secret ldap names :
  vol_Name <$> sssd_volumes sssd secret ldap ⊆ names → Forall (container_mounts_in names) (sssd_inits sssd ldap).
Proof.
  unfold sssd_volumes, sssd_inits. destruct sssd as [c|]; [|constructor]. intros Hs. constructor; [|constructor].
  eapply (mounts_in_mono _ _ _ Hs). unfold RenderContainerSSSD. cbn [apply_options foldl SSSDLdapCAConfigMap sssdLdapCAConfigMapName].
  destruct (renderCommandAndArgsSSSD c), (String.eqb ldap ""); by_computation.
Qed.
Lemma custom_inits_mounts spec names : Forall (container_mounts_in names) (custom_inits spec).
Proof. by apply Forall_fmap, Forall_true. Qed.
Lemma add_volume_names spec p creator name acc res :
  (∀ s vol, creator s = Ok vol → vol_Name vol = name) → add_volume spec p creator name acc = Ok res →
  Forall (λ s, is_Some (pts_Spec s)) acc.2 →
  names_of res ≡ₚ names_of acc ++ [name] ∧ Forall (λ s, is_Some (pts_Spec s)) res.2.
Proof.
  intros Hc. unfold add_volume. destruct (AddVolumeOrSpec _ _ _ _) as [[v s]|?|?] eqn:Ha; [|done..]. cbn [obind]. intros [= <-] Hacc.
  destruct (AddVolumeOrSpec_names _ _ _ _ _ Hc Ha) as [Hn Hs]. cbn [fst snd] in *. split; [|by apply Forall_app].
  rewrite names_of_app, Hn. by destruct acc.
Qed.
(** The names of the volumes and claims, in the order of the code. *)
Definition controller_names (t : SlurmController) : list string :=
  ["munge-key"; "munge-socket"; "security-limits"; "rest-jwt-key"] ++
  (vol_Name <$> sssd_volumes (ctl_ContainerSSSD t) (ctl_SSSDConfSecretName t) (ldap_name (ctl_spec t))) ++ ["controller-spool"] ++ ["jail"].
Lemma controller_volume_names cluster sources t volumes templates :
  controller_volumes cluster sources t = Ok (volumes, templates) →
  names_of (volumes, templates) ≡ₚ controller_names t ++ (nvm_Name <$> ctl_CustomMounts t) ∧ Forall (λ s, is_Some (pts_Spec s)) templates.
Proof.
  unfold controller_volumes. destruct (add_volume _ ["volumes"; "spool"] _ _ _) as [acc1|?|?] eqn:H1; [|done..]. cbn [obind].
  destruct (add_volume _ ["volumes"; "jail"] _ _ _) as [acc2|?|?] eqn:H2; [|done..]. cbn [obind]. intros H3.
  apply add_volume_names in H1 as [Hn1 Hs1]; [|intros ??; apply RenderVolumeFromSource_name|constructor].
  apply add_volume_names in H2 as [Hn2 Hs2]; [|intros ??; apply RenderVolumeFromSource_name|done].
  destruct (add_all_names _ _ _ _ (add_mount_declares sources) H3 Hs2) as [Hn3 Hs3]. split; [|done].
  rewrite Hn3, Hn2, Hn1. apply reflexive_eq. unfold names_of, controller_names. cbn [fst snd]. by rewrite fmap_nil, app_nil_r, fmap_app, <-!(assoc_L (++)).
Qed.
Definition login_names (l : SlurmLogin) : list string :=
  ["munge-key"; "munge-socket"; "security-limits"; "sshd-keys"; "ssh-root-keys"; "in-memory"; "tmp-disk"; "ssh-configs"] ++
  (if isolationEnabled l then ["user-isolation"] else []) ++
  (vol_Name <$> sssd_volumes (lg_ContainerSSSD l) (lg_SSSDConfSecretName l) (ldap_name (lg_spec l))) ++ ["jail"].
Lemma login_volume_names cluster keys sources l volumes templates :
  login_volumes cluster keys sources l = Ok (volumes, templates) →
  names_of (volumes, templates) ≡ₚ login_names l ++ (nvm_Name <$> lg_SubMounts l ++ lg_CustomMounts l) ∧ Forall (λ s, is_Some (pts_Spec s)) templates.
Proof.
  unfold login_volumes. destruct (add_volume _ ["volumes"; "jail"] _ _ _) as [acc1|?|?] eqn:H1; [|done..]. cbn [obind]. intros H2.
  apply add_volume_names in H1 as [Hn1 Hs1]; [|intros ??; apply RenderVolumeFromSource_name|constructor].
  destruct (add_two_names _ _ _ _ _ (add_mount_declares sources) Hs1 H2) as [Hn2 Hs2]. split; [|done].
  rewrite Hn2, Hn1. apply reflexive_eq. unfold names_of, login_names. cbn [fst snd]. rewrite fmap_nil, app_nil_r, !fmap_app, <-!(assoc_L (++)).
  by destruct (isolationEnabled l).
Qed.
(** Mounts with fixed names, in a list of names that starts with known ones. *)
Lemma mounts_in_prefix known rest mounts : mounts_in known mounts → mounts_in (known ++ rest) mounts.
Proof. apply mounts_in_mono. intros x Hx. apply elem_of_app. by left. Qed.
Lemma mounts_in_perm names names' mounts : names ≡ₚ names' → mounts_in names' mounts → mounts_in names mounts.
Proof. intros Hp. apply mounts_in_mono. intros x Hx. by rewrite Hp. Qed.
Lemma Forall_mounts_perm names names' cs : names ≡ₚ names' → Forall (container_mounts_in names') cs → Forall (container_mounts_in names) cs.
Proof. intros Hp Hf. eapply Forall_impl; [exact Hf|]. intros [c|c]; [done|]. by apply mounts_in_perm. Qed.
Lemma controller_mounts c f pod claims : controller_pod c f = Ok (pod, claims) → mounts_declared pod claims.
Proof.
  unfold controller_pod. set (t := sc_NodeController c).
  destruct (controller_volumes _ _ t) as [[volumes templates]|?|?] eqn:Hv; [|done..]. cbn [obind]. intros [= <- <-].
  apply controller_volume_names in Hv as [Hn Hs]. unfold mounts_declared. cbn [pod_Volumes pod_InitContainers pod_Containers stateful_pod].
  assert (volume_names volumes (pvc_Name <$> RenderVolumeClaimTemplates ComponentTypeController (sc_Namespace c) (sc_Name c) templates) ≡ₚ
          controller_names t ++ (nvm_Name <$> ctl_CustomMounts t)) as Hp.
  { rewrite <-Hn. unfold volume_names, names_of. by rewrite claim_names. }
  split; apply (Forall_mounts_perm _ _ _ Hp).
  - rewrite Forall_app, Forall_cons, Forall_app. split_and!; [apply custom_inits_mounts| | |].
    + apply mounts_in_prefix, mounts_in_prefix. by_computation.
    + eapply sssd_inits_mounts. intros x Hx. unfold controller_names. rewrite !elem_of_app. left. right. left. exact Hx.
    + destruct (acc_Enabled _); [|constructor]. constructor; [|constructor].
      apply (mounts_in_prefix _ _ [RenderVolumeMountJail; RenderVolumeMountMungeSocket]). unfold controller_names, sssd_volumes.
      destruct (ctl_ContainerSSSD t); [destruct (String.eqb _ _)|]; by_computation.
  - constructor; [|constructor]. unfold renderContainerSlurmctldWithSSSD, with_mounts, renderContainerSlurmctld, controller_names, sssd_volumes.
    destruct (ctl_ContainerSSSD t); [destruct (String.eqb _ _)|]; cbn [container_mounts_in c_VolumeMounts]; rewrite !mounts_in_app; split_and!;
      first [apply mounts_in_custom; intros x Hx; apply elem_of_app; right; exact Hx|apply mounts_in_prefix; by_computation].
Qed.
Lemma login_mounts c f pod claims : login_pod c f = Ok (pod, claims) → mounts_declared pod claims.
Proof.
  unfold login_pod. set (l := sc_NodeLogin c).
  destruct (login_volumes _ _ _ l) as [[volumes templates]|?|?] eqn:Hv; [|done..]. cbn [obind]. intros [= <- <-].
  apply login_volume_names in Hv as [Hn Hs]. unfold mounts_declared. cbn [pod_Volumes pod_InitContainers pod_Containers stateful_pod].
  assert (volume_names volumes (pvc_Name <$> RenderVolumeClaimTemplates ComponentTypeLogin (sc_Namespace c) (sc_Name c) templates) ≡ₚ
          login_names l ++ (nvm_Name <$> lg_SubMounts l ++ lg_CustomMounts l)) as Hp.
  { rewrite <-Hn. unfold volume_names, names_of. by rewrite claim_names. }
  split; apply (Forall_mounts_perm _ _ _ Hp).
  - rewrite Forall_app, Forall_cons. split_and!; [apply custom_inits_mounts| |].
    + apply mounts_in_prefix, mounts_in_prefix. by_computation.
    + eapply sssd_inits_mounts. intros x Hx. unfold login_names. rewrite !elem_of_app. left. right. right. left. exact Hx.
  - constructor; [|constructor]. unfold renderContainerSshd, login_names, sssd_volumes. cbn [container_mounts_in c_VolumeMounts].
    rewrite !mounts_in_app. split_and!.
    + apply mounts_in_prefix. destruct (isolationEnabled l), (lg_ContainerSSSD l); [destruct (String.eqb _ _)| |destruct (String.eqb _ _)|]; by_computation.
    + apply mounts_in_prefix. destruct (isolationEnabled l); by_computation.
    + apply mounts_in_prefix. destruct (lg_ContainerSSSD l); [|constructor]. destruct (isolationEnabled l), (String.eqb _ _); by_computation.
    + apply mounts_in_custom. intros x Hx. apply elem_of_app. right. rewrite fmap_app. apply elem_of_app. left. exact Hx.
    + apply mounts_in_custom. intros x Hx. apply elem_of_app. right. rewrite fmap_app. apply elem_of_app. right. exact Hx.
Qed.
(** The source of the jail comes with its name. *)
Lemma jail_volume sources v : RenderVolumeJailFromSource sources VolumeNameJail = Ok v → ∃ s, v = mkVolume VolumeNameJail s.
Proof. intros Hv%RenderVolumeFromSource_name. destruct v as [n s]. cbn in Hv. subst. by exists s. Qed.
Lemma rest_mounts c f pod : rest_pod c f = Ok pod → mounts_declared pod [].
Proof.
  unfold rest_pod. destruct (RenderVolumeJailFromSource _ _) as [jail|?|?] eqn:Hj; [|done..]. cbn [obind]. intros [= <-].
  apply jail_volume in Hj as [s ->]. split; [apply custom_inits_mounts|]. constructor; [|constructor].
  change (mounts_in ["slurm-configs"; "jail"] [RenderVolumeMountSlurmConfigs; RenderVolumeMountJailReadOnly]). by_computation.
Qed.
Lemma tls_parts_match x : Forall (λ p : Volume * VolumeMount, vm_Name p.2 = vol_Name p.1) (tls_parts x).
Proof. unfold tls_parts. repeat case_match; by repeat constructor. Qed.
Lemma accounting_mounts c f pod : accounting_pod c f = Ok pod → mounts_declared pod [].
Proof.
  unfold accounting_pod. destruct (RenderVolumeJailFromSource _ _) as [jail|?|?] eqn:Hj; [|done..]. cbn [obind]. intros [= <-].
  apply jail_volume in Hj as [s ->]. unfold mounts_declared. set (tls := tls_parts _).
  change (volume_names _ _) with (["jail"; "slurm-configs"; "munge-key"; "rest-jwt-key"; "munge-socket"; "spool"] ++ (vol_Name <$> (fst <$> tls)) ++ []).
  cbn [pod_InitContainers pod_Containers plain_pod]. split.
  - rewrite Forall_app, !Forall_cons. split_and!; [apply custom_inits_mounts|constructor| |constructor].
    apply (mounts_in_prefix _ _ [RenderVolumeMountMungeKey; RenderVolumeMountMungeSocket]). by_computation.
  - constructor; [|constructor]. unfold renderContainerAccounting. cbn [container_mounts_in c_VolumeMounts]. rewrite mounts_in_app. split.
    + apply mounts_in_prefix. by_computation.
    + apply Forall_fmap. eapply Forall_impl; [apply Forall_and; split; [apply tls_parts_match|apply Forall_forall; intros x Hx; exact Hx]|].
      intros [v m] [Hm Hin]. cbn [fst snd] in Hm. unfold compose. cbn [snd]. rewrite Hm. apply elem_of_app. right. apply elem_of_app. left.
      apply list_elem_of_fmap. exists v. split; [done|]. apply list_elem_of_fmap. by exists (v, m).
Qed.
Lemma exporter_mounts c f : mounts_declared (exporter_pod c f) [].
Proof.
  split; [|by repeat constructor]. apply Forall_app. split; [apply custom_inits_mounts|]. by repeat constructor.
Qed.
Lemma sconfig_mounts c url f pod : sconfig_pod c url f = Ok pod → mounts_declared pod [].
Proof.
  unfold sconfig_pod. destruct (RenderVolumeJailFromSource _ _) as [jail|?|?] eqn:Hj; [|done..]. cbn [obind]. intros [= <-].
  apply jail_volume in Hj as [s ->].
  split; (constructor; [|constructor]); change (mounts_in ["jail"] [RenderVolumeMountJail]); by_computation.
Qed.
Lemma populateJail_mounts c f pod : populateJail_pod c f = Ok pod → mounts_declared pod [].
Proof.
  unfold populateJail_pod. destruct (RenderVolumeJailFromSource _ _) as [jail|?|?] eqn:Hj; [|done..]. cbn [obind].
  apply jail_volume in Hj as [s ->]. destruct (has_field _ _) eqn:Hh.
  - destruct (field_optstr _ _) as [name|]; [|done]. destruct (RenderVolumeJailSnapshotFromSource _ _) as [v|?|?] eqn:Hv; [|done..]. cbn [obind].
    intros [= <-]. apply RenderVolumeFromSource_name in Hv. split; [constructor|]. constructor; [|constructor]. unfold renderContainerPopulateJail.
    rewrite Hh. cbn [container_mounts_in c_VolumeMounts pod_Volumes plain_pod volume_names fmap list_fmap vol_Name app]. rewrite Hv. by_computation.
  - cbn [obind]. intros [= <-]. split; [constructor|]. constructor; [|constructor]. unfold renderContainerPopulateJail. rewrite Hh.
    change (mounts_in ["jail"] [RenderVolumeMountJail]). by_computation.
Qed.

(** *** The objects *)
Definition holds_pod `{PodJSON} (o : resource) (pod : PodSpec) (claims : list PersistentVolumeClaim) : Prop :=
  (∀ q, o_body o !! (["spec"; "template"; "spec"] ++ q) = encode_pod pod !! q) ∧ o_body o !! ["spec"; "volumeClaimTemplates"] = encode_claims claims.
Section objects.
  Context `{PodJSON} (base : Rendering).
Let rendering : Rendering := rendered_pods base.
Local Existing Instance rendering.
Definition workloads (c : values_SlurmCluster) : list (outcome resource) :=
  [login_RenderStatefulSet c; controller_RenderStatefulSet c; RenderDeploymentREST c; accounting_RenderDeployment c; sconfig_RenderDeployment c;
   RenderDeploymentExporter c; RenderPopulateJailJob c].
Ltac not_prefix := intros [x Hx]; discriminate Hx.
Ltac other_paths := repeat (apply Forall_cons_2; [split; [not_prefix|done]|]); apply Forall_nil_2.
(** A body whose last part is the template. *)
Lemma template_at (l : list (path * value)) (m1 m2 : fields) (pod : fields) q :
  Forall (λ kv, ¬ ["spec"; "template"; "spec"] `prefix_of` kv.1) l → m1 !! (["spec"; "template"; "spec"] ++ q) = None →
  m2 !! (["spec"; "template"; "spec"] ++ q) = None →
  (list_to_map l ∪ m1 ∪ m2 ∪ below ["spec"; "template"; "spec"] pod : fields) !! (["spec"; "template"; "spec"] ++ q) = pod !! q.
Proof.
  intros Hl H1 H2. rewrite !lookup_union, lookup_below, H1, H2, !(right_id_L None _), not_elem_of_list_to_map_1, (left_id_L None _); [done|].
  intros ([k v] & Hk & Hin)%list_elem_of_fmap. rewrite Forall_forall in Hl. apply (Hl _ Hin). cbn in *. rewrite <-Hk. by exists q.
Qed.
Lemma deployment_template c t name replicas strategy template pod :
  holds_pod (deployment c t name replicas strategy template (encode_pod pod)) pod [].
Proof.
  split.
  - intros q. unfold deployment, workload. cbn [o_body]. apply template_at; [repeat constructor; not_prefix| |]; apply lookup_at_path_None; not_prefix.
  - unfold deployment, workload. cbn [o_body]. rewrite !lookup_union, !lookup_at_path_None, lookup_below_None by not_prefix. done.
Qed.
Lemma deployment_rendered c t name replicas strategy template (p : outcome PodSpec) pod o :
  p = Ok pod → Ok (deployment c t name replicas strategy template (pod_or_nothing p)) = Ok o → holds_pod o pod [].
Proof. intros -> Ho. apply Ok_inj in Ho. subst o. apply deployment_template. Qed.
Lemma statefulSet_rendered k ns name labels template (l : list (path * value)) (m1 m2 : fields) pod claims :
  Forall (λ kv, ¬ ["spec"; "template"; "spec"] `prefix_of` kv.1 ∧ kv.1 ≠ ["spec"; "volumeClaimTemplates"]) l →
  (∀ q, m1 !! (["spec"; "template"; "spec"] ++ q) = None ∧ m2 !! (["spec"; "template"; "spec"] ++ q) = None) →
  m1 !! ["spec"; "volumeClaimTemplates"] = None → m2 !! ["spec"; "volumeClaimTemplates"] = None →
  holds_pod (workload k ns name labels template
               (list_to_map (l ++ option_field ["spec"; "volumeClaimTemplates"] (encode_claims claims)) ∪ m1 ∪ m2 ∪
                below ["spec"; "template"; "spec"] (encode_pod pod))) pod claims.
Proof.
  intros Hl Hm H1 H2. split.
  - intros q. destruct (Hm q). apply template_at; [|done..]. apply Forall_app. split; [eapply Forall_impl; [exact Hl|]; by intros kv []|].
    unfold option_field. destruct (encode_claims claims); repeat constructor. not_prefix.
  - unfold workload. cbn [o_body]. rewrite !lookup_union, H1, H2, lookup_below_None, !(right_id_L None _) by not_prefix.
    rewrite list_to_map_app, lookup_union, not_elem_of_list_to_map_1, (left_id_L None _).
    + unfold option_field. destruct (encode_claims claims); cbn [list_to_map foldr uncurry]; [apply lookup_insert_eq|done].
    + intros ([k' v] & Hk & Hin)%list_elem_of_fmap. rewrite Forall_forall in Hl. destruct (Hl _ Hin). by subst.
Qed.
Lemma login_holds c o : login_RenderStatefulSet c = Ok o → ∃ pod claims, holds_pod o pod claims ∧ mounts_declared pod claims.
Proof.
  unfold login_RenderStatefulSet. destruct (MustGetBy _ _ _) as [f|?|?]; [|done..]. cbn [obind pod_login rendered_pods rendering].
  destruct (login_pod c f) as [[pod claims]|?|?] eqn:Hp; [|done..]. cbn [obind wrap_err]. intros <-%Ok_inj.
  exists pod, claims. split; [|by apply (login_mounts c f)].
  apply statefulSet_rendered; [other_paths| |apply lookup_at_path_None; not_prefix..].
  intros q. split; apply lookup_at_path_None; not_prefix.
Qed.
Lemma controller_holds c o : controller_RenderStatefulSet c = Ok o → ∃ pod claims, holds_pod o pod claims ∧ mounts_declared pod claims.
Proof.
  unfold controller_RenderStatefulSet. destruct (MustGetBy _ _ _) as [f|?|?]; [|done..]. cbn [obind pod_controller rendered_pods rendering].
  destruct (controller_pod c f) as [[pod claims]|?|?] eqn:Hp; [|done..]. cbn [obind wrap_err]. intros <-%Ok_inj.
  exists pod, claims. split; [|by apply (controller_mounts c f)].
  apply statefulSet_rendered; [other_paths| |apply lookup_at_path_None; not_prefix..].
  intros q. split; apply lookup_at_path_None; not_prefix.
Qed.
Lemma jail_found c s : jail_source c = Ok s → RenderVolumeJailFromSource (sc_VolumeSources c) VolumeNameJail = Ok (mkVolume VolumeNameJail (GivenVolumeSource (delete ["name"] s))).
Proof. unfold jail_source, RenderVolumeJailFromSource, RenderVolumeFromSource. by intros ->. Qed.
Lemma rest_holds c o : RenderDeploymentREST c = Ok o → ∃ pod claims, holds_pod o pod claims ∧ mounts_declared pod claims.
Proof.
  unfold RenderDeploymentREST, ensure. destruct (rest_Enabled _), (negb _); try done. cbn [obind].
  destruct (jail_source c) as [s|?|?] eqn:Hj; [|done..]. destruct (GetBy _ _ _) as [f|?|?]; [|done..]. cbn [obind]. apply jail_found in Hj.
  destruct (rest_pod c f) as [pod|?|?] eqn:Hp; [|unfold rest_pod in Hp; by rewrite Hj in Hp..].
  intros Ho. exists pod, []. split; [by eapply deployment_rendered|by apply (rest_mounts c f)].
Qed.
Lemma accounting_holds c o : accounting_RenderDeployment c = Ok o → ∃ pod claims, holds_pod o pod claims ∧ mounts_declared pod claims.
Proof.
  unfold accounting_RenderDeployment.
  destruct (jail_source c) as [s|?|?] eqn:Hj; [|done..]. cbn [obind]. destruct (GetBy _ _ _) as [f|?|?]; [|done..]. cbn [obind]. apply jail_found in Hj.
  destruct (accounting_pod c f) as [pod|?|?] eqn:Hp; [|unfold accounting_pod in Hp; by rewrite Hj in Hp..].
  intros Ho. exists pod, []. split; [by eapply deployment_rendered|by apply (accounting_mounts c f)].
Qed.
Lemma sconfig_holds c o : sconfig_RenderDeployment c = Ok o → ∃ pod claims, holds_pod o pod claims ∧ mounts_declared pod claims.
Proof.
  unfold sconfig_RenderDeployment.
  destruct (jail_source c) as [s|?|?] eqn:Hj; [|done..]. cbn [obind]. destruct (GetBy _ _ _) as [f|?|?]; [|done..]. cbn [obind]. apply jail_found in Hj.
  destruct (sconfig_pod c (GetServiceURL c) f) as [pod|?|?] eqn:Hp; [|unfold sconfig_pod in Hp; by rewrite Hj in Hp..].
  intros Ho. exists pod, []. split; [by eapply deployment_rendered|by apply (sconfig_mounts c (GetServiceURL c) f)].
Qed.
Lemma exporter_holds c o : RenderDeploymentExporter c = Ok o → ∃ pod claims, holds_pod o pod claims ∧ mounts_declared pod claims.
Proof.
  unfold RenderDeploymentExporter, ensure. destruct (negb _); [|done]. cbn [obind]. intros <-%Ok_inj.
  eexists _, []. split; [apply deployment_template|apply exporter_mounts].
Qed.
Lemma populateJail_holds c o : RenderPopulateJailJob c = Ok o → ∃ pod claims, holds_pod o pod claims ∧ mounts_declared pod claims.
Proof.
  unfold RenderPopulateJailJob. destruct (MustGetBy _ _ _) as [f|?|?]; [|done..]. cbn [obind].
  destruct (jail_source c) as [s|?|?]; [|done..]. cbn [obind pod_populateJail rendered_pods rendering].
  destruct (populateJail_pod c f) as [pod|?|?] eqn:Hp; [|done..]. cbn [obind]. intros <-%Ok_inj. exists pod, []. split; [|by apply (populateJail_mounts c f)].
  split.
  - intros q. unfold workload. cbn [o_body]. rewrite <-(right_id_L ∅ (∪) (list_to_map _)) at 1.
    apply template_at; [repeat constructor; not_prefix|apply lookup_empty|apply lookup_at_path_None; not_prefix].
  - unfold workload. cbn [o_body]. rewrite !lookup_union, !lookup_at_path_None, lookup_below_None by not_prefix. done.
Qed.

(** C30: the pods of a cluster hang together.  Whatever a SlurmCluster says, whenever one of its workloads (the StatefulSets of login
    and controller, the Deployments of REST, accounting, configuration controller and exporter, the populate-jail
    Job) is rendered, the object holds a pod and claim templates in which every mount of every rendered container refers to a declared volume or claim. *)
Theorem cluster_pods_admissible (c : values_SlurmCluster) (w : outcome resource) (o : resource) :
  w ∈ workloads c → w = Ok o → ∃ pod claims, holds_pod o pod claims ∧ mounts_declared pod claims.
Proof.
  unfold workloads. rewrite !elem_of_cons. intros Hw Ho. subst w.
  destruct Hw as [Hw|[Hw|[Hw|[Hw|[Hw|[Hw|[Hw|[]%not_elem_of_nil]]]]]]]; symmetry in Hw.
  - by apply login_holds in Hw.
  - by apply controller_holds in Hw.
  - by apply rest_holds in Hw.
  - by apply accounting_holds in Hw.
  - by apply sconfig_holds in Hw.
  - by apply exporter_holds in Hw.
  - by apply populateJail_holds in Hw.
Qed.
End objects.

(** ** A cluster *)
Definition pods_cluster : resource :=
  Obj (SlurmCluster, "ns", "c") 1 None ∅ ∅ ∅
    (list_to_map (example_spec ++
       [(["spec"; "slurmNodes"; "login"; "volumes"; "jail"; "volumeSourceName"], VStr "jail");
        (["spec"; "slurmNodes"; "login"; "volumes"; "jailSubMounts"; "0"; "name"], VStr "home");
        (["spec"; "slurmNodes"; "login"; "volumes"; "jailSubMounts"; "0"; "mountPath"], VStr "/home");
        (["spec"; "slurmNodes"; "login"; "volumes"; "jailSubMounts"; "0"; "volumeClaimTemplateSpec"; "storageClassName"], VStr "fast");
        (["spec"; "slurmNodes"; "login"; "sssd"; "image"], VStr "sssd")])) ∅.
Definition pods_rendering : Rendering :=
  {| generateRandBytes := Ok "k"; collectSshdKeyPairsData := Ok ∅; generatePassword := Ok "p"; jwt_GenerateSigningKey := Ok "j";
     pod_login _ _ := Ok (∅, None); pod_controller _ _ := Ok (∅, None); pod_rest _ _ := ∅; pod_accounting _ _ := ∅; pod_sconfig _ _ _ := ∅;
     pod_exporter _ _ := ∅; pod_populateJail _ _ := Ok ∅; body_mariaDb _ _ := ∅; relabel_podMonitor _ := ∅ |}.
Lemma cluster_pods_admissible_witness :
  ∃ c o, BuildSlurmClusterFrom pods_cluster "c" = Ok c ∧ login_RenderStatefulSet (H := @rendered_pods json_example pods_rendering) c = Ok o ∧
    ∃ pod claims, holds_pod (H := json_example) o pod claims ∧ mounts_declared pod claims.
Proof.
  destruct (is_Ok_inv (BuildSlurmClusterFrom pods_cluster "c")) as [c Hc]; [vm_compute; reflexivity|]. exists c.
  destruct (is_Ok_inv (@login_RenderStatefulSet (@rendered_pods json_example pods_rendering) c)) as [o Ho].
  { assert (is_Ok (let? c := BuildSlurmClusterFrom pods_cluster "c" in @login_RenderStatefulSet (@rendered_pods json_example pods_rendering) c) = true)
      as Hok by (vm_compute; reflexivity). rewrite Hc in Hok. exact Hok. }
  exists o. split; [exact Hc|]. split; [exact Ho|].
  apply (@cluster_pods_admissible json_example pods_rendering c (@login_RenderStatefulSet (@rendered_pods json_example pods_rendering) c)); [left|exact Ho].
Defined.
