(* ===== verification/Admission.v ===== *)
(** * Admission webhooks

    [internal/webhook]: what the API server asks the operator before it stores a SlurmCluster, a NodeSet or a Secret with the
    operator's label, and what follows for the objects that the cluster controller renders. *)
From S2P Require Import Prelude GoStrings GoPaths Naming Effects Reconciler Patchers Ownership QuietRuns Workers MultiStep ClusterValues ConfigTexts SlurmConfigs.
From S2P Require Import ClusterObjects ClusterCtl ClusterRuns PodParts WorkerPods.
From Stdlib Require String.

(** ** SlurmClusters ([slurmcluster_webhook.go]) *)
Definition login_spec (cluster : resource) : fields := subtree ["slurmNodes"; "login"] (subtree ["spec"] (o_body cluster)).
Definition positive_limit (isolation : fields) (name : string) : outcome () :=
  match field_optint isolation [name] with
  | Some m => ensure (0 <? m)%Z ("login.userIsolation." +:+ name +:+ " must be greater than zero")
  | None => Ok tt
  end.
Definition below_container (isolation : fields) (name : string) (containerMemory : Z) : outcome () :=
  match field_optint isolation [name] with
  | Some m => ensure (m <? containerMemory)%Z ("login.userIsolation." +:+ name +:+ " must be lower than the sshd container memory limit")
  | None => Ok tt
  end.
Definition validateLoginUserIsolation (cluster : resource) : outcome () :=
  let b := login_spec cluster in
  let isolation := subtree ["userIsolation"] b in
  if negb (has_field b ["userIsolation"]) || negb (bool_at isolation ["enabled"]) then Ok tt
  else
    let? _ := positive_limit isolation "memoryHigh" in
    let? _ := positive_limit isolation "memoryMax" in
    let containerMemory := field_int b ["sshd"; "resources"; "memory"] in
    let? _ := match ResolveLoginUserIsolationMemoryLimits isolation containerMemory with
              | (Some memoryHigh, Some memoryMax) =>
                  ensure (memoryHigh <=? memoryMax)%Z "effective login.userIsolation.memoryHigh must not exceed memoryMax"
              | _ => Ok tt
              end in
    if (containerMemory <=? 0)%Z then Ok tt
    else
      let? _ := below_container isolation "memoryHigh" containerMemory in
      below_container isolation "memoryMax" containerMemory.
Definition SlurmCluster_ValidateCreate (cluster : resource) : outcome () := validateLoginUserIsolation cluster.
Definition SlurmCluster_ValidateUpdate (_ cluster : resource) : outcome () := validateLoginUserIsolation cluster.
Definition SlurmCluster_ValidateDelete (_ : resource) : outcome () := Ok tt.

(** ** NodeSets ([nodeset_webhook.go]) *)
Definition NodeSet_ValidateCreate (_ : resource) : outcome () := Ok tt.
Definition NodeSet_ValidateUpdate (_ _ : resource) : outcome () := Ok tt.
Definition NodeSet_ValidateDelete (_ : resource) : outcome () := Ok tt.

(** ** Secrets ([secret_webhook.go]) *)
Definition AnnotationClusterName : string := "slurm.nebius.ai/cluster".
Definition LabelValidateKey : string := "slurm.nebius.ai/webhook".
Definition Secret_ValidateCreate (secret : resource) : outcome () :=
  match o_annotations secret !! AnnotationClusterName with
  | Some _ => Ok tt
  | None => Err (ErrMsg "secret must have an annotation 'slurm.nebius.ai/cluster'")
  end.
Definition Secret_ValidateUpdate (_ _ : resource) : outcome () := Err (ErrMsg "update operations are not allowed for Secret resources").
(** Only a cluster that is found keeps the Secret. *)
Definition Secret_ValidateDelete (secret : resource) : M cluster_state () :=
  match o_annotations secret !! AnnotationClusterName with
  | None => ret tt
  | Some cluster =>
      let! got := attempt (client_Get (SlurmCluster, o_namespace secret, cluster)) in
      match got with
      | inl _ => fail (ErrMsg "cannot delete Secret because referenced SlurmCluster exists")
      | inr _ => ret tt
      end
  end.
(** The webhook is registered for the Secrets with the label. *)
Definition selected_secret (secret : resource) : bool := bool_decide (o_labels secret !! LabelValidateKey = Some "true").

(** ** Results *)
Lemma built_login cluster namePrefix c :
  BuildSlurmClusterFrom cluster namePrefix = Ok c →
  lg_UserIsolation (sc_NodeLogin c) = (if has_field (login_spec cluster) ["userIsolation"] then Some (subtree ["userIsolation"] (login_spec cluster)) else None) ∧
  field_int (ct_spec (lg_ContainerSshd (sc_NodeLogin c))) ["resources"; "memory"] = field_int (login_spec cluster) ["sshd"; "resources"; "memory"].
Proof.
  unfold BuildSlurmClusterFrom. destruct (field_optstr _ ["maintenance"]) as [mode|]; [|done]. intros Hb.
  assert (∃ v, Validate v = Ok c ∧ ∃ m a, sc_NodeLogin v = buildSlurmLoginFrom (o_name cluster) namePrefix m (login_spec cluster) a) as (v & Hv & m & a & Hl).
  { destruct (Validate _) as [c'|e|h] eqn:Hv in Hb; [|done..]. injection Hb as <-. eexists. split; [exact Hv|]. by eexists _, _. }
  assert (sc_NodeLogin c = buildSlurmLoginFrom (o_name cluster) namePrefix m (login_spec cluster) a) as ->.
  { destruct (Validate_same _ _ Hv) as [->|[n ->]]; exact Hl. }
  unfold buildSlurmLoginFrom. destruct (or_default _ _), (or_default _ _). cbn [lg_UserIsolation lg_ContainerSshd buildContainerFrom ct_spec].
  split; [done|]. unfold field_int. by rewrite lookup_subtree.
Qed.
Lemma ensure_Ok b e : ensure b e = Ok tt → b = true.
Proof. by destruct b. Qed.
(** What the derived limits are. *)
Lemma derived_limit m percent :
  (0 < m)%Z → (0 < percent < 100)%Z → (Quantity_Value m * percent ≤ max_int 64)%Z →
  ∃ l, deriveLoginUserIsolationMemory m percent = Some (l * nano)%Z ∧ (0 ≤ l)%Z ∧ (l * nano < m)%Z.
Proof.
  intros Hm Hp Hb. pose proof (Value_bounds m ltac:(lia)) as Hv. unfold deriveLoginUserIsolationMemory. destruct (Z.leb_spec m 0); [lia|].
  eexists. split; [done|]. set (q := Quantity_Value m) in *. assert (1 ≤ q)%Z by (unfold nano in Hv; lia).
  rewrite wrap_small by (unfold min_int, max_int in *; nia). rewrite Z.quot_div_nonneg by nia. split; [apply Z.div_pos; nia|].
  assert ((q * percent) `div` 100 < q)%Z by (apply Z.div_lt_upper_bound; nia). unfold nano in *. nia.
Qed.
(** A limit that was given, if any, is a whole number of bytes. *)
Definition whole_bytes (isolation : fields) (name : string) : Prop := ∀ m, field_optint isolation [name] = Some m → (nano | m)%Z.
Lemma below_Value m l : (0 ≤ l < m)%Z → (Quantity_Value l ≤ Quantity_Value m)%Z ∧ ((nano | l)%Z → Quantity_Value l * nano < m)%Z.
Proof.
  intros Hl. split; [apply Value_mono; lia|]. intros [n ->]. rewrite Value_whole by (unfold nano in Hl; lia). lia.
Qed.
Lemma admitted_limits isolation m :
  (0 < m)%Z → (Quantity_Value m * 90 ≤ max_int 64)%Z → positive_limit isolation "memoryHigh" = Ok tt → positive_limit isolation "memoryMax" = Ok tt →
  below_container isolation "memoryHigh" m = Ok tt → below_container isolation "memoryMax" m = Ok tt →
  ∃ high top, ResolveLoginUserIsolationMemoryLimits isolation m = (Some high, Some top) ∧ (0 ≤ high)%Z ∧ (0 ≤ top < m)%Z ∧
    (whole_bytes isolation "memoryMax" → (nano | top)%Z).
Proof.
  intros Hm Hb. unfold positive_limit, below_container, ResolveLoginUserIsolationMemoryLimits, whole_bytes.
  assert (0 ≤ Quantity_Value m)%Z by (pose proof (Value_bounds m); unfold nano in *; lia).
  destruct (derived_limit m 80) as (h & Hh & Hh0 & _); [lia..|]. destruct (derived_limit m 90) as (t & Ht & Ht0 & Htb); [lia..|]. rewrite Hh, Ht.
  assert (0 ≤ h * nano ∧ 0 ≤ t * nano)%Z by (unfold nano; lia).
  destruct (field_optint isolation ["memoryHigh"]) as [h'|], (field_optint isolation ["memoryMax"]) as [t'|]; intros P1 P2 B1 B2;
    repeat match goal with H : ensure _ _ = Ok tt |- _ => apply ensure_Ok, Z.ltb_lt in H end;
    eexists _, _; (split; [done|]); (split; [lia|]); (split; [lia|]); intros Hw; solve [by apply Hw|by exists t].
Qed.
(** The file of the login nodes: isolation on, a soft and a hard limit of so many bytes, and a weight. *)
Definition isolation_text (high top weight : Z) : string :=
  Join ["# Managed by soperator. Consumed by sshd_entrypoint.sh and the PAM session hook.";
        "# Memory values are in bytes (cgroup v2 memory.high / memory.max)."; "SOPERATOR_USER_ISOLATION_ENABLED=true";
        "SOPERATOR_USER_ISOLATION_MEMORY_HIGH=" +:+ Itoa high; "SOPERATOR_USER_ISOLATION_MEMORY_MAX=" +:+ Itoa top;
        "SOPERATOR_USER_ISOLATION_CPU_WEIGHT=" +:+ Itoa weight] newline.
(** C22: the memory limits of users on login nodes fit into their container.  For every SlurmCluster that the webhook admits with user
    isolation enabled, whose sshd container has some memory (of which ninety times the bytes fit into 64 bits): the file from which the
    login nodes set the limits is the six lines of [isolation_text], which say that isolation is on and give a soft and a hard limit for
    a user, in bytes, whether they were set or derived; the soft limit is not above the hard one, which is not above the memory of the
    container rounded up to bytes.  The hard limit is below the container's memory when it is derived or was given as a whole number of bytes; a
    fraction of a byte, which the webhook compares exactly, is rounded up in the file, and the limit can then be the memory itself
    ([fraction_reaches_memory]). *)
Theorem admitted_isolation_fits (cluster : resource) (namePrefix : string) (c : values_SlurmCluster) :
  SlurmCluster_ValidateCreate cluster = Ok tt → BuildSlurmClusterFrom cluster namePrefix = Ok c → isolationEnabled (sc_NodeLogin c) = true →
  let memory := field_int (o_body cluster) ["spec"; "slurmNodes"; "login"; "sshd"; "resources"; "memory"] in
  (0 < memory)%Z → (Quantity_Value memory * 90 ≤ max_int 64)%Z →
  ∃ high top weight,
    Render (generateUserIsolationConfig c) = isolation_text high top weight ∧ (0 ≤ high ≤ top)%Z ∧ (top ≤ Quantity_Value memory)%Z ∧
    (whole_bytes (subtree ["userIsolation"] (login_spec cluster)) "memoryMax" → (top * nano < memory)%Z).
Proof.
  intros Hv Hc He memory Hm Hb. destruct (built_login _ _ _ Hc) as [Hi Hmem].
  assert (field_int (login_spec cluster) ["sshd"; "resources"; "memory"] = memory) as Hmemory.
  { unfold login_spec, field_int, memory. by rewrite !lookup_subtree. }
  unfold isolationEnabled in He. rewrite Hi in He. destruct (has_field (login_spec cluster) ["userIsolation"]) eqn:Hf; [|done].
  unfold SlurmCluster_ValidateCreate, validateLoginUserIsolation in Hv. rewrite Hf, He, Hmemory in Hv. cbn [negb orb] in Hv.
  set (isolation := subtree ["userIsolation"] (login_spec cluster)) in *.
  destruct (positive_limit isolation "memoryHigh") as [[]|?|?] eqn:P1; [|done..]. cbn [obind] in Hv.
  destruct (positive_limit isolation "memoryMax") as [[]|?|?] eqn:P2; [|done..]. cbn [obind] in Hv.
  match type of Hv with obind ?m _ = _ => destruct m as [[]|?|?] eqn:Ho; [|done..] end. cbn [obind] in Hv.
  rewrite (proj2 (Z.leb_gt memory 0)) in Hv by lia. destruct (below_container isolation "memoryHigh" memory) as [[]|?|?] eqn:B1; [|done..]. cbn [obind] in Hv.
  destruct (admitted_limits isolation memory Hm Hb P1 P2 B1 Hv) as (high & top & Hr & Hh & Ht & Hw). rewrite Hr in Ho. apply ensure_Ok, Z.leb_le in Ho.
  destruct (below_Value memory top Ht) as [Hle Hlt]. pose proof (Value_mono high top (conj Hh Ho)) as Hmono.
  pose proof (Value_bounds high Hh) as Hhb. exists (Quantity_Value high), (Quantity_Value top). eexists. split_and!.
  - unfold generateUserIsolationConfig, isolationEnabled. rewrite Hi, Hmem, Hmemory. cbn [default from_option id]. fold isolation. rewrite Hr, He.
    reflexivity.
  - unfold nano in Hhb. lia.
  - done.
  - done.
  - intros Hwhole. by apply Hlt, Hw.
Qed.
(** The passwords of a protected database stay: the Secret which the controller makes for one passes the webhook, which is asked about it; no update of it
    is admitted, and no deletion while the cluster can be read. *)
Theorem password_secret_protected `{Rendering} (c : values_SlurmCluster) (name : string) (secret new : resource) (w : cluster_state) :
  RenderSecretMariaDb c name = Ok secret →
  selected_secret secret = true ∧ Secret_ValidateCreate secret = Ok tt ∧ Secret_ValidateUpdate secret new ≠ Ok tt ∧
  (quiet w → is_Some (w_objects w !! (SlurmCluster, sc_Namespace c, sc_Name c)) → (Secret_ValidateDelete secret w).2 ≠ Ok tt) ∧
  (quiet w → w_objects w !! (SlurmCluster, sc_Namespace c, sc_Name c) = None → Secret_ValidateDelete secret w = (w, Ok tt)).
Proof.
  unfold RenderSecretMariaDb. destruct generatePassword as [p|?|?]; [|done..]. intros [= <-]. split; [done|].
  assert (∀ l d, o_annotations (new_Secret (sc_Namespace c) name l {["slurm.nebius.ai/cluster" := sc_Name c]} d) !! AnnotationClusterName = Some (sc_Name c)) as Ha
    by (intros; apply lookup_singleton_eq).
  unfold Secret_ValidateCreate, Secret_ValidateDelete, bind, attempt. rewrite !Ha. split_and!; [done..| |].
  - intros Hq [cl Hcl]. rewrite Get_quiet by done. change (o_namespace (new_Secret _ _ _ _ _)) with (sc_Namespace c). by rewrite Hcl.
  - intros Hq Hcl. rewrite Get_quiet by done. change (o_namespace (new_Secret _ _ _ _ _)) with (sc_Namespace c). by rewrite Hcl.
Qed.
(** When the cluster cannot be read for another reason than that it does not exist, the deletion is admitted. *)
Example deletion_admitted_on_error :
  let cluster := Obj (SlurmCluster, "ns", "cl") 1 None ∅ ∅ ∅ (∅ : fields) (∅ : fields) in
  let w : cluster_state := World 2 {[o_key cluster := cluster]} [Event [] (Some (Refused (ErrAPI OtherAPI)))] in
  (Secret_ValidateDelete (Obj (Secret, "ns", "mariadb-password") 1 None ∅ {[AnnotationClusterName := "cl"]} ∅ ∅ ∅) w).2 = Ok tt.
Proof. vm_compute. reflexivity. Qed.
Definition isolated_cluster : resource :=
  Obj (SlurmCluster, "ns", "c") 1 None ∅ ∅ ∅
    (list_to_map (example_spec ++
       [(["spec"; "slurmNodes"; "login"; "userIsolation"; "enabled"], VBool true);
        (["spec"; "slurmNodes"; "login"; "userIsolation"; "memoryHigh"], VInt (1000 * nano));
        (["spec"; "slurmNodes"; "login"; "sshd"; "resources"; "memory"], VInt (4096 * nano))])) ∅.
Lemma admitted_isolation_fits_witness :
  ∃ c high top weight, BuildSlurmClusterFrom isolated_cluster "c" = Ok c ∧
    Render (generateUserIsolationConfig c) = isolation_text high top weight ∧ (0 ≤ high ≤ top)%Z ∧ (top ≤ 4096)%Z ∧
    (top * nano < 4096 * nano)%Z.
Proof.
  destruct (is_Ok_inv (BuildSlurmClusterFrom isolated_cluster "c")) as [c Hc]; [vm_compute; reflexivity|].
  assert (is_Ok (let? c := BuildSlurmClusterFrom isolated_cluster "c" in ensure (isolationEnabled (sc_NodeLogin c)) "") = true) as He by (vm_compute; reflexivity).
  rewrite Hc in He. cbn in He.
  assert (field_int (o_body isolated_cluster) ["spec"; "slurmNodes"; "login"; "sshd"; "resources"; "memory"] = 4096 * nano)%Z as Hm
    by (vm_compute; reflexivity).
  destruct (admitted_isolation_fits isolated_cluster "c" c) as (high & top & weight & Ht & Hle & Hv & Hw).
  - vm_compute. reflexivity.
  - exact Hc.
  - destruct (isolationEnabled _); [reflexivity|discriminate He].
  - rewrite Hm. reflexivity.
  - rewrite Hm. vm_compute. discriminate.
  - rewrite Hm in Hv, Hw. exists c, high, top, weight. split; [exact Hc|]. split; [exact Ht|]. split; [exact Hle|]. split; [exact Hv|].
    apply Hw. intros m Hx. vm_compute in Hx. discriminate Hx.
Defined.
(** A hard limit of 1073741823.5 bytes is below the memory of 1 GiB and is admitted; the file says 1 GiB. *)
Definition fraction_cluster : resource :=
  Obj (SlurmCluster, "ns", "c") 1 None ∅ ∅ ∅
    (list_to_map (example_spec ++
       [(["spec"; "slurmNodes"; "login"; "userIsolation"; "enabled"], VBool true);
        (["spec"; "slurmNodes"; "login"; "userIsolation"; "memoryMax"], VInt (1073741823 * nano + 500000000));
        (["spec"; "slurmNodes"; "login"; "sshd"; "resources"; "memory"], VInt (1073741824 * nano))])) ∅.
Example fraction_reaches_memory :
  SlurmCluster_ValidateCreate fraction_cluster = Ok tt ∧
  (let? c := BuildSlurmClusterFrom fraction_cluster "c" in Ok (Render (generateUserIsolationConfig c))) =
    Ok (isolation_text 858993459 1073741824 100).
Proof. split; vm_compute; reflexivity. Qed.
