(* ===== verification/NodeConfigurators.v ===== *)
(** * The node configurator

    [internal/controller/nodeconfigurator] and [internal/render/nodeconfigurator]: the DaemonSet that puts the rebooter, or a container of the
    user's, on the nodes. *)
From S2P Require Import Prelude GoStrings GoPaths Naming Effects MultiStep Reconciler Patchers Ownership QuietRuns Workers ClusterValues ConfigTexts SlurmConfigs.
From S2P Require Import PodParts WorkerPods.
From Stdlib Require String.

(** ** Containers ([container.go]) *)
Definition ncSpec (nc : resource) : fields := subtree ["spec"] (o_body nc).
Definition Rebooter (b : fields) : fields := subtree ["rebooter"] b.
Definition CustomContainerSpec (b : fields) : fields := subtree ["customContainer"] b.
Definition Enabled (c : fields) : bool := bool_at c ["enabled"].
Definition createSecurityContext (privileged : bool) (runAsUser runAsGroup : Z) (readOnlyRootFilesystem allowPrivilegeEscalation : bool)
    (dropCapabilities : list string) : SecurityContext :=
  mkSecurityContext (Some privileged) [] dropCapabilities None None None (Some runAsUser) (Some runAsGroup) (Some (negb privileged))
    (Some readOnlyRootFilesystem) (Some (if privileged then true else allowPrivilegeEscalation)).
(** Limits and requests. *)
Definition createResourceRequirements (limitsMemory requestsCPU requestsMemory : Z) : ResourceList * ResourceList :=
  ({["memory" := limitsMemory]}, {["cpu" := requestsCPU; "memory" := requestsMemory]}).
Definition requirements_of (c : fields) : ResourceList * ResourceList :=
  let limits := ints_at c ["resources"; "limits"] in
  let requests := ints_at c ["resources"; "requests"] in
  createResourceRequirements (quantity limits "memory") (quantity requests "cpu") (quantity requests "memory").
Definition renderContainerRebooter (r : fields) : core_Container :=
  let '(limits, requests) := requirements_of r in
  mkCoreContainer "rebooter" (GetURI (subtree ["image"] r)) ["/usr/bin/rebooter"]
    ["-log-level=" +:+ field_str r ["logLevel"]; "-log-format=" +:+ field_str r ["logFormat"]] ""
    ((env_of <$> list_at r ["env"]) ++
     [text_env "REBOOTER_EVICTION_METHOD" (field_str r ["evictionMethod"]); mkEnvVar "REBOOTER_NODE_NAME" (EnvFieldRef "" "spec.nodeName")])
    None (field_str r ["image"; "pullPolicy"]) [] [] (optsubtree ["readinessProbe"] r) (optsubtree ["livenessProbe"] r)
    (Some (createSecurityContext true 0 0 true true [])) limits requests None.
Definition renderCustomContainer (c : fields) : core_Container :=
  let '(limits, requests) := requirements_of c in
  let name := field_str c ["name"] in
  mkCoreContainer (if String.eqb name "" then "custom-container" else name) (GetURI (subtree ["image"] c)) (field_strs c ["command"]) [] ""
    (env_of <$> list_at c ["env"]) None "" [] [] (optsubtree ["readinessProbe"] c) (optsubtree ["livenessProbe"] c)
    (Some (createSecurityContext false 65534 65534 true false ["ALL"])) limits requests None.
Definition renderContainers (b : fields) : list core_Container :=
  if Enabled (Rebooter b) then [renderContainerRebooter (Rebooter b)]
  else if Enabled (CustomContainerSpec b) then [renderCustomContainer (CustomContainerSpec b)]
  else [].

(** ** The pod ([pod.go]) *)
(** The rebooter's setting, or that of the user's container. *)
Definition chosen (b : fields) : fields := if Enabled (Rebooter b) then Rebooter b else CustomContainerSpec b.
Definition getAffinity (b : fields) : fields := subtree ["affinity"] (chosen b).
Definition getTolerations (b : fields) : fields := subtree ["tolerations"] (chosen b).
Definition getNodeSelector (b : fields) : fields := subtree ["nodeSelector"] (chosen b).
Definition getServiceAccountName (b : fields) : string := field_str (chosen b) ["serviceAccountName"].
Definition getPriorityClassName (b : fields) : string := field_str (chosen b) ["priorityClassName"].
Definition getHostUsers (b : fields) : option bool := field_optbool (chosen b) ["hostUsers"].
Definition nc_renderPodSpec (b : fields) : PodSpec :=
  {| pod_HostUsers := getHostUsers b; pod_ReadinessGates := []; pod_PriorityClassName := getPriorityClassName b;
     pod_ServiceAccountName := getServiceAccountName b; pod_ImagePullSecrets := ∅; pod_Affinity := getAffinity b;
     pod_NodeSelector := getNodeSelector b; pod_Tolerations := getTolerations b;
     pod_InitContainers := CustomContainer <$> list_at b ["initContainers"]; pod_Containers := Rendered <$> renderContainers b; pod_Volumes := [];
     pod_Hostname := ""; pod_Subdomain := ""; pod_DNSPolicy := ""; pod_DNSSearches := []; pod_RestartPolicy := "";
     pod_TerminationGracePeriodSeconds := None; pod_ActiveDeadlineSeconds := None; pod_SecurityContext := None; pod_SchedulerName := "";
     pod_HostNetwork := bool_at b ["hostNetwork"]; pod_HostIPC := bool_at b ["hostIPC"]; pod_HostPID := Enabled (Rebooter b);
     pod_ShareProcessNamespace := Some (bool_at b ["shareProcessNamespace"]) |}.
Definition LabelNodeConfiguratorKey : string := "slurm.nebius.ai/node-configurator".
Definition nc_renderLabels (name : string) : gmap string string * gmap string string :=
  (<[LabelNodeConfiguratorKey := "true"]> (RenderLabels ComponentTypeNodeConfigurator name),
   <[LabelNodeConfiguratorKey := "true"]> (RenderMatchLabels ComponentTypeNodeConfigurator name)).

(** ** The DaemonSet ([daemonset.go]) *)
Section daemonSet.
  Context `{PodJSON}.
Definition RenderDaemonSet (nc : resource) (namespace : string) : resource :=
  let '(labels, matchLabels) := nc_renderLabels (o_name nc) in
  new DaemonSet namespace (o_name nc +:+ "-ds") labels ∅
    (list_to_map [(["spec"; "updateStrategy"; "type"], VStr "RollingUpdate");
                  (["spec"; "updateStrategy"; "rollingUpdate"; "maxUnavailable"], VStr "20%")] ∪
     at_path ["spec"; "selector"; "matchLabels"] matchLabels ∪ at_path ["spec"; "template"; "metadata"; "labels"] labels ∪
     below ["spec"; "template"; "spec"] (encode_pod (nc_renderPodSpec (ncSpec nc)))).

(** ** The controller *)
Definition nc_fields : list path := [["spec"; "updateStrategy"]; ["spec"; "template"; "spec"]].
Definition nc_patch (existing desired : resource) : resource := with_body (copy_fields nc_fields (o_body desired) (o_body existing)) existing.
Definition EnsureResourceDeployed (owner : string) (existing : option resource) (desired : resource) : M cluster_state () :=
  let! desired := lift (SetControllerReference owner desired) in
  match existing with
  | None => client_Create desired
  | Some existing => let! _ := client_Patch existing (nc_patch existing desired) in ret tt
  end.
Definition NodeConfigurator_Reconcile (namespace name : string) : M cluster_state () :=
  let! got := attempt (client_Get (NodeConfigurator, namespace, name)) in
  match got with
  | inr err => if IsNotFound err then ret tt else fail err
  | inl nc =>
      if has_field (o_body nc) ["metadata"; "deletionTimestamp"] then ret tt
      else
        let desired := RenderDaemonSet nc namespace in
        let! got := attempt (client_Get (o_key desired)) in
        match got with
        | inl existing => EnsureResourceDeployed (o_uid nc) (Some existing) desired
        | inr err => if IsNotFound err then EnsureResourceDeployed (o_uid nc) None desired else fail err
        end
  end.

(** ** Results *)
Definition nc_settled (nc : resource) (namespace : string) (w : cluster_state) : Prop :=
  let d := RenderDaemonSet nc namespace in
  ∃ o, w_objects w !! o_key d = Some o ∧ o_key o = o_key d ∧ nc_patch o d = o.
Lemma nc_controlled owner nc namespace :
  SetControllerReference owner (RenderDaemonSet nc namespace) = Ok (with_controller owner (RenderDaemonSet nc namespace)).
Proof. done. Qed.
Lemma nc_fixed nc namespace name (w : cluster_state) :
  quiet w → w_objects w !! (NodeConfigurator, namespace, name) = Some nc → has_field (o_body nc) ["metadata"; "deletionTimestamp"] = false →
  nc_settled nc namespace w → NodeConfigurator_Reconcile namespace name w = (w, Ok tt).
Proof.
  intros Hq Hn Hd (o & Ho & Hk & Hp). unfold NodeConfigurator_Reconcile, bind, attempt. rewrite Get_quiet, Hn by done. cbn zeta iota. rewrite Hd.
  rewrite Get_quiet, Ho by done. cbn zeta iota. unfold EnsureResourceDeployed, bind, lift. rewrite nc_controlled.
  assert (nc_patch o (with_controller (o_uid nc) (RenderDaemonSet nc namespace)) = o) as -> by exact Hp.
  unfold client_Patch, write. rewrite quiet_request, Hk, Ho, patched_same by done. unfold store. by rewrite decide_True.
Qed.
(** The node configurator converges: with no other client and no failing request, a reconciliation of an object that is not being deleted
    succeeds; afterwards the DaemonSet is on the server with the rendered update strategy and exactly the rendered pod; all other objects are
    as they were, and a second reconciliation changes nothing. *)
Theorem node_configurator_converges (namespace name : string) (nc : resource) (w : cluster_state) :
  quiet w → filed w → w_objects w !! (NodeConfigurator, namespace, name) = Some nc →
  has_field (o_body nc) ["metadata"; "deletionTimestamp"] = false →
  let d := RenderDaemonSet nc namespace in
  ∃ w' o, NodeConfigurator_Reconcile namespace name w = (w', Ok tt) ∧ w_objects w' !! o_key d = Some o ∧
    (∀ q, o_body o !! (["spec"; "template"; "spec"] ++ q) = encode_pod (nc_renderPodSpec (ncSpec nc)) !! q) ∧
    (∀ q, o_body o !! (["spec"; "updateStrategy"] ++ q) = o_body d !! (["spec"; "updateStrategy"] ++ q)) ∧
    (∀ k, k ≠ o_key d → w_objects w' !! k = w_objects w !! k) ∧ NodeConfigurator_Reconcile namespace name w' = (w', Ok tt).
Proof.
  intros Hq Hf Hn Hdel d.
  assert (∀ q, o_body d !! (["spec"; "template"; "spec"] ++ q) = encode_pod (nc_renderPodSpec (ncSpec nc)) !! q) as Hpod.
  { intros q. unfold d, RenderDaemonSet. cbn [nc_renderLabels o_body new].
    rewrite !lookup_union, lookup_below, !lookup_at_path_None by (intros [x Hx]; discriminate Hx). cbn [list_to_map foldr uncurry].
    rewrite !lookup_insert_ne by done. rewrite lookup_empty. by rewrite !(left_id_L None _). }
  assert (∃ w', NodeConfigurator_Reconcile namespace name w = (w', Ok tt) ∧ quiet w' ∧ nc_settled nc namespace w' ∧
    ∀ k, k ≠ o_key d → w_objects w' !! k = w_objects w !! k) as (w' & Hr & Hq' & Hs & Hfr).
  { unfold NodeConfigurator_Reconcile, bind, attempt. rewrite Get_quiet, Hn by done. cbn zeta iota. rewrite Hdel, Get_quiet by done. fold d.
    unfold nc_settled. fold d. destruct (w_objects w !! o_key d) as [e|] eqn:He; cbn zeta iota.
    - pose proof (Hf _ _ He) as Hk. unfold EnsureResourceDeployed, bind, lift, d. rewrite nc_controlled. fold d.
      unfold client_Patch, write. rewrite quiet_request, Hk, He, patched_exact by done. unfold store.
      assert (∀ c, nc_patch e (with_controller c d) = nc_patch e d) as Hc by done. rewrite Hc.
      destruct (decide (nc_patch e d = e)) as [Heq|Hne].
      + exists w. split_and!; [done..| |done]. by exists e.
      + eexists. split_and!; [done..| |intros k Hkne; cbn; by rewrite lookup_insert_ne].
        eexists. split; [cbn; apply lookup_insert_eq|]. split; [done|]. unfold nc_patch, with_body, with_version. cbn. by rewrite copy_fields_again.
    - assert (IsNotFound (ErrAPI NotFound) = true) as -> by done. unfold EnsureResourceDeployed, bind, lift, d. rewrite nc_controlled. fold d.
      unfold client_Create. rewrite quiet_request by done. cbn [o_key with_controller]. rewrite He.
      eexists. split_and!; [done..| |intros k Hkne; cbn; by rewrite lookup_insert_ne].
      eexists. split; [cbn; apply lookup_insert_eq|]. split; [done|]. unfold nc_patch, with_body, with_version, with_controller. cbn. by rewrite copy_fields_same. }
  pose proof Hs as (o & Ho & Hk & Hp). exists w', o.
  assert (∀ p q, p ∈ nc_fields → o_body o !! (p ++ q) = o_body d !! (p ++ q)) as Hb.
  { intros p q Hin. rewrite <-Hp. cbn. rewrite lookup_copy_fields, decide_True; [done|]. apply Exists_exists. exists p. split; [done|by eexists]. }
  split_and!; [done..| | |done|].
  - intros q. rewrite <-Hpod. apply Hb. right. left.
  - intros q. apply Hb. left.
  - apply nc_fixed with nc; try done. rewrite Hfr; [done|]. intros E. by injection E.
Qed.
End daemonSet.

(** What a container may do to its node. *)
Definition privileged_container (c : core_Container) : Prop :=
  match c_SecurityContext c with
  | Some s => sec_Privileged s = Some true ∨ sec_AllowPrivilegeEscalation s ≠ Some false ∨ sec_Add s ≠ [] ∨ sec_RunAsNonRoot s ≠ Some true
  | None => True
  end.
(** Only the rebooter is privileged: the pod shares the processes of the node exactly if the rebooter is enabled, and then the rebooter is its only rendered
    container; otherwise every rendered container runs as nobody, cannot gain privileges, has no capability and cannot write to its root. *)
Theorem only_rebooter_privileged (b : fields) (c : core_Container) :
  let pod := nc_renderPodSpec b in
  (pod_HostPID pod = true → pod_Containers pod = [Rendered (renderContainerRebooter (Rebooter b))]) ∧
  (pod_HostPID pod = false → Rendered c ∈ pod_Containers pod →
     ¬ privileged_container c ∧ ∃ s, c_SecurityContext c = Some s ∧ sec_RunAsUser s = Some 65534%Z ∧ sec_Drop s = ["ALL"] ∧
       sec_ReadOnlyRootFilesystem s = Some true).
Proof.
  cbn [nc_renderPodSpec pod_HostPID pod_Containers]. unfold renderContainers. split; intros He; rewrite He; [done|].
  destruct (Enabled (CustomContainerSpec b)); [|by intros Hc%not_elem_of_nil]. cbn [fmap list_fmap]. intros Hc%list_elem_of_singleton.
  injection Hc as ->. unfold renderCustomContainer. destruct (requirements_of _) as [limits requests]. cbn. split.
  - intros [Hp|[Hp|[Hp|Hp]]]; by (discriminate Hp || apply Hp).
  - eexists. by split_and!.
Qed.

(** The pull policy of the user's image is dropped; with both containers disabled the pod has none, which the API server refuses. *)
Definition ex_nc (enabled : bool) : resource :=
  Obj (NodeConfigurator, "ns", "nc") 1 None ∅ ∅ ∅
    (list_to_map [(["spec"; "customContainer"; "enabled"], VBool enabled); (["spec"; "customContainer"; "image"; "repository"], VStr "tool");
                  (["spec"; "customContainer"; "image"; "tag"], VStr "1"); (["spec"; "customContainer"; "image"; "pullPolicy"], VStr "Always")]) ∅.
Example custom_pull_policy_dropped : c_ImagePullPolicy <$> renderContainers (ncSpec (ex_nc true)) = [""] ∧ renderContainers (ncSpec (ex_nc false)) = [].
Proof. split; vm_compute; reflexivity. Qed.
Definition nc_world : cluster_state := World 2 {[(NodeConfigurator, "ns", "nc") := ex_nc true]} [].
Lemma node_configurator_converges_witness :
  ∃ w' o, @NodeConfigurator_Reconcile json_example "ns" "nc" nc_world = (w', Ok tt) ∧ w_objects w' !! (DaemonSet, "ns", "nc-ds") = Some o ∧
    o_body o !! ["spec"; "template"; "spec"; "containers"] = Some (VRaw "[]").
Proof.
  destruct (@node_configurator_converges json_example "ns" "nc" (ex_nc true) nc_world) as (w' & o & Hr & Ho & Hb & _).
  - reflexivity.
  - intros k x Hx. cbn in Hx. apply lookup_singleton_Some in Hx as [<- <-]. reflexivity.
  - reflexivity.
  - vm_compute. reflexivity.
  - exists w', o. split; [exact Hr|]. split; [exact Ho|]. pose proof (Hb ["containers"]) as Hc. cbn [app] in Hc. rewrite Hc.
    vm_compute. reflexivity.
Defined.
