(* ===== verification/PowerManager.v ===== *)
(** * Power manager: resume and suspend of ephemeral nodes

    [cmd/powermanager/main.go].  Slurm's ResumeProgram and SuspendProgram call it
    with a host list; it adds the ordinals to, or removes them from, the
    [NodeSetPowerState] object of every ephemeral NodeSet named.

    The API server is a store of objects with resource versions, and other clients
    write to it between any two calls: a [call_event] is consumed by each call and
    says what the others wrote before it and whether the call itself fails (a failed
    call writes nothing).  Name spaces are left out: every call of a run uses one. *)
From S2P Require Import Prelude GoStrings Kube HostList.
From Stdlib Require Import Ascii.
From Stdlib Require String.

(** ** Parsing the host list *)
Record NodeRef := mkNodeRef { NodeSetName : string; Ordinal : Z }.
Global Instance NodeRef_eq_dec : EqDecision NodeRef.
Proof. solve_decision. Defined.

(** [splitNodeList] has the loop of [splitNodeString] of [slurmapi]. *)
Definition splitNodeList (nodeList : string) : list string := splitLoop nodeList 0 "".

(** The first match of a pattern whose leading group [(.+)] is greedy: [test i] tries
    the group of length [i], the longest first. *)
Definition greedy {A} (test : nat → option A) (s : string) : option A :=
  head (omap test (rev (seq 1 (String.length s)))).
(** [^(.+)-\[([^\]]+)\]$] *)
Definition bracketPattern (s : string) : option (string * string) :=
  greedy (λ i,
    let g1 := str_take i s in
    let rest := str_drop (i + 2) s in
    let g2 := str_take (String.length rest - 1) rest in
    if no_char "010" g1 && HasPrefix (str_drop i s) "-[" && no_char "]" g2
       && negb (String.eqb g2 "") && String.eqb rest (g2 +:+ "]")
    then Some (g1, g2) else None) s.
(** [^(.+)-(\d+)$] *)
Definition simplePattern (s : string) : option (string * string) :=
  greedy (λ i,
    let g1 := str_take i s in
    let g2 := str_drop (i + 1) s in
    if no_char "010" g1 && HasPrefix (str_drop i s) "-" && isDigits g2 && negb (String.eqb g2 "")
    then Some (g1, g2) else None) s.

Definition parseRangePart (part : string) : outcome (list Z) :=
  let part := TrimSpace part in
  if Contains part "-" then
    match SplitN2 part "-" with
    | [a; b] =>
        match ParseInt 32 a with
        | None => Err (ErrMsg "invalid range start")
        | Some start =>
            match ParseInt 32 b with
            | None => Err (ErrMsg "invalid range end")
            | Some end_ => Ok (seqZ start (end_ - start + 1))
            end
        end
    | _ => Err (ErrMsg "invalid range")
    end
  else match ParseInt 32 part with
       | None => Err (ErrMsg "invalid number")
       | Some num => Ok [num]
       end.
Definition parseRangeSpec (spec : string) : outcome (list Z) :=
  collect parseRangePart (Split spec ",").
Definition parseNodeRange (nodeRange : string) : outcome (list NodeRef) :=
  match bracketPattern nodeRange with
  | Some (nodeSetName, rangeSpec) =>
      let? ordinals := parseRangeSpec rangeSpec in Ok (mkNodeRef nodeSetName <$> ordinals)
  | None =>
      match simplePattern nodeRange with
      | Some (nodeSetName, digits) =>
          match ParseInt 32 digits with
          | None => Err (ErrMsg "value out of range")
          | Some ordinal => Ok [mkNodeRef nodeSetName ordinal]
          end
      | None => Err (ErrMsg "invalid node range format")
      end
  end.
Definition parseNodeList (nodeList : string) : outcome (list NodeRef) :=
  collect (λ part, wrap_err "failed to parse node range" (parseNodeRange part))
    (splitNodeList nodeList).

Definition groupNodesByNodeSet (refs : list NodeRef) : gmap string (list Z) :=
  foldl (λ result ref,
    <[NodeSetName ref := default [] (result !! NodeSetName ref) ++ [Ordinal ref]]> result) ∅ refs.

Example pm_parse1 :
  parseNodeList "worker-[0-2,5],gpu-x-[1-2] , a-7" =
  Ok [mkNodeRef "worker" 0; mkNodeRef "worker" 1; mkNodeRef "worker" 2; mkNodeRef "worker" 5;
      mkNodeRef "gpu-x" 1; mkNodeRef "gpu-x" 2; mkNodeRef "a" 7].
Proof. vm_compute. reflexivity. Qed.
Example pm_parse2 :
  parseNodeList "invalid" =
  Err (ErrWrap "failed to parse node range" (ErrMsg "invalid node range format")).
Proof. vm_compute. reflexivity. Qed.

(** ** The API server *)
Record powerState := PowerState {
  ps_resourceVersion : Z;
  ps_NodeSetRef : string;
  ps_ActiveNodes : list Z
}.
Record nodeSet := NodeSet { nodeset_Name : string; nodeset_EphemeralNodes : option bool }.
(** What the other clients write: an object's active nodes, or its deletion. *)
Record call_event := CallEvent {
  ev_writes : list (string * option (list Z));
  ev_fault : option api_reason
}.
Record world := World {
  w_nextRV : Z;
  w_powerStates : gmap string powerState;
  w_nodeSets : list nodeSet;
  w_script : list call_event
}.

Definition put (name ref : string) (active : list Z) (w : world) : world :=
  World (w_nextRV w + 1) (<[name := PowerState (w_nextRV w) ref active]> (w_powerStates w))
    (w_nodeSets w) (w_script w).
Definition remove (name : string) (w : world) : world :=
  World (w_nextRV w) (delete name (w_powerStates w)) (w_nodeSets w) (w_script w).
Definition other_write (w : world) (wr : string * option (list Z)) : world :=
  match wr with
  | (name, Some active) => put name name active w
  | (name, None) => remove name w
  end.

(** One request: the others' writes, then the fault or the request itself. *)
Definition request {A} (op : M world A) : M world A := λ w,
  match w_script w with
  | [] => op w
  | ev :: script =>
      let w1 := foldl other_write (World (w_nextRV w) (w_powerStates w) (w_nodeSets w) script)
                  (ev_writes ev) in
      match ev_fault ev with
      | Some r => (w1, Err (ErrAPI r))
      | None => op w1
      end
  end.
Definition client_Get (name : string) : M world powerState :=
  request (λ w, match w_powerStates w !! name with
                | None => (w, Err (ErrAPI NotFound))
                | Some o => (w, Ok o)
                end).
Definition client_Create (name : string) (ref : string) (active : list Z) : M world () :=
  request (λ w, match w_powerStates w !! name with
                | Some _ => (w, Err (ErrAPI AlreadyExists))
                | None => (put name ref active w, Ok tt)
                end).
Definition client_Update (name : string) (o : powerState) : M world () :=
  request (λ w, match w_powerStates w !! name with
                | None => (w, Err (ErrAPI NotFound))
                | Some cur =>
                    if (ps_resourceVersion cur =? ps_resourceVersion o)%Z
                    then (put name (ps_NodeSetRef o) (ps_ActiveNodes o) w, Ok tt)
                    else (w, Err (ErrAPI Conflict))
                end).
Definition client_ListNodeSets : M world (list nodeSet) := request (gets w_nodeSets).

(** ** Updating the power state *)

(** The set of active ordinals as the code builds it, then sorted. *)
Definition newActiveNodes (active ordinals : list Z) (resume : bool) : list Z :=
  let current : gset Z := list_to_set active in
  let new := if resume then foldl (λ s ord, {[ord]} ∪ s) current ordinals
             else foldl (λ s ord, s ∖ {[ord]}) current ordinals in
  merge_sort Z.le (elements new).

Definition updateAttempt (nodeSetName : string) (ordinals : list Z) (resume : bool) : M world () :=
  let! got := attempt (client_Get nodeSetName) in
  match got with
  | inr err =>
      if IsNotFound err
      then wrapM "failed to create NodeSetPowerState" (client_Create nodeSetName nodeSetName [])
      else fail (ErrWrap "failed to get NodeSetPowerState" err)
  | inl o =>
      client_Update nodeSetName
        (PowerState (ps_resourceVersion o) (ps_NodeSetRef o)
           (newActiveNodes (ps_ActiveNodes o) ordinals resume))
  end.
Definition updateNodeSetPowerState (steps : nat) (nodeSetName : string) (ordinals : list Z)
    (resume : bool) : M world () :=
  RetryOnConflict steps (updateAttempt nodeSetName ordinals resume).

Definition checkNodesStatus (nodeSetName : string) (ordinals : list Z) (checkAdded : bool) : M world bool :=
  let! o := wrapM "failed to get NodeSetPowerState" (client_Get nodeSetName) in
  let activeSet : gset Z := list_to_set (ps_ActiveNodes o) in
  ret (if checkAdded then forallb (λ ord, bool_decide (ord ∈ activeSet)) ordinals
       else forallb (λ ord, negb (bool_decide (ord ∈ activeSet))) ordinals).

(** ** The commands

    [order] is the order in which Go ranges over the map of NodeSets;
    [createClient] is the outcome of building the client. *)
Section commands.
  Context (steps : nat) (createClient : outcome ()) (order : gmap string (list Z) → list (string * list Z)).

Definition powerOne (nodeSets : list nodeSet) (resume : bool) (entry : string * list Z) : M world () :=
  let '(nodeSetName, ordinals) := entry in
  match last (filter (λ ns, nodeset_Name ns = nodeSetName) nodeSets) with
  | None => ret tt
  | Some ns =>
      match nodeset_EphemeralNodes ns with
      | Some true => updateNodeSetPowerState steps nodeSetName ordinals resume
      | _ => ret tt
      end
  end.
Definition runPowerAction (nodes : string) (resume : bool) : M world () :=
  do! wrapM "failed to create kubernetes client" (lift createClient);
  let! nodeRefs := wrapM "failed to parse node list" (lift (parseNodeList nodes)) in
  let nodesByNodeSet := groupNodesByNodeSet nodeRefs in
  let! nodeSets := wrapM "failed to list NodeSets" client_ListNodeSets in
  forM (order nodesByNodeSet) (powerOne nodeSets resume).

(** One tick: every NodeSet is looked at; an error counts as not done. *)
Fixpoint checkAll (entries : list (string * list Z)) (waitForAdded : bool) : M world bool :=
  match entries with
  | [] => ret true
  | (nodeSetName, ordinals) :: entries =>
      let! st := attempt (checkNodesStatus nodeSetName ordinals waitForAdded) in
      let! rest := checkAll entries waitForAdded in
      ret (match st with inl done => done && rest | inr _ => false end)
  end.
(** [ticks] is the number of polls before the deadline. *)
Fixpoint waitLoop (ticks : nat) (byNodeSet : gmap string (list Z)) (waitForAdded : bool) : M world () :=
  match ticks with
  | 0%nat => fail (ErrMsg "timeout waiting for nodes")
  | S ticks =>
      let! allDone := checkAll (order byNodeSet) waitForAdded in
      if allDone : bool then ret tt else waitLoop ticks byNodeSet waitForAdded
  end.
Definition waitForNodes (nodes : string) (ticks : nat) (waitForAdded : bool) : M world () :=
  do! wrapM "failed to create kubernetes client" (lift createClient);
  let! nodeRefs := wrapM "failed to parse node list" (lift (parseNodeList nodes)) in
  waitLoop ticks (groupNodesByNodeSet nodeRefs) waitForAdded.
End commands.

(** ** The active set *)
Lemma elem_of_newActive active ordinals resume n :
  n ∈ newActiveNodes active ordinals resume ↔
  if resume then n ∈ active ∨ n ∈ ordinals else n ∈ active ∧ n ∉ ordinals.
Proof.
  unfold newActiveNodes. rewrite elem_of_sort, elem_of_elements.
  assert (∀ s : gset Z, n ∈ foldl (λ s ord, {[ord]} ∪ s) s ordinals ↔ n ∈ s ∨ n ∈ ordinals) as Hadd.
  { induction ordinals as [|o ords IH]; intros s; simpl.
    - rewrite elem_of_nil. tauto.
    - rewrite IH, elem_of_union, elem_of_singleton, elem_of_cons. tauto. }
  assert (∀ s : gset Z, n ∈ foldl (λ s ord, s ∖ {[ord]}) s ordinals ↔ n ∈ s ∧ n ∉ ordinals) as Hdel.
  { clear Hadd. induction ordinals as [|o ords IH]; intros s; simpl.
    - rewrite elem_of_nil. tauto.
    - rewrite IH, elem_of_difference, not_elem_of_singleton, not_elem_of_cons. tauto. }
  destruct resume; [rewrite Hadd|rewrite Hdel]; by rewrite elem_of_list_to_set.
Qed.
Lemma newActive_NoDup active ordinals resume : NoDup (newActiveNodes active ordinals resume).
Proof. apply NoDup_sort, NoDup_elements. Qed.
Lemma newActive_Sorted active ordinals resume : Sorted Z.le (newActiveNodes active ordinals resume).
Proof. apply (Sorted_merge_sort Z.le). Qed.

(** ** Other clients *)
Definition with_script (script : list call_event) (w : world) : world :=
  World (w_nextRV w) (w_powerStates w) (w_nodeSets w) script.
(** [w'] is [w] after some requests and writes of the other clients. *)
Definition others (w w' : world) : Prop :=
  ∃ script writes, w' = foldl other_write (with_script script w) writes.

Lemma other_write_script script w wr :
  other_write (with_script script w) wr = with_script script (other_write w wr).
Proof. by destruct wr as [name [active|]]. Qed.
Lemma other_writes_script script w wrs :
  foldl other_write (with_script script w) wrs = with_script script (foldl other_write w wrs).
Proof. revert w. induction wrs as [|wr wrs IH]; intros w; simpl; [done|]. by rewrite other_write_script. Qed.
Global Instance others_preorder : PreOrder others.
Proof.
  split.
  - intros w. exists (w_script w), []. by destruct w.
  - intros w1 w2 w3 (s1 & l1 & ->) (s2 & l2 & ->). exists s2, (l1 ++ l2).
    by rewrite !other_writes_script, foldl_app.
Qed.
Lemma others_nodeSets w w' : others w w' → w_nodeSets w' = w_nodeSets w.
Proof.
  intros (s & l & ->). rewrite other_writes_script. simpl. revert w.
  induction l as [|[name [a|]] l IH]; intros w; simpl; [done|by rewrite IH..].
Qed.

Lemma request_others {A} (op : M world A) w w' r :
  request op w = (w', r) →
  (∃ w1, others w w1 ∧ op w1 = (w', r)) ∨ (others w w' ∧ ∃ reason, r = Err (ErrAPI reason)).
Proof.
  unfold request. destruct (w_script w) as [|ev script].
  - intros Hop. left. by exists w.
  - destruct (ev_fault ev) as [reason|]; [right|left].
    + simplify_eq. split; [|eauto]. by eexists script, _.
    + eexists. split; [by eexists script, _|done].
Qed.

(** Resource versions are handed out once. *)
Definition fresh (w : world) : Prop :=
  ∀ name o, w_powerStates w !! name = Some o → (ps_resourceVersion o < w_nextRV w)%Z.
Lemma put_fresh name ref active w : fresh w → fresh (put name ref active w).
Proof.
  intros Hf n o. simpl. rewrite lookup_insert. case_decide; [|].
  - intros [= <-]. simpl. lia.
  - intros Ho%Hf. lia.
Qed.
Lemma other_write_fresh w wr : fresh w → fresh (other_write w wr).
Proof.
  intros Hf. destruct wr as [name [active|]]; [by apply put_fresh|].
  intros n o. simpl. intros [_ Ho]%lookup_delete_Some. by apply (Hf n).
Qed.
Lemma others_fresh w w' : others w w' → fresh w → fresh w'.
Proof.
  intros (s & l & ->). rewrite other_writes_script. unfold fresh at 2. simpl.
  fold (fresh (foldl other_write w l)). revert w.
  induction l as [|wr l IH]; intros w Hf; simpl; [done|]. by apply IH, other_write_fresh.
Qed.
(** An object read before has either kept its version and value or got a newer
    version. *)
Lemma others_version w w' name o cur :
  fresh w → others w w' → w_powerStates w !! name = Some o → w_powerStates w' !! name = Some cur →
  cur = o ∨ (w_nextRV w ≤ ps_resourceVersion cur)%Z.
Proof.
  intros Hf (s & l & ->) Ho. rewrite other_writes_script. simpl.
  assert (∀ w0, (w_nextRV w ≤ w_nextRV w0)%Z →
    (∀ c, w_powerStates w0 !! name = Some c → c = o ∨ (w_nextRV w ≤ ps_resourceVersion c)%Z) →
    w_powerStates (foldl other_write w0 l) !! name = Some cur →
    cur = o ∨ (w_nextRV w ≤ ps_resourceVersion cur)%Z) as Hind; [|apply Hind; [lia|naive_solver]].
  clear Ho. induction l as [|[n [active|]] l IH]; intros w0 Hle Hc; simpl; [apply Hc|apply IH; simpl..].
  - lia.
  - intros c. rewrite lookup_insert. case_decide; [|apply Hc]. intros [= <-]. right. simpl. lia.
  - done.
  - intros c [_ ?]%lookup_delete_Some. by apply Hc.
Qed.
Lemma version_unchanged w w' name o cur :
  fresh w → others w w' → w_powerStates w !! name = Some o → w_powerStates w' !! name = Some cur →
  ps_resourceVersion cur = ps_resourceVersion o → cur = o.
Proof.
  intros Hf Hw Ho Hc Hv. destruct (others_version w w' name o cur) as [|Hle]; [done..|].
  specialize (Hf _ _ Ho). lia.
Qed.

(** ** The calls, seen through the others *)
(** What the intention of a resume or suspend is: the active nodes become the old ones with the ordinals or without them. *)
Definition applied (resume : bool) (ordinals old new : list Z) : Prop :=
  Sorted Z.le new ∧ NoDup new ∧ ∀ n, n ∈ new ↔ if resume then n ∈ old ∨ n ∈ ordinals else n ∈ old ∧ n ∉ ordinals.
Definition active_nodes (name : string) (w : world) : option (list Z) := ps_ActiveNodes <$> w_powerStates w !! name.
Lemma newActive_applied active ordinals resume : applied resume ordinals active (newActiveNodes active ordinals resume).
Proof. split_and!; [apply newActive_Sorted|apply newActive_NoDup|apply elem_of_newActive]. Qed.
(** What the code does. *)
Definition update_result (name : string) (ordinals : list Z) (resume : bool) (w : world) : world :=
  match w_powerStates w !! name with
  | Some o => put name (ps_NodeSetRef o) (newActiveNodes (ps_ActiveNodes o) ordinals resume) w
  | None => put name name [] w
  end.
Definition atomic_result (name : string) (ordinals : list Z) (resume : bool)
    (w w' : world) (r : outcome ()) : Prop :=
  match r with
  | Ok _ => ∃ w1, others w w1 ∧ w' = update_result name ordinals resume w1
  | Err _ => others w w'
  | Halt _ => False
  end.

Lemma client_Get_spec name w w' r :
  client_Get name w = (w', r) →
  others w w' ∧
  match r with
  | Ok o => w_powerStates w' !! name = Some o
  | Err _ => True
  | Halt _ => False
  end.
Proof.
  unfold client_Get. intros [(w1 & Hw & E)|[Hw [reason ->]]]%request_others; [|done].
  destruct (w_powerStates w1 !! name) eqn:Eo; by simplify_eq.
Qed.

Lemma updateAttempt_atomic name ordinals resume w w' r :
  fresh w → updateAttempt name ordinals resume w = (w', r) → atomic_result name ordinals resume w w' r.
Proof.
  unfold updateAttempt, bind, attempt. intros Hf.
  destruct (client_Get name w) as [w1 g] eqn:Eg. apply client_Get_spec in Eg as [Hw1 Hg].
  destruct g as [o|err|]; [| |done].
  - intros [(w2 & Hw2 & E)|[Hw2 [reason ->]]]%request_others; [|by simpl; trans w1].
    destruct (w_powerStates w2 !! name) as [cur|] eqn:Ec; [|by simplify_eq; simpl; trans w1].
    simpl in E. destruct (Z.eqb_spec (ps_resourceVersion cur) (ps_resourceVersion o)) as [Hv|Hv];
      simplify_eq; simpl; [|by trans w1].
    assert (cur = o) as -> by (eapply (version_unchanged w1 w2); eauto using others_fresh).
    exists w2. split; [by trans w1|]. unfold update_result. by rewrite Ec.
  - destruct (IsNotFound err); [|by unfold fail; intros; simplify_eq].
    unfold wrapM. destruct (client_Create name name [] w1) as [w2 c] eqn:Ec. intros; simplify_eq.
    apply request_others in Ec as [(w3 & Hw3 & E)|[Hw3 [reason ->]]]; [|by simpl; trans w1].
    destruct (w_powerStates w3 !! name) eqn:Eo; simplify_eq; simpl; [by trans w1|].
    exists w3. split; [by trans w1|]. unfold update_result. by rewrite Eo.
Qed.
Lemma retry_atomic steps name ordinals resume w w' r :
  fresh w → updateNodeSetPowerState steps name ordinals resume w = (w', r) →
  atomic_result name ordinals resume w w' r.
Proof.
  unfold updateNodeSetPowerState. revert w. induction steps as [|steps IH]; intros w Hf; simpl.
  { intros; simplify_eq; simpl. reflexivity. }
  destruct (updateAttempt name ordinals resume w) as [w1 r1] eqn:E.
  apply updateAttempt_atomic in E; [|done].
  destruct r1 as [u|e|]; [by intros; simplify_eq| |done]. simpl in E.
  destruct (IsConflict e); [|by intros; simplify_eq].
  destruct steps as [|steps]; [by intros; simplify_eq|].
  intros Hr. apply IH in Hr; [|by eapply others_fresh].
  destruct r as [u|e'|]; simpl in *; [|by trans w1|done].
  destruct Hr as (w2 & ? & ->). exists w2. split; [by trans w1|done].
Qed.

(** ** A quiet cluster: no other writer, no failing request *)
Definition quiet (w : world) : Prop := w_script w = [].
Definition is_ephemeral (nodeSets : list nodeSet) (name : string) : bool :=
  match last (filter (λ ns, nodeset_Name ns = name) nodeSets) with
  | Some ns => match nodeset_EphemeralNodes ns with Some true => true | _ => false end
  | None => false
  end.
Lemma request_quiet {A} (op : M world A) w : quiet w → request op w = op w.
Proof. unfold request. by intros ->. Qed.
Lemma update_quiet steps name ordinals resume w :
  quiet w → (0 < steps)%nat →
  updateNodeSetPowerState steps name ordinals resume w = (update_result name ordinals resume w, Ok tt).
Proof.
  intros Hq Hs. destruct steps as [|steps]; [lia|]. unfold updateNodeSetPowerState. simpl.
  unfold updateAttempt, bind, attempt, client_Get, update_result. rewrite request_quiet by done.
  destruct (w_powerStates w !! name) as [o|] eqn:Eo.
  - unfold client_Update. rewrite request_quiet, Eo by done. simpl. by rewrite Z.eqb_refl.
  - simpl. unfold wrapM, client_Create. by rewrite request_quiet, Eo.
Qed.
Definition power_entry (resume : bool) (w : world) (entry : string * list Z) : world :=
  if is_ephemeral (w_nodeSets w) entry.1 then update_result entry.1 entry.2 resume w else w.
Lemma update_result_frame name ordinals resume w :
  w_nodeSets (update_result name ordinals resume w) = w_nodeSets w ∧
  w_script (update_result name ordinals resume w) = w_script w.
Proof. unfold update_result. by destruct (_ !! _). Qed.
Lemma power_entry_frame resume w entry :
  w_nodeSets (power_entry resume w entry) = w_nodeSets w ∧
  w_script (power_entry resume w entry) = w_script w.
Proof. unfold power_entry. case_match; [apply update_result_frame|done]. Qed.
Lemma powerOne_quiet steps resume w entry :
  quiet w → (0 < steps)%nat →
  powerOne steps (w_nodeSets w) resume entry w = (power_entry resume w entry, Ok tt).
Proof.
  intros Hq Hs. destruct entry as [name ordinals]. unfold powerOne, power_entry, is_ephemeral. simpl.
  destruct (last _) as [ns|]; [|done].
  destruct (nodeset_EphemeralNodes ns) as [[]|]; [by apply update_quiet|done..].
Qed.
Lemma forM_power_quiet steps resume entries w :
  quiet w → (0 < steps)%nat →
  forM entries (powerOne steps (w_nodeSets w) resume) w = (foldl (power_entry resume) w entries, Ok tt).
Proof.
  intros Hq Hs. revert w Hq. induction entries as [|entry entries IH]; intros w Hq; simpl; [done|].
  unfold bind. rewrite powerOne_quiet by done.
  destruct (power_entry_frame resume w entry) as [<- Hsc]. apply IH. by unfold quiet; rewrite Hsc.
Qed.

(** What a command leaves in the object of a NodeSet. *)
Definition powered (resume : bool) (nodeSets : list nodeSet) (name : string)
    (ordinals : option (list Z)) (o : option powerState) : option (list Z) :=
  match ordinals with
  | Some ords =>
      if is_ephemeral nodeSets name
      then Some (match o with Some o => newActiveNodes (ps_ActiveNodes o) ords resume | None => [] end)
      else ps_ActiveNodes <$> o
  | None => ps_ActiveNodes <$> o
  end.
Lemma update_result_lookup name ordinals resume w name' :
  ps_ActiveNodes <$> w_powerStates (update_result name ordinals resume w) !! name' =
  if decide (name = name')
  then Some (match w_powerStates w !! name with
             | Some o => newActiveNodes (ps_ActiveNodes o) ordinals resume
             | None => []
             end)
  else ps_ActiveNodes <$> w_powerStates w !! name'.
Proof.
  unfold update_result. destruct (w_powerStates w !! name); simpl; rewrite lookup_insert; by case_decide.
Qed.
Lemma power_entries_lookup resume (entries : list (string * list Z)) w name :
  NoDup entries.*1 →
  ps_ActiveNodes <$> w_powerStates (foldl (power_entry resume) w entries) !! name =
  powered resume (w_nodeSets w) name ((list_to_map entries : gmap _ _) !! name)
    (w_powerStates w !! name).
Proof.
  revert w. induction entries as [|[n ords] entries IH]; intros w Hnd; simpl in *.
  { by rewrite lookup_empty. }
  apply NoDup_cons in Hnd as [Hn Hnd]. rewrite IH by done.
  destruct (power_entry_frame resume w (n, ords)) as [-> _].
  rewrite lookup_insert. unfold power_entry. simpl. case_decide as Heq; [subst n|].
  - rewrite (not_elem_of_list_to_map_1 entries name) by done. unfold powered.
    destruct (is_ephemeral (w_nodeSets w) name); [|done].
    rewrite update_result_lookup. by rewrite decide_True.
  - assert (w_powerStates (if is_ephemeral (w_nodeSets w) n then update_result n ords resume w else w) !! name
            = w_powerStates w !! name) as ->; [|done].
    case_match; [|done]. unfold update_result. case_match; simpl; by rewrite lookup_insert_ne.
Qed.

Lemma groupNodes_spec refs :
  (∀ name n, n ∈ default [] (groupNodesByNodeSet refs !! name) ↔ mkNodeRef name n ∈ refs) ∧
  (∀ name, groupNodesByNodeSet refs !! name ≠ Some []).
Proof.
  unfold groupNodesByNodeSet. induction refs as [|[ns o] refs [IH1 IH2]] using rev_ind; simpl.
  { split; intros; rewrite lookup_empty; [|done]. simpl. by rewrite !elem_of_nil. }
  rewrite foldl_app. simpl. remember (foldl _ ∅ refs) as m. split.
  - intros name n. rewrite lookup_insert. case_decide; [subst|]; simpl;
      rewrite ?elem_of_app, IH1, ?list_elem_of_singleton; naive_solver.
  - intros name. rewrite lookup_insert. case_decide; [|apply IH2]. by destruct (default _ _).
Qed.

Section quiet_run.
  Context (steps : nat) (order : gmap string (list Z) → list (string * list Z)).
  Context (Hsteps : (0 < steps)%nat) (Horder : ∀ m, order m ≡ₚ map_to_list m).

Lemma order_map m : NoDup (order m).*1 ∧ list_to_map (order m) = m.
Proof.
  assert (NoDup (order m).*1) as Hnd by (rewrite Horder; apply NoDup_fst_map_to_list).
  split; [done|]. rewrite <-(list_to_map_to_list m) at 2. by apply list_to_map_proper.
Qed.
Lemma run_quiet nodes resume refs w :
  quiet w → parseNodeList nodes = Ok refs →
  let '(w', r) := runPowerAction steps (Ok tt) order nodes resume w in
  r = Ok tt ∧ quiet w' ∧ w_nodeSets w' = w_nodeSets w ∧
  ∀ name, ps_ActiveNodes <$> w_powerStates w' !! name =
          powered resume (w_nodeSets w) name (groupNodesByNodeSet refs !! name) (w_powerStates w !! name).
Proof.
  intros Hq Hp. unfold runPowerAction, bind, wrapM, lift, client_ListNodeSets.
  rewrite Hp, request_quiet by done. simpl. rewrite forM_power_quiet by done.
  destruct (order_map (groupNodesByNodeSet refs)) as [Hnd Hm].
  assert (∀ es w0, w_nodeSets (foldl (power_entry resume) w0 es) = w_nodeSets w0 ∧
                   w_script (foldl (power_entry resume) w0 es) = w_script w0) as Hfr.
  { induction es as [|e es IH]; intros w0; simpl; [done|].
    destruct (power_entry_frame resume w0 e) as [<- <-]. apply IH. }
  split_and!; [done|unfold quiet; by rewrite (proj2 (Hfr _ _))|apply Hfr|].
  intros name. rewrite power_entries_lookup by done. by rewrite Hm.
Qed.

Definition status_of (checkAdded : bool) (active ordinals : list Z) : Prop :=
  if checkAdded then ∀ n, n ∈ ordinals → n ∈ active else ∀ n, n ∈ ordinals → n ∉ active.
Lemma checkNodesStatus_quiet name ordinals checkAdded w :
  quiet w →
  attempt (checkNodesStatus name ordinals checkAdded) w =
  match w_powerStates w !! name with
  | None => (w, Ok (inr (ErrWrap "failed to get NodeSetPowerState" (ErrAPI NotFound))))
  | Some o => (w, Ok (inl (if checkAdded then forallb (λ n, bool_decide (n ∈ ps_ActiveNodes o)) ordinals
                           else forallb (λ n, negb (bool_decide (n ∈ ps_ActiveNodes o))) ordinals)))
  end.
Proof.
  intros Hq. unfold attempt, checkNodesStatus, bind, wrapM, client_Get. rewrite request_quiet by done.
  destruct (w_powerStates w !! name) as [o|] eqn:Eo; [|done]. simpl. do 3 f_equal.
  assert (∀ n, bool_decide (n ∈@{gset Z} list_to_set (ps_ActiveNodes o)) =
               bool_decide (n ∈ ps_ActiveNodes o)) as Hb.
  { intros n. apply bool_decide_ext. by rewrite elem_of_list_to_set. }
  f_equal. destruct checkAdded; induction ordinals as [|n ns IH]; simpl; [done|by rewrite Hb, IH|done|by rewrite Hb, IH].
Qed.
Lemma checkAll_quiet entries added w :
  quiet w →
  ∃ b, checkAll entries added w = (w, Ok b) ∧
  (b = true ↔ ∀ name ords, (name, ords) ∈ entries →
     ∃ o, w_powerStates w !! name = Some o ∧ status_of added (ps_ActiveNodes o) ords).
Proof.
  intros Hq. induction entries as [|[name ords] entries (b & IH & Hb)]; simpl.
  { exists true. split; [done|]. split; [|done]. by intros _ ? ? ?%not_elem_of_nil. }
  unfold bind. rewrite checkNodesStatus_quiet by done.
  assert (∀ o, (if added then forallb (λ n, bool_decide (n ∈ ps_ActiveNodes o)) ords
     else forallb (λ n, negb (bool_decide (n ∈ ps_ActiveNodes o))) ords) = true ↔
     status_of added (ps_ActiveNodes o) ords) as Hst.
  { intros o. unfold status_of. destruct added; rewrite forallb_elem;
      [by setoid_rewrite bool_decide_eq_true|].
    setoid_rewrite negb_true_iff. by setoid_rewrite bool_decide_eq_false. }
  destruct (w_powerStates w !! name) as [o|] eqn:Eo; rewrite IH; eexists; (split; [done|]).
  - rewrite andb_true_iff, Hst, Hb. setoid_rewrite elem_of_cons. naive_solver.
  - split; [done|]. intros Hall. destruct (Hall name ords) as (o & Ho & _); [left|]. congruence.
Qed.
Lemma waitLoop_quiet ticks m added w :
  quiet w →
  (waitLoop order (S ticks) m added w = (w, Ok tt) ↔
   ∀ name ords, m !! name = Some ords →
     ∃ o, w_powerStates w !! name = Some o ∧ status_of added (ps_ActiveNodes o) ords).
Proof.
  intros Hq. destruct (checkAll_quiet (order m) added w Hq) as (b & Hc & Hb).
  assert (∀ name ords, (name, ords) ∈ order m ↔ m !! name = Some ords) as Ho
    by (intros; by rewrite Horder, elem_of_map_to_list).
  setoid_rewrite Ho in Hb. rewrite <-Hb.
  assert (∀ k, b = false → waitLoop order k m added w = (w, Err (ErrMsg "timeout waiting for nodes"))) as Hf.
  { intros k ->. induction k as [|k IH]; simpl; [done|]. unfold bind. by rewrite Hc. }
  destruct b; [|rewrite Hf by done; by split].
  simpl. unfold bind. by rewrite Hc.
Qed.
End quiet_run.

(** ** Properties *)

(** C15: an update of a power state is atomic under concurrent writers.  Whatever the
    other clients write between its requests and whichever requests the API server refuses, a call that
    succeeds is a sequence of foreign writes followed by one write, of this object alone, after which the active nodes are those of
    the object as it stood then (none, when there was no object), with the ordinals resumed or without those suspended, sorted and
    without duplicates; so no concurrent resume or suspend is
    lost.  One case is excepted, a resume when there is no object: it is created with no active nodes, and the ordinals are dropped
    ([resume_drops_first_ordinals]).  A call that fails has written nothing. *)
Theorem power_update_atomic steps name ordinals resume w w' r :
  fresh w → updateNodeSetPowerState steps name ordinals resume w = (w', r) →
  match r with
  | Ok _ => ∃ w1 ref active, others w w1 ∧ w' = put name ref active w1 ∧
      ref = default name (ps_NodeSetRef <$> w_powerStates w1 !! name) ∧
      (applied resume ordinals (default [] (active_nodes name w1)) active ∨
       resume = true ∧ w_powerStates w1 !! name = None ∧ active = [])
  | Err _ => others w w'
  | Halt _ => False
  end.
Proof.
  intros Hf Hu. pose proof (retry_atomic _ _ _ _ _ _ _ Hf Hu) as Ha. destruct r as [u|e|s]; [|done..].
  destruct Ha as (w1 & Hw & ->). unfold update_result, active_nodes. destruct (w_powerStates w1 !! name) as [o|] eqn:Ho.
  - eexists w1, _, _. split; [done|]. split; [done|]. rewrite Ho. split; [done|]. left. apply newActive_applied.
  - eexists w1, _, _. split; [done|]. split; [done|]. rewrite Ho. split; [done|]. destruct resume; [by right|]. left.
    split_and!; [constructor|constructor|]. intros n. cbn. rewrite elem_of_nil. tauto.
Qed.
(** A suspend of ordinal 1 races with another client that resumes 7: the first
    attempt conflicts, the second one keeps 7. *)
Lemma power_update_atomic_witness :
  let w := World 5 {["gpu" := PowerState 4 "gpu" [0; 1; 2]%Z]} []
             [CallEvent [] None; CallEvent [("gpu", Some [0; 1; 2; 7]%Z)] None] in
  ∃ w1 ref active, others w w1 ∧
        (updateNodeSetPowerState 4 "gpu" [1]%Z false w).1 = put "gpu" ref active w1 ∧
        applied false [1]%Z (default [] (active_nodes "gpu" w1)) active ∧ active = [0; 2; 7]%Z.
Proof.
  set (w := World 5 _ _ _).
  destruct (power_update_atomic 4 "gpu" [1]%Z false w
    (updateNodeSetPowerState 4 "gpu" [1]%Z false w).1 (Ok tt)) as (w1 & ref & active & H1 & H2 & _ & H3).
  - intros n o. simpl. intros [<- <-]%lookup_singleton_Some. simpl. lia.
  - vm_compute. reflexivity.
  - exists w1, ref, active. split; [exact H1|]. split; [exact H2|]. split; [by destruct H3 as [?|[? _]]|].
    assert (active_nodes "gpu" (updateNodeSetPowerState 4 "gpu" [1]%Z false w).1 = Some [0; 2; 7]%Z) as H4 by (vm_compute; reflexivity).
    rewrite H2 in H4. unfold active_nodes, put in H4. cbn [w_powerStates] in H4. rewrite lookup_insert_eq in H4. by injection H4 as ->.
Defined.


(** The command pairs agree.  On a quiet cluster, when every NodeSet of the host
    list is ephemeral and has its power state, the wait command that Slurm's program
    runs after a resume or a suspend succeeds at its first poll. *)
Theorem power_action_then_wait steps order nodes resume refs w ticks :
  (0 < steps)%nat → (∀ m, order m ≡ₚ map_to_list m) → quiet w → parseNodeList nodes = Ok refs →
  (∀ name n, mkNodeRef name n ∈ refs →
     is_ephemeral (w_nodeSets w) name = true ∧ is_Some (w_powerStates w !! name)) →
  ∃ w', runPowerAction steps (Ok tt) order nodes resume w = (w', Ok tt) ∧
        waitForNodes (Ok tt) order nodes (S ticks) resume w' = (w', Ok tt).
Proof.
  intros Hs Ho Hq Hp Hall. pose proof (run_quiet steps order Hs Ho nodes resume refs w Hq Hp) as Hr.
  destruct (runPowerAction _ _ _ _ _ w) as [w' r]. destruct Hr as (-> & Hq' & _ & Hl).
  exists w'. split; [done|]. unfold waitForNodes, bind, wrapM, lift. rewrite Hp.
  change (waitLoop order (S ticks) (groupNodesByNodeSet refs) resume w' = (w', Ok tt)).
  apply waitLoop_quiet; [done|done|]. intros name ords Hn.
  destruct (groupNodes_spec refs) as [G1 G2].
  destruct ords as [|n ords]; [by destruct (G2 name)|].
  assert (mkNodeRef name n ∈ refs) as Hin by (apply G1; rewrite Hn; left).
  destruct (Hall name n Hin) as [He [o Hlo]]. specialize (Hl name). rewrite Hn, Hlo in Hl.
  unfold powered in Hl. rewrite He in Hl. apply fmap_Some in Hl as (o' & Ho' & Ha).
  exists o'. split; [done|]. rewrite <-Ha. unfold status_of.
  destruct resume; intros k Hk; rewrite elem_of_newActive; naive_solver.
Qed.
Lemma power_action_then_wait_witness :
  let w := World 9 {["gpu" := PowerState 4 "gpu" [0; 1]%Z]} [NodeSet "gpu" (Some true)] [] in
  ∃ w', runPowerAction 4 (Ok tt) map_to_list "gpu-[1-3]" true w = (w', Ok tt) ∧
        waitForNodes (Ok tt) map_to_list "gpu-[1-3]" 1 true w' = (w', Ok tt).
Proof.
  intros w. apply (power_action_then_wait 4 map_to_list "gpu-[1-3]" true
    [mkNodeRef "gpu" 1; mkNodeRef "gpu" 2; mkNodeRef "gpu" 3] w 0); [lia|done|done|vm_compute; reflexivity|].
  intros name n Hn. assert (name = "gpu") as -> by (elem_cases Hn; congruence).
  split; [vm_compute; reflexivity|]. vm_compute. eauto.
Defined.

(** When a NodeSet has no power state yet, resuming its nodes reports success but
    the object is created without any active node: the ordinals are dropped, and the
    wait that follows times out however long it polls. *)
Theorem resume_drops_first_ordinals steps order nodes refs w ticks name n :
  (0 < steps)%nat → (∀ m, order m ≡ₚ map_to_list m) → quiet w → parseNodeList nodes = Ok refs →
  mkNodeRef name n ∈ refs → is_ephemeral (w_nodeSets w) name = true → w_powerStates w !! name = None →
  ∃ w', runPowerAction steps (Ok tt) order nodes true w = (w', Ok tt) ∧
        ps_ActiveNodes <$> w_powerStates w' !! name = Some [] ∧
        waitForNodes (Ok tt) order nodes (S ticks) true w' ≠ (w', Ok tt).
Proof.
  intros Hs Ho Hq Hp Hin He Hnone. pose proof (run_quiet steps order Hs Ho nodes true refs w Hq Hp) as Hr.
  destruct (runPowerAction _ _ _ _ _ w) as [w' r]. destruct Hr as (-> & Hq' & _ & Hl).
  exists w'. split; [done|]. destruct (groupNodes_spec refs) as [G1 _]. apply G1 in Hin.
  destruct (groupNodesByNodeSet refs !! name) as [ords|] eqn:Eg; simpl in Hin; [|by apply not_elem_of_nil in Hin].
  assert (ps_ActiveNodes <$> w_powerStates w' !! name = Some []) as Hemp.
  { rewrite Hl, Eg. unfold powered. by rewrite He, Hnone. }
  split; [done|]. unfold waitForNodes, bind, wrapM, lift. rewrite Hp.
  change (waitLoop order (S ticks) (groupNodesByNodeSet refs) true w' ≠ (w', Ok tt)).
  rewrite waitLoop_quiet by done. intros Hw. destruct (Hw name ords Eg) as (o & Ho' & Hst).
  rewrite Ho' in Hemp. simplify_eq/=. rewrite Hemp in Hst. specialize (Hst n Hin).
  by apply not_elem_of_nil in Hst.
Qed.
Lemma resume_drops_first_ordinals_witness :
  let w := World 9 ∅ [NodeSet "gpu" (Some true)] [] in
  ∃ w', runPowerAction 4 (Ok tt) map_to_list "gpu-0" true w = (w', Ok tt) ∧
        ps_ActiveNodes <$> w_powerStates w' !! "gpu" = Some [] ∧
        waitForNodes (Ok tt) map_to_list "gpu-0" 15 true w' ≠ (w', Ok tt).
Proof.
  intros w. apply (resume_drops_first_ordinals 4 map_to_list "gpu-0" [mkNodeRef "gpu" 0] w 14 "gpu" 0);
    [lia|done|done|vm_compute; reflexivity|in_list|vm_compute; reflexivity|done].
Defined.
