(* ===== verification/Tres.v ===== *)
(** * Trackable resources

    [internal/slurmapi/tres.go] parses Slurm's TRES strings; [tresListToString] of
    [job.go] prints the TRES list of an accounting record in that format. *)
From S2P Require Import Prelude GoStrings.
From Stdlib Require Import Ascii.
From Stdlib Require String.

Record TrackableResources := mkTres { CPUCount : Z; MemoryBytes : Z; GPUCount : Z }.
Global Instance TrackableResources_eq_dec : EqDecision TrackableResources.
Proof. solve_decision. Defined.

(** The multiplier of a memory suffix; [None] for an unknown one. *)
Definition memoryMultiplier (suffix : string) : option Z :=
  if String.eqb suffix "k" then Some 1024%Z
  else if String.eqb suffix "m" then Some (1024 ^ 2)%Z
  else if String.eqb suffix "g" then Some (1024 ^ 3)%Z
  else if String.eqb suffix "t" then Some (1024 ^ 4)%Z
  else if String.eqb suffix "p" then Some (1024 ^ 5)%Z
  else None.
(** [lastChar >= "0" && lastChar <= "9"] on a one-byte string is a digit test. *)
Definition parseMemoryValue (value : string) : outcome Z :=
  match String.length value with
  | 0%nat => Err (ErrMsg "empty memory value")
  | S n =>
      let lastChar := str_drop n value in
      let split :=
        if isDigits lastChar then Some (1%Z, value)
        else multiplier ← memoryMultiplier (ToLower lastChar); Some (multiplier, str_take n value) in
      match split with
      | None => Err (ErrMsg "unknown memory suffix")
      | Some (multiplier, numStr) =>
          match ParseInt 64 numStr with
          | None => Err (ErrMsg "invalid memory value")
          | Some num => Ok (wrap 64 (num * multiplier))
          end
      end
  end.

(** One pair of the list. *)
Definition parsePair (spec : TrackableResources) (pair : string) : outcome TrackableResources :=
  match SplitN2 pair "=" with
  | [k; v] =>
      let key := TrimSpace k in
      let value := TrimSpace v in
      if String.eqb key "cpu" then
        match Atoi value with
        | None => Err (ErrMsg "invalid cpu value")
        | Some cpu => Ok (mkTres cpu (MemoryBytes spec) (GPUCount spec))
        end
      else if String.eqb key "mem" then
        let? memBytes := parseMemoryValue value in Ok (mkTres (CPUCount spec) memBytes (GPUCount spec))
      else if String.eqb key "gres/gpu" then
        match Atoi value with
        | None => Err (ErrMsg "invalid gpu value")
        | Some gpu => Ok (mkTres (CPUCount spec) (MemoryBytes spec) gpu)
        end
      else Ok spec
  | _ => Ok spec
  end.
Fixpoint parsePairs (spec : TrackableResources) (pairs : list string) : outcome TrackableResources :=
  match pairs with
  | [] => Ok spec
  | p :: pairs => let? spec := parsePair spec p in parsePairs spec pairs
  end.
Definition ParseTrackableResources (input : string) : outcome TrackableResources :=
  parsePairs (mkTres 0 0 0) (Split input ",").

Example tres_ex :
  ParseTrackableResources "cpu=16,mem=191356M,billing=16,gres/gpu=1" =
  Ok (mkTres 16 (191356 * 1024 * 1024) 1).
Proof. vm_compute. reflexivity. Qed.

(** ** Printing an accounting TRES list *)
Record V0044Tres := mkAPITres { tres_Type : string; tres_Name : option string; tres_Count : option Z }.
Definition tresKey (t : V0044Tres) : string :=
  match tres_Name t with
  | Some name => if String.eqb name "" then tres_Type t else tres_Type t +:+ "/" +:+ name
  | None => tres_Type t
  end.
Definition tresPart (t : V0044Tres) (count : Z) : string :=
  let value := Itoa count +:+ (if String.eqb (tres_Type t) "mem" then "M" else "") in
  tresKey t +:+ "=" +:+ value.
Definition tresListToString (input : option (list V0044Tres)) : string :=
  match input with
  | None => ""
  | Some l => Join (omap (λ t, tresPart t <$> tres_Count t) l) ","
  end.

(** ** The memory suffixes *)
Lemma parseMemoryValue_suffix n c mult :
  (0 ≤ n ≤ max_int 64)%Z → memoryMultiplier (ToLower (String c "")) = Some mult → is_digit c = false →
  parseMemoryValue (Itoa n +:+ String c "") = Ok (wrap 64 (n * mult)).
Proof.
  intros Hn Hm Hc. unfold parseMemoryValue.
  rewrite str_length_app. simpl String.length. rewrite Nat.add_1_r.
  rewrite str_drop_length_app, str_take_length_app.
  assert (isDigits (String c "") = false) as -> by (unfold isDigits; simpl; by rewrite Hc).
  rewrite Hm. simpl. by rewrite ParseInt_Itoa by (done || lia).
Qed.
Lemma Itoa_digits n : (0 ≤ n)%Z → isDigits (Itoa n) = true ∧ Itoa n ≠ "".
Proof.
  intros Hn. unfold Itoa. destruct (Z.ltb_spec n 0); [lia|].
  by destruct (print_nonneg_spec n) as (? & ? & ?).
Qed.

(** What a list of counts means, entry by entry; a later entry wins. *)
Definition applyTres (spec : TrackableResources) (t : V0044Tres) : TrackableResources :=
  match tres_Count t with
  | None => spec
  | Some n =>
      if String.eqb (tresKey t) "cpu" then mkTres n (MemoryBytes spec) (GPUCount spec)
      else if String.eqb (tresKey t) "mem" then mkTres (CPUCount spec) (n * 1024 ^ 2) (GPUCount spec)
      else if String.eqb (tresKey t) "gres/gpu" then mkTres (CPUCount spec) (MemoryBytes spec) n
      else spec
  end.
(** A TRES entry that the format can carry: no separator or space in the key, a
    count that fits, and [mem] as a type is memory and has no name. *)
Definition tres_ok (t : V0044Tres) : bool :=
  no_char "," (tresKey t) && no_char "=" (tresKey t) && no_space (tresKey t) &&
  Bool.eqb (String.eqb (tresKey t) "mem") (String.eqb (tres_Type t) "mem") &&
  match tres_Count t with
  | None => true
  | Some n => (0 <=? n)%Z && (n * 1024 ^ 2 <=? max_int 64)%Z
  end.

Section parts.
  Context (t : V0044Tres) (n : Z).
  Context (Hok : tres_ok t = true) (Hn : tres_Count t = Some n).

Local Abbreviation value := (Itoa n +:+ (if String.eqb (tres_Type t) "mem" then "M" else "")).

Lemma tres_ok_inv :
  no_char "," (tresKey t) = true ∧ no_char "=" (tresKey t) = true ∧ no_space (tresKey t) = true ∧
  String.eqb (tresKey t) "mem" = String.eqb (tres_Type t) "mem" ∧
  (0 ≤ n)%Z ∧ (n * 1024 ^ 2 ≤ max_int 64)%Z.
Proof.
  clear -Hok Hn. unfold tres_ok in Hok. rewrite Hn in Hok. repeat (apply andb_true_iff in Hok as [Hok ?]).
  split_and!; [done..| |lia|lia]. by apply Bool.eqb_prop.
Qed.
Lemma value_chars (f : ascii → bool) :
  (∀ c, is_digit c = true → f c = true) → f "M"%char = true → str_forallb f value = true.
Proof.
  clear -Hok Hn. intros Hd HM. destruct tres_ok_inv as (_ & _ & _ & _ & H0 & _).
  destruct (Itoa_digits n H0) as [Hdig _]. rewrite str_forallb_app. apply andb_true_iff. split.
  - by eapply str_forallb_impl.
  - destruct (String.eqb _ _); simpl; by rewrite ?HM.
Qed.
Lemma tresPart_no_comma : no_char "," (tresPart t n) = true.
Proof.
  clear -Hok Hn. destruct tres_ok_inv as (H1 & _). unfold tresPart, no_char in *.
  rewrite !str_forallb_app, H1. simpl. rewrite <-str_forallb_app. apply value_chars; [|done].
  intros c Hc. by destruct c as [[] [] [] [] [] [] [] []].
Qed.
Lemma parsePair_tresPart spec : parsePair spec (tresPart t n) = Ok (applyTres spec t).
Proof.
  clear -Hok Hn. destruct tres_ok_inv as (_ & H2 & H3 & H4 & H5 & H6).
  unfold parsePair, tresPart, applyTres. rewrite Hn.
  change ("=" +:+ ?x) with (String "=" x). rewrite SplitN2_char by done.
  rewrite !TrimSpace_no_space; [|apply value_chars; [|done]|done].
  2: { intros c Hc. by destruct c as [[] [] [] [] [] [] [] []]. }
  assert (n ≤ max_int 64)%Z as Hmax by lia.
  rewrite <-H4. destruct (String.eqb_spec (tresKey t) "cpu") as [E|].
  { rewrite E. simpl. rewrite str_app_nil_r. unfold Atoi. by rewrite ParseInt_Itoa by lia. }
  destruct (String.eqb (tresKey t) "mem").
  - rewrite (parseMemoryValue_suffix n "M" (1024 ^ 2)) by (done || lia). simpl.
    rewrite wrap_small; [done|lia|]. unfold min_int. lia.
  - rewrite str_app_nil_r. unfold Atoi. rewrite ParseInt_Itoa by lia. by repeat case_match.
Qed.
End parts.

Lemma parsePairs_tres spec l :
  Forall (λ t, tres_ok t = true) l →
  parsePairs spec (omap (λ t, tresPart t <$> tres_Count t) l) = Ok (foldl applyTres spec l).
Proof.
  intros Hl. revert spec. induction Hl as [|t l Ht Hl IH]; intros spec; simpl; [done|].
  destruct (tres_Count t) as [n|] eqn:En; simpl.
  - rewrite (parsePair_tresPart t n) by done. apply IH.
  - rewrite IH. unfold applyTres at 3. by rewrite En.
Qed.

(** ** Properties *)

(** The string [tresListToString] writes for an accounting record is read back by
    [ParseTrackableResources] as the counts of the list: CPUs and GPUs as they are,
    memory converted from megabytes to bytes, the last entry of a kind winning. *)
Theorem tres_roundtrip (l : list V0044Tres) :
  Forall (λ t, tres_ok t = true) l →
  ParseTrackableResources (tresListToString (Some l)) = Ok (foldl applyTres (mkTres 0 0 0) l).
Proof.
  intros Hl. unfold ParseTrackableResources, tresListToString.
  destruct (decide (omap (λ t, tresPart t <$> tres_Count t) l = [])) as [E|E].
  - pose proof (parsePairs_tres (mkTres 0 0 0) l Hl) as Hp. rewrite E in Hp. simpl in Hp. rewrite E.
    rewrite <-Hp. reflexivity.
  - rewrite Split_Join; [by apply parsePairs_tres|done|].
    apply Forall_forall. intros s Hs. apply list_elem_of_omap in Hs as (t & Ht & Hs).
    apply fmap_Some in Hs as (n & Hn & ->). apply tresPart_no_comma; [|done].
    by eapply Forall_forall in Hl.
Qed.
Lemma tres_roundtrip_witness :
  ParseTrackableResources (tresListToString (Some
    [mkAPITres "cpu" None (Some 16); mkAPITres "mem" None (Some 1024); mkAPITres "billing" None None;
     mkAPITres "gres" (Some "gpu") (Some 8)]%Z)) = Ok (mkTres 16 (1024 * 1024 ^ 2) 8).
Proof.
  rewrite (tres_roundtrip [mkAPITres "cpu" None (Some 16); mkAPITres "mem" None (Some 1024);
    mkAPITres "billing" None None; mkAPITres "gres" (Some "gpu") (Some 8)]%Z); [reflexivity|].
  repeat constructor.
Defined.

(** A memory value with a unit is the number times the unit, at 64 bits: exact
    when the product fits, and silently wrapped around when it does not. *)
Theorem memory_value_exact (n : Z) (c : ascii) (mult : Z) :
  (0 ≤ n ≤ max_int 64)%Z → memoryMultiplier (ToLower (String c "")) = Some mult →
  ∃ r, parseMemoryValue (Itoa n +:+ String c "") = Ok r ∧
       ((n * mult ≤ max_int 64)%Z → r = (n * mult)%Z) ∧
       ((max_int 64 < n * mult)%Z → r ≠ (n * mult)%Z ∧ (r `mod` 2 ^ 64 = (n * mult) `mod` 2 ^ 64)%Z).
Proof.
  intros Hn Hm. exists (wrap 64 (n * mult)). split.
  - apply parseMemoryValue_suffix; [done|done|]. by destruct c as [[] [] [] [] [] [] [] []].
  - assert (0 < mult)%Z as Hmult by (unfold memoryMultiplier in Hm; repeat case_match; simplify_eq; lia).
    split.
    + intros Hle. rewrite wrap_small; [done|lia|]. unfold min_int. nia.
    + intros Hgt. pose proof (wrap_range 64 (n * mult)). split; [lia|]. unfold wrap.
      rewrite Zminus_mod_idemp_l. f_equal. lia.
Qed.
Lemma memory_value_exact_witness :
  ∃ r, parseMemoryValue (Itoa 8388608 +:+ "T") = Ok r ∧ r ≠ (8388608 * 1024 ^ 4)%Z.
Proof.
  destruct (memory_value_exact 8388608 "T" (1024 ^ 4)) as (r & H1 & _ & H2); [by vm_compute|done|].
  exists r. split; [done|]. by apply H2.
Defined.
