(* ===== verification/SlurmNode.v ===== *)
(** * Slurm nodes

    [internal/slurmapi/node.go] and the node calls of [client.go]. *)
From S2P Require Import Prelude GoStrings Tres.
From Stdlib Require Import Ascii.
From Stdlib Require String.

(** ** Node states

    The states of [api.V0044NodeState] the operator names, and all others. *)
Inductive node_state :=
| DRAIN | IDLE | COMPLETING | MAINTENANCE | RESERVED | FAIL | PLANNED | DOWN | NOTRESPONDING
| INVALID | REBOOTISSUED | REBOOTREQUESTED | CLOUD | POWERDOWN | POWERDRAIN | POWEREDDOWN
| POWERINGDOWN | POWERINGUP | POWERUP | UNKNOWN | ALLOCATED | ERROR | MIXED | FUTURE
| OtherState (s : string).
Global Instance node_state_eq_dec : EqDecision node_state.
Proof. solve_decision. Defined.

Definition named_states : list node_state :=
  [DRAIN; IDLE; COMPLETING; MAINTENANCE; RESERVED; FAIL; PLANNED; DOWN; NOTRESPONDING; INVALID;
   REBOOTISSUED; REBOOTREQUESTED; CLOUD; POWERDOWN; POWERDRAIN; POWEREDDOWN; POWERINGDOWN;
   POWERINGUP; POWERUP; UNKNOWN; ALLOCATED; ERROR; MIXED; FUTURE].
Definition state_code (s : node_state) : nat + string :=
  match s with
  | OtherState s => inr s
  | s => inl (default 0%nat (fst <$> list_find (eq s) named_states))
  end.
Definition state_decode (c : nat + string) : option node_state :=
  match c with inr s => Some (OtherState s) | inl n => named_states !! n end.
Lemma state_decode_code s : state_decode (state_code s) = Some s.
Proof. by destruct s. Qed.
Global Instance node_state_countable : Countable node_state :=
  inj_countable state_code state_decode state_decode_code.

Definition states := gset node_state.

(** ** API objects *)
Record NoValStruct := NoVal { nv_Set : option bool; nv_Infinite : option bool; nv_Number : option Z }.
Record V0044Node := mkAPINode {
  api_State : option (list node_state);
  api_Name : option string;
  api_ClusterName : option string;
  api_InstanceId : option string;
  api_Reason : option string;
  api_ReasonChangedAt : option NoValStruct;
  api_Partitions : option (list string);
  api_Tres : option string;
  api_Address : option string;
  api_Comment : option string;
  api_BootTime : option NoValStruct;
  api_Reservation : option string;
  api_Cpus : option Z;
  api_AllocCpus : option Z;
  api_AllocIdleCpus : option Z;
  api_EffectiveCpus : option Z;
  api_AllocMemory : option Z;
  api_RealMemory : option Z;
  api_FreeMem : option NoValStruct;
  api_SpecializedMemory : option Z
}.
Record NodeReason := mkReason { reason_Reason : string; reason_OriginalReason : string; reason_ChangedAt : Z }.
(** Times are Unix seconds; [None] is the zero [time.Time]. *)
Record Node := mkNode {
  node_Name : string;
  node_ClusterName : string;
  node_InstanceID : string;
  node_States : states;
  node_Reason : option NodeReason;
  node_Partitions : list string;
  node_Tres : string;
  node_Address : string;
  node_BootTime : option Z;
  node_Comment : string;
  node_Reservation : string;
  node_CPUs : option Z;
  node_AllocCPUs : option Z;
  node_AllocIdleCPUs : option Z;
  node_EffectiveCPUs : option Z;
  node_AllocMemoryMB : option Z;
  node_RealMemoryMB : option Z;
  node_FreeMemoryMB : option Z;
  node_SpecializedMemoryMB : option Z
}.

Definition has_reason (node : V0044Node) : bool :=
  match api_Reason node with Some r => negb (String.eqb r "") | None => false end.
Definition validateAPINode (node : V0044Node) : option gerror :=
  let check (bad : bool) msg := if bad then [ErrMsg msg] else [] in
  errors_join
    (check (match api_State node with None | Some [] => true | _ => false end)
       "node doesn't have any state"
     ++ check (bool_decide (api_Name node = None)) "node doesn't have name"
     ++ check (bool_decide (api_ClusterName node = None)) "node doesn't have cluster name"
     ++ check (bool_decide (api_InstanceId node = None)) "node doesn't have instance id"
     ++ check (has_reason node && bool_decide ((api_ReasonChangedAt node ≫= nv_Number) = None))
          "node doesn't have reasonChangedAt or reasonChangedAt.number, but has reason").

Definition convertUint64Struct (input : option NoValStruct) : option Z :=
  match input with
  | Some (NoVal (Some true) _ n) => n
  | _ => None
  end.

(** [*p]: a nil pointer panics. *)
Definition deref {A} (p : option A) : outcome A :=
  match p with Some a => Ok a | None => Halt "nil pointer dereference" end.

Definition NodeFromAPI (node : V0044Node) : outcome Node :=
  match validateAPINode node with
  | Some err => Err err
  | None =>
      let? nodeStates := deref (api_State node) in
      let? name := deref (api_Name node) in
      let? clusterName := deref (api_ClusterName node) in
      let? instanceID := deref (api_InstanceId node) in
      let? partitions := deref (api_Partitions node) in
      let? tres := deref (api_Tres node) in
      let? address := deref (api_Address node) in
      let? comment := deref (api_Comment node) in
      let? reason :=
        (if has_reason node then
           let? reason := deref (api_Reason node) in
           let? changedAt := deref (api_ReasonChangedAt node) in
           let? number := deref (nv_Number changedAt) in
           Ok (Some (mkReason reason "" number))
         else Ok None) in
      Ok {| node_Name := name;
            node_ClusterName := clusterName;
            node_InstanceID := instanceID;
            node_States := list_to_set nodeStates;
            node_Reason := reason;
            node_Partitions := partitions;
            node_Tres := tres;
            node_Address := address;
            node_BootTime := api_BootTime node ≫= nv_Number;
            node_Comment := comment;
            node_Reservation := default "" (api_Reservation node);
            node_CPUs := api_Cpus node;
            node_AllocCPUs := api_AllocCpus node;
            node_AllocIdleCPUs := api_AllocIdleCpus node;
            node_EffectiveCPUs := api_EffectiveCpus node;
            node_AllocMemoryMB := api_AllocMemory node;
            node_RealMemoryMB := api_RealMemory node;
            node_FreeMemoryMB := convertUint64Struct (api_FreeMem node);
            node_SpecializedMemoryMB := api_SpecializedMemory node |}
  end.

(** ** State tests *)
Definition has (n : Node) (s : node_state) : bool := bool_decide (s ∈ node_States n).
Definition IsIdleDrained (n : Node) : bool := has n DRAIN && has n IDLE.
Definition IsDrainState (n : Node) : bool := has n DRAIN.
Definition IsCompletingState (n : Node) : bool := has n COMPLETING.
Definition IsMaintenanceState (n : Node) : bool := has n MAINTENANCE.
Definition IsReservedState (n : Node) : bool := has n RESERVED.
Definition IsFailState (n : Node) : bool := has n FAIL.
Definition IsIdleState (n : Node) : bool := has n IDLE.
Definition IsPlannedState (n : Node) : bool := has n PLANNED.
Definition IsDownState (n : Node) : bool := has n DOWN.
Definition IsNotRespondingState (n : Node) : bool := has n NOTRESPONDING.
Definition IsInvalidState (n : Node) : bool := has n INVALID.
Definition IsRebootIssuedState (n : Node) : bool := has n REBOOTISSUED.
Definition IsRebootRequestedState (n : Node) : bool := has n REBOOTREQUESTED.
Definition IsCloudState (n : Node) : bool := has n CLOUD.
Definition IsPowerDownState (n : Node) : bool := has n POWERDOWN.
Definition IsPowerDrainState (n : Node) : bool := has n POWERDRAIN.
Definition IsPoweredDownState (n : Node) : bool := has n POWEREDDOWN.
Definition IsPoweringDownState (n : Node) : bool := has n POWERINGDOWN.
Definition IsPoweringUpState (n : Node) : bool := has n POWERINGUP.
Definition IsPowerUpState (n : Node) : bool := has n POWERUP.
Definition IsPowerManaged (n : Node) : bool :=
  IsPowerDownState n || IsPowerDrainState n || IsPoweredDownState n || IsPoweringDownState n ||
  IsPoweringUpState n || IsPowerUpState n.

Definition baseStates : list node_state := [UNKNOWN; DOWN; IDLE; ALLOCATED; ERROR; MIXED; FUTURE].
(** [None] is the empty state the code returns when there is no base state. *)
Definition BaseState (n : Node) : option node_state := head (filter (λ s, s ∈ node_States n) baseStates).

(** ** Resources

    A [float64] that holds an integer is that integer: [float64_of_int] rounds to
    53 significant bits, ties to even; a product with a power of two is exact. *)
Definition float64_of_int (z : Z) : Z :=
  let a := Z.abs z in
  let k := Z.max 0 (Z.log2 a - 52) in
  let unit := (2 ^ k)%Z in
  let q := (a `div` unit)%Z in
  let r := (a `mod` unit)%Z in
  let q' := if (2 * r >? unit)%Z || ((2 * r =? unit)%Z && (1 <? unit)%Z && Z.odd q) then (q + 1)%Z else q in
  (Z.sgn z * q' * unit)%Z.
Definition mbToBytes (mb : Z) : Z := (float64_of_int mb * 1024 * 1024)%Z.

Definition CPUTotal (n : Node) : option Z :=
  match node_CPUs n with
  | Some c => Some (float64_of_int c)
  | None =>
      match ParseTrackableResources (node_Tres n) with
      | Ok tres => if (0 <? CPUCount tres)%Z then Some (float64_of_int (CPUCount tres)) else None
      | _ => None
      end
  end.
Definition CPUAllocated (n : Node) : option Z := float64_of_int <$> node_AllocCPUs n.
Definition CPUIdle (n : Node) : option Z := float64_of_int <$> node_AllocIdleCPUs n.
Definition CPUEffective (n : Node) : option Z := float64_of_int <$> node_EffectiveCPUs n.
Definition tresMemory (n : Node) : option Z :=
  match ParseTrackableResources (node_Tres n) with
  | Ok tres => if (0 <? MemoryBytes tres)%Z then Some (float64_of_int (MemoryBytes tres)) else None
  | _ => None
  end.
Definition MemoryTotalBytes (n : Node) : option Z :=
  match node_RealMemoryMB n with Some mb => Some (mbToBytes mb) | None => tresMemory n end.
Definition MemoryAllocatedBytes (n : Node) : option Z := mbToBytes <$> node_AllocMemoryMB n.
Definition MemoryFreeBytes (n : Node) : option Z := mbToBytes <$> node_FreeMemoryMB n.
Definition MemoryEffectiveBytes (n : Node) : option Z :=
  match node_RealMemoryMB n with
  | None => tresMemory n
  | Some real =>
      let effectiveMB :=
        match node_SpecializedMemoryMB n with
        | Some special => let e := wrap 64 (real - special) in if (e <? 0)%Z then 0%Z else e
        | None => real
        end in
      Some (mbToBytes effectiveMB)
  end.

(** ** The node calls of the client

    A REST response as the generated client returns it: no response at all, no
    decoded body, or a body with errors and nodes. *)
Record nodesBody := NodesBody { body_Errors : option (list string); body_Nodes : list V0044Node }.
Inductive response (B : Type) := NoResponse (e : gerror) | NoJSON200 | JSON200 (b : B).
Arguments NoResponse {B} e.
Arguments NoJSON200 {B}.
Arguments JSON200 {B} b.

Definition has_errors (errs : option (list string)) : bool :=
  match errs with Some (_ :: _) => true | _ => false end.
Fixpoint convertNodes (l : list V0044Node) : outcome (list Node) :=
  match l with
  | [] => Ok []
  | n :: l =>
      let? node := wrap_err "convert node from api response" (NodeFromAPI n) in
      let? nodes := convertNodes l in
      Ok (node :: nodes)
  end.
Definition ListNodes (resp : response nodesBody) : outcome (list Node) :=
  match resp with
  | NoResponse e => Err (ErrWrap "list nodes" e)
  | NoJSON200 => Err (ErrMsg "json200 field is nil")
  | JSON200 b =>
      if has_errors (body_Errors b) then Err (ErrMsg "list nodes responded with errors")
      else convertNodes (body_Nodes b)
  end.
Definition GetNode (resp : response nodesBody) : outcome Node :=
  match resp with
  | NoResponse e => Err (ErrWrap "get node" e)
  | NoJSON200 => Err (ErrMsg "json200 field is nil")
  | JSON200 b =>
      if has_errors (body_Errors b) then Err (ErrMsg "get node responded with errors")
      else match body_Nodes b with
           | [n] => wrap_err "convert node from api response" (NodeFromAPI n)
           | _ => Err (ErrMsg "expected only one node in response")
           end
  end.

(** ** Conversion *)

(** Every check of [validateAPINode] passes. *)
Definition node_valid (node : V0044Node) : Prop :=
  (∃ s l, api_State node = Some (s :: l)) ∧ is_Some (api_Name node) ∧
  is_Some (api_ClusterName node) ∧ is_Some (api_InstanceId node) ∧
  (has_reason node = true → is_Some (api_ReasonChangedAt node ≫= nv_Number)).
Lemma errors_join_nil es : errors_join es = None ↔ es = [].
Proof. destruct es as [|e es]; [done|]. simpl. by destruct (errors_join es). Qed.
Lemma validate_None node : validateAPINode node = None ↔ node_valid node.
Proof.
  unfold validateAPINode, node_valid. rewrite errors_join_nil, !app_nil.
  destruct (api_State node) as [[|s l]|]; simpl; [split; [naive_solver|intros [(?&?&?) _]; done]| |
    split; [naive_solver|intros [(?&?&?) _]; done]].
  destruct (api_Name node), (api_ClusterName node), (api_InstanceId node), (has_reason node),
    (api_ReasonChangedAt node ≫= nv_Number); simpl; repeat case_bool_decide; try done;
    split; try naive_solver; intros (? & [? ?] & [? ?] & [? ?] & Hr); try done;
    by destruct (Hr eq_refl).
Qed.

(** ** Properties *)

(** C40: converting a node of the REST API gives an error exactly when one of the
    validated fields is missing; a valid node converts when it also has partitions,
    TRES, address and comment, and is a nil dereference (a panic) otherwise: those
    four are not validated. *)
Theorem NodeFromAPI_cases (node : V0044Node) :
  ((∃ e, NodeFromAPI node = Err e) ↔ ¬ node_valid node) ∧
  ((∃ n, NodeFromAPI node = Ok n) ↔
     node_valid node ∧ is_Some (api_Partitions node) ∧ is_Some (api_Tres node) ∧
     is_Some (api_Address node) ∧ is_Some (api_Comment node)) ∧
  ((∃ w, NodeFromAPI node = Halt w) ↔
     node_valid node ∧ (api_Partitions node = None ∨ api_Tres node = None ∨
                        api_Address node = None ∨ api_Comment node = None)).
Proof.
  rewrite <-validate_None. unfold NodeFromAPI.
  destruct (validateAPINode node) as [e|] eqn:Ev.
  { split_and!; naive_solver. }
  apply validate_None in Ev as ((s & l & ->) & [? ->] & [? ->] & [? ->] & Hr). simpl.
  assert (∀ (A : Type) (a : A) (k : option NodeReason → outcome Node),
    (∀ r, ∃ n, k r = Ok n) →
    ∃ n, obind (if has_reason node then
           let? reason := deref (api_Reason node) in
           let? changedAt := deref (api_ReasonChangedAt node) in
           let? number := deref (nv_Number changedAt) in
           Ok (Some (mkReason reason "" number)) else Ok None) k = Ok n) as Hreason.
  { intros _ _ k Hk. unfold has_reason in *. destruct (api_Reason node) as [r|]; [|apply Hk].
    destruct (String.eqb_spec r ""); [apply Hk|]. simpl in *.
    destruct Hr as [z Hz]; [done|]. destruct (api_ReasonChangedAt node) as [c|]; [|done].
    simpl in *. rewrite Hz. apply Hk. }
  destruct (api_Partitions node), (api_Tres node), (api_Address node), (api_Comment node);
    simpl; try (split_and!; naive_solver).
  edestruct (Hreason _ tt) as [n ->]; [intros r; eexists; done|]. split_and!; naive_solver.
Qed.

(** The base state of a node is the first of Slurm's base states it has, in the
    order UNKNOWN, DOWN, IDLE, ALLOCATED, ERROR, MIXED, FUTURE; the flags it carries
    (drain, completing, power transitions, ...) never change it. *)
Theorem BaseState_spec (n n' : Node) (s : node_state) :
  (∀ b, b ∈ baseStates → b ∈ node_States n ↔ b ∈ node_States n') →
  BaseState n = BaseState n' ∧
  (BaseState n = Some s ↔
     ∃ before after, baseStates = before ++ s :: after ∧ s ∈ node_States n ∧
       ∀ b, b ∈ before → b ∉ node_States n) ∧
  (BaseState n = None ↔ ∀ b, b ∈ baseStates → b ∉ node_States n).
Proof.
  intros Hag. split_and!.
  - unfold BaseState. f_equal. revert Hag. generalize baseStates.
    intros l. induction l as [|b l IH]; intros Hag; [done|].
    rewrite !filter_cons. rewrite IH by (intros; apply Hag; by right).
    pose proof (Hag b ltac:(left)). repeat case_decide; tauto.
  - unfold BaseState. generalize baseStates. intros l. induction l as [|b l IH].
    { split; [done|]. intros (bef & aft & E & _). by destruct bef. }
    rewrite filter_cons. case_decide as Hb; simpl.
    + split.
      * intros [= ->]. exists [], l. split_and!; [done..|]. by intros ? ?%not_elem_of_nil.
      * intros ([|b' bef] & aft & [= -> ->] & Hs & Hbef); [done|]. by destruct (Hbef b' ltac:(left)).
    + rewrite IH. split.
      * intros (bef & aft & -> & Hs & Hbef). exists (b :: bef), aft. split_and!; [done..|].
        intros b' [->|?]%elem_of_cons; auto.
      * intros ([|b' bef] & aft & [= -> ->] & Hs & Hbef); [done|].
        exists bef, aft. split_and!; [done..|]. intros. apply Hbef. by right.
  - unfold BaseState. rewrite head_None. apply filter_nil_iff.
Qed.
Lemma BaseState_spec_witness :
  let n := mkNode "w-0" "c" "i" {[IDLE; DRAIN; CLOUD]} None [] "" "" None "" "" None None None None None None None None in
  let n' := mkNode "w-0" "c" "i" {[IDLE]} None [] "" "" None "" "" None None None None None None None None in
  BaseState n = BaseState n' ∧ BaseState n = Some IDLE.
Proof.
  intros n n'. destruct (BaseState_spec n n' IDLE) as (H1 & H2 & _).
  - intros b Hb. unfold baseStates in Hb. elem_cases Hb; subst b; vm_compute; naive_solver.
  - split; [done|]. apply H2. exists [UNKNOWN; DOWN], [ALLOCATED; ERROR; MIXED; FUTURE].
    split_and!; [done|by vm_compute|]. intros b Hb. elem_cases Hb; subst b; by vm_compute.
Defined.

(** ** Memory *)
Lemma float64_exact z : (Z.abs z < 2 ^ 53)%Z → float64_of_int z = z.
Proof.
  intros Hz. unfold float64_of_int.
  assert (Z.log2 (Z.abs z) ≤ 52)%Z as Hl.
  { destruct (decide (z = 0%Z)) as [->|]; [by vm_compute|].
    assert (Z.log2 (Z.abs z) < 53)%Z; [|lia]. apply Z.log2_lt_pow2; lia. }
  rewrite Z.max_l by lia. rewrite Z.pow_0_r, Z.mod_1_r, Z.div_1_r. simpl. rewrite Z.mul_1_r.
  rewrite Z.mul_comm. apply Z.abs_sgn.
Qed.

Lemma float64_zero z : float64_of_int z = 0%Z ↔ z = 0%Z.
Proof.
  split; [|by intros ->]. unfold float64_of_int. intros H0. destruct (decide (z = 0%Z)) as [|Hz]; [done|].
  set (k := Z.max 0 (Z.log2 (Z.abs z) - 52)) in *.
  assert (2 ^ k ≤ Z.abs z)%Z as Hk.
  { pose proof (Z.log2_spec (Z.abs z) ltac:(lia)) as [Hl _]. etrans; [|exact Hl].
    apply Z.pow_le_mono_r; [lia|]. pose proof (Z.log2_nonneg (Z.abs z)). lia. }
  assert (0 < 2 ^ k)%Z as Hp by (apply Z.pow_pos_nonneg; lia).
  assert (1 ≤ Z.abs z `div` 2 ^ k)%Z by (apply Z.div_le_lower_bound; lia).
  apply Z.eq_mul_0 in H0 as [H0|H0]; [|lia]. apply Z.eq_mul_0 in H0 as [H0|H0]; [by destruct z|].
  case_match; lia.
Qed.

(** The effective memory of a node is its real memory less the memory reserved
    for daemons, never negative and never more than the total, in bytes; exact for
    every size below 2^53 MB. *)
Theorem MemoryEffective_bounds (n : Node) (real special : Z) :
  node_RealMemoryMB n = Some real → node_SpecializedMemoryMB n = Some special →
  (0 ≤ real < 2 ^ 53)%Z → (0 ≤ special < 2 ^ 62)%Z →
  ∃ eff total, MemoryEffectiveBytes n = Some eff ∧ MemoryTotalBytes n = Some total ∧
    eff = (Z.max 0 (real - special) * 1024 * 1024)%Z ∧ total = (real * 1024 * 1024)%Z ∧
    (0 ≤ eff ≤ total)%Z.
Proof.
  intros Hr Hs Hrr Hss. unfold MemoryEffectiveBytes, MemoryTotalBytes. rewrite Hr, Hs.
  eexists _, _. split; [done|]. split; [done|]. unfold mbToBytes.
  rewrite wrap_small by (unfold min_int, max_int; lia).
  assert ((if (real - special <? 0)%Z then 0%Z else (real - special)%Z) = Z.max 0 (real - special)) as ->.
  { destruct (Z.ltb_spec (real - special) 0); lia. }
  rewrite !float64_exact by lia. lia.
Qed.
Lemma MemoryEffective_bounds_witness :
  let n := mkNode "w-0" "c" "i" {[IDLE]} None [] "" "" None "" "" None None None None None
             (Some 1000%Z) None (Some 24%Z) in
  ∃ eff total, MemoryEffectiveBytes n = Some eff ∧ MemoryTotalBytes n = Some total ∧ (0 ≤ eff ≤ total)%Z.
Proof.
  intros n. destruct (MemoryEffective_bounds n 1000 24) as (eff & total & H1 & H2 & _ & _ & H3);
    [reflexivity|reflexivity|lia|lia|]. exists eff, total. exact (conj H1 (conj H2 H3)).
Defined.
