(* ===== verification/NodeCache.v ===== *)
(** * The Slurm node cache

    [internal/slurmapi/node_cache.go].  One goroutine refreshes a snapshot of all
    nodes and readers load it atomically, at any moment: also while a listing is in
    flight, so a refresh is two steps, the staleness check and the store. *)
From S2P Require Import Prelude SlurmNode.

(** Times in seconds. *)
Definition nodeCacheRequestTimeout : Z := 120.
Definition nodeCacheStalenessTimeout : Z := 180.

Record cacheSnapshot := Snapshot { snap_nodes : gmap string Node; snap_at : Z }.

(** ** The operations *)
Definition cache_GetNode (snapshot : option cacheSnapshot) (name : string) : option Node :=
  s ← snapshot; snap_nodes s !! name.

Definition nodeMap (nodes : list Node) : gmap string Node :=
  foldl (λ m n, <[node_Name n := n]> m) ∅ nodes.
Definition clearStale (now : Z) (snapshot : option cacheSnapshot) : option cacheSnapshot :=
  match snapshot with
  | Some s => if (nodeCacheStalenessTimeout <? now - snap_at s)%Z then None else Some s
  | None => None
  end.
(** What follows the listing: the new snapshot and whether the refresh succeeded. *)
Definition storeListing (now : Z) (listing : outcome (list Node)) (snapshot : option cacheSnapshot) :
    outcome (option cacheSnapshot * bool) :=
  match listing with
  | Ok nodes => Ok (Some (Snapshot (nodeMap nodes) now), true)
  | Err _ => Ok (snapshot, false)
  | Halt w => Halt w
  end.
Definition refresh (start finish : Z) (listing : outcome (list Node)) (snapshot : option cacheSnapshot) :
    outcome (option cacheSnapshot * bool) :=
  storeListing finish listing (clearStale start snapshot).

(** ** The goroutine

    [Initial] retries until a first success, which closes [ready]; [Steady] refreshes
    on every tick; [Stopped] is a cancelled context. *)
Inductive run_phase := Initial | Steady | Stopped.
Record run_state := RunState {
  rs_phase : run_phase;
  rs_ready : bool;
  rs_listing : bool;
  rs_snapshot : option cacheSnapshot;
  rs_now : Z;
  rs_lastStart : Z;
  rs_listed : option (Z * list Node)
}.
(** [rs_listed] records the last successful listing and when it returned. *)
Definition run_start (t0 : Z) : run_state := RunState Initial false false None t0 t0 None.

(** [gap] bounds the time from the start of one refresh to the start of the next:
    the request timeout, or the ticker's interval where that is longer. *)
Inductive run_step (gap : Z) : run_state → run_state → Prop :=
| step_time s dt :
    (0 ≤ dt)%Z → (rs_now s + dt - rs_lastStart s ≤ gap)%Z →
    run_step gap s (RunState (rs_phase s) (rs_ready s) (rs_listing s) (rs_snapshot s)
                      (rs_now s + dt) (rs_lastStart s) (rs_listed s))
| step_begin s :
    rs_listing s = false → rs_phase s ≠ Stopped →
    run_step gap s (RunState (rs_phase s) (rs_ready s) true (clearStale (rs_now s) (rs_snapshot s))
                      (rs_now s) (rs_now s) (rs_listed s))
| step_listed s nodes snap :
    rs_listing s = true → storeListing (rs_now s) (Ok nodes) (rs_snapshot s) = Ok (snap, true) →
    run_step gap s (RunState Steady true false snap (rs_now s) (rs_lastStart s)
                      (Some (rs_now s, nodes)))
| step_failed s e snap :
    rs_listing s = true → storeListing (rs_now s) (Err e) (rs_snapshot s) = Ok (snap, false) →
    run_step gap s (RunState (rs_phase s) (rs_ready s) false snap (rs_now s) (rs_lastStart s)
                      (rs_listed s))
| step_cancel s :
    rs_listing s = false →
    run_step gap s (RunState Stopped (rs_ready s) false (rs_snapshot s) (rs_now s) (rs_lastStart s)
                      (rs_listed s)).

(** ** Invariant *)
Record cache_inv (gap : Z) (s : run_state) : Prop := {
  inv_gap : (0 ≤ rs_now s - rs_lastStart s ≤ gap)%Z;
  inv_snap : ∀ c, rs_snapshot s = Some c →
    (rs_lastStart s - snap_at c ≤ nodeCacheStalenessTimeout)%Z ∧
    ∃ nodes, rs_listed s = Some (snap_at c, nodes) ∧ snap_nodes c = nodeMap nodes;
  inv_ready : rs_ready s = true ↔ is_Some (rs_listed s);
  inv_steady : (rs_phase s = Initial → rs_ready s = false) ∧ (rs_phase s = Steady → rs_ready s = true);
  inv_past : ∀ t nodes, rs_listed s = Some (t, nodes) → (t ≤ rs_now s)%Z
}.
Lemma cache_inv_start gap t0 : (0 ≤ gap)%Z → cache_inv gap (run_start t0).
Proof. intros Hg. split; simpl; try done; try lia. Qed.
Lemma cache_inv_step gap s s' : (0 ≤ gap)%Z → run_step gap s s' → cache_inv gap s → cache_inv gap s'.
Proof.
  intros Hg Hst [H1 H2 H3 H4 H5]. destruct Hst as [s dt Hdt Hle|s Hl Hp|s nodes snap Hl Hs|s e snap Hl Hs|s Hl];
    simpl in *; simplify_eq.
  - split; simpl; [lia|done|done|done|]. intros t nodes Ht%H5. lia.
  - split; simpl; [lia| |done|done|done].
    unfold clearStale. destruct (rs_snapshot s) as [c|]; [|done]. intros c'.
    destruct (Z.ltb_spec nodeCacheStalenessTimeout (rs_now s - snap_at c)); [done|].
    intros [= <-]. split; [lia|]. by apply H2.
  - split; simpl; [lia| |naive_solver|naive_solver|naive_solver lia].
    intros c [= <-]. simpl. unfold nodeCacheStalenessTimeout. split; [lia|eauto].
  - split; simpl; done.
  - split; simpl; done.
Qed.
Lemma cache_inv_reachable gap t0 s :
  (0 ≤ gap)%Z → rtc (run_step gap) (run_start t0) s → cache_inv gap s.
Proof.
  intros Hg. apply (rtc_ind_r (cache_inv gap)); [by apply cache_inv_start|].
  intros s1 s2 _ Hs Hi. by eapply cache_inv_step.
Qed.
Lemma nodeMap_lookup nodes name :
  nodeMap nodes !! name = last (filter (λ n, node_Name n = name) nodes).
Proof.
  unfold nodeMap. induction nodes as [|n nodes IH] using rev_ind; [done|].
  rewrite foldl_app, filter_app, filter_cons, filter_nil. simpl. rewrite lookup_insert.
  repeat case_decide; try congruence; [by rewrite last_snoc|]. by rewrite app_nil_r.
Qed.

(** ** Properties *)

(** C36: what readers see.  At every moment of a run (also while a listing is in
    flight, and after the end of the run as long as the next refresh would not be due) a node found in the cache is the last node of that name in the most recent
    successful listing, and that listing returned at most the staleness timeout plus
    the gap between two refresh starts ago; before the first success nothing is
    found. *)
Theorem cache_never_stale (gap t0 : Z) (s : run_state) (name : string) (n : Node) :
  (0 ≤ gap)%Z → rtc (run_step gap) (run_start t0) s → cache_GetNode (rs_snapshot s) name = Some n →
  rs_ready s = true ∧
  ∃ t nodes, rs_listed s = Some (t, nodes) ∧
    last (filter (λ n, node_Name n = name) nodes) = Some n ∧
    (0 ≤ rs_now s - t ≤ nodeCacheStalenessTimeout + gap)%Z.
Proof.
  intros Hg Hr Hn. apply cache_inv_reachable in Hr as [H1 H2 H3 _ H5]; [|done].
  unfold cache_GetNode in Hn. destruct (rs_snapshot s) as [c|]; [|done]. simpl in Hn.
  destruct (H2 c eq_refl) as (Hage & nodes & Hl & Hm). split; [apply H3; eauto|].
  exists (snap_at c), nodes. split; [done|]. split; [by rewrite <-nodeMap_lookup, <-Hm|].
  apply H5 in Hl. lia.
Qed.
Definition w0 : Node :=
  mkNode "w-0" "c" "i" {[IDLE]} None [] "" "" None "" "" None None None None None None None None.
Lemma cache_never_stale_witness :
  ∃ s, rtc (run_step 130) (run_start 0) s ∧ cache_GetNode (rs_snapshot s) "w-0" = Some w0 ∧
       rs_ready s = true ∧ (rs_now s = 5)%Z.
Proof.
  assert (0 ≤ 130)%Z as Hg by lia.
  set (s1 := RunState Initial false true None 0 0 None).
  set (s2 := RunState Steady true false (Some (Snapshot (nodeMap [w0]) 0)) 0 0 (Some (0, [w0])%Z)).
  set (s3 := RunState Steady true false (Some (Snapshot (nodeMap [w0]) 0)) 5 0 (Some (0, [w0])%Z)).
  assert (rtc (run_step 130) (run_start 0) s3) as Hr.
  { eapply rtc_l; [apply (step_begin 130 (run_start 0)); done|].
    eapply rtc_l; [apply (step_listed 130 s1 [w0]); reflexivity|].
    eapply rtc_l; [apply (step_time 130 s2 5); simpl; lia|]. reflexivity. }
  assert (cache_GetNode (rs_snapshot s3) "w-0" = Some w0) as Hw
    by (unfold cache_GetNode; simpl; rewrite nodeMap_lookup; reflexivity).
  exists s3. split; [exact Hr|]. split; [exact Hw|].
  split; [exact (proj1 (cache_never_stale 130 0 s3 "w-0" w0 Hg Hr Hw))|reflexivity].
Defined.
