(* ===== verification/SlurmJob.v ===== *)
(** * Slurm jobs

    [internal/slurmapi/job.go]: a [Job] from slurmctld ([JobFromAPI]) and from
    slurmdbd ([JobFromAccountingAPI]), and the job listings of [client.go].  Times
    are Unix seconds.  Job states are the state names of the REST API, which the
    constants of the generated client stand for. *)
From S2P Require Import Prelude GoStrings HostList Tres SlurmNode.
From Stdlib Require Import Ascii.
From Stdlib Require String.

Record Job := mkJob {
  job_ID : Z;
  job_Name : string;
  job_State : string;
  job_StateReason : string;
  job_Partition : string;
  job_UserName : string;
  job_UserID : option Z;
  job_UserMail : string;
  job_StandardError : string;
  job_StandardOutput : string;
  job_Nodes : string;
  job_ScheduledNodes : string;
  job_RequiredNodes : string;
  job_NodeCount : option Z;
  job_ArrayJobID : option Z;
  job_ArrayTaskID : option Z;
  job_ArrayTaskString : string;
  job_SubmitTime : option Z;
  job_StartTime : option Z;
  job_EndTime : option Z;
  job_TresAllocated : string;
  job_TresRequested : string;
  job_CPUs : option Z;
  job_MemoryPerNode : option Z
}.

(** ** Conversions of optional numbers *)
Definition convertToInt (input : option NoValStruct) : option Z :=
  match input with
  | Some (NoVal (Some true) inf n) => match inf with Some true => None | _ => n end
  | _ => None
  end.
(** [convertToInt64] has the body of [convertToInt] at 64 bits. *)
Definition convertToInt64 (input : option NoValStruct) : option Z :=
  match input with
  | Some (NoVal (Some true) inf n) => match inf with Some true => None | _ => n end
  | _ => None
  end.
Definition convertToMetav1Time (input : option NoValStruct) : option Z :=
  match input with
  | Some (NoVal (Some true) inf (Some n)) => match inf with Some true => None | _ => Some n end
  | _ => None
  end.
Definition unixTimeToMetav1Time (input : option Z) : option Z :=
  match input with
  | Some n => if (n <=? 0)%Z then None else Some n
  | None => None
  end.
Definition isUnallocatedNodeList (s : string) : bool :=
  let s := TrimSpace s in
  String.eqb s "" || String.eqb s "None assigned" || String.eqb s "(null)".
Definition allocatedNodes (nodes : option string) : string :=
  match nodes with
  | Some s => if isUnallocatedNodeList s then "" else s
  | None => ""
  end.

(** ** slurmctld *)
Record V0044JobInfo := mkJobInfo {
  ji_JobId : option Z;
  ji_Name : option string;
  ji_JobState : option (list string);
  ji_StateReason : option string;
  ji_Partition : option string;
  ji_UserId : option Z;
  ji_UserName : option string;
  ji_GroupName : option string;
  ji_MailUser : option string;
  ji_StandardError : option string;
  ji_StandardOutput : option string;
  ji_Nodes : option string;
  ji_ScheduledNodes : option string;
  ji_RequiredNodes : option string;
  ji_NodeCount : option NoValStruct;
  ji_ArrayJobId : option NoValStruct;
  ji_ArrayTaskId : option NoValStruct;
  ji_ArrayTaskString : option string;
  ji_SubmitTime : option NoValStruct;
  ji_StartTime : option NoValStruct;
  ji_EndTime : option NoValStruct;
  ji_TresAllocStr : option string;
  ji_TresReqStr : option string;
  ji_Cpus : option NoValStruct;
  ji_MemoryPerNode : option NoValStruct
}.
Definition JobFromAPI (j : V0044JobInfo) : outcome Job :=
  match ji_JobId j with
  | None => Err (ErrMsg "job ID is missing")
  | Some id =>
      match ji_JobState j with
      | None | Some [] => Err (ErrMsg "job state is missing")
      | Some (state :: _) =>
          let userName :=
            match ji_UserName j with Some u => u | None => default "" (ji_GroupName j) end in
          Ok {| job_ID := id;
                job_Name := default "" (ji_Name j);
                job_State := state;
                job_StateReason := default "" (ji_StateReason j);
                job_Partition := default "" (ji_Partition j);
                job_UserName := userName;
                job_UserID := ji_UserId j;
                job_UserMail :=
                  match ji_MailUser j with
                  | Some mail =>
                      if negb (String.eqb userName "") && negb (String.eqb userName mail) then mail else ""
                  | None => ""
                  end;
                job_StandardError := default "" (ji_StandardError j);
                job_StandardOutput := default "" (ji_StandardOutput j);
                job_Nodes := allocatedNodes (ji_Nodes j);
                job_ScheduledNodes := default "" (ji_ScheduledNodes j);
                job_RequiredNodes := default "" (ji_RequiredNodes j);
                job_NodeCount := convertToInt (ji_NodeCount j);
                job_ArrayJobID := convertToInt (ji_ArrayJobId j);
                job_ArrayTaskID := convertToInt (ji_ArrayTaskId j);
                job_ArrayTaskString := default "" (ji_ArrayTaskString j);
                job_SubmitTime := convertToMetav1Time (ji_SubmitTime j);
                job_StartTime := convertToMetav1Time (ji_StartTime j);
                job_EndTime := convertToMetav1Time (ji_EndTime j);
                job_TresAllocated := default "" (ji_TresAllocStr j);
                job_TresRequested := default "" (ji_TresReqStr j);
                job_CPUs := convertToInt (ji_Cpus j);
                job_MemoryPerNode := convertToInt64 (ji_MemoryPerNode j) |}
      end
  end.

(** ** slurmdbd *)
Record jobState := mkJobState { st_Current : option (list string); st_Reason : option string }.
Record jobArray := mkJobArray { arr_JobId : option Z; arr_TaskId : option NoValStruct; arr_Task : option string }.
Record jobTime := mkJobTime {
  t_Submission : option Z; t_Start : option Z; t_End : option Z; t_Limit : option NoValStruct }.
Record jobTres := mkJobTres { tr_Allocated : option (list V0044Tres); tr_Requested : option (list V0044Tres) }.
Record jobRequired := mkJobRequired { rq_CPUs : option Z; rq_MemoryPerNode : option NoValStruct }.
Record V0044Job := mkAPIJob {
  aj_JobId : option Z;
  aj_Name : option string;
  aj_State : option jobState;
  aj_Partition : option string;
  aj_User : option string;
  aj_AssociationUser : option string;
  aj_StderrExpanded : option string;
  aj_Stderr : option string;
  aj_StdoutExpanded : option string;
  aj_Stdout : option string;
  aj_Nodes : option string;
  aj_AllocationNodes : option Z;
  aj_Array : option jobArray;
  aj_Time : option jobTime;
  aj_Tres : option jobTres;
  aj_Required : option jobRequired
}.
Definition stateRUNNING : string := "RUNNING".
(** [time.Duration(limitMin) * time.Minute], 64-bit nanoseconds, in whole seconds. *)
Definition limitSeconds (limitMin : Z) : Z := (wrap 64 (limitMin * 60000000000) / 1000000000)%Z.
(** The end time: the recorded one, or for a running job with a limit the start
    plus the limit in minutes. *)
Definition accountingEndTime (state : string) (t : jobTime) : option Z :=
  match unixTimeToMetav1Time (t_End t) with
  | Some e => Some e
  | None =>
      if String.eqb state stateRUNNING then
        start ← unixTimeToMetav1Time (t_Start t);
        if (0 <? start)%Z then limitMin ← convertToInt (t_Limit t); Some (start + limitSeconds limitMin)%Z else None
      else None
  end.
Definition JobFromAccountingAPI (j : V0044Job) : outcome Job :=
  match aj_JobId j with
  | None => Err (ErrMsg "job ID is missing")
  | Some id =>
      match aj_State j with
      | Some (mkJobState (Some (state :: _)) reason) =>
          Ok {| job_ID := id;
                job_Name := default "" (aj_Name j);
                job_State := state;
                job_StateReason := default "" reason;
                job_Partition := default "" (aj_Partition j);
                job_UserName := match aj_User j with Some u => u | None => default "" (aj_AssociationUser j) end;
                job_UserID := None;
                job_UserMail := "";
                job_StandardError :=
                  match aj_StderrExpanded j with Some e => e | None => default "" (aj_Stderr j) end;
                job_StandardOutput :=
                  match aj_StdoutExpanded j with Some o => o | None => default "" (aj_Stdout j) end;
                job_Nodes := allocatedNodes (aj_Nodes j);
                job_ScheduledNodes := "";
                job_RequiredNodes := "";
                job_NodeCount := n ← aj_AllocationNodes j; if (0 <? n)%Z then Some n else None;
                job_ArrayJobID := aj_Array j ≫= arr_JobId;
                job_ArrayTaskID := convertToInt (aj_Array j ≫= arr_TaskId);
                job_ArrayTaskString := default "" (aj_Array j ≫= arr_Task);
                job_SubmitTime := t ← aj_Time j; unixTimeToMetav1Time (t_Submission t);
                job_StartTime := t ← aj_Time j; unixTimeToMetav1Time (t_Start t);
                job_EndTime := t ← aj_Time j; accountingEndTime state t;
                job_TresAllocated :=
                  match aj_Tres j with Some t => tresListToString (tr_Allocated t) | None => "" end;
                job_TresRequested :=
                  match aj_Tres j with Some t => tresListToString (tr_Requested t) | None => "" end;
                job_CPUs := aj_Required j ≫= rq_CPUs;
                job_MemoryPerNode := convertToInt64 (aj_Required j ≫= rq_MemoryPerNode) |}
      | _ => Err (ErrMsg "job state is missing")
      end
  end.

(** ** Accessors *)
Definition GetIDString (j : Job) : string := Itoa (job_ID j).
Definition GetArrayJobIDString (j : Job) : string :=
  match job_ArrayJobID j with None => "" | Some n => Itoa n end.
Definition GetArrayTaskIDString (j : Job) : string :=
  match job_ArrayTaskID j with Some n => Itoa n | None => job_ArrayTaskString j end.
Definition GetNodeList (j : Job) : outcome (list string) := parseNodeList (job_Nodes j).
Definition GetScheduledNodeList (j : Job) : outcome (list string) := parseNodeList (job_ScheduledNodes j).
Definition GetRequiredNodeList (j : Job) : outcome (list string) := parseNodeList (job_RequiredNodes j).
Definition terminalStates : list string :=
  ["FAILED"; "CANCELLED"; "TIMEOUT"; "OUT_OF_MEMORY"; "BOOT_FAIL"; "DEADLINE"; "LAUNCH_FAILED";
   "NODE_FAIL"; "PREEMPTED"; "RECONFIG_FAIL"; "REVOKED"; "SPECIAL_EXIT"; "COMPLETED"; "STOPPED"].
Definition IsTerminalState (j : Job) : bool := bool_decide (job_State j ∈ terminalStates).
Definition IsFailedState (j : Job) : bool := String.eqb (job_State j) "FAILED".
Definition IsCompletedState (j : Job) : bool := String.eqb (job_State j) "COMPLETED".
Definition IsCancelledState (j : Job) : bool := String.eqb (job_State j) "CANCELLED".

(** ** Listings *)
Definition derefInt64 (p : option Z) : Z := default 0%Z p.
Definition isStaleAccountingPending (j : V0044Job) (submitCutoff : Z) : bool :=
  match aj_Time j with
  | None => false
  | Some t =>
      let end_ := derefInt64 (t_End t) in
      let start := derefInt64 (t_Start t) in
      let submit := derefInt64 (t_Submission t) in
      (end_ =? 0)%Z && (start =? 0)%Z && (0 <? submit)%Z && (submit <? submitCutoff)%Z
  end.
Definition stalePendingMaxAge : Z := 30 * 24 * 3600.

Record body (J : Type) := Body { jb_Errors : option (list string); jb_Jobs : list J }.
Arguments Body {J} _ _.
Arguments jb_Errors {J} _.
Arguments jb_Jobs {J} _.
Definition checkBody {J} (what : string) (resp : response (body J)) : outcome (list J) :=
  match resp with
  | NoResponse e => Err (ErrWrap what e)
  | NoJSON200 => Err (ErrMsg (what +:+ ": unexpected status"))
  | JSON200 b =>
      if has_errors (jb_Errors b) then Err (ErrMsg (what +:+ " responded with errors")) else Ok (jb_Jobs b)
  end.
Fixpoint convertJobs {J} (conv : J → outcome Job) (l : list J) : outcome (list Job) :=
  match l with
  | [] => Ok []
  | j :: l => let? job := conv j in let? jobs := convertJobs conv l in Ok (job :: jobs)
  end.
Definition listControllerJobs (resp : response (body V0044JobInfo)) : outcome (list Job) :=
  let? jobs := checkBody "list jobs from controller API" resp in
  convertJobs (λ j, wrap_err "convert job from controller api response" (JobFromAPI j)) jobs.
Definition GetJobsByIDFromAccounting (resp : response (body V0044Job)) : outcome (list Job) :=
  let? jobs := checkBody "get job" resp in
  convertJobs (λ j, wrap_err "convert job from accounting api response" (JobFromAccountingAPI j)) jobs.

(** The query [listAccountingJobs] sends, and what it makes of the answer.  [now]
    is the clock at the call. *)
Record ListJobsParams := mkParams { p_Source : string; p_AccountingCluster : string; p_AccountingLookback : Z }.
Definition accountingEndTimeSkew : Z := 5 * 60.
Record jobsQuery := JobsQuery { q_Cluster : option string; q_StartTime : string; q_EndTime : string }.
Definition accountingQuery (now : Z) (params : ListJobsParams) : jobsQuery :=
  JobsQuery (if String.eqb (p_AccountingCluster params) "" then None else Some (p_AccountingCluster params))
    ("uts" +:+ Itoa (now - p_AccountingLookback params)) ("uts" +:+ Itoa (now + accountingEndTimeSkew)).
Definition keepJobs (now : Z) (jobs : list V0044Job) : list V0044Job :=
  filter (λ j, isStaleAccountingPending j (now - stalePendingMaxAge) = false) jobs.
Definition listAccountingJobs (db : jobsQuery → response (body V0044Job)) (now : Z)
    (params : ListJobsParams) : outcome (list Job) :=
  if (p_AccountingLookback params <=? 0)%Z
  then Err (ErrMsg "list jobs from accounting API: AccountingLookback must be > 0")
  else let? jobs := checkBody "list jobs from accounting API" (db (accountingQuery now params)) in
       convertJobs (λ j, wrap_err "convert job from accounting api response" (JobFromAccountingAPI j))
         (keepJobs now jobs).
Definition ListJobsWithParams (ctl : response (body V0044JobInfo))
    (db : jobsQuery → response (body V0044Job)) (now : Z) (params : ListJobsParams) : outcome (list Job) :=
  let source := if String.eqb (p_Source params) "" then "controller" else p_Source params in
  if String.eqb source "controller" then listControllerJobs ctl
  else if String.eqb source "accounting" then listAccountingJobs db now params
  else Err (ErrMsg "list jobs: unsupported source").

(** ** Lemmas *)
Lemma convertJobs_ok {J} (conv : J → outcome Job) l jobs :
  convertJobs conv l = Ok jobs ↔ Forall2 (λ j job, conv j = Ok job) l jobs.
Proof.
  revert jobs. induction l as [|j l IH]; intros jobs; simpl.
  { split; [intros [= <-]; constructor|]. inversion 1. done. }
  destruct (conv j) as [job|e|w] eqn:E; simpl.
  - destruct (convertJobs conv l) as [rest|e|w]; simpl.
    + split; [intros [= <-]; constructor; [done|]; by apply IH|].
      inversion 1 as [|? ? ? ? Hj Hl]; subst. apply IH in Hl. simplify_eq. congruence.
    + split; [done|]. inversion 1 as [|? ? ? ? Hj Hl]; subst. by apply IH in Hl.
    + split; [done|]. inversion 1 as [|? ? ? ? Hj Hl]; subst. by apply IH in Hl.
  - split; [done|]. inversion 1; congruence.
  - split; [done|]. inversion 1; congruence.
Qed.
Lemma wrap_err_ok {A} msg (m : outcome A) a : wrap_err msg m = Ok a ↔ m = Ok a.
Proof. by destruct m. Qed.
Lemma unixTime_Some t n : unixTimeToMetav1Time t = Some n ↔ t = Some n ∧ (0 < n)%Z.
Proof.
  unfold unixTimeToMetav1Time. destruct t as [m|]; [|naive_solver].
  destruct (Z.leb_spec m 0); naive_solver lia.
Qed.

Lemma limitSeconds_exact m : (0 ≤ m ≤ 153722867)%Z → limitSeconds m = (m * 60)%Z.
Proof.
  intros Hm. unfold limitSeconds. rewrite wrap_small by (unfold min_int, max_int; lia).
  replace (m * 60000000000)%Z with (m * 60 * 1000000000)%Z by lia. by rewrite Z.div_mul.
Qed.

(** ** Properties *)

(** The times and the node count of a job read from slurmdbd.  A zero or missing
    time is no time; the end of an unfinished job is projected from its start and its
    time limit exactly when it is RUNNING and has both, and exactly for every limit
    that fits Go's durations (292 years); a node count of zero (a pending
    job) is no count, so per-node figures are never multiplied by zero. *)
Theorem accounting_job_times (j : V0044Job) (job : Job) (t : jobTime) :
  JobFromAccountingAPI j = Ok job → aj_Time j = Some t →
  (∀ s, job_StartTime job = Some s ↔ t_Start t = Some s ∧ (0 < s)%Z) ∧
  (∀ e, t_End t = Some e → (0 < e)%Z → job_EndTime job = Some e) ∧
  ((∀ e, t_End t = Some e → (e ≤ 0)%Z) →
     ∀ e, job_EndTime job = Some e ↔
          job_State job = stateRUNNING ∧
          ∃ s m, job_StartTime job = Some s ∧ convertToInt (t_Limit t) = Some m ∧ e = (s + limitSeconds m)%Z ∧
                     ((0 ≤ m ≤ 153722867)%Z → e = (s + m * 60)%Z)) ∧
  (∀ n, job_NodeCount job = Some n ↔ aj_AllocationNodes j = Some n ∧ (0 < n)%Z).
Proof.
  unfold JobFromAccountingAPI. destruct (aj_JobId j); [|done].
  destruct (aj_State j) as [[[[|state ?]|] reason]|]; try done. intros [= <-] Ht. simpl. rewrite Ht. simpl.
  split_and!.
  - intros s. apply unixTime_Some.
  - intros e He Hpos. unfold accountingEndTime.
    assert (unixTimeToMetav1Time (t_End t) = Some e) as -> by by apply unixTime_Some. done.
  - intros Hend e. unfold accountingEndTime.
    destruct (unixTimeToMetav1Time (t_End t)) as [e'|] eqn:E.
    { apply unixTime_Some in E as [E ?]. specialize (Hend _ E). lia. }
    destruct (String.eqb_spec state stateRUNNING) as [->|]; [|naive_solver].
    destruct (unixTimeToMetav1Time (t_Start t)) as [s|] eqn:Es; simpl; [|naive_solver].
    apply unixTime_Some in Es as [_ Hs]. destruct (Z.ltb_spec 0 s); [|lia].
    destruct (convertToInt (t_Limit t)) as [m|]; simpl; [|naive_solver].
    split; [intros [= <-]|naive_solver]. split; [done|]. exists s, m. split_and!; [done..|].
    intros Hm. by rewrite limitSeconds_exact.
  - intros n. destruct (aj_AllocationNodes j) as [m|]; simpl; [|naive_solver].
    destruct (Z.ltb_spec 0 m); naive_solver lia.
Qed.
Definition running_job : V0044Job :=
  mkAPIJob (Some 7%Z) None (Some (mkJobState (Some [stateRUNNING]) None)) None None None None None None None None
    (Some 0%Z) None (Some (mkJobTime (Some 90%Z) (Some 100%Z) (Some 0%Z) (Some (NoVal (Some true) None (Some 2%Z)))))
    None None.
Lemma accounting_job_times_witness :
  ∃ job, JobFromAccountingAPI running_job = Ok job ∧ job_EndTime job = Some 220%Z ∧ job_NodeCount job = None.
Proof.
  eexists. split; [reflexivity|].
  edestruct (accounting_job_times running_job) as (_ & _ & H3 & _); [reflexivity|reflexivity|].
  split; [|reflexivity]. apply H3; [by intros ? [= <-]|]. split; [reflexivity|]. exists 100%Z, 2%Z. split_and!; [reflexivity|reflexivity|reflexivity|]. intros _. reflexivity.
Defined.

(** The accounting listing drops exactly the zombie rows.  The jobs returned are,
    in order, the conversions of the rows of the answer that are not stale; a row that
    started, ended or was submitted within the last 30 days is kept, and nothing is
    returned at all when one kept row cannot be converted. *)
Theorem accounting_listing_complete db (now : Z) (params : ListJobsParams) (rows : list V0044Job) :
  (0 < p_AccountingLookback params)%Z →
  db (accountingQuery now params) = JSON200 (Body None rows) →
  (∀ jobs, listAccountingJobs db now params = Ok jobs ↔
     Forall2 (λ j job, JobFromAccountingAPI j = Ok job) (keepJobs now rows) jobs) ∧
  (∀ j t, j ∈ rows → aj_Time j = Some t →
     (derefInt64 (t_Start t) ≠ 0 ∨ derefInt64 (t_End t) ≠ 0 ∨
      now - stalePendingMaxAge ≤ derefInt64 (t_Submission t))%Z → j ∈ keepJobs now rows).
Proof.
  intros Hl Hdb. split.
  - intros jobs. unfold listAccountingJobs. destruct (Z.leb_spec (p_AccountingLookback params) 0); [lia|].
    rewrite Hdb. simpl. rewrite convertJobs_ok.
    split; intros HF; eapply Forall2_impl; [exact HF| |exact HF|]; intros ? ?; by rewrite wrap_err_ok.
  - intros j t Hj Ht Hc. apply list_elem_of_filter. split; [|done].
    unfold isStaleAccountingPending. rewrite Ht.
    destruct (Z.eqb_spec (derefInt64 (t_End t)) 0), (Z.eqb_spec (derefInt64 (t_Start t)) 0),
      (Z.ltb_spec 0 (derefInt64 (t_Submission t))),
      (Z.ltb_spec (derefInt64 (t_Submission t)) (now - stalePendingMaxAge)); simpl; try done; lia.
Qed.
Lemma accounting_listing_complete_witness :
  let zombie := mkAPIJob (Some 3%Z) None None None None None None None None None None None None
                  (Some (mkJobTime (Some 5%Z) None None None)) None None in
  let params := mkParams "accounting" "" 3600 in
  ∃ job, listAccountingJobs (λ _, JSON200 (Body None [zombie; running_job])) 10000000 params = Ok [job].
Proof.
  intros zombie params. eexists.
  apply (accounting_listing_complete _ 10000000 params [zombie; running_job]); [simpl; lia|reflexivity|].
  constructor; [reflexivity|constructor].
Defined.
