(* ===== verification/Exporter.v ===== *)
(** * The metrics exporter

    [internal/exporter]: four sub-collectors (nodes, jobs, controller diagnostics, Kubernetes
    topology) refresh a shared state in the background, and a scrape turns that state into
    Prometheus metrics.

    - [collector.go], [state.go]: the refreshes, the counters and histograms derived from
      successive node listings, and the metrics of a scrape;
    - [exporter.go]: the loop that starts the sub-collectors with a bound on the runs in flight,
      as a step relation in which runs end in any order;
    - [monitoring.go]: the exporter's own counters;
    - [kubernetes_topology.go], [reservation.go]: the topology listing and the trimming of
      reservation names.

    Instants and durations are nanoseconds (a [time.Duration] is clamped to 64 bits, as [Sub]
    does).  A metric value is the rational number that the code computes in [float64]. *)
From S2P Require Import Prelude GoStrings Tres SlurmNode SlurmJob.
From Stdlib Require Import Ascii.
From Stdlib Require QArith.
From Stdlib Require String.

(** ** Runes *)
Definition byte_of (c : ascii) : Z := Z.of_N (N_of_ascii c).
Definition between (lo hi : Z) (c : ascii) : bool := ((lo <=? byte_of c) && (byte_of c <=? hi))%Z.
Definition continuation : ascii → bool := between 128 191.
(** [utf8.DecodeRuneInString]: how many bytes the first rune takes and whether it is well
    formed; a malformed byte counts as a rune of width one. *)
Definition head_rune (s : string) : nat * bool :=
  match s with
  | EmptyString => (0, false)
  | String c0 r =>
      if between 0 127 c0 then (1, true)
      else if between 194 223 c0 then
        match r with
        | String c1 _ => if continuation c1 then (2, true) else (1, false)
        | _ => (1, false)
        end
      else if between 224 239 c0 then
        let lo := if (byte_of c0 =? 224)%Z then 160%Z else 128%Z in
        let hi := if (byte_of c0 =? 237)%Z then 159%Z else 191%Z in
        match r with
        | String c1 (String c2 _) =>
            if between lo hi c1 && continuation c2 then (3, true) else (1, false)
        | _ => (1, false)
        end
      else if between 240 244 c0 then
        let lo := if (byte_of c0 =? 240)%Z then 144%Z else 128%Z in
        let hi := if (byte_of c0 =? 244)%Z then 143%Z else 191%Z in
        match r with
        | String c1 (String c2 (String c3 _)) =>
            if between lo hi c1 && continuation c2 && continuation c3 then (4, true) else (1, false)
        | _ => (1, false)
        end
      else (1, false)
  end%nat.
(** Loops over the runes of a string: [skip] bytes belong to the rune already seen. *)
Fixpoint rune_count (skip : nat) (s : string) : nat :=
  match s with
  | EmptyString => 0
  | String _ r =>
      match skip with
      | S j => rune_count j r
      | O => S (rune_count (pred (head_rune s).1) r)
      end
  end.
Definition RuneCountInString : string → nat := rune_count 0.
Fixpoint valid_from (skip : nat) (s : string) : bool :=
  match s with
  | EmptyString => true
  | String _ r =>
      match skip with
      | S j => valid_from j r
      | O => (head_rune s).2 && valid_from (pred (head_rune s).1) r
      end
  end.
Definition ValidString : string → bool := valid_from 0.

(** *** [reservation.go] *)
Definition maxReservationNameLength : nat := 50.
(** [for i := range name { if runeIndex == max { return name[:i] }; runeIndex++ }]. *)
Fixpoint cut_at_rune (room skip : nat) (s : string) : string :=
  match s with
  | EmptyString => EmptyString
  | String c r =>
      match skip with
      | S j => String c (cut_at_rune room j r)
      | O =>
          match room with
          | O => EmptyString
          | S room => String c (cut_at_rune room (pred (head_rune s).1) r)
          end
      end
  end.
Definition trimReservationName (name : string) : string :=
  if String.eqb name "" then ""
  else if (RuneCountInString name <=? maxReservationNameLength)%nat then name
  else cut_at_rune maxReservationNameLength 0 name.

(** ** Metrics *)
Record Desc := mkDesc { desc_name : string; desc_labels : list string }.
Inductive value :=
| GaugeValue (q : QArith_base.Q)
| CounterValue (q : QArith_base.Q)
| HistogramValue (observations : list Z).
Record Metric := mkMetric { metric_desc : Desc; metric_value : value; metric_labels : list string }.

(** [prometheus.MustNewConstMetric] panics when the number of label values is not that of the
    description or a value is not valid UTF-8. *)
Definition MustNewConstMetric (d : Desc) (v : value) (labels : list string) : outcome Metric :=
  if bool_decide (length labels = length (desc_labels d)) && forallb ValidString labels
  then Ok (mkMetric d v labels) else Halt "panic: inconsistent label cardinality or invalid label value".

Definition nodeInfo : Desc := mkDesc "slurm_node_info"
  ["node_name"; "instance_id"; "state_base"; "state_is_drain"; "state_is_maintenance";
   "state_is_reserved"; "state_is_completing"; "state_is_fail"; "state_is_planned";
   "state_is_not_responding"; "state_is_invalid"; "state_is_cloud"; "state_is_power_down";
   "state_is_power_drain"; "state_is_powered_down"; "state_is_powering_down"; "state_is_powering_up";
   "state_is_power_up"; "is_unavailable"; "reservation_name"; "address"; "reason"; "comment"].
Definition jobInfo : Desc := mkDesc "slurm_job_info"
  ["job_id"; "job_state"; "job_state_reason"; "slurm_partition"; "job_name"; "user_name"; "user_mail";
   "user_id"; "standard_error"; "standard_output"; "array_job_id"; "array_task_id"; "submit_time";
   "start_time"; "end_time"; "finished_time"].
Definition nodeCPUTotal : Desc := mkDesc "slurm_node_cpus_total" ["node_name"].
Definition nodeCPUAllocated : Desc := mkDesc "slurm_node_cpus_allocated" ["node_name"].
Definition nodeCPUIdle : Desc := mkDesc "slurm_node_cpus_idle" ["node_name"].
Definition nodeCPUEffective : Desc := mkDesc "slurm_node_cpus_effective" ["node_name"].
Definition nodeMemoryTotalBytes : Desc := mkDesc "slurm_node_memory_total_bytes" ["node_name"].
Definition nodeMemoryAllocatedBytes : Desc := mkDesc "slurm_node_memory_allocated_bytes" ["node_name"].
Definition nodeMemoryFreeBytes : Desc := mkDesc "slurm_node_memory_free_bytes" ["node_name"].
Definition nodeMemoryEffectiveBytes : Desc := mkDesc "slurm_node_memory_effective_bytes" ["node_name"].
Definition nodePartition : Desc := mkDesc "slurm_node_partition" ["node_name"; "partition"].
Definition nodeNVLinkInstanceGroup : Desc := mkDesc "slurm_node_nvlink_instance_group"
  ["node_name"; "instance_id"; "nvlink_instance_group"; "nodeset_name"].
Definition jobNode : Desc := mkDesc "slurm_node_job"
  ["job_id"; "node_name"; "nvlink_instance_group"; "nodeset_name"].
Definition jobDuration : Desc := mkDesc "slurm_job_duration_seconds" ["job_id"].
Definition jobCPUs : Desc := mkDesc "slurm_job_cpus" ["job_id"].
Definition jobMemoryBytes : Desc := mkDesc "slurm_job_memory_bytes" ["job_id"].
Definition nodeGPUSeconds : Desc := mkDesc "slurm_node_gpu_seconds_total"
  ["node_name"; "state_base"; "state_is_drain"; "state_is_maintenance"; "state_is_reserved"].
Definition nodeFails : Desc := mkDesc "slurm_node_fails_total"
  ["node_name"; "state_base"; "state_is_drain"; "state_is_maintenance"; "state_is_reserved"; "reason"].
Definition nodeUnavailabilityDuration : Desc :=
  mkDesc "slurm_node_unavailability_duration_seconds" ["node_name"].
Definition nodeDrainingDuration : Desc := mkDesc "slurm_node_draining_duration_seconds" ["node_name"].
Definition rpcCallsTotal : Desc := mkDesc "slurm_controller_rpc_calls_total" ["message_type"].
Definition rpcDurationSecondsTotal : Desc :=
  mkDesc "slurm_controller_rpc_duration_seconds_total" ["message_type"].
Definition rpcUserCallsTotal : Desc := mkDesc "slurm_controller_rpc_user_calls_total" ["user"; "user_id"].
Definition rpcUserDurationSecondsTotal : Desc :=
  mkDesc "slurm_controller_rpc_user_duration_seconds_total" ["user"; "user_id"].
Definition controllerServerThreadCount : Desc := mkDesc "slurm_controller_server_thread_count" [].

(** ** State *)
Record NodeTopology := mkNodeTopology {
  KubernetesNode : string; NVLinkInstanceGroup : string; SlurmNodeSetName : string }.
Record rpcByType := mkRpc { rpc_MessageType : string; rpc_Count : Z; rpc_TotalTime : Z }.
Record rpcByUser := mkUserRpc {
  user_User : string; user_UserId : Z; user_Count : Z; user_TotalTime : Z }.
Record V0044OpenapiDiagResp := mkDiag {
  ServerThreadCount : option Z;
  RpcsByMessageType : option (list rpcByType);
  RpcsByUser : option (list rpcByUser) }.

Record metricsCollectorState := mkState {
  lastGPUSecondsUpdate : Z;
  nodes : list Node;
  nodesCollectionSequence : Z;
  jobs : list Job;
  jobsCollectionSequence : Z;
  diag : option V0044OpenapiDiagResp;
  diagCollectionSequence : Z;
  nodeTopologies : gmap string NodeTopology;
  topologyCollectionSequence : Z;
  nodeUnavailabilityStartTimes : gmap string Z;
  nodeDrainingStartTimes : gmap string Z }.
Definition newMetricsCollectorState (now : Z) : metricsCollectorState :=
  mkState now [] 0 [] 0 None 0 ∅ 0 ∅ ∅.

(** Counters by label values and observations by node, in the order they were made. *)
Record vectors := mkVectors {
  gpuSeconds : gmap (list string) Z;
  fails : gmap (list string) Z;
  unavailability : gmap string (list Z);
  draining : gmap string (list Z) }.
Definition no_vectors : vectors := mkVectors ∅ ∅ ∅ ∅.

(** ** States of a node *)
Definition isNodeUnavailable (node : Node) : bool :=
  if IsPowerManaged node then false
  else if IsDownState node then true
  else if IsNotRespondingState node then true
  else if bool_decide (BaseState node = Some IDLE) && IsDrainState node then true
  else if bool_decide (BaseState node = Some UNKNOWN) then true
  else if bool_decide (BaseState node = Some ERROR) then true
  else if IsFailState node then true
  else if IsInvalidState node then true
  else false.
Definition isNodeDraining (node : Node) : bool :=
  if negb (IsDrainState node) then false
  else bool_decide (BaseState node = Some ALLOCATED) || bool_decide (BaseState node = Some MIXED).

(** [string(node.BaseState())]. *)
Definition base_state_label (n : Node) : string :=
  match BaseState n with
  | Some UNKNOWN => "UNKNOWN" | Some DOWN => "DOWN" | Some IDLE => "IDLE"
  | Some ALLOCATED => "ALLOCATED" | Some ERROR => "ERROR" | Some MIXED => "MIXED"
  | Some FUTURE => "FUTURE" | _ => ""
  end.
Definition FormatBool (b : bool) : string := if b then "true" else "false".
Definition boolToLabelValue (b : bool) : string := if b then "true" else "".

(** [t.Sub(u)] saturates. *)
Definition Sub (t u : Z) : Z := Z.max (min_int 64) (Z.min (max_int 64) (t - u)).

(** ** Counters and histograms *)
Definition state_labels (node : Node) : list string :=
  [node_Name node; base_state_label node; FormatBool (IsDrainState node);
   FormatBool (IsMaintenanceState node); FormatBool (IsReservedState node)].
(** [Counter.Add] panics on a negative increment. *)
Definition counter_add (key : list string) (inc : Z) (m : gmap (list string) Z) :
    outcome (gmap (list string) Z) :=
  if (inc <? 0)%Z then Halt "panic: counter cannot decrease in value"
  else Ok (<[key := (default 0 (m !! key) + inc)%Z]> m).
(** Increments are in GPU nanoseconds. *)
Fixpoint updateGPUSecondsMetrics (currentNodes : list Node) (previousTime currentTime : Z)
    (m : gmap (list string) Z) : outcome (gmap (list string) Z) :=
  match currentNodes with
  | [] => Ok m
  | node :: rest =>
      match ParseTrackableResources (node_Tres node) with
      | Ok tres =>
          let gpuSecondsInc := (Sub currentTime previousTime * GPUCount tres)%Z in
          let? m := counter_add (state_labels node) gpuSecondsInc m in
          updateGPUSecondsMetrics rest previousTime currentTime m
      | Err _ => updateGPUSecondsMetrics rest previousTime currentTime m
      | Halt w => Halt w
      end
  end.

(** [make(map[string]slurmapi.Node)] filled in order: of two nodes with one name the later
    stays. *)
Definition nodesByName (l : list Node) : gmap string Node :=
  foldl (λ m n, <[node_Name n := n]> m) ∅ l.

(** The closure [processTransition]: start times of the state and finished durations. *)
Definition processTransition (stateChecker : Node → bool) (previousNodes : gmap string Node)
    (currentTime : Z) (node : Node) (st : gmap string Z * gmap string (list Z)) :
    gmap string Z * gmap string (list Z) :=
  let '(startTimes, histogram) := st in
  let current := stateChecker node in
  let previous := match previousNodes !! node_Name node with
                  | Some previousNode => stateChecker previousNode
                  | None => false
                  end in
  if current && negb previous then (<[node_Name node := currentTime]> startTimes, histogram)
  else if negb current && previous then
    match startTimes !! node_Name node with
    | Some startTime =>
        (delete (node_Name node) startTimes,
         <[node_Name node := default [] (histogram !! node_Name node) ++ [Sub currentTime startTime]]> histogram)
    | None => st
    end
  else st.
Definition track (stateChecker : Node → bool) (currentNodes : list Node) (previousNodes : gmap string Node)
    (currentTime : Z) (st : gmap string Z * gmap string (list Z)) : gmap string Z * gmap string (list Z) :=
  foldl (λ st node, processTransition stateChecker previousNodes currentTime node st) st currentNodes.
(** The two calls of the closure work on maps of their own. *)
Definition updateNodeStateMetrics (currentNodes : list Node) (previousState newState : metricsCollectorState)
    (currentTime : Z) (v : vectors) : metricsCollectorState * vectors :=
  let previousNodesMap := nodesByName (nodes previousState) in
  let '(unavailabilityStart, unavailabilityHist) :=
    track isNodeUnavailable currentNodes previousNodesMap currentTime
      (nodeUnavailabilityStartTimes newState, unavailability v) in
  let '(drainingStart, drainingHist) :=
    track isNodeDraining currentNodes previousNodesMap currentTime
      (nodeDrainingStartTimes newState, draining v) in
  (mkState (lastGPUSecondsUpdate newState) (nodes newState) (nodesCollectionSequence newState)
     (jobs newState) (jobsCollectionSequence newState) (diag newState) (diagCollectionSequence newState)
     (nodeTopologies newState) (topologyCollectionSequence newState) unavailabilityStart drainingStart,
   mkVectors (gpuSeconds v) (fails v) unavailabilityHist drainingHist).

Definition node_failed (node : Node) : bool :=
  (IsDownState node || IsDrainState node) && negb (IsPowerManaged node).
Definition reason_label (node : Node) : string :=
  match node_Reason node with Some r => reason_Reason r | None => "" end.
Definition updateNodeFailureMetrics (currentNodes previousNodes : list Node) (m : gmap (list string) Z) :
    gmap (list string) Z :=
  let previousNodesMap := nodesByName previousNodes in
  foldl (λ m node,
    match previousNodesMap !! node_Name node with
    | Some existingNode =>
        if negb (node_failed existingNode) && node_failed node then
          let key := state_labels node ++ [reason_label node] in
          <[key := (default 0 (m !! key) + 1)%Z]> m
        else m
    | None => m
    end) m currentNodes.

(** ** The exporter's own metrics ([monitoring.go]) *)
Record MonitoringMetrics := mkMonitoring {
  collectionAttempts : Z;
  collectionFailures : Z;
  collectionDuration : Z;
  collectorDuration : gmap string Z;
  collectorErrors : gmap string Z;
  collectorInflight : gmap string Z;
  collectorSkipped : gmap string Z;
  metricsRequests : Z;
  metricsExported : Z }.
Definition NewMonitoringMetrics : MonitoringMetrics := mkMonitoring 0 0 0 ∅ ∅ ∅ ∅ 0 0.
Definition inc (k : string) (m : gmap string Z) : gmap string Z := <[k := (default 0 (m !! k) + 1)%Z]> m.
Definition RecordCollection (duration : Z) (failed : bool) (m : MonitoringMetrics) : MonitoringMetrics :=
  mkMonitoring (collectionAttempts m + 1) (collectionFailures m + if failed then 1 else 0) duration
    (collectorDuration m) (collectorErrors m) (collectorInflight m) (collectorSkipped m)
    (metricsRequests m) (metricsExported m).
Definition RecordCollectorDuration (collector : string) (duration : Z) (m : MonitoringMetrics) : MonitoringMetrics :=
  mkMonitoring (collectionAttempts m) (collectionFailures m) (collectionDuration m)
    (<[collector := duration]> (collectorDuration m)) (collectorErrors m) (collectorInflight m)
    (collectorSkipped m) (metricsRequests m) (metricsExported m).
Definition SetCollectorInflight (collector : string) (inflight : Z) (m : MonitoringMetrics) : MonitoringMetrics :=
  mkMonitoring (collectionAttempts m) (collectionFailures m) (collectionDuration m) (collectorDuration m)
    (collectorErrors m) (<[collector := inflight]> (collectorInflight m)) (collectorSkipped m)
    (metricsRequests m) (metricsExported m).
Definition RecordCollectorError (collector : string) (m : MonitoringMetrics) : MonitoringMetrics :=
  mkMonitoring (collectionAttempts m) (collectionFailures m) (collectionDuration m) (collectorDuration m)
    (inc collector (collectorErrors m)) (collectorInflight m) (collectorSkipped m)
    (metricsRequests m) (metricsExported m).
Definition RecordCollectorSkipped (collector : string) (m : MonitoringMetrics) : MonitoringMetrics :=
  mkMonitoring (collectionAttempts m) (collectionFailures m) (collectionDuration m) (collectorDuration m)
    (collectorErrors m) (collectorInflight m) (inc collector (collectorSkipped m))
    (metricsRequests m) (metricsExported m).
Definition RecordMetricsRequest (m : MonitoringMetrics) : MonitoringMetrics :=
  mkMonitoring (collectionAttempts m) (collectionFailures m) (collectionDuration m) (collectorDuration m)
    (collectorErrors m) (collectorInflight m) (collectorSkipped m) (metricsRequests m + 1) (metricsExported m).
Definition RecordMetricsExported (count : Z) (m : MonitoringMetrics) : MonitoringMetrics :=
  mkMonitoring (collectionAttempts m) (collectionFailures m) (collectionDuration m) (collectorDuration m)
    (collectorErrors m) (collectorInflight m) (collectorSkipped m) (metricsRequests m) count.

(** ** Refreshes *)
Record MetricsCollector := mkCollector {
  state : metricsCollectorState; vecs : vectors; Monitoring : MonitoringMetrics }.
Definition newMetricsCollector (now : Z) : MetricsCollector :=
  mkCollector (newMetricsCollectorState now) no_vectors NewMonitoringMetrics.

Definition cloneMetricsCollectorState (previousState : metricsCollectorState) : metricsCollectorState :=
  mkState (lastGPUSecondsUpdate previousState) (nodes previousState) (nodesCollectionSequence previousState)
    (jobs previousState) (jobsCollectionSequence previousState) (diag previousState)
    (diagCollectionSequence previousState) (nodeTopologies previousState)
    (topologyCollectionSequence previousState) (nodeUnavailabilityStartTimes previousState)
    (nodeDrainingStartTimes previousState).

(** [set] is the code's [if sequence != 0 { newState.x = sequence }]. *)
Definition next_sequence (sequence old : Z) : Z := if (sequence =? 0)%Z then old else sequence.
Definition outdated (sequence stored : Z) : bool := negb (sequence =? 0)%Z && (sequence <=? stored)%Z.

(** When a run starts and ends, whether its context is cancelled by then, and the two instants
    at which [applyNodes] reads the clock. *)
Record timing := mkTiming {
  run_start : Z; run_end : Z; run_cancelled : bool; apply_now1 : Z; apply_now2 : Z }.
Definition recordCollectorRun (t : timing) (name : string) (failed : bool) (m : MonitoringMetrics) :
    MonitoringMetrics :=
  let m := if failed && negb (run_cancelled t) then RecordCollectorError name m else m in
  RecordCollectorDuration name (Sub (run_end t) (run_start t)) m.

Definition applyNodes (t : timing) (l : list Node) (previousState newState : metricsCollectorState)
    (v : vectors) : outcome (metricsCollectorState * vectors) :=
  let newState :=
    mkState (lastGPUSecondsUpdate newState) l (nodesCollectionSequence newState)
      (jobs newState) (jobsCollectionSequence newState) (diag newState) (diagCollectionSequence newState)
      (nodeTopologies newState) (topologyCollectionSequence newState)
      (nodeUnavailabilityStartTimes newState) (nodeDrainingStartTimes newState) in
  let v := mkVectors (gpuSeconds v) (updateNodeFailureMetrics l (nodes previousState) (fails v))
             (unavailability v) (draining v) in
  let '(newState, v) := updateNodeStateMetrics l previousState newState (apply_now1 t) v in
  let? gpu := updateGPUSecondsMetrics l (lastGPUSecondsUpdate previousState) (apply_now2 t) (gpuSeconds v) in
  Ok (mkState (apply_now2 t) (nodes newState) (nodesCollectionSequence newState)
        (jobs newState) (jobsCollectionSequence newState) (diag newState) (diagCollectionSequence newState)
        (nodeTopologies newState) (topologyCollectionSequence newState)
        (nodeUnavailabilityStartTimes newState) (nodeDrainingStartTimes newState),
      mkVectors gpu (fails v) (unavailability v) (draining v)).

(** What a refresh does with the answer of the API: the failure is counted and leaves the state
    as it was; an answer older than the stored one is dropped; otherwise [store] makes the new
    state from a copy of the old one, under the lock. *)
Definition refresh {A} (t : timing) (name what : string) (answer : outcome A) (stored : metricsCollectorState → Z)
    (sequence : Z) (store : A → metricsCollectorState → metricsCollectorState → vectors →
                            outcome (metricsCollectorState * vectors)) : M MetricsCollector () :=
  λ c,
  match answer with
  | Halt w => (c, Halt w)
  | Err e => (mkCollector (state c) (vecs c) (recordCollectorRun t name true (Monitoring c)), Err (ErrWrap what e))
  | Ok a =>
      if outdated sequence (stored (state c)) then
        (mkCollector (state c) (vecs c) (recordCollectorRun t name false (Monitoring c)), Ok tt)
      else
        match store a (state c) (cloneMetricsCollectorState (state c)) (vecs c) with
        | Ok (newState, v) => (mkCollector newState v (recordCollectorRun t name false (Monitoring c)), Ok tt)
        | Err e => (c, Err e)
        | Halt w => (c, Halt w)
        end
  end.
Definition refreshNodes (t : timing) (listing : outcome (list Node)) (sequence : Z) : M MetricsCollector () :=
  refresh t "nodes" "get nodes from SLURM API" listing nodesCollectionSequence sequence
    (λ l previousState newState v,
      let? (s, v) := applyNodes t l previousState newState v in
      Ok (mkState (lastGPUSecondsUpdate s) (nodes s) (next_sequence sequence (nodesCollectionSequence s))
            (jobs s) (jobsCollectionSequence s) (diag s) (diagCollectionSequence s) (nodeTopologies s)
            (topologyCollectionSequence s) (nodeUnavailabilityStartTimes s) (nodeDrainingStartTimes s), v)).
Definition refreshJobs (t : timing) (listing : outcome (list Job)) (sequence : Z) : M MetricsCollector () :=
  refresh t "jobs" "get jobs from SLURM API" listing jobsCollectionSequence sequence
    (λ l _ s v,
      Ok (mkState (lastGPUSecondsUpdate s) (nodes s) (nodesCollectionSequence s)
            l (next_sequence sequence (jobsCollectionSequence s)) (diag s) (diagCollectionSequence s)
            (nodeTopologies s) (topologyCollectionSequence s) (nodeUnavailabilityStartTimes s)
            (nodeDrainingStartTimes s), v)).
Definition refreshDiag (t : timing) (answer : outcome V0044OpenapiDiagResp) (sequence : Z) : M MetricsCollector () :=
  refresh t "diag" "get diag from SLURM API" answer diagCollectionSequence sequence
    (λ d _ s v,
      Ok (mkState (lastGPUSecondsUpdate s) (nodes s) (nodesCollectionSequence s)
            (jobs s) (jobsCollectionSequence s) (Some d) (next_sequence sequence (diagCollectionSequence s))
            (nodeTopologies s) (topologyCollectionSequence s) (nodeUnavailabilityStartTimes s)
            (nodeDrainingStartTimes s), v)).
(** [source] is absent when the exporter runs without access to Kubernetes. *)
Definition refreshNodeTopologies (t : timing) (source : option (outcome (gmap string NodeTopology)))
    (sequence : Z) : M MetricsCollector () :=
  match source with
  | None => λ c, (mkCollector (state c) (vecs c) (recordCollectorRun t "topology" false (Monitoring c)), Ok tt)
  | Some topologies =>
      refresh t "topology" "get Kubernetes node topology" topologies topologyCollectionSequence sequence
        (λ topologies _ s v,
          Ok (mkState (lastGPUSecondsUpdate s) (nodes s) (nodesCollectionSequence s)
                (jobs s) (jobsCollectionSequence s) (diag s) (diagCollectionSequence s)
                topologies (next_sequence sequence (topologyCollectionSequence s))
                (nodeUnavailabilityStartTimes s) (nodeDrainingStartTimes s), v))
  end.

(** ** The topology listing ([kubernetes_topology.go])

    Pods as the selector returns them: name and node name.  [order] is the order in which Go
    ranges over the pods by node. *)
Definition nvlinkInstanceGroupLabel : string := "topology.nebius.com/nvl-instance-group-id".
Definition slurmNodeSetNameLabel : string := "slurm.nebius.ai/nodeset-name".
Definition podsByKubernetesNode (pods : list (string * string)) : gmap string (list string) :=
  foldl (λ m '(podName, nodeName),
    if String.eqb nodeName "" then m else <[nodeName := default [] (m !! nodeName) ++ [podName]]> m) ∅ pods.
Fixpoint resolveTopologies (getNode : string → outcome (gmap string string))
    (entries : list (string * list string)) (topologies : gmap string NodeTopology) :
    outcome (gmap string NodeTopology) :=
  match entries with
  | [] => Ok topologies
  | (kubernetesNode, podNames) :: rest =>
      match getNode kubernetesNode with
      | Ok labels =>
          let topology := mkNodeTopology kubernetesNode (default "" (labels !! nvlinkInstanceGroupLabel))
                            (default "" (labels !! slurmNodeSetNameLabel)) in
          resolveTopologies getNode rest (foldl (λ m podName, <[podName := topology]> m) topologies podNames)
      | Err e =>
          if IsNotFound e then resolveTopologies getNode rest topologies
          else Err (ErrWrap "get Kubernetes node" e)
      | Halt w => Halt w
      end
  end.
Definition ListNodeTopologies (listPods : outcome (list (string * string)))
    (getNode : string → outcome (gmap string string))
    (order : gmap string (list string) → list (string * list string)) : outcome (gmap string NodeTopology) :=
  let? pods := wrap_err "list Slurm worker pods" listPods in
  resolveTopologies getNode (order (podsByKubernetesNode pods)) ∅.

(** ** A scrape *)
Definition nanos : positive := 1000000000.
Definition int_value (z : Z) : QArith_base.Q := QArith_base.Qmake z 1.
Definition seconds_value (ns : Z) : QArith_base.Q := QArith_base.Qmake ns nanos.
(** The arguments of a call of [MustNewConstMetric]; the call is in [collectAll]. *)
Definition gauge (d : Desc) (q : QArith_base.Q) (labels : list string) : Metric :=
  mkMetric d (GaugeValue q) labels.
Definition counter (d : Desc) (q : QArith_base.Q) (labels : list string) : Metric :=
  mkMetric d (CounterValue q) labels.
(** A metric that is emitted only when there is a value. *)
Definition gauge_if (d : Desc) (v : option Z) (labels : list string) : list Metric :=
  match v with Some v => [gauge d (int_value v) labels] | None => [] end.
(** The consumer takes every metric an iterator yields; a panic ends the process. *)
Fixpoint collectAll (l : list Metric) : outcome (list Metric) :=
  match l with
  | [] => Ok []
  | m :: l =>
      let? m := MustNewConstMetric (metric_desc m) (metric_value m) (metric_labels m) in
      let? ms := collectAll l in
      Ok (m :: ms)
  end.

Definition lookupTopology (topologies : gmap string NodeTopology) (name : string) : NodeTopology :=
  default (mkNodeTopology "" "" "") (topologies !! name).
Definition node_info_labels (node : Node) : list string :=
  [node_Name node; node_InstanceID node; base_state_label node;
   FormatBool (IsDrainState node); FormatBool (IsMaintenanceState node); FormatBool (IsReservedState node);
   boolToLabelValue (IsCompletingState node); boolToLabelValue (IsFailState node);
   boolToLabelValue (IsPlannedState node); boolToLabelValue (IsNotRespondingState node);
   boolToLabelValue (IsInvalidState node); boolToLabelValue (IsCloudState node);
   boolToLabelValue (IsPowerDownState node); boolToLabelValue (IsPowerDrainState node);
   boolToLabelValue (IsPoweredDownState node); boolToLabelValue (IsPoweringDownState node);
   boolToLabelValue (IsPoweringUpState node); boolToLabelValue (IsPowerUpState node);
   boolToLabelValue (isNodeUnavailable node); trimReservationName (node_Reservation node);
   node_Address node; reason_label node; node_Comment node].
Definition nodeMetrics (topologies : gmap string NodeTopology) (node : Node) : list Metric :=
  let topology := lookupTopology topologies (node_Name node) in
  (if String.eqb (NVLinkInstanceGroup topology) "" then []
   else [gauge nodeNVLinkInstanceGroup (int_value 1)
           [node_Name node; node_InstanceID node; NVLinkInstanceGroup topology; SlurmNodeSetName topology]]) ++
  [gauge nodeInfo (int_value 1) (node_info_labels node)] ++
  gauge_if nodeCPUTotal (CPUTotal node) [node_Name node] ++
  gauge_if nodeCPUAllocated (CPUAllocated node) [node_Name node] ++
  gauge_if nodeCPUIdle (CPUIdle node) [node_Name node] ++
  gauge_if nodeCPUEffective (CPUEffective node) [node_Name node] ++
  gauge_if nodeMemoryTotalBytes (MemoryTotalBytes node) [node_Name node] ++
  gauge_if nodeMemoryAllocatedBytes (MemoryAllocatedBytes node) [node_Name node] ++
  gauge_if nodeMemoryFreeBytes (MemoryFreeBytes node) [node_Name node] ++
  gauge_if nodeMemoryEffectiveBytes (MemoryEffectiveBytes node) [node_Name node] ++
  map (λ partition, gauge nodePartition (int_value 1) [node_Name node; partition]) (node_Partitions node).
Definition slurmNodeMetrics (slurmNodes : list Node) (topologies : gmap string NodeTopology) :
    list Metric :=
  slurmNodes ≫= nodeMetrics topologies.

(** *** Jobs *)
Definition timeToUnixString (t : option Z) : string :=
  match t with Some t => if (t =? 0)%Z then "" else Itoa t | None => "" end.
Definition resource_of (tres : string) : option TrackableResources :=
  if String.eqb tres "" then None
  else match ParseTrackableResources tres with Ok r => Some r | _ => None end.
Definition positive_part (f : TrackableResources → Z) (r : option TrackableResources) : option Z :=
  match r with
  | Some r => if (0 <? f r)%Z then Some (float64_of_int (f r)) else None
  | None => None
  end.
(** CPUs and memory of a job, each [None] when the code's [OK] flag stays false: from the
    allocated resources, else the requested ones, else the job's own fields. *)
Definition jobAllocatedResources (job : Job) : option Z * option Z :=
  let allocated := resource_of (job_TresAllocated job) in
  let cpu := positive_part CPUCount allocated in
  let mem := positive_part MemoryBytes allocated in
  let requested := match cpu, mem with
                   | Some _, Some _ => None
                   | _, _ => resource_of (job_TresRequested job)
                   end in
  let cpu := match cpu with Some v => Some v | None => positive_part CPUCount requested end in
  let mem := match mem with Some v => Some v | None => positive_part MemoryBytes requested end in
  let cpu := match cpu with Some v => Some v | None => float64_of_int <$> job_CPUs job end in
  let mem := match mem with
             | Some v => Some v
             | None =>
                 match job_MemoryPerNode job, job_NodeCount job with
                 | Some m, Some n => Some (mbToBytes (wrap 64 (m * n)))
                 | _, _ => None
                 end
             end in
  (cpu, mem).

(** The zero [time.Time], the first second of the year 1. *)
Definition zero_time : Z := -62135596800.
Definition nonzero (t : option Z) : option Z :=
  match t with Some t => if (t =? 0)%Z then None else Some t | None => None end.
(** The duration in nanoseconds, where a metric is emitted. *)
Definition job_duration (now : Z) (job : Job) : option Z :=
  match nonzero (job_StartTime job) with
  | None => None
  | Some start =>
      let endTime :=
        if IsTerminalState job then
          match nonzero (job_EndTime job) with
          | Some t => if (t =? zero_time)%Z then None else Some (t * Zpos nanos)%Z
          | None => None
          end
        else Some now in
      match endTime with
      | None => None
      | Some endTime =>
          let duration := Sub endTime (start * Zpos nanos)%Z in
          if (0 <? duration)%Z then Some duration else None
      end
  end.
Definition finished_time (job : Job) : string :=
  if IsTerminalState job then timeToUnixString (nonzero (job_EndTime job)) else "".
Definition job_info_labels (job : Job) : list string :=
  [GetIDString job; job_State job; job_StateReason job; job_Partition job; job_Name job;
   job_UserName job; job_UserMail job;
   match job_UserID job with Some u => Itoa u | None => "" end;
   job_StandardError job; job_StandardOutput job; GetArrayJobIDString job; GetArrayTaskIDString job;
   timeToUnixString (job_SubmitTime job); timeToUnixString (job_StartTime job);
   timeToUnixString (job_EndTime job); finished_time job].
Definition job_duration_metric (now : Z) (job : Job) : list Metric :=
  match job_duration now job with
  | Some d => [gauge jobDuration (seconds_value d) [GetIDString job]]
  | None => []
  end.
Definition job_node_metric (topologies : gmap string NodeTopology) (job : Job) (nodeName : string) : Metric :=
  let topology := lookupTopology topologies nodeName in
  gauge jobNode (int_value 1)
    [GetIDString job; nodeName; NVLinkInstanceGroup topology; SlurmNodeSetName topology].
(** A node list that does not parse costs the job its [slurm_node_job] metrics only. *)
Definition jobMetrics (now : Z) (topologies : gmap string NodeTopology) (job : Job) : outcome (list Metric) :=
  let '(cpu, mem) := jobAllocatedResources job in
  let own :=
    [gauge jobInfo (int_value 1) (job_info_labels job)] ++
    gauge_if jobCPUs cpu [GetIDString job] ++
    gauge_if jobMemoryBytes mem [GetIDString job] ++
    job_duration_metric now job in
  match GetNodeList job with
  | Ok nodeList => Ok (own ++ map (job_node_metric topologies job) nodeList)
  | Err _ => Ok own
  | Halt w => Halt w
  end.
Fixpoint slurmJobMetrics (now : Z) (slurmJobs : list Job) (topologies : gmap string NodeTopology) :
    outcome (list Metric) :=
  match slurmJobs with
  | [] => Ok []
  | job :: rest =>
      let? ms := jobMetrics now topologies job in
      let? ms' := slurmJobMetrics now rest topologies in
      Ok (ms ++ ms')
  end.

(** *** Controller diagnostics; times in the answer are microseconds *)
Definition counter_pair (calls duration : Desc) (count totalTime : Z) (labels : list string) :
    list Metric :=
  (if (0 <? count)%Z then [counter calls (int_value (float64_of_int count)) labels] else []) ++
  (if (0 <? totalTime)%Z
   then [counter duration (QArith_base.Qmake (float64_of_int totalTime) 1000000) labels] else []).
Definition slurmRPCMetrics (diag : option V0044OpenapiDiagResp) : list Metric :=
  match diag with
  | None => []
  | Some stats =>
      gauge_if controllerServerThreadCount (float64_of_int <$> ServerThreadCount stats) [] ++
      (default [] (RpcsByMessageType stats) ≫= λ rpc,
         counter_pair rpcCallsTotal rpcDurationSecondsTotal (rpc_Count rpc) (rpc_TotalTime rpc)
           [rpc_MessageType rpc]) ++
      (default [] (RpcsByUser stats) ≫= λ userRpc,
         counter_pair rpcUserCallsTotal rpcUserDurationSecondsTotal (user_Count userRpc) (user_TotalTime userRpc)
           [user_User userRpc; Itoa (user_UserId userRpc)])
  end.

(** *** The vectors; each label set once, in no particular order *)
Definition vectorMetrics (v : vectors) : list Metric :=
  map (λ '(k, x), mkMetric nodeGPUSeconds (CounterValue (seconds_value x)) k) (map_to_list (gpuSeconds v)) ++
  map (λ '(k, x), mkMetric nodeFails (CounterValue (int_value x)) k) (map_to_list (fails v)) ++
  map (λ '(n, obs), mkMetric nodeUnavailabilityDuration (HistogramValue obs) [n]) (map_to_list (unavailability v)) ++
  map (λ '(n, obs), mkMetric nodeDrainingDuration (HistogramValue obs) [n]) (map_to_list (draining v)).

Definition collectImpl (now : Z) (c : MetricsCollector) : outcome (list Metric) :=
  let? nodeMs := collectAll (slurmNodeMetrics (nodes (state c)) (nodeTopologies (state c))) in
  let? jobMs := slurmJobMetrics now (jobs (state c)) (nodeTopologies (state c)) in
  let? jobMs := collectAll jobMs in
  let? rpcMs := collectAll (slurmRPCMetrics (diag (state c))) in
  Ok (nodeMs ++ vectorMetrics (vecs c) ++ jobMs ++ rpcMs).
Definition Collect (now : Z) : M MetricsCollector (list Metric) := λ c,
  match collectImpl now c with
  | Ok ms => (mkCollector (state c) (vecs c) (RecordMetricsExported (Z.of_nat (length ms)) (Monitoring c)), Ok ms)
  | Err e => (c, Err e)
  | Halt w => (c, Halt w)
  end.

(** What the collector announces to the registry. *)
Definition Describe : list Desc :=
  [nodeInfo; nodeCPUTotal; nodeCPUAllocated; nodeCPUIdle; nodeCPUEffective; nodeMemoryTotalBytes;
   nodeMemoryAllocatedBytes; nodeMemoryFreeBytes; nodeMemoryEffectiveBytes; nodePartition;
   nodeNVLinkInstanceGroup; jobInfo; jobNode; jobDuration; jobCPUs; jobMemoryBytes; nodeGPUSeconds;
   nodeFails; nodeUnavailabilityDuration; nodeDrainingDuration; rpcCallsTotal; rpcDurationSecondsTotal;
   rpcUserCallsTotal; rpcUserDurationSecondsTotal; controllerServerThreadCount].

(** ** The collection loop ([exporter.go]) *)
Inductive kind := KNodes | KJobs | KDiag | KTopology.
Global Instance kind_eq_dec : EqDecision kind.
Proof. solve_decision. Defined.
Definition kind_name (k : kind) : string :=
  match k with KNodes => "nodes" | KJobs => "jobs" | KDiag => "diag" | KTopology => "topology" end.

(** The answer of the API to one run. *)
Inductive answer :=
| ANodes (l : outcome (list Node))
| AJobs (l : outcome (list Job))
| ADiag (d : outcome V0044OpenapiDiagResp)
| ATopology (m : outcome (gmap string NodeTopology)).
Definition run (k : kind) (t : timing) (a : answer) (sequence : Z) : option (M MetricsCollector ()) :=
  match k, a with
  | KNodes, ANodes l => Some (refreshNodes t l sequence)
  | KJobs, AJobs l => Some (refreshJobs t l sequence)
  | KDiag, ADiag d => Some (refreshDiag t d sequence)
  | KTopology, ATopology m => Some (refreshNodeTopologies t (Some m) sequence)
  | _, _ => None
  end.

Record asyncSubCollector := mkSub { inflight : Z; sequence : Z }.
(** A goroutine that refreshes, before and after its refresh. *)
Record running := mkRunning { r_kind : kind; r_sequence : Z; r_group : nat; r_applied : bool }.
(** The runs started by one tick: the wait group, the [failed] flag, and whether all runs of the
    tick were started. *)
Record group := mkGroup { g_wait : Z; g_failed : bool; g_start : Z; g_closed : bool }.
(** The goroutine of the loop: in [select], inside [startCollectors] (the collectors still to be
    tried, the value [tryStart] loaded, the group, the [started] flag), or returned. *)
Inductive loop :=
| Waiting
| Starting (todo : list kind) (loaded : option Z) (g : nat) (started : bool)
| Stopped.
Record Exporter := mkExporter {
  collector : MetricsCollector;
  subs : kind → asyncSubCollector;
  the_loop : loop;
  runs : list running;
  groups : gmap nat group;
  nextGroup : nat;
  cancelled : bool;
  answered : list (kind * Z * answer) }.
(** [answered] records the successful runs, for the theorems only. *)
Definition NewClusterExporter (now : Z) : Exporter :=
  mkExporter (newMetricsCollector now) (λ _, mkSub 0 0) Waiting [] ∅ 0 false [].

Definition maxCollectorInflight (MaxCollectorInflight : Z) : Z :=
  let m := wrap 32 MaxCollectorInflight in if (m <? 1)%Z then 1 else m.
Definition collectors (hasTopologySource : bool) : list kind :=
  [KNodes; KJobs; KDiag] ++ if hasTopologySource then [KTopology] else [].

Definition set_sub (k : kind) (s : asyncSubCollector) (f : kind → asyncSubCollector) : kind → asyncSubCollector :=
  λ k', if decide (k' = k) then s else f k'.
Definition set_monitoring (f : MonitoringMetrics → MonitoringMetrics) (c : MetricsCollector) : MetricsCollector :=
  mkCollector (state c) (vecs c) (f (Monitoring c)).

(** Atomic steps of the goroutines. *)
Inductive event :=
| Tick (now : Z)                                      (* the first call, and every tick *)
| Load                                                (* [c.inflight.Load()] in [tryStart] *)
| CompareAndSwap                                      (* and what follows when it succeeds *)
| Answer (i : nat) (t : timing) (a : answer)          (* run [i] refreshes with answer [a] *)
| Finish (i : nat)                                    (* its deferred calls *)
| Started                                             (* the end of [startCollectors] *)
| Collected (g : nat) (now : Z)                       (* [wg.Wait()] returns *)
| Stop                                                (* the loop returns *)
| Scrape (now : Z).

Section steps.
  Context (hasTopologySource : bool) (maxInflight : Z).

Definition load (e : Exporter) : option Exporter :=
  match the_loop e with
  | Starting (k :: todo) None g started =>
      let current := inflight (subs e k) in
      if (maxInflight <=? current)%Z then
        Some (mkExporter (set_monitoring (RecordCollectorSkipped (kind_name k)) (collector e)) (subs e)
                (Starting todo None g started) (runs e) (groups e) (nextGroup e) (cancelled e) (answered e))
      else
        Some (mkExporter (collector e) (subs e) (Starting (k :: todo) (Some current) g started) (runs e)
                (groups e) (nextGroup e) (cancelled e) (answered e))
  | _ => None
  end.
Definition compareAndSwap (e : Exporter) : option Exporter :=
  match the_loop e with
  | Starting (k :: todo) (Some current) g started =>
      if (inflight (subs e k) =? current)%Z then
        let q := ((sequence (subs e k) + 1) `mod` 2 ^ 64)%Z in
        Some (mkExporter (set_monitoring (SetCollectorInflight (kind_name k) (current + 1)) (collector e))
                (set_sub k (mkSub (current + 1) q) (subs e)) (Starting todo None g true)
                (runs e ++ [mkRunning k q g false])
                (alter (λ x, mkGroup (g_wait x + 1) (g_failed x) (g_start x) (g_closed x)) g (groups e))
                (nextGroup e) (cancelled e) (answered e))
      else
        Some (mkExporter (collector e) (subs e) (Starting (k :: todo) None g started) (runs e) (groups e)
                (nextGroup e) (cancelled e) (answered e))
  | _ => None
  end.
Definition answer_run (i : nat) (t : timing) (a : answer) (e : Exporter) : option Exporter :=
  r ← runs e !! i;
  if r_applied r then None else
  m ← run (r_kind r) t a (r_sequence r);
  let runs' := <[i := mkRunning (r_kind r) (r_sequence r) (r_group r) true]> (runs e) in
  match m (collector e) with
  | (c, Ok _) =>
      Some (mkExporter c (subs e) (the_loop e) runs' (groups e) (nextGroup e) (cancelled e)
              (answered e ++ [(r_kind r, r_sequence r, a)]))
  | (c, Err _) =>
      let groups' :=
        if cancelled e then groups e
        else alter (λ x, mkGroup (g_wait x) true (g_start x) (g_closed x)) (r_group r) (groups e) in
      Some (mkExporter c (subs e) (the_loop e) runs' groups' (nextGroup e) (cancelled e) (answered e))
  | (_, Halt _) => None
  end.
Definition finish (i : nat) (e : Exporter) : option Exporter :=
  r ← runs e !! i;
  if negb (r_applied r) then None else
  let left_ := (inflight (subs e (r_kind r)) - 1)%Z in
  Some (mkExporter (set_monitoring (SetCollectorInflight (kind_name (r_kind r)) left_) (collector e))
          (set_sub (r_kind r) (mkSub left_ (sequence (subs e (r_kind r)))) (subs e)) (the_loop e)
          (delete i (runs e))
          (alter (λ x, mkGroup (g_wait x - 1) (g_failed x) (g_start x) (g_closed x)) (r_group r) (groups e))
          (nextGroup e) (cancelled e) (answered e)).
Definition step (ev : event) (e : Exporter) : option Exporter :=
  match ev with
  | Tick now =>
      match the_loop e with
      | Waiting =>
          Some (mkExporter (collector e) (subs e) (Starting (collectors hasTopologySource) None (nextGroup e) false)
                  (runs e) (<[nextGroup e := mkGroup 0 false now false]> (groups e)) (S (nextGroup e))
                  (cancelled e) (answered e))
      | _ => None
      end
  | Load => load e
  | CompareAndSwap => compareAndSwap e
  | Answer i t a => answer_run i t a e
  | Finish i => finish i e
  | Started =>
      match the_loop e with
      | Starting [] None g started =>
          let groups' := if started
                         then alter (λ x, mkGroup (g_wait x) (g_failed x) (g_start x) true) g (groups e)
                         else delete g (groups e) in
          Some (mkExporter (collector e) (subs e) Waiting (runs e) groups' (nextGroup e) (cancelled e) (answered e))
      | _ => None
      end
  | Collected g now =>
      x ← groups e !! g;
      if g_closed x && (g_wait x =? 0)%Z then
        Some (mkExporter (set_monitoring (RecordCollection (Sub now (g_start x)) (g_failed x)) (collector e))
                (subs e) (the_loop e) (runs e) (delete g (groups e)) (nextGroup e) (cancelled e) (answered e))
      else None
  | Stop =>
      match the_loop e with
      | Waiting => Some (mkExporter (collector e) (subs e) Stopped (runs e) (groups e) (nextGroup e) true (answered e))
      | _ => None
      end
  | Scrape now =>
      Some (mkExporter (Collect now (collector e)).1 (subs e) (the_loop e) (runs e) (groups e) (nextGroup e)
              (cancelled e) (answered e))
  end.

(** What is reached from the start in [n] steps. *)
Inductive reaches (t0 : Z) : nat → Exporter → Prop :=
| reaches_start : reaches t0 0 (NewClusterExporter t0)
| reaches_step n ev e e' : reaches t0 n e → step ev e = Some e' → reaches t0 (S n) e'.
End steps.

(** ** The newest answer is shown *)
Definition stored (k : kind) (s : metricsCollectorState) : Z :=
  match k with
  | KNodes => nodesCollectionSequence s | KJobs => jobsCollectionSequence s
  | KDiag => diagCollectionSequence s | KTopology => topologyCollectionSequence s
  end.
(** The data of a sub-collector that a scrape reads, as the answer it came from. *)
Definition view (k : kind) (s : metricsCollectorState) : answer :=
  match k with
  | KNodes => ANodes (Ok (nodes s)) | KJobs => AJobs (Ok (jobs s))
  | KDiag => ADiag (match diag s with Some d => Ok d | None => Err (ErrMsg "") end)
  | KTopology => ATopology (Ok (nodeTopologies s))
  end.
Definition same_data (k : kind) (s s' : metricsCollectorState) : Prop :=
  stored k s' = stored k s ∧ view k s' = view k s.

Lemma applyNodes_frame t l s s0 v s' v' :
  applyNodes t l s s0 v = Ok (s', v') →
  nodes s' = l ∧ nodesCollectionSequence s' = nodesCollectionSequence s0 ∧
  jobs s' = jobs s0 ∧ jobsCollectionSequence s' = jobsCollectionSequence s0 ∧
  diag s' = diag s0 ∧ diagCollectionSequence s' = diagCollectionSequence s0 ∧
  nodeTopologies s' = nodeTopologies s0 ∧ topologyCollectionSequence s' = topologyCollectionSequence s0.
Proof.
  unfold applyNodes, updateNodeStateMetrics.
  destruct (track isNodeUnavailable _ _ _ _) as [us uh].
  destruct (track isNodeDraining _ _ _ _) as [ds dh]. simpl.
  destruct (updateGPUSecondsMetrics _ _ _ _); simpl; naive_solver.
Qed.

Lemma refresh_effect {A} t name what (o : outcome A) st q store c c' r :
  refresh t name what o st q store c = (c', r) → (1 ≤ q)%Z →
  match r with
  | Ok _ => state c' = state c ∧ (q ≤ st (state c))%Z ∨
            (st (state c) < q)%Z ∧
            ∃ a v, o = Ok a ∧ store a (state c) (cloneMetricsCollectorState (state c)) (vecs c) = Ok (state c', v)
  | Err _ => (∃ a, o = Ok a) ∨ state c' = state c
  | Halt _ => True
  end.
Proof.
  intros Hm Hq. unfold refresh in Hm. destruct o as [a|e|w]; [|by simplify_eq/=; auto..].
  unfold outdated in Hm. destruct (Z.eqb_spec q 0); [lia|]. simpl in Hm.
  destruct (Z.leb_spec q (st (state c))); [simplify_eq/=; auto|].
  destruct (store _ _ _ _) as [[s' v']|e|w] eqn:Hs; simplify_eq/=; eauto 10.
Qed.

(** What a run does to the state: nothing if it fails or comes late, else its own data and
    its own sequence number. *)
Lemma run_effect k t a q m c c' r :
  run k t a q = Some m → m c = (c', r) → (1 ≤ q)%Z →
  match r with
  | Ok _ =>
      state c' = state c ∧ (q ≤ stored k (state c))%Z ∨
      (stored k (state c) < q)%Z ∧ stored k (state c') = q ∧ view k (state c') = a ∧
      ∀ k', k' ≠ k → same_data k' (state c) (state c')
  | Err _ => state c' = state c
  | Halt _ => True
  end.
Proof.
  intros Hrun Hm Hq.
  assert (∀ old, next_sequence q old = q) as Hns.
  { intros. unfold next_sequence. by destruct (Z.eqb_spec q 0); [lia|]. }
  destruct k, a as [o|o|o|o]; simplify_eq/=; pose proof (refresh_effect _ _ _ _ _ _ _ _ _ _ Hm Hq) as He.
  all: destruct r as [u|e|w]; [|destruct He as [[a ->]|He]; [|done]|done].
  all: try (destruct He as [He|(Hlt & a & v & -> & Hs)]; [by left|]; right).
  all: try (simplify_eq/=; match goal with H : _ = state _ |- _ => rewrite <-H end; simpl; rewrite Hns;
            split_and!; [done..|]; by intros []).
  all: try (unfold refreshNodes, refreshJobs, refreshDiag, refreshNodeTopologies, refresh in Hm;
            destruct (outdated _ _); simplify_eq/=; done).
  - destruct (applyNodes _ _ _ _ _) as [[s' v']|e|w] eqn:Ha; simplify_eq/=.
    apply applyNodes_frame in Ha as (<- & ? & ? & ? & ? & ? & ? & ?). simpl in *.
    match goal with H : _ = state _ |- _ => rewrite <-H end; simpl; rewrite Hns.
    split_and!; [done..|].
    intros []; unfold same_data; simpl; intros; try done;
      (split; [congruence|]); first [congruence|by match goal with H : diag _ = _ |- _ => rewrite H end].
  - unfold refreshNodes, refresh in Hm. destruct (outdated _ _); simplify_eq/=.
    destruct (applyNodes _ _ _ _ _) as [[s' v']|e'|w] eqn:Ha; simplify_eq/=; done.
Qed.

Definition key_of (r : running) : kind * Z := (r_kind r, r_sequence r).
Definition pending (e : Exporter) : list running := filter (λ r, r_applied r = false) (runs e).
(** The sequence numbers in use: of the runs that wait for an answer and of the answers. *)
Definition keys (e : Exporter) : list (kind * Z) := map key_of (pending e) ++ map fst (answered e).
Definition runs_of (k : kind) (e : Exporter) : list running := filter (λ r, r_kind r = k) (runs e).

Record newest (k : kind) (s0 s : metricsCollectorState) (l : list (kind * Z * answer)) : Prop := {
  newest_max : ∀ q a, (k, q, a) ∈ l → (q ≤ stored k s)%Z;
  newest_shown : (∀ q a, (k, q, a) ∉ l) ∧ stored k s = 0%Z ∧ view k s = view k s0 ∨
                 (k, stored k s, view k s) ∈ l }.

Lemma newest_answer k k0 s0 s s' l q a :
  newest k s0 s l →
  s' = s ∧ (q ≤ stored k0 s)%Z ∨
  (stored k0 s < q)%Z ∧ stored k0 s' = q ∧ view k0 s' = a ∧ (∀ k', k' ≠ k0 → same_data k' s s') →
  (1 ≤ q)%Z → newest k s0 s' (l ++ [(k0, q, a)]).
Proof.
  intros [Hmx Hsh] Heff Hq. destruct (decide (k = k0)) as [<-|Hne].
  - destruct Heff as [[-> Hle]|(Hlt & <- & <- & _)].
    + split; [intros q' x [?|[= -> ->]%list_elem_of_singleton]%elem_of_app; eauto|].
      destruct Hsh as [(_ & H0 & _)|Hsh]; [lia|]. right. apply elem_of_app. by left.
    + split; [|right; apply elem_of_app; right; by apply list_elem_of_singleton].
      intros q' x [?%Hmx|[= -> ->]%list_elem_of_singleton]%elem_of_app; lia.
  - assert (same_data k s s') as [Hst Hv] by (destruct Heff as [[-> _]|(_ & _ & _ & H)]; [done|by apply H]).
    split; rewrite Hst, ?Hv.
    + intros q' x [?|[= -> -> ->]%list_elem_of_singleton]%elem_of_app; [eauto|done].
    + destruct Hsh as [(Hno & H0 & Hv0)|Hsh]; [left|right; apply elem_of_app; by left].
      split_and!; [|done..]. intros q' x [?%Hno|[= -> -> ->]%list_elem_of_singleton]%elem_of_app; done.
Qed.

Section invariant.
  Context (topo : bool) (maxInflight t0 : Z) (Hmax : (1 ≤ maxInflight)%Z).

Record inv (n : nat) (e : Exporter) : Prop := {
  inv_count : ∀ k, inflight (subs e k) = Z.of_nat (length (runs_of k e));
  inv_bound : ∀ k, (inflight (subs e k) ≤ maxInflight)%Z;
  inv_loaded : ∀ k todo c g b, the_loop e = Starting (k :: todo) (Some c) g b → (c < maxInflight)%Z;
  inv_sequence : ∀ k, (0 ≤ sequence (subs e k) ≤ Z.of_nat n)%Z;
  inv_runs : ∀ r, r ∈ runs e → (1 ≤ r_sequence r ≤ sequence (subs e (r_kind r)))%Z;
  inv_answered : ∀ k q a, (k, q, a) ∈ answered e → (1 ≤ q ≤ sequence (subs e k))%Z;
  inv_keys : NoDup (keys e);
  inv_newest : ∀ k, newest k (newMetricsCollectorState t0) (state (collector e)) (answered e) }.

(** Steps that leave runs, numbers and data alone. *)
Lemma inv_same n e e' :
  inv n e → subs e' = subs e → runs e' = runs e → answered e' = answered e →
  state (collector e') = state (collector e) →
  (∀ k todo c g b, the_loop e' = Starting (k :: todo) (Some c) g b → (c < maxInflight)%Z) → inv (S n) e'.
Proof.
  intros [] Hs Hr Ha Hc Hl. split; unfold keys, pending, runs_of in *; rewrite ?Hs, ?Hr, ?Ha, ?Hc; try done.
  intros k. specialize (inv_sequence0 k). lia.
Qed.
Lemma subs_set k s f : set_sub k s f k = s.
Proof. unfold set_sub. by rewrite decide_True. Qed.
Lemma subs_set_ne k k' s f : k' ≠ k → set_sub k s f k' = f k'.
Proof. intros. unfold set_sub. by rewrite decide_False. Qed.

Lemma inv_cas n e e' : (Z.of_nat (S n) < 2 ^ 64)%Z → inv n e → compareAndSwap e = Some e' → inv (S n) e'.
Proof.
  intros Hn Hi Hstep. unfold compareAndSwap in Hstep.
  destruct (the_loop e) as [|[|k todo] [cur|] g b|] eqn:Hl; try done.
  destruct (Z.eqb_spec (inflight (subs e k)) cur) as [Hcur|]; simplify_eq/=;
    [|by eapply inv_same]. pose proof (inv_loaded n e Hi _ _ _ _ _ Hl) as Hlt. destruct Hi.
  rewrite Z.mod_small by (specialize (inv_sequence0 k); lia).
  assert (∀ k', sequence (subs e k') ≤ sequence (set_sub k (mkSub (inflight (subs e k) + 1) (sequence (subs e k) + 1)) (subs e) k'))%Z as Hmono.
  { intros k'. destruct (decide (k' = k)) as [->|]; [rewrite subs_set; simpl; lia|by rewrite subs_set_ne]. }
  split; simpl; try done.
  - intros k'. specialize (inv_count0 k'). unfold runs_of in *. simpl.
    rewrite filter_app, length_app, Nat2Z.inj_add, <-inv_count0.
    destruct (decide (k' = k)) as [->|Hne]; [rewrite subs_set|rewrite subs_set_ne by done].
    + by rewrite filter_cons_True.
    + rewrite filter_cons_False by (simpl; congruence). simpl. lia.
  - intros k'. destruct (decide (k' = k)) as [->|]; [rewrite subs_set; simpl; lia|by rewrite subs_set_ne].
  - intros k'. specialize (inv_sequence0 k') as Hq.
    destruct (decide (k' = k)) as [->|]; [rewrite subs_set; simpl; lia|rewrite subs_set_ne by done; lia].
  - intros r [Hr| ->%list_elem_of_singleton]%elem_of_app; simpl.
    + specialize (inv_runs0 r Hr). specialize (Hmono (r_kind r)). lia.
    + rewrite subs_set. simpl. specialize (inv_sequence0 k). lia.
  - intros k' q a Ha. specialize (inv_answered0 _ _ _ Ha). specialize (Hmono k'). lia.
  - unfold keys, pending. simpl. rewrite filter_app, filter_cons_True, filter_nil, map_app by done. simpl.
    rewrite <-app_assoc. simpl. rewrite <-Permutation_middle. constructor; [|exact inv_keys0].
    intros [Hr|Ha]%elem_of_app.
    + apply list_elem_of_fmap in Hr as (r & [= ? ?] & [_ Hr]%list_elem_of_filter).
      specialize (inv_runs0 r Hr). subst. lia.
    + apply list_elem_of_fmap in Ha as ([[k' q'] a] & [= <- <-] & Ha). specialize (inv_answered0 _ _ _ Ha). lia.
Qed.
Lemma runs_split e i r : runs e !! i = Some r → ∃ l1 l2, runs e = l1 ++ r :: l2 ∧ length l1 = i.
Proof. intros Hr. exists (take i (runs e)), (drop (S i) (runs e)). split; [by rewrite take_drop_middle|].
  rewrite length_take. apply lookup_lt_Some in Hr. lia. Qed.

Lemma inv_finish n e e' i : inv n e → finish i e = Some e' → inv (S n) e'.
Proof.
  intros [] Hstep. unfold finish in Hstep. destruct (runs e !! i) as [r|] eqn:Hr; [|done]. simpl in Hstep.
  destruct (r_applied r) eqn:Hap; simplify_eq/=.
  destruct (runs_split _ _ _ Hr) as (l1 & l2 & Hl & <-).
  assert (delete (length l1) (runs e) = l1 ++ l2) as Hd by (by rewrite Hl, delete_middle).
  split; simpl; rewrite ?Hd; try done.
  - intros k. specialize (inv_count0 k). unfold runs_of in *. simpl.
    rewrite Hl, filter_app, length_app in inv_count0.
    rewrite filter_app, length_app.
    destruct (decide (k = r_kind r)) as [->|Hne]; [rewrite subs_set|rewrite subs_set_ne by done].
    + rewrite filter_cons_True in inv_count0 by done. simpl in *. lia.
    + rewrite filter_cons_False in inv_count0 by congruence. lia.
  - intros k. specialize (inv_bound0 k).
    destruct (decide (k = r_kind r)) as [->|]; [rewrite subs_set; simpl; lia|by rewrite subs_set_ne].
  - intros k. specialize (inv_sequence0 k).
    destruct (decide (k = r_kind r)) as [->|]; [rewrite subs_set; simpl; lia|rewrite subs_set_ne by done; lia].
  - intros r' Hr'. assert (r' ∈ runs e) as Hin by (rewrite Hl; set_solver). specialize (inv_runs0 _ Hin).
    destruct (decide (r_kind r' = r_kind r)) as [Heq|]; [rewrite Heq, subs_set; simpl; by rewrite Heq in inv_runs0|by rewrite subs_set_ne].
  - intros k q a Ha. specialize (inv_answered0 _ _ _ Ha).
    destruct (decide (k = r_kind r)) as [->|]; [by rewrite subs_set|by rewrite subs_set_ne].
  - unfold keys, pending in *. simpl. rewrite ?Hd. rewrite Hl, filter_app, filter_cons_False in inv_keys0 by congruence.
    by rewrite filter_app.
Qed.

Lemma inv_answer n e e' i t a : inv n e → answer_run i t a e = Some e' → inv (S n) e'.
Proof.
  intros Hinv Hstep. pose proof Hinv as []. unfold answer_run in Hstep.
  destruct (runs e !! i) as [r|] eqn:Hr; [|done]. simpl in Hstep. destruct (r_applied r) eqn:Hap; [done|].
  destruct (run (r_kind r) t a (r_sequence r)) as [m|] eqn:Hrun; [|done]. simpl in Hstep.
  destruct (runs_split _ _ _ Hr) as (l1 & l2 & Hl & <-).
  set (r' := mkRunning (r_kind r) (r_sequence r) (r_group r) true) in *.
  assert (<[length l1 := r']> (runs e) = l1 ++ r' :: l2) as Hd.
  { by rewrite Hl, insert_app_r_alt, Nat.sub_diag by lia. }
  assert (r ∈ runs e) as Hin by (rewrite Hl; set_solver). specialize (inv_runs0 _ Hin) as Hq.
  destruct (m (collector e)) as [c o] eqn:Hm.
  pose proof (run_effect _ _ _ _ _ _ _ _ Hrun Hm (proj1 Hq)) as Heff.
  assert (∀ k, length (runs_of k e) = length (filter (λ x, r_kind x = k) (l1 ++ r' :: l2))) as Hlen.
  { intros k. unfold runs_of. rewrite Hl, !filter_app, !length_app, !filter_cons. simpl. by destruct (decide _). }
  assert (∀ x, x ∈ l1 ++ r' :: l2 → (1 ≤ r_sequence x ≤ sequence (subs e (r_kind x)))%Z) as Hruns.
  { intros x [?|[->|?]%elem_of_cons]%elem_of_app; [apply inv_runs0; rewrite Hl; set_solver|done|apply inv_runs0; rewrite Hl; set_solver]. }
  assert (keys e ≡ₚ key_of r :: map key_of (filter (λ r, r_applied r = false) (l1 ++ r' :: l2)) ++ map fst (answered e)) as Hkeys.
  { unfold keys, pending. rewrite Hl, !filter_app, filter_cons_True, filter_cons_False, !map_app by (simpl; congruence).
    simpl. by rewrite <-Permutation_middle. }
  destruct o as [u|err|w]; simplify_eq/=; (split; simpl; rewrite ?Hd; try done).
  - intros k. rewrite inv_count0, Hlen. unfold runs_of. simpl. by rewrite ?Hd.
  - intros k. specialize (inv_sequence0 k). lia.
  - intros k q x [Hx|[= -> -> ->]%list_elem_of_singleton]%elem_of_app; [eauto|done].
  - rewrite Hkeys in inv_keys0. unfold keys, pending. simpl. rewrite ?Hd, map_app. simpl.
    rewrite app_assoc, <-Permutation_cons_append. exact inv_keys0.
  - intros k. eapply newest_answer; [apply inv_newest0|exact Heff|lia].
  - intros k. rewrite inv_count0, Hlen. unfold runs_of. simpl. by rewrite ?Hd.
  - intros k. specialize (inv_sequence0 k). lia.
  - rewrite Hkeys in inv_keys0. unfold keys, pending. simpl. rewrite ?Hd. by inversion inv_keys0.
  - by rewrite Heff.
Qed.

Lemma inv_start : inv 0 (NewClusterExporter t0).
Proof.
  assert (∀ (A : Type) (x : A), x ∉ []) as Hnil by (intros; apply not_elem_of_nil).
  split; simpl; try done; try (intros; lia); try (by intros ? ?%Hnil); try (by intros ? ? ? ?%Hnil).
  - apply NoDup_nil_2.
  - intros k. split; [by intros q a Ha%Hnil|]. left.
    split_and!; [by intros q a Ha%Hnil|by destruct k|done].
Qed.
Lemma inv_step n ev e e' :
  (Z.of_nat (S n) < 2 ^ 64)%Z → inv n e → step topo maxInflight ev e = Some e' → inv (S n) e'.
Proof.
  intros Hn Hi Hstep. pose proof (inv_loaded n e Hi) as Hl. destruct ev; simpl in Hstep.
  - destruct (the_loop e); simplify_eq/=. by eapply inv_same.
  - unfold load in Hstep. destruct (the_loop e) as [|[|k todo] [] g b|]; try done.
    destruct (Z.leb_spec maxInflight (inflight (subs e k))); simplify_eq/=; eapply inv_same; eauto; naive_solver.
  - by eapply inv_cas.
  - by eapply inv_answer.
  - by eapply inv_finish.
  - destruct (the_loop e) as [|[|k todo] [] g b|]; simplify_eq/=. by eapply inv_same.
  - destruct (groups e !! g) as [x|]; [|done]. simpl in Hstep. destruct (_ && _); simplify_eq/=. by eapply inv_same.
  - destruct (the_loop e); simplify_eq/=. by eapply inv_same.
  - simplify_eq/=. eapply inv_same; eauto. unfold Collect. simpl. by destruct (collectImpl _ _).
Qed.
Lemma inv_reaches n e : (Z.of_nat n < 2 ^ 64)%Z → reaches topo maxInflight t0 n e → inv n e.
Proof.
  intros Hn Hr. induction Hr as [|n ev e e' Hr IH Hstep]; [apply inv_start|].
  eapply inv_step; [done|apply IH; lia|done].
Qed.
End invariant.

(** C34: however the goroutines of the exporter interleave (runs of one sub-collector overlap, end
    in any order, fail or hang; scrapes happen at any time), after any number of steps below
    2^64: no sub-collector has more runs in flight than the limit; no two answers carry the same
    sequence number; and what a scrape shows of a sub-collector is its initial value if no run
    has succeeded, and otherwise the answer of the successful run that was started last: a slow
    run never replaces newer data, and a failed one replaces nothing. *)
Theorem newest_answer_shown (hasTopologySource : bool) (MaxCollectorInflight t0 : Z) (n : nat)
    (e : Exporter) (k : kind) :
  reaches hasTopologySource (maxCollectorInflight MaxCollectorInflight) t0 n e → (Z.of_nat n < 2 ^ 64)%Z →
  (0 ≤ inflight (subs e k) ≤ maxCollectorInflight MaxCollectorInflight)%Z ∧
  inflight (subs e k) = Z.of_nat (length (runs_of k e)) ∧
  NoDup (map fst (answered e)) ∧
  ((∀ q a, (k, q, a) ∉ answered e) ∧ view k (state (collector e)) = view k (newMetricsCollectorState t0) ∨
   ∃ q, (k, q, view k (state (collector e))) ∈ answered e ∧
        ∀ q' a, (k, q', a) ∈ answered e → (q' ≤ q)%Z).
Proof.
  intros Hr Hn.
  assert (1 ≤ maxCollectorInflight MaxCollectorInflight)%Z as Hm.
  { unfold maxCollectorInflight. destruct (Z.ltb_spec (wrap 32 MaxCollectorInflight) 1); lia. }
  destruct (inv_reaches _ _ _ Hm _ _ Hn Hr) as [Hc Hb _ _ _ _ Hk Hnew].
  split_and!; [rewrite Hc; lia|apply Hb|apply Hc| |].
  - unfold keys in Hk. by apply NoDup_app in Hk as (_ & _ & ?).
  - destruct (Hnew k) as [Hmx [(Hno & _ & Hv)|Hin]]; [by left|]. right. eauto.
Qed.

(** ** Durations are those of episodes *)
Definition names (l : list Node) : list string := map node_Name l.
(** In listing [l], node [n] is there and in the state that [P] recognises. *)
Definition in_state (P : Node → bool) (l : list Node) (n : string) : Prop :=
  ∃ node, node ∈ l ∧ node_Name node = n ∧ P node = true.

Lemma nodesByName_None l n : n ∉ names l → nodesByName l !! n = None.
Proof.
  unfold nodesByName. assert (∀ m : gmap string Node, m !! n = None → n ∉ names l →
    foldl (λ m x, <[node_Name x := x]> m) m l !! n = None) as H; [|by intros; apply H].
  induction l as [|x l IH]; simpl; intros m Hm Hn; [done|]. apply not_elem_of_cons in Hn as [? ?].
  apply IH; [by rewrite lookup_insert_ne|done].
Qed.
Lemma nodesByName_app l1 l2 x : node_Name x ∉ names l2 → nodesByName (l1 ++ x :: l2) !! node_Name x = Some x.
Proof.
  unfold nodesByName. rewrite foldl_app. simpl.
  generalize (foldl (λ m n, <[node_Name n := n]> m) ∅ l1 : gmap string Node). intros m Hx.
  assert (∀ m : gmap string Node, m !! node_Name x = Some x → node_Name x ∉ names l2 →
    foldl (λ m x, <[node_Name x := x]> m) m l2 !! node_Name x = Some x) as H.
  { clear m Hx. induction l2 as [|y l2 IH]; simpl; intros m Hm Hn; [done|].
    apply not_elem_of_cons in Hn as [? ?]. apply IH; [by rewrite lookup_insert_ne|done]. }
  apply H; [by rewrite lookup_insert_eq|done].
Qed.
Lemma names_split l x : (x ∈ l) → NoDup (names l) →
  ∃ l1 l2, l = l1 ++ x :: l2 ∧ (node_Name x ∉ names l1) ∧ (node_Name x ∉ names l2).
Proof.
  intros (l1 & l2 & ->)%list_elem_of_split Hnd. exists l1, l2. split; [done|].
  unfold names in *. rewrite map_app in Hnd. simpl in Hnd. apply NoDup_app in Hnd as (_ & H1 & H2).
  apply NoDup_cons in H2 as [H2 _]. split; [|done]. intros Hin. apply (H1 _ Hin). left.
Qed.
(** Whether the previous listing had the node in the state, as the code decides it. *)
Definition was (P : Node → bool) (prev : list Node) (n : string) : bool :=
  match nodesByName prev !! n with Some x => P x | None => false end.
Lemma was_spec P l n : NoDup (names l) → was P l n = true ↔ in_state P l n.
Proof.
  intros Hnd. unfold was, in_state. destruct (decide (n ∈ names l)) as [Hin|Hnin].
  - apply list_elem_of_fmap in Hin as (x & -> & Hx). destruct (names_split _ _ Hx Hnd) as (l1 & l2 & -> & H1 & H2).
    rewrite nodesByName_app by done. split; [by eauto|]. intros (y & Hy & Hyn & HP).
    apply elem_of_app in Hy as [Hy|[->|Hy]%elem_of_cons]; [|done|];
      [destruct H1|destruct H2]; rewrite <-Hyn; by apply list_elem_of_fmap_2.
  - rewrite nodesByName_None by done. split; [done|]. intros (y & Hy & <- & _). destruct Hnin.
    by apply list_elem_of_fmap_2.
Qed.

Section tracking.
  Context (P : Node → bool) (prev : list Node) (now : Z).
  Implicit Types st : gmap string Z * gmap string (list Z).
  (** What is kept about one node. *)
Definition kept st (n : string) : option Z * list Z := (st.1 !! n, default [] (st.2 !! n)).
Definition after (cur : bool) (was : bool) (k : option Z * list Z) : option Z * list Z :=
  if cur && negb was then (Some now, k.2)
  else if negb cur && was then
    match k.1 with Some t0 => (None, k.2 ++ [Sub now t0]) | None => k end
  else k.
Lemma processTransition_at x st :
  kept (processTransition P (nodesByName prev) now x st) (node_Name x) =
  after (P x) (was P prev (node_Name x)) (kept st (node_Name x)).
Proof.
  destruct st as [s h]. unfold kept, processTransition, after, was. simpl.
  destruct (nodesByName prev !! node_Name x) as [y|]; simpl.
  - destruct (P x), (P y); simpl; rewrite ?lookup_insert_eq; try done.
    destruct (s !! node_Name x) as [t0|] eqn:Hs; simpl; rewrite ?lookup_delete_eq, ?lookup_insert_eq, ?Hs; done.
  - by destruct (P x); simpl; rewrite ?lookup_insert_eq.
Qed.
Lemma processTransition_other x st n :
  n ≠ node_Name x → kept (processTransition P (nodesByName prev) now x st) n = kept st n.
Proof.
  intros Hn. destruct st as [s h]. unfold kept, processTransition.
  destruct (P x && negb _); simpl; [by rewrite lookup_insert_ne|].
  destruct (negb (P x) && _); simpl; [|done].
  destruct (s !! node_Name x); simpl; [|done]. by rewrite lookup_delete_ne, lookup_insert_ne.
Qed.
Lemma track_other l st n : n ∉ names l → kept (track P l (nodesByName prev) now st) n = kept st n.
Proof.
  revert st. induction l as [|x l IH]; intros st Hn; simpl; [done|]. apply not_elem_of_cons in Hn as [? ?].
  rewrite IH by done. by apply processTransition_other.
Qed.
Lemma track_at l x st :
  x ∈ l → NoDup (names l) →
  kept (track P l (nodesByName prev) now st) (node_Name x) =
  after (P x) (was P prev (node_Name x)) (kept st (node_Name x)).
Proof.
  intros Hx Hnd. destruct (names_split _ _ Hx Hnd) as (l1 & l2 & -> & H1 & H2).
  unfold track. rewrite foldl_app. simpl. fold (track P l1 (nodesByName prev) now st).
  etrans; [by apply track_other|]. rewrite processTransition_at. by rewrite track_other.
Qed.
End tracking.

(** An episode of node [n] that is still open after the listings [h]: it was first seen at [t0],
    and in every listing since. *)
Definition last_nodes (h : list (Z * list Node)) : list Node := default [] (snd <$> last h).
Definition episode (P : Node → bool) (h : list (Z * list Node)) (n : string) (t0 : Z) : Prop :=
  ∃ h1 l0 h2, h = h1 ++ (t0, l0) :: h2 ∧ ¬ in_state P (last_nodes h1) n ∧ in_state P l0 n ∧
              Forall (λ x, in_state P x.2 n) h2.
(** The durations of the finished episodes of [n], in order: an episode ends with the first
    listing that has the node out of the state. *)
Inductive finished (P : Node → bool) (n : string) : list (Z * list Node) → list Z → Prop :=
| finished_nil : finished P n [] []
| finished_end h ds t l t0 :
    finished P n h ds → episode P h n t0 → n ∈ names l → ¬ in_state P l n →
    finished P n (h ++ [(t, l)]) (ds ++ [Sub t t0])
| finished_same h ds t l :
    finished P n h ds → (∀ t0, ¬ episode P h n t0) ∨ n ∉ names l ∨ in_state P l n →
    finished P n (h ++ [(t, l)]) ds.

Lemma last_nodes_snoc h t l : last_nodes (h ++ [(t, l)]) = l.
Proof. unfold last_nodes. by rewrite last_snoc. Qed.
Lemma episode_open P h n t0 : episode P h n t0 → in_state P (last_nodes h) n.
Proof.
  intros (h1 & l0 & h2 & -> & _ & Hl & Hall). destruct h2 as [|[t l] h2 _] using rev_ind.
  - by rewrite last_nodes_snoc.
  - rewrite app_comm_cons, app_assoc, last_nodes_snoc. apply Forall_app in Hall as [_ Hall].
    by inversion_clear Hall.
Qed.
Lemma episode_snoc P h n t0 t l : episode P h n t0 → in_state P l n → episode P (h ++ [(t, l)]) n t0.
Proof.
  intros (h1 & l0 & h2 & -> & Hn & Hl & Hall) Hin. exists h1, l0, (h2 ++ [(t, l)]).
  split_and!; [by rewrite <-app_assoc|done..|]. apply Forall_app. by split; [|apply Forall_singleton].
Qed.
Lemma episode_new P h n t l : ¬ in_state P (last_nodes h) n → in_state P l n → episode P (h ++ [(t, l)]) n t.
Proof. intros. by exists h, l, []. Qed.

(** What the start times and the histogram of a state say about the listings. *)
Record accounts (P : Node → bool) (h : list (Z * list Node)) (st : gmap string Z * gmap string (list Z)) : Prop := {
  acc_open : ∀ n, in_state P (last_nodes h) n → ∃ t0, episode P h n t0 ∧ st.1 !! n = Some t0;
  acc_finished : ∀ n, finished P n h (default [] (st.2 !! n)) }.

Lemma in_state_name P l x : x ∈ l → NoDup (names l) → in_state P l (node_Name x) ↔ P x = true.
Proof.
  intros Hx Hnd. split; [|by exists x]. intros (y & Hy & Hyn & HP).
  destruct (names_split _ _ Hx Hnd) as (l1 & l2 & -> & H1 & H2).
  apply elem_of_app in Hy as [Hy|[->|Hy]%elem_of_cons]; [|done|];
    [destruct H1|destruct H2]; rewrite <-Hyn; by apply list_elem_of_fmap_2.
Qed.
Lemma accounts_track P h st l now :
  NoDup (names (last_nodes h)) → NoDup (names l) → accounts P h st →
  accounts P (h ++ [(now, l)]) (track P l (nodesByName (last_nodes h)) now st).
Proof.
  intros Hp Hl [Ho Hf].
  set (st' := track P l (nodesByName (last_nodes h)) now st).
  assert (∀ n, was P (last_nodes h) n = true → ∃ t0, episode P h n t0 ∧ st.1 !! n = Some t0) as Hwas.
  { intros n Hw. by apply Ho, was_spec. }
  split.
  - intros n Hin. rewrite last_nodes_snoc in Hin. pose proof Hin as (x & Hx & <- & HP).
    assert (st'.1 !! node_Name x = (after now (P x) (was P (last_nodes h) (node_Name x)) (kept st (node_Name x))).1) as ->
      by (by rewrite <-(track_at P (last_nodes h) now l x st)).
    rewrite HP. destruct (was P (last_nodes h) (node_Name x)) eqn:Hw; simpl.
    + destruct (Hwas _ Hw) as (t0 & He & Hs). exists t0. split; [by apply episode_snoc|done].
    + exists now. split; [|done]. apply episode_new; [|done]. intros Hi. apply was_spec in Hi; congruence.
  - intros n. destruct (decide (n ∈ names l)) as [Hin|Hnin].
    + apply list_elem_of_fmap in Hin as (x & -> & Hx).
      assert (default [] (st'.2 !! node_Name x) = (after now (P x) (was P (last_nodes h) (node_Name x)) (kept st (node_Name x))).2) as ->
        by (by rewrite <-(track_at P (last_nodes h) now l x st)).
      pose proof (in_state_name P l x Hx Hl) as Hi. unfold after. destruct (P x) eqn:HP; simpl.
      * destruct (was _ _ _); simpl; (apply finished_same; [apply Hf|right; right; by apply Hi]).
      * destruct (was P (last_nodes h) (node_Name x)) eqn:Hw; simpl.
        -- destruct (Hwas _ Hw) as (t0 & He & Hs). rewrite Hs. simpl. apply finished_end; [apply Hf|done| |naive_solver].
           by apply list_elem_of_fmap_2.
        -- apply finished_same; [apply Hf|left]. intros t0 He%episode_open%was_spec; [congruence|done].
    + assert (default [] (st'.2 !! n) = default [] (st.2 !! n)) as ->.
      { exact (f_equal snd (track_other P (last_nodes h) now l st n Hnin)). }
      apply finished_same; [apply Hf|by right; left].
Qed.

(** A collector after any sequence of refreshes and scrapes, with the node listings that were
    applied and the instants at which the durations were measured. *)
Inductive history (t0 : Z) : list (Z * list Node) → MetricsCollector → Prop :=
| history_new : history t0 [] (newMetricsCollector t0)
| history_nodes h c t l q c' :
    history t0 h c → NoDup (names l) → outdated q (nodesCollectionSequence (state c)) = false →
    refreshNodes t (Ok l) q c = (c', Ok tt) → history t0 (h ++ [(apply_now1 t, l)]) c'
| history_late h c t l q c' :
    history t0 h c → outdated q (nodesCollectionSequence (state c)) = true →
    refreshNodes t (Ok l) q c = (c', Ok tt) → history t0 h c'
| history_failed h c t e q c' r : history t0 h c → refreshNodes t (Err e) q c = (c', r) → history t0 h c'
| history_other h c k t a q m c' r :
    history t0 h c → k ≠ KNodes → run k t a q = Some m → m c = (c', r) → history t0 h c'
| history_scrape h c now c' r : history t0 h c → Collect now c = (c', r) → history t0 h c'.

Record node_data_eq (c c' : MetricsCollector) : Prop := {
  nd_nodes : nodes (state c') = nodes (state c);
  nd_starts1 : nodeUnavailabilityStartTimes (state c') = nodeUnavailabilityStartTimes (state c);
  nd_starts2 : nodeDrainingStartTimes (state c') = nodeDrainingStartTimes (state c);
  nd_vecs : vecs c' = vecs c }.
Lemma other_run_frame k t a q m c c' r : k ≠ KNodes → run k t a q = Some m → m c = (c', r) → node_data_eq c c'.
Proof.
  intros Hk Hrun Hm. destruct k, a as [o|o|o|o]; simplify_eq/=; try done;
    unfold refreshJobs, refreshDiag, refreshNodeTopologies, refresh in Hm; destruct o; simplify_eq/=; try done;
    destruct (outdated _ _); by simplify_eq/=.
Qed.
Lemma refreshNodes_applied t l q c c' :
  outdated q (nodesCollectionSequence (state c)) = false → refreshNodes t (Ok l) q c = (c', Ok tt) →
  nodes (state c') = l ∧
  (nodeUnavailabilityStartTimes (state c'), unavailability (vecs c')) =
    track isNodeUnavailable l (nodesByName (nodes (state c))) (apply_now1 t)
      (nodeUnavailabilityStartTimes (state c), unavailability (vecs c)) ∧
  (nodeDrainingStartTimes (state c'), draining (vecs c')) =
    track isNodeDraining l (nodesByName (nodes (state c))) (apply_now1 t)
      (nodeDrainingStartTimes (state c), draining (vecs c)).
Proof.
  intros Ho Hm. unfold refreshNodes, refresh in Hm. rewrite Ho in Hm.
  unfold applyNodes, updateNodeStateMetrics in Hm. simpl in Hm.
  destruct (track isNodeUnavailable _ _ _ _) as [us uh]. destruct (track isNodeDraining _ _ _ _) as [ds dh].
  simpl in Hm. destruct (updateGPUSecondsMetrics _ _ _ _); by simplify_eq/=.
Qed.

Lemma history_accounts t0 h c :
  history t0 h c →
  nodes (state c) = last_nodes h ∧ NoDup (names (last_nodes h)) ∧
  accounts isNodeUnavailable h (nodeUnavailabilityStartTimes (state c), unavailability (vecs c)) ∧
  accounts isNodeDraining h (nodeDrainingStartTimes (state c), draining (vecs c)).
Proof.
  assert (∀ h c c', node_data_eq c c' →
    nodes (state c) = last_nodes h ∧ NoDup (names (last_nodes h)) ∧
    accounts isNodeUnavailable h (nodeUnavailabilityStartTimes (state c), unavailability (vecs c)) ∧
    accounts isNodeDraining h (nodeDrainingStartTimes (state c), draining (vecs c)) →
    nodes (state c') = last_nodes h ∧ NoDup (names (last_nodes h)) ∧
    accounts isNodeUnavailable h (nodeUnavailabilityStartTimes (state c'), unavailability (vecs c')) ∧
    accounts isNodeDraining h (nodeDrainingStartTimes (state c'), draining (vecs c'))) as Hsame.
  { intros h' c1 c2 [-> -> -> ->]. done. }
  induction 1 as [|h c t l q c' Hh (IH1 & IH2 & IH3 & IH4) Hnd Ho Hm|h c t l q c' Hh IH Ho Hm|h c t e q c' r Hh IH Hm
                  |h c k t a q m c' r Hh IH Hk Hrun Hm|h c now c' r Hh IH Hm].
  - split_and!; [done|apply NoDup_nil_2|..];
      (split; [by intros n (x & Hx%not_elem_of_nil & _)|intros n; constructor]).
  - destruct (refreshNodes_applied _ _ _ _ _ Ho Hm) as (-> & -> & ->). rewrite last_nodes_snoc, IH1.
    split_and!; [done|done|by apply accounts_track..].
  - apply (Hsame h c); [|done]. unfold refreshNodes, refresh in Hm. rewrite Ho in Hm. by simplify_eq/=.
  - apply (Hsame h c); [|done]. by simplify_eq/=.
  - apply (Hsame h c); [|done]. by eapply other_run_frame.
  - apply (Hsame h c); [|done]. unfold Collect in Hm. by destruct (collectImpl _ _); simplify_eq/=.
Qed.

(** The two duration histograms are exact.  After any sequence of refreshes (applied, late,
    failed, of any sub-collector) and scrapes, the observations recorded for a node are, in
    order, the lengths of its finished episodes of unavailability (and of draining): each from
    the first listing that had the node in the state to the first one that had it out of it;
    episodes that are still open, or during which the node disappeared, contribute nothing. *)
Theorem durations_are_episodes (t0 : Z) (h : list (Z * list Node)) (c : MetricsCollector) (n : string) :
  history t0 h c →
  finished isNodeUnavailable n h (default [] (unavailability (vecs c) !! n)) ∧
  finished isNodeDraining n h (default [] (draining (vecs c) !! n)).
Proof.
  intros Hh. destruct (history_accounts _ _ _ Hh) as (_ & _ & Hu & Hd).
  split; [apply (acc_finished _ _ _ Hu)|apply (acc_finished _ _ _ Hd)].
Qed.

(** ** Examples *)
Definition example_node (name : string) (l : list node_state) : Node :=
  mkNode name "cluster" ("instance-" +:+ name) (list_to_set l) None ["main"] "cpu=4,mem=8G,gres/gpu=2"
    "10.0.0.1" None "" "" (Some 4%Z) None None None None (Some 8192%Z) None None.
Definition example_timing (now : Z) : timing := mkTiming now now false now now.

Fixpoint exec (topo : bool) (maxInflight : Z) (evs : list event) (e : Exporter) : option Exporter :=
  match evs with
  | [] => Some e
  | ev :: evs => step topo maxInflight ev e ≫= exec topo maxInflight evs
  end.
Lemma exec_reaches topo maxInflight t0 evs n e e' :
  reaches topo maxInflight t0 n e → exec topo maxInflight evs e = Some e' →
  reaches topo maxInflight t0 (n + length evs) e'.
Proof.
  revert n e. induction evs as [|ev evs IH]; simpl; intros n e Hr He; [by simplify_eq/=; rewrite Nat.add_0_r|].
  destruct (step _ _ ev e) as [e1|] eqn:Hs; [|done]. rewrite <-Nat.add_succ_comm.
  eapply IH; [by eapply reaches_step|done].
Qed.

(** Two runs of the node collector overlap and the older one answers last. *)
Definition overlapping : list event :=
  [Tick 0; Load; CompareAndSwap; Load; CompareAndSwap; Load; CompareAndSwap; Started;
   Tick 10; Load; CompareAndSwap; Load; CompareAndSwap; Load; CompareAndSwap; Started;
   Answer 3 (example_timing 11) (ANodes (Ok [example_node "w-1" [IDLE]])); Finish 3;
   Answer 0 (example_timing 12) (ANodes (Ok [example_node "w-0" [IDLE]])); Scrape 13].
Definition overlapped : Exporter :=
  default (NewClusterExporter 0) (exec false (maxCollectorInflight 2) overlapping (NewClusterExporter 0)).
Lemma overlapped_reached : reaches false (maxCollectorInflight 2) 0 (length overlapping) overlapped.
Proof.
  apply (exec_reaches _ _ _ overlapping 0 (NewClusterExporter 0)); [constructor|].
  assert (match exec false (maxCollectorInflight 2) overlapping (NewClusterExporter 0) with
          | Some _ => true | None => false end = true) as Hsome by (vm_compute; reflexivity).
  unfold overlapped. destruct (exec _ _ _ _); [reflexivity|discriminate].
Qed.
Lemma newest_answer_shown_witness :
  map (λ x, x.1.2) (answered overlapped) = [2; 1]%Z ∧
  (∃ q, (KNodes, q, view KNodes (state (collector overlapped))) ∈ answered overlapped ∧
        ∀ q' a, (KNodes, q', a) ∈ answered overlapped → (q' ≤ q)%Z) ∧
  names (nodes (state (collector overlapped))) = ["w-1"].
Proof.
  assert (match answered overlapped with (KNodes, _, _) :: _ => true | _ => false end = true) as Hfirst
    by (vm_compute; reflexivity).
  split; [vm_compute; reflexivity|].
  assert (Z.of_nat (length overlapping) < 2 ^ 64)%Z as Hn by (simpl length; lia).
  pose proof (newest_answer_shown false 2 0 _ _ KNodes overlapped_reached Hn) as Hth.
  destruct Hth as (_ & _ & _ & [[Hno _]|H]); cycle 1.
  { split; [exact H|]. vm_compute. reflexivity. }
  exfalso. revert Hno Hfirst. generalize (answered overlapped). intros [|[[[] q] a] l] Hno; try discriminate.
  intros _. apply (Hno q a). left.
Defined.

(** A node is down from 10 to 40 and drains a job from 60 to 90. *)
Definition example_collector (l : list (Z * list node_state)) : MetricsCollector :=
  foldl (λ c x, (refreshNodes (example_timing x.1) (Ok [example_node "w-0" x.2]) 0 c).1) (newMetricsCollector 0) l.
Definition example_states : list (Z * list node_state) :=
  [(10, [DOWN]); (20, [DOWN; DRAIN]); (40, [IDLE]); (60, [DRAIN; ALLOCATED]); (90, [IDLE])]%Z.
Definition example_history (l : list (Z * list node_state)) : list (Z * list Node) :=
  map (λ x, (x.1, [example_node "w-0" x.2])) l.
Lemma example_step l x :
  history 0 (example_history l) (example_collector l) →
  (refreshNodes (example_timing x.1) (Ok [example_node "w-0" x.2]) 0 (example_collector l)).2 = Ok tt →
  history 0 (example_history (l ++ [x])) (example_collector (l ++ [x])).
Proof.
  intros Hh Hok. unfold example_history, example_collector in *. rewrite map_app, foldl_app. simpl.
  eapply (history_nodes 0 _ _ (example_timing x.1) [example_node "w-0" x.2] 0); [exact Hh|apply NoDup_singleton|done|].
  rewrite (surjective_pairing (refreshNodes _ _ _ _)) at 1. by rewrite Hok.
Qed.
Lemma example_reached : history 0 (example_history example_states) (example_collector example_states).
Proof.
  change example_states with (((((([] : list (Z * list node_state)) ++ [(10, [DOWN])]) ++ [(20, [DOWN; DRAIN])]) ++ [(40, [IDLE])]) ++
    [(60, [DRAIN; ALLOCATED])]) ++ [(90, [IDLE])])%Z.
  repeat (apply example_step; [|by vm_compute]). constructor.
Qed.
Lemma durations_are_episodes_witness :
  finished isNodeUnavailable "w-0" (example_history example_states) [30%Z] ∧
  finished isNodeDraining "w-0" (example_history example_states) [30%Z].
Proof.
  pose proof (durations_are_episodes 0 _ _ "w-0" example_reached) as H.
  assert (unavailability (vecs (example_collector example_states)) !! "w-0" = Some [30%Z]) as Hu by (vm_compute; reflexivity).
  assert (draining (vecs (example_collector example_states)) !! "w-0" = Some [30%Z]) as Hd by (vm_compute; reflexivity).
  rewrite Hu, Hd in H. exact H.
Defined.
