(* ===== verification/ExporterScrape.v ===== *)
(** * Scrapes of the exporter are well formed

    The registry refuses a scrape with a metric that was not announced, that has a wrong number of
    label values or that occurs twice, and the construction of a metric panics on a label value
    that is not valid UTF-8.  This file proves that [collectImpl] of [Exporter.v] does not get
    there when Slurm's answer is [exportable], kind of metric by kind of metric. *)
From S2P Require Import Prelude GoStrings HostList Tres SlurmNode SlurmJob Exporter.
From Stdlib Require Import Ascii.
From Stdlib Require String.

(** ** Trimmed names stay valid *)
Arguments head_rune : simpl never.
Lemma valid_from_drop k s : valid_from k s = ValidString (str_drop k s).
Proof. revert k. induction s as [|c s IH]; intros [|k]; simpl; auto. Qed.
Lemma rune_count_drop k s : rune_count k s = RuneCountInString (str_drop k s).
Proof. revert k. induction s as [|c s IH]; intros [|k]; simpl; auto. Qed.
Lemma cut_at_rune_drop room k s :
  cut_at_rune room k s = str_take k s +:+ cut_at_rune room 0 (str_drop k s).
Proof. revert k. induction s as [|c s IH]; intros [|k]; simpl; auto. by rewrite IH, str_app_cons. Qed.
Lemma head_rune_whole s w x :
  head_rune s = (w, true) →
  w ≠ 0%nat ∧ String.length (str_take w s) = w ∧ head_rune (str_take w s +:+ x) = (w, true).
Proof.
  unfold head_rune. destruct s as [|c0 s]; simpl; [done|].
  destruct (between 0 127 c0) eqn:H0; [by intros [= <-]; simpl; rewrite H0|].
  destruct (between 194 223 c0) eqn:H1.
  { destruct s as [|c1 s]; [done|]. destruct (continuation c1) eqn:Hc; intros [= <-]. simpl. by rewrite H0, H1, Hc. }
  destruct (between 224 239 c0) eqn:H2.
  { destruct s as [|c1 [|c2 s]]; [done..|]. destruct (_ && _) eqn:Hc; intros [= <-]. simpl. by rewrite H0, H1, H2, Hc. }
  destruct (between 240 244 c0) eqn:H3; [|done].
  destruct s as [|c1 [|c2 [|c3 s]]]; [done..|]. destruct (_ && _) eqn:Hc; intros [= <-]. simpl.
  by rewrite H0, H1, H2, H3, Hc.
Qed.
Lemma cut_at_rune_spec room s :
  ValidString s = true →
  ValidString (cut_at_rune room 0 s) = true ∧ (RuneCountInString (cut_at_rune room 0 s) ≤ room)%nat.
Proof.
  revert s. induction room as [|room IH]; intros [|c s] Hv; try (by split; [|unfold RuneCountInString; simpl; lia]).
  unfold ValidString in Hv. simpl valid_from in Hv. apply andb_prop in Hv as [Hh Hv].
  destruct (head_rune (String c s)) as [w b] eqn:Hr. simpl in Hh, Hv.
  subst b.
  destruct w as [|w]; [by destruct (head_rune_whole _ _ "" Hr)|].
  rewrite valid_from_drop in Hv. simpl in Hv. destruct (IH _ Hv) as [IH1 IH2].
  simpl cut_at_rune. rewrite Hr. simpl pred. rewrite cut_at_rune_drop. simpl str_drop in *.
  set (rest := cut_at_rune room 0 (str_drop w s)) in *.
  destruct (head_rune_whole _ _ rest Hr) as (_ & Hlen & Hr'). simpl str_take in Hr'. rewrite str_app_cons in Hr'.
  assert (str_drop w (str_take w s +:+ rest) = rest) as Hd.
  { simpl in Hlen. injection Hlen as Hlen. rewrite <-Hlen at 1. apply str_drop_length_app. }
  unfold ValidString, RuneCountInString. simpl valid_from. simpl rune_count. rewrite Hr'. simpl.
  rewrite valid_from_drop, rune_count_drop, Hd. split; [done|]. lia.
Qed.
Lemma trimReservationName_spec name :
  ValidString name = true →
  ValidString (trimReservationName name) = true ∧
  (RuneCountInString (trimReservationName name) ≤ maxReservationNameLength)%nat.
Proof.
  intros Hv. unfold trimReservationName. destruct (String.eqb name ""); [by split; [|apply Nat.le_0_l]|].
  destruct (Nat.leb_spec (RuneCountInString name) maxReservationNameLength); [done|].
  by apply cut_at_rune_spec.
Qed.
Lemma ascii_valid s : str_forallb (between 0 127) s = true → ValidString s = true.
Proof.
  unfold ValidString. induction s as [|c s IH]; simpl; [done|]. intros [Hc Hs]%andb_prop.
  unfold head_rune. rewrite Hc. simpl. by apply IH.
Qed.
Lemma digits_ascii s : isDigits s = true → str_forallb (between 0 127) s = true.
Proof.
  apply str_forallb_impl. intros c. unfold is_digit, between, byte_of.
  intros [H1%Z.leb_le H2%Z.leb_le]%andb_prop. apply andb_true_intro. split; apply Z.leb_le; lia.
Qed.
Lemma Itoa_valid n : ValidString (Itoa n) = true.
Proof.
  apply ascii_valid. unfold Itoa. destruct (Z.ltb_spec n 0); simpl;
    (apply digits_ascii, print_nonneg_spec; lia).
Qed.

(** ** Scrapes are well formed *)
Definition valid (s : string) : Prop := ValidString s = true.
Definition identity (m : Metric) : string * list string := (desc_name (metric_desc m), metric_labels m).
(** A metric the registry accepts: announced, with a value for every label. *)
Definition well_typed (m : Metric) : Prop :=
  metric_desc m ∈ Describe ∧ length (metric_labels m) = length (desc_labels (metric_desc m)) ∧
  Forall valid (metric_labels m).

Record node_ok (n : Node) : Prop := {
  no_valid : Forall valid [node_Name n; node_InstanceID n; node_Reservation n; node_Address n;
                           reason_label n; node_Comment n];
  no_partitions : Forall valid (node_Partitions n);
  no_nodup : NoDup (node_Partitions n) }.
Record job_ok (j : Job) : Prop := {
  jo_valid : Forall valid [job_State j; job_StateReason j; job_Partition j; job_Name j; job_UserName j;
                           job_UserMail j; job_StandardError j; job_StandardOutput j; job_ArrayTaskString j];
  jo_nodes : str_forallb (between 0 127) (job_Nodes j) = true;
  jo_ranges : Contains (job_Nodes j) (Itoa (max_int 64)) = false;
  jo_once : ∀ l, GetNodeList j = Ok l → NoDup l }.
(** The nodes of such a job can be read, or not, but reading them comes to an end. *)
Lemma job_nodes_ok j :
  job_ok j → match GetNodeList j with Ok l => Forall valid l ∧ NoDup l | Err _ => True | Halt _ => False end.
Proof.
  intros [_ Ha Hr Ho]. unfold GetNodeList in *. destruct (parseNodeList (job_Nodes j)) as [l|e|h] eqn:Hp; [|done|].
  - split; [|by apply Ho]. eapply Forall_impl; [eapply parseNodeList_forallb; [| |exact Ha|exact Hp]|intros x; apply ascii_valid]; [|done].
    intros c Hc. pose proof (digits_ascii (String c "")) as Hd. unfold isDigits in Hd. cbn [str_forallb] in Hd. rewrite Hc in Hd.
    by destruct (andb_prop _ _ (Hd eq_refl)).
  - apply parseNodeList_Halt, within_Contains in Hp. congruence.
Qed.
Record diag_ok (d : V0044OpenapiDiagResp) : Prop := {
  do_types : Forall valid (map rpc_MessageType (default [] (RpcsByMessageType d)));
  do_types_nodup : NoDup (map rpc_MessageType (default [] (RpcsByMessageType d)));
  do_users : Forall valid (map user_User (default [] (RpcsByUser d)));
  do_users_nodup : NoDup (map (λ u, [user_User u; Itoa (user_UserId u)]) (default [] (RpcsByUser d))) }.
Definition topologies_ok (m : gmap string NodeTopology) : Prop :=
  map_Forall (λ _ t, valid (NVLinkInstanceGroup t) ∧ valid (SlurmNodeSetName t)) m.
(** What is asked of the data: names, IDs, message types and the users of calls are unique, no job has a node twice, strings are valid UTF-8 (as decoded JSON
    is), and the host lists of jobs are ASCII without the largest integer in them. *)
Record exportable (s : metricsCollectorState) : Prop := {
  ex_nodes : Forall node_ok (nodes s);
  ex_names : NoDup (names (nodes s));
  ex_jobs : Forall job_ok (jobs s);
  ex_ids : NoDup (map GetIDString (jobs s));
  ex_diag : ∀ d, diag s = Some d → diag_ok d;
  ex_topologies : topologies_ok (nodeTopologies s) }.
Definition vectors_ok (v : vectors) : Prop :=
  map_Forall (λ k _, length k = 5%nat ∧ Forall valid k) (gpuSeconds v) ∧
  map_Forall (λ k _, length k = 6%nat ∧ Forall valid k) (fails v) ∧
  map_Forall (λ k _, valid k) (unavailability v) ∧ map_Forall (λ k _, valid k) (draining v).

Lemma collectAll_typed l : Forall well_typed l → collectAll l = Ok l.
Proof.
  induction 1 as [|[d v ls] l (_ & Hlen & Hv) _ IH]; simpl in *; [done|]. unfold MustNewConstMetric.
  rewrite bool_decide_true by done. assert (forallb ValidString ls = true) as ->.
  { apply forallb_elem. intros x Hx. by eapply Forall_forall in Hv. }
  simpl. by rewrite IH.
Qed.

Definition desc_names (l : list Metric) : list string := map (λ m, desc_name (metric_desc m)) l.
Lemma nodup_identity l : NoDup (desc_names l) → NoDup (map identity l).
Proof. intros Hn. apply (NoDup_fmap_1 fst). by rewrite <-list_fmap_compose. Qed.
(** Metrics of different objects differ in a label. *)
Lemma nodup_objects {A K} (f : A → list Metric) (key : A → K) (g : list string → K) (l : list A) :
  NoDup (map key l) →
  (∀ x, x ∈ l → NoDup (map identity (f x)) ∧ Forall (λ m, g (metric_labels m) = key x) (f x)) →
  NoDup (map identity (l ≫= f)).
Proof.
  induction l as [|x l IH]; intros Hk Hf; simpl; [apply NoDup_nil_2|].
  apply NoDup_cons in Hk as [Hx Hk]. rewrite map_app. apply NoDup_app. split_and!.
  - apply Hf. left.
  - intros i (m & -> & Hm)%list_elem_of_fmap (m' & Hi & Hm')%list_elem_of_fmap.
    apply list_elem_of_bind in Hm' as (y & Hm' & Hy). apply Hx, list_elem_of_fmap. exists y. split; [|done].
    destruct (Hf x) as [_ H1]; [left|]. destruct (Hf y) as [_ H2]; [by right|].
    eapply Forall_forall in H1; [|exact Hm]. eapply Forall_forall in H2; [|exact Hm']. injection Hi. congruence.
  - apply IH; [done|]. intros. apply Hf. by right.
Qed.
Lemma nodup_parts l1 l2 :
  NoDup (map identity l1) → NoDup (map identity l2) →
  (∀ m m', m ∈ l1 → m' ∈ l2 → desc_name (metric_desc m) ≠ desc_name (metric_desc m')) →
  NoDup (map identity (l1 ++ l2)).
Proof.
  intros H1 H2 Hd. rewrite map_app. apply NoDup_app. split_and!; [done| |done].
  intros i (m & -> & Hm)%list_elem_of_fmap (m' & Hi & Hm')%list_elem_of_fmap. injection Hi. intros _ Hn.
  by apply (Hd m m').
Qed.
Lemma gauge_if_names d v ls : desc_names (gauge_if d v ls) `sublist_of` [desc_name d].
Proof. destruct v; simpl; [done|apply sublist_nil_l]. Qed.
Ltac in_descs := unfold Describe; in_list.
Lemma gauge_if_typed d v ls :
  d ∈ Describe → length ls = length (desc_labels d) → Forall valid ls → Forall well_typed (gauge_if d v ls).
Proof. intros. destruct v; simpl; [|constructor]. apply Forall_cons. split; [by split_and!|constructor]. Qed.
Lemma gauge_if_all (P : Metric → Prop) d v ls : (∀ q, P (gauge d q ls)) → Forall P (gauge_if d v ls).
Proof. intros HP. destruct v; simpl; [|constructor]. apply Forall_cons. split; [apply HP|constructor]. Qed.

Create HintDb exporter.
Section node_metrics.
  Context (topologies : gmap string NodeTopology) (Ht : topologies_ok topologies).
Lemma lookupTopology_valid name :
  valid (NVLinkInstanceGroup (lookupTopology topologies name)) ∧ valid (SlurmNodeSetName (lookupTopology topologies name)).
Proof.
  unfold lookupTopology. destruct (topologies !! name) as [t|] eqn:He; simpl; [|done]. by apply (Ht name).
Qed.
Lemma flag_valid b : valid (boolToLabelValue b) ∧ valid (FormatBool b).
Proof. by destruct b. Qed.
Lemma base_state_valid n : valid (base_state_label n).
Proof. unfold base_state_label. by destruct (BaseState n) as [[]|]. Qed.
Hint Resolve base_state_valid : exporter.
Hint Extern 1 (valid (boolToLabelValue _)) => apply flag_valid : exporter.
Hint Extern 1 (valid (FormatBool _)) => apply flag_valid : exporter.
Hint Extern 1 (valid (Itoa _)) => apply Itoa_valid : exporter.

Lemma node_labels_typed n : node_ok n → Forall valid (node_info_labels n).
Proof.
  intros [Hv _ _]. repeat match goal with H : Forall valid (_ :: _) |- _ => inversion_clear H end.
  unfold node_info_labels. repeat (apply Forall_cons; split; [auto with exporter|]); [|done].
  by apply trimReservationName_spec.
Qed.
Definition node_singles : list string :=
  map desc_name [nodeNVLinkInstanceGroup; nodeInfo; nodeCPUTotal; nodeCPUAllocated; nodeCPUIdle; nodeCPUEffective;
    nodeMemoryTotalBytes; nodeMemoryAllocatedBytes; nodeMemoryFreeBytes; nodeMemoryEffectiveBytes].
(** All metrics of a node but those of its partitions: one of each kind at most. *)
Lemma nodeMetrics_split n :
  ∃ singles, nodeMetrics topologies n =
               singles ++ map (λ p, gauge nodePartition (int_value 1) [node_Name n; p]) (node_Partitions n) ∧
             desc_names singles `sublist_of` node_singles.
Proof.
  eexists. split; [unfold nodeMetrics; rewrite !app_assoc; reflexivity|]. unfold desc_names. rewrite !map_app.
  change node_singles with ([desc_name nodeNVLinkInstanceGroup] ++ [desc_name nodeInfo] ++ [desc_name nodeCPUTotal] ++
    [desc_name nodeCPUAllocated] ++ [desc_name nodeCPUIdle] ++ [desc_name nodeCPUEffective] ++
    [desc_name nodeMemoryTotalBytes] ++ [desc_name nodeMemoryAllocatedBytes] ++
    [desc_name nodeMemoryFreeBytes] ++ [desc_name nodeMemoryEffectiveBytes]).
  rewrite !app_assoc. repeat (apply sublist_app; [|apply gauge_if_names]). apply sublist_app; [|done].
  destruct (String.eqb _ _); [apply sublist_nil_l|done].
Qed.
Lemma sublist_names l (ns : list string) m : desc_names l `sublist_of` ns → m ∈ l → desc_name (metric_desc m) ∈ ns.
Proof. intros Hs Hm. eapply elem_of_submseteq; [|by apply sublist_submseteq]. by apply (list_elem_of_fmap_2 (λ m, desc_name (metric_desc m))). Qed.
Lemma nodeMetrics_typed n : node_ok n → Forall well_typed (nodeMetrics topologies n).
Proof.
  intros Hok. pose proof (node_labels_typed n Hok) as Hinfo. destruct Hok as [Hv Hp Hnd].
  repeat match goal with H : Forall valid (_ :: _) |- _ => inversion_clear H end.
  destruct (lookupTopology_valid (node_Name n)) as [Hn1 Hn2].
  unfold nodeMetrics. repeat (apply Forall_app; split); try (apply gauge_if_typed; [in_descs|done|by repeat constructor]).
  - destruct (String.eqb _ _); [constructor|]. apply Forall_cons. split; [|constructor].
    split_and!; [in_descs|done|by repeat constructor].
  - apply Forall_cons. split; [|constructor]. split_and!; [in_descs|done|done].
  - apply Forall_fmap, Forall_forall. intros p Hin. eapply Forall_forall in Hp; [|exact Hin].
    split_and!; [in_descs|done|by repeat constructor].
Qed.
Lemma nodeMetrics_nodup n : node_ok n → NoDup (map identity (nodeMetrics topologies n)).
Proof.
  intros [_ _ Hnd]. destruct (nodeMetrics_split n) as (singles & -> & Hs). apply nodup_parts.
  - apply nodup_identity, (sublist_NoDup _ node_singles); [by apply (bool_decide_unpack _); vm_compute|done].
  - apply NoDup_fmap_1 with (f := snd). rewrite <-!list_fmap_compose. apply NoDup_fmap_2; [|done].
    by intros p q [= ->].
  - intros m m' Hm (p & -> & _)%list_elem_of_fmap Heq. pose proof (sublist_names _ _ _ Hs Hm) as Hin.
    rewrite Heq in Hin. revert Hin. by apply (bool_decide_unpack _); vm_compute.
Qed.
Lemma nodeMetrics_node n : Forall (λ m, head (metric_labels m) = Some (node_Name n)) (nodeMetrics topologies n).
Proof.
  unfold nodeMetrics. repeat (apply Forall_app; split); try (by apply gauge_if_all).
  - destruct (String.eqb _ _); by repeat constructor.
  - by repeat constructor.
  - by apply Forall_fmap, Forall_forall.
Qed.
Lemma nodeMetrics_names n m : m ∈ nodeMetrics topologies n → desc_name (metric_desc m) ∈ desc_name nodePartition :: node_singles.
Proof.
  destruct (nodeMetrics_split n) as (singles & -> & Hs). intros [Hm|(p & -> & _)%list_elem_of_fmap]%elem_of_app.
  - right. by eapply sublist_names.
  - left.
Qed.

(** *** Jobs *)
Definition job_singles : list string := map desc_name [jobInfo; jobCPUs; jobMemoryBytes; jobDuration].
Lemma job_labels_typed j : job_ok j → Forall valid (job_info_labels j).
Proof.
  intros [Hv _]. repeat match goal with H : Forall valid (_ :: _) |- _ => inversion_clear H end.
  assert (∀ t, valid (timeToUnixString t)) as Htm.
  { intros [t|]; simpl; [|done]. destruct (Z.eqb t 0); [done|apply Itoa_valid]. }
  unfold job_info_labels. repeat (apply Forall_cons; split; [auto with exporter|]); [..|done].
  all: unfold GetIDString, GetArrayJobIDString, GetArrayTaskIDString, finished_time.
  all: repeat match goal with |- valid (match ?x with _ => _ end) => destruct x end; auto with exporter; done.
Qed.
(** The metrics of a job but those of its nodes. *)
Definition job_own (now : Z) (j : Job) : list Metric :=
  [gauge jobInfo (int_value 1) (job_info_labels j)] ++
  gauge_if jobCPUs (jobAllocatedResources j).1 [GetIDString j] ++
  gauge_if jobMemoryBytes (jobAllocatedResources j).2 [GetIDString j] ++ job_duration_metric now j.
Lemma job_own_typed now j : job_ok j → Forall well_typed (job_own now j).
Proof.
  intros Hok. pose proof (job_labels_typed j Hok) as Hinfo.
  assert (valid (GetIDString j)) as Hid by apply Itoa_valid. unfold job_own, job_duration_metric.
  repeat (apply Forall_app; split); try (apply gauge_if_typed; [in_descs|done|by repeat constructor]).
  - apply Forall_cons. split; [|constructor]. split_and!; [in_descs|done|done].
  - destruct (job_duration now j); [|constructor]. apply Forall_cons. split; [|constructor].
    split_and!; [in_descs|done|by repeat constructor].
Qed.
Lemma job_own_names now j : desc_names (job_own now j) `sublist_of` job_singles.
Proof.
  unfold job_own, job_duration_metric, desc_names. rewrite !map_app.
  change job_singles with ([desc_name jobInfo] ++ [desc_name jobCPUs] ++ [desc_name jobMemoryBytes] ++ [desc_name jobDuration]).
  repeat apply sublist_app; try apply gauge_if_names; [done|]. destruct (job_duration now j); [done|apply sublist_nil_l].
Qed.
Lemma job_own_id now j : Forall (λ m, head (metric_labels m) = Some (GetIDString j)) (job_own now j).
Proof.
  unfold job_own, job_duration_metric.
  repeat (apply Forall_app; split); try (by apply gauge_if_all); [by repeat constructor|].
  destruct (job_duration now j); by repeat constructor.
Qed.
Lemma jobMetrics_ok now j :
  job_ok j → ∃ ms, jobMetrics now topologies j = Ok ms ∧
    Forall well_typed ms ∧ NoDup (map identity ms) ∧
    Forall (λ m, head (metric_labels m) = Some (GetIDString j)) ms ∧
    ∀ m, m ∈ ms → desc_name (metric_desc m) ∈ desc_name jobNode :: job_singles.
Proof.
  intros Hok. pose proof (job_own_typed now j Hok) as H1. pose proof (job_own_names now j) as H2.
  pose proof (job_own_id now j) as H3. pose proof (job_nodes_ok j Hok) as Hn.
  assert (NoDup (map identity (job_own now j))) as H4.
  { apply nodup_identity, (sublist_NoDup _ job_singles); [by apply (bool_decide_unpack _); vm_compute|done]. }
  assert (∀ m, m ∈ job_own now j → desc_name (metric_desc m) ∈ job_singles) as H5 by (intros; by eapply sublist_names).
  unfold jobMetrics. unfold job_own in *. destruct (jobAllocatedResources j) as [cpu mem]. simpl fst in *. simpl snd in *.
  destruct (GetNodeList j) as [l|e|w]; [| |done]; (eexists; split; [reflexivity|]); [|by split_and!; [..|right; auto]].
  destruct Hn as [Hv Hnd]. split_and!.
  - apply Forall_app. split; [done|]. apply Forall_fmap, Forall_forall. intros x Hx. eapply Forall_forall in Hv; [|exact Hx].
    destruct (lookupTopology_valid x) as [Hn1 Hn2].
    split_and!; [in_descs|done|]. repeat (apply Forall_cons; split; [try apply Itoa_valid; done|]). constructor.
  - apply nodup_parts; [done| |].
    + apply NoDup_fmap_1 with (f := snd). rewrite <-!list_fmap_compose. apply NoDup_fmap_2; [|done].
      by intros p q [= ->].
    + intros m m' Hm (x & -> & _)%list_elem_of_fmap Heq. apply H5 in Hm. rewrite Heq in Hm. revert Hm.
      by apply (bool_decide_unpack _); vm_compute.
  - apply Forall_app. split; [done|]. by apply Forall_fmap, Forall_forall.
  - intros m [Hm|(x & -> & _)%list_elem_of_fmap]%elem_of_app; [right; auto|left].
Qed.
Lemma slurmJobMetrics_ok now l :
  Forall job_ok l → NoDup (map GetIDString l) → ∃ ms, slurmJobMetrics now l topologies = Ok ms ∧
    Forall well_typed ms ∧ NoDup (map identity ms) ∧
    (∀ m, m ∈ ms → (∃ j, j ∈ l ∧ head (metric_labels m) = Some (GetIDString j)) ∧
                   desc_name (metric_desc m) ∈ desc_name jobNode :: job_singles).
Proof.
  induction l as [|j l IH]; intros Hok Hid; simpl.
  { exists []. split_and!; [done|constructor|apply NoDup_nil_2|by intros m Hm%not_elem_of_nil]. }
  apply Forall_cons in Hok as [Hj Hok]. apply NoDup_cons in Hid as [Hjid Hid].
  destruct (jobMetrics_ok now j Hj) as (ms & -> & H1 & H2 & H3 & H4).
  destruct (IH Hok Hid) as (ms' & -> & H1' & H2' & H3'). simpl. eexists. split; [reflexivity|]. split_and!.
  - by apply Forall_app.
  - rewrite map_app. apply NoDup_app. split_and!; [done| |done].
    intros i (m & -> & Hm)%list_elem_of_fmap (m' & Hi & Hm')%list_elem_of_fmap.
    apply H3' in Hm' as [(j' & Hj' & Hh) _]. eapply Forall_forall in H3; [|exact Hm].
    injection Hi. intros Hl _. apply Hjid, list_elem_of_fmap. exists j'. split; [|done]. congruence.
  - intros m [Hm|Hm]%elem_of_app.
    + eapply Forall_forall in H3; [|exact Hm]. split; [exists j; split; [left|done]|auto].
    + destruct (H3' m Hm) as [(j' & ? & ?) ?]. split; [exists j'; split; [by right|done]|done].
Qed.
End node_metrics.

(** *** Diagnostics *)
Definition rpc_names : list string :=
  map desc_name [controllerServerThreadCount; rpcCallsTotal; rpcDurationSecondsTotal; rpcUserCallsTotal; rpcUserDurationSecondsTotal].
Lemma counter_pair_ok calls duration c t ls :
  calls ∈ Describe → duration ∈ Describe → desc_name calls ≠ desc_name duration →
  length ls = length (desc_labels calls) → length ls = length (desc_labels duration) → Forall valid ls →
  Forall well_typed (counter_pair calls duration c t ls) ∧
  NoDup (map identity (counter_pair calls duration c t ls)) ∧
  Forall (λ m, metric_labels m = ls) (counter_pair calls duration c t ls).
Proof.
  intros Hc Hd Hne Hl1 Hl2 Hv. unfold counter_pair.
  assert (∀ d v, d ∈ Describe → length ls = length (desc_labels d) → well_typed (mkMetric d v ls)) as Hw by done.
  split_and!.
  - apply Forall_app. split; [destruct (0 <? c)%Z|destruct (0 <? t)%Z];
      first [apply Forall_nil_2|apply Forall_cons; split; [by apply Hw|apply Forall_nil_2]].
  - apply nodup_parts; [destruct (0 <? c)%Z|destruct (0 <? t)%Z|]; try apply NoDup_nil_2; try apply NoDup_singleton.
    intros m m' Hm Hm'. destruct (0 <? c)%Z; [|by apply not_elem_of_nil in Hm].
    destruct (0 <? t)%Z; [|by apply not_elem_of_nil in Hm'].
    by apply list_elem_of_singleton in Hm as ->; apply list_elem_of_singleton in Hm' as ->.
  - apply Forall_app. split; [destruct (0 <? c)%Z|destruct (0 <? t)%Z]; by repeat constructor.
Qed.
Lemma counter_pair_names calls duration c t ls m :
  m ∈ counter_pair calls duration c t ls → metric_desc m = calls ∨ metric_desc m = duration.
Proof.
  unfold counter_pair. intros [Hm|Hm]%elem_of_app; [destruct (0 <? c)%Z|destruct (0 <? t)%Z];
    try (by apply not_elem_of_nil in Hm); apply list_elem_of_singleton in Hm as ->; auto.
Qed.
Lemma slurmRPCMetrics_ok d :
  (∀ x, d = Some x → diag_ok x) →
  Forall well_typed (slurmRPCMetrics d) ∧ NoDup (map identity (slurmRPCMetrics d)) ∧
  ∀ m, m ∈ slurmRPCMetrics d → desc_name (metric_desc m) ∈ rpc_names.
Proof.
  intros Hd. destruct d as [d|]; simpl; [|by split_and!; [constructor|apply NoDup_nil_2|intros m Hm%not_elem_of_nil]].
  destruct (Hd d eq_refl) as [Ht Htn Hu Hun].
  assert (∀ r, r ∈ default [] (RpcsByMessageType d) → valid (rpc_MessageType r)) as Ht'.
  { intros r Hr. eapply Forall_forall in Ht; [exact Ht|]. by apply list_elem_of_fmap_2. }
  assert (∀ r, r ∈ default [] (RpcsByUser d) → Forall valid [user_User r; Itoa (user_UserId r)]) as Hu'.
  { intros r Hr. repeat constructor; [|apply Itoa_valid]. eapply Forall_forall in Hu; [exact Hu|]. by apply list_elem_of_fmap_2. }
  set (A := gauge_if _ _ _). set (B := default [] (RpcsByMessageType d) ≫= _). set (C := default [] (RpcsByUser d) ≫= _).
  assert (∀ m, m ∈ A → metric_desc m = controllerServerThreadCount) as HA.
  { unfold A. destruct (ServerThreadCount d); simpl; intros m Hm; [|by apply not_elem_of_nil in Hm].
    by apply list_elem_of_singleton in Hm as ->. }
  assert (∀ m, m ∈ B → metric_desc m = rpcCallsTotal ∨ metric_desc m = rpcDurationSecondsTotal) as HB.
  { intros m (r & Hm & _)%list_elem_of_bind. by eapply counter_pair_names. }
  assert (∀ m, m ∈ C → metric_desc m = rpcUserCallsTotal ∨ metric_desc m = rpcUserDurationSecondsTotal) as HC.
  { intros m (r & Hm & _)%list_elem_of_bind. by eapply counter_pair_names. }
  split_and!.
  - repeat (apply Forall_app; split).
    + by apply gauge_if_typed; [in_descs|..].
    + apply Forall_bind, Forall_forall. intros r Hr. apply counter_pair_ok; [in_descs|in_descs|done..|].
      by repeat constructor; apply Ht'.
    + apply Forall_bind, Forall_forall. intros r Hr. apply counter_pair_ok; [in_descs|in_descs|done..|by apply Hu'].
  - repeat apply nodup_parts.
    + unfold A. destruct (ServerThreadCount d); simpl; [apply NoDup_singleton|apply NoDup_nil_2].
    + apply (nodup_objects _ rpc_MessageType (λ ls, default "" (head ls))); [done|]. intros r Hr.
      destruct (counter_pair_ok rpcCallsTotal rpcDurationSecondsTotal (rpc_Count r) (rpc_TotalTime r) [rpc_MessageType r]) as (_ & H2 & H3);
        [in_descs|in_descs|done..|by repeat constructor; apply Ht'|]. split; [done|].
      eapply Forall_impl; [exact H3|]. by intros m ->.
    + apply (nodup_objects _ (λ u, [user_User u; Itoa (user_UserId u)]) id); [done|]. intros r Hr.
      destruct (counter_pair_ok rpcUserCallsTotal rpcUserDurationSecondsTotal (user_Count r) (user_TotalTime r)
                  [user_User r; Itoa (user_UserId r)]) as (_ & H2 & H3);
        [in_descs|in_descs|done..|by apply Hu'|]. done.
    + by intros m m' [-> | ->]%HB [-> | ->]%HC.
    + by intros m m' ->%HA [[-> | ->]%HB|[-> | ->]%HC]%elem_of_app.
  - unfold rpc_names. intros m [->%HA|[[-> | ->]%HB|[-> | ->]%HC]%elem_of_app]%elem_of_app; in_list.
Qed.

(** *** Counters and histograms *)
Definition vector_names : list string :=
  map desc_name [nodeGPUSeconds; nodeFails; nodeUnavailabilityDuration; nodeDrainingDuration].
Section one_vector.
  Context {K V : Type} `{Countable K} (d : Desc) (f : V → value) (g : K → list string) (Hg : Inj (=) (=) g).
Definition vector_list (m : gmap K V) : list Metric := map (λ '(k, x), mkMetric d (f x) (g k)) (map_to_list m).
Lemma vector_list_ok (m : gmap K V) :
  d ∈ Describe → map_Forall (λ k _, length (g k) = length (desc_labels d) ∧ Forall valid (g k)) m →
  Forall well_typed (vector_list m) ∧ NoDup (map identity (vector_list m)) ∧
  ∀ x, x ∈ vector_list m → metric_desc x = d.
Proof.
  intros Hd Hm. unfold vector_list. split_and!.
  - apply Forall_fmap, Forall_forall. intros [k x] Hk%elem_of_map_to_list. destruct (Hm _ _ Hk). by split_and!.
  - apply NoDup_fmap_1 with (f := snd). rewrite <-!list_fmap_compose.
    rewrite (list_fmap_ext _ (g ∘ fst)) by (by intros ? [k x]). rewrite list_fmap_compose.
    apply (NoDup_fmap_2 g), NoDup_fst_map_to_list.
  - by intros x ([k v] & -> & _)%list_elem_of_fmap.
Qed.
End one_vector.
Lemma vectorMetrics_ok v :
  vectors_ok v →
  Forall well_typed (vectorMetrics v) ∧ NoDup (map identity (vectorMetrics v)) ∧
  ∀ m, m ∈ vectorMetrics v → desc_name (metric_desc m) ∈ vector_names.
Proof.
  intros (Hg & Hf & Hu & Hd).
  assert (∀ k, valid k → length [k] = 1%nat ∧ Forall valid [k]) as H1 by (intros; split; [done|by repeat constructor]).
  destruct (vector_list_ok nodeGPUSeconds (λ x, CounterValue (seconds_value x)) id _ (gpuSeconds v)) as (A1 & A2 & A3);
    [in_descs|done|].
  destruct (vector_list_ok nodeFails (λ x, CounterValue (int_value x)) id _ (fails v)) as (B1 & B2 & B3);
    [in_descs|done|].
  destruct (vector_list_ok nodeUnavailabilityDuration HistogramValue (λ n : string, [n]) ltac:(by intros ? ? [= ->]) (unavailability v)) as (C1 & C2 & C3);
    [in_descs|intros k x Hk; apply H1, (Hu _ _ Hk)|].
  destruct (vector_list_ok nodeDrainingDuration HistogramValue (λ n : string, [n]) ltac:(by intros ? ? [= ->]) (draining v)) as (D1 & D2 & D3);
    [in_descs|intros k x Hk; apply H1, (Hd _ _ Hk)|].
  change (vectorMetrics v) with
    (vector_list nodeGPUSeconds (λ x, CounterValue (seconds_value x)) id (gpuSeconds v) ++
     vector_list nodeFails (λ x, CounterValue (int_value x)) id (fails v) ++
     vector_list nodeUnavailabilityDuration HistogramValue (λ n, [n]) (unavailability v) ++
     vector_list nodeDrainingDuration HistogramValue (λ n, [n]) (draining v)).
  split_and!.
  - by repeat (apply Forall_app; split).
  - repeat apply nodup_parts; try done.
    + by intros m m' ->%C3 ->%D3.
    + by intros m m' ->%B3 [->%C3| ->%D3]%elem_of_app.
    + by intros m m' ->%A3 [->%B3|[->%C3| ->%D3]%elem_of_app]%elem_of_app.
  - unfold vector_names.
    intros m [->%A3|[->%B3|[->%C3| ->%D3]%elem_of_app]%elem_of_app]%elem_of_app; in_list.
Qed.

Lemma state_labels_valid n : node_ok n → Forall valid (state_labels n) ∧ Forall valid (state_labels n ++ [reason_label n]).
Proof.
  intros [Hv _ _]. repeat match goal with H : Forall valid (_ :: _) |- _ => inversion_clear H end.
  assert (Forall valid (state_labels n)) as Hs.
  { repeat (apply Forall_cons; split; [try apply base_state_valid; try apply flag_valid; done|]). constructor. }
  split; [done|]. apply Forall_app. split; [done|]. by apply Forall_cons; split; [|constructor].
Qed.
Lemma gpu_ok l t1 t2 m m' :
  Forall node_ok l → updateGPUSecondsMetrics l t1 t2 m = Ok m' →
  map_Forall (λ k _, length k = 5%nat ∧ Forall valid k) m → map_Forall (λ k _, length k = 5%nat ∧ Forall valid k) m'.
Proof.
  intros Hl. revert m. induction Hl as [|n l Hn _ IH]; simpl; intros m Hu Hm; [by simplify_eq/=|].
  destruct (ParseTrackableResources _) as [tres|e|w]; [|by eauto|done].
  unfold counter_add in Hu. destruct (_ <? 0)%Z; [done|]. simpl in Hu. eapply IH; [exact Hu|].
  apply map_Forall_insert_2; [|done]. split; [done|by apply state_labels_valid].
Qed.
Lemma fails_ok l prev m :
  Forall node_ok l → map_Forall (λ k _, length k = 6%nat ∧ Forall valid k) m →
  map_Forall (λ k _, length k = 6%nat ∧ Forall valid k) (updateNodeFailureMetrics l prev m).
Proof.
  intros Hl. unfold updateNodeFailureMetrics. revert m. induction Hl as [|n l Hn _ IH]; simpl; intros m Hm; [done|].
  apply IH. destruct (_ !! node_Name n); [|done]. destruct (_ && _); [|done].
  apply map_Forall_insert_2; [|done]. split; [done|by apply state_labels_valid].
Qed.
Lemma track_ok P l prev now st :
  Forall node_ok l → map_Forall (λ k _, valid k) st.2 → map_Forall (λ k _, valid k) (track P l prev now st).2.
Proof.
  intros Hl. revert st. induction Hl as [|n l [Hv _ _] _ IH]; simpl; intros [s h] Hm; [done|].
  apply IH. unfold processTransition. destruct (_ && _); [done|]. destruct (_ && _); [|done].
  destruct (s !! _); [|done]. apply map_Forall_insert_2; [|done]. by inversion Hv.
Qed.
Lemma history_vectors t0 h c : history t0 h c → Forall (λ x, Forall node_ok x.2) h → vectors_ok (vecs c).
Proof.
  induction 1 as [|h c t l q c' Hh IH Hnd Ho Hm|h c t l q c' Hh IH Ho Hm|h c t e q c' r Hh IH Hm
                  |h c k t a q m c' r Hh IH Hk Hrun Hm|h c now c' r Hh IH Hm]; intros Hok.
  - split_and!; intros k x Hx; simpl in Hx; by rewrite lookup_empty in Hx.
  - apply Forall_app in Hok as [Hok Hl]. inversion_clear Hl as [|? ? Hl' _]. simpl in Hl'.
    destruct (IH Hok) as (Hg & Hf & Hu & Hd). unfold refreshNodes, refresh in Hm. rewrite Ho in Hm.
    unfold applyNodes, updateNodeStateMetrics in Hm. simpl in Hm.
    pose proof (track_ok isNodeUnavailable l (nodesByName (nodes (state c))) (apply_now1 t)
                  (nodeUnavailabilityStartTimes (state c), unavailability (vecs c)) Hl' Hu) as Hu'.
    pose proof (track_ok isNodeDraining l (nodesByName (nodes (state c))) (apply_now1 t)
                  (nodeDrainingStartTimes (state c), draining (vecs c)) Hl' Hd) as Hd'.
    destruct (track isNodeUnavailable _ _ _ _) as [us uh]. destruct (track isNodeDraining _ _ _ _) as [ds dh].
    simpl in Hm. destruct (updateGPUSecondsMetrics _ _ _ _) eqn:Hgpu; simplify_eq/=.
    split_and!; [by eapply gpu_ok|by apply fails_ok|done|done].
  - unfold refreshNodes, refresh in Hm. rewrite Ho in Hm. simplify_eq/=. auto.
  - simplify_eq/=. auto.
  - rewrite (nd_vecs _ _ (other_run_frame _ _ _ _ _ _ _ _ Hk Hrun Hm)). auto.
  - unfold Collect in Hm. destruct (collectImpl _ _); simplify_eq/=; auto.
Qed.

Lemma names_differ (l1 l2 : list string) (m m' : Metric) :
  desc_name (metric_desc m) ∈ l1 → desc_name (metric_desc m') ∈ l2 →
  bool_decide (Forall (λ x, x ∉ l2) l1) = true → desc_name (metric_desc m) ≠ desc_name (metric_desc m').
Proof.
  intros H1 H2 Hd%bool_decide_eq_true Heq. rewrite Heq in H1. by eapply Forall_forall in Hd.
Qed.

(** C37: a scrape is well formed.  For any collector (after any refreshes) whose data satisfy [exportable], [collectImpl] does
    not panic and comes to an end; every metric is announced by [Describe] and has exactly one valid value for each
    label of its description (reservation names are cut between characters); and no two metrics
    have the same name and label values, which the registry would answer with an error instead
    of the metrics.  Asked of the data: node names, job IDs, the partitions of a node, the message types of the
    diagnostics and their pairs of user and ID are unique; no job has the same node twice in its host list; texts, those of the nodes of earlier refreshes too, are valid UTF-8; and the
    host list of a job is ASCII and does not contain the largest 64-bit integer, at which the loop over a range does not end. *)
Theorem scrape_well_formed (t0 now : Z) (h : list (Z * list Node)) (c : MetricsCollector) :
  history t0 h c → Forall (λ x, Forall node_ok x.2) h → exportable (state c) →
  ∃ ms, collectImpl now c = Ok ms ∧ Forall well_typed ms ∧ NoDup (map identity ms).
Proof.
  intros Hh Hok [Hn Hnn Hj Hid Hd Ht].
  destruct (vectorMetrics_ok _ (history_vectors _ _ _ Hh Hok)) as (V1 & V2 & V3).
  destruct (slurmRPCMetrics_ok _ Hd) as (R1 & R2 & R3).
  destruct (slurmJobMetrics_ok _ Ht now _ Hj Hid) as (ms & Hjob & J1 & J2 & J3).
  set (ns := slurmNodeMetrics (nodes (state c)) (nodeTopologies (state c))).
  assert (Forall well_typed ns) as N1.
  { apply Forall_bind. eapply Forall_impl; [exact Hn|]. intros. by apply nodeMetrics_typed. }
  assert (NoDup (map identity ns)) as N2.
  { apply (nodup_objects _ node_Name (λ ls, default "" (head ls))); [done|]. intros n Hin.
    split; [apply nodeMetrics_nodup; by eapply Forall_forall in Hn|].
    eapply Forall_impl; [apply nodeMetrics_node|]. simpl. by intros m ->. }
  assert (∀ m, m ∈ ns → desc_name (metric_desc m) ∈ desc_name nodePartition :: node_singles) as N3.
  { intros m (n & Hm & _)%list_elem_of_bind. by eapply nodeMetrics_names. }
  unfold collectImpl. fold ns. rewrite (collectAll_typed ns) by done. simpl. rewrite Hjob. simpl.
  rewrite (collectAll_typed ms) by done. simpl. rewrite (collectAll_typed (slurmRPCMetrics _)) by done. simpl.
  eexists. split; [reflexivity|]. split; [by rewrite !Forall_app|].
  apply nodup_parts; [done|apply nodup_parts; [done|apply nodup_parts; [done..|]|]|].
  - intros m m' [_ Hm]%J3 Hm'%R3. by eapply (names_differ _ rpc_names).
  - intros m m' Hm%V3 [[_ Hm']%J3|Hm'%R3]%elem_of_app;
      [by eapply (names_differ _ (desc_name jobNode :: job_singles))|by eapply (names_differ _ rpc_names)].
  - intros m m' Hm%N3 [Hm'%V3|[[_ Hm']%J3|Hm'%R3]%elem_of_app]%elem_of_app;
      [by eapply (names_differ _ vector_names)|by eapply (names_differ _ (desc_name jobNode :: job_singles))
      |by eapply (names_differ _ rpc_names)].
Qed.

(** ** Example *)
Lemma example_node_ok l : node_ok (example_node "w-0" l).
Proof. split; [by repeat constructor|by repeat constructor|apply NoDup_singleton]. Qed.
Definition example_job : Job :=
  mkJob 7 "train" "RUNNING" "None" "main" "alice" (Some 1000%Z) "" "/e" "/o" "w-[0-1]" "" "" (Some 2%Z) None None "" (Some 1%Z) (Some 5%Z) None
    "cpu=4,mem=2G" "" (Some 4%Z) None.
Definition example_diag : V0044OpenapiDiagResp :=
  mkDiag (Some 3%Z) (Some [mkRpc "REQUEST_PING" 10 20; mkRpc "REQUEST_JOB_INFO" 4 8])
    (Some [mkUserRpc "root" 0 12 24; mkUserRpc "alice" 1000 2 4]).
Definition full_collector : MetricsCollector :=
  (refreshDiag (example_timing 96) (Ok example_diag) 1
     (refreshJobs (example_timing 95) (Ok [example_job]) 1 (example_collector example_states)).1).1.
Lemma full_reached : history 0 (example_history example_states) full_collector.
Proof.
  eapply (history_other 0 _ _ KDiag (example_timing 96) (ADiag (Ok example_diag)) 1); [|done|reflexivity|apply surjective_pairing].
  eapply (history_other 0 _ _ KJobs (example_timing 95) (AJobs (Ok [example_job])) 1); [exact example_reached|done|reflexivity|apply surjective_pairing].
Qed.
Lemma example_exportable : exportable (state full_collector).
Proof.
  destruct (history_accounts _ _ _ full_reached) as (Hn & _).
  assert (nodes (state full_collector) = [example_node "w-0" [IDLE]]) as Hnodes by exact Hn. clear Hn.
  assert (jobs (state full_collector) = [example_job]) as Hj by (vm_compute; reflexivity).
  assert (diag (state full_collector) = Some example_diag) as Hd by (vm_compute; reflexivity).
  assert (nodeTopologies (state full_collector) = ∅) as Ht by (vm_compute; reflexivity).
  revert Hnodes Hj Hd Ht. generalize (state full_collector). intros s Hnodes Hj Hd Ht.
  split; rewrite ?Hnodes, ?Hj, ?Hd, ?Ht.
  - apply Forall_cons. split; [apply example_node_ok|constructor].
  - apply NoDup_singleton.
  - apply Forall_cons. split; [|constructor]. split; [by repeat constructor|done|vm_compute; reflexivity|].
    intros l Hl. vm_compute in Hl. injection Hl as <-. apply (bool_decide_unpack _). vm_compute. exact I.
  - apply NoDup_singleton.
  - intros d [= <-]. split; [by repeat constructor| |by repeat constructor|]; apply (bool_decide_unpack _); vm_compute; exact I.
  - apply map_Forall_empty.
Qed.
Lemma scrape_well_formed_witness :
  ∃ ms, collectImpl 100 full_collector = Ok ms ∧ Forall well_typed ms ∧ NoDup (map identity ms).
Proof.
  apply (scrape_well_formed 0 100 _ _ full_reached); [|exact example_exportable].
  apply Forall_fmap, Forall_forall. intros x _. apply Forall_cons. split; [apply example_node_ok|constructor].
Defined.
Example scrape_size :
  match collectImpl 100 full_collector with Ok l => length l | _ => 0%nat end = 26%nat.
Proof. vm_compute. reflexivity. Qed.
