(* ===== verification/ExporterTopology.v ===== *)
(** * The topology of the exporter through its cache

    [internal/exporter/kubernetes_topology.go]: the exporter lists worker pods and nodes from a cache that watches only the objects it needs and cuts them down to the fields it
    reads.  [Exporter.ListNodeTopologies] is the listing; here are the selectors and the transformations of the cache, and what the
    listing makes of them. *)
From S2P Require Import Prelude GoStrings Naming Exporter.

(** ** Objects *)
Record ObjectMeta := mkObjectMeta {
  om_Name : string; om_Namespace : string; om_UID : string; om_ResourceVersion : string; om_Labels : gmap string string;
  om_Annotations : gmap string string }.
(** Specs and statuses, of which only the node name is read, are trees. *)
Record topo_Pod := mkTopoPod { tp_Meta : ObjectMeta; tp_NodeName : string; tp_Spec : gmap string string; tp_Status : gmap string string }.
Record topo_Node := mkTopoNode { tn_Meta : ObjectMeta; tn_Spec : gmap string string; tn_Status : gmap string string }.
Inductive cached_object := CachedPod (p : topo_Pod) | CachedNode (n : topo_Node) | OtherObject.

(** ** The cache *)
Definition worker_selector (clusterName : string) (labels : gmap string string) : bool :=
  bool_decide (labels !! LabelInstanceKey = Some clusterName) && bool_decide (labels !! LabelWorkerKey = Some "true").
Definition topologyNodeSelector (labels : gmap string string) : bool := bool_decide (is_Some (labels !! slurmNodeSetNameLabel)).
Definition label_of (m : ObjectMeta) (k : string) : string := default "" (om_Labels m !! k).
Definition transformWorkerPodForTopology (obj : cached_object) : cached_object :=
  match obj with
  | CachedPod pod =>
      let m := tp_Meta pod in
      CachedPod (mkTopoPod
        (mkObjectMeta (om_Name m) (om_Namespace m) (om_UID m) (om_ResourceVersion m)
           (<[LabelInstanceKey := label_of m LabelInstanceKey]> {[LabelWorkerKey := label_of m LabelWorkerKey]}) ∅)
        (tp_NodeName pod) ∅ ∅)
  | _ => obj
  end.
Definition transformNodeForTopology (obj : cached_object) : cached_object :=
  match obj with
  | CachedNode node =>
      let m := tn_Meta node in
      CachedNode (mkTopoNode
        (mkObjectMeta (om_Name m) "" (om_UID m) (om_ResourceVersion m)
           (<[nvlinkInstanceGroupLabel := label_of m nvlinkInstanceGroupLabel]> {[slurmNodeSetNameLabel := label_of m slurmNodeSetNameLabel]}) ∅)
        ∅ ∅)
  | _ => obj
  end.

(** What the API server holds, as the reader of the cache sees it. *)
Definition cached_pods (namespace clusterName : string) (pods : list topo_Pod) : list topo_Pod :=
  omap (λ p, match transformWorkerPodForTopology (CachedPod p) with CachedPod p => Some p | _ => None end)
    (filter (λ p, om_Namespace (tp_Meta p) = namespace ∧ worker_selector clusterName (om_Labels (tp_Meta p)) = true) pods).
Definition listPods (namespace clusterName : string) (cache : list topo_Pod) : list (string * string) :=
  (λ p, (om_Name (tp_Meta p), tp_NodeName p)) <$>
    filter (λ p, om_Namespace (tp_Meta p) = namespace ∧ worker_selector clusterName (om_Labels (tp_Meta p)) = true) cache.
Definition cached_node (nodes : gmap string topo_Node) (name : string) : outcome (gmap string string) :=
  match nodes !! name with
  | Some node =>
      if topologyNodeSelector (om_Labels (tn_Meta node)) then
        match transformNodeForTopology (CachedNode node) with CachedNode n => Ok (om_Labels (tn_Meta n)) | _ => Err (ErrAPI NotFound) end
      else Err (ErrAPI NotFound)
  | None => Err (ErrAPI NotFound)
  end.

(** ** Lemmas *)
Lemma podsByKubernetesNode_spec pods x n : x ∈ default [] (podsByKubernetesNode pods !! n) ↔ (x, n) ∈ pods ∧ n ≠ "".
Proof.
  unfold podsByKubernetesNode. induction pods as [|[y m] pods IH] using rev_ind; [cbn [foldl]; rewrite lookup_empty; cbn; set_solver|].
  rewrite foldl_app, elem_of_app, list_elem_of_singleton. cbn [foldl].
  destruct (String.eqb_spec m "") as [->|Hm]; [rewrite IH; naive_solver|]. destruct (decide (m = n)) as [->|Hne].
  - rewrite lookup_insert_eq. cbn [default from_option id]. rewrite elem_of_app, list_elem_of_singleton, IH. naive_solver.
  - rewrite lookup_insert_ne by done. rewrite IH. naive_solver.
Qed.
Definition topology_of (n : string) (labels : gmap string string) : NodeTopology :=
  mkNodeTopology n (default "" (labels !! nvlinkInstanceGroupLabel)) (default "" (labels !! slurmNodeSetNameLabel)).
Lemma insert_all (names : list string) (t : NodeTopology) (m : gmap string NodeTopology) x :
  foldl (λ m name, <[name := t]> m) m names !! x = if decide (x ∈ names) then Some t else m !! x.
Proof.
  revert m. induction names as [|y names IH]; intros m; [done|]. cbn [foldl]. rewrite IH.
  destruct (decide (x ∈ names)); [by rewrite decide_True by set_solver|]. destruct (decide (x = y)) as [->|]; [by rewrite lookup_insert_eq, decide_True by set_solver|].
  by rewrite lookup_insert_ne, decide_False by set_solver.
Qed.
Lemma resolve_spec getNode entries acc :
  (∀ n, (∃ labels, getNode n = Ok labels) ∨ getNode n = Err (ErrAPI NotFound)) →
  (∀ n ps n' ps' name, (n, ps) ∈ entries → (n', ps') ∈ entries → name ∈ ps → name ∈ ps' → n = n') →
  ∃ res, resolveTopologies getNode entries acc = Ok res ∧ ∀ name t, res !! name = Some t ↔
    (∃ n ps labels, (n, ps) ∈ entries ∧ name ∈ ps ∧ getNode n = Ok labels ∧ t = topology_of n labels) ∨
    (acc !! name = Some t ∧ ∀ n ps, (n, ps) ∈ entries → name ∈ ps → getNode n = Err (ErrAPI NotFound)).
Proof.
  intros Hget. revert acc. induction entries as [|[n ps] entries IH]; intros acc Hu; cbn [resolveTopologies].
  { exists acc. split; [done|]. intros name t. set_solver. }
  assert (∀ n0 ps0 n' ps' name, (n0, ps0) ∈ entries → (n', ps') ∈ entries → name ∈ ps0 → name ∈ ps' → n0 = n') as Hu'.
  { intros ????? H1 H2. by apply Hu; right. }
  destruct (Hget n) as [[labels Hn]|Hn]; rewrite Hn.
  - fold (topology_of n labels). destruct (IH (foldl (λ m podName, <[podName := topology_of n labels]> m) acc ps) Hu') as (res & -> & Hres). exists res. split; [done|].
    intros name t. rewrite Hres, insert_all. clear Hres IH Hu'.
    destruct (decide (name ∈ ps)) as [Hin|Hin]; setoid_rewrite elem_of_cons.
    + split.
      * intros [(n' & ps' & l' & He & Hps & Hn' & ->)|[[= <-] _]]; left; [by exists n', ps', l'; auto|]. by exists n, ps, labels; auto.
      * intros [(n' & ps' & l' & He & Hps & Hn' & ->)|[_ Hno]]; [|specialize (Hno n ps); rewrite Hn in Hno; naive_solver].
        assert (n' = n) as -> by (destruct He as [[= -> ->]|He]; [done|]; by apply (Hu n' ps' n ps name); [right|left|..]).
        assert (l' = labels) as -> by congruence.
        destruct (decide (Exists (λ e, e.1 = n ∧ name ∈ e.2) entries)) as [([n0 ps0] & ? & <- & ?)%Exists_exists|Hno]; [left; by exists n0, ps0, labels|].
        rewrite Exists_exists in Hno.
        right. split; [done|]. intros n0 ps0 He0 Hps0. assert (n0 = n) as -> by (by apply (Hu n0 ps0 n ps name); [right|left|..]). by destruct Hno; exists (n, ps0).
    + naive_solver.
  - change (IsNotFound (ErrAPI NotFound)) with true. cbv iota. destruct (IH acc Hu') as (res & -> & Hres). exists res. split; [done|].
    intros name t. rewrite Hres. setoid_rewrite elem_of_cons. split.
    + intros [(n' & ps' & l' & He & ?)|[Ha Hno]]; [left; exists n', ps', l'; auto|right]. split; [done|]. intros n0 ps0 [[= -> ->]|He] ?; [done|by eapply Hno].
    + intros [(n' & ps' & l' & [[= -> ->]|He] & Hps & Hn' & ->)|[Ha Hno]]; [congruence|left; by exists n', ps', l'|right]. split; [done|]. intros; eapply Hno; eauto.
Qed.
Lemma listed_pods namespace clusterName pods x n :
  (x, n) ∈ listPods namespace clusterName (cached_pods namespace clusterName pods) ↔
  ∃ pod, pod ∈ pods ∧ om_Namespace (tp_Meta pod) = namespace ∧ worker_selector clusterName (om_Labels (tp_Meta pod)) = true ∧
    x = om_Name (tp_Meta pod) ∧ n = tp_NodeName pod.
Proof.
  unfold listPods, cached_pods. rewrite list_elem_of_fmap. setoid_rewrite list_elem_of_filter. setoid_rewrite list_elem_of_omap. setoid_rewrite list_elem_of_filter.
  split.
  - intros (p & [= -> ->] & _ & pod & ((Hns & Hs) & Hin) & [= <-]). by exists pod.
  - intros (pod & Hin & Hns & Hs & -> & ->). eexists. split; [|split; [|by exists pod; split]]; [done|]. cbn [tp_Meta om_Namespace om_Labels]. split; [done|].
    unfold worker_selector in *. apply andb_true_iff in Hs as [Hi%bool_decide_eq_true Hw%bool_decide_eq_true].
    unfold label_of. rewrite Hi, Hw. cbn [default from_option id]. apply andb_true_iff; split; by apply bool_decide_eq_true.
Qed.
Lemma cached_node_spec nodes name :
  match cached_node nodes name with
  | Ok labels => ∃ node, nodes !! name = Some node ∧ topologyNodeSelector (om_Labels (tn_Meta node)) = true ∧ topology_of name labels = topology_of name (om_Labels (tn_Meta node))
  | Err e => e = ErrAPI NotFound ∧ ∀ node, nodes !! name = Some node → topologyNodeSelector (om_Labels (tn_Meta node)) = false
  | Halt _ => False
  end.
Proof.
  unfold cached_node. destruct (nodes !! name) as [node|]; [|done]. destruct (topologyNodeSelector _) eqn:Hs; [|naive_solver].
  cbn. exists node. split_and!; [done..|]. by unfold topology_of, label_of; destruct (om_Labels (tn_Meta node) !! nvlinkInstanceGroupLabel), (om_Labels (tn_Meta node) !! slurmNodeSetNameLabel).
Qed.

(** The cache does not change the topology that the exporter shows.  Whatever pods and nodes there are (with pod names unique in the namespace), and in whatever order
    Go ranges over them: the listing through the cache, which holds only selected objects cut down to a few fields, succeeds and gives exactly the
    worker pods of the cluster that are on a node with the label of a NodeSet, each with the name and the labels which its
    node really has. *)
Theorem topology_through_cache (namespace clusterName : string) (pods : list topo_Pod) (nodes : gmap string topo_Node)
    (order : gmap string (list string) → list (string * list string)) :
  (∀ p q, p ∈ pods → q ∈ pods → om_Namespace (tp_Meta p) = om_Namespace (tp_Meta q) → om_Name (tp_Meta p) = om_Name (tp_Meta q) → p = q) →
  (∀ m, order m ≡ₚ map_to_list m) →
  ∃ topologies, ListNodeTopologies (Ok (listPods namespace clusterName (cached_pods namespace clusterName pods))) (cached_node nodes) order = Ok topologies ∧
    ∀ name t, topologies !! name = Some t ↔
      ∃ pod node, pod ∈ pods ∧ om_Namespace (tp_Meta pod) = namespace ∧ worker_selector clusterName (om_Labels (tp_Meta pod)) = true ∧
        name = om_Name (tp_Meta pod) ∧ tp_NodeName pod ≠ "" ∧ nodes !! tp_NodeName pod = Some node ∧
        is_Some (om_Labels (tn_Meta node) !! slurmNodeSetNameLabel) ∧ t = topology_of (tp_NodeName pod) (om_Labels (tn_Meta node)).
Proof.
  intros Hnames Horder. unfold ListNodeTopologies. cbn [wrap_err obind]. set (l := listPods _ _ _).
  assert (∀ n ps x, (n, ps) ∈ order (podsByKubernetesNode l) → x ∈ ps → (x, n) ∈ l ∧ n ≠ "") as Hfrom.
  { intros n ps x He Hx. rewrite Horder, elem_of_map_to_list in He. apply podsByKubernetesNode_spec. by rewrite He. }
  destruct (resolve_spec (cached_node nodes) (order (podsByKubernetesNode l)) ∅) as (res & -> & Hres).
  { intros n. pose proof (cached_node_spec nodes n) as H. destruct (cached_node nodes n) as [labels|e|w]; [left; by eexists|right; by destruct H as [-> _]|done]. }
  { intros n ps n' ps' x H1 H2 Hx Hx'. destruct (Hfrom _ _ _ H1 Hx) as [(p & ? & ? & ? & -> & ->)%listed_pods _].
    destruct (Hfrom _ _ _ H2 Hx') as [(q & ? & ? & ? & Hq & ->)%listed_pods _]. f_equal. by apply Hnames; congruence. }
  exists res. split; [done|]. intros name t. rewrite Hres. split.
  - intros [(n & ps & labels & He & Hx & Hn & ->)|[[=] _]]. destruct (Hfrom _ _ _ He Hx) as [(pod & ? & ? & ? & -> & ->)%listed_pods Hne].
    pose proof (cached_node_spec nodes (tp_NodeName pod)) as H'. rewrite Hn in H'. destruct H' as (node & ? & Hs%bool_decide_eq_true & ->). by exists pod, node.
  - intros (pod & node & Hp & Hns & Hs & -> & Hne & Hn & Hl & ->). left.
    assert ((om_Name (tp_Meta pod), tp_NodeName pod) ∈ l) as Hin by (apply listed_pods; by exists pod).
    assert (om_Name (tp_Meta pod) ∈ default [] (podsByKubernetesNode l !! tp_NodeName pod)) as Hd by by apply podsByKubernetesNode_spec.
    destruct (podsByKubernetesNode l !! tp_NodeName pod) as [ps|] eqn:Eps; [|by apply not_elem_of_nil in Hd].
    pose proof (cached_node_spec nodes (tp_NodeName pod)) as H'. destruct (cached_node nodes _) as [labels|e|w] eqn:Ec; [|destruct H' as [_ H']|done].
    + destruct H' as (node' & Hn' & _ & Ht). assert (node' = node) as -> by congruence.
      exists (tp_NodeName pod), ps, labels. rewrite Horder, elem_of_map_to_list. by rewrite Ht.
    + specialize (H' node Hn). unfold topologyNodeSelector in H'. by apply bool_decide_eq_false in H'.
Qed.
Definition ex_meta (name ns : string) (labels : gmap string string) : ObjectMeta := mkObjectMeta name ns "u" "7" labels {["note" := "x"]}.
Definition ex_pods : list topo_Pod :=
  [mkTopoPod (ex_meta "worker-0" "ns" {[LabelInstanceKey := "cl"; LabelWorkerKey := "true"; "a" := "b"]}) "node-a" {["x" := "y"]} ∅;
   mkTopoPod (ex_meta "login-0" "ns" {[LabelInstanceKey := "cl"]}) "node-a" ∅ ∅].
Definition ex_nodes : gmap string topo_Node := {["node-a" := mkTopoNode (ex_meta "node-a" "" {[slurmNodeSetNameLabel := "gpu"]}) ∅ ∅]}.
Lemma topology_through_cache_witness :
  ∃ topologies, ListNodeTopologies (Ok (listPods "ns" "cl" (cached_pods "ns" "cl" ex_pods))) (cached_node ex_nodes) map_to_list = Ok topologies ∧
    topologies !! "worker-0" = Some (mkNodeTopology "node-a" "" "gpu").
Proof.
  destruct (topology_through_cache "ns" "cl" ex_pods ex_nodes map_to_list) as (res & H & Hres).
  - intros p q Hp Hq. unfold ex_pods in *. elem_cases Hp; elem_cases Hq; subst p q; try done; intros _ E; discriminate E.
  - done.
  - exists res. split; [exact H|]. apply Hres. eexists _, _. split; [apply list_elem_of_here|]. split_and!; try reflexivity; try done.
Defined.
