(* ===== verification/RollingUpdate.v ===== *)
(** * Rolling update of worker pods

    [internal/controller/updatecontroller/statefulset_controller.go]: outdated worker
    pods are replaced by asking Slurm to reboot their nodes, within the availability
    budget of the StatefulSet; pods whose hand-off completed, or whose node is safely
    offline, are deleted. *)
From S2P Require Import Prelude GoStrings Effects SlurmNode.
From Stdlib Require Import Ascii.
From Stdlib Require String.

(** ** Objects *)
Definition LabelInstanceKey : string := "app.kubernetes.io/instance".
Definition LabelSoperatorRollingUpdateEnabled : string := "slurm.nebius.ai/rolling-update-enabled".
Definition LabelSoperatorRollingUpdateValue : string := "true".
Definition LabelSoperatorWorkerOperationID : string := "slurm.nebius.ai/worker-operation-id".
Definition LabelSoperatorWorkerOperationPhase : string := "slurm.nebius.ai/worker-operation-phase".
Definition PhaseStopping : string := "stopping".
Definition PhaseReady : string := "ready".
Definition ContainerNameWorkerInit : string := "worker-init".
Definition ContainerNameSlurmd : string := "slurmd".
Definition revisionHashLabel : string := "controller-revision-hash".
Definition defaultRebootReason : string := "soperator rolling update".
Definition SlurmPowerActionWorkerHandoff : string := "soperator-worker-handoff".
Definition defaultSTSReplicasCount : Z := 1.

Definition labels := gmap string string.
(** Reading a missing key of a Go map gives the empty string. *)
Definition label (ls : labels) (key : string) : string := default "" (ls !! key).

Record containerStatus := mkContainerStatus { cs_Name : string; cs_WaitingReason : option string }.
Record Pod := mkPod {
  pod_Name : string;
  pod_Labels : labels;
  pod_Conditions : list (string * string);
  pod_InitContainerStatuses : list containerStatus;
  pod_ContainerStatuses : list containerStatus
}.
Inductive int_or_string := FromInt (n : Z) | FromString (s : string).
Record StatefulSet := mkSTS {
  sts_Labels : labels;
  sts_OnDelete : bool;
  sts_Replicas : option Z;
  sts_ScaleMaxUnavailable : option int_or_string;
  sts_UpdatedReplicas : Z;
  sts_ReadyReplicas : Z;
  sts_UpdateRevision : string
}.
Record RebootNodesRequest := mkReboot {
  rb_NodeList : string; rb_ASAP : bool; rb_Force : bool; rb_NextState : list string;
  rb_Reason : string; rb_PowerAction : string }.

(** What the reconciler does to the cluster. *)
Inductive command :=
| DeletePod (pod : string)
| LabelPod (pod operationID phase : string)
| UndrainNode (node : string)
| RebootNodes (req : RebootNodesRequest).
Definition eff := M (run command).

Definition client_Delete (pod : Pod) : eff () := ignoreNotFound (perform (DeletePod (pod_Name pod))).
(** [UndrainNode] and [RebootNodes] of the Slurm client refuse an empty name.  An answer
    that is not a success or cannot be decoded is a fault of the request. *)
Definition slurm_Undrain (node : string) : eff () :=
  if String.eqb node "" then fail (ErrMsg "undrain node: node name is required")
  else perform (UndrainNode node).
Definition slurm_Reboot (req : RebootNodesRequest) : eff () :=
  if String.eqb (rb_NodeList req) "" then fail (ErrMsg "reboot nodes: nodes field is required")
  else perform (RebootNodes req).

(** ** Predicates on pods and nodes *)
Definition podReady (pod : Pod) : bool :=
  match head (filter (λ c, c.1 = "Ready") (pod_Conditions pod)) with
  | Some c => String.eqb c.2 "True"
  | None => false
  end.
Definition containerCrashLoopBackOff (statuses : list containerStatus) (containerName : string) : bool :=
  existsb (λ st, String.eqb (cs_Name st) containerName &&
                 match cs_WaitingReason st with
                 | Some r => String.eqb r "CrashLoopBackOff"
                 | None => false
                 end) statuses.
Definition workerOperationPhase (pod : Pod) (operationID : string) : string :=
  if negb (String.eqb (label (pod_Labels pod) LabelSoperatorWorkerOperationID) operationID) then ""
  else label (pod_Labels pod) LabelSoperatorWorkerOperationPhase.
Definition hasRollingUpdateReason (node : Node) : bool :=
  match node_Reason node with
  | None => false
  | Some r =>
      let reason := reason_Reason r in
      String.eqb reason defaultRebootReason || HasPrefix reason (defaultRebootReason +:+ " : ")
  end.
Definition staleRollingUpdateDrain (node : Node) : bool :=
  if negb (IsDrainState node) || negb (IsIdleState node) || IsNotRespondingState node ||
     IsInvalidState node || IsCompletingState node then false
  else if IsRebootIssuedState node || IsRebootRequestedState node then false
  else hasRollingUpdateReason node.
Definition safeToDeleteOfflineSlurmNode (node : Node) : bool :=
  match CPUAllocated node with
  | None => false
  | Some allocatedCPUs =>
      if negb (allocatedCPUs =? 0)%Z then false
      else match node_AllocMemoryMB node with
           | None => false
           | Some mem =>
               if negb (mem =? 0)%Z then false
               else if IsCompletingState node then false
               else IsDownState node || (IsIdleState node && IsNotRespondingState node)
           end
  end.

(** ** The decision for one pod *)
Inductive workerUpdateAction :=
| ScheduleReboot | Wait | TrackInFlight | Undrain | Delete.
Record workerUpdateDecision := mkDecision {
  d_action : workerUpdateAction;
  d_operationPhase : string;
  d_slurmdCrashLooping : bool;
  d_rebootHandoffInProgress : bool;
  d_managedRebootInProgress : bool
}.
Definition decideWorkerUpdateAction (pod : Pod) (node : Node) (operationID : string) : workerUpdateDecision :=
  let rebootInProgress := IsRebootIssuedState node || IsRebootRequestedState node in
  let operationPhase := workerOperationPhase pod operationID in
  let slurmdCrashLooping := containerCrashLoopBackOff (pod_ContainerStatuses pod) ContainerNameSlurmd in
  let managedRebootInProgress := rebootInProgress && hasRollingUpdateReason node in
  let rebootHandoffInProgress := rebootInProgress && String.eqb operationPhase PhaseStopping in
  let action :=
    if staleRollingUpdateDrain node then Undrain
    else if (slurmdCrashLooping || rebootHandoffInProgress || managedRebootInProgress)
            && safeToDeleteOfflineSlurmNode node then Delete
    else if slurmdCrashLooping then Wait
    else if rebootInProgress then TrackInFlight
    else ScheduleReboot in
  mkDecision action operationPhase slurmdCrashLooping rebootHandoffInProgress managedRebootInProgress.

(** ** The budget *)
Section budget.
  (** [intstr.GetScaledValueFromIntOrPercent]. *)
  Context (scaled : int_or_string → Z → bool → option Z).

Definition stsReplicas (sts : StatefulSet) : Z := default defaultSTSReplicasCount (sts_Replicas sts).
Definition rebootBudget (sts : StatefulSet) : Z :=
  let replicas := stsReplicas sts in
  if (replicas <=? 0)%Z then 0%Z
  else
    let maxUnavailable := default (FromInt 1) (sts_ScaleMaxUnavailable sts) in
    match scaled maxUnavailable replicas false with
    | None => 1%Z
    | Some budget =>
        if (budget <? 1)%Z then 1%Z else if (replicas <? budget)%Z then replicas else budget
    end.
Definition unavailableReplicas (sts : StatefulSet) : Z :=
  let unavailable := wrap 32 (stsReplicas sts - sts_ReadyReplicas sts) in
  if (unavailable <? 0)%Z then 0%Z else unavailable.

(** ** One pass over the outdated pods *)
Definition filterOutdatedPods (podList : list Pod) (updateRevision : string) : list Pod :=
  filter (λ pod, label (pod_Labels pod) revisionHashLabel ≠ updateRevision) podList.
Definition indexSlurmNodesForPods (slurmNodes : list Node) (pods : list Pod) : gmap string Node :=
  let podNames : gset string := list_to_set (pod_Name <$> pods) in
  foldl (λ m node, if bool_decide (node_Name node ∈ podNames) then <[node_Name node := node]> m else m)
    ∅ slurmNodes.

Definition pod_le (a b : Pod) : Prop := String.le (pod_Name a) (pod_Name b).
Global Instance pod_le_dec : RelDecision pod_le.
Proof. intros a b. unfold pod_le. apply _. Defined.

(** Deleting the pods whose hand-off is complete; the others remain to be stopped. *)
Definition deleteReadyHandoffs (operationID : string) (pods : list Pod) : eff (list Pod * nat) :=
  foldM (λ acc pod,
    let '(podsToStop, deletedPods) := acc in
    if negb (String.eqb (workerOperationPhase pod operationID) PhaseReady)
    then ret (podsToStop ++ [pod], deletedPods)
    else do! wrapM "delete pod with completed worker handoff" (client_Delete pod);
         ret (podsToStop, S deletedPods)) ([], 0%nat) pods.

Record scan := Scan { sc_candidates : list (Pod * Node); sc_undrained : list string; sc_readyConsuming : Z }.
Definition processPod (operationID : string) (byName : gmap string Node) (acc : scan) (pod : Pod) : eff scan :=
  match byName !! pod_Name pod with
  | None => fail (ErrMsg "slurm node is missing from list nodes response")
  | Some slurmNode =>
      let consumed := if podReady pod then (sc_readyConsuming acc + 1)%Z else sc_readyConsuming acc in
      match d_action (decideWorkerUpdateAction pod slurmNode operationID) with
      | Undrain =>
          do! wrapM "undrain stale rolling update node" (slurm_Undrain (node_Name slurmNode));
          ret (Scan (sc_candidates acc) (sc_undrained acc ++ [node_Name slurmNode]) consumed)
      | Delete =>
          do! wrapM "delete safely offline outdated pod" (client_Delete pod);
          ret (Scan (sc_candidates acc) (sc_undrained acc) consumed)
      | Wait => ret acc
      | TrackInFlight => ret (Scan (sc_candidates acc) (sc_undrained acc) consumed)
      | ScheduleReboot =>
          ret (Scan (sc_candidates acc ++ [(pod, slurmNode)]) (sc_undrained acc) (sc_readyConsuming acc))
      end
  end.

(** Labelling the first [slots] candidates; the names of their nodes. *)
Fixpoint startOperations (operationID : string) (slots : Z) (candidates : list (Pod * Node))
    (toReboot : list string) : eff (list string) :=
  match candidates with
  | [] => ret toReboot
  | (pod, node) :: candidates =>
      if (slots <=? Z.of_nat (length toReboot))%Z then ret toReboot
      else
        do! (if negb (String.eqb (workerOperationPhase pod operationID) PhaseStopping)
             then wrapM "start worker operation" (perform (LabelPod (pod_Name pod) operationID PhaseStopping))
             else ret tt);
        startOperations operationID slots candidates (toReboot ++ [node_Name node])
  end.

(** [hasClient] and [listing] are what the Slurm client set and [ListNodes] answer. *)
Definition processRollingUpdate (hasClient : bool) (listing : outcome (list Node))
    (operationID : string) (sts : StatefulSet) (outdatedPods : list Pod) : eff () :=
  match outdatedPods with
  | [] => ret tt
  | _ =>
      let! (podsToStop, deletedPods) :=
        deleteReadyHandoffs operationID (merge_sort pod_le outdatedPods) in
      if (0 <? deletedPods)%nat then ret tt
      else
        match head (filter (λ pod, containerCrashLoopBackOff (pod_InitContainerStatuses pod)
                                     ContainerNameWorkerInit = true) podsToStop) with
        | Some pod =>
            wrapM "delete outdated pod with crash-looping worker init" (client_Delete pod)
        | None =>
            if negb hasClient then fail (ErrMsg "no slurm api client")
            else
              let! slurmNodes := lift listing in
              let byName := indexSlurmNodesForPods slurmNodes podsToStop in
              let! sc := foldM (processPod operationID byName) (Scan [] [] 0) podsToStop in
              let availableSlots :=
                (rebootBudget sts - unavailableReplicas sts - sc_readyConsuming sc)%Z in
              if (availableSlots <=? 0)%Z then ret tt
              else
                let! toReboot := startOperations operationID availableSlots (sc_candidates sc) [] in
                match toReboot with
                | [] => ret tt
                | _ =>
                    wrapM "schedule slurm reboot through rest api"
                      (slurm_Reboot (mkReboot (Join toReboot ",") true false [] defaultRebootReason
                                       SlurmPowerActionWorkerHandoff))
                end
        end
  end.

(** ** After the update *)
Definition cleanupStaleRollingUpdateDrains (hasClient : bool) (listing : outcome (list Node))
    (sts : StatefulSet) (pods : list Pod) : eff nat :=
  let eligible : gset string :=
    list_to_set (pod_Name <$> filter (λ pod,
      label (pod_Labels pod) revisionHashLabel = sts_UpdateRevision sts ∧ podReady pod = true) pods) in
  if decide (eligible = ∅) then ret 0%nat
  else if negb hasClient then fail (ErrMsg "no slurm api client")
  else
    let! slurmNodes := lift listing in
    foldM (λ n slurmNode,
      if bool_decide (node_Name slurmNode ∈ eligible) && staleRollingUpdateDrain slurmNode then
        do! wrapM "undrain stale rolling update node" (slurm_Undrain (node_Name slurmNode));
        ret (S n)
      else ret n) 0%nat slurmNodes.

Definition rollingUpdateEnabled (sts : StatefulSet) : bool :=
  sts_OnDelete sts &&
  String.eqb (label (sts_Labels sts) LabelSoperatorRollingUpdateEnabled) LabelSoperatorRollingUpdateValue.

(** The requeue delay in seconds; 0 is no requeue. *)
Definition Reconcile (getSTS : outcome StatefulSet) (getPods : outcome (list Pod))
    (hasClient : bool) (listing : outcome (list Node)) : eff Z :=
  match getSTS with
  | Err e => if IsNotFound e then ret 0%Z else fail e
  | Halt s => halt s
  | Ok sts =>
      if negb (rollingUpdateEnabled sts) then ret 0%Z
      else if String.eqb (label (sts_Labels sts) LabelInstanceKey) ""
      then fail (ErrMsg "missing cluster name label")
      else
        let! podList := lift getPods in
        if (sts_UpdatedReplicas sts =? stsReplicas sts)%Z then
          let! undrained := cleanupStaleRollingUpdateDrains hasClient listing sts podList in
          ret (if (0 <? undrained)%nat then 1%Z else 0%Z)
        else if String.eqb (sts_UpdateRevision sts) "" then fail (ErrMsg "missing update revision")
        else
          do! processRollingUpdate hasClient listing (sts_UpdateRevision sts) sts
                (filterOutdatedPods podList (sts_UpdateRevision sts));
          ret 60%Z
  end.
End budget.

(** ** Lemmas *)
Lemma indexSlurmNodes_Some nodes pods name node :
  indexSlurmNodesForPods nodes pods !! name = Some node → node ∈ nodes ∧ node_Name node = name.
Proof.
  unfold indexSlurmNodesForPods. induction nodes as [|n nodes IH] using rev_ind; simpl; [done|].
  rewrite foldl_app. simpl. rewrite elem_of_app, list_elem_of_singleton. case_bool_decide.
  - rewrite lookup_insert. case_decide; [naive_solver|]. intros [? ?]%IH. auto.
  - intros [? ?]%IH. auto.
Qed.

(** The pods left to be stopped are the outdated ones whose hand-off is not complete. *)
Definition notReady (operationID : string) (pod : Pod) : Prop :=
  workerOperationPhase pod operationID ≠ PhaseReady.
Global Instance notReady_dec op pod : Decision (notReady op pod).
Proof. unfold notReady. apply _. Defined.

Lemma filter_snoc {A} (P : A → Prop) `{!∀ x, Decision (P x)} l x :
  filter P (l ++ [x]) = if decide (P x) then filter P l ++ [x] else filter P l.
Proof. rewrite filter_app, filter_cons, filter_nil. case_decide; [done|apply app_nil_r]. Qed.

Lemma deleteReady_traces op pods :
  traces (deleteReadyHandoffs op pods)
    (λ l r, (∀ c, c ∈ l → ∃ pod, pod ∈ pods ∧ ¬ notReady op pod ∧ c = DeletePod (pod_Name pod)) ∧
            match r with
            | Ok (stop, n) => stop = filter (notReady op) pods ∧ (n = 0%nat → stop = pods)
            | Err _ => True
            | Halt _ => False
            end).
Proof.
  apply (traces_foldM _ (λ seen l acc,
    (∀ c, c ∈ l → ∃ pod, pod ∈ pods ∧ ¬ notReady op pod ∧ c = DeletePod (pod_Name pod)) ∧
    acc.1 = filter (notReady op) seen ∧ (acc.2 = 0%nat → acc.1 = seen))).
  - intros seen pod rest l [stop n] -> (Hl & Hs & Hn). simpl in *.
    assert (pod ∈ seen ++ pod :: rest) as Hin by (apply elem_of_app; right; left).
    destruct (String.eqb_spec (workerOperationPhase pod op) PhaseReady) as [Hr|Hr]; simpl.
    + assert (¬ notReady op pod) as Hnr by (unfold notReady; tauto).
      assert (∀ c, c ∈ l ++ [DeletePod (pod_Name pod)] → ∃ p, p ∈ seen ++ pod :: rest ∧ ¬ notReady op p ∧ c = DeletePod (pod_Name p)) as Hsnoc.
      { intros c [Hc|Hc%list_elem_of_singleton]%elem_of_app; eauto. }
      apply traces_bind_ret, traces_ignored; simpl; [| |intros e l' [-> | ->]];
        rewrite ?app_nil_r, ?filter_snoc, ?decide_False by done; split_and!; done.
    + apply traces_ret. simpl. rewrite app_nil_r, filter_snoc, decide_True by done.
      subst stop. split_and!; [done|done|]. intros H0. by rewrite Hn.
  - by intros l [stop n] (? & ? & ?).
  - split_and!; [by intros c ?%not_elem_of_nil|done|done].
Qed.

(** ** What one pass may do *)
Section pass.
  Context (scaled : int_or_string → Z → bool → option Z).
  Context (op : string) (pods : list Pod) (listing : outcome (list Node)).

(** The node Slurm lists under a name (the last one wins). *)
Definition listed (name : string) (node : Node) : Prop :=
  ∃ nodes, listing = Ok nodes ∧ node ∈ nodes ∧ node_Name node = name.

(** The reasons for which a pass may touch a pod or a node. *)
Inductive allowed : command → Prop :=
| allowed_handoff pod :
    pod ∈ pods → workerOperationPhase pod op = PhaseReady → allowed (DeletePod (pod_Name pod))
| allowed_init pod :
    pod ∈ pods → containerCrashLoopBackOff (pod_InitContainerStatuses pod) ContainerNameWorkerInit = true →
    allowed (DeletePod (pod_Name pod))
| allowed_offline pod node :
    pod ∈ pods → listed (pod_Name pod) node → safeToDeleteOfflineSlurmNode node = true →
    allowed (DeletePod (pod_Name pod))
| allowed_undrain pod node :
    pod ∈ pods → listed (pod_Name pod) node → staleRollingUpdateDrain node = true →
    allowed (UndrainNode (pod_Name pod))
| allowed_label pod :
    pod ∈ pods → allowed (LabelPod (pod_Name pod) op PhaseStopping).

(** A pod that takes a slot of the budget although it is ready. *)
Definition consumes (byName : gmap string Node) (pod : Pod) : bool :=
  podReady pod &&
  match byName !! pod_Name pod with
  | Some node =>
      match d_action (decideWorkerUpdateAction pod node op) with
      | Undrain | Delete | TrackInFlight => true
      | _ => false
      end
  | None => false
  end.
Definition consuming (byName : gmap string Node) (ps : list Pod) : Z :=
  Z.of_nat (length (filter (λ p, consumes byName p = true) ps)).

(** A pod whose node a pass may reboot. *)
Definition reboots (byName : gmap string Node) (pod : Pod) (node : Node) : Prop :=
  pod ∈ pods ∧ byName !! pod_Name pod = Some node ∧
  d_action (decideWorkerUpdateAction pod node op) = ScheduleReboot.

Lemma decide_actions pod node :
  match d_action (decideWorkerUpdateAction pod node op) with
  | Undrain => staleRollingUpdateDrain node = true
  | Delete => safeToDeleteOfflineSlurmNode node = true
  | _ => True
  end.
Proof.
  unfold decideWorkerUpdateAction. simpl.
  destruct (staleRollingUpdateDrain node) eqn:?; [done|]. 
  destruct (_ && safeToDeleteOfflineSlurmNode node) eqn:E; [|by repeat case_match].
  by apply andb_true_iff in E as [_ ?].
Qed.
Lemma consuming_snoc byName ps p :
  consuming byName (ps ++ [p]) = (consuming byName ps + if consumes byName p then 1 else 0)%Z.
Proof.
  unfold consuming. rewrite filter_snoc.
  destruct (consumes byName p); [rewrite decide_True by done|rewrite decide_False by done; lia].
  rewrite length_app. simpl. lia.
Qed.

Lemma processPods_traces nodes ps :
  listing = Ok nodes → (∀ p, p ∈ ps → p ∈ pods) →
  let byName := indexSlurmNodesForPods nodes ps in
  traces (foldM (processPod op byName) (Scan [] [] 0) ps)
    (λ l r, (∀ c, c ∈ l → allowed c ∧ ∀ req, c ≠ RebootNodes req) ∧
            match r with
            | Ok sc => sc_readyConsuming sc = consuming byName ps ∧
                       ∀ pod node, (pod, node) ∈ sc_candidates sc → reboots byName pod node
            | _ => True
            end).
Proof.
  intros Hlist Hps byName.
  apply (traces_foldM _ (λ seen l sc,
    (∀ c, c ∈ l → allowed c ∧ ∀ req, c ≠ RebootNodes req) ∧
    sc_readyConsuming sc = consuming byName seen ∧
    ∀ pod node, (pod, node) ∈ sc_candidates sc → reboots byName pod node)); [|done|].
  2: { split_and!; [by intros c ?%not_elem_of_nil|done|by intros ? ? ?%not_elem_of_nil]. }
  intros seen pod rest l sc Hsplit (Hl & Hc & Hcand).
  assert (pod ∈ pods) as Hpod by (apply Hps; rewrite Hsplit; apply elem_of_app; right; left).
  unfold processPod. destruct (byName !! pod_Name pod) as [node|] eqn:En.
  2: { apply traces_fail. by rewrite app_nil_r. }
  pose proof (indexSlurmNodes_Some _ _ _ _ En) as [Hin Hname].
  assert (listed (pod_Name pod) node) as Hlisted by (exists nodes; done).
  pose proof (decide_actions pod node) as Hact.
  pose proof (consuming_snoc byName seen pod) as Hcons. unfold consumes in Hcons. rewrite En in Hcons.
  assert (∀ c, allowed c → (∀ req, c ≠ RebootNodes req) →
    ∀ c', c' ∈ l ++ [c] → allowed c' ∧ ∀ req, c' ≠ RebootNodes req) as Hsnoc.
  { intros c Ha Hr c' [?| ->%list_elem_of_singleton]%elem_of_app; auto. }
  destruct (d_action (decideWorkerUpdateAction pod node op)) eqn:Ea; simpl.
  - apply traces_ret. simpl. rewrite app_nil_r, Hcons, andb_false_r. split_and!; [done|lia|].
    intros p n [?|Hx%list_elem_of_singleton]%elem_of_app; [by apply Hcand|].
    by injection Hx as -> ->.
  - apply traces_ret. rewrite app_nil_r, Hcons, andb_false_r. split_and!; [done|lia|done].
  - apply traces_ret. simpl. rewrite app_nil_r, Hcons, andb_true_r. split_and!; [done|destruct (podReady pod); lia|done].
  - apply traces_bind_ret, traces_wrapM. unfold slurm_Undrain.
    destruct (String.eqb (node_Name node) ""); [apply traces_fail; by rewrite app_nil_r|].
    assert (∀ c', c' ∈ l ++ [UndrainNode (node_Name node)] → allowed c' ∧ ∀ req, c' ≠ RebootNodes req) as Hu.
    { apply Hsnoc; [rewrite Hname; by eapply allowed_undrain|done]. }
    apply traces_perform; simpl; [|intros e l' [-> | ->]; by rewrite ?app_nil_r].
    rewrite Hcons, andb_true_r. split_and!; [done|destruct (podReady pod); lia|done].
  - assert (∀ c', c' ∈ l ++ [DeletePod (pod_Name pod)] → allowed c' ∧ ∀ req, c' ≠ RebootNodes req) as Hd.
    { apply Hsnoc; [by eapply allowed_offline|done]. }
    apply traces_bind_ret, traces_ignored; simpl; [| |intros e l' [-> | ->]; by rewrite ?app_nil_r];
      rewrite Hcons, andb_true_r; rewrite ?app_nil_r; (split_and!; [done|destruct (podReady pod); lia|done]).
Qed.

Lemma startOperations_traces slots cands acc :
  traces (startOperations op slots cands acc)
    (λ l r, (∀ c, c ∈ l → ∃ pod node, (pod, node) ∈ cands ∧ c = LabelPod (pod_Name pod) op PhaseStopping) ∧
            match r with
            | Ok names =>
                (Z.of_nat (length names) ≤ Z.max slots (Z.of_nat (length acc)))%Z ∧
                ∀ n, n ∈ names → n ∈ acc ∨ ∃ pod node, (pod, node) ∈ cands ∧ node_Name node = n ∧
                  (workerOperationPhase pod op = PhaseStopping ∨ LabelPod (pod_Name pod) op PhaseStopping ∈ l)
            | _ => True
            end).
Proof.
  revert acc. induction cands as [|[pod node] cands IH]; intros acc; simpl.
  { apply traces_ret. split; [by intros c ?%not_elem_of_nil|]. split; [lia|auto]. }
  destruct (Z.leb_spec slots (Z.of_nat (length acc))).
  { apply traces_ret. split; [by intros c ?%not_elem_of_nil|]. split; [lia|auto]. }
  eapply traces_bind with (Q1 := λ l r,
    (∀ c, c ∈ l → c = LabelPod (pod_Name pod) op PhaseStopping) ∧
    (r = Ok tt → workerOperationPhase pod op = PhaseStopping ∨ LabelPod (pod_Name pod) op PhaseStopping ∈ l)).
  - destruct (String.eqb_spec (workerOperationPhase pod op) PhaseStopping); simpl.
    + apply traces_ret. split; [by intros c ?%not_elem_of_nil|auto].
    + apply traces_wrapM, traces_perform; simpl.
      * split; [by intros c ->%list_elem_of_singleton|right; by left].
      * intros e l [-> | ->]; (split; [|done]); [by intros c ?%not_elem_of_nil|by intros c ->%list_elem_of_singleton].
  - intros [] l1 [H1 H2]. eapply traces_weaken; [apply IH|]. intros l2 r [H3 H4]. split.
    + intros c [Hc|Hc]%elem_of_app.
      * exists pod, node. split; [left|auto].
      * destruct (H3 c Hc) as (p & n & ? & ?). exists p, n. split; [by right|done].
    + destruct r as [names|e|s]; [|done..]. rewrite length_app in H4. simpl in H4.
      destruct H4 as [H4 H5]. split; [lia|]. intros n Hn.
      destruct (H5 n Hn) as [[?| ->%list_elem_of_singleton]%elem_of_app|(p & m & Hp & Hm & Hph)];
        [by left|right..].
      * exists pod, node. split_and!; [left|done|]. rewrite elem_of_app. naive_solver.
      * exists p, m. split_and!; [by right|done|]. rewrite elem_of_app. naive_solver.
  - intros e l [H1 _]. split; [|done]. intros c Hc. exists pod, node. split; [left|auto].
  - intros s l [H1 _]. split; [|done]. intros c Hc. exists pod, node. split; [left|auto].
Qed.
End pass.

(** ** The whole pass *)
Section process.
  Context (scaled : int_or_string → Z → bool → option Z).
  Context (op : string) (pods : list Pod) (listing : outcome (list Node)) (sts : StatefulSet).

(** The one reboot request of a pass: within the budget, only for nodes to be
    rebooted, each of whose pods is labelled as stopping. *)
Definition good_reboot (before : list command) (req : RebootNodesRequest) : Prop :=
  ∃ nodes names,
    let byName := indexSlurmNodesForPods nodes (merge_sort pod_le pods) in
    listing = Ok nodes ∧ names ≠ [] ∧
    req = mkReboot (Join names ",") true false [] defaultRebootReason SlurmPowerActionWorkerHandoff ∧
    (Z.of_nat (length names) + consuming op byName (merge_sort pod_le pods) + unavailableReplicas sts
       ≤ rebootBudget scaled sts)%Z ∧
    ∀ n, n ∈ names → ∃ pod node, reboots op pods byName pod node ∧ node_Name node = n ∧
      (workerOperationPhase pod op = PhaseStopping ∨ LabelPod (pod_Name pod) op PhaseStopping ∈ before).
Definition good_log (l : list command) : Prop :=
  ∃ before, (∀ c, c ∈ before → allowed op pods listing c ∧ ∀ req, c ≠ RebootNodes req) ∧
    (l = before ∨ ∃ req, l = before ++ [RebootNodes req] ∧ good_reboot before req).

Lemma good_log_plain l :
  (∀ c, c ∈ l → allowed op pods listing c ∧ ∀ req, c ≠ RebootNodes req) → good_log l.
Proof. intros H. exists l. auto. Qed.

Lemma rebootPhase_traces nodes sc before :
  let sorted := merge_sort pod_le pods in
  let byName := indexSlurmNodesForPods nodes sorted in
  listing = Ok nodes → sc_readyConsuming sc = consuming op byName sorted →
  (∀ pod node, (pod, node) ∈ sc_candidates sc → reboots op pods byName pod node) →
  (∀ c, c ∈ before → allowed op pods listing c ∧ ∀ req, c ≠ RebootNodes req) →
  let availableSlots := (rebootBudget scaled sts - unavailableReplicas sts - sc_readyConsuming sc)%Z in
  traces (if (availableSlots <=? 0)%Z then ret tt
    else
      let! toReboot := startOperations op availableSlots (sc_candidates sc) [] in
      match toReboot with
      | [] => ret tt
      | _ => wrapM "schedule slurm reboot through rest api"
               (slurm_Reboot (mkReboot (Join toReboot ",") true false [] defaultRebootReason SlurmPowerActionWorkerHandoff))
      end) (λ l _, good_log (before ++ l)).
Proof.
  intros sorted byName Hlist Hc Hcand Hb slots.
  destruct (Z.leb_spec slots 0).
  { apply traces_ret. rewrite app_nil_r. by apply good_log_plain. }
  assert (∀ l : list command, (∀ c, c ∈ l → ∃ pod node, (pod, node) ∈ sc_candidates sc ∧
    c = LabelPod (pod_Name pod) op PhaseStopping) →
    ∀ c, c ∈ before ++ l → allowed op pods listing c ∧ ∀ req, c ≠ RebootNodes req) as Hlab.
  { intros l Hl c [?|(p & n & (? & _)%Hcand & ->)%Hl]%elem_of_app; [auto|].
    split; [by apply allowed_label|done]. }
  eapply traces_bind; [apply startOperations_traces|..]; simpl.
  - intros names l1 (H1 & Hlen & Hn). specialize (Hlab _ H1).
    destruct names as [|n0 names0] eqn:En; [apply traces_ret; rewrite app_nil_r; by apply good_log_plain|].
    rewrite <-En in *. apply traces_wrapM. unfold slurm_Reboot.
    destruct (String.eqb (rb_NodeList _) ""); [apply traces_fail; rewrite app_nil_r; by apply good_log_plain|].
    match goal with |- traces (perform ?c) _ => assert (good_log (before ++ l1 ++ [c])) as Hgood end.
    2: { apply traces_perform; [done|]. intros e l [-> | ->]; [rewrite app_nil_r; by apply good_log_plain|done]. }
    exists (before ++ l1). split; [done|]. right. eexists. split; [by rewrite app_assoc|].
    exists nodes, names. split_and!; [done|by subst|done| |].
    + fold sorted byName. unfold slots in Hlen. lia.
    + intros m Hm. destruct (Hn m Hm) as [?%not_elem_of_nil|(p & nd & Hp & Hnm & Hph)]; [done|].
      exists p, nd. split_and!; [by apply Hcand|done|]. rewrite elem_of_app. naive_solver.
  - intros e l [H1 _]. specialize (Hlab _ H1). by apply good_log_plain.
  - intros e l [H1 _]. specialize (Hlab _ H1). by apply good_log_plain.
Qed.

Lemma process_traces hasClient :
  traces (processRollingUpdate scaled hasClient listing op sts pods) (λ l _, good_log l).
Proof.
  unfold processRollingUpdate. destruct pods as [|p0 ps0] eqn:Ep.
  { apply traces_ret, good_log_plain. by intros c ?%not_elem_of_nil. }
  rewrite <-Ep in *. set (sorted := merge_sort pod_le pods).
  assert (∀ p, p ∈ sorted → p ∈ pods) as Hsub by (intros p; by apply elem_of_sort).
  assert (∀ l : list command, (∀ c, c ∈ l → ∃ pod, pod ∈ sorted ∧ ¬ notReady op pod ∧ c = DeletePod (pod_Name pod)) →
    ∀ c, c ∈ l → allowed op pods listing c ∧ ∀ req, c ≠ RebootNodes req) as Hdel.
  { intros l Hl c (pod & Hp & Hnr & ->)%Hl. split; [|done]. apply allowed_handoff; [auto|].
    unfold notReady in Hnr. by apply dec_stable. }
  eapply traces_bind; [apply deleteReady_traces|..]; simpl.
  2,3: intros ? l [H1 _]; apply good_log_plain; by apply (Hdel l).
  intros [stop n] l1 (H1 & Hstop & Hn). specialize (Hdel _ H1).
  assert (∀ p, p ∈ stop → p ∈ pods) as Hsubs.
  { intros p Hp. apply Hsub. rewrite Hstop in Hp. by apply list_elem_of_filter in Hp as [_ ?]. }
  destruct (Nat.ltb_spec 0 n); [apply traces_ret; rewrite app_nil_r; by apply good_log_plain|].
  assert (stop = sorted) as -> by (apply Hn; lia).
  destruct (head _) as [pod|] eqn:Ehd.
  { apply head_Some_elem_of, list_elem_of_filter in Ehd as [Hcr Hpod].
    assert (good_log (l1 ++ [DeletePod (pod_Name pod)])) as Hgood.
    { apply good_log_plain. intros c [?| ->%list_elem_of_singleton]%elem_of_app; [auto|].
      split; [apply allowed_init; auto|done]. }
    apply traces_ignored; [done|rewrite app_nil_r; by apply good_log_plain|].
    intros e l [-> | ->]; [rewrite app_nil_r; by apply good_log_plain|done]. }
  destruct hasClient; simpl; [|apply traces_fail; rewrite app_nil_r; by apply good_log_plain].
  eapply traces_bind with (Q1 := λ l r, l = [] ∧ r = listing); [by apply traces_lift|..].
  2,3: intros ? ? [-> _]; simpl; rewrite app_nil_r; by apply good_log_plain.
  intros nodes ? [-> Elist%symmetry].
  eapply traces_bind; [apply (processPods_traces op pods listing nodes sorted); [done|auto]|..]; simpl.
  2,3: intros ? l [H2 _]; apply good_log_plain; intros c [?|?]%elem_of_app; auto.
  intros sc l2 (H2 & Hc & Hcand). eapply traces_weaken.
  - apply (rebootPhase_traces nodes sc (l1 ++ l2)); [done..|]. intros c [?|?]%elem_of_app; auto.
  - intros l r. simpl. by rewrite app_assoc.
Qed.
End process.

Lemma rebootBudget_bounds scaled sts :
  (rebootBudget scaled sts ≤ Z.max 0 (stsReplicas sts))%Z ∧
  ((0 < stsReplicas sts)%Z → (1 ≤ rebootBudget scaled sts)%Z).
Proof.
  unfold rebootBudget. destruct (Z.leb_spec (stsReplicas sts) 0); [lia|].
  destruct (scaled _ _ _) as [b|]; [|lia].
  destruct (Z.ltb_spec b 1); [lia|]. destruct (Z.ltb_spec (stsReplicas sts) b); lia.
Qed.
Lemma safe_offline node :
  safeToDeleteOfflineSlurmNode node = true ↔
  node_AllocCPUs node = Some 0%Z ∧ node_AllocMemoryMB node = Some 0%Z ∧ IsCompletingState node = false ∧
  (IsDownState node = true ∨ IsIdleState node = true ∧ IsNotRespondingState node = true).
Proof.
  unfold safeToDeleteOfflineSlurmNode, CPUAllocated.
  destruct (node_AllocCPUs node) as [c|]; simpl; [|naive_solver].
  destruct (Z.eqb_spec (float64_of_int c) 0) as [->%float64_zero|Hc]; simpl.
  2: { split; [done|]. intros [[= ->] _]. by vm_compute in Hc. }
  destruct (node_AllocMemoryMB node) as [m|]; [|naive_solver].
  destruct (Z.eqb_spec m 0) as [->|Hm]; simpl; [|naive_solver].
  destruct (IsCompletingState node), (IsDownState node), (IsIdleState node), (IsNotRespondingState node);
    simpl; naive_solver.
Qed.

(** ** Properties *)

(** C2: a rolling-update pass never deletes a pod that may still run a job.  Whatever
    calls fail, a deleted pod is an outdated one that either reported its hand-off as
    complete, or cannot start (its init container crash-loops), or whose Slurm node is
    offline (DOWN, or IDLE and not responding), not completing, and known to have no
    CPU and no memory allocated. *)
Theorem rolling_update_deletes_safely scaled hasClient listing op sts pods faults p :
  DeletePod p ∈ run_log (processRollingUpdate scaled hasClient listing op sts pods (Run faults [])).1 →
  ∃ pod, pod ∈ pods ∧ pod_Name pod = p ∧
    (workerOperationPhase pod op = PhaseReady ∨
     containerCrashLoopBackOff (pod_InitContainerStatuses pod) ContainerNameWorkerInit = true ∨
     ∃ node, listed listing p node ∧
       node_AllocCPUs node = Some 0%Z ∧ node_AllocMemoryMB node = Some 0%Z ∧ IsCompletingState node = false ∧
       (IsDownState node = true ∨ IsIdleState node = true ∧ IsNotRespondingState node = true)).
Proof.
  destruct (process_traces scaled op pods listing sts hasClient (Run faults [])) as (l & Hl & before & Hb & Hcase).
  unfold log_of, run_logged in Hl. rewrite Hl. simpl. intros Hp. assert (DeletePod p ∈ before) as Hin.
  { destruct Hcase as [->|(req & -> & _)]; [done|].
    by apply elem_of_app in Hp as [?|?%list_elem_of_singleton]. }
  destruct (Hb _ Hin) as [Ha _]. inversion Ha as [pod|pod|pod node ? ? Hs|  |]; subst; exists pod.
  - naive_solver.
  - naive_solver.
  - apply safe_offline in Hs. naive_solver.
Qed.
Definition down_node (name : string) : Node :=
  mkNode name "c" "" {[DOWN; REBOOTISSUED]} (Some (mkReason defaultRebootReason "" 0)) [] "" "" None "" ""
    None (Some 0%Z) None None (Some 0%Z) None None None.
Definition outdated_pod (name : string) : Pod :=
  mkPod name {[revisionHashLabel := "old"]} [("Ready", "True")] [] [].
Definition demo_sts : StatefulSet :=
  mkSTS {[LabelInstanceKey := "c"; LabelSoperatorRollingUpdateEnabled := "true"]} true (Some 4%Z)
    (Some (FromInt 2)) 1 4 "new".
Definition int_only (v : int_or_string) (total : Z) (up : bool) : option Z :=
  match v with FromInt n => Some n | FromString _ => None end.
Lemma rolling_update_deletes_safely_witness :
  ∃ pod, pod ∈ [outdated_pod "w-0"] ∧ pod_Name pod = "w-0".
Proof.
  destruct (rolling_update_deletes_safely int_only true (Ok [down_node "w-0"]) "new" demo_sts
    [outdated_pod "w-0"] [] "w-0") as (pod & H1 & H2 & _); [|exists pod; exact (conj H1 H2)].
  assert (run_log (processRollingUpdate int_only true (Ok [down_node "w-0"]) "new" demo_sts
            [outdated_pod "w-0"] (Run [] [])).1 = [DeletePod "w-0"]) as -> by (vm_compute; reflexivity).
  left.
Defined.

(** C3: the reboot budget holds.  A pass sends at most one reboot request, as its last
    command; it names at least one node, and the nodes it names together with the
    unavailable replicas and the ready pods whose replacement is already under way
    (being undrained, deleted or rebooted) are within the budget, which is at most the
    number of replicas.  Every node named is listed by Slurm for an outdated pod that
    is not being rebooted yet, and that pod was labelled as stopping before the
    request. *)
Theorem rolling_update_budget scaled hasClient listing op sts pods faults req :
  let log := run_log (processRollingUpdate scaled hasClient listing op sts pods (Run faults [])).1 in
  RebootNodes req ∈ log →
  ∃ before nodes names,
    let byName := indexSlurmNodesForPods nodes (merge_sort pod_le pods) in
    log = before ++ [RebootNodes req] ∧ (∀ req', RebootNodes req' ∉ before) ∧
    listing = Ok nodes ∧ names ≠ [] ∧ rb_NodeList req = Join names "," ∧
    (Z.of_nat (length names) + consuming op byName (merge_sort pod_le pods) + unavailableReplicas sts
       ≤ rebootBudget scaled sts ≤ Z.max 0 (stsReplicas sts))%Z ∧
    ∀ n, n ∈ names → ∃ pod node, reboots op pods byName pod node ∧ node_Name node = n ∧
      (workerOperationPhase pod op = PhaseStopping ∨ LabelPod (pod_Name pod) op PhaseStopping ∈ before).
Proof.
  intros log. unfold log.
  destruct (process_traces scaled op pods listing sts hasClient (Run faults [])) as (l & Hl & before & Hb & Hcase).
  unfold log_of, run_logged in Hl. rewrite Hl. simpl. intros Hreq.
  destruct Hcase as [->|(req' & -> & nodes & names & Hlist & Hne & -> & Hbud & Hn)].
  { destruct (Hb _ Hreq) as [_ Hr]. by destruct (Hr req). }
  apply elem_of_app in Hreq as [Hreq|Hreq%list_elem_of_singleton].
  { destruct (Hb _ Hreq) as [_ Hr]. by destruct (Hr req). }
  injection Hreq as ->. exists before, nodes, names. split_and!; try done.
  - intros r' Hr'. destruct (Hb _ Hr') as [_ Hr]. by destruct (Hr r').
  - apply rebootBudget_bounds.
Qed.
Definition idle_node (name : string) : Node :=
  mkNode name "c" "" {[IDLE]} None [] "" "" None "" "" None (Some 0%Z) None None (Some 0%Z) None None None.
Lemma rolling_update_budget_witness :
  let log := run_log (processRollingUpdate int_only true
               (Ok [idle_node "w-0"; idle_node "w-1"; idle_node "w-2"]) "new" demo_sts
               [outdated_pod "w-2"; outdated_pod "w-0"; outdated_pod "w-1"] (Run [] [])).1 in
  log = [LabelPod "w-0" "new" "stopping"; LabelPod "w-1" "new" "stopping";
         RebootNodes (mkReboot "w-0,w-1" true false [] defaultRebootReason SlurmPowerActionWorkerHandoff)] ∧
  ∃ before, log = before ++ [RebootNodes (mkReboot "w-0,w-1" true false [] defaultRebootReason SlurmPowerActionWorkerHandoff)].
Proof.
  intros log. assert (log = [LabelPod "w-0" "new" "stopping"; LabelPod "w-1" "new" "stopping";
    RebootNodes (mkReboot "w-0,w-1" true false [] defaultRebootReason SlurmPowerActionWorkerHandoff)]) as Hlog
    by (vm_compute; reflexivity).
  split; [exact Hlog|].
  destruct (rolling_update_budget int_only true (Ok [idle_node "w-0"; idle_node "w-1"; idle_node "w-2"])
    "new" demo_sts [outdated_pod "w-2"; outdated_pod "w-0"; outdated_pod "w-1"] []
    (mkReboot "w-0,w-1" true false [] defaultRebootReason SlurmPowerActionWorkerHandoff)) as (before & nodes & names & H1 & _).
  - fold log. rewrite Hlog. in_list.
  - exists before. exact H1.
Defined.

(** The reconciler touches nothing when the rolling update is not enabled or the
    StatefulSet is gone, and once all replicas are updated it only undrains nodes: ones
    of ready pods of the new revision that Slurm lists as drained and idle, responding,
    not rebooting, with the rolling update as the reason.  Drains set by anyone else
    are never lifted. *)
Theorem reconcile_undrains_only_its_own scaled getSTS getPods hasClient listing faults c :
  c ∈ run_log (Reconcile scaled getSTS getPods hasClient listing (Run faults [])).1 →
  ∃ sts pods, getSTS = Ok sts ∧ getPods = Ok pods ∧ rollingUpdateEnabled sts = true ∧
    (sts_UpdatedReplicas sts = stsReplicas sts →
       ∃ node pod, c = UndrainNode (node_Name node) ∧ listed listing (pod_Name pod) node ∧
         pod ∈ pods ∧ podReady pod = true ∧
         label (pod_Labels pod) revisionHashLabel = sts_UpdateRevision sts ∧
         IsDrainState node = true ∧ IsIdleState node = true ∧ IsNotRespondingState node = false ∧
         IsRebootIssuedState node = false ∧ IsRebootRequestedState node = false ∧
         hasRollingUpdateReason node = true).
Proof.
  intros Hc. unfold Reconcile in Hc. destruct getSTS as [sts|e|s];
    [|destruct (IsNotFound e); by apply not_elem_of_nil in Hc|by apply not_elem_of_nil in Hc].
  destruct (rollingUpdateEnabled sts) eqn:Een; simpl in Hc; [|by apply not_elem_of_nil in Hc].
  destruct (String.eqb _ ""); [by apply not_elem_of_nil in Hc|].
  destruct getPods as [pods|e|s]; [|by apply not_elem_of_nil in Hc..].
  exists sts, pods. split_and!; [done..|]. intros Hup. unfold bind at 1, lift in Hc.
  rewrite (proj2 (Z.eqb_eq _ _) Hup) in Hc.
  set (P := λ c, ∃ node pod, c = UndrainNode (node_Name node) ∧ listed listing (pod_Name pod) node ∧
    pod ∈ pods ∧ podReady pod = true ∧ label (pod_Labels pod) revisionHashLabel = sts_UpdateRevision sts ∧
    IsDrainState node = true ∧ IsIdleState node = true ∧ IsNotRespondingState node = false ∧
    IsRebootIssuedState node = false ∧ IsRebootRequestedState node = false ∧
    hasRollingUpdateReason node = true).
  change (P c). revert Hc. apply emits_run_elem; [|done].
  apply emits_bind; [|intros; apply emits_ret].
  unfold cleanupStaleRollingUpdateDrains. case_decide; [apply emits_ret|].
  destruct hasClient; [|apply emits_fail]. simpl. apply emits_lift_bind. intros nodes Hnodes.
  apply emits_foldM. intros n node Hin.
  destruct (bool_decide _ && staleRollingUpdateDrain node) eqn:E; [|apply emits_ret].
  apply andb_true_iff in E as [Hel%bool_decide_eq_true Hst].
  apply emits_bind; [|intros; apply emits_ret]. apply emits_wrapM. unfold slurm_Undrain.
  destruct (String.eqb _ ""); [apply emits_fail|]. apply emits_perform. unfold P.
  apply elem_of_list_to_set, list_elem_of_fmap in Hel as (pod & Hname & Hpod).
  apply list_elem_of_filter in Hpod as [[Hrev Hready] Hpod].
  exists node, pod. unfold staleRollingUpdateDrain in Hst.
  destruct (IsDrainState node), (IsIdleState node), (IsNotRespondingState node), (IsInvalidState node),
    (IsCompletingState node), (IsRebootIssuedState node), (IsRebootRequestedState node); try done.
  split_and!; try done. exists nodes. done.
Qed.
Definition stale_node (name : string) : Node :=
  mkNode name "c" "" {[IDLE; DRAIN]} (Some (mkReason "soperator rolling update : reboot complete" "" 0)) []
    "" "" None "" "" None None None None None None None None.
Definition updated_sts : StatefulSet :=
  mkSTS {[LabelInstanceKey := "c"; LabelSoperatorRollingUpdateEnabled := "true"]} true (Some 4%Z) None 4 4 "new".
Definition updated_pod : Pod := mkPod "w-0" {[revisionHashLabel := "new"]} [("Ready", "True")] [] [].
Lemma reconcile_undrains_only_its_own_witness :
  ∃ node, UndrainNode "w-0" = UndrainNode (node_Name node) ∧ hasRollingUpdateReason node = true ∧
          listed (Ok [stale_node "w-0"]) "w-0" node.
Proof.
  destruct (reconcile_undrains_only_its_own int_only (Ok updated_sts) (Ok [updated_pod]) true
    (Ok [stale_node "w-0"]) [] (UndrainNode "w-0")) as (sts & pods & H1 & H2 & _ & H4).
  - assert (run_log (Reconcile int_only (Ok updated_sts) (Ok [updated_pod]) true (Ok [stale_node "w-0"])
      (Run [] [])).1 = [UndrainNode "w-0"]) as -> by (vm_compute; reflexivity). left.
  - injection H1 as <-. injection H2 as <-. destruct H4 as (node & pod & E & Hl & Hp & _ & _ & _ & _ & _ & _ & _ & Hr);
      [reflexivity|].
    exists node. apply list_elem_of_singleton in Hp as ->. exact (conj E (conj Hr Hl)).
Defined.
