(* ===== verification/Topology.v ===== *)
(** * topology.conf

    [internal/controller/topologyconfcontroller]: [topology_graph.go] (the tree
    topology), [topology_blocks.go] (the block topology), [switch_name.go] and the
    parts of [workertopology_controller.go] that collect their inputs and assemble the
    text.

    A Go map the code ranges over is an association list in iteration order
    ([labelsByNode]), or a [gmap] where the order is settled by a sort; that the order
    does not reach the output is a theorem.  What the lines of the text contain is stated for labels on which the nodes
    agree ([consistent]: every switch is on one tier, and names are not shared). *)
From S2P Require Import Prelude GoStrings Pattern.
From Stdlib Require Import Ascii.
From Stdlib Require String.

(** ** switch_name.go *)
Definition maxSafeTrailingDigits : nat := 18.
Definition slurmNameTerminator : string := "_".
(** The loop from the last character down. *)
Fixpoint trailingDigitCount (name : string) : nat :=
  match name with
  | EmptyString => 0
  | String c rest => if isDigits (String c rest) then String.length (String c rest) else trailingDigitCount rest
  end.
Definition slurmSafeSwitchName (name : string) : string :=
  if (trailingDigitCount name <=? maxSafeTrailingDigits)%nat then name else name +:+ slurmNameTerminator.

(** ** topology_graph.go *)
Abbreviation graph := (gmap string (gset string)).
Definition children (g : graph) (v : string) : gset string := default ∅ (g !! v).
Definition AddEdge (g : graph) (parent child : string) : graph :=
  <[parent := {[child]} ∪ children g parent]> g.

Definition defaultFabric : string := "root".
Definition fabricOf (fabricByNode : gmap string string) (node : string) : string :=
  let fabric := default "" (fabricByNode !! node) in
  if String.eqb fabric "" then defaultFabric else fabric.
Definition unknownSwitchName (fabric : string) : string :=
  if String.eqb fabric defaultFabric then "unknown" else fabric +:+ ".unknown".

Definition renderSwitch (g : graph) (parent : string) (childrenSet : gset string) : list string :=
  if decide (childrenSet = ∅) then []
  else
    let kids := merge_sort String.le (elements childrenSet) in
    let hasGrandChildren := existsb (λ child, negb (bool_decide (children g child = ∅))) kids in
    if hasGrandChildren
    then ["SwitchName=" +:+ slurmSafeSwitchName parent +:+ " Switches=" +:+
            Merge (slurmSafeSwitchName <$> kids)]
    else ["SwitchName=" +:+ slurmSafeSwitchName parent +:+ " Nodes=" +:+ Join kids ","].
Definition RenderConfigLines (g : graph) : list string :=
  merge_sort String.le (map_to_list g ≫= λ kv, renderSwitch g kv.1 kv.2).

Abbreviation tier_labels := (gmap string string).
Definition isTierKey (key : string) : bool := negb (String.eqb key "tier-0") && HasPrefix key "tier-".
Definition numOfTiers (labels : tier_labels) : nat :=
  length (filter (λ kv, isTierKey kv.1 = true) (map_to_list labels)).
Fixpoint tierPath (labels : tier_labels) (idx : list nat) : outcome (list string) :=
  match idx with
  | [] => Ok []
  | i :: idx =>
      let key := "tier-" +:+ Itoa (Z.of_nat i + 1) in
      let curTierLabel := default "" (labels !! key) in
      if String.eqb curTierLabel "" then Err (ErrMsg "missing label")
      else let? rest := tierPath labels idx in Ok (curTierLabel :: rest)
  end.
Definition labelsToPath (labels : tier_labels) : outcome (list string) :=
  let n := numOfTiers labels in
  if (n =? 0)%nat then Err (ErrMsg "no labels found for node")
  else tierPath labels (seq 0 n).

(** The state of the builder: the graph, the workers placed on a switch, and the top
    switches of every fabric. *)
Record builder := Builder {
  b_graph : graph;
  b_placed : gset string;
  b_tops : gmap string (gset string)
}.
Definition addTopSwitch (tops : gmap string (gset string)) (fabric sw : string) : gmap string (gset string) :=
  <[fabric := {[sw]} ∪ default ∅ (tops !! fabric)]> tops.
(** Edges of the path, from the bottom switch up. *)
Fixpoint addPath (g : graph) (path : list string) : graph :=
  match path with
  | lower :: ((upper :: _) as rest) => addPath (AddEdge g upper lower) rest
  | _ => g
  end.
Definition placeWorker (fabricByNode : gmap string string) (bottom top : string) (b : builder)
    (worker : string) : builder :=
  Builder (AddEdge (b_graph b) bottom worker) ({[worker]} ∪ b_placed b)
    (addTopSwitch (b_tops b) (fabricOf fabricByNode worker) top).
Definition placeNode (gpuPodsByNode : gmap string (list string)) (fabricByNode : gmap string string)
    (b : builder) (entry : string * tier_labels) : builder :=
  let '(node, labels) := entry in
  match default [] (gpuPodsByNode !! node) with
  | [] => b
  | workers =>
      match labelsToPath labels with
      | Ok (bottom :: up) =>
          let b' := foldl (placeWorker fabricByNode bottom (List.last up bottom)) b workers in
          Builder (addPath (b_graph b') (bottom :: up)) (b_placed b') (b_tops b')
      | _ => b
      end
  end.
Definition placeUnknown (fabricByNode : gmap string string) (b : builder) (name : string) : builder :=
  if bool_decide (name ∈ b_placed b) then b
  else
    let fabric := fabricOf fabricByNode name in
    let unknown := unknownSwitchName fabric in
    Builder (AddEdge (b_graph b) unknown name) (b_placed b) (addTopSwitch (b_tops b) fabric unknown).

Definition hasParent (g : graph) (v : string) : bool :=
  existsb (λ kv : string * gset string, bool_decide (v ∈ kv.2)) (map_to_list g).
Definition attachFabricRoots (g : graph) (tops : gmap string (gset string)) : graph :=
  foldl (λ acc entry,
    foldl (λ acc sw, if negb (hasParent g sw) then AddEdge acc entry.1 sw else acc) acc (elements entry.2))
    g (map_to_list tops).

Abbreviation blocks := (gmap string (list string)).
Section build.
  Context (labelsByNode : list (string * tier_labels)) (gpuPodsByNode : gmap string (list string)).
  Context (allNodeNames : list string) (fabricByNode : gmap string string).

Definition stage2 : builder := foldl (placeNode gpuPodsByNode fabricByNode) (Builder ∅ ∅ ∅) labelsByNode.
Definition stage1 : builder := foldl (placeUnknown fabricByNode) stage2 allNodeNames.
Definition BuildTopologyGraph : graph := attachFabricRoots (b_graph stage1) (b_tops stage1).

(** ** topology_blocks.go *)
Definition AddNode (b : blocks) (block worker : string) : blocks :=
  <[block := default [] (b !! block) ++ [worker]]> b.
Definition placeInBlock (st : blocks * gset string) (entry : string * tier_labels) : blocks * gset string :=
  let '(node, labels) := entry in
  match default [] (gpuPodsByNode !! node) with
  | [] => st
  | workers =>
      match labels !! "tier-0" with
      | None => st
      | Some blockName => foldl (λ '(b, placed) worker, (AddNode b blockName worker, {[worker]} ∪ placed)) st workers
      end
  end.
Definition BuildTopologyBlocks : blocks :=
  let '(b, placed) := foldl placeInBlock (∅, ∅) labelsByNode in
  foldl (λ b name, if bool_decide (name ∈ placed) then b
                   else AddNode b (unknownSwitchName (fabricOf fabricByNode name)) name) b allNodeNames.
End build.
Definition renderBlock (entry : string * list string) : list string :=
  let '(blockName, workers) := entry in
  match workers with
  | [] => []
  | _ => ["BlockName=" +:+ slurmSafeSwitchName blockName +:+ " Nodes=" +:+ Merge workers]
  end.
Definition RenderBlockLines (b : blocks) : list string :=
  merge_sort String.le (map_to_list b ≫= renderBlock).

(** ** workertopology_controller.go *)
Record topoNodeSet := TopoNodeSet {
  tns_Name : string; tns_Replicas : Z; tns_Fabric : string; tns_GPUEnabled : bool }.
Definition nodeNames (ns : topoNodeSet) : list string :=
  (λ i, tns_Name ns +:+ "-" +:+ Itoa i) <$> seqZ 0 (tns_Replicas ns).
Definition collectAllNodeNames (nodeSetList : list topoNodeSet) : list string := nodeSetList ≫= nodeNames.
Definition collectFabricByNode (nodeSetList : list topoNodeSet) : gmap string string :=
  foldl (λ m ns, if String.eqb (tns_Fabric ns) "" then m
                 else foldl (λ m name, <[name := tns_Fabric ns]> m) m (nodeNames ns)) ∅ nodeSetList.

(** Pods as far as topology looks at them: name and the node they are bound to. *)
Record topoPod := TopoPod { tp_Name : string; tp_NodeName : string }.
Section collect.
  (** [listPods] for a NodeSet. *)
  Context (listPods : string → outcome (list topoPod)).
Fixpoint CollectWorkerPods (nodeSetList : list topoNodeSet) : outcome (list topoPod) :=
  match nodeSetList with
  | [] => Ok []
  | ns :: rest =>
      let? pl := wrap_err "list pods for NodeSet" (listPods (tns_Name ns)) in
      let? pods := CollectWorkerPods rest in
      Ok (pl ++ pods)
  end.
Definition collectScheduledGPUPodsByNode (nodeSetList : list topoNodeSet) :
    outcome (gmap string (list string)) :=
  let? pods := wrap_err "collect GPU worker pods"
                 (CollectWorkerPods (filter (λ ns, tns_GPUEnabled ns = true) nodeSetList)) in
  Ok (foldl (λ m pod, if String.eqb (tp_NodeName pod) "" then m
                      else <[tp_NodeName pod := default [] (m !! tp_NodeName pod) ++ [tp_Name pod]]> m) ∅ pods).
End collect.

Definition defBlockSize : Z := 16.
Definition renderTree (g : graph) : string := Join (RenderConfigLines g) newline +:+ newline.
Definition renderBlocks (blockSize : option Z) (b : blocks) : string :=
  Join (RenderBlockLines b) newline +:+ newline +:+ "BlockSizes=" +:+
    Itoa (default defBlockSize blockSize) +:+ newline.
Definition SlurmTopologyTree : string := "topology/tree".
Definition SlurmTopologyBlock : string := "topology/block".
Definition isClusterReconciliationNeeded (topologyPlugin : string) : bool :=
  String.eqb topologyPlugin SlurmTopologyTree || String.eqb topologyPlugin SlurmTopologyBlock.

(** The labels config map is listed in the order Go ranges over it; [unmarshal] is
    [json.Unmarshal] to a map of strings. *)
Section assemble.
  Context (unmarshal : string → outcome tier_labels).
Fixpoint ParseNodeTopologyLabels (data : list (string * string)) : outcome (list (string * tier_labels)) :=
  match data with
  | [] => Ok []
  | (nodeName, jsonData) :: data =>
      let? topology := wrap_err "parse topology labels for node" (unmarshal jsonData) in
      let? result := ParseNodeTopologyLabels data in
      Ok ((nodeName, topology) :: result)
  end.
Definition BuildTopologyConfig (data : list (string * string)) (gpuPodsByNode : gmap string (list string))
    (allNodeNames : list string) (fabricByNode : gmap string string) : outcome string :=
  let? labelsByNode := wrap_err "deserialize node tree topology" (ParseNodeTopologyLabels data) in
  Ok (renderTree (BuildTopologyGraph labelsByNode gpuPodsByNode allNodeNames fabricByNode)).
Definition BuildBlocksConfig (blockSize : option Z) (data : list (string * string))
    (gpuPodsByNode : gmap string (list string)) (allNodeNames : list string)
    (fabricByNode : gmap string string) : outcome string :=
  let? labelsByNode := wrap_err "deserialize node block topology" (ParseNodeTopologyLabels data) in
  Ok (renderBlocks blockSize (BuildTopologyBlocks labelsByNode gpuPodsByNode allNodeNames fabricByNode)).
Definition buildNodeSetTopologyConfig (nodeTopologyCM : outcome (list (string * string)))
    (listPods : string → outcome (list topoPod)) (topologyPlugin : string) (blockSize : option Z)
    (nodeSetList : list topoNodeSet) : outcome string :=
  let? data := wrap_err "get node topology labels config map" nodeTopologyCM in
  let allNodeNames := collectAllNodeNames nodeSetList in
  let fabricByNode := collectFabricByNode nodeSetList in
  let? gpuPodsByNode := wrap_err "collect scheduled GPU pods"
                          (collectScheduledGPUPodsByNode listPods nodeSetList) in
  if String.eqb topologyPlugin SlurmTopologyBlock
  then BuildBlocksConfig blockSize data gpuPodsByNode allNodeNames fabricByNode
  else BuildTopologyConfig data gpuPodsByNode allNodeNames fabricByNode.
End assemble.

Example topo_ex :
  RenderConfigLines (BuildTopologyGraph
    [("node1", {["tier-1" := "switch1"; "tier-2" := "spine1"]});
     ("node2", {["tier-1" := "switch2"; "tier-2" := "spine2"]});
     ("node3", {["tier-1" := "switch1"; "tier-2" := "spine3"]})]
    {["node1" := ["pod1"; "pod2"]; "node2" := ["pod3"]; "node3" := ["pod4"]]}
    ["pod1"; "pod2"; "pod3"; "pod4"; "pod5"; "pod6"] ∅) =
  ["SwitchName=root Switches=spine1,spine2,spine3,unknown"; "SwitchName=spine1 Switches=switch1";
   "SwitchName=spine2 Switches=switch2"; "SwitchName=spine3 Switches=switch1";
   "SwitchName=switch1 Nodes=pod1,pod2,pod4"; "SwitchName=switch2 Nodes=pod3";
   "SwitchName=unknown Nodes=pod5,pod6"].
Proof. vm_compute. reflexivity. Qed.

(** ** Edges of the graph *)
Definition edge (g : graph) (parent child : string) : Prop := child ∈ children g parent.
Definition wf_graph (g : graph) : Prop := ∀ v s, g !! v = Some s → s ≠ ∅.

Lemma edge_AddEdge g p x v c : edge (AddEdge g p x) v c ↔ (v = p ∧ c = x) ∨ edge g v c.
Proof.
  unfold edge, children, AddEdge. rewrite lookup_insert. case_decide as Hv; simpl; [subst|naive_solver].
  unfold children. rewrite elem_of_union, elem_of_singleton. naive_solver.
Qed.
Lemma wf_AddEdge g p x : wf_graph g → wf_graph (AddEdge g p x).
Proof.
  intros Hg v s. unfold AddEdge. rewrite lookup_insert. case_decide; [|apply Hg].
  intros [= <-] E. assert (x ∈ (∅ : gset string)) as ?%elem_of_empty; [|done].
  rewrite <-E. apply elem_of_union_l, elem_of_singleton. done.
Qed.
(** Well-formed graphs are determined by their edges. *)
Lemma graph_ext g1 g2 :
  wf_graph g1 → wf_graph g2 → (∀ p c, edge g1 p c ↔ edge g2 p c) → g1 = g2.
Proof.
  intros W1 W2 He. apply map_eq. intros v. specialize (He v). unfold edge, children in He.
  destruct (g1 !! v) as [s1|] eqn:E1, (g2 !! v) as [s2|] eqn:E2; simpl in He.
  - f_equal. by apply set_eq.
  - destruct (W1 v s1 E1). apply set_eq. naive_solver.
  - destruct (W2 v s2 E2). apply set_eq. naive_solver.
  - done.
Qed.

(** [lower] and [upper] are neighbours on a path. *)
Definition path_edge (path : list string) (lower upper : string) : Prop :=
  ∃ l1 l2, path = l1 ++ lower :: upper :: l2.
Lemma path_edge_cons x y rest lower upper :
  path_edge (x :: y :: rest) lower upper ↔ (lower = x ∧ upper = y) ∨ path_edge (y :: rest) lower upper.
Proof.
  split.
  - intros ([|z l1] & l2 & E); simplify_eq/=; [by left|right]. by exists l1, l2.
  - intros [[-> ->]|(l1 & l2 & E)]; [by exists [], rest|]. exists (x :: l1), l2. by rewrite E.
Qed.
Lemma path_edge_single x lower upper : ¬ path_edge [x] lower upper.
Proof. intros ([|z [|]] & l2 & E); simplify_eq/=. Qed.
Lemma edge_addPath g path p c : edge (addPath g path) p c ↔ edge g p c ∨ path_edge path c p.
Proof.
  revert g. induction path as [|x path IH]; intros g; simpl.
  { split; [auto|]. intros [?|(l1 & l2 & E)]; [done|]. by destruct l1. }
  destruct path as [|y rest].
  - pose proof (path_edge_single x c p). tauto.
  - rewrite IH, edge_AddEdge, path_edge_cons. naive_solver.
Qed.
Lemma wf_addPath g path : wf_graph g → wf_graph (addPath g path).
Proof.
  revert g. induction path as [|x [|y rest] IH]; intros g Hg; [done..|].
  apply (IH (AddEdge g y x)), wf_AddEdge, Hg.
Qed.

Lemma top_addTopSwitch tops f sw f' sw' :
  sw' ∈ default ∅ (addTopSwitch tops f sw !! f') ↔ (f' = f ∧ sw' = sw) ∨ sw' ∈ default (∅ : gset string) (tops !! f').
Proof.
  unfold addTopSwitch. rewrite lookup_insert. case_decide as Hf; simpl; [subst|naive_solver].
  rewrite elem_of_union, elem_of_singleton. naive_solver.
Qed.
Lemma hasParent_spec g v : hasParent g v = true ↔ ∃ p, edge g p v.
Proof.
  unfold hasParent, edge, children. rewrite existsb_elem. split.
  - intros ([p s] & Hp%elem_of_map_to_list & Hv%bool_decide_eq_true). exists p. by rewrite Hp.
  - intros [p Hp]. destruct (g !! p) as [s|] eqn:E; [|by apply elem_of_empty in Hp].
    exists (p, s). split; [by apply elem_of_map_to_list|by apply bool_decide_eq_true].
Qed.
Lemma edge_attach g tops p c :
  edge (attachFabricRoots g tops) p c ↔
  edge g p c ∨ (c ∈ default ∅ (tops !! p) ∧ ¬ ∃ q, edge g q c).
Proof.
  unfold attachFabricRoots.
  assert (∀ f sws acc, edge (foldl (λ acc sw, if negb (hasParent g sw) then AddEdge acc f sw else acc) acc sws) p c
    ↔ edge acc p c ∨ (p = f ∧ c ∈ sws ∧ ¬ ∃ q, edge g q c)) as Hin.
  { intros f sws. induction sws as [|sw sws IH]; intros acc; simpl.
    - rewrite elem_of_nil. tauto.
    - rewrite IH. setoid_rewrite elem_of_cons. pose proof (hasParent_spec g sw) as Hsp.
      destruct (hasParent g sw); simpl; [|rewrite edge_AddEdge]; naive_solver. }
  assert (∀ entries acc, edge (foldl (λ acc entry, foldl (λ acc sw, if negb (hasParent g sw)
      then AddEdge acc entry.1 sw else acc) acc (elements entry.2)) acc entries) p c
    ↔ edge acc p c ∨ (∃ s : gset string, (p, s) ∈ entries ∧ c ∈ s) ∧ ¬ ∃ q, edge g q c) as Hout.
  { induction entries as [|[f s] entries IH]; intros acc; simpl.
    - setoid_rewrite elem_of_nil. naive_solver.
    - rewrite IH, Hin. setoid_rewrite elem_of_cons. setoid_rewrite elem_of_elements. naive_solver. }
  rewrite Hout. setoid_rewrite elem_of_map_to_list.
  destruct (tops !! p) as [s|]; simpl; [naive_solver|]. rewrite elem_of_empty. naive_solver.
Qed.
Lemma wf_attach g tops : wf_graph g → wf_graph (attachFabricRoots g tops).
Proof.
  intros Hg. unfold attachFabricRoots. generalize (map_to_list tops). intros entries.
  assert (∀ f sws acc, wf_graph acc →
    wf_graph (foldl (λ acc sw, if negb (hasParent g sw) then AddEdge acc f sw else acc) acc sws)) as Hin.
  { intros f sws. induction sws as [|sw sws IH]; intros acc Hacc; simpl; [done|].
    apply IH. destruct (hasParent g sw); [done|by apply wf_AddEdge]. }
  assert (∀ acc, wf_graph acc → wf_graph (foldl (λ acc entry, foldl (λ acc sw,
    if negb (hasParent g sw) then AddEdge acc entry.1 sw else acc) acc (elements entry.2)) acc entries)) as Hout;
    [|by apply Hout].
  induction entries as [|[f s] entries IH]; intros acc Hacc; simpl; [done|]. by apply IH, Hin.
Qed.

(** ** What the stages build *)
Section spec.
  Context (labelsByNode : list (string * tier_labels)) (gpuPodsByNode : gmap string (list string)).
  Context (allNodeNames : list string) (fabricByNode : gmap string string).

(** [worker] is a GPU pod bound to a labelled node with the path [bottom :: up]. *)
Definition hosts (worker bottom : string) (up : list string) : Prop :=
  ∃ node labels, (node, labels) ∈ labelsByNode ∧ worker ∈ default [] (gpuPodsByNode !! node) ∧
                 labelsToPath labels = Ok (bottom :: up).
Definition is_placed (worker : string) : Prop := ∃ bottom up, hosts worker bottom up.
(** A node left for the catch-all switch of its fabric. *)
Definition is_unknown (name : string) : Prop := name ∈ allNodeNames ∧ ¬ is_placed name.

Definition switch_edge (p c : string) : Prop :=
  (∃ up, hosts c p up) ∨ (∃ w bottom up, hosts w bottom up ∧ path_edge (bottom :: up) c p).
Definition unknown_edge (p c : string) : Prop :=
  is_unknown c ∧ p = unknownSwitchName (fabricOf fabricByNode c).
Definition top_of (f sw : string) : Prop :=
  (∃ w bottom up, hosts w bottom up ∧ f = fabricOf fabricByNode w ∧ sw = List.last up bottom) ∨
  (∃ name, is_unknown name ∧ f = fabricOf fabricByNode name ∧ sw = unknownSwitchName f).

Record builds (b : builder) (E : string → string → Prop) (P : string → Prop) (T : string → string → Prop) : Prop := {
  builds_wf : wf_graph (b_graph b);
  builds_edge : ∀ p c, edge (b_graph b) p c ↔ E p c;
  builds_placed : ∀ w, w ∈ b_placed b ↔ P w;
  builds_tops : ∀ f sw, sw ∈ default ∅ (b_tops b !! f) ↔ T f sw
}.
Lemma builds_empty : builds (Builder ∅ ∅ ∅) (λ _ _, False) (λ _, False) (λ _ _, False).
Proof.
  split; simpl; [done|..]; unfold edge, children; intros; rewrite ?lookup_empty; simpl; by rewrite elem_of_empty.
Qed.
Lemma builds_ext b E P T E' P' T' :
  builds b E P T → (∀ p c, E p c ↔ E' p c) → (∀ w, P w ↔ P' w) → (∀ f s, T f s ↔ T' f s) →
  builds b E' P' T'.
Proof. intros [W1 H1 H2 H3] HE HP HT. split; [done|..]; intros; rewrite ?H1, ?H2, ?H3; auto. Qed.
Lemma builds_workers b E P T bottom top ws :
  builds b E P T →
  builds (foldl (placeWorker fabricByNode bottom top) b ws)
    (λ p c, E p c ∨ (p = bottom ∧ c ∈ ws)) (λ w, P w ∨ w ∈ ws)
    (λ f sw, T f sw ∨ ∃ w, w ∈ ws ∧ f = fabricOf fabricByNode w ∧ sw = top).
Proof.
  revert b E P T. induction ws as [|w ws IH]; intros b E P T Hb; simpl.
  { eapply builds_ext; [exact Hb|..]; intros; setoid_rewrite elem_of_nil; naive_solver. }
  destruct Hb as [W H1 H2 H3].
  assert (builds (placeWorker fabricByNode bottom top b w) (λ p c, E p c ∨ (p = bottom ∧ c = w))
    (λ x, P x ∨ x = w) (λ f sw, T f sw ∨ (f = fabricOf fabricByNode w ∧ sw = top))) as Hw.
  { split; simpl; intros; [by apply wf_AddEdge|..].
    - rewrite edge_AddEdge, H1. naive_solver.
    - rewrite elem_of_union, elem_of_singleton, H2. naive_solver.
    - rewrite top_addTopSwitch, H3. naive_solver. }
  eapply builds_ext; [exact (IH _ _ _ _ Hw)|..]; simpl; intros; setoid_rewrite elem_of_cons; naive_solver.
Qed.
End spec.

Lemma builds_stage2 entries gpu fab :
  builds (stage2 entries gpu fab) (switch_edge entries gpu) (is_placed entries gpu)
    (λ f sw, ∃ w bottom up, hosts entries gpu w bottom up ∧ f = fabricOf fab w ∧ sw = List.last up bottom).
Proof.
  unfold stage2. induction entries as [|[node labels] entries IH] using rev_ind; simpl.
  { eapply builds_ext; [apply builds_empty|..]; unfold switch_edge, is_placed, hosts;
      setoid_rewrite elem_of_nil; naive_solver. }
  rewrite foldl_app. cbn [foldl]. set (b := foldl _ _ entries) in *.
  assert (∀ w bottom up, hosts (entries ++ [(node, labels)]) gpu w bottom up ↔
    hosts entries gpu w bottom up ∨
    (w ∈ default [] (gpu !! node) ∧ labelsToPath labels = Ok (bottom :: up))) as Hh.
  { intros w bottom up. unfold hosts. setoid_rewrite elem_of_app. setoid_rewrite list_elem_of_singleton.
    naive_solver. }
  unfold switch_edge, is_placed, placeNode in *.
  destruct (default [] (gpu !! node)) as [|w0 ws] eqn:Ews.
  { eapply builds_ext; [exact IH|..]; intros; setoid_rewrite Hh; setoid_rewrite elem_of_nil; naive_solver. }
  destruct (labelsToPath labels) as [[|bottom up]|e|s] eqn:Ep;
    try (eapply builds_ext; [exact IH|..]; intros; setoid_rewrite Hh; naive_solver).
  destruct (builds_workers fab b _ _ _ bottom (List.last up bottom) (w0 :: ws) IH) as [W H1 H2 H3].
  assert (w0 ∈ w0 :: ws) as Hw0 by left.
  split; cbn [b_graph b_placed b_tops].
  - by apply wf_addPath.
  - intros p c. rewrite edge_addPath, H1. setoid_rewrite Hh. naive_solver.
  - intros w. rewrite H2. setoid_rewrite Hh. naive_solver.
  - intros f sw. rewrite H3. setoid_rewrite Hh. naive_solver.
Qed.

Lemma builds_stage1 entries gpu all fab :
  builds (stage1 entries gpu all fab)
    (λ p c, switch_edge entries gpu p c ∨ unknown_edge entries gpu all fab p c) (is_placed entries gpu)
    (top_of entries gpu all fab).
Proof.
  unfold stage1. induction all as [|name all IH] using rev_ind.
  { eapply builds_ext; [apply builds_stage2|..]; intros; unfold unknown_edge, top_of, is_unknown;
      try setoid_rewrite elem_of_nil; naive_solver. }
  rewrite foldl_app. cbn [foldl]. set (b := foldl _ _ all) in *. destruct IH as [W H1 H2 H3].
  assert (∀ n, is_unknown entries gpu (all ++ [name]) n ↔
    is_unknown entries gpu all n ∨ (n = name ∧ ¬ is_placed entries gpu name)) as Hunk.
  { intros n. unfold is_unknown. rewrite elem_of_app, list_elem_of_singleton. naive_solver. }
  unfold placeUnknown. case_bool_decide as Hpl; rewrite H2 in Hpl.
  - assert (∀ n, is_unknown entries gpu (all ++ [name]) n ↔ is_unknown entries gpu all n) as Hunk'
      by (intros n; rewrite Hunk; tauto).
    eapply builds_ext; [by split|..]; intros; unfold unknown_edge, top_of; [|done|];
      by setoid_rewrite Hunk'.
  - split; cbn [b_graph b_placed b_tops]; [by apply wf_AddEdge| |done|].
    + intros p c. rewrite edge_AddEdge, H1. unfold unknown_edge. rewrite Hunk.
      clear -Hpl. naive_solver.
    + intros f sw. rewrite top_addTopSwitch, H3. unfold top_of. setoid_rewrite Hunk.
      clear -Hpl. split.
      * intros [[-> ->]|[?|(n & ? & ? & ?)]]; [right; exists name; auto|by left|right; exists n; auto].
      * intros [?|(n & [?|[-> _]] & -> & ->)]; [auto|right; right; exists n; auto|auto].
Qed.

(** Edges below the fabric roots, and all edges. *)
Definition inner_edge entries gpu all fab (p c : string) : Prop :=
  switch_edge entries gpu p c ∨ unknown_edge entries gpu all fab p c.
Lemma Build_edges entries gpu all fab p c :
  edge (BuildTopologyGraph entries gpu all fab) p c ↔
  inner_edge entries gpu all fab p c ∨
  (top_of entries gpu all fab p c ∧ ¬ ∃ q, inner_edge entries gpu all fab q c).
Proof.
  destruct (builds_stage1 entries gpu all fab) as [W H1 H2 H3].
  unfold BuildTopologyGraph. rewrite edge_attach, H1, H3. by setoid_rewrite H1.
Qed.
Lemma Build_wf entries gpu all fab : wf_graph (BuildTopologyGraph entries gpu all fab).
Proof. apply wf_attach. by destruct (builds_stage1 entries gpu all fab). Qed.

(** ** Rendering *)
Lemma trailing_app_stop s c : is_digit c = false → trailingDigitCount (s +:+ String c "") = 0%nat.
Proof.
  intros Hc. induction s as [|d s IH].
  - rewrite str_app_nil_l. simpl. unfold isDigits. simpl. by rewrite Hc.
  - rewrite str_app_cons. cbn [trailingDigitCount].
    assert (isDigits (String d (s +:+ String c "")) = false) as ->; [|done].
    unfold isDigits. simpl. rewrite str_forallb_app. simpl. rewrite Hc. simpl. by rewrite !andb_false_r.
Qed.

(** ** The lines *)
Definition nodes_line (sw : string) (kids : list string) : string :=
  "SwitchName=" +:+ slurmSafeSwitchName sw +:+ " Nodes=" +:+ Join kids ",".
Definition switches_line (sw : string) (kids : list string) : string :=
  "SwitchName=" +:+ slurmSafeSwitchName sw +:+ " Switches=" +:+ Merge (slurmSafeSwitchName <$> kids).
Definition sorted_children (g : graph) (p : string) : list string := merge_sort String.le (elements (children g p)).
Definition has_switches (g : graph) (p : string) : Prop := ∃ c d, edge g p c ∧ edge g c d.
Lemma elem_of_sorted_children g p c : c ∈ sorted_children g p ↔ edge g p c.
Proof. unfold sorted_children. by rewrite elem_of_sort, elem_of_elements. Qed.
Lemma renderSwitch_spec g p s :
  g !! p = Some s → s ≠ ∅ →
  renderSwitch g p s = [switches_line p (sorted_children g p)] ∧ has_switches g p ∨
  renderSwitch g p s = [nodes_line p (sorted_children g p)] ∧ ¬ has_switches g p.
Proof.
  intros Hp Hs. unfold renderSwitch, sorted_children. rewrite decide_False by done.
  assert (children g p = s) as Hc by (unfold children; by rewrite Hp). rewrite Hc.
  destruct (existsb _ _) eqn:E; [left|right]; (split; [done|]).
  - apply existsb_elem in E as (c & Hin & Hne). rewrite elem_of_sort, elem_of_elements in Hin.
    apply negb_true_iff, bool_decide_eq_false in Hne. apply set_choose_L in Hne as [d Hd]. exists c, d. unfold edge. by rewrite Hc.
  - intros (c & d & Hin & Hd). unfold edge in Hin. rewrite Hc in Hin. apply not_true_iff_false in E. apply E, existsb_elem. exists c.
    rewrite elem_of_sort, elem_of_elements. split; [done|]. apply negb_true_iff, bool_decide_eq_false. unfold edge in Hd. set_solver.
Qed.
Lemma line_of g p c :
  edge g p c →
  switches_line p (sorted_children g p) ∈ RenderConfigLines g ∧ has_switches g p ∨
  nodes_line p (sorted_children g p) ∈ RenderConfigLines g ∧ ¬ has_switches g p.
Proof.
  intros Hc. unfold edge, children in Hc. destruct (g !! p) as [s|] eqn:E; simpl in Hc; [|by apply elem_of_empty in Hc].
  assert (∀ l, renderSwitch g p s = [l] → l ∈ RenderConfigLines g) as Hin.
  { intros l Hl. apply elem_of_sort, list_elem_of_bind. exists (p, s). simpl. rewrite Hl. split; [left|by apply elem_of_map_to_list]. }
  destruct (renderSwitch_spec g p s E ltac:(set_solver)) as [[Hl ?]|[Hl ?]]; [left|right]; (split; [by apply Hin|done]).
Qed.
Lemma line_from g line :
  line ∈ RenderConfigLines g → ∃ p, (∃ c, edge g p c) ∧
  (line = switches_line p (sorted_children g p) ∧ has_switches g p ∨ line = nodes_line p (sorted_children g p) ∧ ¬ has_switches g p).
Proof.
  intros Hl. apply elem_of_sort, list_elem_of_bind in Hl as ([p s] & Hl & Hp%elem_of_map_to_list). simpl in Hl.
  destruct (decide (s = ∅)) as [-> |Hs].
  { unfold renderSwitch in Hl. rewrite decide_True in Hl by done. by apply not_elem_of_nil in Hl. }
  exists p. split. { apply set_choose_L in Hs as [c Hc]. exists c. unfold edge, children. by rewrite Hp. }
  destruct (renderSwitch_spec g p s Hp Hs) as [[Hr ?]|[Hr ?]]; rewrite Hr in Hl; apply list_elem_of_singleton in Hl; auto.
Qed.

(** ** Labels that agree *)
Section consistent.
  Context (entries : list (string * tier_labels)) (gpu : gmap string (list string)).
  Context (all : list string) (fab : gmap string string).

Definition a_node (w : string) : Prop := w ∈ all ∨ is_placed entries gpu w.
(** Each switch is on the same tier for all hosts that have it, and switches, nodes, fabrics and catch-all switches have names of their own: [tier] is zero
    for the names that are no labels. *)
Record consistent (tier : string → nat) : Prop := {
  co_tier : ∀ w bottom up i x, hosts entries gpu w bottom up → (bottom :: up) !! i = Some x → tier x = S i;
  co_labels : ∀ w, a_node w → tier w = 0%nat ∧ tier (fabricOf fab w) = 0%nat ∧ tier (unknownSwitchName (fabricOf fab w)) = 0%nat;
  co_names : ∀ w w', a_node w → a_node w' →
    w ≠ fabricOf fab w' ∧ w ≠ unknownSwitchName (fabricOf fab w') ∧ fabricOf fab w ≠ unknownSwitchName (fabricOf fab w') }.
(** The switch a node hangs under; the switch that is above another for some host; the root of a fabric above a switch which has no other above it. *)
Definition attached (w sw : string) : Prop :=
  (∃ up, hosts entries gpu w sw up) ∨ w ∈ all ∧ ¬ is_placed entries gpu w ∧ sw = unknownSwitchName (fabricOf fab w).
Definition above (k p : string) : Prop := ∃ w bottom up, hosts entries gpu w bottom up ∧ path_edge (bottom :: up) k p.
Definition below (k p : string) : Prop := above k p ∨ top_of entries gpu all fab p k ∧ ¬ ∃ q, above k q.

Context (tier : string → nat) (Hco : consistent tier).
Let g := BuildTopologyGraph entries gpu all fab.

Lemma above_tier k p : above k p → tier p = S (tier k) ∧ (1 ≤ tier k)%nat.
Proof.
  intros (w & bottom & up & Hh & l1 & l2 & E).
  assert ((bottom :: up) !! length l1 = Some k) as H1 by (by rewrite E, list_lookup_middle).
  assert ((bottom :: up) !! S (length l1) = Some p) as H2.
  { rewrite E. replace (l1 ++ k :: p :: l2) with ((l1 ++ [k]) ++ p :: l2) by (by rewrite <-app_assoc).
    apply list_lookup_middle. rewrite length_app. simpl. lia. }
  rewrite (co_tier _ Hco _ _ _ _ _ Hh H1), (co_tier _ Hco _ _ _ _ _ Hh H2). lia.
Qed.
Lemma hosts_node w bottom up : hosts entries gpu w bottom up → a_node w ∧ tier bottom = 1%nat.
Proof. intros Hh. split; [right; by exists bottom, up|]. by apply (co_tier _ Hco _ _ _ 0 _ Hh). Qed.
Lemma top_tier f k : top_of entries gpu all fab f k →
  (∃ w, a_node w ∧ f = fabricOf fab w) ∧
  ((1 ≤ tier k)%nat ∧ (∃ w bottom up, hosts entries gpu w bottom up ∧ k = List.last up bottom) ∨
   ∃ w, is_unknown entries gpu all w ∧ k = unknownSwitchName (fabricOf fab w)).
Proof.
  intros [(w & bottom & up & Hh & -> & ->)|(w & Hu & -> & ->)].
  - split; [exists w; split; [by eapply hosts_node|done]|left].
    assert (∃ i, (bottom :: up) !! i = Some (List.last up bottom)) as [i Hi].
    { apply list_elem_of_lookup_1. destruct (exists_last (l := bottom :: up)) as (l & x & Ex); [done|].
      assert (List.last up bottom = List.last (bottom :: up) bottom) as -> by by destruct up. rewrite Ex, List.last_last. apply elem_of_app. right. left. }
    rewrite (co_tier _ Hco _ _ _ _ _ Hh Hi). split; [lia|eauto].
  - split; [exists w; split; [by left; apply Hu|done]|right; eauto].
Qed.
Lemma not_above_node w : a_node w → ¬ (∃ q, above w q) ∧ ¬ ∃ k, above k w.
Proof.
  intros Hw. destruct (co_labels _ Hco w Hw) as [H0 _]. split; intros [q Hq]; apply above_tier in Hq; lia.
Qed.
Lemma top_not_node f k : top_of entries gpu all fab f k → ¬ a_node k.
Proof.
  intros [_ [[Ht _]|(w & [Hw _] & ->)]]%top_tier Hk; [destruct (co_labels _ Hco k Hk); lia|].
  destruct (co_names _ Hco _ w Hk) as (_ & Hne & _); [by left|done].
Qed.
Lemma edge_iff p c : edge g p c ↔ attached c p ∨ below c p.
Proof.
  unfold g. rewrite Build_edges. unfold inner_edge, switch_edge, unknown_edge, is_unknown, attached, below. fold (above c p).
  assert (top_of entries gpu all fab p c → (¬ (∃ q, ((∃ up, hosts entries gpu c q up) ∨ above c q) ∨
    (c ∈ all ∧ ¬ is_placed entries gpu c) ∧ q = unknownSwitchName (fabricOf fab c)) ↔ ¬ ∃ q, above c q)) as Htop.
  { intros Ht. pose proof (top_not_node _ _ Ht) as Hn. split.
    - intros Hno [q Hq]. apply Hno. exists q. by left; right.
    - intros Hno [q [[[up Hh]|Hq]|[[Hin _] _]]]; [|by apply Hno; exists q|]; apply Hn; [right; by exists q, up|by left]. }
  unfold above in *. clear -Htop. tauto.
Qed.
(** The upper ends of the two kinds of edges are different. *)
Lemma attached_kind w p : attached w p → a_node w ∧ (tier p = 1%nat ∨ ∃ w', a_node w' ∧ p = unknownSwitchName (fabricOf fab w')).
Proof.
  intros [[up Hh]|(Hin & _ & ->)]; [by destruct (hosts_node _ _ _ Hh); auto|]. assert (a_node w) by (by left). eauto.
Qed.
Lemma below_kind k p : below k p → (2 ≤ tier p)%nat ∨ ∃ w, a_node w ∧ p = fabricOf fab w.
Proof. intros [[-> ?]%above_tier|[[? _]%top_tier _]]; [left; lia|by right]. Qed.
Lemma kinds_differ w k p : attached w p → below k p → False.
Proof.
  intros [_ [Ht|(w1 & H1 & ->)]]%attached_kind [Hp|(w2 & H2 & Hp)]%below_kind.
  - lia.
  - subst p. destruct (co_labels _ Hco w2 H2) as (_ & Hf & _). lia.
  - destruct (co_labels _ Hco w1 H1) as (_ & _ & Hu). lia.
  - destruct (co_names _ Hco w2 w1 H2 H1) as (_ & _ & Hne). by destruct Hne.
Qed.
Lemma node_childless w c : a_node w → ¬ edge g w c.
Proof.
  intros Hw He. destruct (co_labels _ Hco w Hw) as [H0 _].
  apply edge_iff in He as [[_ [Ht|(w' & H' & ->)]]%attached_kind|[Ht|(w' & H' & ->)]%below_kind].
  - lia.
  - by destruct (co_names _ Hco _ w' Hw H') as (_ & ? & _).
  - lia.
  - by destruct (co_names _ Hco _ w' Hw H') as (? & _).
Qed.
(** Every switch on a path has something below it. *)
Lemma path_child w bottom up x : hosts entries gpu w bottom up → x ∈ bottom :: up → ∃ c, edge g x c.
Proof.
  intros Hh Hx. setoid_rewrite edge_iff. apply elem_of_cons in Hx as [-> |Hx].
  - exists w. left. left. by exists up.
  - apply list_elem_of_split in Hx as (l1 & l2 & E). destruct (exists_last (l := bottom :: l1)) as (l & k & Ek); [done|].
    exists k. right. left. exists w, bottom, up. split; [done|]. exists l, l2. rewrite E, app_comm_cons, Ek. by rewrite <-app_assoc.
Qed.
Lemma below_child k p : below k p → ∃ c, edge g k c.
Proof.
  intros [(w & bottom & up & Hh & l1 & l2 & E)|[Ht _]].
  - apply (path_child w bottom up k Hh). rewrite E. apply elem_of_app. right. left.
  - apply top_tier in Ht as [_ [[_ (w & bottom & up & Hh & ->)]|(w & [Hin Hnp] & ->)]].
    + apply (path_child w bottom up _ Hh). destruct (exists_last (l := bottom :: up)) as (l & x & Ex); [done|].
      assert (List.last up bottom = List.last (bottom :: up) bottom) as -> by by destruct up. rewrite Ex, List.last_last. apply elem_of_app. right. left.
    + exists w. apply edge_iff. left. by right.
Qed.
(** So each switch has one kind of line, with exactly what belongs there. *)
Lemma nodes_line_of w p : attached w p →
  nodes_line p (sorted_children g p) ∈ RenderConfigLines g ∧ ∀ c, c ∈ sorted_children g p ↔ attached c p.
Proof.
  intros Hw. assert (∀ c, edge g p c ↔ attached c p) as He.
  { intros c. rewrite edge_iff. split; [|by left]. intros [?|Hb]; [done|]. by destruct (kinds_differ w c p). }
  split; [|intros c; by rewrite elem_of_sorted_children].
  destruct (line_of g p w) as [[_ (c & d & Hc & Hd)]|[? _]]; [by apply He| |done].
  apply He, attached_kind in Hc as [Hn _]. by apply node_childless in Hd.
Qed.
Lemma switches_line_of k p : below k p →
  switches_line p (sorted_children g p) ∈ RenderConfigLines g ∧ ∀ c, c ∈ sorted_children g p ↔ below c p.
Proof.
  intros Hk. assert (∀ c, edge g p c ↔ below c p) as He.
  { intros c. rewrite edge_iff. split; [|by right]. intros [Ha|?]; [|done]. by destruct (kinds_differ c k p). }
  split; [|intros c; by rewrite elem_of_sorted_children].
  destruct (line_of g p k) as [[? _]|[_ Hno]]; [by apply He|done|]. destruct Hno. destruct (below_child k p Hk) as [d Hd].
  exists k, d. split; [by apply He|done].
Qed.

(** *** The way up *)
Definition linked (lines : list string) (k p : string) : Prop := ∃ kids, k ∈ kids ∧ switches_line p kids ∈ lines.
Lemma below_linked k p : below k p → linked (RenderConfigLines g) k p.
Proof. intros Hb. destruct (switches_line_of k p Hb) as [Hl Hk]. exists (sorted_children g p). split; [by apply Hk|done]. Qed.
Lemma path_length_bound : ∃ n, ∀ w bottom up, hosts entries gpu w bottom up → (length (bottom :: up) ≤ n)%nat.
Proof.
  exists (max_list ((λ e : string * tier_labels, match labelsToPath e.2 with Ok l => length l | _ => 0%nat end) <$> entries)).
  intros w bottom up (node & labels & Hin & _ & Hp). apply max_list_elem_of_le, list_elem_of_fmap. exists (node, labels). simpl. by rewrite Hp.
Qed.
Definition a_root (f : string) : Prop := ∃ w, a_node w ∧ f = fabricOf fab w.
Lemma member_last_or_above w bottom up k : hosts entries gpu w bottom up → k ∈ bottom :: up → k = List.last up bottom ∨ ∃ q, above k q.
Proof.
  intros Hh (l1 & l2 & E)%list_elem_of_split. destruct l2 as [|q l2].
  - left. assert (List.last up bottom = List.last (bottom :: up) bottom) as -> by by destruct up. by rewrite E, List.last_last.
  - right. exists q, w, bottom, up. split; [done|]. by exists l1, l2.
Qed.
Lemma top_reaches w bottom up k :
  hosts entries gpu w bottom up → k ∈ bottom :: up → ¬ (∃ q, above k q) → ∃ root, a_root root ∧ rtc (linked (RenderConfigLines g)) k root.
Proof.
  intros Hh Hk Hno. destruct (member_last_or_above _ _ _ _ Hh Hk) as [Hlast|Hq]; [|done].
  exists (fabricOf fab w). split; [exists w; split; [by eapply hosts_node|done]|]. apply rtc_once, below_linked. right.
  split; [left; by exists w, bottom, up|done].
Qed.
Lemma climb n k :
  (∃ w bottom up, hosts entries gpu w bottom up ∧ k ∈ bottom :: up) →
  (∀ w bottom up, hosts entries gpu w bottom up → (length (bottom :: up) ≤ n + tier k)%nat) →
  ∃ root, a_root root ∧ rtc (linked (RenderConfigLines g)) k root.
Proof.
  revert k. induction n as [|n IH]; intros k (w & bottom & up & Hh & Hk) Hb;
    (destruct (decide (hasParent (b_graph (stage2 entries gpu fab)) k = true)) as [Hd|Hd]; rewrite hasParent_spec in Hd;
     setoid_rewrite (builds_edge _ _ _ _ (builds_stage2 entries gpu fab)) in Hd;
     [destruct Hd as [q [[up' Hw]|Hq]]|]).
  1,4: apply list_elem_of_lookup_1 in Hk as [i Hi]; pose proof (co_tier _ Hco _ _ _ _ _ Hh Hi); destruct (hosts_node _ _ _ Hw) as [Hn _];
    destruct (co_labels _ Hco k Hn); lia.
  1,3: pose proof (above_tier k q Hq) as [Htq _]; assert (∃ w bottom up, hosts entries gpu w bottom up ∧ q ∈ bottom :: up) as Hqm;
    [destruct Hq as (w' & b' & up' & Hh' & l1 & l2 & E); exists w', b', up'; split; [done|]; rewrite E; apply elem_of_app; right; right; left|].
  - destruct Hqm as (w' & b' & up' & Hh' & [i Hi]%list_elem_of_lookup_1). pose proof (co_tier _ Hco _ _ _ _ _ Hh' Hi) as Ht.
    apply lookup_lt_Some in Hi. specialize (Hb _ _ _ Hh'). lia.
  - destruct (IH q Hqm) as (root & Hroot & Hr); [intros; etransitivity; [by eapply Hb|lia]|]. exists root. split; [done|].
    eapply rtc_l; [|exact Hr]. apply below_linked. by left.
  - apply (top_reaches _ _ _ _ Hh Hk). intros [q Hq]. apply Hd. exists q. by right.
  - apply (top_reaches _ _ _ _ Hh Hk). intros [q Hq]. apply Hd. exists q. by right.
Qed.
Lemma node_connected w sw : attached w sw → ∃ root, a_root root ∧ rtc (linked (RenderConfigLines g)) sw root.
Proof.
  intros [[up Hh]|(Hin & Hnp & ->)].
  - destruct path_length_bound as [n Hn]. apply (climb n); [|intros; etransitivity; [by eapply Hn|lia]]. exists w, sw, up. split; [done|left].
  - assert (a_node w) as Hw by (by left). exists (fabricOf fab w). split; [by exists w|]. apply rtc_once, below_linked. right.
    split; [right; by exists w|]. intros [q Hq]. apply above_tier in Hq as [_ Hq]. destruct (co_labels _ Hco w Hw) as (_ & _ & ?). lia.
Qed.
Lemma node_attached w : w ∈ all → ∃ sw, attached w sw.
Proof.
  intros Hw. destruct (decide (w ∈ b_placed (stage1 entries gpu all fab))) as [Hp|Hp];
    rewrite (builds_placed _ _ _ _ (builds_stage1 entries gpu all fab)) in Hp.
  - destruct Hp as (bottom & up & Hh). exists bottom. left. eauto.
  - eexists. by right.
Qed.
(** The lines are those of the switches with something below them. *)
Lemma lines_exact line : line ∈ RenderConfigLines g →
  ∃ sw kids, line = nodes_line sw kids ∧ kids ≠ [] ∧ (∀ k, k ∈ kids ↔ attached k sw) ∨
             line = switches_line sw kids ∧ kids ≠ [] ∧ (∀ k, k ∈ kids ↔ below k sw).
Proof.
  intros (p & [c Hc] & Hl)%line_from. assert (sorted_children g p ≠ []) as Hne.
  { intros E. apply elem_of_sorted_children in Hc. rewrite E in Hc. by apply not_elem_of_nil in Hc. }
  exists p, (sorted_children g p). pose proof Hc as [Ha|Hb]%edge_iff.
  - left. destruct (nodes_line_of c p Ha) as [_ Hk]. destruct Hl as [[_ (c' & d & Hc' & Hd)]|[? _]]; [|done].
    apply elem_of_sorted_children, Hk, attached_kind in Hc' as [Hn _]. by apply node_childless in Hd.
  - right. destruct (switches_line_of c p Hb) as [_ Hk]. destruct Hl as [[? _]|[_ Hno]]; [done|].
    destruct Hno. destruct (below_child c p Hb) as [d Hd]. by exists c, d.
Qed.
Lemma child_line k p : below k p → ∃ kids, nodes_line k kids ∈ RenderConfigLines g ∨ switches_line k kids ∈ RenderConfigLines g.
Proof.
  intros [c [Ha|Hb]%edge_iff]%below_child; exists (sorted_children g k); [left; by apply (nodes_line_of c)|right; by apply (switches_line_of c)].
Qed.
End consistent.

Lemma elem_of_all nodeSets ns i :
  ns ∈ nodeSets → (0 ≤ i < tns_Replicas ns)%Z → tns_Name ns +:+ "-" +:+ Itoa i ∈ collectAllNodeNames nodeSets.
Proof.
  intros Hns Hi. apply list_elem_of_bind. exists ns. split; [|done]. apply list_elem_of_fmap. exists i. split; [done|]. apply elem_of_seqZ. lia.
Qed.

(** C25: the tree topology is complete and connected, when the labels agree.  For the NodeSets of a cluster, labels that can be read and
    pods that can be listed, such that each switch is on the same tier for all hosts that have it, and the names of switches, Slurm nodes, fabrics and
    catch-all switches are all different: topology.conf consists of lines such that
    (1) every Slurm node of every NodeSet (powered down or not) is in the Nodes list of the bottom switch of a labelled
    host that its GPU pod is bound to or, if there is none, of the catch-all switch of its fabric; and from that switch a chain of Switches
    lists leads up to the root of a fabric that some node belongs to;
    (2) every line either lists under Nodes exactly the nodes that belong there, or under Switches exactly the switches that are below it
    for some host, and under a root those that have nothing else above them; and
    (3) every switch in a Switches list has a line of its own.
    Where a switch is on different tiers for different hosts a node can be listed as a switch ([mixed_depth_ex]). *)
Theorem topology_complete unmarshal data listPods blockSize nodeSets entries gpu tier :
  let all := collectAllNodeNames nodeSets in
  let fab := collectFabricByNode nodeSets in
  ParseNodeTopologyLabels unmarshal data = Ok entries → collectScheduledGPUPodsByNode listPods nodeSets = Ok gpu →
  consistent entries gpu all fab tier →
  ∃ lines,
    buildNodeSetTopologyConfig unmarshal (Ok data) listPods SlurmTopologyTree blockSize nodeSets = Ok (Join lines newline +:+ newline) ∧
    (∀ ns i, ns ∈ nodeSets → (0 ≤ i < tns_Replicas ns)%Z →
       let name := tns_Name ns +:+ "-" +:+ Itoa i in
       ∃ sw kids root, attached entries gpu all fab name sw ∧ nodes_line sw kids ∈ lines ∧ name ∈ kids ∧
         rtc (linked lines) sw root ∧ a_root entries gpu all fab root) ∧
    (∀ line, line ∈ lines → ∃ sw kids,
       line = nodes_line sw kids ∧ kids ≠ [] ∧ (∀ k, k ∈ kids ↔ attached entries gpu all fab k sw) ∨
       line = switches_line sw kids ∧ kids ≠ [] ∧ (∀ k, k ∈ kids ↔ below entries gpu all fab k sw)) ∧
    (∀ k sw, below entries gpu all fab k sw → ∃ kids, nodes_line k kids ∈ lines ∨ switches_line k kids ∈ lines).
Proof.
  intros all fab He Hg Hco. exists (RenderConfigLines (BuildTopologyGraph entries gpu all fab)). split_and!.
  - unfold buildNodeSetTopologyConfig. cbn [wrap_err obind]. rewrite Hg. cbn [wrap_err obind String.eqb Ascii.eqb Bool.eqb].
    unfold BuildTopologyConfig. by rewrite He.
  - intros ns i Hns Hi name. destruct (node_attached entries gpu all fab name) as [sw Hsw]; [by apply elem_of_all|].
    destruct (nodes_line_of entries gpu all fab tier Hco name sw Hsw) as [Hl Hk].
    destruct (node_connected entries gpu all fab tier Hco name sw Hsw) as (root & Hroot & Hr).
    eexists sw, _, root. split_and!; [done|exact Hl|by apply Hk|done|done].
  - by eapply lines_exact.
  - by eapply child_line.
Qed.

(** Three workers: two on labelled hosts below one spine, one not running. *)
Definition ex_tiers (s : string) : outcome tier_labels := Ok {["tier-1" := s; "tier-2" := "spine"]}.
Definition ex_sets : list topoNodeSet := [TopoNodeSet "w" 3 "" true].
Definition ex_pods (_ : string) : outcome (list topoPod) := Ok [TopoPod "w-0" "k1"; TopoPod "w-1" "k2"; TopoPod "w-2" ""].
Definition ex_data : list (string * string) := [("k1", "leaf1"); ("k2", "leaf2")].
Definition ex_entries : list (string * tier_labels) :=
  [("k1", {["tier-1" := "leaf1"; "tier-2" := "spine"]}); ("k2", {["tier-1" := "leaf2"; "tier-2" := "spine"]})].
Definition ex_gpu : gmap string (list string) := {["k1" := ["w-0"]; "k2" := ["w-1"]]}.
Definition ex_tier (x : string) : nat := if String.eqb x "spine" then 2 else if HasPrefix x "leaf" then 1 else 0.
Lemma ex_hosts w bottom up :
  hosts ex_entries ex_gpu w bottom up → w ∈ ["w-0"; "w-1"] ∧ (bottom :: up = ["leaf1"; "spine"] ∨ bottom :: up = ["leaf2"; "spine"]).
Proof.
  intros (node & labels & Hin & Hw & Hp). apply elem_of_cons in Hin as [[= -> ->]|[[= -> ->]|[]%not_elem_of_nil]%elem_of_cons].
  - replace (labelsToPath _) with (Ok ["leaf1"; "spine"]) in Hp by (vm_compute; reflexivity). injection Hp as <- <-.
    apply list_elem_of_singleton in Hw as ->. split; [left|by left].
  - replace (labelsToPath _) with (Ok ["leaf2"; "spine"]) in Hp by (vm_compute; reflexivity). injection Hp as <- <-.
    apply list_elem_of_singleton in Hw as ->. split; [right; left|by right].
Qed.
Lemma ex_consistent : consistent ex_entries ex_gpu (collectAllNodeNames ex_sets) (collectFabricByNode ex_sets) ex_tier.
Proof.
  assert (collectAllNodeNames ex_sets = ["w-0"; "w-1"; "w-2"]) as Hall by (vm_compute; reflexivity).
  assert (∀ w, a_node ex_entries ex_gpu (collectAllNodeNames ex_sets) w → w ∈ ["w-0"; "w-1"; "w-2"]) as Hn.
  { rewrite Hall. intros w [?|(bottom & up & [Hw _]%ex_hosts)]; [done|]. set_solver. }
  assert (collectFabricByNode ex_sets = ∅) as -> by (vm_compute; reflexivity). split.
  - intros w bottom up i x [_ [-> | ->]]%ex_hosts; destruct i as [|[|i]]; intros [= <-]; done.
  - intros w Hw%Hn. repeat (apply elem_of_cons in Hw as [-> |Hw]; [by split_and!; vm_compute|]). by apply not_elem_of_nil in Hw.
  - intros w w' Hw%Hn _. change (fabricOf ∅ w') with "root". change (fabricOf ∅ w) with "root".
    repeat (apply elem_of_cons in Hw as [-> |Hw]; [by split_and!|]). by apply not_elem_of_nil in Hw.
Qed.
Lemma topology_complete_witness :
  ∃ lines, buildNodeSetTopologyConfig ex_tiers (Ok ex_data) ex_pods SlurmTopologyTree None ex_sets = Ok (Join lines newline +:+ newline) ∧
    ∃ sw kids root, nodes_line sw kids ∈ lines ∧ "w-1" ∈ kids ∧ rtc (linked lines) sw root.
Proof.
  destruct (topology_complete ex_tiers ex_data ex_pods None ex_sets ex_entries ex_gpu ex_tier) as (lines & Ht & Hn & _).
  - reflexivity.
  - vm_compute. reflexivity.
  - exact ex_consistent.
  - exists lines. split; [exact Ht|]. destruct (Hn (TopoNodeSet "w" 3 "" true) 1%Z) as (sw & kids & root & _ & Hl & Hk & Hr & _);
      [left|simpl; lia|]. exists sw, kids, root. split; [exact Hl|]. split; [exact Hk|exact Hr].
Defined.
Example topology_lines_ex :
  buildNodeSetTopologyConfig ex_tiers (Ok ex_data) ex_pods SlurmTopologyTree None ex_sets =
  Ok (Join [nodes_line "leaf1" ["w-0"]; nodes_line "leaf2" ["w-1"]; switches_line "root" ["spine"; "unknown"];
            switches_line "spine" ["leaf1"; "leaf2"]; nodes_line "unknown" ["w-2"]; ""] newline).
Proof. vm_compute. reflexivity. Qed.

(** ** Properties *)

Lemma hosts_same entries1 entries2 gpu w bottom up :
  same_elements entries1 entries2 → hosts entries1 gpu w bottom up ↔ hosts entries2 gpu w bottom up.
Proof. intros Hs. unfold hosts. by setoid_rewrite Hs. Qed.

Lemma tree_same entries1 entries2 gpu all1 all2 fab :
  same_elements entries1 entries2 → same_elements all1 all2 →
  BuildTopologyGraph entries1 gpu all1 fab = BuildTopologyGraph entries2 gpu all2 fab.
Proof.
  intros He Ha. apply graph_ext; [apply Build_wf..|]. intros p c. rewrite !Build_edges.
  unfold inner_edge, switch_edge, unknown_edge, top_of, is_unknown, is_placed.
  setoid_rewrite (hosts_same entries1 entries2 gpu _ _ _ He). by setoid_rewrite Ha.
Qed.

(** Topology.conf does not depend on iteration order.  Whatever order Go ranges
    over the label map in, in whatever order (or how often) node names are listed, the
    tree that is built and the lines rendered are the same. *)
Theorem topology_order_independent entries1 entries2 gpu all1 all2 fab :
  same_elements entries1 entries2 → same_elements all1 all2 →
  BuildTopologyGraph entries1 gpu all1 fab = BuildTopologyGraph entries2 gpu all2 fab ∧
  renderTree (BuildTopologyGraph entries1 gpu all1 fab) = renderTree (BuildTopologyGraph entries2 gpu all2 fab).
Proof. intros He Ha. by rewrite (tree_same entries1 entries2 gpu all1 all2 fab He Ha). Qed.
Lemma topology_order_independent_witness :
  let n1 := ("node1", {["tier-1" := "switch1"; "tier-2" := "spine1"]} : tier_labels) in
  let n2 := ("node2", {["tier-1" := "switch2"; "tier-2" := "spine1"]} : tier_labels) in
  let gpu : gmap string (list string) := {["node1" := ["w-0"]; "node2" := ["w-1"]]} in
  renderTree (BuildTopologyGraph [n1; n2] gpu ["w-0"; "w-1"; "w-2"] ∅) =
  renderTree (BuildTopologyGraph [n2; n1] gpu ["w-2"; "w-1"; "w-0"] ∅).
Proof.
  intros n1 n2 gpu. apply (topology_order_independent [n1; n2] [n2; n1] gpu ["w-0"; "w-1"; "w-2"] ["w-2"; "w-1"; "w-0"] ∅).
  - apply Permutation_same. constructor.
  - apply Permutation_same. by apply (Permutation_rev ["w-0"; "w-1"; "w-2"]).
Defined.

(** Where a Slurm node is placed.  A node name that is not also the name of a
    switch hangs under the bottom switch of every labelled host its GPU pod is bound
    to, and under nothing else; when there is none it hangs under the catch-all switch
    of its own fabric, and under nothing else. *)
Theorem topology_placement entries gpu all fab (name p : string) :
  name ∈ all →
  (∀ w bottom up, hosts entries gpu w bottom up → name ∉ bottom :: up) →
  (∀ f, name ≠ unknownSwitchName f) →
  edge (BuildTopologyGraph entries gpu all fab) p name ↔
  if decide (name ∈ b_placed (stage1 entries gpu all fab)) then ∃ up, hosts entries gpu name p up
  else p = unknownSwitchName (fabricOf fab name).
Proof.
  intros Hin Hsw Hunk. rewrite Build_edges.
  assert (∀ q, (∃ w bottom up, hosts entries gpu w bottom up ∧ path_edge (bottom :: up) name q) → False) as Hno.
  { intros q (w & bottom & up & Hh & l1 & l2 & E). apply (Hsw w bottom up Hh). rewrite E.
    apply elem_of_app. right. left. }
  assert (∀ f, ¬ top_of entries gpu all fab f name) as Htop.
  { intros f [(w & bottom & up & Hh & _ & E)|(n & _ & _ & E)]; [|by apply (Hunk f)].
    apply (Hsw w bottom up Hh). rewrite E. destruct (exists_last (l := bottom :: up)) as (l & x & Ex); [done|].
    assert (List.last up bottom = List.last (bottom :: up) bottom) as -> by by destruct up.
    rewrite Ex, List.last_last. apply elem_of_app. right. left. }
  unfold inner_edge, switch_edge, unknown_edge, is_unknown.
  case_decide as Hpl; rewrite (builds_placed _ _ _ _ (builds_stage1 entries gpu all fab)) in Hpl.
  - specialize (Hno p). specialize (Htop p). clear -Hpl Hno Htop. tauto.
  - assert (¬ ∃ up, hosts entries gpu name p up) as Hn by (intros [up ?]; apply Hpl; by exists p, up).
    specialize (Hno p). specialize (Htop p). clear -Hpl Hno Htop Hn Hin. tauto.
Qed.
Lemma topology_placement_witness :
  edge (BuildTopologyGraph [("k", {["tier-1" := "leaf"]})] {["k" := ["w-0"]]} ["w-0"; "w-1"] ∅) "unknown" "w-1".
Proof.
  apply (topology_placement [("k", {["tier-1" := "leaf"]})] {["k" := ["w-0"]]} ["w-0"; "w-1"] ∅ "w-1" "unknown").
  - in_list.
  - intros w bottom up (node & labels & Hn & _ & Hl). apply list_elem_of_singleton in Hn. injection Hn as -> ->.
    assert (bottom :: up = ["leaf"]) as -> by (vm_compute in Hl; congruence).
    intros Hx. by apply list_elem_of_singleton in Hx.
  - intros f. unfold unknownSwitchName. destruct (String.eqb f defaultFabric); [done|].
    intros E. assert (HasPrefix "w-1" "w" = HasPrefix (f +:+ ".unknown") "w") as _ by (by rewrite <-E).
    apply (f_equal (λ s, no_char "." s)) in E. unfold no_char in E. rewrite str_forallb_app in E.
    simpl in E. by rewrite andb_false_r in E.
  - case_decide as Hd; [|reflexivity]. exfalso. revert Hd. by vm_compute.
Defined.

(** Switch and block names written to topology.conf never end in more than 18
    digits (the run Slurm's host-list parser could overflow), a name that is short
    enough is left alone, and distinct names that do not end in the terminator stay
    distinct, so a switch keeps one spelling in its own line and in its parent's. *)
Theorem switch_names_safe (name name' : string) :
  (trailingDigitCount (slurmSafeSwitchName name) ≤ maxSafeTrailingDigits)%nat ∧
  ((trailingDigitCount name ≤ maxSafeTrailingDigits)%nat → slurmSafeSwitchName name = name) ∧
  ((∀ s, name ≠ s +:+ slurmNameTerminator) → (∀ s, name' ≠ s +:+ slurmNameTerminator) →
     slurmSafeSwitchName name = slurmSafeSwitchName name' → name = name').
Proof.
  unfold slurmSafeSwitchName. split_and!.
  - destruct (Nat.leb_spec (trailingDigitCount name) maxSafeTrailingDigits); [done|].
    unfold slurmNameTerminator. rewrite trailing_app_stop by done. unfold maxSafeTrailingDigits. lia.
  - intros Hle. by rewrite (proj2 (Nat.leb_le _ _) Hle).
  - intros H1 H2. destruct (_ <=? _)%nat, (_ <=? _)%nat; intros E; [done| | |].
    + by destruct (H1 name').
    + by destruct (H2 name).
    + clear -E. revert name' E. unfold slurmNameTerminator.
      induction name as [|c s IH]; intros [|d t] E; rewrite ?str_app_nil_l, ?str_app_cons in E; [done|..].
      * injection E as _ E. symmetry in E. by apply str_app_eq_nil in E as [_ ?].
      * injection E as _ E. by apply str_app_eq_nil in E as [_ ?].
      * injection E as -> E. f_equal. by apply IH.
Qed.

(** A switch with a switch and a worker below it lists both as switches: the worker is
    then a child no line declares. *)
Lemma mixed_children_line g p sub worker :
  wf_graph g → edge g p sub → edge g p worker → children g sub ≠ ∅ → children g worker = ∅ →
  "SwitchName=" +:+ slurmSafeSwitchName p +:+ " Switches=" +:+
    Merge (slurmSafeSwitchName <$> merge_sort String.le (elements (children g p))) ∈ RenderConfigLines g.
Proof.
  intros Hw Hs Hk Hsub _. unfold edge, children in Hs, Hk. unfold children at 1.
  destruct (g !! p) as [s|] eqn:E; simpl in *; [|by apply elem_of_empty in Hs].
  apply elem_of_sort, list_elem_of_bind. exists (p, s). split; [|by apply elem_of_map_to_list].
  unfold renderSwitch. simpl. rewrite decide_False by (intros ->; by apply elem_of_empty in Hs).
  assert (existsb (λ child, negb (bool_decide (children g child = ∅))) (merge_sort String.le (elements s)) = true)
    as ->; [|left].
  apply existsb_elem. exists sub. rewrite elem_of_sort, elem_of_elements. split; [done|].
  by rewrite bool_decide_false.
Qed.
Example mixed_depth_ex :
  RenderConfigLines (BuildTopologyGraph
    [("k1", {["tier-1" := "s1"]}); ("k2", {["tier-1" := "s0"; "tier-2" := "s1"]})]
    {["k1" := ["w-0"]; "k2" := ["w-1"]]} ["w-0"; "w-1"] ∅) =
  ["SwitchName=root Switches=s1"; "SwitchName=s0 Nodes=w-1"; "SwitchName=s1 Switches=w-0,s0"].
Proof. vm_compute. reflexivity. Qed.

(** ** Blocks *)
Section blocks.
  Context (gpu : gmap string (list string)) (fab : gmap string string).

(** A GPU pod bound to a host labelled with a block. *)
Definition in_block (entries : list (string * tier_labels)) (worker block : string) : Prop :=
  ∃ node labels, (node, labels) ∈ entries ∧ worker ∈ default [] (gpu !! node) ∧
                 labels !! "tier-0" = Some block.
Definition block_member (entries : list (string * tier_labels)) (all : list string) (block w : string) : Prop :=
  in_block entries w block ∨
  (w ∈ all ∧ (¬ ∃ b, in_block entries w b) ∧ block = unknownSwitchName (fabricOf fab w)).

Record fills (b : blocks) (E : string → string → Prop) : Prop := {
  fills_member : ∀ k w, w ∈ default [] (b !! k) ↔ E k w;
  fills_nonempty : ∀ k, b !! k ≠ Some []
}.
Lemma fills_AddNode b E k w : fills b E → fills (AddNode b k w) (λ k' w', (k' = k ∧ w' = w) ∨ E k' w').
Proof.
  intros [H1 H2]. unfold AddNode. split.
  - intros k' w'. rewrite lookup_insert. case_decide; [subst k'|]; simpl.
    + rewrite elem_of_app, list_elem_of_singleton, H1. naive_solver.
    + rewrite H1. naive_solver.
  - intros k'. rewrite lookup_insert. case_decide; [|apply H2]. by destruct (default _ _).
Qed.
Lemma fills_ext b E E' : fills b E → (∀ k w, E k w ↔ E' k w) → fills b E'.
Proof. intros [H1 H2] HE. split; [|done]. intros. by rewrite H1. Qed.

Lemma fills_workers block ws b (placed : gset string) E :
  fills b E →
  let st := foldl (λ '(b, placed) worker, (AddNode b block worker, {[worker]} ∪ placed)) (b, placed) ws in
  fills st.1 (λ k w, E k w ∨ (k = block ∧ w ∈ ws)) ∧ ∀ w, w ∈ st.2 ↔ w ∈ placed ∨ w ∈ ws.
Proof.
  revert b placed E. induction ws as [|w ws IH]; intros b placed E Hb; simpl.
  { split; [eapply fills_ext; [exact Hb|]|]; intros; rewrite elem_of_nil; naive_solver. }
  destruct (IH (AddNode b block w) ({[w]} ∪ placed) _ (fills_AddNode _ _ block w Hb)) as [H1 H2].
  split.
  - eapply fills_ext; [exact H1|]. intros k w'. simpl. rewrite elem_of_cons. naive_solver.
  - intros w'. rewrite H2, elem_of_union, elem_of_singleton, elem_of_cons. naive_solver.
Qed.
Lemma fills_entries entries :
  let st := foldl (placeInBlock gpu) (∅, ∅) entries in
  fills st.1 (λ k w, in_block entries w k) ∧ ∀ w, w ∈ st.2 ↔ ∃ k, in_block entries w k.
Proof.
  induction entries as [|[node labels] entries [IH1 IH2]] using rev_ind.
  { assert (∀ w k, ¬ in_block [] w k) as Hno by (by intros w k (? & ? & ?%not_elem_of_nil & _)).
    split; [split|]; intros; rewrite ?lookup_empty; simpl; rewrite ?elem_of_nil, ?elem_of_empty; naive_solver. }
  rewrite foldl_app. cbn [foldl]. destruct (foldl (placeInBlock gpu) (∅, ∅) entries) as [b placed]. simpl in *.
  assert (∀ w k, in_block (entries ++ [(node, labels)]) w k ↔
    in_block entries w k ∨ (w ∈ default [] (gpu !! node) ∧ labels !! "tier-0" = Some k)) as Hib.
  { intros w k. unfold in_block. setoid_rewrite elem_of_app. setoid_rewrite list_elem_of_singleton. naive_solver. }
  destruct (default [] (gpu !! node)) as [|w0 ws].
  { setoid_rewrite elem_of_nil in Hib. split; [eapply fills_ext; [exact IH1|]|]; naive_solver. }
  destruct (labels !! "tier-0") as [block|]; [|split; [eapply fills_ext; [exact IH1|]|]; naive_solver].
  destruct (fills_workers block (w0 :: ws) b placed _ IH1) as [H1 H2]. split.
  - eapply fills_ext; [exact H1|]. intros k w. rewrite Hib. naive_solver.
  - intros w. rewrite H2, IH2. setoid_rewrite Hib. naive_solver.
Qed.
Lemma fills_Build entries all : fills (BuildTopologyBlocks entries gpu all fab) (block_member entries all).
Proof.
  unfold BuildTopologyBlocks. destruct (fills_entries entries) as [H1 H2].
  destruct (foldl (placeInBlock gpu) (∅, ∅) entries) as [b placed]. simpl in *.
  unfold block_member. induction all as [|name all IH] using rev_ind.
  { eapply fills_ext; [exact H1|]. intros. rewrite elem_of_nil. tauto. }
  rewrite foldl_app. cbn [foldl]. set (b' := foldl _ b all) in *.
  case_bool_decide as Hp; rewrite H2 in Hp.
  - eapply fills_ext; [exact IH|]. intros k w. rewrite elem_of_app, list_elem_of_singleton. naive_solver.
  - eapply fills_ext; [apply fills_AddNode, IH|]. intros k w. simpl.
    rewrite elem_of_app, list_elem_of_singleton. naive_solver.
Qed.
End blocks.

Definition blockLine (entry : string * string) : string :=
  "BlockName=" +:+ slurmSafeSwitchName entry.1 +:+ " Nodes=" +:+ entry.2.
Lemma RenderBlockLines_merged (b : blocks) :
  (∀ k, b !! k ≠ Some []) →
  RenderBlockLines b = merge_sort String.le (blockLine <$> map_to_list (Merge <$> b)).
Proof.
  intros Hne. unfold RenderBlockLines. apply (sort_perm String.le).
  rewrite map_to_list_fmap, <-list_fmap_compose.
  assert (∀ l, (∀ kv, kv ∈ l → kv.2 ≠ []) →
    (l ≫= renderBlock) = (blockLine ∘ prod_map id Merge) <$> l) as Hl.
  { induction l as [|[k ws] l IH]; intros Hk; [done|]. rewrite bind_cons, IH by (intros; apply Hk; by right).
    destruct ws as [|w ws]; [by destruct (Hk (k, []) ltac:(left))|]. done. }
  rewrite Hl; [done|]. intros [k ws] Hk%elem_of_map_to_list Hnil. simpl in Hnil. subst. by apply (Hne k).
Qed.

Lemma blocks_same entries1 entries2 gpu all1 all2 fab blockSize :
  same_elements entries1 entries2 → same_elements all1 all2 →
  renderBlocks blockSize (BuildTopologyBlocks entries1 gpu all1 fab) =
  renderBlocks blockSize (BuildTopologyBlocks entries2 gpu all2 fab).
Proof.
  intros He Ha. destruct (fills_Build gpu fab entries1 all1) as [F1 N1].
  destruct (fills_Build gpu fab entries2 all2) as [F2 N2].
  set (b := BuildTopologyBlocks entries1 gpu all1 fab) in *.
  unfold renderBlocks. do 2 f_equal. rewrite !RenderBlockLines_merged by done. do 3 f_equal.
  apply map_eq. intros k. rewrite !lookup_fmap. specialize (F1 k). specialize (F2 k).
  assert (∀ w, w ∈ default [] (b !! k) ↔ w ∈ default [] (BuildTopologyBlocks entries2 gpu all2 fab !! k)) as Hs.
  { intros w. rewrite F1, F2. unfold block_member, in_block. setoid_rewrite He. by rewrite Ha. }
  specialize (N1 k). specialize (N2 k).
  destruct (b !! k) as [l1|], (_ !! k) as [l2|]; simpl in *; [| | |done].
  - f_equal. by apply Merge_proper.
  - destruct N1. f_equal. apply same_elements_nil. intros x. symmetry. apply Hs.
  - destruct N2. f_equal. apply same_elements_nil. intros x. apply Hs.
Qed.

(** The block topology is complete and does not depend on iteration order.  Every
    Slurm node is a member of some block; a GPU pod on a labelled host is in that
    host's block, every other node in the catch-all block of its fabric; and the text
    rendered is the same for every order of the labels and of the names. *)
Theorem block_topology_sound entries1 entries2 gpu all1 all2 fab blockSize :
  same_elements entries1 entries2 → same_elements all1 all2 →
  let b := BuildTopologyBlocks entries1 gpu all1 fab in
  (∀ name, name ∈ all1 → ∃ k, name ∈ default [] (b !! k)) ∧
  (∀ k w, w ∈ default [] (b !! k) ↔ block_member gpu fab entries1 all1 k w) ∧
  renderBlocks blockSize b = renderBlocks blockSize (BuildTopologyBlocks entries2 gpu all2 fab).
Proof.
  intros He Ha b. destruct (fills_Build gpu fab entries1 all1) as [F1 N1]. fold b in F1, N1.
  split_and!; [|done|by apply blocks_same].
  intros name Hn. setoid_rewrite F1. unfold block_member.
  destruct (fills_entries gpu entries1) as [_ Hp].
  destruct (decide (name ∈ (foldl (placeInBlock gpu) (∅, ∅) entries1).2)) as [Hd|Hd]; rewrite Hp in Hd.
  - destruct Hd as [k Hk]. exists k. by left.
  - eexists. right. done.
Qed.
Lemma block_topology_sound_witness :
  let n1 := ("node1", {["tier-0" := "rack1"]} : tier_labels) in
  let n2 := ("node2", {["tier-0" := "rack2"]} : tier_labels) in
  let gpu : gmap string (list string) := {["node1" := ["w-0"]; "node2" := ["w-1"]]} in
  renderBlocks None (BuildTopologyBlocks [n1; n2] gpu ["w-0"; "w-1"; "w-2"] ∅) =
  renderBlocks None (BuildTopologyBlocks [n2; n1] gpu ["w-2"; "w-1"; "w-0"] ∅).
Proof.
  intros n1 n2 gpu. apply (block_topology_sound [n1; n2] [n2; n1] gpu ["w-0"; "w-1"; "w-2"] ["w-2"; "w-1"; "w-0"] ∅ None).
  - apply Permutation_same. constructor.
  - apply Permutation_same. by apply (Permutation_rev ["w-0"; "w-1"; "w-2"]).
Defined.

(** ** The whole text *)
Lemma Parse_perm unmarshal data1 data2 entries1 :
  data1 ≡ₚ data2 → ParseNodeTopologyLabels unmarshal data1 = Ok entries1 →
  ∃ entries2, ParseNodeTopologyLabels unmarshal data2 = Ok entries2 ∧ entries1 ≡ₚ entries2.
Proof.
  intros Hp. revert entries1. induction Hp as [|[n j] d1 d2 _ IH|[n j] [m k] d|d1 d2 d3 _ IH1 _ IH2]; simpl; intros es Hes.
  - by exists es.
  - destruct (unmarshal j) as [t|e|s]; simpl in *; [|done..].
    destruct (ParseNodeTopologyLabels unmarshal d1) as [l1|e|s] eqn:E1; simpl in *; [|done..]. injection Hes as <-.
    destruct (IH l1 eq_refl) as (l2 & -> & Hl). simpl. eexists. split; [done|by constructor].
  - destruct (unmarshal j), (unmarshal k); simpl in *; [|done..].
    destruct (ParseNodeTopologyLabels unmarshal d); simpl in *; [|done..]. injection Hes as <-.
    eexists. split; [done|constructor].
  - destruct (IH1 es Hes) as (l2 & E2 & H2). destruct (IH2 l2 E2) as (l3 & E3 & H3). exists l3. by rewrite H2.
Qed.

(** The controller never sees a change where there is none.  If topology.conf can be
    built from the labels config map, then Go's order of ranging over it does not reach the
    text: every order succeeds with the same one, for the tree and the block plugin
    alike, so an unchanged cluster is never written again because of the order. *)
Theorem topology_text_deterministic unmarshal data1 data2 listPods plugin blockSize nodeSets text :
  data1 ≡ₚ data2 →
  buildNodeSetTopologyConfig unmarshal (Ok data1) listPods plugin blockSize nodeSets = Ok text →
  buildNodeSetTopologyConfig unmarshal (Ok data2) listPods plugin blockSize nodeSets = Ok text.
Proof.
  intros Hp. unfold buildNodeSetTopologyConfig, BuildBlocksConfig, BuildTopologyConfig. simpl.
  destruct (collectScheduledGPUPodsByNode listPods nodeSets) as [gpu|e|s]; simpl; [|done..].
  destruct (ParseNodeTopologyLabels unmarshal data1) as [l1|e|s] eqn:E1; simpl; [|by destruct (String.eqb _ _)..].
  destruct (Parse_perm unmarshal data1 data2 l1 Hp E1) as (l2 & -> & Hl). simpl.
  destruct (String.eqb plugin SlurmTopologyBlock); intros [= <-]; f_equal.
  - symmetry. apply blocks_same; [by apply Permutation_same|done].
  - f_equal. symmetry. apply tree_same; [by apply Permutation_same|done].
Qed.
(** A decoder for the witness: the text is the name of the leaf switch. *)
Definition leaf_only (json : string) : outcome tier_labels := Ok {["tier-1" := json]}.
Definition one_set : list topoNodeSet := [TopoNodeSet "w" 3 "" true].
Definition bound_pods (_ : string) : outcome (list topoPod) := Ok [TopoPod "w-0" "k1"; TopoPod "w-1" "k2"].
Lemma topology_text_deterministic_witness :
  buildNodeSetTopologyConfig leaf_only (Ok [("k2", "leaf2"); ("k1", "leaf1")]) bound_pods SlurmTopologyTree None one_set =
  Ok (Join ["SwitchName=leaf1 Nodes=w-0"; "SwitchName=leaf2 Nodes=w-1";
            "SwitchName=root Switches=leaf1,leaf2,unknown"; "SwitchName=unknown Nodes=w-2"; ""] newline).
Proof.
  apply (topology_text_deterministic leaf_only [("k1", "leaf1"); ("k2", "leaf2")]); [constructor|].
  vm_compute. reflexivity.
Defined.
