(* ===== verification/TopologyCtl.v ===== *)
(** * Topology controllers

    [internal/controller/topologyconfcontroller]: [nodetopology_controller.go] collects the tier labels of the Kubernetes nodes
    into a ResourceDistribution, which Kruise copies as a ConfigMap into the namespaces of the clusters, and
    [workertopology_controller.go] builds the topology of a cluster from that ConfigMap and publishes it as a ConfigMap with a
    JailedConfig.  The graph itself is in [Topology.v]. *)
From S2P Require Import Prelude GoStrings Kube Naming Effects Reconciler Patchers QuietRuns ConfigTexts Workers ClusterValues NodeSetCtl.
From S2P Require Import Ownership HostList SlurmConfigs Topology.
From Stdlib Require Import Ascii.
From Stdlib Require String.

(** [encoding/json] on maps of strings and on a ConfigMap with only a name and data.  Encoding cannot fail on these. *)
Class JSON := {
  json_map : gmap string string → string;
  json_unmap : string → outcome (gmap string string);
  json_ConfigMap : gmap string string → string;
  json_ConfigMap_Data : string → option (gmap string string) }.
(** ASCII texts, as Kubernetes wants the names and labels of nodes to be, are encoded in ASCII and read back as they were written.  (Of
    other texts Go replaces what is not valid UTF-8.) *)
Definition ascii_text (s : string) : bool := str_forallb (λ c, N_of_ascii c <? 128)%N s.
Definition ascii_map (m : gmap string string) : Prop := map_Forall (λ k v, ascii_text k = true ∧ ascii_text v = true) m.
Class JSONLaws `{JSON} : Prop := {
  json_map_inv : ∀ m, ascii_map m → json_unmap (json_map m) = Ok m;
  json_map_ascii : ∀ m, ascii_map m → ascii_text (json_map m) = true;
  json_ConfigMap_inv : ∀ data, ascii_map data → json_ConfigMap_Data (json_ConfigMap data) = Some data }.

Definition ResourceDistributionNameTopology : string := "topology-soperator".
Definition ConfigMapNameTopologyNodeLabels : string := "topology-node-labels".
Definition ConfigMapNameTopologyConfig : string := "topology-config".
Definition ConfigMapKeyTopologyConfig : string := "topology.conf".
Definition DefaultLimit : nat := 64.

(** ** Requests *)
Definition client_ListAll (k : kind) : M cluster_state (list resource) :=
  request (λ w, (w, Ok (filter (λ o, (o_key o).1.1 = k) (snd <$> map_to_list (w_objects w))))).
(** A list in pages.  The token to continue with stands for what is left of the list as it was at the first request; there is none
    when nothing is left. *)
Definition client_ListPage (k : kind) (limit : nat) (token : option (list resource)) :
    M cluster_state (list resource * option (list resource)) :=
  let page l := (take limit l, match drop limit l with [] => None | rest => Some rest end) in
  match token with
  | Some rest => request (λ w, (w, Ok (page rest)))
  | None => let! l := client_ListAll k in ret (page l)
  end.

(** ** nodetopology_controller.go *)
Section node_topology.
  Context `{JSON}.
  (** The namespace of the operator, the prefix of the labels, and the order in which Go ranges over a map. *)
  Context (Namespace topologyLabelPrefix : string) (order : map_order) (ns_order : gset string → list string).

Definition tierZeroLabel : string := topologyLabelPrefix +:+ "/tier-0".
Definition tierOneLabel : string := topologyLabelPrefix +:+ "/tier-1".
Definition has_label (o : resource) (l : string) : bool := bool_decide (is_Some (o_labels o !! l)).
Definition shouldProcessNode (node : resource) : bool := has_label node tierZeroLabel || has_label node tierOneLabel.
(** [key[strings.LastIndex(key, "/")+1:]]. *)
Definition after_slash (key : string) : string :=
  match LastIndex key "/" with Some i => str_drop (S i) key | None => key end.
Definition ExtractTierLabels (k8sNodeLabels : gmap string string) : gmap string string :=
  foldl (λ m '(key, value), if Contains key (topologyLabelPrefix +:+ "/tier-") then <[after_slash key := value]> m else m)
    ∅ (order k8sNodeLabels).
Definition extractTierData (node : resource) : outcome (gmap string string) :=
  let tierData := ExtractTierLabels (o_labels node) in
  if decide (tierData = ∅) then Err (ErrMsg ("node " +:+ o_name node +:+ " has no tier labels")) else Ok tierData.

Definition rd_key : key := (ResourceDistribution, "", ResourceDistributionNameTopology).
Definition getConfigMapDataFromResourceDistribution (rd : resource) : outcome (gmap string string) :=
  match o_body rd !! ["spec"; "resource"] with
  | Some (VRaw raw) =>
      match json_ConfigMap_Data raw with
      | Some data => Ok data
      | None => Err (ErrMsg "unmarshal ConfigMap from ResourceDistribution")
      end
  | _ => Ok ∅
  end.
Definition getTargetNamespaces : M cluster_state (list string) :=
  let! slurmClusters := wrapM "list SlurmClusters" (client_ListAll SlurmCluster) in
  ret (ns_order ({[Namespace]} ∪ list_to_set (o_namespace <$> slurmClusters))).
Definition targets_path : path := ["spec"; "targets"; "includedNamespaces"; "list"].
(** The resource and the targets are assigned as a whole. *)
Definition distribute (data : gmap string string) (targets : list string) (body : fields) : fields :=
  <[["spec"; "resource"] := VRaw (json_ConfigMap data)]> (<[targets_path := VStrs targets]>
    (filter (λ kv, ¬ ["spec"; "targets"] `prefix_of` kv.1) body)).
Definition updateResourceDistributionWithData (rd : resource) (data : gmap string string) : M cluster_state () :=
  let! targetNamespaces := wrapM "get target namespaces" getTargetNamespaces in
  let! _ := wrapM "update ResourceDistribution" (client_Update (with_body (distribute data targetNamespaces (o_body rd)) rd)) in
  ret tt.
(** Read, change and write the data, again after a conflict. *)
Definition change_data (f : gmap string string → option (gmap string string)) : M cluster_state () :=
  RetryOnConflict 5
    (let! latestRd := wrapM "get latest ResourceDistribution" (client_Get rd_key) in
     let! configMapData := lift (getConfigMapDataFromResourceDistribution latestRd) in
     match f configMapData with
     | None => ret tt
     | Some data => updateResourceDistributionWithData latestRd data
     end).
Definition RemoveNodeFromResourceDistribution (nodeName : string) : M cluster_state () :=
  change_data (λ data, match data !! nodeName with None => None | Some _ => Some (delete nodeName data) end).
Definition UpdateResourceDistribution (nodeName : string) (tierData : gmap string string) : M cluster_state () :=
  change_data (λ data, Some (<[nodeName := json_map tierData]> data)).

(** Only nodes with a label of tier 1. *)
Definition add_node (data : gmap string string) (node : resource) : gmap string string :=
  if has_label node tierOneLabel then
    let tierData := ExtractTierLabels (o_labels node) in
    if decide (tierData = ∅) then data else <[o_name node := json_map tierData]> data
  else data.
(** The pages after the first; [fuel] is the number of nodes left. *)
Fixpoint more_nodes (fuel : nat) (token : option (list resource)) (data : gmap string string) : M cluster_state (gmap string string) :=
  match token, fuel with
  | None, _ => ret data
  | Some _, 0%nat => fail (ErrMsg "no end")
  | Some _, S fuel =>
      let! (items, token) := wrapM "list nodes" (client_ListPage Node DefaultLimit token) in
      more_nodes fuel token (foldl add_node data items)
  end.
Definition collect_nodes : M cluster_state (gmap string string) :=
  let! (items, token) := wrapM "list nodes" (client_ListPage Node DefaultLimit None) in
  more_nodes (length (default [] token)) token (foldl add_node ∅ items).
Definition initializeResourceDistributionWithAllNodes : M cluster_state () :=
  let! configMapData := collect_nodes in
  let! targetNamespaces := wrapM "get target namespaces" getTargetNamespaces in
  wrapM "create ResourceDistribution"
    (client_Create (new ResourceDistribution "" ResourceDistributionNameTopology ∅ ∅ (distribute configMapData targetNamespaces ∅))).
(** The result is used for its name only. *)
Definition GetOrCreateTopologyResourceDistribution : M cluster_state () :=
  let! got := attempt (client_Get rd_key) in
  match got with
  | inl _ => ret tt
  | inr err =>
      if negb (IsNotFound err) then fail (ErrWrap "get ResourceDistribution" err)
      else wrapM "initialize ResourceDistribution with all nodes" initializeResourceDistributionWithAllNodes
  end.
Definition Node_Reconcile (name : string) : M cluster_state () :=
  do! GetOrCreateTopologyResourceDistribution;
  let! got := attempt (client_Get (Node, "", name)) in
  match got with
  | inr err => if IsNotFound err then RemoveNodeFromResourceDistribution name else fail err
  | inl node =>
      if negb (shouldProcessNode node) then ret tt
      else
        let! tierData := lift (extractTierData node) in
        UpdateResourceDistribution name tierData
  end.
(** Which events of nodes ask for a reconciliation. *)
Definition CreateFunc (node : resource) : bool := has_label node tierOneLabel.
Definition NodeUpdateFunc (oldNode newNode : resource) : bool :=
  negb (bool_decide (o_labels newNode !! tierOneLabel = o_labels oldNode !! tierOneLabel)).
(** A change of the clusters is handled at once and asks for nothing more; errors are logged. *)
Definition reconcileSlurmClusterToRequests : M cluster_state () :=
  let! got := attempt (client_Get rd_key) in
  match got with
  | inr _ => ret tt
  | inl rd =>
      match getConfigMapDataFromResourceDistribution rd with
      | Ok data => let! _ := attempt (updateResourceDistributionWithData rd data) in ret tt
      | _ => ret tt
      end
  end.
Definition reconcileResourceDistributionToRequests (name : string) : M cluster_state () :=
  if String.eqb name ResourceDistributionNameTopology
  then let! _ := attempt initializeResourceDistributionWithAllNodes in ret tt else ret tt.
Definition Start : M cluster_state () :=
  let! got := attempt (client_Get rd_key) in
  match got with
  | inl _ => ret tt
  | inr err =>
      if negb (IsNotFound err) then fail (ErrWrap "check ResourceDistribution existence" err)
      else wrapM "create ResourceDistribution" GetOrCreateTopologyResourceDistribution
  end.
End node_topology.

(** ** workertopology_controller.go *)
Definition topoNodeSet_of (n : resource) : topoNodeSet :=
  TopoNodeSet (o_name n) (field_int (o_body n) ["spec"; "replicas"]) (field_str (o_body n) ["spec"; "topology"; "fabric"])
    (bool_at (o_body n) ["spec"; "gpu"; "enabled"]).
Definition topoPod_of (p : resource) : topoPod := TopoPod (o_name p) (field_str (o_body p) ["spec"; "nodeName"]).
Definition renderManagedTopologyConfig (config : string) : string := Render (WithManagedSlurmConfigWarning (AsIsConfig config)).
Definition topology_data (text : string) : fields := {[["data"; ConfigMapKeyTopologyConfig] := VStr text]}.
Definition renderTopologyConfigMap (namespace resourceName config : string) : resource :=
  new ConfigMap namespace resourceName ∅ ∅ (topology_data (renderManagedTopologyConfig config)).
(** The empty list of actions is left out. *)
Definition renderTopologyJailedConfig (namespace resourceName clusterName : string) : resource :=
  new JailedConfig namespace resourceName
    (<["slurm.nebius.ai/jailed-aggregation" := "common"]> {[LabelInstanceKey := clusterName]}) ∅
    (list_to_map [(["spec"; "configMap"; "name"], VStr resourceName);
                  (["spec"; "items"], VRows [[("key", ConfigMapKeyTopologyConfig); ("path", "/etc/slurm/" +:+ ConfigMapKeyTopologyConfig)]])]).

Section worker_topology.
  Context `{JSON}.
  (** The namespace of the operator, [sha256.Sum256] in hexadecimal, the order of a map. *)
  Context (namespace : string) (sha256 : string → string) (order : map_order).

Definition ignoreAlreadyExists (m : M cluster_state ()) : M cluster_state () :=
  let! r := attempt m in
  match r with inl _ => ret tt | inr err => if IsAlreadyExists err then ret tt else fail err end.
Definition createDefaultTopologyResources (ns resourceName clusterName : string) : M cluster_state () :=
  do! wrapM "create ConfigMap" (ignoreAlreadyExists (client_Create (renderTopologyConfigMap ns resourceName "SwitchName=root")));
  wrapM "create JailedConfig" (ignoreAlreadyExists (client_Create (renderTopologyJailedConfig ns resourceName clusterName))).
(** The object, if it exists. *)
Definition get_optional (k : key) (what : string) : M cluster_state (option resource) :=
  let! got := attempt (client_Get k) in
  match got with
  | inl o => ret (Some o)
  | inr err => if IsNotFound err then ret None else fail (ErrWrap what err)
  end.
Definition EnsureWorkerTopologyConfigMap (ns resourceName clusterName : string) : M cluster_state resource :=
  let! configMap := get_optional (ConfigMap, ns, resourceName) "get ConfigMap" in
  let! jailedConfig := get_optional (JailedConfig, ns, resourceName) "get JailedConfig" in
  match configMap, jailedConfig with
  | Some configMap, Some _ => ret configMap
  | _, _ =>
      do! wrapM "create default topology resources" (createDefaultTopologyResources ns resourceName clusterName);
      wrapM "get config map after creation" (client_Get (ConfigMap, ns, resourceName))
  end.
Definition listPods (nodeSet ns : string) : M cluster_state (list resource) :=
  let! pods := client_List Pod ns in
  ret (filter (λ p, o_labels p !! LabelNodeSetKey = Some nodeSet) pods).
(** The pods of each NodeSet; a NodeSet's name is unique in its namespace. *)
Fixpoint pods_of (ns : string) (nodeSets : list topoNodeSet) : M cluster_state (gmap string (list topoPod)) :=
  match nodeSets with
  | [] => ret ∅
  | n :: nodeSets =>
      let! pods := wrapM "list pods for NodeSet" (listPods (tns_Name n) ns) in
      let! rest := pods_of ns nodeSets in
      ret (<[tns_Name n := topoPod_of <$> pods]> rest)
  end.
Definition blockSize_of (cluster : resource) : option Z :=
  match o_body cluster !! ["spec"; "topology"; "blockSize"] with Some (VInt z) => Some z | _ => None end.
Definition plugin_of (cluster : resource) : string := field_str (o_body cluster) ["spec"; "slurmConfig"; "topologyPlugin"].
Definition buildTopology (ns : string) (cluster : resource) (nodeSetList : list resource) : M cluster_state string :=
  let sets := topoNodeSet_of <$> nodeSetList in
  let! cm := wrapM "get node topology labels config map" (client_Get (ConfigMap, namespace, ConfigMapNameTopologyNodeLabels)) in
  let! pods := wrapM "collect scheduled GPU pods" (pods_of ns (filter (λ s, tns_GPUEnabled s = true) sets)) in
  lift (buildNodeSetTopologyConfig json_unmap (Ok (order (strings_at (o_body cm) ["data"])))
          (λ set, Ok (default [] (pods !! set))) (plugin_of cluster) (blockSize_of cluster) sets).
Definition calculateConfigHash (config : string) : string := sha256 (TrimSpace config).
Definition ensureJailedConfig (ns resourceName clusterName : string) : M cluster_state () :=
  let desired := renderTopologyJailedConfig ns resourceName clusterName in
  let! existing := get_optional (o_key desired) "get JailedConfig" in
  match existing with
  | None => wrapM "create JailedConfig" (client_Create desired)
  | Some existing =>
      let! _ := wrapM "update JailedConfig"
                  (client_Update (with_body (copy_field (o_body desired) (o_body existing) ["spec"]) (with_labels (o_labels desired) existing))) in
      ret tt
  end.
(** Writing to the data of a ConfigMap that has none is a write to a nil map. *)
Definition updateTopologyConfigMap (ns resourceName config clusterName : string) : M cluster_state () :=
  let! existing := get_optional (ConfigMap, ns, resourceName) "get ConfigMap" in
  do! match existing with
      | None => wrapM "create ConfigMap" (client_Create (renderTopologyConfigMap ns resourceName config))
      | Some cm =>
          if negb (has_field (o_body cm) ["data"]) then halt "assignment to entry in nil map"
          else
            let! _ := wrapM "update ConfigMap"
                        (client_Update (with_body (<[["data"; ConfigMapKeyTopologyConfig] := VStr (renderManagedTopologyConfig config)]> (o_body cm)) cm)) in
            ret tt
      end;
  wrapM "ensure JailedConfig" (ensureJailedConfig ns resourceName clusterName).
Definition DefaultRequeueResult : RequeueAfter := Some 60%Z.
Definition topology_text (cm : resource) : string := field_str (o_body cm) ["data"; ConfigMapKeyTopologyConfig].
Definition Worker_Reconcile (ns name : string) : M cluster_state RequeueAfter :=
  let! slurmCluster := wrapM "get SlurmCluster" (client_Get (SlurmCluster, ns, name)) in
  if negb (isClusterReconciliationNeeded (plugin_of slurmCluster)) then ret DefaultRequeueResult
  else
    let! namePrefix := wrapM "resolve workload name prefix" (ResolveWorkloadNamePrefix ns name) in
    let topoConfigName := BuildPrefixedName namePrefix ConfigMapNameTopologyConfig in
    let! nodeSetList := wrapM "list NodeSets" (ListNodeSetsByClusterRef ns name) in
    let! existing := wrapM "ensure worker topology ConfigMap" (EnsureWorkerTopologyConfigMap ns topoConfigName name) in
    let! desiredTopology := wrapM "build NodeSet topology config" (buildTopology ns slurmCluster nodeSetList) in
    if String.eqb (TrimSpace desiredTopology) "" then ret DefaultRequeueResult
    else if String.eqb (calculateConfigHash (renderManagedTopologyConfig desiredTopology)) (calculateConfigHash (topology_text existing)) then
      do! wrapM "ensure JailedConfig" (ensureJailedConfig ns topoConfigName name);
      ret DefaultRequeueResult
    else
      do! wrapM "update ConfigMap with topology config" (updateTopologyConfigMap ns topoConfigName desiredTopology name);
      ret DefaultRequeueResult.
End worker_topology.
(** [strings.HasSuffix]. *)
Definition HasSuffix (s suffix : string) : bool :=
  (String.length suffix <=? String.length s)%nat && String.eqb (str_drop (String.length s - String.length suffix) s) suffix.
Definition isTopologyConfigName (name : string) : bool :=
  String.eqb name ConfigMapNameTopologyConfig || HasSuffix name ("-" +:+ ConfigMapNameTopologyConfig).
Definition findSlurmClusterForNodeSet (clusters : list resource) (o : resource) : list (string * string) :=
  (λ c, (o_namespace c, o_name c)) <$> filter (λ c, o_namespace c = o_namespace o) clusters.

(** ** Tier labels *)
Section tier_labels.
  Context `{JSON} (prefix : string) (order : map_order).
  Hypothesis order_perm : ∀ m, order m ≡ₚ map_to_list m.
  Local Abbreviation tiers := (ExtractTierLabels prefix order).

Lemma Contains_tier s : Contains (prefix +:+ "/tier-" +:+ s) (prefix +:+ "/tier-") = true.
Proof.
  rewrite <-str_app_assoc. pose proof (HasPrefix_app (prefix +:+ "/tier-") s) as Hp.
  destruct ((prefix +:+ "/tier-") +:+ s) eqn:E; cbn [Contains]; by rewrite Hp.
Qed.
Lemma ExtractTierLabels_nonempty labels k v :
  labels !! k = Some v → Contains k (prefix +:+ "/tier-") = true → tiers labels ≠ ∅.
Proof.
  intros Hk Hc. assert ((k, v) ∈ order labels) as Hin by (rewrite order_perm; by apply elem_of_map_to_list).
  unfold ExtractTierLabels. revert Hin. generalize (order labels). intros l.
  set (f := λ (m : gmap string string) '(key, value), if Contains key (prefix +:+ "/tier-") then <[after_slash key := value]> m else m).
  assert (∀ l m, m ≠ ∅ → foldl f m l ≠ ∅) as Hne.
  { clear. induction l as [|[k v] l IH]; [done|]. intros m Hm. simpl. apply IH. destruct (Contains _ _); [|done]. apply insert_non_empty. }
  cut (∀ m, (k, v) ∈ l → foldl f m l ≠ ∅); [auto|].
  induction l as [|[k' v'] l IH]; intros m Hin; [by apply elem_of_nil in Hin|]. apply elem_of_cons in Hin as [[= <- <-]|Hin].
  - simpl. rewrite Hc. apply Hne, insert_non_empty.
  - by apply IH.
Qed.
Lemma tiers_nonempty node : shouldProcessNode prefix node = true → tiers (o_labels node) ≠ ∅.
Proof.
  unfold shouldProcessNode, has_label. intros [[v Hv]%bool_decide_eq_true|[v Hv]%bool_decide_eq_true]%orb_true_iff;
    (eapply ExtractTierLabels_nonempty; [exact Hv|]); [apply (Contains_tier "0")|apply (Contains_tier "1")].
Qed.
Lemma tiers_ascii m : ascii_map m → ascii_map (ExtractTierLabels prefix order m).
Proof.
  intros Hm. unfold ExtractTierLabels. assert (∀ k v, (k, v) ∈ order m → ascii_text k = true ∧ ascii_text v = true) as Ho.
  { intros k v. rewrite order_perm, elem_of_map_to_list. apply (Hm k v). }
  revert Ho. generalize (map_Forall_empty (λ k v : string, ascii_text k = true ∧ ascii_text v = true) : ascii_map ∅).
  generalize (∅ : gmap string string). induction (order m) as [|[k v] l IH]; intros acc Hacc Ho; [done|]. cbn [foldl].
  apply IH; [|intros; apply Ho; by right]. destruct (Contains _ _); [|done]. destruct (Ho k v) as [Hk Hv]; [left|].
  apply map_Forall_insert_2; [|done]. split; [|done]. unfold after_slash. destruct (LastIndex k "/"); [|done].
  eapply within_forallb; [apply drop_within|exact Hk].
Qed.
End tier_labels.

(** ** The registry of labels *)
Section registry.
  Context `{JSONLaws} (Namespace prefix : string) (order : map_order) (ns_order : gset string → list string).
  Hypothesis order_perm : ∀ m, order m ≡ₚ map_to_list m.
  Local Abbreviation tiers := (ExtractTierLabels prefix order).
  Local Abbreviation data_of := getConfigMapDataFromResourceDistribution.

(** The namespaces the labels go to. *)
Definition target_namespaces (m : gmap key resource) : list string :=
  ns_order ({[Namespace]} ∪ list_to_set (o_namespace <$> filter (λ o, (o_key o).1.1 = SlurmCluster) (snd <$> map_to_list m))).
Lemma yields_ListAll (k : kind) (Q : list resource → gmap key resource → Prop) (objs : gmap key resource) :
  Q (filter (λ o, (o_key o).1.1 = k) (snd <$> map_to_list objs)) objs → yields (client_ListAll k) Q objs.
Proof. intros HQ w Hq Hf <-. unfold client_ListAll. rewrite quiet_request by done. eexists _, _. split_and!; done. Qed.
Lemma yields_targets (Q : list string → gmap key resource → Prop) (objs : gmap key resource) :
  Q (target_namespaces objs) objs → yields (getTargetNamespaces Namespace ns_order) Q objs.
Proof. intros HQ. by apply yields_bind, yields_wrapM, yields_ListAll, yields_ret. Qed.
Lemma distribute_data (o : resource) data targets b : ascii_map data → data_of (with_body (distribute data targets b) o) = Ok data.
Proof.
  intros Ha. unfold data_of, distribute. cbn [o_body with_body]. rewrite lookup_insert_eq. by rewrite json_ConfigMap_inv.
Qed.
Lemma distribute_targets data targets b : distribute data targets b !! targets_path = Some (VStrs targets).
Proof. unfold distribute. rewrite lookup_insert_ne by done. by rewrite lookup_insert_eq. Qed.
(** The registry after a pass has these data and, if it was written, these targets. *)
Definition registered (m : gmap key resource) (rd : resource) (data : gmap string string) (m' : gmap key resource) : Prop :=
  ∃ rd', m' = <[rd_key := rd']> m ∧ data_of rd' = Ok data ∧
         (rd' = rd ∨ o_body rd' !! targets_path = Some (VStrs (target_namespaces m))).
Lemma yields_change (f : gmap string string → option (gmap string string)) (rd : resource) (data : gmap string string) (objs : gmap key resource) :
  objs !! rd_key = Some rd → data_of rd = Ok data → (∀ data', f data = Some data' → ascii_map data') →
  yields (change_data Namespace ns_order f) (λ _, registered objs rd (default data (f data))) objs.
Proof.
  intros Hrd Hd Ha. apply yields_retry, yields_bind, yields_wrapM. apply (yields_Get _ rd); [done|]. intros Hk.
  apply yields_bind. apply (yields_lift _ data); [done|]. destruct (f data) as [data'|].
  - apply yields_bind, yields_wrapM, yields_targets, yields_bind, yields_wrapM.
    apply (yields_Update _ rd); [cbn; by rewrite Hk|done|]. intros v o. apply yields_ret. exists o. unfold o.
    cbn [o_key with_body]. rewrite Hk. split_and!; [done|by apply (distribute_data rd), Ha|right; apply distribute_targets].
  - apply yields_ret. exists rd. split_and!; [by rewrite insert_id|done|by left].
Qed.
(** What the entry of a node should be, given the entry it has. *)
Definition node_entry (node : option resource) (entry : option string) : option string :=
  match node with
  | None => None
  | Some node => if shouldProcessNode prefix node then Some (json_map (tiers (o_labels node))) else entry
  end.
Lemma partial_alter_entry (data : gmap string string) name e : data !! name = e → partial_alter (λ _, e) name data = data.
Proof. intros He. apply map_eq. intros i. destruct (decide (i = name)) as [->|]; [by rewrite lookup_partial_alter_eq|by rewrite lookup_partial_alter_ne]. Qed.
(** The names and labels of the nodes are ASCII. *)
Definition ascii_nodes (m : gmap key resource) : Prop :=
  ∀ n node, m !! (Node, "", n) = Some node → ascii_text n = true ∧ ascii_map (o_labels node).
Lemma Node_Reconcile_yields (name : string) (rd : resource) (data : gmap string string) (objs : gmap key resource) :
  objs !! rd_key = Some rd → data_of rd = Ok data → ascii_nodes objs → ascii_map data →
  yields (Node_Reconcile Namespace prefix order ns_order name)
    (λ _, registered objs rd (partial_alter (node_entry (objs !! (Node, "", name))) name data)) objs.
Proof.
  intros Hrd Hd Hn Ha. unfold Node_Reconcile, GetOrCreateTopologyResourceDistribution. apply yields_bind, yields_bind, yields_try_Get; [|congruence].
  intros rd0 _ _. apply yields_ret, yields_bind, yields_try_Get.
  - intros node Hnode _. destruct (Hn _ _ Hnode) as [Hname Hlab]. rewrite Hnode. unfold node_entry. destruct (shouldProcessNode prefix node) eqn:Hs; cbn [negb].
    + apply yields_bind. apply (yields_lift _ (tiers (o_labels node))).
      { unfold extractTierData. by rewrite decide_False by (by apply tiers_nonempty). }
      eapply yields_weaken; [apply yields_change; [done..|]|done]. intros data' [= <-]. apply map_Forall_insert_2; [|done].
      split; [done|]. by apply json_map_ascii, tiers_ascii.
    + apply yields_ret. exists rd. split_and!; [by rewrite insert_id| |by left].
      assert (partial_alter (λ entry, entry) name data = data) as -> by (apply map_eq; intros i; destruct (decide (i = name)) as [->|];
        [by rewrite lookup_partial_alter_eq|by rewrite lookup_partial_alter_ne]). done.
  - intros ->. cbn. eapply yields_weaken.
    { apply yields_change; [done..|]. intros data'. destruct (data !! name); [|done]. intros [= <-]. by apply map_Forall_delete. }
    intros [] m'. cbn beta. destruct (data !! name) eqn:E; [done|].
    assert (partial_alter (node_entry None) name data = data) as -> by (by apply partial_alter_entry). done.
Qed.

(** *** Collecting the labels of all nodes *)
Definition next_page (l : list resource) : list resource * option (list resource) :=
  (take DefaultLimit l, match drop DefaultLimit l with [] => None | rest => Some rest end).
Lemma next_page_all l : take DefaultLimit l ++ default [] (next_page l).2 = l.
Proof.
  unfold next_page. cbn [snd]. rewrite <-(take_drop DefaultLimit l) at 3. by destruct (drop DefaultLimit l).
Qed.
Lemma next_page_token l : (next_page l).2 ≠ Some [].
Proof. unfold next_page. cbn [snd]. by destruct (drop DefaultLimit l). Qed.
(** The loop ends: every page but the last makes the list shorter. *)
Lemma yields_more (fuel : nat) (token : option (list resource)) (data : gmap string string) (Q : gmap string string → gmap key resource → Prop) (objs : gmap key resource) :
  (length (default [] token) ≤ fuel)%nat → token ≠ Some [] →
  Q (foldl (add_node prefix order) data (default [] token)) objs → yields (more_nodes prefix order fuel token data) Q objs.
Proof.
  revert token data. induction fuel as [|fuel IH]; intros [rest|] data Hl Hne HQ; cbn [more_nodes]; try by apply yields_ret.
  { destruct rest; [done|]. cbn in Hl. lia. }
  cbn [default id] in Hl, HQ. apply yields_bind, yields_wrapM. intros w Hq Hf <-.
  exists w, (next_page rest). split; [unfold client_ListPage; by rewrite quiet_request|]. split_and!; [done..|].
  unfold next_page at 1. apply IH.
  - destruct rest as [|x rest]; [done|]. cbn [length] in Hl.
    destruct (drop DefaultLimit (x :: rest)) eqn:E; cbn [default length id]; [lia|].
    pose proof (length_drop (x :: rest) DefaultLimit) as Hd. rewrite E in Hd.
    change DefaultLimit with 64%nat in Hd. cbn [length] in Hd |- *. lia.
  - apply next_page_token.
  - rewrite <-foldl_app. pose proof (next_page_all rest) as E. unfold next_page in E. cbn [snd] in E. by rewrite E.
Qed.
Definition nodes_in (m : gmap key resource) : list resource := filter (λ o, (o_key o).1.1 = Node) (snd <$> map_to_list m).
Lemma yields_collect (Q : gmap string string → gmap key resource → Prop) (objs : gmap key resource) :
  Q (foldl (add_node prefix order) ∅ (nodes_in objs)) objs → yields (collect_nodes prefix order) Q objs.
Proof.
  intros HQ. apply yields_bind, yields_wrapM. intros w Hq Hf <-. exists w, (next_page (nodes_in (w_objects w))).
  split; [unfold client_ListPage, client_ListAll, bind; by rewrite quiet_request|]. split_and!; [done..|].
  unfold next_page at 1. apply yields_more; [done|apply next_page_token|].
  rewrite <-foldl_app. pose proof (next_page_all (nodes_in (w_objects w))) as E. unfold next_page in E. cbn [snd] in E. by rewrite E.
Qed.

Lemma add_nodes_lookup l n t :
  NoDup (o_name <$> l) →
  foldl (add_node prefix order) ∅ l !! n = Some t ↔
  ∃ node, node ∈ l ∧ o_name node = n ∧ has_label node (tierOneLabel prefix) = true ∧ t = json_map (tiers (o_labels node)).
Proof.
  induction l as [|x l IH] using rev_ind; intros Hnd.
  { cbn. rewrite lookup_empty. split; [done|]. intros (? & Hin & _). by apply elem_of_nil in Hin. }
  rewrite fmap_app in Hnd. apply NoDup_app in Hnd as (Hl & Hx & _). specialize (IH Hl). rewrite foldl_app. cbn [foldl].
  assert (∀ node, node ∈ l → o_name node ≠ o_name x) as Hne.
  { intros node Hin E. apply (Hx (o_name node)); [by apply list_elem_of_fmap_2|]. rewrite E. left. }
  unfold add_node at 1. destruct (has_label x (tierOneLabel prefix)) eqn:Ht.
  - rewrite decide_False by (apply tiers_nonempty; [done|]; unfold shouldProcessNode; by rewrite Ht, orb_true_r).
    destruct (decide (n = o_name x)) as [->|Hn].
    + rewrite lookup_insert_eq. split.
      * intros [= <-]. exists x. split_and!; try done. apply elem_of_app. right. left.
      * intros (node & [Hin|Hin]%elem_of_app & Hk & _ & ->); [by destruct (Hne node Hin)|]. apply list_elem_of_singleton in Hin as ->. done.
    + rewrite lookup_insert_ne by done. rewrite IH. split; intros (node & Hin & Hk & Hrest); exists node.
      * split; [apply elem_of_app; by left|done].
      * apply elem_of_app in Hin as [Hin|Hin]; [done|]. apply list_elem_of_singleton in Hin as ->. done.
  - rewrite IH. split; intros (node & Hin & Hk & Hlab & Heq); exists node.
    + split; [apply elem_of_app; by left|done].
    + apply elem_of_app in Hin as [Hin|Hin]; [done|]. apply list_elem_of_singleton in Hin as ->. congruence.
Qed.
(** Nodes have no namespace. *)
Definition nodes_cluster_scoped (m : gmap key resource) : Prop := ∀ i o, m !! i = Some o → i.1.1 = Node → i.1.2 = "".
Lemma elem_of_nodes_in m node :
  (∀ i o, m !! i = Some o → o_key o = i) → nodes_cluster_scoped m →
  node ∈ nodes_in m ↔ m !! (Node, "", o_name node) = Some node.
Proof.
  intros Hf Hs. unfold nodes_in. rewrite list_elem_of_filter, list_elem_of_fmap. split.
  - intros (Hk & [i o] & -> & Hin). apply elem_of_map_to_list in Hin. pose proof (Hf _ _ Hin) as Hi. cbn in *. rewrite Hi in Hk.
    pose proof (Hs _ _ Hin Hk) as He. destruct i as [[k ns] nm]. cbn in *. subst. unfold o_name. by rewrite Hi.
  - intros Hn. pose proof (Hf _ _ Hn) as Hi. split; [by rewrite Hi|]. eexists (_, _). split; [|by apply elem_of_map_to_list]. done.
Qed.
Lemma nodes_in_names m :
  (∀ i o, m !! i = Some o → o_key o = i) → nodes_cluster_scoped m → NoDup (o_name <$> nodes_in m).
Proof.
  intros Hf Hs. apply NoDup_fmap_2_strong.
  - intros x y Hx Hy E. apply elem_of_nodes_in in Hx; [|done..]. apply elem_of_nodes_in in Hy; [|done..]. congruence.
  - apply NoDup_filter, NoDup_fmap_2_strong; [|apply NoDup_map_to_list].
    intros [i x] [j y] Hx%elem_of_map_to_list Hy%elem_of_map_to_list E. cbn in E. subst. by rewrite <-(Hf _ _ Hx), <-(Hf _ _ Hy).
Qed.
Lemma Parse_elem data l n m :
  ParseNodeTopologyLabels json_unmap data = Ok l → (n, m) ∈ l ↔ ∃ t, (n, t) ∈ data ∧ json_unmap t = Ok m.
Proof.
  revert l. induction data as [|[n' t'] data IH]; intros l; cbn.
  { intros [= <-]. split; [by intros ?%elem_of_nil|]. by intros (? & ?%elem_of_nil & _). }
  destruct (json_unmap t') as [m'|e|e] eqn:Et; [|done..]. cbn. destruct (ParseNodeTopologyLabels json_unmap data) as [l'| |]; [|done..].
  cbn. intros [= <-]. rewrite elem_of_cons, (IH l' eq_refl). split.
  - intros [[= -> ->]|(t & ? & ?)]; [exists t'; split; [left|done]|exists t; split; [by right|done]].
  - intros (t & [[= -> ->]|Hin]%elem_of_cons & Hu); [left; congruence|right; by exists t].
Qed.
Lemma Parse_total data :
  (∀ n t, (n, t) ∈ data → ∃ m, json_unmap t = Ok m) → ∃ l, ParseNodeTopologyLabels json_unmap data = Ok l.
Proof.
  induction data as [|[n t] data IH]; intros Hd; [by exists []|]. cbn. destruct (Hd n t) as [m ->]; [left|].
  destruct IH as [l ->]; [intros n' t' Hin; apply (Hd n'); by right|]. by eexists.
Qed.

(** The registry follows the node.  With no other client and no failing request, a reconciliation of a node succeeds and changes
    nothing but the node's entry in the registry: a node that is gone has none; a node with a label of tier 0 or 1 has its tier
    labels, as the worker topology controller will read them (names, labels and the entries there are being ASCII); any other entry is left alone, and whenever the registry is written it is
    addressed to the operator's namespace and the namespaces of all clusters. *)
Theorem node_labels_published (w : cluster_state) (name : string) (rd : resource) (data : gmap string string) :
  quiet w → filed w → w_objects w !! rd_key = Some rd → data_of rd = Ok data → ascii_nodes (w_objects w) → ascii_map data →
  let node := w_objects w !! (Node, "", name) in
  ∃ w' rd' data', Node_Reconcile Namespace prefix order ns_order name w = (w', Ok tt) ∧
    w_objects w' = <[rd_key := rd']> (w_objects w) ∧ data_of rd' = Ok data' ∧
    (rd' = rd ∨ o_body rd' !! targets_path = Some (VStrs (target_namespaces (w_objects w)))) ∧
    (∀ n, n ≠ name → data' !! n = data !! n) ∧ (node = None → data' !! name = None) ∧
    (∀ o, node = Some o → shouldProcessNode prefix o = true →
       ∀ l, ParseNodeTopologyLabels json_unmap (order data') = Ok l → (name, tiers (o_labels o)) ∈ l) ∧
    (∀ o, node = Some o → shouldProcessNode prefix o = false → data' = data).
Proof.
  intros Hq Hf Hrd Hd Hn Ha node. destruct (Node_Reconcile_yields name rd data _ Hrd Hd Hn Ha w Hq Hf eq_refl) as (w' & [] & Hr & _ & _ & rd' & Hw & Hd' & Ht).
  eexists w', rd', _. split_and!; [exact Hr|exact Hw|exact Hd'|exact Ht| | | |]; fold node.
  - intros n Hne. by rewrite lookup_partial_alter_ne.
  - intros ->. by rewrite lookup_partial_alter_eq.
  - intros o Hnode Ho l Hl. apply (Parse_elem _ _ _ _ Hl). exists (json_map (tiers (o_labels o))).
    rewrite json_map_inv by (by apply tiers_ascii, (Hn name)). split; [|done].
    rewrite order_perm. apply elem_of_map_to_list. rewrite lookup_partial_alter_eq, Hnode. cbn. by rewrite Ho.
  - intros o -> Ho. apply map_eq. intros i. destruct (decide (i = name)) as [->|Hi]; [|by rewrite lookup_partial_alter_ne].
    rewrite lookup_partial_alter_eq. cbn. by rewrite Ho.
Qed.

(** C27: the labels of the nodes reach the topology.  With no other client and no failing request, when the operator starts and there is no
    registry, it creates one, whatever the number of pages the nodes come in, from which the worker topology controller reads exactly the
    nodes with a label of tier 1, each with its own tier labels.  (The names and labels of nodes are ASCII, as Kubernetes wants them to be.) *)
Theorem labels_roundtrip (w : cluster_state) :
  quiet w → filed w → nodes_cluster_scoped (w_objects w) → ascii_nodes (w_objects w) → w_objects w !! rd_key = None →
  ∃ w' rd data l, Start Namespace prefix order ns_order w = (w', Ok tt) ∧
    w_objects w' = <[rd_key := rd]> (w_objects w) ∧ data_of rd = Ok data ∧
    o_body rd !! targets_path = Some (VStrs (target_namespaces (w_objects w))) ∧
    ParseNodeTopologyLabels json_unmap (order data) = Ok l ∧
    ∀ n t, (n, t) ∈ l ↔
      ∃ node, w_objects w !! (Node, "", n) = Some node ∧ has_label node (tierOneLabel prefix) = true ∧ t = tiers (o_labels node).
Proof.
  intros Hq Hf Hs Hascii Hrd. set (data := foldl (add_node prefix order) ∅ (nodes_in (w_objects w))).
  assert (∀ n t, data !! n = Some t ↔ ∃ node, w_objects w !! (Node, "", n) = Some node ∧ has_label node (tierOneLabel prefix) = true ∧
            t = json_map (tiers (o_labels node))) as Hdata.
  { intros n t. unfold data. rewrite add_nodes_lookup by (by apply nodes_in_names). split.
    - intros (node & Hin & Hn & ?). apply elem_of_nodes_in in Hin; [|done..]. rewrite Hn in Hin. by exists node.
    - intros (node & Hin & ?). assert (o_name node = n) as Hn by (unfold o_name; by rewrite (Hf _ _ Hin)).
      exists node. split; [|done]. apply elem_of_nodes_in; [done..|]. by rewrite Hn. }
  assert (ascii_map data) as Hda.
  { intros n t (node & Hn & _ & ->)%Hdata. destruct (Hascii _ _ Hn). split; [done|]. by apply json_map_ascii, tiers_ascii. }
  assert (yields (Start Namespace prefix order ns_order)
            (λ _ m, ∃ rd, m = <[rd_key := rd]> (w_objects w) ∧ data_of rd = Ok data ∧
                          o_body rd !! targets_path = Some (VStrs (target_namespaces (w_objects w)))) (w_objects w)) as Hy.
  { unfold Start, GetOrCreateTopologyResourceDistribution. apply yields_bind, yields_try_Get; [congruence|]. intros _. cbn.
    apply yields_wrapM, yields_bind, yields_try_Get; [congruence|]. intros _. cbn.
    apply yields_wrapM, yields_bind, yields_collect. apply yields_bind, yields_wrapM, yields_targets, yields_wrapM, yields_Create; [done|].
    intros v. eexists. split; [done|]. split; [|cbn; apply distribute_targets].
    by apply (distribute_data (new ResourceDistribution "" ResourceDistributionNameTopology ∅ ∅ ∅)). }
  destruct (Hy w Hq Hf eq_refl) as (w' & [] & Hr & _ & _ & rd & Hw & Hd & Ht).
  destruct (Parse_total (order data)) as [l Hl].
  { intros n t Hin. rewrite order_perm in Hin. apply elem_of_map_to_list, Hdata in Hin as (node & Hn & _ & ->).
    rewrite json_map_inv by (by apply tiers_ascii, (Hascii n)). by eexists. }
  exists w', rd, data, l. split_and!; [done..|]. intros n t. rewrite (Parse_elem _ _ _ _ Hl). split.
  - intros (u & Hin & Hu). rewrite order_perm in Hin. apply elem_of_map_to_list, Hdata in Hin as (node & Hn & Hlab & ->).
    rewrite json_map_inv in Hu by (by apply tiers_ascii, (Hascii n)). injection Hu as <-. by exists node.
  - intros (node & Hn & Hlab & ->). exists (json_map (tiers (o_labels node))).
    rewrite json_map_inv, order_perm by (by apply tiers_ascii, (Hascii n)). split; [|done]. apply elem_of_map_to_list, Hdata. by exists node.
Qed.
End registry.

(** ** Publishing the topology *)
Section publish.
  Context `{JSON} (namespace : string) (sha256 : string → string) (order : map_order).
  Context (ns name : string).

Lemma yields_optional (k : key) (what : string) (Q : option resource → gmap key resource → Prop) (objs : gmap key resource) :
  ((∀ o, objs !! k = Some o → o_key o = k) → Q (objs !! k) objs) → yields (get_optional k what) Q objs.
Proof.
  intros HQ. apply yields_bind, yields_try_Get.
  - intros o Ho Hk. apply yields_ret. rewrite <-Ho. apply HQ. intros ? [= <-]%(eq_trans (eq_sym Ho)). done.
  - intros Hn. cbn. apply yields_ret. rewrite <-Hn. apply HQ. congruence.
Qed.
Lemma yields_create_if_missing (d : resource) (Q : () → gmap key resource → Prop) (objs : gmap key resource) :
  (∀ o, objs !! o_key d = Some o → Q tt objs) → (objs !! o_key d = None → ∀ v, Q tt (<[o_key d := with_version v d]> objs)) →
  yields (ignoreAlreadyExists (client_Create d)) Q objs.
Proof.
  intros H1 H2. destruct (objs !! o_key d) as [o|] eqn:Ho.
  - intros w Hq Hf <-. exists w, tt. unfold ignoreAlreadyExists, bind, attempt, client_Create. rewrite quiet_request, Ho by done. cbn.
    split_and!; eauto.
  - apply yields_bind, yields_attempt, yields_Create; [done|]. intros v. by apply yields_ret, H2.
Qed.
(** The objects that are published, and what they say. *)
Definition config_key (tn : string) : key := (ConfigMap, ns, tn).
Definition jailed_key (tn : string) : key := (JailedConfig, ns, tn).
Definition agree (tn : string) (m m' : gmap key resource) : Prop :=
  ∀ i, i ≠ config_key tn → i ≠ jailed_key tn → m' !! i = m !! i.
Definition has_data (o : resource) : Prop := has_field (o_body o) ["data"] = true.
Lemma default_has_data tn config : has_data (renderTopologyConfigMap ns tn config).
Proof. unfold has_data, has_field, renderTopologyConfigMap, topology_data. cbn [o_body new]. rewrite map_to_list_singleton. done. Qed.
Definition jailed_ok (tn : string) (jc : resource) : Prop :=
  let desired := renderTopologyJailedConfig ns tn name in
  o_labels jc = o_labels desired ∧ ∀ p, ["spec"] `prefix_of` p → o_body jc !! p = o_body desired !! p.
Lemma yields_jailed (tn : string) (objs : gmap key resource) :
  yields (ensureJailedConfig ns tn name) (λ _ m, ∃ jc, m = <[jailed_key tn := jc]> objs ∧ jailed_ok tn jc) objs.
Proof.
  apply yields_bind, yields_optional. intros Hk. cbn [o_key renderTopologyJailedConfig new] in *. destruct (objs !! _) as [e|] eqn:He.
  - specialize (Hk e eq_refl). apply yields_bind, yields_wrapM. apply (yields_Update _ e); [cbn; by rewrite Hk|done|]. intros v o. apply yields_ret.
    exists o. unfold o. cbn [o_key with_body with_labels]. rewrite Hk. split; [done|]. split; [done|]. intros p Hp. cbn [o_body with_version with_status with_body].
    unfold copy_field. rewrite lookup_union, !map_lookup_filter.
    destruct (o_body (renderTopologyJailedConfig ns tn name) !! p); cbn.
    + rewrite option_guard_True by done. cbn. by destruct (o_body e !! p); cbn; [rewrite option_guard_False by naive_solver|].
    + rewrite (left_id_L None _). destruct (o_body e !! p); [|done]. cbn. by rewrite option_guard_False by naive_solver.
  - apply yields_wrapM, yields_Create; [done|]. intros v. eexists. split; [done|]. by split.
Qed.
(** Both objects exist after the first step, which leaves a ConfigMap that exists as it is. *)
Lemma yields_ensure (tn : string) (objs : gmap key resource) :
  (∀ c, objs !! config_key tn = Some c → has_data c) →
  yields (EnsureWorkerTopologyConfigMap ns tn name)
    (λ c m, agree tn objs m ∧ m !! config_key tn = Some c ∧ is_Some (m !! jailed_key tn) ∧ has_data c ∧
            (∀ c0, objs !! config_key tn = Some c0 → c = c0)) objs.
Proof.
  intros Hd. assert (config_key tn ≠ jailed_key tn) as Hne by done.
  assert (yields (do! wrapM "create default topology resources" (createDefaultTopologyResources ns tn name);
                  wrapM "get config map after creation" (client_Get (config_key tn)))
    (λ c m, agree tn objs m ∧ m !! config_key tn = Some c ∧ is_Some (m !! jailed_key tn) ∧ has_data c ∧
            (∀ c0, objs !! config_key tn = Some c0 → c = c0)) objs) as Hc.
  { apply yields_bind, yields_wrapM, yields_bind, yields_wrapM.
    assert (∀ m c, agree tn objs m → m !! config_key tn = Some c → has_data c → (∀ c0, objs !! config_key tn = Some c0 → c = c0) →
              yields (wrapM "create JailedConfig" (ignoreAlreadyExists (client_Create (renderTopologyJailedConfig ns tn name))))
                (λ _, yields (wrapM "get config map after creation" (client_Get (config_key tn)))
                   (λ c m, agree tn objs m ∧ m !! config_key tn = Some c ∧ is_Some (m !! jailed_key tn) ∧ has_data c ∧
                      (∀ c0, objs !! config_key tn = Some c0 → c = c0))) m) as Hj.
    { intros m c Ha Hm Hdc Hc0. apply yields_wrapM, yields_create_if_missing.
      - intros j Hj. apply yields_wrapM. apply (yields_Get _ c); [done|]. intros _. split_and!; done.
      - intros _ v. apply yields_wrapM. apply (yields_Get _ c); [by rewrite lookup_insert_ne|]. intros _. split_and!; try done.
        + intros i Hi Hi'. by rewrite lookup_insert_ne; [apply Ha|].
        + by rewrite lookup_insert_ne.
        + by rewrite lookup_insert_eq. }
    apply yields_create_if_missing.
    - intros c Hcm. change (objs !! config_key tn = Some c) in Hcm. apply (Hj objs c); [done|done|by apply Hd|congruence].
    - intros Hn v. eapply Hj; [|by rewrite lookup_insert_eq|by apply default_has_data|].
      + intros i Hi Hi'. by rewrite lookup_insert_ne.
      + intros c0 Hc0. cbn in Hn. unfold config_key in Hc0. congruence. }
  apply yields_bind, yields_optional. intros _. apply yields_bind, yields_optional. intros _.
  destruct (objs !! (ConfigMap, ns, tn)) as [c|] eqn:Ec; [|exact Hc].
  destruct (objs !! (JailedConfig, ns, tn)) as [j|] eqn:Ej; [|exact Hc].
  apply yields_ret. split_and!; [done|done|by exists j|by apply Hd|]. intros c0 Hc0. unfold config_key in Hc0. congruence.
Qed.
(** The pods of a NodeSet. *)
Definition set_pods (m : gmap key resource) (set : string) : list topoPod :=
  topoPod_of <$> filter (λ p, o_labels p !! LabelNodeSetKey = Some set) (filter (λ o, (o_key o).1 = (Pod, ns)) (snd <$> map_to_list m)).
Lemma yields_pods (sets : list topoNodeSet) (objs : gmap key resource) :
  yields (pods_of ns sets) (λ pods m, m = objs ∧ ∀ s, s ∈ sets → pods !! tns_Name s = Some (set_pods objs (tns_Name s))) objs.
Proof.
  induction sets as [|s sets IH]; cbn [pods_of]; [apply yields_ret; split; [done|]; by intros ? ?%elem_of_nil|].
  apply yields_bind, yields_wrapM, yields_bind, yields_List, yields_ret, yields_bind. eapply yields_weaken; [exact IH|].
  intros pods m [-> Hp]. apply yields_ret. split; [done|]. intros s' [->|Hs]%elem_of_cons; [by rewrite lookup_insert_eq|].
  destruct (decide (tns_Name s' = tns_Name s)) as [E|E]; [rewrite E; by rewrite lookup_insert_eq|rewrite lookup_insert_ne by done; auto].
Qed.
Lemma CollectWorkerPods_ext (f g : string → outcome (list topoPod)) sets :
  (∀ s, s ∈ sets → f (tns_Name s) = g (tns_Name s)) → CollectWorkerPods f sets = CollectWorkerPods g sets.
Proof.
  induction sets as [|s sets IH]; intros Hfg; [done|]. cbn. rewrite (Hfg s) by left. rewrite IH; [done|]. intros s' Hs. apply Hfg. by right.
Qed.
(** The text for a cluster, from the objects on the server. *)
Definition built_topology (m : gmap key resource) (cluster labels : resource) (nodeSets : list resource) : outcome string :=
  buildNodeSetTopologyConfig json_unmap (Ok (order (strings_at (o_body labels) ["data"]))) (λ set, Ok (set_pods m set)) (plugin_of cluster)
    (blockSize_of cluster) (topoNodeSet_of <$> nodeSets).
Lemma build_total m cluster labels nodeSets l :
  ParseNodeTopologyLabels json_unmap (order (strings_at (o_body labels) ["data"])) = Ok l →
  ∃ text, built_topology m cluster labels nodeSets = Ok text.
Proof.
  intros Hl. unfold built_topology, buildNodeSetTopologyConfig, BuildBlocksConfig, BuildTopologyConfig. cbn.
  assert (∀ sets, ∃ pods, collectScheduledGPUPodsByNode (λ set, Ok (set_pods m set)) sets = Ok pods) as Hp.
  { intros sets. unfold collectScheduledGPUPodsByNode. generalize (filter (λ s, tns_GPUEnabled s = true) sets). intros f.
    assert (∃ pods, CollectWorkerPods (λ set, Ok (set_pods m set)) f = Ok pods) as [pods ->]; [|by eexists].
    induction f as [|s f [pods IH]]; [by eexists|]. cbn. rewrite IH. by eexists. }
  destruct (Hp (topoNodeSet_of <$> nodeSets)) as [pods ->]. cbn. rewrite Hl. destruct (String.eqb _ _); by eexists.
Qed.
Lemma yields_build (cluster labels : resource) (nodeSets : list resource) (text : string) (objs : gmap key resource) :
  objs !! (ConfigMap, namespace, ConfigMapNameTopologyNodeLabels) = Some labels → built_topology objs cluster labels nodeSets = Ok text →
  yields (buildTopology namespace order ns cluster nodeSets) (λ t m, t = text ∧ m = objs) objs.
Proof.
  intros Hl Hb. apply yields_bind, yields_wrapM. apply (yields_Get _ labels); [done|]. intros _.
  apply yields_bind, yields_wrapM. eapply yields_weaken; [apply yields_pods|]. intros pods m [-> Hp]. apply (yields_lift _ text); [|done].
  rewrite <-Hb. unfold built_topology, buildNodeSetTopologyConfig, collectScheduledGPUPodsByNode. cbn.
  rewrite (CollectWorkerPods_ext _ (λ set, Ok (set_pods objs set))); [done|]. intros s Hs. by rewrite Hp.
Qed.
(** The text on the server is the one built, as far as the hash tells, and the JailedConfig takes it to the jail. *)
Definition published (tn text : string) (m : gmap key resource) : Prop :=
  ∃ cm jc, m !! config_key tn = Some cm ∧
    calculateConfigHash sha256 (topology_text cm) = calculateConfigHash sha256 (renderManagedTopologyConfig text) ∧
    m !! jailed_key tn = Some jc ∧ jailed_ok tn jc.
Lemma yields_publish (tn text : string) (c : resource) (objs : gmap key resource) :
  objs !! config_key tn = Some c → has_data c →
  yields (updateTopologyConfigMap ns tn text name) (λ _ m, agree tn objs m ∧ published tn text m) objs.
Proof.
  intros Hc Hd. apply yields_bind, yields_optional. intros Hk. unfold config_key in Hc. rewrite Hc. rewrite Hc in Hk. specialize (Hk c eq_refl).
  unfold has_data in Hd. apply yields_bind. rewrite Hd. cbn [negb]. apply yields_bind, yields_wrapM.
  apply (yields_Update _ c); [cbn; by rewrite Hk|done|]. intros v o. apply yields_ret, yields_wrapM.
  eapply yields_weaken; [apply yields_jailed|]. intros _ m (jc & -> & Hjc). cbn [o_key with_body] in *. rewrite Hk. split.
  - intros i Hi Hi'. by rewrite !lookup_insert_ne.
  - exists o, jc. rewrite lookup_insert_ne by done. unfold config_key. rewrite !lookup_insert_eq. split_and!; [done| |done|done].
    unfold topology_text, o, field_str. cbn [o_body with_version with_status with_body]. by rewrite lookup_insert_eq.
Qed.
Lemma config_not_labels prefix : BuildPrefixedName prefix ConfigMapNameTopologyConfig ≠ ConfigMapNameTopologyNodeLabels.
Proof.
  unfold BuildPrefixedName. destruct (String.eqb prefix ""); [done|]. intros E.
  pose proof (f_equal String.length E) as Hl. rewrite !str_length_app in Hl. cbn in Hl.
  pose proof (str_drop_length_app (prefix +:+ "-") ConfigMapNameTopologyConfig) as Hd. rewrite str_app_assoc, E in Hd.
  rewrite str_length_app in Hd. replace (String.length prefix + String.length "-")%nat with 5%nat in Hd by (cbn; lia). done.
Qed.
Lemma yields_prefix (Q : string → gmap key resource → Prop) (objs : gmap key resource) :
  Q (workload_prefix objs ns name) objs → yields (ResolveWorkloadNamePrefix ns name) Q objs.
Proof. intros HQ w Hq Hf <-. eexists w, _. split; [by apply prefix_quiet|done]. Qed.
Lemma yields_nodeSets (Q : list resource → gmap key resource → Prop) (objs : gmap key resource) :
  Q (nodeSets_of objs ns name) objs → yields (ListNodeSetsByClusterRef ns name) Q objs.
Proof. intros HQ w Hq Hf <-. eexists w, _. split; [by apply nodeSets_quiet|done]. Qed.
Lemma Worker_yields (cluster labels : resource) (l : list (string * tier_labels)) (objs : gmap key resource) :
  let tn := BuildPrefixedName (workload_prefix objs ns name) ConfigMapNameTopologyConfig in
  objs !! (SlurmCluster, ns, name) = Some cluster → isClusterReconciliationNeeded (plugin_of cluster) = true →
  objs !! (ConfigMap, namespace, ConfigMapNameTopologyNodeLabels) = Some labels →
  ParseNodeTopologyLabels json_unmap (order (strings_at (o_body labels) ["data"])) = Ok l →
  (∀ c, objs !! config_key tn = Some c → has_data c) →
  yields (Worker_Reconcile namespace sha256 order ns name)
    (λ res m, res = Some 60%Z ∧ agree tn objs m ∧
       ∃ m1 text, agree tn objs m1 ∧ built_topology m1 cluster labels (nodeSets_of objs ns name) = Ok text ∧
         if decide (TrimSpace text = "") then ∀ c, objs !! config_key tn = Some c → m !! config_key tn = Some c else published tn text m) objs.
Proof.
  intros tn Hcl Hn Hlab Hp Hd. apply yields_bind, yields_wrapM. apply (yields_Get _ cluster); [done|]. intros _. rewrite Hn. cbn [negb].
  apply yields_bind, yields_wrapM, yields_prefix, yields_bind, yields_wrapM, yields_nodeSets, yields_bind, yields_wrapM. fold tn.
  eapply yields_weaken; [by apply yields_ensure|]. intros c m1 (Ha & Hc & [j Hj] & Hdc & Hc0).
  destruct (build_total m1 cluster labels (nodeSets_of objs ns name) l Hp) as [text Ht].
  apply yields_bind, yields_wrapM. eapply yields_weaken.
  { apply (yields_build _ labels _ text); [|exact Ht]. rewrite Ha; [done| |done].
    unfold config_key. intros [= _ E]. by destruct (config_not_labels (workload_prefix objs ns name)). }
  intros t m [-> ->]. destruct (String.eqb_spec (TrimSpace text) "") as [E|E].
  { apply yields_ret. split_and!; [done|done|]. exists m1, text. split_and!; [done|done|]. rewrite decide_True by done.
    intros c0 H0. by rewrite Hc, (Hc0 c0 H0). }
  destruct (String.eqb_spec (calculateConfigHash sha256 (renderManagedTopologyConfig text)) (calculateConfigHash sha256 (topology_text c))) as [Eh|Eh].
  - apply yields_bind, yields_wrapM. eapply yields_weaken; [apply yields_jailed|]. intros _ m (jc & -> & Hjc). apply yields_ret.
    split_and!; [done|intros i Hi Hi'; by rewrite lookup_insert_ne; [apply Ha|]|]. exists m1, text. split_and!; [done|done|].
    rewrite decide_False by done. exists c, jc. rewrite lookup_insert_ne by done. by rewrite lookup_insert_eq.
  - apply yields_bind, yields_wrapM. eapply yields_weaken; [by apply (yields_publish tn text c)|]. intros _ m [Ha' Hpub]. apply yields_ret.
    split_and!; [done|intros i Hi Hi'; by rewrite Ha', Ha|]. exists m1, text. split_and!; [done|done|]. by rewrite decide_False.
Qed.

(** C26: the topology is published.  With no other client and no failing request, for a cluster with a topology plugin, node labels that can
    be read and no topology ConfigMap yet or one that has data, a reconciliation succeeds, asks to be repeated in a minute, and changes only the cluster's
    topology ConfigMap and JailedConfig.  It
    builds the text from the NodeSets, labels and pods on the server; when it is not blank, the ConfigMap afterwards has it (as
    far as SHA-256 tells) and the JailedConfig is the one that takes it to the jail; when it is blank, a ConfigMap that
    exists keeps its text.  With a ConfigMap that has no data the reconciliation panics ([no_data_panics]). *)
Theorem topology_published (w : cluster_state) (cluster labels : resource) (l : list (string * tier_labels)) :
  let m := w_objects w in
  let tn := BuildPrefixedName (workload_prefix m ns name) ConfigMapNameTopologyConfig in
  quiet w → filed w → m !! (SlurmCluster, ns, name) = Some cluster → isClusterReconciliationNeeded (plugin_of cluster) = true →
  m !! (ConfigMap, namespace, ConfigMapNameTopologyNodeLabels) = Some labels →
  ParseNodeTopologyLabels json_unmap (order (strings_at (o_body labels) ["data"])) = Ok l →
  (∀ c, m !! config_key tn = Some c → has_data c) →
  ∃ w' m1 text, Worker_Reconcile namespace sha256 order ns name w = (w', Ok (Some 60%Z)) ∧
    agree tn m (w_objects w') ∧ agree tn m m1 ∧ built_topology m1 cluster labels (nodeSets_of m ns name) = Ok text ∧
    if decide (TrimSpace text = "") then ∀ c, m !! config_key tn = Some c → w_objects w' !! config_key tn = Some c
    else published tn text (w_objects w').
Proof.
  intros m tn Hq Hf Hcl Hn Hl Hp Hd. destruct (Worker_yields cluster labels l m Hcl Hn Hl Hp Hd w Hq Hf eq_refl)
    as (w' & res & Hr & _ & _ & -> & Ha & m1 & text & Ha1 & Ht & Hpub). by exists w', m1, text.
Qed.
End publish.

(** ** Two nodes and a cluster *)
Global Instance ex_json : JSON :=
  {| json_map := example_marshal; json_unmap := λ s, match example_unmarshal s with Some m => Ok m | None => Err (ErrMsg "json") end;
     json_ConfigMap := example_marshal; json_ConfigMap_Data := example_unmarshal |}.
Lemma example_unmarshal_marshal m : example_unmarshal (example_marshal m) = Some m.
Proof.
  unfold example_marshal, example_unmarshal. assert (∀ p, unbits (bits p) = p) as -> by (induction p; simpl; congruence). apply decode_encode.
Qed.
Global Instance ex_json_laws : JSONLaws.
Proof.
  split; intros m _; cbn; [by rewrite example_unmarshal_marshal| |by rewrite example_unmarshal_marshal].
  unfold example_marshal. generalize (encode m). by induction p.
Qed.
Lemma ascii_node_elem l :
  Forall (λ o, ascii_text (o_name o) = true ∧ ascii_map (o_labels o)) l → ascii_nodes (list_to_map ((λ o, (o_key o, o)) <$> l)).
Proof.
  intros Hl n node Hn. apply elem_of_list_to_map_2, list_elem_of_fmap in Hn as (x & [= Hk ->] & Hx). rewrite Forall_forall in Hl.
  destruct (Hl x Hx) as [Hname ?]. unfold o_name in Hname. by rewrite <-Hk in Hname.
Qed.
Definition ex_node (name leaf : string) : resource :=
  Obj (Node, "", name) 1 None {["t/tier-1" := leaf; "zone" := "a"]} ∅ ∅ ∅ ∅.
Definition ex_topo_cluster : resource :=
  Obj (SlurmCluster, "ns", "c") 1 None ∅ ∅ ∅ {[["spec"; "slurmConfig"; "topologyPlugin"] := VStr "topology/tree"]} ∅.
Definition ex_set : resource :=
  Obj (NodeSet, "ns", "w") 1 None ∅ ∅ ∅
    (list_to_map [(["spec"; "clusterName"], VStr "c"); (["spec"; "replicas"], VInt 2); (["spec"; "gpu"; "enabled"], VBool true)]) ∅.
Definition ex_pod (name node : string) : resource :=
  Obj (Pod, "ns", name) 1 None {[LabelNodeSetKey := "w"]} ∅ ∅ {[["spec"; "nodeName"] := VStr node]} ∅.
Definition world_of (l : list resource) : cluster_state := World 10 (list_to_map ((λ o, (o_key o, o)) <$> l)) [].
Lemma world_of_elem l i o : w_objects (world_of l) !! i = Some o → o ∈ l ∧ o_key o = i.
Proof. intros Hi. apply elem_of_list_to_map_2, list_elem_of_fmap in Hi as (x & [= -> ->] & ?). done. Qed.
Lemma world_of_filed l : filed (world_of l).
Proof. intros i o Hi. by apply world_of_elem in Hi as []. Qed.
Definition ex_nodes : cluster_state := world_of [ex_node "k1" "leaf1"; ex_node "k2" "leaf2"; ex_topo_cluster].
Lemma ex_scoped : nodes_cluster_scoped (w_objects ex_nodes).
Proof.
  intros i o [Hx <-]%world_of_elem Hk. repeat (apply elem_of_cons in Hx as [->|Hx]; [done|]). by apply elem_of_nil in Hx.
Qed.
Lemma ex_ascii name leaf : ascii_text name = true → ascii_text leaf = true → ascii_text (o_name (ex_node name leaf)) = true ∧ ascii_map (o_labels (ex_node name leaf)).
Proof. intros. split; [done|]. apply map_Forall_insert_2; [done|]. by apply map_Forall_singleton. Qed.
Lemma ex_nodes_ascii : ascii_nodes (w_objects ex_nodes).
Proof. apply ascii_node_elem. repeat apply Forall_cons_2; [by apply ex_ascii|by apply ex_ascii|by split|constructor]. Qed.
Lemma labels_roundtrip_witness :
  ∃ w' rd data l, Start "op" "t" map_to_list elements ex_nodes = (w', Ok tt) ∧ w_objects w' = <[rd_key := rd]> (w_objects ex_nodes) ∧
    getConfigMapDataFromResourceDistribution rd = Ok data ∧
    o_body rd !! targets_path = Some (VStrs (target_namespaces "op" elements (w_objects ex_nodes))) ∧
    ParseNodeTopologyLabels json_unmap (map_to_list data) = Ok l ∧
    ∀ n t, (n, t) ∈ l ↔ ∃ node, w_objects ex_nodes !! (Node, "", n) = Some node ∧ has_label node (tierOneLabel "t") = true ∧
                                t = ExtractTierLabels "t" map_to_list (o_labels node).
Proof.
  exact (labels_roundtrip "op" "t" map_to_list elements (λ m, Permutation_refl _) ex_nodes eq_refl (world_of_filed _) ex_scoped
    ex_nodes_ascii eq_refl).
Defined.
Definition ex_registry : resource :=
  new ResourceDistribution "" ResourceDistributionNameTopology ∅ ∅ (distribute {["k9" := json_map {["tier-1" := "leaf9"]}]} ["op"] ∅).
(** A node that is gone loses its entry, and one with labels gets one. *)
Lemma node_labels_published_witness :
  let w := world_of [ex_node "k1" "leaf1"; ex_topo_cluster; ex_registry] in
  ∃ w' rd' data', Node_Reconcile "op" "t" map_to_list elements "k1" w = (w', Ok tt) ∧ w_objects w' !! rd_key = Some rd' ∧
    getConfigMapDataFromResourceDistribution rd' = Ok data' ∧ is_Some (data' !! "k9").
Proof.
  destruct (node_labels_published "op" "t" map_to_list elements (λ m, Permutation_refl _)
    (world_of [ex_node "k1" "leaf1"; ex_topo_cluster; ex_registry]) "k1" ex_registry {["k9" := json_map {["tier-1" := "leaf9"]}]}
    eq_refl (world_of_filed _) eq_refl) as (w' & rd' & data' & Hr & Hw & Hd & _ & Ho & _).
  - apply (distribute_data (new ResourceDistribution "" ResourceDistributionNameTopology ∅ ∅ ∅)). by apply map_Forall_singleton.
  - apply ascii_node_elem. repeat apply Forall_cons_2; [by apply ex_ascii|by split|by split|constructor].
  - by apply map_Forall_singleton.
  - exists w', rd', data'. split_and!; [exact Hr|rewrite Hw; apply lookup_insert_eq|exact Hd|].
    rewrite Ho by done. by eexists.
Defined.
(** The entry of a node that loses its labels stays. *)
Lemma stale_labels_kept `{JSON} (Namespace prefix name : string) (order : map_order) (ns_order : gset string → list string) (w : cluster_state)
    (rd node : resource) :
  quiet w → w_objects w !! rd_key = Some rd → w_objects w !! (Node, "", name) = Some node → shouldProcessNode prefix node = false →
  Node_Reconcile Namespace prefix order ns_order name w = (w, Ok tt).
Proof.
  intros Hq Hrd Hn Hs. unfold Node_Reconcile, GetOrCreateTopologyResourceDistribution, bind, attempt. rewrite !Get_quiet, Hrd by done. cbn.
  rewrite Get_quiet, Hn by done. by rewrite Hs.
Qed.
(** A node with a label of tier 0 only is taken up by a reconciliation, but nothing asks for one and it is not collected at the start. *)
Example tier_zero_unwatched :
  let node := Obj (Node, "", "k1") 2 None {["t/tier-0" := "nvl0"]} ∅ ∅ ∅ ∅ in
  shouldProcessNode "t" node = true ∧ CreateFunc "t" node = false ∧ add_node "t" map_to_list ∅ node = ∅.
Proof. repeat split. Qed.

Definition ex_labels (labels : fields) : resource :=
  Obj (ConfigMap, "op", ConfigMapNameTopologyNodeLabels) 3 None ∅ ∅ ∅ labels ∅.
Definition ex_world (labels : fields) (more : list resource) : cluster_state :=
  world_of ([ex_topo_cluster; ex_set; ex_pod "w-0" "k1"; ex_pod "w-1" ""; ex_labels labels] ++ more).
Definition ex_tn : string := "c-topology-config".
Lemma topology_published_witness :
  ∃ w' m1 text, Worker_Reconcile "op" id map_to_list "ns" "c" (ex_world ∅ []) = (w', Ok (Some 60%Z)) ∧
    built_topology map_to_list "ns" m1 ex_topo_cluster (ex_labels ∅) (nodeSets_of (w_objects (ex_world ∅ [])) "ns" "c") = Ok text ∧
    if decide (TrimSpace text = "") then ∀ c, w_objects (ex_world ∅ []) !! config_key "ns" ex_tn = Some c → w_objects w' !! config_key "ns" ex_tn = Some c
    else published id "ns" "c" ex_tn text (w_objects w').
Proof.
  destruct (topology_published "op" id map_to_list "ns" "c" (ex_world ∅ []) ex_topo_cluster (ex_labels ∅) []
    eq_refl (world_of_filed _)) as (w' & m1 & text & Hr & _ & _ & Ht & Hp).
  - reflexivity.
  - reflexivity.
  - reflexivity.
  - reflexivity.
  - intros c [Hc Hk]%world_of_elem. repeat (apply elem_of_cons in Hc as [->|Hc]; [done|]). by apply elem_of_nil in Hc.
  - exists w', m1, text. split_and!; [exact Hr|exact Ht|]. exact Hp.
Defined.
Example topology_text_ex :
  (λ r, match r with (w', Ok _) => topology_text <$> w_objects w' !! config_key "ns" ex_tn | _ => None end)
    (Worker_Reconcile "op" id map_to_list "ns" "c" (ex_world {[["data"; "k1"] := VStr (json_map {["tier-1" := "leaf1"]})]} [])) =
  Some (renderManagedTopologyConfig (Join ["SwitchName=leaf1 Nodes=w-0"; "SwitchName=root Switches=leaf1,unknown"; "SwitchName=unknown Nodes=w-1"; ""] newline)).
Proof. vm_compute. reflexivity. Qed.
(** A ConfigMap without data makes the reconciliation panic. *)
Example no_data_panics :
  (Worker_Reconcile "op" id map_to_list "ns" "c"
     (ex_world ∅ [Obj (ConfigMap, "ns", ex_tn) 3 None ∅ ∅ ∅ ∅ ∅; renderTopologyJailedConfig "ns" ex_tn "c"])).2 =
  Halt "assignment to entry in nil map".
Proof. vm_compute. reflexivity. Qed.
