(* ===== verification/Rebooter.v ===== *)
(** * The rebooter

    [internal/rebooter/reconcile.go]: an agent on every node that drains and reboots
    it when the conditions on the Node object ask for it, and undrains it after the
    reboot.

    The world is the Node on the API server, the clock, the other clients (which may
    change the Node before any request) and the log of what was written to the Node and of the reboots.  The reconciler's
    own copy of the Node is a value that every call returns afresh, as the code
    overwrites it with the server's answer. *)
From S2P Require Import Prelude GoStrings Effects Kube.
From Stdlib Require String.

(** ** The world *)
Record rb_event := RbEvent { ev_elapsed : Z; ev_others : KNode → KNode; ev_fault : option gerror }.
(** A patch is recorded with what it writes: the scheduling fields, or the conditions. *)
Inductive rb_command :=
| PatchedSpec (unschedulable : bool) (taints : list Taint)
| PatchedStatus (conditions : list NodeCondition)
| Rebooted.
Record rb_world := RbWorld {
  w_node : KNode;
  w_now : Z;
  w_events : list rb_event;
  w_log : list rb_command
}.
Definition request {A} (op : M rb_world A) : M rb_world A := λ w,
  match w_events w with
  | [] => op w
  | ev :: evs =>
      let w1 := RbWorld (ev_others ev (w_node w)) (w_now w + ev_elapsed ev) evs (w_log w) in
      match ev_fault ev with
      | Some e => (w1, Err e)
      | None => op w1
      end
  end.
Definition get_node : M rb_world KNode := request (gets w_node).
Definition logged (c : rb_command) (f : KNode → KNode) : M rb_world KNode := λ w,
  let n := f (w_node w) in (RbWorld n (w_now w) (w_events w) (w_log w ++ [c]), Ok n).
Definition spec_command (new : KNode) : rb_command := PatchedSpec (kn_Unschedulable new) (kn_Taints new).
Definition status_command (new : KNode) : rb_command := PatchedStatus (kn_Conditions new).
Definition client_Patch (base new : KNode) : M rb_world KNode :=
  request (logged (spec_command new) (patch_spec base new)).
Definition status_Patch (base new : KNode) : M rb_world KNode :=
  request (logged (status_command new) (patch_status base new)).

(** ** Pods and parameters *)
Record Toleration := mkToleration { tol_Operator : string; tol_Effect : string }.
Record NodePod := mkNodePod {
  np_Name : string; np_OwnerKinds : list string; np_Tolerations : list Toleration }.
Definition NoExecute : string := "NoExecute".
Definition IsControlledByDaemonSet (pod : NodePod) : bool :=
  existsb (λ kind, String.eqb kind "DaemonSet") (np_OwnerKinds pod).
Definition HasTolerationForNoExecute (pod : NodePod) : bool :=
  existsb (λ t, String.eqb (tol_Effect t) NoExecute) (np_Tolerations pod).
Definition HasTolerationForExists (pod : NodePod) : bool :=
  existsb (λ t, String.eqb (tol_Operator t) "Exists") (np_Tolerations pod).

Definition RebooterEvict : string := "evict".
Definition RebooterDrain : string := "drain".
Record NodeActions := mkActions { act_Reboot : bool; act_Drain : bool }.

Section rebooter.
  (** The attempts of [retry.DefaultRetry], the eviction method, the requeue delay, the
      uptime of the machine, the kubelet's pod list and the reboot command. *)
  Context (steps : nat) (evictionMethod : string) (reconcileTimeout : Z).
  Context (uptime : outcome Z) (podsOnNode : outcome (list NodePod)) (rebootCommand : outcome ()).

(** ** Patching with retries

    [mutate] may change the variables its closure captures ([st]), which the next
    attempt sees; it answers the new node and whether it changed. *)
Definition patchAttempt {S} (msg : string) (patch : KNode → KNode → M rb_world KNode)
    (mutate : S → KNode → S * (KNode * bool)) (st : S) : M rb_world (S * (KNode + gerror)) :=
  let! got := attempt (wrapM "get latest node" get_node) in
  match got with
  | inr e => ret (st, inr e)
  | inl base =>
      let '(st', (new, changed)) := mutate st base in
      if (changed : bool) then
        let! r := attempt (wrapM msg (patch base new)) in
        ret (st', r)
      else ret (st', inl new)
  end.
Fixpoint patchRetry {S} (n : nat) (msg : string) (patch : KNode → KNode → M rb_world KNode)
    (mutate : S → KNode → S * (KNode * bool)) (st : S) : M rb_world KNode :=
  match n with
  | 0%nat => fail (ErrMsg "timed out waiting for the condition")
  | S n =>
      let! (st', r) := patchAttempt msg patch mutate st in
      match r with
      | inl node => ret node
      | inr e =>
          if IsConflict e then match n with 0%nat => fail e | _ => patchRetry n msg patch mutate st' end
          else fail e
      end
  end.
Definition patchNodeSpecWithRetry (mutate : KNode → KNode * bool) : M rb_world KNode :=
  patchRetry steps "patch object" client_Patch (λ (_ : ()) n, (tt, mutate n)) tt.
Definition patchNodeStatusWithRetry {S} (mutate : S → KNode → S * (KNode * bool)) (st : S) : M rb_world KNode :=
  patchRetry steps "patch object status" status_Patch mutate st.

(** ** Conditions *)
(** The loop over the conditions: the first one of the type is replaced. *)
Fixpoint replaceCondition (new : NodeCondition) (cs : list NodeCondition) :
    option (NodeCondition * list NodeCondition) :=
  match cs with
  | [] => None
  | c :: cs =>
      if negb (String.eqb (cond_Type c) (cond_Type new))
      then '(new', cs') ← replaceCondition new cs; Some (new', c :: cs')
      else
        let new' :=
          if bool_decide (cond_Status c = cond_Status new) && String.eqb (cond_Reason c) (cond_Reason new)
          then mkCondition (cond_Type new) (cond_Status new) (cond_Reason new) (cond_Message new)
                 (cond_LastTransitionTime c) (cond_LastHeartbeatTime new)
          else new in
        Some (new', new' :: cs)
  end.
Definition mutateCondition (new : NodeCondition) (n : KNode) : NodeCondition * (KNode * bool) :=
  match replaceCondition new (kn_Conditions n) with
  | Some (new', cs) => (new', (with_conditions n cs, true))
  | None => (new, (with_conditions n (kn_Conditions n ++ [new]), true))
  end.
Definition SetNodeConditionIfNotExists (type : string) (status : condition_status) (reason message : string) :
    M rb_world KNode :=
  let! now := gets w_now in
  patchNodeStatusWithRetry mutateCondition (mkCondition type status reason message now now).
Definition setNodeCondition (type : string) (status : condition_status) (reason message : string) : M rb_world KNode :=
  wrapM "set node condition for node" (SetNodeConditionIfNotExists type status reason message).
Definition GetNodeConditions (n : KNode) (type : string) : option NodeCondition :=
  find_condition (kn_Conditions n) type.
Definition CheckNodeCondition (c : NodeCondition) (type : string) (status : condition_status) : bool :=
  String.eqb (cond_Type c) type && bool_decide (cond_Status c = status).
Definition checkIfNodeNeedsDrain (c : NodeCondition) : bool := CheckNodeCondition c SlurmNodeDrain ConditionTrue.
Definition checkIfNodeNeedsReboot (c : NodeCondition) : bool :=
  if String.eqb (cond_Reason c) ReasonNodeRebooted then false
  else CheckNodeCondition c SlurmNodeReboot ConditionTrue.
(** A failure to read the uptime ends the process. *)
Definition IsUptimeGreaterThanLastTransition (lastTransitionTime : Z) : M rb_world bool :=
  match uptime with
  | Ok up => let! now := gets w_now in ret (now - up <? lastTransitionTime)%Z
  | _ => halt "os.Exit(1)"
  end.

(** ** Spec changes *)
Definition with_unschedulable (n : KNode) (b : bool) : KNode :=
  mkKNode (kn_Name n) (kn_Labels n) b (kn_Taints n) (kn_Conditions n).
Definition with_taints (n : KNode) (ts : list Taint) : KNode :=
  mkKNode (kn_Name n) (kn_Labels n) (kn_Unschedulable n) ts (kn_Conditions n).
Definition SetNodeUnschedulable (unschedulable : bool) : M rb_world KNode :=
  wrapM "failed to update node"
    (patchNodeSpecWithRetry (λ n, if Bool.eqb (kn_Unschedulable n) unschedulable then (n, false)
                                  else (with_unschedulable n unschedulable, true))).
Definition noExecuteTaint : Taint := mkTaint "node.kubernetes.io/NoExecute" "true" NoExecute.
Definition IsNodeTaintedWithNoExecute (n : KNode) : bool :=
  existsb (λ t, String.eqb (taint_Key t) (taint_Key noExecuteTaint)) (kn_Taints n).
Definition otherTaint (t : Taint) : Prop :=
  taint_Key t ≠ taint_Key noExecuteTaint ∨ taint_Effect t ≠ taint_Effect noExecuteTaint.
Global Instance otherTaint_dec t : Decision (otherTaint t).
Proof. unfold otherTaint. apply _. Defined.
Definition mutateTaint (addTaint : bool) (n : KNode) : KNode * bool :=
  if addTaint then
    if IsNodeTaintedWithNoExecute n then (n, false)
    else (with_taints n (kn_Taints n ++ [noExecuteTaint]), true)
  else
    let newTaints := filter otherTaint (kn_Taints n) in
    if (length newTaints =? length (kn_Taints n))%nat then (n, false) else (with_taints n newTaints, true).
Definition TaintNodeWithNoExecute (addTaint : bool) : M rb_world KNode :=
  patchNodeSpecWithRetry (mutateTaint addTaint).

(** ** Draining *)
Definition evictable (pod : NodePod) : bool :=
  negb (IsControlledByDaemonSet pod || HasTolerationForNoExecute pod || HasTolerationForExists pod).
Definition AreAllPodsEvicted : M rb_world () :=
  let! podList := wrapM "fetch pods on node" (request (lift podsOnNode)) in
  match head (filter (λ p, evictable p = true) podList) with
  | None => ret tt
  | Some pod => fail (ErrPodNotEvictable (np_Name pod))
  end.
Definition DrainNodeIfNeeded (node : KNode) : M rb_world KNode :=
  let! node := setNodeCondition SlurmNodeDrain ConditionTrue ReasonNodeDraining MessageDraining in
  let! node := (if negb (kn_Unschedulable node)
                then wrapM "failed to mark node as unschedulable" (SetNodeUnschedulable true)
                else ret node) in
  let! node := (if String.eqb evictionMethod RebooterEvict
                then wrapM "failed to taint node with NoExecute" (TaintNodeWithNoExecute true)
                else ret node) in
  if String.eqb evictionMethod RebooterDrain then ret node
  else do! AreAllPodsEvicted; ret node.
Definition UndrainNodeIfNeeded (node : KNode) : M rb_world KNode :=
  let! node := (if kn_Unschedulable node
                then wrapM "failed to mark node as schedulable" (SetNodeUnschedulable false)
                else ret node) in
  wrapM "failed to remove NoExecute taint from node" (TaintNodeWithNoExecute false).
Definition handleNodeUnDrain (node : KNode) : M rb_world KNode :=
  let! node := UndrainNodeIfNeeded node in
  setNodeCondition SlurmNodeDrain ConditionFalse ReasonNodeUndrained MessageUndrained.

(** ** The reconciliation *)
Definition GetActions (node : KNode) : M rb_world (NodeActions * KNode) :=
  let drain := match GetNodeConditions node SlurmNodeDrain with
               | Some c => checkIfNodeNeedsDrain c
               | None => false
               end in
  match GetNodeConditions node SlurmNodeReboot with
  | None => ret (mkActions false drain, node)
  | Some c =>
      let! greater := IsUptimeGreaterThanLastTransition (cond_LastTransitionTime c) in
      if negb greater then
        let! node := (if checkIfNodeNeedsReboot c then handleNodeUnDrain node else ret node) in
        let! node := wrapM "set node condition"
                       (setNodeCondition SlurmNodeReboot ConditionTrue ReasonNodeRebooted MessageRebooted) in
        ret (mkActions false drain, node)
      else if checkIfNodeNeedsReboot c then ret (mkActions true true, node)
      else ret (mkActions false drain, node)
  end.
Definition handleNodeDrain (node : KNode) (actions : NodeActions) : M rb_world KNode :=
  if act_Drain actions then
    let! node := DrainNodeIfNeeded node in
    setNodeCondition SlurmNodeDrain ConditionTrue ReasonNodeDrained MessageDrained
  else ret node.
Definition RebootNode : M rb_world () := λ w,
  match rebootCommand with
  | Ok _ => (RbWorld (w_node w) (w_now w) (w_events w) (w_log w ++ [Rebooted]), Ok tt)
  | Err e => (w, Err (ErrWrap "failed to reboot node" e))
  | Halt s => (w, Halt s)
  end.
Definition handleNodeReboot (node : KNode) (actions : NodeActions) : M rb_world () :=
  if act_Reboot actions then
    let! node := setNodeCondition SlurmNodeReboot ConditionTrue ReasonNodeRebooting MessageRebooting in
    RebootNode
  else ret tt.
Fixpoint as_pod_error (e : gerror) : bool :=
  match e with
  | ErrPodNotEvictable _ => true
  | ErrWrap _ e => as_pod_error e
  | ErrJoin e1 e2 => as_pod_error e1 || as_pod_error e2
  | _ => false
  end.
Definition handleDrainError (e : gerror) : M rb_world Z :=
  if as_pod_error e then ret reconcileTimeout else fail (ErrWrap "failed to drain node" e).
(** [cached] is the Node in the manager's cache. *)
Definition Reconcile (cached : outcome KNode) : M rb_world Z :=
  let! node := wrapM "failed to get node" (lift cached) in
  let! (actions, node) := GetActions node in
  let! drained := attempt (handleNodeDrain node actions) in
  match drained with
  | inr e => handleDrainError e
  | inl node => do! handleNodeReboot node actions; ret reconcileTimeout
  end.
End rebooter.

(** ** What a pass does to the machine *)
Global Instance rb_logged : Logged rb_world rb_command := w_log.

Lemma traces_request {A} (op : M rb_world A) (Q : list rb_command → outcome A → Prop) :
  traces op Q → (∀ e, Q [] (Err e)) → traces (request op) Q.
Proof.
  intros Hop He w. unfold request. destruct (w_events w) as [|ev evs]; [apply Hop|].
  destruct (ev_fault ev) as [e|].
  - exists []. simpl. rewrite app_nil_r. split; [done|apply He].
  - destruct (Hop (RbWorld (ev_others ev (w_node w)) (w_now w + ev_elapsed ev) evs (w_log w))) as (l & Hl & HQ).
    eauto.
Qed.
Definition patches (l : list rb_command) : Prop := Forall (λ c, c ≠ Rebooted) l.
Lemma patches_app l1 l2 : patches l1 → patches l2 → patches (l1 ++ l2).
Proof. intros. by apply Forall_app. Qed.
Lemma patches_in l : patches l → Rebooted ∉ l.
Proof. intros Hp Hin. by eapply Forall_forall in Hp. Qed.

Lemma traces_logged c f (Q : list rb_command → outcome KNode → Prop) :
  (∀ n, Q [c] (Ok n)) → traces (logged c f) Q.
Proof. intros HQ w. exists [c]. split; [done|apply HQ]. Qed.
(** A patch with retries: only patches are logged; and where the mutation always changes the object, a success has
    logged as its last command a patch of what the mutation made ([I] holds of the captured variables throughout, and then [G] of what is
    made). *)
Definition makes {S} (mutate : S → KNode → S * (KNode * bool)) (I : S → Prop) (G : KNode → Prop) : Prop :=
  ∀ st n, I st → I (mutate st n).1 ∧ (mutate st n).2.2 = true ∧ G (mutate st n).2.1.
Definition ends_with (c : KNode → rb_command) (G : KNode → Prop) (l : list rb_command) : Prop := ∃ l0 new, l = l0 ++ [c new] ∧ G new.
Lemma patchRetry_traces {S} n msg (c : KNode → rb_command) f (mutate : S → KNode → S * (KNode * bool)) I G st :
  (∀ new, c new ≠ Rebooted) →
  traces (patchRetry n msg (λ base new, request (logged (c new) (f base new))) mutate st)
    (λ l r, patches l ∧ (makes mutate I G → I st → ∀ nd, r = Ok nd → ends_with c G l)).
Proof.
  intros Hc. revert st. induction n as [|n IH]; intros st; simpl; [apply traces_fail; split; [constructor|done]|].
  eapply traces_bind with (Q1 := λ l r, patches l ∧ (makes mutate I G → I st →
    ∀ st' x, r = Ok (st', x) → I st' ∧ ∀ nd, x = inl nd → ends_with c G l) ∨ l = [] ∧ ∃ e, r = Ok (st, inr e)).
  - unfold patchAttempt. eapply traces_bind with (Q1 := λ l _, l = []); [| |by intros ? ? ->; left; split; [constructor|done]..].
    + eapply traces_attempt with (Q1 := λ l _, l = []); [|done..].
      apply traces_wrapM, traces_request; [by apply traces_gets|done].
    + intros [base|e] ? ->; [|apply traces_ret; right; eauto].
      destruct (mutate st base) as [st' [new changed]] eqn:Em.
      assert (makes mutate I G → I st → I st' ∧ changed = true ∧ G new) as Hmk by (intros Hmk Hi; specialize (Hmk st base Hi); by rewrite Em in Hmk).
      destruct changed; [|apply traces_ret; left; split; [constructor|]; intros H1 H2; by destruct (Hmk H1 H2) as (_ & ? & _)].
      apply traces_bind_ret. eapply traces_attempt with (Q1 := λ l r, patches l ∧ ∀ nd, r = Ok nd → l = [c new]); simpl.
      * apply traces_wrapM, traces_request; [|intros; split; [constructor|done]].
        apply traces_logged. intros. split; [by repeat constructor|done].
      * intros a l [H1 H2]. left. split; [done|]. intros H3 H4 ? ? [= <- <-]. destruct (Hmk H3 H4) as (? & _ & ?). split; [done|].
        intros nd _. exists [], new. by rewrite (H2 a).
      * intros e l [H1 _]. left. split; [done|]. intros H3 H4 ? ? [= <- <-]. by destruct (Hmk H3 H4) as (? & _ & ?).
      * intros s l [H1 _]. by left.
  - intros [st' r] l1 H1.
    assert (patches l1 ∧ (makes mutate I G → I st → I st' ∧ ∀ nd, r = inl nd → ends_with c G l1)) as [Hp Hst].
    { destruct H1 as [[? H1]|[-> [e [= -> ->]]]]; [|split; [constructor|done]]. split; [done|]. intros. by apply H1. }
    destruct r as [node|e].
    { apply traces_ret. rewrite app_nil_r. split; [done|]. intros. by eapply Hst. }
    destruct (IsConflict e); [|apply traces_fail; by rewrite app_nil_r].
    destruct n; [apply traces_fail; by rewrite app_nil_r|].
    eapply traces_weaken; [apply IH|]. simpl. intros l r [H3 H4]. split; [by apply patches_app|].
    intros H5 H6 nd Hr. destruct (H4 H5 (proj1 (Hst H5 H6)) nd Hr) as (l0 & new & -> & HG). exists (l1 ++ l0), new. by rewrite <-app_assoc.
  - intros e l [[? _]|[-> _]]; (split; [done || constructor|done]).
  - intros e l [[? _]|[-> _]]; (split; [done || constructor|done]).
Qed.
(** The condition written: a new one, or the old one with its transition time kept
    where neither the status nor the reason changes. *)
Definition transition_time (now : Z) (status : condition_status) (reason : string) (old : option NodeCondition) : Z :=
  match old with
  | Some c => if bool_decide (cond_Status c = status) && String.eqb (cond_Reason c) reason
              then cond_LastTransitionTime c else now
  | None => now
  end.
Lemma replaceCondition_find new cs : 
  match replaceCondition new cs with
  | None => find_condition cs (cond_Type new) = None
  | Some (new', cs') =>
      ∃ old, find_condition cs (cond_Type new) = Some old ∧
        new' = mkCondition (cond_Type new) (cond_Status new) (cond_Reason new) (cond_Message new)
                 (transition_time (cond_LastTransitionTime new) (cond_Status new) (cond_Reason new) (Some old))
                 (cond_LastHeartbeatTime new) ∧
        find_condition cs' (cond_Type new) = Some new' ∧
        (∀ t, t ≠ cond_Type new → find_condition cs' t = find_condition cs t) ∧
        cond_Type <$> cs' = cond_Type <$> cs
  end.
Proof.
  induction cs as [|c cs IH]; [done|]. simpl.
  destruct (String.eqb_spec (cond_Type c) (cond_Type new)) as [Hc|Hc]; simpl.
  - exists c. rewrite !find_condition_cons. unfold transition_time.
    destruct (String.eqb_spec (cond_Type c) (cond_Type new)); [|done].
    destruct (bool_decide _ && _) eqn:E; simpl; rewrite String.eqb_refl, ?Hc.
    + split_and!; try done. intros t Ht. rewrite !find_condition_cons. simpl. rewrite Hc.
      by destruct (String.eqb_spec (cond_Type new) t).
    + split_and!; try done; [by destruct new|]. intros t Ht. rewrite !find_condition_cons. rewrite Hc.
      by destruct (String.eqb_spec (cond_Type new) t).
  - rewrite find_condition_cons. destruct (String.eqb_spec (cond_Type c) (cond_Type new)); [done|].
    destruct (replaceCondition new cs) as [[new' cs']|]; simpl; [|done].
    destruct IH as (old & H1 & H2 & H3 & H4 & H5). exists old. split_and!; try done.
    + rewrite find_condition_cons. by destruct (String.eqb_spec (cond_Type c) (cond_Type new)).
    + intros t Ht. rewrite !find_condition_cons. by rewrite H4.
    + by f_equal.
Qed.

(** The conditions hold one of the type, with this status and reason. *)
Definition shows (type : string) (status : condition_status) (reason : string) (cs : list NodeCondition) : Prop :=
  ∃ c, find_condition cs type = Some c ∧ cond_Status c = status ∧ cond_Reason c = reason.
Lemma mutateCondition_makes type status reason :
  makes mutateCondition (λ new, cond_Type new = type ∧ cond_Status new = status ∧ cond_Reason new = reason)
    (λ n, shows type status reason (kn_Conditions n)).
Proof.
  intros new n (<- & <- & <-). unfold mutateCondition. pose proof (replaceCondition_find new (kn_Conditions n)) as Hr.
  destruct (replaceCondition new (kn_Conditions n)) as [[new' cs]|].
  - destruct Hr as (old & _ & -> & Hf & _). split_and!; [done..|]. by eexists.
  - split_and!; [done..|]. exists new. split; [|done]. cbn [fst snd with_conditions kn_Conditions].
    by rewrite find_condition_snoc, Hr, String.eqb_refl.
Qed.

Section traces.
  Context (steps : nat) (evictionMethod : string) (reconcileTimeout : Z).
  Context (uptime : outcome Z) (podsOnNode : outcome (list NodePod)) (rebootCommand : outcome ()).

Lemma spec_traces mutate : traces (patchNodeSpecWithRetry steps mutate) (λ l _, patches l).
Proof.
  eapply traces_weaken; [by apply (patchRetry_traces steps _ spec_command patch_spec _ (λ _, True) (λ _, True))|]. by intros l r [? _].
Qed.
Lemma condition_traces type status reason message :
  traces (setNodeCondition steps type status reason message)
    (λ l r, patches l ∧ ∀ n, r = Ok n → ends_with status_command (λ new, shows type status reason (kn_Conditions new)) l).
Proof.
  apply traces_wrapM. eapply traces_bind with (Q1 := λ l r, l = [] ∧ is_Some (match r with Ok a => Some a | _ => None end)).
  - apply traces_gets. eauto.
  - intros now ? [-> _]. eapply traces_weaken; [by apply (patchRetry_traces steps _ status_command patch_status)|].
    intros l r [H1 H2]. split; [done|]. intros n Hr. destruct r as [nd| |]; [|done..].
    by apply (H2 (mutateCondition_makes type status reason) ltac:(done) nd).
  - by intros e l [_ [? ?]].
  - by intros e l [_ [? ?]].
Qed.
Lemma condition_patches type status reason message :
  traces (setNodeCondition steps type status reason message) (λ l _, patches l).
Proof. eapply traces_weaken; [apply condition_traces|]. by intros l r [? _]. Qed.

(** Sequencing computations that only patch. *)
Lemma patches_bind {A B} (m : M rb_world A) (k : A → M rb_world B) (Q : outcome B → Prop) :
  traces m (λ l _, patches l) → (∀ a, traces (k a) (λ l r, patches l ∧ Q r)) →
  (∀ e, Q (Err e)) → (∀ s, Q (Halt s)) → traces (bind m k) (λ l r, patches l ∧ Q r).
Proof.
  intros Hm Hk He Hs. eapply traces_bind; [exact Hm|..]; simpl; [|by auto..].
  intros a l1 H1. eapply traces_weaken; [apply Hk|]. simpl. intros l r [? ?]. split; [by apply patches_app|done].
Qed.
Lemma patches_bind_plain {A B} (m : M rb_world A) (k : A → M rb_world B) :
  traces m (λ l _, patches l) → (∀ a, traces (k a) (λ l _, patches l)) → traces (bind m k) (λ l _, patches l).
Proof.
  intros Hm Hk. eapply traces_bind; [exact Hm|..]; simpl; [|done..].
  intros a l1 H1. eapply traces_weaken; [apply Hk|]. simpl. intros. by apply patches_app.
Qed.

(** No pod is left that the drain is meant to evict. *)
Definition all_evicted : Prop :=
  evictionMethod = RebooterDrain ∨
  ∃ pods, podsOnNode = Ok pods ∧ ∀ p, p ∈ pods → evictable p = false.

Lemma evicted_traces : evictionMethod ≠ RebooterDrain →
  traces (AreAllPodsEvicted podsOnNode) (λ l r, patches l ∧ (r = Ok tt → all_evicted)).
Proof.
  intros Hm. unfold AreAllPodsEvicted.
  eapply traces_bind with (Q1 := λ l r, l = [] ∧ ∀ pods, r = Ok pods → podsOnNode = Ok pods).
  - apply traces_wrapM, traces_request; [|done]. apply traces_lift. split; [done|]. by destruct podsOnNode.
  - intros pods ? [-> Hp]. specialize (Hp pods eq_refl). simpl.
    destruct (head _) as [pod|] eqn:Eh; [apply traces_fail; split; [constructor|done]|].
    apply traces_ret. split; [constructor|]. intros _. right. exists pods. split; [done|].
    intros p Hin. apply head_None in Eh. rewrite filter_nil_iff in Eh. specialize (Eh p Hin).
    by destruct (evictable p).
  - intros e ? [-> _]. split; [constructor|done].
  - intros e ? [-> _]. split; [constructor|done].
Qed.
Lemma drain_traces node :
  traces (DrainNodeIfNeeded steps evictionMethod podsOnNode node)
    (λ l r, patches l ∧ ((∃ n, r = Ok n) → all_evicted)).
Proof.
  unfold DrainNodeIfNeeded.
  apply patches_bind; [apply condition_patches| |naive_solver..]. intros n1.
  apply patches_bind; [| |naive_solver..].
  { destruct (negb _); [|apply traces_ret; constructor]. do 2 apply traces_wrapM. apply spec_traces. }
  intros n2. apply patches_bind; [| |naive_solver..].
  { destruct (String.eqb _ _); [|apply traces_ret; constructor]. apply traces_wrapM, spec_traces. }
  intros n3. destruct (String.eqb_spec evictionMethod RebooterDrain) as [E|E].
  { apply traces_ret. split; [constructor|]. intros _. by left. }
  eapply traces_bind; [by apply evicted_traces|..]; simpl.
  - intros [] l [H1 H2]. apply traces_ret. rewrite app_nil_r. naive_solver.
  - naive_solver.
  - naive_solver.
Qed.
Lemma handleDrain_traces node actions :
  traces (handleNodeDrain steps evictionMethod podsOnNode node actions)
    (λ l r, patches l ∧ ((∃ n, r = Ok n) → act_Drain actions = true → all_evicted)).
Proof.
  unfold handleNodeDrain. destruct (act_Drain actions); [|apply traces_ret; split; [constructor|done]].
  eapply traces_bind; [apply drain_traces|..]; simpl; [|naive_solver..].
  intros n l [H1 H2]. eapply traces_weaken; [apply condition_patches|]. intros l2 r H3. simpl.
  split; [by apply patches_app|eauto].
Qed.
Lemma undrain_traces node : traces (handleNodeUnDrain steps node) (λ l _, patches l).
Proof.
  unfold handleNodeUnDrain, UndrainNodeIfNeeded. apply patches_bind_plain.
  - apply patches_bind_plain; [|intros; apply traces_wrapM, spec_traces].
    destruct (kn_Unschedulable node); [do 2 apply traces_wrapM; apply spec_traces|apply traces_ret; constructor].
  - intros. apply condition_patches.
Qed.

(** The node asks for a reboot it has not had since. *)
Definition reboot_due (node : KNode) (now : Z) : Prop :=
  ∃ c up, GetNodeConditions node SlurmNodeReboot = Some c ∧ cond_Status c = ConditionTrue ∧
    cond_Reason c ≠ ReasonNodeRebooted ∧ uptime = Ok up ∧ (now - up < cond_LastTransitionTime c)%Z.
Lemma getActions_traces node now :
  let m w := GetActions steps uptime node (RbWorld (w_node w) now (w_events w) (w_log w)) in
  traces m (λ l r, patches l ∧ match r with
                               | Ok (actions, _) => act_Reboot actions = true →
                                   act_Drain actions = true ∧ reboot_due node now
                               | _ => True
                               end).
Proof.
  intros m w. unfold m, GetActions. destruct (GetNodeConditions node SlurmNodeReboot) as [c|] eqn:Ec.
  2: { exists []. simpl. rewrite app_nil_r. split_and!; [done|constructor|done]. }
  destruct uptime as [up|e|s] eqn:Eup; [|exists []; simpl; rewrite app_nil_r; split_and!; [done|constructor|done]..].
  erewrite !bind_ok by reflexivity. cbn [w_now].
  destruct (now - up <? cond_LastTransitionTime c)%Z eqn:Hlt; cbn [negb].
  - apply Z.ltb_lt in Hlt. destruct (checkIfNodeNeedsReboot c) eqn:En; exists []; simpl; rewrite app_nil_r;
      (split; [done|split; [apply Forall_nil_2|]]); [|intros Hx; discriminate Hx].
    intros _. split; [done|]. exists c, up. unfold checkIfNodeNeedsReboot, CheckNodeCondition in En.
    destruct (String.eqb_spec (cond_Reason c) ReasonNodeRebooted); [done|].
    apply andb_true_iff in En as [_ Hst%bool_decide_eq_true]. auto 10.
  - match goal with |- context [(bind ?m1 ?k) ?w0] =>
      assert (traces (bind m1 k) (λ l r, patches l ∧ match r with
        Ok (actions, _) => act_Reboot actions = true → act_Drain actions = true ∧ reboot_due node now
        | _ => True end)) as Ht; [|exact (Ht w0)] end.
    apply patches_bind; [| |done..].
    { destruct (checkIfNodeNeedsReboot c); [apply undrain_traces|apply traces_ret; constructor]. }
    intros n1. apply patches_bind; [apply traces_wrapM, condition_patches| |done..].
    intros n2. apply traces_ret. split; [constructor|done].
Qed.
End traces.

Section reconcile_theorems.
  Context (steps : nat) (evictionMethod : string) (reconcileTimeout : Z).
  Context (uptime : outcome Z) (podsOnNode : outcome (list NodePod)) (rebootCommand : outcome ()).

(** The last two commands: a status with SlurmNodeReboot True for the reason Rebooting is written, and the machine rebooted. *)
Definition rebooted_after_status (l : list rb_command) : Prop :=
  ∃ l0 conditions, l = l0 ++ [PatchedStatus conditions; Rebooted] ∧
    shows SlurmNodeReboot ConditionTrue ReasonNodeRebooting conditions ∧ patches l0.
Lemma handleReboot_traces node actions :
  traces (handleNodeReboot steps rebootCommand node actions)
    (λ l _, patches l ∨ (act_Reboot actions = true ∧ rebooted_after_status l)).
Proof.
  unfold handleNodeReboot. destruct (act_Reboot actions); [|apply traces_ret; left; constructor].
  eapply traces_bind; [apply condition_traces|..]; simpl; [|naive_solver..].
  intros n l [H1 H2] w. unfold RebootNode. destruct rebootCommand as [[]|e|s].
  - exists [Rebooted]. split; [done|]. right. split; [done|]. destruct (H2 n eq_refl) as (l0 & new & -> & Hs).
    apply Forall_app in H1 as [H1 _]. exists l0, (kn_Conditions new). by rewrite <-app_assoc.
  - exists []. simpl. rewrite !app_nil_r. naive_solver.
  - exists []. simpl. rewrite !app_nil_r. naive_solver.
Qed.

(** C5: The machine is rebooted only when it was asked to be.  Whatever the API server
    answers and whatever other clients do in between, a pass issues at most one reboot,
    as its last command; the command before it is a write of the Node's status whose conditions show
    SlurmNodeReboot True for the reason Rebooting; and then the Node of the pass had the SlurmNodeReboot condition with status True and a reason
    other than "rebooted", set after the machine last started, and every evictable pod was
    gone (unless the eviction method is "drain", where the code does not look). *)
Theorem reboot_only_when_requested node w :
  w_log w = [] →
  let w' := (Reconcile steps evictionMethod reconcileTimeout uptime podsOnNode rebootCommand (Ok node) w).1 in
  Rebooted ∈ w_log w' →
  reboot_due uptime node (w_now w) ∧ all_evicted evictionMethod podsOnNode ∧ rebooted_after_status (w_log w').
Proof.
  intros Hw. simpl. pose (now := w_now w).
  assert (traces (λ w, Reconcile steps evictionMethod reconcileTimeout uptime podsOnNode rebootCommand (Ok node)
                        (RbWorld (w_node w) now (w_events w) (w_log w)))
    (λ l _, Rebooted ∈ l → reboot_due uptime node now ∧ all_evicted evictionMethod podsOnNode ∧
            rebooted_after_status l)) as Ht.
  { apply (traces_bind (λ w, GetActions steps uptime node (RbWorld (w_node w) now (w_events w) (w_log w)))
      _ _ _ (getActions_traces steps uptime node now)); simpl.
    2,3: by intros ? l [? _] ?%patches_in.
    intros [actions n1] l1 [Hp1 Hdue].
    eapply traces_bind with (Q1 := λ l r, patches l ∧
      ∀ n, r = Ok (inl n) → act_Drain actions = true → all_evicted evictionMethod podsOnNode); simpl.
    - eapply traces_attempt; [apply handleDrain_traces|..]; simpl; naive_solver.
    - intros [n2|e] l2 [Hp2 Hev].
      + apply traces_bind_ret. eapply traces_weaken; [apply handleReboot_traces|]. simpl.
        intros l3 r [H3|[Hr (l0 & conditions & -> & Hs & H3)]].
        { destruct r; intros ?%patches_in; try done; repeat apply patches_app; done. }
        destruct (Hdue Hr) as [Hd ?].
        assert (rebooted_after_status (l1 ++ l2 ++ l0 ++ [PatchedStatus conditions; Rebooted])) as Hra.
        { exists (l1 ++ l2 ++ l0), conditions. rewrite <-!app_assoc. split_and!; [done..|]. repeat apply patches_app; done. }
        destruct r; naive_solver.
      + unfold handleDrainError. destruct (as_pod_error e);
          [apply traces_ret|apply traces_fail]; rewrite app_nil_r; by intros ?%patches_in; [|apply patches_app].
    - by intros ? l [? _] ?%patches_in; [|apply patches_app].
    - by intros ? l [? _] ?%patches_in; [|apply patches_app]. }
  destruct (Ht w) as (l & Hl & HQ). unfold now in Hl, HQ. destruct w as [nd nw evs lg]. simpl in *. subst lg.
  unfold log_of, rb_logged in Hl. simpl in Hl. rewrite Hl. done.
Qed.
End reconcile_theorems.

(** A node asked at time 100 to reboot, on a machine up since time 50. *)
Definition due_node : KNode :=
  mkKNode "n1" ∅ false [mkTaint "gpu" "" "NoSchedule"]
    [mkCondition "Ready" ConditionTrue "KubeletReady" "" 40 40;
     mkCondition SlurmNodeReboot ConditionTrue ReasonNodeNeedReboot "" 100 100].
Definition quiet_world (n : KNode) (now : Z) : rb_world := RbWorld n now [] [].
Lemma reboot_only_when_requested_witness :
  rebooted_after_status (w_log (Reconcile 4 RebooterEvict 30 (Ok 150%Z) (Ok []) (Ok tt) (Ok due_node) (quiet_world due_node 200)).1).
Proof.
  apply (reboot_only_when_requested 4 RebooterEvict 30 (Ok 150%Z) (Ok []) (Ok tt) due_node (quiet_world due_node 200));
    [reflexivity|].
  set (l := w_log _). assert (last l = Some Rebooted) as Hl by (vm_compute; reflexivity).
  apply last_Some in Hl as [l' ->]. apply elem_of_app. right. left.
Defined.

(** ** A pass that nothing disturbs *)
Section quiet.
  Context (steps : nat) (Hsteps : (0 < steps)%nat).

(** The conditions after [SetNodeConditionIfNotExists] at time [now]. *)
Definition set_condition (now : Z) (type : string) (status : condition_status) (reason message : string)
    (n : KNode) : KNode := (mutateCondition (mkCondition type status reason message now now) n).2.1.

Lemma merge_field_same {A} `{EqDecision A} (base new : A) : merge_field base new base = new.
Proof. unfold merge_field. by destruct (decide (base = new)). Qed.

Lemma setNodeCondition_quiet type status reason message n now l :
  let n' := set_condition now type status reason message n in
  setNodeCondition steps type status reason message (RbWorld n now [] l) =
    (RbWorld n' now [] (l ++ [status_command n']), Ok n').
Proof.
  destruct steps as [|k]; [lia|]. unfold setNodeCondition, wrapM, SetNodeConditionIfNotExists, set_condition.
  unfold bind, gets, patchNodeStatusWithRetry. simpl. unfold bind, attempt, wrapM, patchAttempt. simpl.
  unfold bind, attempt, wrapM. simpl. unfold mutateCondition.
  destruct (replaceCondition _ _) as [[new' cs]|]; simpl; unfold logged, patch_status; simpl;
    unfold bind, attempt, wrapM, status_Patch, request, logged; simpl;
    unfold patch_status; simpl; by rewrite merge_field_same.
Qed.
Lemma SetNodeUnschedulable_quiet b n now l :
  let n' := with_unschedulable n b in
  ∃ l', SetNodeUnschedulable steps b (RbWorld n now [] l) = (RbWorld n' now [] (l ++ l'), Ok n') ∧ patches l'.
Proof.
  destruct steps as [|k]; [lia|]. unfold SetNodeUnschedulable, wrapM, patchNodeSpecWithRetry. simpl.
  unfold bind, patchAttempt. simpl. unfold bind, attempt, wrapM. simpl.
  destruct (Bool.eqb_spec (kn_Unschedulable n) b) as [Hb|Hb]; simpl.
  - exists []. rewrite app_nil_r. split; [|constructor]. destruct n. unfold with_unschedulable. simpl in *. by subst.
  - unfold bind, attempt, wrapM, client_Patch, request, logged. simpl. eexists [spec_command _].
    split; [|by repeat constructor]. unfold patch_spec. simpl. by rewrite !merge_field_same.
Qed.
Lemma TaintNode_quiet add n now l :
  let n' := (mutateTaint add n).1 in
  ∃ l', TaintNodeWithNoExecute steps add (RbWorld n now [] l) = (RbWorld n' now [] (l ++ l'), Ok n') ∧ patches l'.
Proof.
  destruct steps as [|k]; [lia|]. unfold TaintNodeWithNoExecute, patchNodeSpecWithRetry. simpl.
  unfold bind, patchAttempt. simpl. unfold bind, attempt, wrapM. simpl. unfold mutateTaint.
  destruct add; [destruct (IsNodeTaintedWithNoExecute n)|destruct (_ =? _)%nat]; simpl;
    try (exists []; rewrite app_nil_r; split; [done|constructor]);
    unfold bind, attempt, wrapM, client_Patch, request, logged; simpl; eexists [spec_command _];
    (split; [|by repeat constructor]); unfold patch_spec; simpl; by rewrite !merge_field_same.
Qed.
End quiet.

Section set_condition.
  Context (now : Z) (type : string) (status : condition_status) (reason message : string) (n : KNode).
Let n' := set_condition now type status reason message n.
Lemma set_condition_same :
  find_condition (kn_Conditions n') type =
    Some (mkCondition type status reason message
            (transition_time now status reason (find_condition (kn_Conditions n) type)) now).
Proof.
  unfold n', set_condition, mutateCondition.
  pose proof (replaceCondition_find (mkCondition type status reason message now now) (kn_Conditions n)) as Hr.
  destruct (replaceCondition _ _) as [[new' cs']|]; simpl in *.
  - destruct Hr as (old & -> & -> & H3 & _). exact H3.
  - rewrite find_condition_snoc, Hr. simpl. by rewrite String.eqb_refl.
Qed.
Lemma set_condition_other t : t ≠ type → find_condition (kn_Conditions n') t = find_condition (kn_Conditions n) t.
Proof.
  intros Ht. unfold n', set_condition, mutateCondition.
  pose proof (replaceCondition_find (mkCondition type status reason message now now) (kn_Conditions n)) as Hr.
  destruct (replaceCondition _ _) as [[new' cs']|]; simpl in *.
  - destruct Hr as (old & _ & _ & _ & H4 & _). by apply H4.
  - rewrite find_condition_snoc. simpl. destruct (find_condition _ t); [done|].
    by destruct (String.eqb_spec type t).
Qed.
Lemma set_condition_spec : kn_Unschedulable n' = kn_Unschedulable n ∧ kn_Taints n' = kn_Taints n ∧
  kn_Labels n' = kn_Labels n ∧ kn_Name n' = kn_Name n.
Proof.
  unfold n', set_condition, mutateCondition. by destruct (replaceCondition _ _) as [[new' cs']|].
Qed.
End set_condition.

(** ** Taints *)
Lemma mutateTaint_remove n :
  (mutateTaint false n).1 = with_taints n (filter otherTaint (kn_Taints n)).
Proof.
  unfold mutateTaint. destruct (Nat.eqb_spec (length (filter otherTaint (kn_Taints n))) (length (kn_Taints n))) as [E|E]; [|done].
  rewrite (filter_full _ _ E). by destruct n.
Qed.
Lemma mutateTaint_roundtrip n :
  IsNodeTaintedWithNoExecute n = false →
  (mutateTaint false (mutateTaint true n).1).1 = n.
Proof.
  intros Hn. rewrite mutateTaint_remove. unfold mutateTaint. rewrite Hn. simpl.
  simpl. rewrite filter_app. simpl. assert (filter otherTaint [noExecuteTaint] = []) as ->.
  { apply filter_nil_iff. intros t ->%list_elem_of_singleton [H|H]; by apply H. }
  rewrite app_nil_r, filter_all; [by destruct n|]. intros t Ht. left. intros Hk.
  assert (IsNodeTaintedWithNoExecute n = true) as Hc; [|congruence].
  apply existsb_elem. exists t. split; [done|]. by apply String.eqb_eq.
Qed.
Lemma mutateTaint_fields add n : kn_Unschedulable (mutateTaint add n).1 = kn_Unschedulable n ∧
  kn_Conditions (mutateTaint add n).1 = kn_Conditions n.
Proof. unfold mutateTaint. by destruct add; [destruct (IsNodeTaintedWithNoExecute n)|destruct (_ =? _)%nat]. Qed.

Section passes.
  Context (steps : nat) (evictionMethod : string) (reconcileTimeout : Z).
  Context (uptime : outcome Z) (podsOnNode : outcome (list NodePod)) (rebootCommand : outcome ()).
  Context (Hsteps : (0 < steps)%nat).

(** The node after a drain, and after an undrain, at time [now]. *)
Definition evicted_node (n : KNode) : KNode :=
  if String.eqb evictionMethod RebooterEvict then (mutateTaint true n).1 else n.
Definition drained_node (now : Z) (n : KNode) : KNode :=
  set_condition now SlurmNodeDrain ConditionTrue ReasonNodeDrained MessageDrained
    (evicted_node (with_unschedulable
      (set_condition now SlurmNodeDrain ConditionTrue ReasonNodeDraining MessageDraining n) true)).
Definition undrained_node (now : Z) (n : KNode) : KNode :=
  set_condition now SlurmNodeDrain ConditionFalse ReasonNodeUndrained MessageUndrained
    (mutateTaint false (with_unschedulable n false)).1.

Lemma with_unschedulable_same n b : kn_Unschedulable n = b → with_unschedulable n b = n.
Proof. destruct n. simpl. by intros <-. Qed.

Lemma AreAllPodsEvicted_quiet n now l :
  evictionMethod ≠ RebooterDrain → all_evicted evictionMethod podsOnNode →
  AreAllPodsEvicted podsOnNode (RbWorld n now [] l) = (RbWorld n now [] l, Ok tt).
Proof.
  intros Hm [?|(pods & -> & Hp)]; [done|]. unfold AreAllPodsEvicted, bind, wrapM, request, lift. simpl.
  assert (filter (λ p, evictable p = true) pods = []) as ->; [|done].
  apply filter_nil_iff. intros p Hin. rewrite Hp; done.
Qed.
Lemma mark_unschedulable_quiet (b : bool) msg n now l : ∃ l',
  (if (if b then negb (kn_Unschedulable n) else kn_Unschedulable n)
   then wrapM msg (SetNodeUnschedulable steps b) else ret n) (RbWorld n now [] l) =
    (RbWorld (with_unschedulable n b) now [] (l ++ l'), Ok (with_unschedulable n b)) ∧ patches l'.
Proof.
  destruct (Bool.bool_dec (kn_Unschedulable n) b) as [E|E].
  - exists []. rewrite app_nil_r, (with_unschedulable_same n b E), E.
    split; [by destruct b|constructor].
  - destruct (SetNodeUnschedulable_quiet steps Hsteps b n now l) as (l' & H1 & H2). exists l'. split; [|done].
    erewrite <-wrapM_ok by exact H1. by destruct b, (kn_Unschedulable n).
Qed.
Lemma handleNodeDrain_quiet n now l :
  all_evicted evictionMethod podsOnNode → ∃ l',
  handleNodeDrain steps evictionMethod podsOnNode n (mkActions true true) (RbWorld n now [] l) =
    (RbWorld (drained_node now n) now [] (l ++ l'), Ok (drained_node now n)) ∧ patches l'.
Proof.
  intros Hev. unfold handleNodeDrain, DrainNodeIfNeeded. simpl.
  set (n1 := set_condition now SlurmNodeDrain ConditionTrue ReasonNodeDraining MessageDraining n).
  destruct (mark_unschedulable_quiet true "failed to mark node as unschedulable" n1 now (l ++ [status_command n1])) as (l2 & H2 & P2).
  set (n2 := with_unschedulable n1 true) in *.
  assert (∃ l3, (if String.eqb evictionMethod RebooterEvict
            then wrapM "failed to taint node with NoExecute" (TaintNodeWithNoExecute steps true)
            else ret n2) (RbWorld n2 now [] ((l ++ [status_command n1]) ++ l2)) =
          (RbWorld (evicted_node n2) now [] (((l ++ [status_command n1]) ++ l2) ++ l3), Ok (evicted_node n2)) ∧ patches l3)
    as (l3 & H3 & P3).
  { unfold evicted_node. destruct (String.eqb evictionMethod RebooterEvict).
    - destruct (TaintNode_quiet steps Hsteps true n2 now ((l ++ [status_command n1]) ++ l2)) as (l3 & H3 & P3).
      exists l3. split; [|done]. by apply wrapM_ok.
    - exists []. rewrite app_nil_r. split; [done|constructor]. }
  exists ([status_command n1] ++ l2 ++ l3 ++ [status_command (drained_node now n)]).
  split; [|repeat apply patches_app; try done; by repeat constructor].
  erewrite bind_ok.
  2: { erewrite bind_ok by by apply setNodeCondition_quiet. fold n1. erewrite bind_ok by exact H2.
       erewrite bind_ok by exact H3.
       destruct (String.eqb_spec evictionMethod RebooterDrain) as [E|E]; [reflexivity|].
       by erewrite bind_ok by by apply AreAllPodsEvicted_quiet. }
  rewrite setNodeCondition_quiet by done. fold n2 n1. by rewrite <-!app_assoc.
Qed.
Lemma handleNodeUnDrain_quiet n now l : ∃ l',
  handleNodeUnDrain steps n (RbWorld n now [] l) =
    (RbWorld (undrained_node now n) now [] (l ++ l'), Ok (undrained_node now n)) ∧ patches l'.
Proof.
  unfold handleNodeUnDrain, UndrainNodeIfNeeded.
  destruct (mark_unschedulable_quiet false "failed to mark node as schedulable" n now l) as (l1 & H1 & P1).
  destruct (TaintNode_quiet steps Hsteps false (with_unschedulable n false) now (l ++ l1)) as (l2 & H2 & P2).
  exists (l1 ++ l2 ++ [status_command (undrained_node now n)]). split; [|repeat apply patches_app; try done; by repeat constructor].
  erewrite bind_ok. 2: { erewrite bind_ok by exact H1. by apply wrapM_ok. }
  rewrite setNodeCondition_quiet by done. by rewrite <-!app_assoc.
Qed.

(** The node when the reboot command is issued, and after the first pass of the
    restarted machine. *)
Definition rebooting_node (now : Z) (n : KNode) : KNode :=
  set_condition now SlurmNodeReboot ConditionTrue ReasonNodeRebooting MessageRebooting (drained_node now n).
Definition restarted_node (now : Z) (n : KNode) : KNode :=
  set_condition now SlurmNodeReboot ConditionTrue ReasonNodeRebooted MessageRebooted (undrained_node now n).
Definition Reconcile' := Reconcile steps evictionMethod reconcileTimeout.

Lemma reboot_pass n now :
  reboot_due uptime n now → all_evicted evictionMethod podsOnNode → rebootCommand = Ok tt → ∃ l,
  Reconcile' uptime podsOnNode rebootCommand (Ok n) (RbWorld n now [] []) =
    (RbWorld (rebooting_node now n) now [] (l ++ [Rebooted]), Ok reconcileTimeout) ∧ patches l.
Proof.
  intros (c & up & Hc & Hst & Hr & -> & Hlt) Hev ->. unfold Reconcile', Reconcile.
  erewrite bind_ok by reflexivity.
  assert (checkIfNodeNeedsReboot c = true) as Hneeds.
  { unfold checkIfNodeNeedsReboot, CheckNodeCondition. apply find_condition_type in Hc. rewrite Hc, Hst.
    by destruct (String.eqb_spec (cond_Reason c) ReasonNodeRebooted). }
  destruct (handleNodeDrain_quiet n now [] Hev) as (l & Hd & Hl). exists (l ++ [status_command (rebooting_node now n)]).
  split; [|apply patches_app; [done|by repeat constructor]].
  erewrite bind_ok.
  2: { unfold GetActions. rewrite Hc. erewrite bind_ok by reflexivity. cbn [w_now].
       rewrite (proj2 (Z.ltb_lt _ _) Hlt). simpl. rewrite Hneeds. reflexivity. }
  cbn beta iota. erewrite bind_ok. 2: { unfold attempt. rewrite Hd. reflexivity. }
  unfold bind at 1. unfold handleNodeReboot. cbn [act_Reboot].
  erewrite bind_ok by by apply setNodeCondition_quiet. fold (rebooting_node now n). by rewrite <-app_assoc.
Qed.
Lemma restart_pass n now c up :
  GetNodeConditions n SlurmNodeReboot = Some c → checkIfNodeNeedsReboot c = true →
  uptime = Ok up → (cond_LastTransitionTime c <= now - up)%Z → ∃ l,
  GetActions steps uptime n (RbWorld n now [] []) =
    (RbWorld (restarted_node now n) now [] l,
     Ok (mkActions false (match GetNodeConditions n SlurmNodeDrain with
                          | Some d => checkIfNodeNeedsDrain d | None => false end), restarted_node now n)) ∧
  patches l.
Proof.
  intros Hc Hneeds -> Hge. destruct (handleNodeUnDrain_quiet n now []) as (l & Hu & Hl).
  exists (l ++ [status_command (restarted_node now n)]). split; [|apply patches_app; [done|by repeat constructor]].
  unfold GetActions. rewrite Hc. erewrite bind_ok by reflexivity. cbn [w_now].
  rewrite (proj2 (Z.ltb_ge _ _)) by lia. cbn [negb]. rewrite Hneeds. erewrite bind_ok by exact Hu.
  erewrite bind_ok. 2: { apply wrapM_ok. by apply setNodeCondition_quiet. }
  reflexivity.
Qed.
End passes.

(** *** The fields the passes change *)
Lemma drained_node_fields m now n : 
  kn_Unschedulable (drained_node m now n) = true ∧
  kn_Taints (drained_node m now n) =
    (if String.eqb m RebooterEvict then kn_Taints (mutateTaint true n).1 else kn_Taints n) ∧
  find_condition (kn_Conditions (drained_node m now n)) SlurmNodeReboot =
    find_condition (kn_Conditions n) SlurmNodeReboot.
Proof.
  unfold drained_node, evicted_node.
  set (n1 := set_condition now SlurmNodeDrain ConditionTrue ReasonNodeDraining MessageDraining n).
  pose proof (set_condition_spec now SlurmNodeDrain ConditionTrue ReasonNodeDraining MessageDraining n) as (E1 & E2 & _).
  pose proof (set_condition_other now SlurmNodeDrain ConditionTrue ReasonNodeDraining MessageDraining n SlurmNodeReboot) as E3.
  fold n1 in E1, E2, E3.
  rewrite set_condition_other by done.
  destruct (set_condition_spec now SlurmNodeDrain ConditionTrue ReasonNodeDrained MessageDrained
    (if String.eqb m RebooterEvict then (mutateTaint true (with_unschedulable n1 true)).1 else with_unschedulable n1 true))
    as (-> & -> & _).
  destruct (String.eqb m RebooterEvict); [|split_and!; [done|done|by apply E3]].
  destruct (mutateTaint_fields true (with_unschedulable n1 true)) as [-> ->]. simpl.
  split_and!; [done| |by apply E3]. unfold mutateTaint, IsNodeTaintedWithNoExecute. simpl. rewrite E2.
  by destruct (existsb _ _).
Qed.
Lemma undrained_node_fields now n :
  kn_Unschedulable (undrained_node now n) = false ∧
  kn_Taints (undrained_node now n) = filter otherTaint (kn_Taints n) ∧
  (∃ t, find_condition (kn_Conditions (undrained_node now n)) SlurmNodeDrain =
    Some (mkCondition SlurmNodeDrain ConditionFalse ReasonNodeUndrained MessageUndrained t now)) ∧
  ∀ t, t ≠ SlurmNodeDrain →
    find_condition (kn_Conditions (undrained_node now n)) t = find_condition (kn_Conditions n) t.
Proof.
  unfold undrained_node.
  destruct (set_condition_spec now SlurmNodeDrain ConditionFalse ReasonNodeUndrained MessageUndrained
    (mutateTaint false (with_unschedulable n false)).1) as (-> & -> & _).
  rewrite mutateTaint_remove. split_and!; [done|done| |].
  - eexists. apply set_condition_same.
  - intros t Ht. by rewrite set_condition_other.
Qed.

Section cycle.
  Context (steps : nat) (evictionMethod : string) (reconcileTimeout : Z) (podsOnNode : outcome (list NodePod)).
  Context (Hsteps : (0 < steps)%nat) (Hev : all_evicted evictionMethod podsOnNode).
Definition pass (up now : Z) (n : KNode) : rb_world * outcome Z :=
    Reconcile steps evictionMethod reconcileTimeout (Ok up) podsOnNode (Ok tt) (Ok n) (RbWorld n now [] []).

Definition drain_not_requested (n : KNode) : Prop :=
  ∀ c, GetNodeConditions n SlurmNodeDrain = Some c → cond_Status c ≠ ConditionTrue.

Lemma drain_flag n : drain_not_requested n →
  match GetNodeConditions n SlurmNodeDrain with Some d => checkIfNodeNeedsDrain d | None => false end = false.
Proof.
  unfold drain_not_requested. destruct (GetNodeConditions n SlurmNodeDrain) as [d|]; [|done]. intros Hd.
  unfold checkIfNodeNeedsDrain, CheckNodeCondition. rewrite andb_comm, bool_decide_eq_false_2; [done|]. by apply Hd.
Qed.

(** A reboot takes the node out of service and brings it back unchanged.  In a pass
    that finds the reboot due and nothing left to evict, the node ends unschedulable and the
    machine is rebooted.  In the first pass after the machine has restarted, once the drain condition has
    been withdrawn, the node ends schedulable with exactly the taints it had before,
    drain condition False (NodeUndrained) and reboot condition True (NodeRebooted), and no second reboot is issued. *)
Theorem reboot_cycle n0 now1 up1 :
  reboot_due (Ok up1) n0 now1 → IsNodeTaintedWithNoExecute n0 = false →
  let '(w1, r1) := pass up1 now1 n0 in
  r1 = Ok reconcileTimeout ∧ Rebooted ∈ w_log w1 ∧ kn_Unschedulable (w_node w1) = true ∧
  (∃ c1, GetNodeConditions (w_node w1) SlurmNodeReboot = Some c1 ∧ cond_Reason c1 = ReasonNodeRebooting ∧
  ∀ n1 now2 up2,
    kn_Taints n1 = kn_Taints (w_node w1) →
    GetNodeConditions n1 SlurmNodeReboot = Some c1 → drain_not_requested n1 →
    (cond_LastTransitionTime c1 <= now2 - up2)%Z →
    let '(w2, r2) := pass up2 now2 n1 in
    r2 = Ok reconcileTimeout ∧ (Rebooted ∉ w_log w2) ∧
    kn_Unschedulable (w_node w2) = false ∧ kn_Taints (w_node w2) = kn_Taints n0 ∧
    (∃ d, GetNodeConditions (w_node w2) SlurmNodeDrain = Some d ∧ cond_Status d = ConditionFalse ∧
          cond_Reason d = ReasonNodeUndrained) ∧
    ∃ c2, GetNodeConditions (w_node w2) SlurmNodeReboot = Some c2 ∧ cond_Status c2 = ConditionTrue ∧
          cond_Reason c2 = ReasonNodeRebooted).
Proof.
  intros Hdue Hclean. unfold pass.
  destruct (reboot_pass steps evictionMethod reconcileTimeout (Ok up1) podsOnNode (Ok tt) Hsteps n0 now1 Hdue Hev eq_refl)
    as (l & Hpass & Hl).
  unfold Reconcile' in Hpass. rewrite Hpass. simpl. split; [done|].
  split; [apply elem_of_app; right; left|]. unfold rebooting_node, GetNodeConditions.
  destruct (set_condition_spec now1 SlurmNodeReboot ConditionTrue ReasonNodeRebooting MessageRebooting
    (drained_node evictionMethod now1 n0)) as (-> & -> & _).
  destruct (drained_node_fields evictionMethod now1 n0) as (-> & -> & _).
  split; [done|]. rewrite set_condition_same. eexists. split; [done|]. split; [done|].
  intros n1 now2 up2 Htaints Hc Hdrain Hge.
  edestruct (restart_pass steps (Ok up2) Hsteps n1 now2) as (l2 & Hget & Hl2); [exact Hc|done|done|exact Hge|].
  unfold Reconcile. erewrite bind_ok by reflexivity. erewrite bind_ok by exact Hget. simpl.
  rewrite drain_flag by done. simpl. split; [done|]. split; [by apply patches_in|].
  unfold restarted_node.
  destruct (set_condition_spec now2 SlurmNodeReboot ConditionTrue ReasonNodeRebooted MessageRebooted
    (undrained_node now2 n1)) as (-> & -> & _).
  destruct (undrained_node_fields now2 n1) as (-> & -> & (t & Hd) & _).
  split; [done|]. split; [|split].
  - rewrite Htaints. destruct (String.eqb evictionMethod RebooterEvict).
    + pose proof (mutateTaint_roundtrip n0 Hclean) as Hrt. rewrite mutateTaint_remove in Hrt.
      by apply (f_equal kn_Taints) in Hrt.
    + apply filter_all. intros x Hx. left. intros Hk.
      assert (IsNodeTaintedWithNoExecute n0 = true); [|congruence].
      apply existsb_elem. exists x. split; [done|]. by apply String.eqb_eq.
  - rewrite set_condition_other by done. rewrite Hd. by eexists.
  - rewrite set_condition_same. by eexists.
Qed.

(** When the drain condition is still True at the restart, the same pass that brings
    the node back takes it out again: the drain decision is taken before the undrain and not
    revised, so the node ends unschedulable and drained although its reboot condition says NodeRebooted. *)
Theorem restart_drains_again n now up c d :
  GetNodeConditions n SlurmNodeReboot = Some c → checkIfNodeNeedsReboot c = true →
  GetNodeConditions n SlurmNodeDrain = Some d → cond_Status d = ConditionTrue →
  (cond_LastTransitionTime c <= now - up)%Z →
  let '(w', r) := pass up now n in
  r = Ok reconcileTimeout ∧ (Rebooted ∉ w_log w') ∧ kn_Unschedulable (w_node w') = true ∧
  (∃ d', GetNodeConditions (w_node w') SlurmNodeDrain = Some d' ∧ cond_Status d' = ConditionTrue ∧
         cond_Reason d' = ReasonNodeDrained) ∧
  ∃ c', GetNodeConditions (w_node w') SlurmNodeReboot = Some c' ∧ cond_Reason c' = ReasonNodeRebooted.
Proof.
  intros Hc Hneeds Hd Hst Hge. unfold pass, Reconcile. erewrite bind_ok by reflexivity.
  edestruct (restart_pass steps (Ok up) Hsteps n now) as (l & Hget & Hl); [exact Hc|done|done|exact Hge|].
  erewrite bind_ok by exact Hget. cbn beta iota. rewrite Hd.
  assert (checkIfNodeNeedsDrain d = true) as ->.
  { unfold checkIfNodeNeedsDrain, CheckNodeCondition. by rewrite (find_condition_type _ _ _ Hd), Hst. }
  destruct (handleNodeDrain_quiet steps evictionMethod podsOnNode Hsteps (restarted_node now n) now l Hev) as (l2 & Hdr & Hl2).
  erewrite bind_ok. 2: { unfold attempt. change (handleNodeDrain _ _ _ _ _) with
    (handleNodeDrain steps evictionMethod podsOnNode (restarted_node now n) (mkActions true true)).
    rewrite Hdr. reflexivity. }
  simpl. split; [done|]. split; [by apply patches_in, patches_app|].
  destruct (drained_node_fields evictionMethod now (restarted_node now n)) as (-> & _ & Hr).
  split; [done|]. split.
  - unfold drained_node, GetNodeConditions. rewrite set_condition_same. by eexists.
  - unfold GetNodeConditions. rewrite Hr. unfold restarted_node. rewrite set_condition_same. by eexists.
Qed.
End cycle.

Lemma no_pods_evicted m : all_evicted m (Ok []).
Proof. right. exists []. split; [done|]. by intros ? ?%not_elem_of_nil. Qed.
Lemma due_node_due : reboot_due (Ok 150%Z) due_node 200.
Proof.
  exists (mkCondition SlurmNodeReboot ConditionTrue ReasonNodeNeedReboot "" 100 100), 150%Z.
  by split_and!; [vm_compute; reflexivity|..].
Qed.
Lemma reboot_cycle_witness :
  let '(w1, r1) := pass 4 RebooterEvict 30 (Ok []) 150 200 due_node in
  r1 = Ok 30%Z ∧ Rebooted ∈ w_log w1 ∧ kn_Unschedulable (w_node w1) = true.
Proof.
  assert ((0 < 4)%nat) as H4 by lia.
  pose proof (reboot_cycle 4 RebooterEvict 30 (Ok []) H4 (no_pods_evicted _) due_node 200 150 due_node_due eq_refl) as H.
  destruct (pass 4 RebooterEvict 30 (Ok []) 150 200 due_node) as [w1 r1].
  destruct H as (H1 & H2 & H3 & _). exact (conj H1 (conj H2 H3)).
Defined.
(** The same node after a reboot at time 200, the drain still requested. *)
Definition restarted : KNode :=
  mkKNode "n1" ∅ true [noExecuteTaint]
    [mkCondition SlurmNodeDrain ConditionTrue ReasonNodeDrained MessageDrained 200 200;
     mkCondition SlurmNodeReboot ConditionTrue ReasonNodeRebooting MessageRebooting 200 200].
Lemma restart_drains_again_witness :
  let '(w', r) := pass 4 RebooterEvict 30 (Ok []) 50 300 restarted in
  r = Ok 30%Z ∧ (Rebooted ∉ w_log w') ∧ kn_Unschedulable (w_node w') = true.
Proof.
  assert ((0 < 4)%nat) as H4 by lia.
  pose proof (restart_drains_again 4 RebooterEvict 30 (Ok []) H4 (no_pods_evicted _) restarted 300 50
    (mkCondition SlurmNodeReboot ConditionTrue ReasonNodeRebooting MessageRebooting 200 200)
    (mkCondition SlurmNodeDrain ConditionTrue ReasonNodeDrained MessageDrained 200 200)
    eq_refl eq_refl eq_refl eq_refl ltac:(simpl; lia)) as H.
  destruct (pass 4 RebooterEvict 30 (Ok []) 50 300 restarted) as [w1 r1].
  destruct H as (H1 & H2 & H3 & _). exact (conj H1 (conj H2 H3)).
Defined.

(** The whole cycle on one node: the second pass runs on the node the first one left,
    after the drain condition was withdrawn. *)
Definition cycle_nodes : KNode * KNode :=
  let n1 := w_node (pass 4 RebooterEvict 30 (Ok []) 150 200 due_node).1 in
  let n1' := set_condition 210 SlurmNodeDrain ConditionFalse "" "" n1 in
  (n1, w_node (pass 4 RebooterEvict 30 (Ok []) 5 300 n1').1).
Example reboot_cycle_ex :
  (kn_Unschedulable cycle_nodes.1, length (kn_Taints cycle_nodes.1)) = (true, 2%nat) ∧
  (kn_Unschedulable cycle_nodes.2, kn_Taints cycle_nodes.2) = (false, kn_Taints due_node).
Proof. split; vm_compute; reflexivity. Qed.

(** The patch carries the whole taint list and no resource version: a taint that another
    client adds between the read and the patch is dropped, and no conflict is reported. *)
Definition other_taint : Taint := mkTaint "maintenance" "" "NoSchedule".
Definition racing_world : rb_world :=
  RbWorld (mkKNode "n1" ∅ false [] []) 0
    [RbEvent 0 id None; RbEvent 0 (λ n, with_taints n (kn_Taints n ++ [other_taint])) None] [].
Example concurrent_taint_lost :
  let '(w, r) := TaintNodeWithNoExecute 4 true racing_world in
  match r with Ok _ => kn_Taints (w_node w) = [noExecuteTaint] | _ => False end.
Proof. vm_compute. reflexivity. Qed.
