(* ===== verification/K8sChecks.v ===== *)
(** * The controller of Kubernetes nodes

    [internal/controller/soperatorchecks/k8s_nodes_controller.go] and the condition
    helpers of [soperatorchecks.go]: drain and reboot requests are derived from the
    maintenance, degraded and hardware conditions of a Node, drained nodes under
    maintenance and nodes that stay NotReady are deleted.  With the label matcher and the
    condition predicates of [internal/check].

    Reads are served by the manager's cache, which may lag behind the API server;
    [Update] carries the resource version of the copy it was computed from, [Patch] does not. *)
From S2P Require Import Prelude GoStrings Effects Kube.
From Stdlib Require Import Ascii.
From Stdlib Require String.

(** ** The label matcher *)
Abbreviation ignored_labels := (gmap string (list string)).
Definition addIgnored (m : ignored_labels) (key value : string) : ignored_labels :=
  let values := default [] (m !! key) in
  if existsb (String.eqb value) values then m else <[key := values ++ [value]]> m.
Fixpoint parsePairs (m : ignored_labels) (pairs : list string) : outcome ignored_labels :=
  match pairs with
  | [] => Ok m
  | pair0 :: pairs =>
      let p := TrimSpace pair0 in
      if String.eqb p "" then parsePairs m pairs
      else match SplitN2 p "=" with
           | [k; v] =>
               let key := TrimSpace k in
               let value := TrimSpace v in
               if String.eqb key "" || String.eqb value ""
               then Err (ErrMsg "invalid label format, key and value cannot be empty")
               else parsePairs (addIgnored m key value) pairs
           | _ => Err (ErrMsg "invalid label format, expected key=value")
           end
  end.
Definition NewNodeLabelMatcher (labels : string) : outcome ignored_labels :=
  if String.eqb labels "" then Ok ∅ else parsePairs ∅ (Split labels ","%char).
(** The loop over the map stops at the first match: its order does not matter. *)
Definition ShouldIgnoreNode (m : ignored_labels) (labels : gmap string string) : bool :=
  existsb (λ '(key, values), match labels !! key with
                             | None => false
                             | Some actual => existsb (String.eqb actual) values
                             end) (map_to_list m).

(** ** Conditions *)
(** A condition variable of the code: [None] is the zero value, which no condition of a
    node equals, its type being set. *)
Definition IsConditionFalseOrEmpty (c : option NodeCondition) : bool :=
  match c with None => true | Some c => bool_decide (cond_Status c = ConditionFalse) end.
Definition IsConditionTrue (c : option NodeCondition) : bool :=
  match c with None => false | Some c => bool_decide (cond_Status c = ConditionTrue) end.
Definition reason_of (c : option NodeCondition) : string := from_option cond_Reason "" c.
(** Times count from the zero time of Go. *)
Definition transition_of (c : option NodeCondition) : Z := from_option cond_LastTransitionTime 0%Z c.
(** A loop without [break] keeps the last condition of the type. *)
Definition last_condition (cs : list NodeCondition) (type : string) : option NodeCondition :=
  last (filter (λ c, cond_Type c = type) cs).
Definition NodeReady : string := "Ready".

(** ** The world *)
Record VNode := mkVNode { vn_rev : nat; vn_node : KNode }.
Abbreviation nodes := (gmap string VNode).
(** What other clients do before a request, whether the cache catches up with the server
    first, and whether the request fails.  When the events are used up, nobody else acts
    and the cache is current. *)
Record api_event := ApiEvent { ae_others : nodes → nodes; ae_sync : bool; ae_fault : option gerror }.
(** Requests that changed the cluster and readings of the clock, in order; a status
    write has the conditions it sent, none for an empty patch. *)
Inductive kcommand :=
| ClockRead (now : Z)
| CmdPatch (name : string) (conditions : option (list NodeCondition))
| CmdUpdate (name : string) (conditions : list NodeCondition)
| CmdDelete (name : string)
| CmdDrain (cluster : string * string) (node reason : string)
| CmdUndrain (cluster : string * string) (node : string).
Record kworld := KWorld {
  kw_server : nodes;
  kw_cache : nodes;
  kw_now : Z;
  kw_ticks : list Z;
  kw_events : list api_event;
  kw_log : list kcommand
}.
Global Instance kw_logged : Logged kworld kcommand := kw_log.
Definition with_nodes (server cache : nodes) (events : list api_event) (w : kworld) : kworld :=
  KWorld server cache (kw_now w) (kw_ticks w) events (kw_log w).
Definition api {A} (op : M kworld A) : M kworld A := λ w,
  match kw_events w with
  | [] => op (with_nodes (kw_server w) (kw_server w) [] w)
  | ev :: evs =>
      let server := ae_others ev (kw_server w) in
      let w1 := with_nodes server (if ae_sync ev then server else kw_cache w) evs w in
      match ae_fault ev with Some e => (w1, Err e) | None => op w1 end
  end.
(** Time passes between two readings of the clock. *)
Definition time_Now : M kworld Z := λ w,
  let '(t, ts) := match kw_ticks w with [] => (0%Z, []) | t :: ts => (t, ts) end in
  let now := (kw_now w + t)%Z in
  (KWorld (kw_server w) (kw_cache w) now ts (kw_events w) (kw_log w ++ [ClockRead now]), Ok now).
Definition client_Get (name : string) : M kworld VNode :=
  api (λ w, (w, match kw_cache w !! name with Some v => Ok v | None => Err (ErrAPI NotFound) end)).
Definition store (name : string) (v : VNode) (c : kcommand) (w : kworld) : kworld :=
  KWorld (<[name := v]> (kw_server w)) (kw_cache w) (kw_now w) (kw_ticks w) (kw_events w) (kw_log w ++ [c]).
(** [Status().Patch(ctx, node, client.MergeFrom(base))] of the node read as [name]. *)
Definition status_patch (name : string) (base new : KNode) : M kworld () := api (λ w,
  match kw_server w !! name with
  | None => (w, Err (ErrAPI NotFound))
  | Some v =>
      let sent := if decide (kn_Conditions base = kn_Conditions new) then None else Some (kn_Conditions new) in
      (store name (mkVNode (S (vn_rev v)) (patch_status base new (vn_node v))) (CmdPatch name sent) w, Ok tt)
  end).
(** [Status().Update(ctx, node)]: refused where the copy is not the current one. *)
Definition status_update (name : string) (rev : nat) (new : KNode) : M kworld () := api (λ w,
  match kw_server w !! name with
  | None => (w, Err (ErrAPI NotFound))
  | Some v =>
      if (rev =? vn_rev v)%nat then
        let n' := with_conditions (vn_node v) (kn_Conditions new) in
        (store name (mkVNode (S rev) n') (CmdUpdate name (kn_Conditions new)) w, Ok tt)
      else (w, Err (ErrAPI Conflict))
  end).
Definition client_Delete (name : string) : M kworld () := api (λ w,
  match kw_server w !! name with
  | None => (w, Err (ErrAPI NotFound))
  | Some _ => (KWorld (delete name (kw_server w)) (kw_cache w) (kw_now w) (kw_ticks w) (kw_events w)
                 (kw_log w ++ [CmdDelete name]), Ok tt)
  end).

(** ** Writing conditions *)
Fixpoint index_condition (cs : list NodeCondition) (type : string) : option (nat * NodeCondition) :=
  match cs with
  | [] => None
  | c :: cs => if String.eqb (cond_Type c) type then Some (0%nat, c)
               else '(i, d) ← index_condition cs type; Some (S i, d)
  end.
Definition touch (now : Z) (c : NodeCondition) : NodeCondition :=
  mkCondition (cond_Type c) (cond_Status c) (cond_Reason c) (cond_Message c) (cond_LastTransitionTime c) now.
(** In the heartbeat branch the copy that the patch starts from is taken after the
    change. *)
Definition setK8SNodeCondition (nodeName : string) (condition : NodeCondition) : M kworld () :=
  let! got := attempt (client_Get nodeName) in
  match got with
  | inr e => if IsNotFound e then ret tt else fail e
  | inl v =>
      let node := vn_node v in
      let cs := kn_Conditions node in
      match index_condition cs (cond_Type condition) with
      | Some (i, cond) =>
          if bool_decide (cond_Status cond = cond_Status condition) && String.eqb (cond_Reason cond) (cond_Reason condition)
          then
            let! now := time_Now in
            let node' := with_conditions node (<[i := touch now cond]> cs) in
            status_patch nodeName node' node'
          else status_patch nodeName node (with_conditions node (<[i := condition]> cs))
      | None =>
          wrapM "failed to update object status" (status_update nodeName (vn_rev v) (with_conditions node (cs ++ [condition])))
      end
  end.
Definition setK8SNodeConditions (nodeName : string) (conditions : list NodeCondition) : M kworld () :=
  forM conditions (λ cond, wrapM "set k8s node condition" (setK8SNodeCondition nodeName cond)).
Definition newNodeCondition (type : string) (status : condition_status) (reason message : string) :
    M kworld NodeCondition :=
  let! transition := time_Now in
  let! heartbeat := time_Now in
  ret (mkCondition type status reason message transition heartbeat).
Definition setNewCondition (nodeName type : string) (status : condition_status) (reason message : string) : M kworld () :=
  let! cond := newNodeCondition type status reason message in setK8SNodeCondition nodeName cond.

(** ** The controller *)
Record k8sController := mkK8sController {
  NotReadyTimeout : Z;
  DeleteNotReadyNodes : bool;
  MaintenanceConditionType : string;
  nodeLabelMatcher : ignored_labels
}.
Definition NewK8SNodesController (notReadyTimeout : Z) (deleteNotReadyNodes : bool)
    (maintenanceConditionType maintenanceIgnoreNodeLabels : string) : k8sController :=
  mkK8sController notReadyTimeout deleteNotReadyNodes
    (if String.eqb maintenanceConditionType "" then DefaultMaintenanceConditionType else maintenanceConditionType)
    (match NewNodeLabelMatcher maintenanceIgnoreNodeLabels with Ok m => m | _ => ∅ end).

(** Which updates of a node are reconciled. *)
Definition watched_type (c : k8sController) (type : string) : bool :=
  existsb (String.eqb type)
    [SlurmNodeDrain; SlurmNodeReboot; MaintenanceConditionType c; HardwareIssuesSuspected;
     SoperatorChecksK8SNodeDegraded; SoperatorChecksK8SNodeMaintenance; NodeReady].
Definition populateConditions (c : k8sController) (cs : list NodeCondition) : gmap string NodeCondition :=
  foldl (λ m cond, if watched_type c (cond_Type cond) then <[cond_Type cond := touch 0 cond]> m else m) ∅ cs.
Definition UpdateFunc (c : k8sController) (old new : KNode) : bool :=
  negb (bool_decide (populateConditions c (kn_Conditions old) = populateConditions c (kn_Conditions new))).

Section controller.
  Context (c : k8sController).

Definition deleteK8SNode (name : string) : M kworld () :=
  wrapM "delete k8s node" (ignoreNotFound (client_Delete name)).
Definition processDrainCondition (k8sNode : KNode) : M kworld () :=
  if ShouldIgnoreNode (nodeLabelMatcher c) (kn_Labels k8sNode) then ret tt
  else
    let drainCondition := last_condition (kn_Conditions k8sNode) SlurmNodeDrain in
    let maintenanceCondition := last_condition (kn_Conditions k8sNode) SoperatorChecksK8SNodeMaintenance in
    let hardwareIssuesCondition := last_condition (kn_Conditions k8sNode) HardwareIssuesSuspected in
    let name := kn_Name k8sNode in
    if IsConditionFalseOrEmpty drainCondition then
      if IsConditionTrue hardwareIssuesCondition then
        setNewCondition name SlurmNodeDrain ConditionTrue ReasonNodeNeedDrain MessageHardwareIssuesSuspected
      else if IsConditionFalseOrEmpty maintenanceCondition then ret tt
      else setNewCondition name SlurmNodeDrain ConditionTrue ReasonNodeNeedDrain MessageMaintenanceScheduled
    else if negb (String.eqb (reason_of drainCondition) ReasonNodeDrained) then ret tt
    else if negb (IsConditionTrue maintenanceCondition) then
      setNewCondition name SlurmNodeDrain ConditionFalse ReasonNodeRebooted MessageNodeIsRebooted
    else deleteK8SNode name.
Definition processRebootCondition (k8sNode : KNode) : M kworld () :=
  let rebootCondition := last_condition (kn_Conditions k8sNode) SlurmNodeReboot in
  let degradedCondition := last_condition (kn_Conditions k8sNode) SoperatorChecksK8SNodeDegraded in
  let name := kn_Name k8sNode in
  let rest :=
    if negb (String.eqb (reason_of rebootCondition) ReasonNodeRebooted) then ret tt
    else
      let! c1 := newNodeCondition SlurmNodeReboot ConditionFalse ReasonNodeRebooted MessageNodeIsRebooted in
      let! c2 := newNodeCondition SlurmNodeDrain ConditionFalse ReasonNodeRebooted MessageNodeIsRebooted in
      let! c3 := newNodeCondition SoperatorChecksK8SNodeDegraded ConditionFalse ReasonNodeRebooted MessageNodeIsRebooted in
      setK8SNodeConditions name [c1; c2; c3] in
  if IsConditionFalseOrEmpty rebootCondition then
    if IsConditionFalseOrEmpty degradedCondition then ret tt
    else if (transition_of rebootCondition <? transition_of degradedCondition)%Z then
      setNewCondition name SlurmNodeReboot ConditionTrue ReasonNodeNeedReboot MessageSlurmNodeDegraded
    else rest
  else rest.
Definition processNotReadyCondition (k8sNode : KNode) : M kworld () :=
  match find_condition (kn_Conditions k8sNode) NodeReady with
  | None => ret tt
  | Some ready =>
      if bool_decide (cond_Status ready = ConditionTrue) then ret tt
      else
        let! now := time_Now in
        if (now - cond_LastTransitionTime ready <? NotReadyTimeout c)%Z then ret tt
        else deleteK8SNode (kn_Name k8sNode)
  end.
Definition requeueDurationForNotReady (second : Z) (k8sNode : KNode) : M kworld Z :=
  match find_condition (kn_Conditions k8sNode) NodeReady with
  | None => ret 0%Z
  | Some ready =>
      if bool_decide (cond_Status ready = ConditionTrue) then ret 0%Z
      else
        let! now := time_Now in
        let notReadyDuration := (now - cond_LastTransitionTime ready)%Z in
        if (notReadyDuration <? NotReadyTimeout c)%Z then ret (NotReadyTimeout c - notReadyDuration + 30 * second)%Z
        else ret 0%Z
  end.
(** The delay after which the node is reconciled again; 0 for none. *)
Definition reconcileNode (second : Z) (k8sNode : KNode) : M kworld Z :=
  do! wrapM "process drain condition" (processDrainCondition k8sNode);
  do! wrapM "process reboot condition" (processRebootCondition k8sNode);
  if DeleteNotReadyNodes c then
    do! wrapM "process NotReady condition" (processNotReadyCondition k8sNode);
    let! requeueAfter := requeueDurationForNotReady second k8sNode in
    if (0 <? requeueAfter)%Z then ret requeueAfter else ret 0%Z
  else ret 0%Z.
Definition K8sReconcile (second : Z) (name : string) : M kworld Z :=
  let! got := attempt (client_Get name) in
  match got with
  | inr e => if IsNotFound e then ret 0%Z else fail (ErrWrap "get k8s node" e)
  | inl v => reconcileNode second (vn_node v)
  end.
End controller.

(** ** What a pass issues *)
Lemma traces_api {A} (op : M kworld A) (Q : list kcommand → outcome A → Prop) :
  traces op Q → (∀ e, Q [] (Err e)) → traces (api op) Q.
Proof.
  intros Hop He w. unfold api. destruct (kw_events w) as [|ev evs].
  - destruct (Hop (with_nodes (kw_server w) (kw_server w) [] w)) as (l & Hl & HQ). eauto.
  - destruct (ae_fault ev) as [e|].
    + exists []. simpl. rewrite app_nil_r. split; [done|apply He].
    + match goal with |- context [op ?w1] => destruct (Hop w1) as (l & Hl & HQ) end. eauto.
Qed.
Lemma traces_time_Now (Q : list kcommand → outcome Z → Prop) :
  (∀ now, Q [ClockRead now] (Ok now)) → traces time_Now Q.
Proof.
  intros HQ w. unfold time_Now. destruct (match kw_ticks w with [] => _ | _ => _ end) as [t ts].
  eexists [_]. split; [done|apply HQ].
Qed.
Lemma traces_Get name (Q : list kcommand → outcome VNode → Prop) :
  (∀ r, Q [] r) → traces (client_Get name) Q.
Proof. intros HQ. apply traces_api; [|done]. intros w. exists []. simpl. rewrite app_nil_r. done. Qed.
(** What is not a deletion. *)
Definition keeps_node (cmd : kcommand) : Prop := ∀ x, cmd ≠ CmdDelete x.
Lemma emits_time_Now (P : kcommand → Prop) : (∀ now, P (ClockRead now)) → emits P time_Now.
Proof. intros HP. apply traces_time_Now. auto. Qed.
Lemma emits_status_patch name base new : emits keeps_node (status_patch name base new).
Proof.
  apply traces_api; [|done]. intros w. cbv zeta. destruct (kw_server w !! name).
  - eexists [_]. split; [reflexivity|]. by apply Forall_singleton.
  - exists []. simpl. rewrite app_nil_r. by split; [|constructor].
Qed.
Lemma emits_status_update name rev new : emits keeps_node (status_update name rev new).
Proof.
  apply traces_api; [|done]. intros w. cbv zeta. destruct (kw_server w !! name) as [v|].
  - destruct (rev =? vn_rev v)%nat.
    + eexists [_]. split; [reflexivity|]. by apply Forall_singleton.
    + exists []. simpl. rewrite app_nil_r. by split; [|constructor].
  - exists []. simpl. rewrite app_nil_r. by split; [|constructor].
Qed.
#[export] Hint Resolve emits_status_patch emits_status_update : effects.
Lemma emits_setK8SNodeCondition name cond : emits keeps_node (setK8SNodeCondition name cond).
Proof.
  apply emits_bind; [apply emits_attempt, traces_Get; constructor|]. intros [v|e].
  - cbv zeta. destruct (index_condition (kn_Conditions (vn_node v)) (cond_Type cond)) as [[i c]|]; [|auto with effects].
    destruct (_ && _); [|auto with effects]. apply emits_bind; [by apply emits_time_Now|auto with effects].
  - destruct (IsNotFound e); auto with effects.
Qed.
Lemma emits_newNodeCondition type status reason message :
  emits keeps_node (newNodeCondition type status reason message).
Proof. apply emits_bind; [by apply emits_time_Now|]. intros. apply emits_bind; [by apply emits_time_Now|auto with effects]. Qed.
Lemma emits_setNewCondition name type status reason message :
  emits keeps_node (setNewCondition name type status reason message).
Proof. apply emits_bind; [apply emits_newNodeCondition|]. intros. apply emits_setK8SNodeCondition. Qed.
#[export] Hint Resolve emits_setK8SNodeCondition emits_newNodeCondition emits_setNewCondition : effects.
Lemma emits_processReboot k8sNode : emits keeps_node (processRebootCondition k8sNode).
Proof.
  unfold processRebootCondition, setK8SNodeConditions.
  repeat case_match; auto 12 with effects.
Qed.

(** The node is drained and under maintenance; it stayed NotReady for the timeout. *)
Definition drained_under_maintenance (c : k8sController) (n : KNode) : Prop :=
  ShouldIgnoreNode (nodeLabelMatcher c) (kn_Labels n) = false ∧
  ∃ d m, last_condition (kn_Conditions n) SlurmNodeDrain = Some d ∧ cond_Status d ≠ ConditionFalse ∧
    cond_Reason d = ReasonNodeDrained ∧
    last_condition (kn_Conditions n) SoperatorChecksK8SNodeMaintenance = Some m ∧ cond_Status m = ConditionTrue.
Definition not_ready_for_timeout (c : k8sController) (n : KNode) (now : Z) : Prop :=
  ∃ ready, find_condition (kn_Conditions n) NodeReady = Some ready ∧ cond_Status ready ≠ ConditionTrue ∧
    (NotReadyTimeout c <= now - cond_LastTransitionTime ready)%Z.
Definition deletes_only (n : KNode) (why : list kcommand → Prop) (l : list kcommand) : Prop :=
  ∀ x, CmdDelete x ∈ l → x = kn_Name n ∧ why l.

Lemma keeps_no_delete l x : Forall keeps_node l → CmdDelete x ∉ l.
Proof. intros Hl Hx. eapply Forall_forall in Hl; [|exact Hx]. by apply (Hl x). Qed.
Lemma traces_keeps {A} (m : M kworld A) n why :
  emits keeps_node m → traces m (λ l _, deletes_only n why l).
Proof. intros Hm. eapply traces_weaken; [exact Hm|]. simpl. by intros l _ Hl x Hx%(keeps_no_delete l x Hl). Qed.
Lemma traces_deleteK8SNode n (why : list kcommand → Prop) :
  why [CmdDelete (kn_Name n)] → traces (deleteK8SNode (kn_Name n)) (λ l _, deletes_only n why l).
Proof.
  intros Hwhy. apply traces_wrapM, traces_ignoreNotFound, traces_api.
  - intros w. destruct (kw_server w !! kn_Name n).
    + eexists [_]. split; [reflexivity|]. by intros x [= ->]%list_elem_of_singleton.
    + exists []. simpl. rewrite app_nil_r. split; [done|]. by intros x ?%not_elem_of_nil.
  - by intros e x ?%not_elem_of_nil.
Qed.
Lemma processDrain_deletes c n :
  traces (processDrainCondition c n) (λ l _, deletes_only n (λ _, drained_under_maintenance c n) l).
Proof.
  unfold processDrainCondition.
  destruct (ShouldIgnoreNode _ _) eqn:Ei; [apply traces_keeps; auto with effects|].
  destruct (IsConditionFalseOrEmpty _) eqn:Ed; [repeat case_match; apply traces_keeps; auto with effects|].
  destruct (String.eqb_spec (reason_of (last_condition (kn_Conditions n) SlurmNodeDrain)) ReasonNodeDrained) as [Er|];
    cbn [negb]; [|apply traces_keeps; auto with effects].
  destruct (IsConditionTrue _) eqn:Em; cbn [negb]; [|apply traces_keeps; auto with effects].
  apply traces_deleteK8SNode. split; [done|].
  destruct (last_condition (kn_Conditions n) SlurmNodeDrain) as [d|]; [|done].
  destruct (last_condition (kn_Conditions n) SoperatorChecksK8SNodeMaintenance) as [m|]; [|done].
  simpl in *. apply bool_decide_eq_false in Ed. apply bool_decide_eq_true in Em. exists d, m. by split_and!.
Qed.
Lemma processNotReady_deletes c n :
  traces (processNotReadyCondition c n)
    (λ l _, deletes_only n (λ l, ∃ now, ClockRead now ∈ l ∧ not_ready_for_timeout c n now) l).
Proof.
  unfold processNotReadyCondition.
  destruct (find_condition _ _) as [ready|] eqn:Er; [|apply traces_keeps; auto with effects].
  case_bool_decide as Hs; [apply traces_keeps; auto with effects|].
  eapply traces_bind with (Q1 := λ l r, ∃ now, l = [ClockRead now] ∧ r = Ok now).
  - apply traces_time_Now. eauto.
  - intros now l (now' & -> & [= <-]). destruct (Z.ltb_spec (now - cond_LastTransitionTime ready) (NotReadyTimeout c)).
    + apply traces_ret. intros x Hx. by elem_cases Hx.
    + eapply traces_weaken; [by apply (traces_deleteK8SNode n (λ _, True))|]. simpl. intros l _ Hl x Hx.
      apply elem_of_cons in Hx as [?|Hx]; [done|]. split; [by apply (Hl x)|].
      exists now. split; [left|]. by exists ready.
  - by intros e l (? & _ & ?).
  - by intros e l (? & _ & ?).
Qed.
Lemma emits_requeue c second n : emits keeps_node (requeueDurationForNotReady c second n).
Proof.
  unfold requeueDurationForNotReady. repeat case_match; auto with effects.
  apply emits_bind; [by apply emits_time_Now|]. intros. case_match; auto with effects.
Qed.

(** Why a pass may delete the node, and its parts in sequence. *)
Definition delete_reason (c : k8sController) (n : KNode) (l : list kcommand) : Prop :=
  drained_under_maintenance c n ∨
  (DeleteNotReadyNodes c = true ∧ ∃ now, ClockRead now ∈ l ∧ not_ready_for_timeout c n now).
Lemma delete_reason_mono c n l l' : (∀ cmd, cmd ∈ l → cmd ∈ l') → delete_reason c n l → delete_reason c n l'.
Proof. intros Hl [?|(? & now & ? & ?)]; [by left|right]. split; [done|]. exists now. auto. Qed.
Lemma traces_deletes_bind {A B} c n (m : M kworld A) (k : A → M kworld B) :
  traces m (λ l _, deletes_only n (delete_reason c n) l) →
  (∀ a, traces (k a) (λ l _, deletes_only n (delete_reason c n) l)) →
  traces (bind m k) (λ l _, deletes_only n (delete_reason c n) l).
Proof.
  intros Hm Hk. eapply traces_bind; [exact Hm|..]; simpl; [|done..]. intros a l1 H1.
  eapply traces_weaken; [apply Hk|]. simpl. intros l2 _ H2 x [Hx|Hx]%elem_of_app.
  - destruct (H1 x Hx) as [-> Hr]. split; [done|]. eapply delete_reason_mono; [|exact Hr].
    intros. apply elem_of_app. by left.
  - destruct (H2 x Hx) as [-> Hr]. split; [done|]. eapply delete_reason_mono; [|exact Hr].
    intros. apply elem_of_app. by right.
Qed.
Lemma reconcile_deletes c second n :
  traces (reconcileNode c second n) (λ l _, deletes_only n (delete_reason c n) l).
Proof.
  apply traces_deletes_bind.
  { apply traces_wrapM. eapply traces_weaken; [apply processDrain_deletes|]. simpl. intros l r H x Hx.
    destruct (H x Hx). split; [done|by left]. }
  intros _. apply traces_deletes_bind; [apply traces_wrapM, traces_keeps, emits_processReboot|].
  intros _. destruct (DeleteNotReadyNodes c) eqn:Ed; [|apply traces_keeps; auto with effects].
  apply traces_deletes_bind.
  { apply traces_wrapM. eapply traces_weaken; [apply processNotReady_deletes|]. simpl. intros l r H x Hx.
    destruct (H x Hx). split; [done|by right]. }
  intros _. apply traces_keeps, emits_bind; [apply emits_requeue|].
  intros r. destruct (0 <? r)%Z; auto with effects.
Qed.

(** C6: A Kubernetes node is deleted only for one of two reasons, whatever the API
    server and the other clients do: it is drained (reason NodeDrained) and under
    maintenance and none of its labels is in the ignore list, or the controller is told to delete NotReady nodes and a
    clock reading of the pass shows its Ready condition not True for the timeout.  Only the reconciled
    node is deleted. *)
Theorem node_deleted_only_when c second name w x :
  kw_log w = [] →
  let l := kw_log (K8sReconcile c second name w).1 in
  CmdDelete x ∈ l →
  ∃ v, (client_Get name w).2 = Ok v ∧ x = kn_Name (vn_node v) ∧
    (drained_under_maintenance c (vn_node v) ∨
     (DeleteNotReadyNodes c = true ∧ ∃ now, ClockRead now ∈ l ∧ not_ready_for_timeout c (vn_node v) now)).
Proof.
  intros Hw l. subst l. unfold K8sReconcile. unfold bind at 1 2, attempt.
  destruct (traces_Get name (λ l _, l = []) ltac:(done) w) as (l & Hl & ->).
  destruct (client_Get name w) as [w1 [v|e|s]]; simpl in Hl |- *;
    unfold log_of, kw_logged in Hl; rewrite Hw in Hl; simpl in Hl.
  - intros Hx. exists v. split; [done|]. revert x Hx.
    destruct (reconcile_deletes c second (vn_node v) w1) as (l & Hl' & HQ).
    unfold log_of, kw_logged in Hl'. rewrite Hl', Hl. exact HQ.
  - destruct (IsNotFound e); simpl; rewrite Hl; by intros ?%not_elem_of_nil.
  - rewrite Hl. by intros ?%not_elem_of_nil.
Qed.

(** A node drained for maintenance. *)
Definition cond (type : string) (status : condition_status) (reason : string) (since : Z) : NodeCondition :=
  mkCondition type status reason "" since since.
Definition maintained : KNode :=
  mkKNode "n1" ∅ true []
    [cond NodeReady ConditionTrue "KubeletReady" 10; cond SlurmNodeDrain ConditionTrue ReasonNodeDrained 20;
     cond SoperatorChecksK8SNodeMaintenance ConditionTrue ReasonNodeDraining 15].
Definition quiet_kworld (n : KNode) (now : Z) : kworld :=
  KWorld {[kn_Name n := mkVNode 1 n]} ∅ now [] [] [].
Definition default_controller : k8sController := NewK8SNodesController 600 true "" "".
Lemma node_deleted_only_when_witness :
  ∃ v, (client_Get "n1" (quiet_kworld maintained 100)).2 = Ok v ∧ "n1" = kn_Name (vn_node v).
Proof.
  assert (CmdDelete "n1" ∈ kw_log (K8sReconcile default_controller 1 "n1" (quiet_kworld maintained 100)).1) as Hin.
  { replace (kw_log _) with [CmdDelete "n1"] by (vm_compute; reflexivity). in_list. }
  destruct (node_deleted_only_when default_controller 1 "n1" (quiet_kworld maintained 100) "n1" eq_refl Hin)
    as (v & H1 & H2 & _).
  exists v. exact (conj H1 H2).
Defined.

(** ** Which events may be dropped *)
Lemma last_filter_snoc (cs : list NodeCondition) cond t :
  last_condition (cs ++ [cond]) t = if String.eqb (cond_Type cond) t then Some cond else last_condition cs t.
Proof.
  unfold last_condition. rewrite filter_app, filter_cons, filter_nil.
  destruct (String.eqb_spec (cond_Type cond) t); case_decide; try done; [by rewrite last_snoc|by rewrite app_nil_r].
Qed.
Lemma populate_lookup c cs t :
  populateConditions c cs !! t = if watched_type c t then touch 0 <$> last_condition cs t else None.
Proof.
  unfold populateConditions. induction cs as [|cond cs IH] using rev_ind; [simpl; by destruct (watched_type c t)|].
  rewrite foldl_snoc, last_filter_snoc.
  destruct (String.eqb_spec (cond_Type cond) t) as [<-|Ht].
  - destruct (watched_type c (cond_Type cond)) eqn:Ew; [by simplify_map_eq|exact IH].
  - destruct (watched_type c (cond_Type cond)); [|exact IH]. rewrite lookup_insert_ne by done. exact IH.
Qed.
Lemma find_is_last cs t : NoDup (cond_Type <$> cs) → find_condition cs t = last_condition cs t.
Proof.
  intros Hnd. unfold find_condition, last_condition.
  assert (length (filter (λ c, cond_Type c = t) cs) ≤ 1)%nat as Hl.
  { induction cs as [|c cs IH]; [simpl; lia|]. rewrite filter_cons. apply NoDup_cons in Hnd as [Hc Hnd].
    case_decide as Et; [|by apply IH]. simpl. rewrite (proj2 (filter_nil_iff _ cs)); [done|].
    intros d Hd Ed. apply Hc, list_elem_of_fmap. exists d. split; [congruence|done]. }
  destruct (filter _ cs) as [|x [|y l]]; simpl in *; [done|done|lia].
Qed.

Ltac watched := unfold watched_type; simpl; by rewrite ?orb_true_r.

Section filtered.
  Context (c : k8sController) (old new : KNode).
  Context (Hfilter : UpdateFunc c old new = false).
  Context (Hname : kn_Name old = kn_Name new) (Hlabels : kn_Labels old = kn_Labels new).
  Context (Hold : NoDup (cond_Type <$> kn_Conditions old)) (Hnew : NoDup (cond_Type <$> kn_Conditions new)).

Lemma same_up_to_heartbeat t : watched_type c t = true →
  touch 0 <$> last_condition (kn_Conditions old) t = touch 0 <$> last_condition (kn_Conditions new) t.
Proof.
  intros Ht. unfold UpdateFunc in Hfilter. apply negb_false_iff, bool_decide_eq_true in Hfilter.
  pose proof (f_equal (λ m : gmap string NodeCondition, m !! t) Hfilter) as H. simpl in H.
  by rewrite !populate_lookup, Ht in H.
Qed.
Lemma same_decisions t : watched_type c t = true →
  let o := last_condition (kn_Conditions old) t in
  let n := last_condition (kn_Conditions new) t in
  IsConditionFalseOrEmpty o = IsConditionFalseOrEmpty n ∧ IsConditionTrue o = IsConditionTrue n ∧
  reason_of o = reason_of n ∧ transition_of o = transition_of n.
Proof.
  intros Ht%same_up_to_heartbeat. simpl.
  destruct (last_condition (kn_Conditions old) t) as [o|], (last_condition (kn_Conditions new) t) as [n|]; try done.
  simpl in *. injection Ht. intros. destruct o, n; simpl in *; subst. done.
Qed.
Lemma same_drain : processDrainCondition c old = processDrainCondition c new.
Proof.
  unfold processDrainCondition. rewrite Hlabels, Hname.
  destruct (same_decisions SlurmNodeDrain) as (-> & _ & -> & _); [watched|].
  destruct (same_decisions SoperatorChecksK8SNodeMaintenance) as (-> & -> & _ & _); [watched|].
  destruct (same_decisions HardwareIssuesSuspected) as (_ & -> & _ & _); [watched|]. done.
Qed.
Lemma same_reboot : processRebootCondition old = processRebootCondition new.
Proof.
  unfold processRebootCondition. rewrite Hname.
  destruct (same_decisions SlurmNodeReboot) as (-> & _ & -> & ->); [watched|].
  destruct (same_decisions SoperatorChecksK8SNodeDegraded) as (-> & _ & _ & ->); [watched|]. done.
Qed.
Lemma same_ready : processNotReadyCondition c old = processNotReadyCondition c new ∧
  ∀ second, requeueDurationForNotReady c second old = requeueDurationForNotReady c second new.
Proof.
  unfold processNotReadyCondition, requeueDurationForNotReady. rewrite Hname, !find_is_last by done.
  pose proof (same_up_to_heartbeat NodeReady) as Ht.
  specialize (Ht ltac:(watched)).
  destruct (last_condition (kn_Conditions old) NodeReady) as [o|],
    (last_condition (kn_Conditions new) NodeReady) as [n|]; try done.
  simpl in Ht. injection Ht. intros. destruct o, n; simpl in *; subst. done.
Qed.

(** C39: An update that the watch filter drops could not have mattered: when it keeps the
    name and the labels, reconciling the new node does, in every world, exactly what
    reconciling the old one does (nodes have at most one condition of a type). *)
Theorem filtered_update_irrelevant second w :
  reconcileNode c second old w = reconcileNode c second new w.
Proof.
  unfold reconcileNode. rewrite same_drain, same_reboot. destruct same_ready as [-> Hr]. by rewrite Hr.
Qed.
End filtered.

(** A heartbeat. *)
Definition maintained_later : KNode :=
  with_conditions maintained (touch 50 <$> kn_Conditions maintained).
Lemma filtered_update_irrelevant_witness :
  reconcileNode default_controller 1 maintained (quiet_kworld maintained 100) =
  reconcileNode default_controller 1 maintained_later (quiet_kworld maintained 100).
Proof.
  assert (NoDup (cond_Type <$> kn_Conditions maintained)) as Hnd.
  { apply (bool_decide_unpack _). vm_compute. exact I. }
  exact (filtered_update_irrelevant default_controller maintained maintained_later eq_refl eq_refl eq_refl Hnd Hnd
    1 (quiet_kworld maintained 100)).
Defined.

(** ** The label matcher ignores exactly the configured labels *)
Definition clean_label (p : string * string) : Prop :=
  p.1 ≠ "" ∧ p.2 ≠ "" ∧ no_space p.1 = true ∧ no_space p.2 = true ∧
  no_char "="%char p.1 = true ∧ no_char ","%char p.1 = true ∧ no_char ","%char p.2 = true.
Definition label_text (p : string * string) : string := p.1 +:+ "=" +:+ p.2.

Lemma ShouldIgnoreNode_spec m labels :
  ShouldIgnoreNode m labels = true ↔ ∃ k v, labels !! k = Some v ∧ v ∈ default [] (m !! k).
Proof.
  unfold ShouldIgnoreNode. rewrite existsb_elem. split.
  - intros ([k vs] & Hin%elem_of_map_to_list & H). destruct (labels !! k) as [v|] eqn:El; [|done].
    apply existsb_elem in H as (v' & Hv & <-%String.eqb_eq). exists k, v. by rewrite Hin.
  - intros (k & v & Hl & Hv). destruct (m !! k) as [vs|] eqn:Em; [|by apply not_elem_of_nil in Hv].
    exists (k, vs). split; [by apply elem_of_map_to_list|]. rewrite Hl. apply existsb_elem.
    exists v. by rewrite String.eqb_refl.
Qed.
Lemma addIgnored_lookup m key value k v :
  v ∈ default [] (addIgnored m key value !! k) ↔ v ∈ default [] (m !! k) ∨ (k, v) = (key, value).
Proof.
  unfold addIgnored. destruct (existsb (String.eqb value) (default [] (m !! key))) eqn:E.
  - apply existsb_elem in E as (x & Hx & <-%String.eqb_eq). split; [auto|]. intros [?|[= -> ->]]; done.
  - destruct (decide (k = key)) as [->|Hk].
    + rewrite lookup_insert_eq. simpl. rewrite elem_of_app, list_elem_of_singleton. naive_solver.
    + rewrite lookup_insert_ne by done. naive_solver.
Qed.
Lemma no_space_app s t : no_space (s +:+ t) = no_space s && no_space t.
Proof. apply str_forallb_app. Qed.
Lemma parsePairs_ok pairs m : Forall clean_label pairs →
  ∃ m', parsePairs m (label_text <$> pairs) = Ok m' ∧
    ∀ k v, v ∈ default [] (m' !! k) ↔ v ∈ default [] (m !! k) ∨ (k, v) ∈ pairs.
Proof.
  intros Hp. revert m. induction Hp as [|[key value] pairs (H1 & H2 & H3 & H4 & H5 & H6 & H7) _ IH]; intros m.
  { exists m. split; [done|]. intros k v. pose proof (not_elem_of_nil (k, v)). naive_solver. }
  destruct (IH (addIgnored m key value)) as (m' & Hm' & Hspec). exists m'. simpl in *.
  rewrite TrimSpace_no_space by (unfold label_text; simpl; by rewrite !no_space_app, H3, H4).
  destruct (String.eqb_spec (label_text (key, value)) "") as [E|_].
  { unfold label_text in E. simpl in E. by destruct key. }
  assert (SplitN2 (label_text (key, value)) "=" = [key; value]) as -> by by apply SplitN2_char.
  rewrite !TrimSpace_no_space by done.
  destruct (String.eqb_spec key ""), (String.eqb_spec value ""); try done. simpl. split; [done|].
  intros k v. rewrite Hspec, addIgnored_lookup, elem_of_cons. naive_solver.
Qed.

(** A matcher built from "k1=v1,k2=v2,..." ignores exactly the nodes that carry one of the
    listed labels with the listed value. *)
Theorem label_matcher_exact pairs :
  Forall clean_label pairs →
  ∃ m, NewNodeLabelMatcher (Join (label_text <$> pairs) ",") = Ok m ∧
    ∀ labels : gmap string string,
      ShouldIgnoreNode m labels = true ↔ ∃ k v, (k, v) ∈ pairs ∧ labels !! k = Some v.
Proof.
  intros Hp. destruct (parsePairs_ok pairs ∅ Hp) as (m & Hm & Hspec). exists m. split.
  - unfold NewNodeLabelMatcher. destruct pairs as [|p pairs]; [by injection Hm as <-|].
    assert (String.eqb (Join (label_text <$> p :: pairs) ",") "" = false) as ->.
    { apply Forall_cons in Hp as [(H1 & _) _]. simpl. destruct p as [[|c k] v]; [done|].
      by destruct pairs. }
    rewrite (Split_Join _ ","%char); [done|done|]. apply Forall_fmap. eapply Forall_impl; [exact Hp|].
    intros [k v] (_ & _ & _ & _ & H5 & H6 & H7). unfold label_text, compose. simpl in *.
    by rewrite no_char_app, H6.
  - intros labels. rewrite ShouldIgnoreNode_spec. setoid_rewrite Hspec.
    split; [intros (k & v & ? & [Hv|?]); [by apply not_elem_of_nil in Hv|eauto]|naive_solver].
Qed.
Lemma label_matcher_exact_witness :
  ∃ m, NewNodeLabelMatcher "pool=gpu,zone=a" = Ok m ∧
    ∀ labels : gmap string string, ShouldIgnoreNode m labels = true ↔
      ∃ k v, (k, v) ∈ [("pool", "gpu"); ("zone", "a")] ∧ labels !! k = Some v.
Proof. apply (label_matcher_exact [("pool", "gpu"); ("zone", "a")]). repeat constructor; discriminate. Defined.

(** ** NotReady nodes are deleted or looked at again *)
(** While the clock stands still, a node that is not ready is either deleted in this pass, once
    the timeout has passed, or reconciled again after a positive delay, and any later pass
    that reads the clock at or after that delay deletes it (unless its Ready condition has
    changed by then). *)
Theorem not_ready_deleted_in_time c second n w ready :
  kw_ticks w = [] → kw_events w = [] → (0 < second)%Z →
  find_condition (kn_Conditions n) NodeReady = Some ready → cond_Status ready ≠ ConditionTrue →
  kw_server w !! kn_Name n ≠ None →
  let deleted w := kw_server (processNotReadyCondition c n w).1 !! kn_Name n = None in
  let requeue := match (requeueDurationForNotReady c second n (processNotReadyCondition c n w).1).2 with
                 | Ok d => d | _ => 0%Z end in
  (deleted w ∧ requeue = 0%Z) ∨
  (¬ deleted w ∧ (0 < requeue)%Z ∧
   ∀ w', kw_ticks w' = [] → kw_events w' = [] → (kw_now w + requeue <= kw_now w')%Z → deleted w').
Proof.
  intros Ht Hev Hs Hr Hst Hn. simpl.
  assert (∀ w, kw_ticks w = [] → kw_events w = [] →
    (NotReadyTimeout c <= kw_now w - cond_LastTransitionTime ready)%Z →
    kw_server (processNotReadyCondition c n w).1 !! kn_Name n = None ∧
    kw_now (processNotReadyCondition c n w).1 = kw_now w ∧ kw_ticks (processNotReadyCondition c n w).1 = []) as Hdel.
  { clear w Ht Hev Hn. intros w Ht Hev Hle. unfold processNotReadyCondition. rewrite Hr.
    rewrite bool_decide_eq_false_2 by done. unfold bind, time_Now. rewrite Ht, Z.add_0_r.
    rewrite (proj2 (Z.ltb_ge _ _)) by lia. unfold deleteK8SNode, wrapM, ignoreNotFound, client_Delete, api. simpl. rewrite Hev. simpl.
    destruct (kw_server w !! kn_Name n) eqn:E; simpl; [by rewrite lookup_delete_eq|done]. }
  destruct (Z.ltb_spec (kw_now w - cond_LastTransitionTime ready) (NotReadyTimeout c)) as [Hlt|Hge].
  - right. assert (processNotReadyCondition c n w = (KWorld (kw_server w) (kw_cache w) (kw_now w) [] [] (kw_log w ++ [ClockRead (kw_now w)]), Ok tt)) as E.
    { unfold processNotReadyCondition. rewrite Hr, bool_decide_eq_false_2 by done. unfold bind, time_Now.
      rewrite Ht, Hev, Z.add_0_r. by rewrite (proj2 (Z.ltb_lt _ _)). }
    rewrite E. unfold requeueDurationForNotReady. rewrite Hr, bool_decide_eq_false_2 by done. unfold bind, time_Now.
    simpl. rewrite Z.add_0_r, (proj2 (Z.ltb_lt _ _)) by done. simpl. split; [done|]. split; [lia|].
    intros w' Ht' Hev' Hle. apply Hdel; [done|done|lia].
  - left. destruct (Hdel w Ht Hev Hge) as (H1 & H2 & H3). split; [done|].
    unfold requeueDurationForNotReady. rewrite Hr, bool_decide_eq_false_2 by done. unfold bind, time_Now.
    rewrite H2, H3. simpl. by rewrite Z.add_0_r, (proj2 (Z.ltb_ge _ _)) by lia.
Qed.
Definition stuck : KNode := mkKNode "n1" ∅ false [] [cond NodeReady ConditionUnknown "NodeStatusUnknown" 100].
Lemma not_ready_deleted_in_time_witness :
  kw_server (processNotReadyCondition default_controller stuck (quiet_kworld stuck 800)).1 !! "n1" = None.
Proof.
  destruct (not_ready_deleted_in_time default_controller 1 stuck (quiet_kworld stuck 200)
    (cond NodeReady ConditionUnknown "NodeStatusUnknown" 100) eq_refl eq_refl ltac:(lia) eq_refl ltac:(done) ltac:(done))
    as [[_ H]|(_ & _ & H)]; [vm_compute in H; discriminate H|].
  apply (H (quiet_kworld stuck 800)); [reflexivity|reflexivity|vm_compute; discriminate].
Defined.
(** The two readings of the clock may fall on both sides of the timeout: then the node is neither
    deleted nor reconciled again. *)
Example not_ready_forgotten :
  let w := KWorld {["n1" := mkVNode 1 stuck]} ∅ 699 [0; 1]%Z [] [] in
  match K8sReconcile default_controller 1 "n1" w with
  | (w', Ok d) => d = 0%Z ∧ kw_log w' = [ClockRead 699; ClockRead 700]
  | _ => False
  end.
Proof. vm_compute. done. Qed.
