(* ===== verification/Recovery.v ===== *)
(** * Recovery of a degraded node

    The controller of Kubernetes nodes ([K8sChecks]) and the agent on the node ([Rebooter])
    talk only through the conditions of the Node: this file composes their passes, in a
    world that nothing else disturbs, into the whole cycle from a degraded node back to a
    healthy one. *)
From S2P Require Import Prelude GoStrings Effects Kube Rebooter K8sChecks.
From Stdlib Require String.

(** ** A condition written by the controller *)
Definition same_state (c d : NodeCondition) : bool :=
  bool_decide (cond_Status c = cond_Status d) && String.eqb (cond_Reason c) (cond_Reason d).
Definition apply_condition (cond : NodeCondition) (n : KNode) : KNode :=
  let cs := kn_Conditions n in
  with_conditions n (match index_condition cs (cond_Type cond) with
                     | Some (i, old) => if same_state old cond then cs else <[i := cond]> cs
                     | None => cs ++ [cond]
                     end).
Lemma index_condition_spec cs type :
  match index_condition cs type with
  | None => find_condition cs type = None
  | Some (i, old) => find_condition cs type = Some old ∧ cs !! i = Some old ∧
      (∀ new, cond_Type new = type → find_condition (<[i := new]> cs) type = Some new ∧
         cond_Type <$> <[i := new]> cs = cond_Type <$> cs ∧
         ∀ t, t ≠ type → find_condition (<[i := new]> cs) t = find_condition cs t)
  end.
Proof.
  induction cs as [|c cs IH]; [done|]. simpl. rewrite find_condition_cons.
  destruct (String.eqb_spec (cond_Type c) type) as [Hc|Hc].
  - split_and!; [done..|]. intros new Hnew. simpl. rewrite find_condition_cons, Hnew, String.eqb_refl.
    split_and!; [done|by rewrite Hc|]. intros t Ht. rewrite !find_condition_cons, Hc, Hnew.
    by destruct (String.eqb_spec type t).
  - destruct (index_condition cs type) as [[i old]|]; simpl; [|done].
    destruct IH as (H1 & H2 & H3). split_and!; [done..|]. intros new Hnew. simpl.
    destruct (H3 new Hnew) as (H4 & H5 & H6). rewrite find_condition_cons.
    destruct (String.eqb_spec (cond_Type c) type); [done|]. split_and!; [done|f_equal; exact H5|].
    intros t Ht. rewrite !find_condition_cons. by rewrite H6.
Qed.

Section apply_condition.
  Context (cond : NodeCondition) (n : KNode).
Lemma apply_condition_same : ∃ c, find_condition (kn_Conditions (apply_condition cond n)) (cond_Type cond) = Some c ∧
  cond_Status c = cond_Status cond ∧ cond_Reason c = cond_Reason cond.
Proof.
  unfold apply_condition. pose proof (index_condition_spec (kn_Conditions n) (cond_Type cond)) as Hi.
  destruct (index_condition _ _) as [[i old]|]; simpl.
  - destruct Hi as (H1 & _ & H3). destruct (same_state old cond) eqn:Es.
    + unfold same_state in Es. apply andb_true_iff in Es as [?%bool_decide_eq_true ?%String.eqb_eq]. by exists old.
    + destruct (H3 cond eq_refl) as (-> & _). by exists cond.
  - rewrite find_condition_snoc, Hi, String.eqb_refl. by exists cond.
Qed.
Lemma apply_condition_fresh :
  (∀ old, find_condition (kn_Conditions n) (cond_Type cond) = Some old → same_state old cond = false) →
  find_condition (kn_Conditions (apply_condition cond n)) (cond_Type cond) = Some cond.
Proof.
  unfold apply_condition. pose proof (index_condition_spec (kn_Conditions n) (cond_Type cond)) as Hi.
  destruct (index_condition _ _) as [[i old]|]; simpl.
  - destruct Hi as (H1 & _ & H3). intros Hs. rewrite (Hs old H1). by destruct (H3 cond eq_refl).
  - intros _. by rewrite find_condition_snoc, Hi, String.eqb_refl.
Qed.
Lemma apply_condition_other t : t ≠ cond_Type cond →
  find_condition (kn_Conditions (apply_condition cond n)) t = find_condition (kn_Conditions n) t.
Proof.
  intros Ht. unfold apply_condition. pose proof (index_condition_spec (kn_Conditions n) (cond_Type cond)) as Hi.
  destruct (index_condition _ _) as [[i old]|]; simpl.
  - destruct (same_state old cond); [done|]. destruct Hi as (_ & _ & H3).
    destruct (H3 cond eq_refl) as (_ & _ & H6). by apply H6.
  - rewrite find_condition_snoc. destruct (find_condition _ t); [done|].
    by destruct (String.eqb_spec (cond_Type cond) t).
Qed.
Lemma apply_condition_types :
  NoDup (cond_Type <$> kn_Conditions n) → NoDup (cond_Type <$> kn_Conditions (apply_condition cond n)).
Proof.
  intros Hnd. unfold apply_condition. pose proof (index_condition_spec (kn_Conditions n) (cond_Type cond)) as Hi.
  destruct (index_condition _ _) as [[i old]|]; simpl.
  - destruct (same_state old cond); [done|]. destruct Hi as (_ & _ & H3).
    by destruct (H3 cond eq_refl) as (_ & -> & _).
  - rewrite fmap_app. apply NoDup_app. split_and!; [done| |apply NoDup_singleton].
    intros t Ht Ht'%list_elem_of_singleton. subst t. apply list_elem_of_fmap in Ht as (d & Hd & Hin).
    unfold find_condition in Hi. rewrite head_None, filter_nil_iff in Hi. by apply (Hi d).
Qed.
End apply_condition.

(** ** A world at rest *)
Definition holds (w : kworld) (n : KNode) (now : Z) : Prop :=
  kw_events w = [] ∧ kw_ticks w = [] ∧ kw_now w = now ∧ ∃ rev, kw_server w !! kn_Name n = Some (mkVNode rev n).
Definition settles {A} (m : M kworld A) (n n' : KNode) (now : Z) : Prop :=
  ∀ w, holds w n now → ∃ w' a, m w = (w', Ok a) ∧ holds w' n' now.

Lemma settles_bind {A B} (m1 : M kworld A) (m2 : A → M kworld B) n n1 n2 now :
  settles m1 n n1 now → (∀ a, settles (m2 a) n1 n2 now) → settles (bind m1 m2) n n2 now.
Proof.
  intros H1 H2 w Hw. destruct (H1 w Hw) as (w1 & a & E1 & Hw1). destruct (H2 a w1 Hw1) as (w2 & b & E2 & Hw2).
  exists w2, b. unfold bind. by rewrite E1.
Qed.
Lemma settles_wrapM {A} msg (m : M kworld A) n n' now : settles m n n' now → settles (wrapM msg m) n n' now.
Proof. intros H w Hw. destruct (H w Hw) as (w' & a & E & ?). exists w', a. unfold wrapM. by rewrite E. Qed.
Lemma settles_ret {A} (a : A) n now : settles (ret a) n n now.
Proof. intros w Hw. by exists w, a. Qed.
Lemma time_Now_quiet w n now : holds w n now → ∃ w', time_Now w = (w', Ok now) ∧ holds w' n now.
Proof.
  intros (He & Ht & Hn & rev & Hs). unfold time_Now. rewrite Ht, Z.add_0_r, Hn. eexists. split; [done|].
  split_and!; [done..|]. by exists rev.
Qed.
Lemma setK8SNodeCondition_settles cond n now :
  settles (setK8SNodeCondition (kn_Name n) cond) n (apply_condition cond n) now.
Proof.
  intros w (He & Ht & Hn & rev & Hs). unfold setK8SNodeCondition, bind, attempt, client_Get, api. rewrite He. simpl.
  rewrite Hs. simpl. unfold apply_condition.
  destruct (index_condition (kn_Conditions n) (cond_Type cond)) as [[i old]|] eqn:Ei.
  - fold (same_state old cond). destruct (same_state old cond); simpl.
    + unfold bind, time_Now. simpl. rewrite Ht. unfold status_patch, api. simpl. rewrite Hs. eexists _, _. split; [done|].
      split_and!; simpl; [done|done|by rewrite Z.add_0_r|]. rewrite lookup_insert_eq. eexists. do 2 f_equal.
      unfold patch_status, merge_field, with_conditions. rewrite decide_True by done. by destruct n.
    + unfold status_patch, api. simpl. rewrite Hs. eexists _, _. split; [done|].
      split_and!; simpl; [done|done|done|]. rewrite lookup_insert_eq. eexists. do 2 f_equal.
      unfold patch_status. by rewrite merge_field_same.
  - unfold wrapM, status_update, api. simpl. rewrite Hs. simpl. rewrite Nat.eqb_refl. eexists _, _. split; [done|].
    split_and!; simpl; [done|done|done|]. rewrite lookup_insert_eq. by eexists.
Qed.
Lemma set_condition_settles name cond n now : kn_Name n = name →
  settles (setK8SNodeCondition name cond) n (apply_condition cond n) now.
Proof. intros <-. apply setK8SNodeCondition_settles. Qed.
Definition new_condition (now : Z) (type : string) (status : condition_status) (reason message : string) : NodeCondition :=
  mkCondition type status reason message now now.
Lemma newNodeCondition_quiet w n now type status reason message : holds w n now →
  ∃ w', newNodeCondition type status reason message w = (w', Ok (new_condition now type status reason message)) ∧ holds w' n now.
Proof.
  intros Hw. destruct (time_Now_quiet w n now Hw) as (w1 & E1 & H1).
  destruct (time_Now_quiet w1 n now H1) as (w2 & E2 & H2). exists w2. unfold newNodeCondition, bind.
  rewrite E1, E2. done.
Qed.
Lemma setNewCondition_settles n now type status reason message :
  settles (setNewCondition (kn_Name n) type status reason message) n
    (apply_condition (new_condition now type status reason message) n) now.
Proof.
  intros w Hw. destruct (newNodeCondition_quiet w n now type status reason message Hw) as (w1 & E1 & H1).
  unfold setNewCondition, bind. rewrite E1. by apply setK8SNodeCondition_settles.
Qed.

(** A heartbeat is never stored: where the node already has the condition with the same
    status and reason, the call reports success and leaves the node, heartbeat time
    included, exactly as it was (the base of the patch is copied after the change, so the patch is empty). *)
Theorem heartbeat_never_written n now cond old w :
  holds w n now → find_condition (kn_Conditions n) (cond_Type cond) = Some old → same_state old cond = true →
  ∃ w', setK8SNodeCondition (kn_Name n) cond w = (w', Ok tt) ∧ holds w' n now.
Proof.
  intros Hw Hf Hs. destruct (setK8SNodeCondition_settles cond n now w Hw) as (w' & [] & E & H). exists w'. split; [done|].
  assert (apply_condition cond n = n) as Hn; [|by rewrite Hn in H]. unfold apply_condition.
  pose proof (index_condition_spec (kn_Conditions n) (cond_Type cond)) as Hi.
  destruct (index_condition _ _) as [[i d]|]; [|congruence]. destruct Hi as (Hd & _). simplify_eq.
  rewrite Hs. by destruct n.
Qed.
Lemma heartbeat_never_written_witness :
  ∃ w', setK8SNodeCondition "n1" (K8sChecks.cond SlurmNodeDrain ConditionTrue ReasonNodeDrained 500)
          (quiet_kworld maintained 500) = (w', Ok tt) ∧ holds w' maintained 500.
Proof.
  apply (heartbeat_never_written maintained 500 (K8sChecks.cond SlurmNodeDrain ConditionTrue ReasonNodeDrained 500)
    (K8sChecks.cond SlurmNodeDrain ConditionTrue ReasonNodeDrained 20)); [|reflexivity|reflexivity].
  split_and!; [reflexivity..|]. exists 1%nat. reflexivity.
Defined.

(** ** The passes of the controller *)
Section controller_passes.
  Context (c : k8sController) (second : Z).

Definition status_is (status : condition_status) (n : KNode) (type : string) : Prop :=
  ∃ d, find_condition (kn_Conditions n) type = Some d ∧ cond_Status d = status.
Definition off (n : KNode) (type : string) : Prop :=
  ∀ d, find_condition (kn_Conditions n) type = Some d → cond_Status d = ConditionFalse.
Definition reason_is (reason : string) (n : KNode) (type : string) : Prop :=
  ∃ d, find_condition (kn_Conditions n) type = Some d ∧ cond_Reason d = reason.
(** A node the controller may drain, ready, not under maintenance, with sound hardware. *)
Definition in_service (n : KNode) : Prop :=
  NoDup (cond_Type <$> kn_Conditions n) ∧ ShouldIgnoreNode (nodeLabelMatcher c) (kn_Labels n) = false ∧
  off n SoperatorChecksK8SNodeMaintenance ∧ off n HardwareIssuesSuspected ∧ status_is ConditionTrue n NodeReady.

Lemma off_empty n type : NoDup (cond_Type <$> kn_Conditions n) → off n type →
  IsConditionFalseOrEmpty (last_condition (kn_Conditions n) type) = true ∧
  IsConditionTrue (last_condition (kn_Conditions n) type) = false.
Proof.
  intros Hnd Ho. rewrite <-find_is_last by done. unfold off in Ho.
  destruct (find_condition _ type) as [d|]; [|done]. simpl. by rewrite (Ho d eq_refl).
Qed.
Lemma in_service_apply cond n : in_service n →
  cond_Type cond ∉ [SoperatorChecksK8SNodeMaintenance; HardwareIssuesSuspected; NodeReady] →
  in_service (apply_condition cond n).
Proof.
  intros (H1 & H2 & H3 & H4 & H5) Ht. rewrite !not_elem_of_cons in Ht. destruct Ht as (T1 & T2 & T3 & _).
  unfold in_service, off, status_is. rewrite !apply_condition_other by done.
  split_and!; try done. by apply apply_condition_types.
Qed.
Lemma notready_settles n n1 now : status_is ConditionTrue n NodeReady →
  settles (if DeleteNotReadyNodes c then
             do! wrapM "process NotReady condition" (processNotReadyCondition c n);
             let! requeueAfter := requeueDurationForNotReady c second n in
             if (0 <? requeueAfter)%Z then ret requeueAfter else ret 0%Z
           else ret 0%Z) n1 n1 now.
Proof.
  intros (d & Hd & Hst). unfold processNotReadyCondition, requeueDurationForNotReady. rewrite Hd, Hst. simpl.
  destruct (DeleteNotReadyNodes c); [|apply settles_ret].
  eapply settles_bind; [apply settles_wrapM, settles_ret|]. intros _.
  eapply settles_bind; [apply settles_ret|]. intros r. destruct (0 <? r)%Z; apply settles_ret.
Qed.
(** Nothing to drain. *)
Lemma drain_idle n now : in_service n → off n SlurmNodeDrain → settles (processDrainCondition c n) n n now.
Proof.
  intros (Hnd & Hig & Hm & Hh & _) Hd. unfold processDrainCondition. rewrite Hig.
  destruct (off_empty n _ Hnd Hd) as [-> _]. destruct (off_empty n _ Hnd Hh) as [_ ->].
  destruct (off_empty n _ Hnd Hm) as [-> _]. apply settles_ret.
Qed.
Lemma reconcile_settles n n1 n2 now : status_is ConditionTrue n NodeReady →
  settles (processDrainCondition c n) n n1 now → settles (processRebootCondition n) n1 n2 now →
  settles (reconcileNode c second n) n n2 now.
Proof.
  intros Hr H1 H2. unfold reconcileNode. eapply settles_bind; [apply settles_wrapM, H1|]. intros _.
  eapply settles_bind; [apply settles_wrapM, H2|]. intros _. by apply notready_settles.
Qed.

(** The node after a pass. *)
Definition k8s_pass (now : Z) (n : KNode) : option KNode :=
  vn_node <$> kw_server (K8sReconcile c second (kn_Name n) (quiet_kworld n now)).1 !! kn_Name n.
Lemma apply_condition_name cond n : kn_Name (apply_condition cond n) = kn_Name n.
Proof. done. Qed.
Lemma k8s_pass_settles n n' now :
  kn_Name n' = kn_Name n → settles (reconcileNode c second n) n n' now → k8s_pass now n = Some n'.
Proof.
  intros Hname Hs. unfold k8s_pass, K8sReconcile, bind at 1, attempt, client_Get, api. simpl.
  rewrite lookup_singleton_eq. simpl.
  match goal with |- context [reconcileNode c second n ?w] => destruct (Hs w) as (w' & a & E & (_ & _ & _ & rev & Hw')) end.
  { split_and!; [done..|]. exists 1%nat. simpl. apply lookup_singleton_eq. }
  rewrite E. simpl. rewrite <-Hname, Hw'. done.
Qed.

(** A degraded node is asked to reboot. *)
Lemma pass_requests_reboot n now dg :
  in_service n → off n SlurmNodeDrain → off n SlurmNodeReboot →
  find_condition (kn_Conditions n) SoperatorChecksK8SNodeDegraded = Some dg → cond_Status dg = ConditionTrue →
  (transition_of (find_condition (kn_Conditions n) SlurmNodeReboot) < cond_LastTransitionTime dg)%Z →
  k8s_pass now n = Some (apply_condition (new_condition now SlurmNodeReboot ConditionTrue ReasonNodeNeedReboot
                                            MessageSlurmNodeDegraded) n).
Proof.
  intros Hin Hd Hr Hdg Hst Hlt. apply k8s_pass_settles; [done|].
  apply (reconcile_settles n n); [by apply Hin|by apply drain_idle|]. destruct Hin as (Hnd & _).
  unfold processRebootCondition. destruct (off_empty n _ Hnd Hr) as [-> _].
  rewrite <-!find_is_last, Hdg by done. simpl. rewrite Hst. simpl.
  rewrite (proj2 (Z.ltb_lt _ _)) by done. apply setNewCondition_settles.
Qed.
(** A node drained for a reboot is released. *)
Lemma pass_releases_drain n now : 
  in_service n → status_is ConditionTrue n SlurmNodeDrain → reason_is ReasonNodeDrained n SlurmNodeDrain →
  status_is ConditionTrue n SlurmNodeReboot → reason_is ReasonNodeRebooting n SlurmNodeReboot →
  k8s_pass now n = Some (apply_condition (new_condition now SlurmNodeDrain ConditionFalse ReasonNodeRebooted
                                            MessageNodeIsRebooted) n).
Proof.
  intros (Hnd & Hig & Hm & Hh & Hrd) (d & Hd & Hds) (d' & Hd' & Hdr) (r & Hr & Hrs) (r' & Hr' & Hrr).
  apply k8s_pass_settles; [done|]. eapply reconcile_settles; [done|..].
  - unfold processDrainCondition. rewrite Hig. destruct (off_empty n _ Hnd Hm) as [_ ->].
    rewrite <-!find_is_last, Hd by done. simpl. rewrite Hds. simpl.
    simplify_eq. rewrite Hdr. simpl. apply setNewCondition_settles.
  - unfold processRebootCondition. rewrite <-!find_is_last, Hr by done. simpl. rewrite Hrs. simpl. simplify_eq.
    rewrite Hrr. apply settles_ret.
Qed.
(** After the reboot everything is reset. *)
Definition reset_conditions (now : Z) (n : KNode) : KNode :=
  foldl (λ n type, apply_condition (new_condition now type ConditionFalse ReasonNodeRebooted MessageNodeIsRebooted) n) n
    [SlurmNodeReboot; SlurmNodeDrain; SoperatorChecksK8SNodeDegraded].
Lemma pass_resets n now :
  in_service n → off n SlurmNodeDrain →
  status_is ConditionTrue n SlurmNodeReboot → reason_is ReasonNodeRebooted n SlurmNodeReboot →
  k8s_pass now n = Some (reset_conditions now n).
Proof.
  intros Hin Hd (r & Hr & Hrs) (r' & Hr' & Hrr). apply k8s_pass_settles; [done|].
  apply (reconcile_settles n n); [by apply Hin|by apply drain_idle|]. destruct Hin as (Hnd & _).
  unfold processRebootCondition. rewrite <-!find_is_last, Hr by done. simpl. rewrite Hrs. simpl. simplify_eq.
  rewrite Hrr. simpl. intros w Hw.
  destruct (newNodeCondition_quiet w n now SlurmNodeReboot ConditionFalse ReasonNodeRebooted MessageNodeIsRebooted Hw) as (w1 & E1 & H1).
  destruct (newNodeCondition_quiet w1 n now SlurmNodeDrain ConditionFalse ReasonNodeRebooted MessageNodeIsRebooted H1) as (w2 & E2 & H2).
  destruct (newNodeCondition_quiet w2 n now SoperatorChecksK8SNodeDegraded ConditionFalse ReasonNodeRebooted MessageNodeIsRebooted H2) as (w3 & E3 & H3).
  rewrite (bind_ok _ _ _ _ _ E1), (bind_ok _ _ _ _ _ E2), (bind_ok _ _ _ _ _ E3).
  revert w3 E3 H3. intros w3 _. generalize w3. unfold setK8SNodeConditions, reset_conditions. simpl.
  do 3 (eapply settles_bind; [by apply settles_wrapM, set_condition_settles|]; intros _).
  apply settles_ret.
Qed.
(** A healthy node is left alone. *)
Lemma pass_idle n now :
  in_service n → off n SlurmNodeDrain → off n SlurmNodeReboot → off n SoperatorChecksK8SNodeDegraded →
  k8s_pass now n = Some n.
Proof.
  intros Hin Hd Hr Hdg. apply k8s_pass_settles; [done|].
  apply (reconcile_settles n n); [by apply Hin|by apply drain_idle|]. destruct Hin as (Hnd & _).
  unfold processRebootCondition. destruct (off_empty n _ Hnd Hr) as [-> _].
  destruct (off_empty n _ Hnd Hdg) as [-> _]. apply settles_ret.
Qed.
End controller_passes.

(** ** What the agent keeps *)
Ltac not_listed := rewrite !not_elem_of_cons; split_and!; try apply not_elem_of_nil; intros ?; discriminate.
Section agent.
  Context (c : k8sController).
Lemma set_condition_types now type status reason message n :
  NoDup (cond_Type <$> kn_Conditions n) →
  NoDup (cond_Type <$> kn_Conditions (set_condition now type status reason message n)).
Proof.
  intros Hnd. unfold set_condition, mutateCondition.
  pose proof (replaceCondition_find (mkCondition type status reason message now now) (kn_Conditions n)) as Hr.
  destruct (replaceCondition _ _) as [[new' cs']|]; simpl in *.
  - destruct Hr as (_ & _ & _ & _ & _ & ->). done.
  - rewrite fmap_app. apply NoDup_app. split_and!; [done| |apply NoDup_singleton].
    intros t Ht Ht'%list_elem_of_singleton. subst t. apply list_elem_of_fmap in Ht as (d & Hd & Hin).
    unfold find_condition in Hr. rewrite head_None, filter_nil_iff in Hr. by apply (Hr d).
Qed.
Lemma in_service_ext n n' : kn_Labels n' = kn_Labels n → kn_Conditions n' = kn_Conditions n →
  in_service c n → in_service c n'.
Proof. unfold in_service, off, status_is. by intros -> ->. Qed.
Lemma in_service_set now type status reason message n : in_service c n →
  type ∉ [SoperatorChecksK8SNodeMaintenance; HardwareIssuesSuspected; NodeReady] →
  in_service c (set_condition now type status reason message n).
Proof.
  intros (H1 & H2 & H3 & H4 & H5) Ht. rewrite !not_elem_of_cons in Ht. destruct Ht as (T1 & T2 & T3 & _).
  unfold in_service, off, status_is. rewrite !set_condition_other by done.
  destruct (set_condition_spec now type status reason message n) as (_ & _ & -> & _).
  split_and!; try done. by apply set_condition_types.
Qed.
Lemma in_service_taint add n : in_service c n → in_service c (mutateTaint add n).1.
Proof.
  apply in_service_ext; [|apply mutateTaint_fields]. unfold mutateTaint.
  by destruct add; [destruct (IsNodeTaintedWithNoExecute n)|destruct (_ =? _)%nat].
Qed.
Lemma in_service_rebooting m now n : in_service c n → in_service c (rebooting_node m now n).
Proof.
  intros Hin. unfold rebooting_node, drained_node, evicted_node.
  do 2 (apply in_service_set; [|not_listed]).
  assert (in_service c (with_unschedulable
    (set_condition now SlurmNodeDrain ConditionTrue ReasonNodeDraining MessageDraining n) true)) as H.
  { apply (in_service_ext (set_condition now SlurmNodeDrain ConditionTrue ReasonNodeDraining MessageDraining n)); [done..|].
    apply in_service_set; [exact Hin|not_listed]. }
  destruct (String.eqb m RebooterEvict); [by apply in_service_taint|done].
Qed.
Lemma in_service_restarted now n : in_service c n → in_service c (restarted_node now n).
Proof.
  intros Hin. unfold restarted_node, undrained_node. do 2 (apply in_service_set; [|not_listed]).
  apply in_service_taint. by eapply in_service_ext; [..|exact Hin].
Qed.
Lemma in_service_reset now n : in_service c n → in_service c (reset_conditions now n).
Proof. intros Hin. unfold reset_conditions. simpl. do 3 (apply in_service_apply; [|not_listed]). done. Qed.
End agent.

(** ** The cycle *)
Section cycle.
  Context (c : k8sController) (second : Z).
  Context (steps : nat) (evictionMethod : string) (reconcileTimeout : Z) (podsOnNode : outcome (list NodePod)).
  Context (Hsteps : (0 < steps)%nat) (Hev : all_evicted evictionMethod podsOnNode).
Let agent := pass steps evictionMethod reconcileTimeout podsOnNode.

Lemma rebooting_conditions now n c0 :
  find_condition (kn_Conditions n) SlurmNodeReboot = Some c0 → cond_Reason c0 ≠ ReasonNodeRebooting →
  let n' := rebooting_node evictionMethod now n in
  find_condition (kn_Conditions n') SlurmNodeReboot =
    Some (mkCondition SlurmNodeReboot ConditionTrue ReasonNodeRebooting MessageRebooting now now) ∧
  (∃ d, find_condition (kn_Conditions n') SlurmNodeDrain = Some d ∧ cond_Status d = ConditionTrue ∧
        cond_Reason d = ReasonNodeDrained) ∧
  kn_Taints n' = kn_Taints (evicted_node evictionMethod n).
Proof.
  intros Hc Hr. simpl. unfold rebooting_node. rewrite set_condition_same.
  destruct (drained_node_fields evictionMethod now n) as (_ & Ht & ->). rewrite Hc. split_and!.
  - unfold transition_time. destruct (String.eqb_spec (cond_Reason c0) ReasonNodeRebooting); [done|].
    by rewrite andb_false_r.
  - rewrite set_condition_other by done. unfold drained_node. rewrite set_condition_same. by eexists.
  - destruct (set_condition_spec now SlurmNodeReboot ConditionTrue ReasonNodeRebooting MessageRebooting
      (drained_node evictionMethod now n)) as (_ & -> & _). rewrite Ht.
    unfold evicted_node. by destruct (String.eqb _ _).
Qed.
Lemma restarted_conditions now n :
  let n' := restarted_node now n in
  kn_Unschedulable n' = false ∧ kn_Taints n' = filter otherTaint (kn_Taints n) ∧ off n' SlurmNodeDrain ∧
  status_is ConditionTrue n' SlurmNodeReboot ∧ reason_is ReasonNodeRebooted n' SlurmNodeReboot.
Proof.
  simpl. unfold restarted_node, off, status_is, reason_is.
  destruct (set_condition_spec now SlurmNodeReboot ConditionTrue ReasonNodeRebooted MessageRebooted
    (undrained_node now n)) as (-> & -> & _).
  destruct (undrained_node_fields now n) as (-> & -> & (t & Hd) & _).
  rewrite set_condition_same, set_condition_other, Hd by done.
  split_and!; [done|done|by intros ? [= <-]|by eexists|by eexists].
Qed.
Lemma evicted_taints_back n : IsNodeTaintedWithNoExecute n = false →
  filter otherTaint (kn_Taints (evicted_node evictionMethod n)) = kn_Taints n.
Proof.
  intros Hn. unfold evicted_node. destruct (String.eqb _ _).
  - pose proof (mutateTaint_roundtrip n Hn) as Hrt. rewrite mutateTaint_remove in Hrt.
    by apply (f_equal kn_Taints) in Hrt.
  - apply filter_all. intros x Hx. left. intros Hk.
    assert (IsNodeTaintedWithNoExecute n = true); [|congruence].
    apply existsb_elem. exists x. split; [done|]. by apply String.eqb_eq.
Qed.
Lemma off_apply now type reason message n :
  off (apply_condition (new_condition now type ConditionFalse reason message) n) type.
Proof.
  intros d Hd. destruct (apply_condition_same (new_condition now type ConditionFalse reason message) n)
    as (d' & Hd' & Hs & _). change (cond_Type _) with type in Hd'. rewrite Hd in Hd'. by simplify_eq.
Qed.
Lemma reset_conditions_spec now n :
  let n' := reset_conditions now n in
  kn_Unschedulable n' = kn_Unschedulable n ∧ kn_Taints n' = kn_Taints n ∧
  off n' SlurmNodeDrain ∧ off n' SlurmNodeReboot ∧ off n' SoperatorChecksK8SNodeDegraded.
Proof.
  simpl. unfold reset_conditions. simpl.
  set (n1 := apply_condition (new_condition now SlurmNodeReboot ConditionFalse ReasonNodeRebooted MessageNodeIsRebooted) n).
  set (n2 := apply_condition (new_condition now SlurmNodeDrain ConditionFalse ReasonNodeRebooted MessageNodeIsRebooted) n1).
  split_and!; [done|done| | |].
  - unfold off. rewrite apply_condition_other by done. apply off_apply.
  - unfold off. rewrite apply_condition_other by done. unfold n2. rewrite apply_condition_other by done. apply off_apply.
  - apply off_apply.
Qed.

(** C1: A degraded node recovers, when nothing interferes.  The controller asks for the reboot; the agent drains the
    node and reboots the machine; the controller releases the drain; the restarted agent brings the
    node back; the controller clears all three conditions.  At the end the node is
    schedulable with its original taints, Drain, Reboot and Degraded are all False, the machine was
    rebooted exactly in the second step, and a further pass changes nothing.
    Assumed: passes of the controller and of the agent alternate, no other client writes the Node, no request fails and the
    controller's cache is current; the node is in service (its conditions have different types, its labels are not among those to
    ignore, it is Ready, and neither its maintenance nor its hardware-issue condition is set); Drain and Reboot are off at first; it has no
    NoExecute taint of the agent's; Degraded is True since a time after the last transition of Reboot; the pods that the agent evicts are
    gone when it looks, or the eviction method is "drain"; the agent makes at least one attempt at a patch; and the machine started
    before the reboot was asked for and again after the reboot.  Without them it can fail: [cycle_ex] (an ignored label) and
    [lagging_cache_undoes] (a stale cache). *)
Theorem degraded_node_recovers n0 dg t1 t2 up2 t3 t4 up4 t5 t6 :
  in_service c n0 → off n0 SlurmNodeDrain → off n0 SlurmNodeReboot → IsNodeTaintedWithNoExecute n0 = false →
  find_condition (kn_Conditions n0) SoperatorChecksK8SNodeDegraded = Some dg → cond_Status dg = ConditionTrue →
  (transition_of (find_condition (kn_Conditions n0) SlurmNodeReboot) < cond_LastTransitionTime dg)%Z →
  (t2 - up2 < t1)%Z → (t2 <= t4 - up4)%Z →
  ∃ n1 w2 n3 w4 n5,
    k8s_pass c second t1 n0 = Some n1 ∧
    agent up2 t2 n1 = (w2, Ok reconcileTimeout) ∧ Rebooted ∈ w_log w2 ∧ kn_Unschedulable (w_node w2) = true ∧
    k8s_pass c second t3 (w_node w2) = Some n3 ∧
    agent up4 t4 n3 = (w4, Ok reconcileTimeout) ∧ (Rebooted ∉ w_log w4) ∧
    k8s_pass c second t5 (w_node w4) = Some n5 ∧
    kn_Unschedulable n5 = false ∧ kn_Taints n5 = kn_Taints n0 ∧
    off n5 SlurmNodeDrain ∧ off n5 SlurmNodeReboot ∧ off n5 SoperatorChecksK8SNodeDegraded ∧
    k8s_pass c second t6 n5 = Some n5.
Proof.
  intros Hin Hd Hr Htaint Hdg Hdgs Hlt Hup2 Hup4.
  set (req := new_condition t1 SlurmNodeReboot ConditionTrue ReasonNodeNeedReboot MessageSlurmNodeDegraded).
  pose (n1 := apply_condition req n0). pose (n2 := rebooting_node evictionMethod t2 n1).
  assert (find_condition (kn_Conditions n1) SlurmNodeReboot = Some req) as Hreq.
  { apply (apply_condition_fresh req n0). intros old Hold. unfold same_state. by rewrite (Hr old Hold). }
  assert (in_service c n1) as Hin1.
  { apply in_service_apply; [done|not_listed]. }
  destruct (reboot_pass steps evictionMethod reconcileTimeout (Ok up2) podsOnNode (Ok tt) Hsteps n1 t2) as (l2 & Hp2 & _);
    [by exists req, up2; split_and!|done|done|].
  destruct (rebooting_conditions t2 n1 req Hreq ltac:(done)) as (Hr2 & (d2 & Hd2 & Hds2 & Hdr2) & Ht2).
  fold n2 in Hp2, Hr2, Hd2, Ht2.
  pose (rel := new_condition t3 SlurmNodeDrain ConditionFalse ReasonNodeRebooted MessageNodeIsRebooted).
  pose (n3 := apply_condition rel n2). pose (n4 := restarted_node t4 n3).
  assert (in_service c n2) as Hin2 by by apply in_service_rebooting.
  assert (in_service c n3) as Hin3.
  { apply in_service_apply; [done|not_listed]. }
  assert (drain_not_requested n3) as Hd3.
  { intros x Hx. by rewrite (off_apply t3 SlurmNodeDrain ReasonNodeRebooted MessageNodeIsRebooted n2 x Hx). }
  destruct (restart_pass steps (Ok up4) Hsteps n3 t4
    (mkCondition SlurmNodeReboot ConditionTrue ReasonNodeRebooting MessageRebooting t2 t2) up4) as (l4 & Hp4 & Hl4);
    [unfold GetNodeConditions, n3; by rewrite apply_condition_other|done|done|done|].
  destruct (restarted_conditions t4 n3) as (Hu4 & Ht4 & Hd4 & Hrs4 & Hrr4).
  destruct (reset_conditions_spec t5 n4) as (Hu5 & Ht5 & Ho1 & Ho2 & Ho3).
  exists n1, (RbWorld n2 t2 [] (l2 ++ [Rebooted])), n3, (RbWorld n4 t4 [] l4), (reset_conditions t5 n4). simpl.
  assert (in_service c n4) as Hin4 by by apply in_service_restarted.
  split_and!; try done.
  - by eapply pass_requests_reboot.
  - apply elem_of_app. right. left.
  - unfold n2, rebooting_node. destruct (set_condition_spec t2 SlurmNodeReboot ConditionTrue ReasonNodeRebooting
      MessageRebooting (drained_node evictionMethod t2 n1)) as (-> & _). by apply drained_node_fields.
  - apply pass_releases_drain; [done|by exists d2|by exists d2|by eexists|by eexists].
  - unfold agent, pass, Reconcile. erewrite bind_ok by reflexivity. erewrite bind_ok by exact Hp4. simpl.
    by rewrite drain_flag.
  - by apply patches_in.
  - by apply pass_resets.
  - unfold n4. rewrite Ht4. unfold n3. simpl. rewrite Ht2. by rewrite evicted_taints_back.
  - apply pass_idle; [by apply in_service_reset|done..].
Qed.
End cycle.

(** A degraded node, ready since time 10. *)
Definition degraded : KNode :=
  mkKNode "n1" ∅ false [mkTaint "gpu" "" "NoSchedule"]
    [cond NodeReady ConditionTrue "KubeletReady" 10;
     cond SoperatorChecksK8SNodeDegraded ConditionTrue ReasonNodeNeedReboot 90].
Lemma degraded_off t : t ∉ [NodeReady; SoperatorChecksK8SNodeDegraded] → off degraded t.
Proof.
  rewrite !not_elem_of_cons. intros (H1 & H2 & _) d. cbn [kn_Conditions degraded].
  rewrite !find_condition_cons. cbn [cond_Type cond].
  destruct (String.eqb_spec NodeReady t); [congruence|].
  destruct (String.eqb_spec SoperatorChecksK8SNodeDegraded t); [congruence|done].
Qed.
Lemma degraded_in_service : in_service default_controller degraded.
Proof.
  split_and!; [apply (bool_decide_unpack _); vm_compute; exact I|reflexivity| | |].
  - apply degraded_off. not_listed.
  - apply degraded_off. not_listed.
  - by exists (cond NodeReady ConditionTrue "KubeletReady" 10).
Qed.
Lemma degraded_node_recovers_witness :
  ∃ n5, kn_Unschedulable n5 = false ∧ off n5 SoperatorChecksK8SNodeDegraded ∧ k8s_pass default_controller 1 220 n5 = Some n5.
Proof.
  destruct (degraded_node_recovers default_controller 1 4 RebooterEvict 30 (Ok []) ltac:(lia) (no_pods_evicted _) degraded
    (cond SoperatorChecksK8SNodeDegraded ConditionTrue ReasonNodeNeedReboot 90) 100 110 105 120 200 5 210 220)
    as (n1 & w2 & n3 & w4 & n5 & _ & _ & _ & _ & _ & _ & _ & _ & H1 & _ & _ & _ & H2 & H3).
  - exact degraded_in_service.
  - apply degraded_off. not_listed.
  - apply degraded_off. not_listed.
  - reflexivity.
  - reflexivity.
  - reflexivity.
  - vm_compute. reflexivity.
  - lia.
  - lia.
  - exists n5. split_and!; [exact H1|exact H2|exact H3].
Defined.

(** ** Nodes the controller is told to ignore

    The drain condition of a node with an ignored label is not released, so the restarted agent
    drains the node it has just brought back; clearing the conditions later does not bring it
    back again. *)
Definition ignoring : k8sController := NewK8SNodesController 600 true "" "pool=gpu".
Definition ignored_degraded : KNode :=
  mkKNode "n1" {["pool" := "gpu"]} false [] (kn_Conditions degraded).
Definition agent_pass (up now : Z) (n : KNode) : KNode := w_node (pass 4 RebooterEvict 30 (Ok []) up now n).1.
Definition next (c : k8sController) (now : Z) (n : KNode) : KNode := default n (k8s_pass c 1 now n).
(** Controller and agent alternate; the machine restarts between times 110 and 200. *)
Definition cycle (c : k8sController) (n : KNode) : KNode :=
  agent_pass 35 230 (next c 220 (next c 210 (agent_pass 5 200 (next c 120 (agent_pass 105 110 (next c 100 n)))))).
Example cycle_ex :
  (kn_Unschedulable (cycle default_controller degraded), length (kn_Taints (cycle default_controller degraded))) = (false, 1%nat) ∧
  (kn_Unschedulable (cycle ignoring ignored_degraded), kn_Taints (cycle ignoring ignored_degraded)) = (true, [noExecuteTaint]).
Proof. split; vm_compute; reflexivity. Qed.

(** ** A lagging cache

    The three conditions are cleared one after the other, each patch sending the whole list as the
    cache has it: while the cache lags, a later patch takes back an earlier one. *)
Definition rebooted_node : KNode :=
  mkKNode "n1" ∅ false []
    [cond NodeReady ConditionTrue "KubeletReady" 10; cond SlurmNodeDrain ConditionFalse ReasonNodeUndrained 200;
     cond SlurmNodeReboot ConditionTrue ReasonNodeRebooted 200;
     cond SoperatorChecksK8SNodeDegraded ConditionTrue ReasonNodeNeedReboot 90].
Definition lagging (n : KNode) : kworld :=
  let ns := {[kn_Name n := mkVNode 1 n]} in
  KWorld ns ns 300 [] (replicate 20 (ApiEvent id false None)) [].
Definition status_after (w : kworld) (type : string) : option condition_status :=
  v ← kw_server w !! "n1"; cond_Status <$> find_condition (kn_Conditions (vn_node v)) type.
Example lagging_cache_undoes :
  let w := (K8sReconcile default_controller 1 "n1" (lagging rebooted_node)).1 in
  (status_after w SlurmNodeReboot, status_after w SoperatorChecksK8SNodeDegraded) =
  (Some ConditionTrue, Some ConditionFalse).
Proof. vm_compute. reflexivity. Qed.
