(* ===== verification/SlurmNodesCtl.v ===== *)
(** * The controller of Slurm nodes

    [internal/controller/soperatorchecks/slurm_nodes_controller.go]: drained Slurm nodes with a
    well-known reason are handled by reason (reboot, replacement, failed health check), Slurm nodes on
    Kubernetes nodes under maintenance are drained, and the condition that lets the node be
    rebooted or replaced is set once every Slurm node on it is fully drained.

    The cluster is the world of [K8sChecks].  What Slurm and the API server answer to the
    other calls may depend on everything issued before. *)
From S2P Require Import Prelude GoStrings Effects Kube SlurmNode K8sChecks.
From Stdlib Require Import Ascii.
From Stdlib Require String.

(** ** Reasons ([internal/consts/slurm.go]) *)
Definition SlurmUserReasonHC : string := "[user_problem]".
Definition SlurmNodeReasonHC : string := "[node_problem]".
Definition SlurmHardwareReasonHC : string := "[hardware_problem]".
Definition SlurmNodeReasonKillTaskFailed : string := "Kill task failed".
Definition SlurmNodeReasonNodeReplacement : string := "[compute_maintenance] node replacement process".
Definition SlurmNodeReasonNodeReboot : string := "[compute_maintenance] node reboot process".
Definition SlurmNodeReasonsList : list string :=
  [SlurmNodeReasonKillTaskFailed; SlurmNodeReasonNodeReplacement; SlurmNodeReasonNodeReboot;
   SlurmNodeReasonHC; SlurmUserReasonHC; SlurmHardwareReasonHC].

(** ** Reasons of failed health checks *)
Definition MaxReasonLength : nat := 1024.
Definition MaxMessageLength : nat := Z.to_nat 32768.
Definition is_letter (c : ascii) : bool :=
  let n := N_of_ascii c in ((65 <=? n) && (n <=? 90) || (97 <=? n) && (n <=? 122))%N.
Definition alnum (c : ascii) : bool := is_letter c || is_digit c.
(** [^[A-Za-z]([A-Za-z0-9_,:]*[A-Za-z0-9_])?$]. *)
Definition reason_char (c : ascii) : bool :=
  alnum c || Ascii.eqb c "_"%char || Ascii.eqb c ","%char || Ascii.eqb c ":"%char.
Fixpoint last_char (d : ascii) (s : string) : ascii :=
  match s with EmptyString => d | String c s => last_char c s end.
Definition reasonRegex (s : string) : bool :=
  match s with
  | EmptyString => false
  | String c EmptyString => is_letter c
  | String c s => is_letter c && str_forallb reason_char s &&
      (let l := last_char c s in alnum l || Ascii.eqb l "_"%char)
  end.
(** Splitting at the matches of [[^A-Za-z0-9]+]. *)
Fixpoint split_words (s : string) : list string :=
  match s with
  | EmptyString => [EmptyString]
  | String c s' =>
      if alnum c then
        match split_words s' with
        | w :: ws => String c w :: ws
        | [] => [String c EmptyString]
        end
      else match s' with
           | String d _ => if alnum d then EmptyString :: split_words s' else split_words s'
           | EmptyString => [EmptyString; EmptyString]
           end
  end.
Fixpoint cleanWord (w : string) : string :=
  match w with
  | EmptyString => EmptyString
  | String c w => if is_letter c || is_digit c then String c (cleanWord w) else cleanWord w
  end.
Fixpoint removeLeadingNumbers (w : string) : string :=
  match w with
  | EmptyString => EmptyString
  | String c w' => if is_digit c then removeLeadingNumbers w' else w
  end.
Definition lower_first (s : string) : string :=
  match s with EmptyString => EmptyString | String c s => String (lower_char c) s end.
Fixpoint camelWords (firstWord : bool) (words : list string) : string :=
  match words with
  | [] => EmptyString
  | word :: words =>
      match removeLeadingNumbers (cleanWord word) with
      | EmptyString => camelWords firstWord words
      | String c w =>
          (if firstWord then ToLower (String c w) else String (upper_char c) (ToLower w))
            +:+ camelWords false words
      end
  end.
Definition toCamelCase (input : string) : string :=
  let input := TrimSpace input in
  match input with
  | EmptyString => EmptyString
  | String c _ =>
      if str_forallb alnum input && is_letter c then lower_first input
      else
        let finalResult := camelWords true (split_words input) in
        match finalResult with
        | EmptyString => EmptyString
        | String c _ => if is_letter c then finalResult else EmptyString
        end
  end.
Definition parseHealthCheckReason (healthCheckReason : string) : outcome (string * string) :=
  match SplitN2 healthCheckReason ": " with
  | [raw; message] =>
      let reason := toCamelCase (TrimPrefix raw "[node_problem] ") in
      let reason := if (MaxReasonLength <? String.length reason)%nat then str_take MaxReasonLength reason else reason in
      if negb (reasonRegex reason) then Err (ErrMsg "reason does not match required format")
      else Ok (reason, if (MaxMessageLength <? String.length message)%nat then str_take MaxMessageLength message else message)
  | _ => Err (ErrMsg "invalid healthCheckReason format")
  end.

(** ** The controller *)
Definition cluster : Type := string * string.
Record WorkerPod := mkWorkerPod { wp_Namespace : string; wp_Name : string; wp_Instance : string }.
Record PodCondition := mkPodCondition { pc_Type : string; pc_Status : condition_status; pc_LastTransitionTime : option Z }.
Definition PodScheduled : string := "PodScheduled".
Definition pod_cluster (pod : WorkerPod) : cluster := (wp_Namespace pod, wp_Instance pod).

Section controller.
  Context (enabledNodeReplacement : bool) (maintenanceConditionType : string) (requeueAfter : Z).
  (** The registered Slurm clients in the order of the map iteration, the creation time of
      every node, and the answers of Slurm, of the pod listings and of the paged node listing. *)
  Context (clients : list cluster) (creationTimestamp : string → Z).
  Context (slurm_list : list kcommand → cluster → response nodesBody).
  Context (slurm_get : list kcommand → cluster → string → response nodesBody).
  Context (slurm_post : list kcommand → cluster → string → response (option (list string))).
  Context (workerPods : list kcommand → string → outcome (list WorkerPod)).
  Context (podConditions : list kcommand → string → string → outcome (list PodCondition)).
  Context (nodePage : list kcommand → string → outcome (list KNode * string)).

Definition ask {A} (f : list kcommand → outcome A) : M kworld A := λ w, (w, f (kw_log w)).
Definition GetClient (cl : cluster) : M kworld () :=
  if bool_decide (cl ∈ clients) then ret tt else fail (ErrMsg "slurm cluster not found").
(** A POST of the node whose success is [cmd]: the decoded body is dereferenced without a
    check. *)
Definition postNode (cl : cluster) (name msg msgErrors : string) (cmd : kcommand) : M kworld () := λ w,
  match slurm_post (kw_log w) cl name with
  | NoResponse e => (w, Err (ErrWrap msg e))
  | NoJSON200 => (w, Halt "nil pointer dereference")
  | JSON200 errs =>
      if has_errors errs then (w, Err (ErrMsg msgErrors))
      else (KWorld (kw_server w) (kw_cache w) (kw_now w) (kw_ticks w) (kw_events w) (kw_log w ++ [cmd]), Ok tt)
  end.
Definition drainSlurmNode (cl : cluster) (name reason : string) : M kworld () :=
  do! GetClient cl;
  postNode cl name "post drain slurm node" "post drain returned errors" (CmdDrain cl name reason).
Definition undrainSlurmNode (cl : cluster) (name : string) : M kworld () :=
  do! GetClient cl;
  postNode cl name "post undrain slurm node" "post undrain returned errors" (CmdUndrain cl name).
Definition getSlurmNode (cl : cluster) (name : string) : M kworld Node :=
  do! GetClient cl;
  wrapM "get node" (ask (λ l, GetNode (slurm_get l cl name))).
Definition listWorkerPods (k8sNodeName : string) : M kworld (list WorkerPod) :=
  wrapM "list pods on node" (ask (λ l, workerPods l k8sNodeName)).
Fixpoint allFullyDrained (pods : list WorkerPod) : M kworld bool :=
  match pods with
  | [] => ret true
  | pod :: pods =>
      let! node := getSlurmNode (pod_cluster pod) (wp_Name pod) in
      if negb (IsIdleDrained node) || has node COMPLETING then ret false else allFullyDrained pods
  end.
Definition slurmNodesFullyDrained (k8sNodeName : string) : M kworld bool :=
  let! pods := listWorkerPods k8sNodeName in allFullyDrained pods.
(** Errors are collected, the loop goes on. *)
Fixpoint collectErrors {A} (xs : list A) (f : A → M kworld ()) : M kworld (list gerror) :=
  match xs with
  | [] => ret []
  | x :: xs =>
      let! r := attempt (f x) in
      let! es := collectErrors xs f in
      ret (match r with inl _ => es | inr e => e :: es end)
  end.
Definition joinErrors (es : list gerror) : M kworld () :=
  match errors_join es with None => ret tt | Some e => fail e end.
Definition drainSlurmNodes (k8sNodeName reason : string) : M kworld () :=
  let! pods := listWorkerPods k8sNodeName in
  let! es := collectErrors pods (λ pod, drainSlurmNode (pod_cluster pod) (wp_Name pod) reason) in
  joinErrors es.
Definition drainSlurmNodesWithConditionUpdate (k8sNodeName reason : string) (condition : NodeCondition) : M kworld () :=
  do! wrapM "drain slurm nodes" (drainSlurmNodes k8sNodeName reason);
  let! drained := wrapM "check that nodes are fully drained" (slurmNodesFullyDrained k8sNodeName) in
  if negb drained then ret tt
  else wrapM "set k8s node condition" (setK8SNodeCondition k8sNodeName condition).

(** ** Nodes with a failed health check *)
Fixpoint scheduledAt (conditions : list PodCondition) : option Z :=
  match conditions with
  | [] => None
  | c :: cs =>
      if negb (String.eqb (pc_Type c) PodScheduled) || negb (bool_decide (pc_Status c = ConditionTrue))
      then scheduledAt cs
      else pc_LastTransitionTime c
  end.
(** [None] is the zero time: not known. *)
Definition getSlurmNodeAssignmentTime (cl : cluster) (name : string) : M kworld (option Z) :=
  let! got := attempt (ask (λ l, podConditions l cl.1 name)) in
  match got with
  | inr e => if IsNotFound e then ret None else fail (ErrWrap "get worker pod" e)
  | inl conditions => ret (scheduledAt conditions)
  end.
Definition after (t : option Z) (u : Z) : bool := match t with Some t => (u <? t)%Z | None => false end.
Definition processSetUnhealthy (k8sNode : KNode) (cl : cluster) (slurmNode : Node) (reason : NodeReason) : M kworld () :=
  if negb enabledNodeReplacement then ret tt
  else
    let! assignmentTime := wrapM "get slurm node assignment time" (getSlurmNodeAssignmentTime cl (node_Name slurmNode)) in
    if (reason_ChangedAt reason <? creationTimestamp (kn_Name k8sNode))%Z || after assignmentTime (reason_ChangedAt reason)
    then undrainSlurmNode cl (node_Name slurmNode)
    else if IsConditionTrue (find_condition (kn_Conditions k8sNode) HardwareIssuesSuspected) then ret tt
    else
      let! drained := wrapM "check that nodes are fully drained before setting unhealthy"
                        (slurmNodesFullyDrained (kn_Name k8sNode)) in
      if negb drained then ret tt
      else
        let! cond := newNodeCondition HardwareIssuesSuspected ConditionTrue ReasonGPUHealthCheckFailed (node_Comment slurmNode) in
        wrapM "set k8s node condition" (setK8SNodeCondition (kn_Name k8sNode) cond).
Definition processHealthCheckFailed (k8sNode : KNode) (cl : cluster) (slurmNode : Node) (reason : NodeReason) : M kworld () :=
  if negb enabledNodeReplacement then ret tt
  else
    let! _ := wrapM "parse health check reason" (lift (parseHealthCheckReason (reason_OriginalReason reason))) in
    processSetUnhealthy k8sNode cl slurmNode reason.

(** ** Nodes to reboot *)
Definition processKillTaskFailed (k8sNode : KNode) (cl : cluster) (slurmNode : Node) (reason : NodeReason) : M kworld () :=
  let drainWithCondition :=
    let! cond := newNodeCondition SoperatorChecksK8SNodeDegraded ConditionTrue ReasonNodeNeedReboot MessageSlurmNodeDegraded in
    wrapM "drain slurm nodes"
      (drainSlurmNodesWithConditionUpdate (node_InstanceID slurmNode) SlurmNodeReasonNodeReboot cond) in
  match find_condition (kn_Conditions k8sNode) SoperatorChecksK8SNodeDegraded with
  | None => drainWithCondition
  | Some degraded =>
      if bool_decide (cond_Status degraded = ConditionTrue) then ret tt
      else if (reason_ChangedAt reason <? cond_LastTransitionTime degraded)%Z
      then undrainSlurmNode cl (node_Name slurmNode)
      else drainWithCondition
  end.

(** ** Maintenance *)
(** The last condition of either type decides. *)
Definition maintenanceCondition (conditions : list NodeCondition) : option NodeCondition :=
  last (filter (λ c, cond_Type c = maintenanceConditionType ∨ cond_Type c = HardwareIssuesSuspected) conditions).
Definition processMaintenance (k8sNode : KNode) (drainFn undrainFn : M kworld ()) : M kworld () :=
  if IsConditionFalseOrEmpty (maintenanceCondition (kn_Conditions k8sNode)) then undrainFn else drainFn.
Definition processSlurmNodeMaintenance (k8sNode : KNode) (cl : cluster) (name : string) : M kworld () :=
  processMaintenance k8sNode (ret tt) (undrainSlurmNode cl name).
Definition processK8SNodeMaintenance (k8sNode : KNode) : M kworld () :=
  processMaintenance k8sNode
    (let! cond := newNodeCondition SoperatorChecksK8SNodeMaintenance ConditionTrue ReasonNodeDraining MessageMaintenanceScheduled in
     drainSlurmNodesWithConditionUpdate (kn_Name k8sNode) SlurmNodeReasonNodeReplacement cond)
    (ret tt).
(** [fuel] bounds the pages of the listing. *)
Fixpoint processK8SNodesMaintenance (fuel : nat) (nextToken : string) : M kworld () :=
  match fuel with
  | 0%nat => halt "the listing has more pages"
  | S fuel =>
      let! (items, continue) := wrapM "list k8s nodes" (wrapM "list nodes" (ask (λ l, nodePage l nextToken))) in
      do! forM items (λ k8sNode, wrapM "process maintenance" (processK8SNodeMaintenance k8sNode));
      if String.eqb continue "" then ret tt else processK8SNodesMaintenance fuel continue
  end.

(** ** Degraded nodes *)
Definition wellKnown (reason : string) : option string :=
  head (filter (λ r, Contains reason r = true) SlurmNodeReasonsList).
Definition degradedNode (node : Node) : option (Node * NodeReason) :=
  if negb (has node DRAIN) then None
  else match node_Reason node with
       | None => None
       | Some r =>
           match wellKnown (reason_Reason r) with
           | Some known => Some (node, mkReason known (reason_Reason r) (reason_ChangedAt r))
           | None => None
           end
       end.
Fixpoint findDegradedNodes (cls : list cluster) : M kworld (list (cluster * (Node * NodeReason))) :=
  match cls with
  | [] => ret []
  | cl :: cls =>
      let! slurmNodes := ask (λ l, ListNodes (slurm_list l cl)) in
      let! rest := findDegradedNodes cls in
      ret ((pair cl <$> omap degradedNode slurmNodes) ++ rest)
  end.
Definition processDegradedNode (d : cluster * (Node * NodeReason)) : M kworld () :=
  let '(cl, (node, reason)) := d in
  let! got := attempt (client_Get (node_InstanceID node)) in
  match got with
  | inr e => if IsNotFound e then ret tt else fail (ErrWrap "get k8s node" e)
  | inl v =>
      let k8sNode := vn_node v in
      let known := reason_Reason reason in
      if String.eqb known SlurmNodeReasonKillTaskFailed || String.eqb known SlurmNodeReasonNodeReboot
      then processKillTaskFailed k8sNode cl node reason
      else if String.eqb known SlurmNodeReasonNodeReplacement
      then processSlurmNodeMaintenance k8sNode cl (node_Name node)
      else if String.eqb known SlurmHardwareReasonHC
      then processSetUnhealthy k8sNode cl node reason
      else if String.eqb known SlurmNodeReasonHC
      then processHealthCheckFailed k8sNode cl node reason
      else ret tt
  end.
Definition SlurmReconcile (fuel : nat) : M kworld Z :=
  do! processK8SNodesMaintenance fuel "";
  let! degradedNodes := findDegradedNodes clients in
  let! errs := collectErrors degradedNodes processDegradedNode in
  do! joinErrors errs;
  ret requeueAfter.
End controller.

(** ** Conditions are written only on drained nodes *)
Section guards.
  Context (enabledNodeReplacement : bool) (maintenanceConditionType : string) (requeueAfter : Z).
  Context (clients : list cluster) (creationTimestamp : string → Z).
  Context (slurm_list : list kcommand → cluster → response nodesBody).
  Context (slurm_get : list kcommand → cluster → string → response nodesBody).
  Context (slurm_post : list kcommand → cluster → string → response (option (list string))).
  Context (workerPods : list kcommand → string → outcome (list WorkerPod)).
  Context (podConditions : list kcommand → string → string → outcome (list PodCondition)).
  Context (nodePage : list kcommand → string → outcome (list KNode * string)).

Definition fully_drained (l : list kcommand) (name : string) : Prop :=
  ∃ pods, workerPods l name = Ok pods ∧ ∀ pod, pod ∈ pods →
    ∃ n, GetNode (slurm_get l (pod_cluster pod) (wp_Name pod)) = Ok n ∧
         IsIdleDrained n = true ∧ has n COMPLETING = false.
Definition written (cmd : kcommand) : option string :=
  match cmd with CmdPatch name _ | CmdUpdate name _ => Some name | _ => None end.
(** Only readings of the clock come between the check and the write. *)
Definition drained_before (before : list kcommand) (name : string) : Prop :=
  ∃ lc ts, before = lc ++ (ClockRead <$> ts) ∧ fully_drained lc name.
Definition write_guard (before : list kcommand) (cmd : kcommand) : Prop :=
  match cmd with
  | CmdDelete _ => False
  | _ => ∀ name, written cmd = Some name → drained_before before name
  end.
Definition slurm_only (cmd : kcommand) : Prop :=
  match cmd with ClockRead _ | CmdDrain _ _ _ | CmdUndrain _ _ => True | _ => False end.
Lemma slurm_only_guard l cmd : slurm_only cmd → write_guard l cmd.
Proof. by destruct cmd. Qed.
Lemma guards_slurm_only {A} (m : M kworld A) : emits slurm_only m → guards write_guard m.
Proof. apply guards_of. apply slurm_only_guard. Qed.

Lemma traces_ask {A} (f : list kcommand → outcome A) l0 :
  traces_at l0 (ask f) (λ l r, l = [] ∧ r = f l0).
Proof. intros w Hw. exists []. simpl. rewrite app_nil_r. split; [done|]. unfold log_of, kw_logged in Hw. by rewrite Hw. Qed.
Lemma emits_ask {A} (P : kcommand → Prop) (f : list kcommand → outcome A) : emits P (ask f).
Proof. intros w. exists []. simpl. rewrite app_nil_r. split; [done|constructor]. Qed.
Lemma emits_Get (P : kcommand → Prop) name : emits P (client_Get name).
Proof. apply traces_Get. constructor. Qed.
Lemma emits_GetClient (P : kcommand → Prop) cl : emits P (GetClient clients cl).
Proof. unfold GetClient. case_bool_decide; auto with effects. Qed.
Lemma emits_postNode (P : kcommand → Prop) cl name msg msgErrors cmd :
  P cmd → emits P (postNode slurm_post cl name msg msgErrors cmd).
Proof.
  intros Hc w. unfold postNode. destruct (slurm_post (kw_log w) cl name) as [e| |errs];
    [exists []; simpl; rewrite app_nil_r; by split; [|constructor]..|].
  destruct (has_errors errs).
  - exists []. simpl. rewrite app_nil_r. by split; [|constructor].
  - exists [cmd]. split; [done|]. by apply Forall_singleton.
Qed.
Lemma emits_drainSlurmNode cl name reason : emits slurm_only (drainSlurmNode clients slurm_post cl name reason).
Proof. apply emits_bind; [apply emits_GetClient|]. intros. by apply emits_postNode. Qed.
Lemma emits_undrainSlurmNode cl name : emits slurm_only (undrainSlurmNode clients slurm_post cl name).
Proof. apply emits_bind; [apply emits_GetClient|]. intros. by apply emits_postNode. Qed.
Lemma emits_collectErrors {A} (P : kcommand → Prop) (xs : list A) f :
  (∀ x, emits P (f x)) → emits P (collectErrors xs f).
Proof.
  intros Hf. induction xs as [|x xs IH]; simpl; [auto with effects|].
  apply emits_bind; [by apply emits_attempt|]. intros r. apply emits_bind; [done|auto with effects].
Qed.
Lemma emits_joinErrors (P : kcommand → Prop) es : emits P (joinErrors es).
Proof. unfold joinErrors. destruct (errors_join es); auto with effects. Qed.
Lemma emits_drainSlurmNodes name reason :
  emits slurm_only (drainSlurmNodes clients slurm_post workerPods name reason).
Proof.
  apply emits_bind; [apply emits_wrapM, emits_ask|]. intros pods.
  apply emits_bind; [apply emits_collectErrors; intros; apply emits_drainSlurmNode|]. intros. apply emits_joinErrors.
Qed.
Lemma emits_newCondition (P : kcommand → Prop) type status reason message :
  (∀ now, P (ClockRead now)) → emits P (newNodeCondition type status reason message).
Proof.
  intros HP. apply emits_bind; [by apply emits_time_Now|]. intros.
  apply emits_bind; [by apply emits_time_Now|auto with effects].
Qed.

(** The check issues nothing and tells whether the node is fully drained. *)
Lemma getSlurmNode_at l0 cl name :
  traces_at l0 (getSlurmNode clients slurm_get cl name) (λ l r, l = [] ∧ ∀ n, r = Ok n → GetNode (slurm_get l0 cl name) = Ok n).
Proof.
  eapply traces_at_bind with (Q1 := λ l _, l = []).
  - apply traces_at_of. unfold GetClient. case_bool_decide; [by apply traces_ret|by apply traces_fail].
  - intros _ l1 ->. rewrite app_nil_r. apply traces_at_wrapM.
    eapply traces_at_weaken; [apply traces_ask|]. simpl. intros l r [-> ->]. split; [done|].
    intros n. by destruct (GetNode _).
  - by intros e l ->.
  - by intros s l ->.
Qed.
Lemma allFullyDrained_at pods l0 :
  traces_at l0 (allFullyDrained clients slurm_get pods) (λ l r, l = [] ∧ (r = Ok true → ∀ pod, pod ∈ pods →
    ∃ n, GetNode (slurm_get l0 (pod_cluster pod) (wp_Name pod)) = Ok n ∧
         IsIdleDrained n = true ∧ has n COMPLETING = false)).
Proof.
  induction pods as [|pod pods IH]; simpl.
  { apply traces_at_of, traces_ret. split; [done|]. by intros _ ? ?%not_elem_of_nil. }
  eapply traces_at_bind; [apply getSlurmNode_at|..]; simpl; [|by intros ? ? [-> _]..].
  intros n l1 [-> Hn]. rewrite app_nil_r. specialize (Hn n eq_refl).
  destruct (IsIdleDrained n) eqn:Ei; simpl; [|apply traces_at_of, traces_ret; done].
  destruct (has n COMPLETING) eqn:Ec; [apply traces_at_of, traces_ret; done|].
  eapply traces_at_weaken; [apply IH|]. simpl. intros l r [-> Hr]. split; [done|].
  intros Hok p [->|Hp]%elem_of_cons; [by exists n|by apply Hr].
Qed.
Lemma slurmNodesFullyDrained_at msg name l0 :
  traces_at l0 (wrapM msg (slurmNodesFullyDrained clients slurm_get workerPods name))
    (λ l r, l = [] ∧ (r = Ok true → fully_drained l0 name)).
Proof.
  apply traces_at_wrapM. eapply traces_at_bind with (Q1 := λ l r, l = [] ∧ ∀ pods, r = Ok pods → workerPods l0 name = Ok pods).
  - apply traces_at_wrapM. eapply traces_at_weaken; [apply traces_ask|]. simpl. intros l r [-> ->]. split; [done|].
    intros pods. by destruct (workerPods l0 name).
  - intros pods l1 [-> Hp]. rewrite app_nil_r. eapply traces_at_weaken; [apply allFullyDrained_at|]. simpl.
    intros l r [-> Hr]. split; [done|]. destruct r as [[]| |]; simpl; try done. intros _. exists pods. split; [by apply Hp|by apply Hr].
  - intros e l [-> _]. split; [done|discriminate].
  - intros e l [-> _]. split; [done|discriminate].
Qed.
Definition one_write (name : string) (l : list kcommand) : Prop :=
  ∃ ts, l = (ClockRead <$> ts) ∨ ∃ cmd, l = (ClockRead <$> ts) ++ [cmd] ∧ written cmd = Some name.
Lemma patch_one_write name base new : traces (status_patch name base new) (λ l _, one_write name l).
Proof.
  apply traces_api; [|exists []; by left]. intros w. destruct (kw_server w !! name).
  - eexists [_]. split; [reflexivity|]. exists []. right. by eexists.
  - exists []. simpl. rewrite app_nil_r. split; [done|]. exists []. by left.
Qed.
Lemma update_one_write name rev new : traces (status_update name rev new) (λ l _, one_write name l).
Proof.
  apply traces_api; [|exists []; by left]. intros w. destruct (kw_server w !! name) as [v|].
  - destruct (rev =? vn_rev v)%nat.
    + eexists [_]. split; [reflexivity|]. exists []. right. by eexists.
    + exists []. simpl. rewrite app_nil_r. split; [done|]. exists []. by left.
  - exists []. simpl. rewrite app_nil_r. split; [done|]. exists []. by left.
Qed.
Lemma setK8SNodeCondition_writes name cond : traces (setK8SNodeCondition name cond) (λ l _, one_write name l).
Proof.
  eapply traces_bind with (Q1 := λ l _, l = []).
  - eapply traces_attempt with (Q1 := λ l _, l = []); [by apply traces_Get|done..].
  - intros [v|e] l ->; simpl.
    + destruct (index_condition (kn_Conditions (vn_node v)) (cond_Type cond)) as [[i c]|];
        [|apply traces_wrapM, update_one_write].
      destruct (_ && _); [|apply patch_one_write].
      eapply traces_bind with (Q1 := λ l _, ∃ now, l = [ClockRead now]); [apply traces_time_Now; eauto|..].
      * intros now l [now' ->]. eapply traces_weaken; [apply patch_one_write|]. simpl.
        intros l r (ts & [->|(cmd & -> & Hc)]); exists (now' :: ts); [by left|right; by exists cmd].
      * intros e l [now ->]. exists [now]. by left.
      * intros e l [now ->]. exists [now]. by left.
    + destruct (IsNotFound e); [apply traces_ret|apply traces_fail]; exists []; by left.
  - intros e l ->. exists []. by left.
  - intros e l ->. exists []. by left.
Qed.
Lemma guarded_one_write l0 name l :
  drained_before l0 name → one_write name l → guarded write_guard l0 l.
Proof.
  intros (lc & ts0 & -> & Hfd) (ts & Hl).
  assert (∀ ts l0, guarded write_guard l0 (ClockRead <$> ts)) as Hts.
  { intros ts' l0'. apply guarded_all. intros l1 cmd (t & -> & _)%list_elem_of_fmap. done. }
  destruct Hl as [->|(cmd & -> & Hc)]; [apply Hts|].
  apply guarded_app; [apply Hts|]. apply guarded_singleton.
  assert (drained_before ((lc ++ (ClockRead <$> ts0)) ++ (ClockRead <$> ts)) name) as Hd.
  { exists lc, (ts0 ++ ts). by rewrite fmap_app, app_assoc. }
  destruct cmd; simpl in *; simplify_eq; by intros ? [= <-].
Qed.
(** Checking first, then setting the condition. *)
Lemma check_then_set msg name (k : M kworld ()) l0 :
  (∀ l1, fully_drained l1 name → traces_at l1 k (λ l _, guarded write_guard l1 l)) →
  traces_at l0 (let! drained := wrapM msg (slurmNodesFullyDrained clients slurm_get workerPods name) in
                if negb drained then ret tt else k) (λ l _, guarded write_guard l0 l).
Proof.
  intros Hk. eapply guards_bind_at with (Q1 := λ l r, l = [] ∧ (r = Ok true → fully_drained l0 name)).
  - eapply traces_at_weaken; [apply slurmNodesFullyDrained_at|]. simpl. intros l r [-> Hr].
    split; [apply guarded_nil|done].
  - intros drained l1 [-> Hr]. rewrite app_nil_r. destruct drained; simpl.
    + by apply Hk, Hr.
    + apply traces_at_of, traces_ret, guarded_nil.
Qed.
Lemma set_guarded msg name cond l1 : fully_drained l1 name →
  traces_at l1 (wrapM msg (setK8SNodeCondition name cond)) (λ l _, guarded write_guard l1 l).
Proof.
  intros Hfd. apply traces_at_wrapM, traces_at_of. eapply traces_weaken; [apply setK8SNodeCondition_writes|]. simpl.
  intros l _. apply guarded_one_write. exists l1, []. by rewrite app_nil_r.
Qed.
Lemma guards_drainWithUpdate name reason cond :
  guards write_guard (drainSlurmNodesWithConditionUpdate clients slurm_get slurm_post workerPods name reason cond).
Proof.
  apply guards_bind; [apply guards_wrapM, guards_slurm_only, emits_drainSlurmNodes|]. intros _ l0.
  apply check_then_set. intros. by apply set_guarded.
Qed.
Lemma guards_clock {A} type status reason message (k : NodeCondition → M kworld A) :
  (∀ c, guards write_guard (k c)) →
  guards write_guard (bind (newNodeCondition type status reason message) k).
Proof. intros Hk. apply guards_bind; [|done]. apply guards_slurm_only. by apply emits_newCondition. Qed.
Lemma guards_assignment cl name : guards write_guard (getSlurmNodeAssignmentTime podConditions cl name).
Proof.
  apply guards_slurm_only, emits_bind; [apply emits_attempt, emits_ask|]. intros [cs|e]; [auto with effects|].
  destruct (IsNotFound e); auto with effects.
Qed.
Lemma guards_undrain cl name : guards write_guard (undrainSlurmNode clients slurm_post cl name).
Proof. apply guards_slurm_only, emits_undrainSlurmNode. Qed.
Lemma set_new_guarded msg name type status reason message l1 : fully_drained l1 name →
  traces_at l1 (let! c := newNodeCondition type status reason message in
                wrapM msg (setK8SNodeCondition name c)) (λ l _, guarded write_guard l1 l).
Proof.
  intros Hfd. eapply guards_bind_at with (Q1 := λ l r, ∃ ts, l = ClockRead <$> ts).
  - apply traces_at_of. eapply traces_weaken; [apply (emits_newCondition (λ cmd, ∃ t, cmd = ClockRead t)); eauto|].
    simpl. intros l r Hl. assert (∃ ts, l = ClockRead <$> ts) as [ts ->].
    { clear -Hl. induction Hl as [|cmd l [t ->] _ [ts ->]]; [by exists []|by exists (t :: ts)]. }
    split; [|eauto]. apply guarded_all. by intros l1' cmd (t & -> & _)%list_elem_of_fmap.
  - intros c l [ts ->]. apply traces_at_wrapM, traces_at_of. eapply traces_weaken; [apply setK8SNodeCondition_writes|].
    simpl. intros l' _. apply guarded_one_write. by exists l1, ts.
Qed.
Lemma guards_processSetUnhealthy k8sNode cl node reason :
  guards write_guard (processSetUnhealthy enabledNodeReplacement clients creationTimestamp slurm_get slurm_post
                        workerPods podConditions k8sNode cl node reason).
Proof.
  unfold processSetUnhealthy. destruct (negb enabledNodeReplacement); [auto with guards|].
  apply guards_bind; [apply guards_wrapM, guards_assignment|]. intros at'.
  destruct (_ || _); [apply guards_undrain|]. destruct (IsConditionTrue _); [auto with guards|].
  intros l0. apply check_then_set. intros. by apply set_new_guarded.
Qed.
Lemma guards_processKillTaskFailed k8sNode cl node reason :
  guards write_guard (processKillTaskFailed clients slurm_get slurm_post workerPods k8sNode cl node reason).
Proof.
  unfold processKillTaskFailed.
  assert (guards write_guard (let! cond := newNodeCondition SoperatorChecksK8SNodeDegraded ConditionTrue ReasonNodeNeedReboot MessageSlurmNodeDegraded in
    wrapM "drain slurm nodes" (drainSlurmNodesWithConditionUpdate clients slurm_get slurm_post workerPods
      (node_InstanceID node) SlurmNodeReasonNodeReboot cond))) as Hd.
  { apply guards_clock. intros. apply guards_wrapM, guards_drainWithUpdate. }
  destruct (find_condition _ _) as [dg|]; [|done]. case_bool_decide; [auto with guards|].
  destruct (_ <? _)%Z; [apply guards_undrain|done].
Qed.
Lemma guards_processDegradedNode d :
  guards write_guard (processDegradedNode enabledNodeReplacement maintenanceConditionType clients creationTimestamp
                        slurm_get slurm_post workerPods podConditions d).
Proof.
  destruct d as [cl [node reason]]. unfold processDegradedNode.
  apply guards_bind; [apply guards_slurm_only, emits_attempt, emits_Get|]. intros [v|e]; [|destruct (IsNotFound e); auto with guards].
  destruct (_ || _); [apply guards_processKillTaskFailed|].
  destruct (String.eqb _ _); [unfold processSlurmNodeMaintenance, processMaintenance; destruct (IsConditionFalseOrEmpty _);
    [apply guards_undrain|auto with guards]|].
  destruct (String.eqb _ _); [apply guards_processSetUnhealthy|].
  destruct (String.eqb _ _); [|auto with guards].
  unfold processHealthCheckFailed. destruct (negb _); [auto with guards|].
  apply guards_bind; [auto with guards|]. intros. apply guards_processSetUnhealthy.
Qed.
Lemma guards_collectErrors {A} (xs : list A) f : (∀ x, guards write_guard (f x)) → guards write_guard (collectErrors xs f).
Proof.
  intros Hf. induction xs as [|x xs IH]; simpl; [auto with guards|].
  apply guards_bind; [by apply guards_attempt|]. intros r. apply guards_bind; [done|auto with guards].
Qed.
Lemma guards_maintenance fuel token :
  guards write_guard (processK8SNodesMaintenance maintenanceConditionType clients slurm_get slurm_post workerPods nodePage fuel token).
Proof.
  revert token. induction fuel as [|fuel IH]; intros token; simpl; [auto with guards|].
  apply guards_bind; [do 2 apply guards_wrapM; apply guards_slurm_only, emits_ask|]. intros [items continue].
  apply guards_bind; [|intros _; destruct (String.eqb _ _); auto with guards].
  apply guards_forM. intros k8sNode _. apply guards_wrapM. unfold processK8SNodeMaintenance, processMaintenance.
  destruct (IsConditionFalseOrEmpty _); [auto with guards|]. apply guards_clock. intros. apply guards_drainWithUpdate.
Qed.
Lemma emits_findDegradedNodes (P : kcommand → Prop) cls : emits P (findDegradedNodes slurm_list cls).
Proof.
  induction cls as [|cl cls IH]; simpl; [auto with effects|].
  apply emits_bind; [apply emits_ask|]. intros. apply emits_bind; [done|auto with effects].
Qed.

(** C4: A condition that lets a node be rebooted or replaced (degraded, maintenance, hardware issues) is
    written only when every Slurm node on it has just been seen fully drained: IDLE and
    DRAIN and not COMPLETING, for every worker pod on the node, with nothing but readings of the clock between that
    check and the write.  The pass never deletes a node. *)
Theorem condition_only_when_drained fuel w l1 cmd l2 :
  kw_log w = [] →
  kw_log (SlurmReconcile enabledNodeReplacement maintenanceConditionType requeueAfter clients creationTimestamp
            slurm_list slurm_get slurm_post workerPods podConditions nodePage fuel w).1 = l1 ++ cmd :: l2 →
  (∀ x, cmd ≠ CmdDelete x) ∧ (∀ name, written cmd = Some name → drained_before l1 name).
Proof.
  intros Hw Hl. assert (write_guard l1 cmd) as Hg; [|by destruct cmd].
  eapply guards_elem; [|exact Hw|exact Hl]. unfold SlurmReconcile.
  apply guards_bind; [apply guards_maintenance|]. intros _.
  apply guards_bind; [apply guards_slurm_only, emits_findDegradedNodes|]. intros ds.
  apply guards_bind; [apply guards_collectErrors; intros; apply guards_processDegradedNode|]. intros es.
  apply guards_bind; [apply guards_slurm_only, emits_joinErrors|auto with guards].
Qed.
End guards.

(** ** A cluster with one worker on node n1, drained after a failed task *)
Definition worker_api : V0044Node :=
  mkAPINode (Some [IDLE; DRAIN]) (Some "worker-0") (Some "c") (Some "n1") (Some "Kill task failed")
    (Some (NoVal (Some true) (Some false) (Some 100%Z))) (Some ["main"]) (Some "") (Some "10.0.0.1") (Some "")
    None None None None None None None None None None.
Definition one_node (_ : list kcommand) (_ : cluster) : response nodesBody := JSON200 (NodesBody None [worker_api]).
Definition get_one (_ : list kcommand) (_ : cluster) (_ : string) : response nodesBody :=
  JSON200 (NodesBody None [worker_api]).
Definition post_ok (_ : list kcommand) (_ : cluster) (_ : string) : response (option (list string)) := JSON200 None.
Definition one_pod (_ : list kcommand) (_ : string) : outcome (list WorkerPod) := Ok [mkWorkerPod "ns" "worker-0" "c"].
Definition no_conditions (_ : list kcommand) (_ _ : string) : outcome (list PodCondition) := Ok [].
Definition no_pages (_ : list kcommand) (_ : string) : outcome (list KNode * string) := Ok ([], "").
Definition healthy : KNode := mkKNode "n1" ∅ false [] [cond NodeReady ConditionTrue "KubeletReady" 10].
Definition degraded_written : list kcommand :=
  [ClockRead 200; ClockRead 200; CmdDrain ("ns", "c") "worker-0" SlurmNodeReasonNodeReboot].
Lemma condition_only_when_drained_witness :
  drained_before get_one one_pod degraded_written "n1".
Proof.
  destruct (condition_only_when_drained true DefaultMaintenanceConditionType 30 [("ns", "c")] (λ _, 0%Z)
    one_node get_one post_ok one_pod no_conditions no_pages 5 (quiet_kworld healthy 200) degraded_written
    (CmdUpdate "n1" [cond NodeReady ConditionTrue "KubeletReady" 10;
                     mkCondition SoperatorChecksK8SNodeDegraded ConditionTrue ReasonNodeNeedReboot MessageSlurmNodeDegraded 200 200])
    [] eq_refl ltac:(vm_compute; reflexivity)) as [_ H].
  exact (H "n1" eq_refl).
Defined.

(** ** Undraining *)
Section undrain.
  Context (enabledNodeReplacement : bool) (maintenanceConditionType : string).
  Context (clients : list cluster) (creationTimestamp : string → Z).
  Context (slurm_get : list kcommand → cluster → string → response nodesBody).
  Context (slurm_post : list kcommand → cluster → string → response (option (list string))).
  Context (workerPods : list kcommand → string → outcome (list WorkerPod)).
  Context (podConditions : list kcommand → string → string → outcome (list PodCondition)).

(** Why the drain of a Slurm node is over: the Kubernetes node was rebooted since, is no
    longer under maintenance, or is another machine. *)
Definition rebooted_since (k8sNode : KNode) (reason : NodeReason) : Prop :=
  (reason_Reason reason = SlurmNodeReasonKillTaskFailed ∨ reason_Reason reason = SlurmNodeReasonNodeReboot) ∧
  ∃ dg, find_condition (kn_Conditions k8sNode) SoperatorChecksK8SNodeDegraded = Some dg ∧
    cond_Status dg ≠ ConditionTrue ∧ (reason_ChangedAt reason < cond_LastTransitionTime dg)%Z.
(** A condition says that the node is under maintenance, or that its hardware is suspected. *)
Definition of_maintenance (c : NodeCondition) : Prop :=
  cond_Type c = maintenanceConditionType ∨ cond_Type c = HardwareIssuesSuspected.
(** Each of them is False, or is listed before one that is. *)
Definition maintenance_over (k8sNode : KNode) (reason : NodeReason) : Prop :=
  reason_Reason reason = SlurmNodeReasonNodeReplacement ∧
  ∀ before c after, kn_Conditions k8sNode = before ++ c :: after → of_maintenance c →
    cond_Status c = ConditionFalse ∨ ∃ c', c' ∈ after ∧ of_maintenance c' ∧ cond_Status c' = ConditionFalse.
Lemma maintenance_over_last k8sNode reason :
  reason_Reason reason = SlurmNodeReasonNodeReplacement →
  IsConditionFalseOrEmpty (maintenanceCondition maintenanceConditionType (kn_Conditions k8sNode)) = true → maintenance_over k8sNode reason.
Proof.
  intros Hr Hm. split; [done|]. intros before c after Hc Hof. unfold maintenanceCondition in Hm.
  rewrite Hc, filter_app, filter_cons_True, last_app in Hm by exact Hof. set (l := filter _ after) in Hm.
  destruct (decide (l = [])) as [Hl|Hl]; [rewrite Hl in Hm; left; by apply bool_decide_eq_true in Hm|right].
  apply last_is_Some in Hl as [c' Hl]. rewrite last_cons, Hl in Hm. apply bool_decide_eq_true in Hm.
  apply last_Some_elem_of in Hl as [? ?]%list_elem_of_filter. by exists c'.
Qed.
Definition replaced_since (l : list kcommand) (k8sNode : KNode) (cl : cluster) (node : Node) (reason : NodeReason) : Prop :=
  (reason_Reason reason = SlurmHardwareReasonHC ∨ reason_Reason reason = SlurmNodeReasonHC) ∧
  enabledNodeReplacement = true ∧
  ((reason_ChangedAt reason < creationTimestamp (kn_Name k8sNode))%Z ∨
   ∃ cs t, podConditions l cl.1 (node_Name node) = Ok cs ∧ scheduledAt cs = Some t ∧ (reason_ChangedAt reason < t)%Z).

Definition undrains_only (P : cluster → string → Prop) (l : list kcommand) : Prop :=
  ∀ cl x, CmdUndrain cl x ∈ l → P cl x.
Definition no_undrain (cmd : kcommand) : Prop := ∀ cl x, cmd ≠ CmdUndrain cl x.
Lemma at_no_undrain {A} P l0 (m : M kworld A) :
  emits no_undrain m → traces_at l0 m (λ l _, undrains_only P l).
Proof.
  intros Hm. apply traces_at_of. eapply traces_weaken; [exact Hm|]. simpl. intros l _ Hl cl x Hx.
  eapply Forall_forall in Hl; [|exact Hx]. by destruct (Hl cl x).
Qed.
Lemma at_undrain (P : cluster → string → Prop) l0 cl name : P cl name →
  traces_at l0 (undrainSlurmNode clients slurm_post cl name) (λ l _, undrains_only P l).
Proof.
  intros HP. apply traces_at_of.
  eapply traces_weaken; [apply (emits_bind (λ cmd, cmd = CmdUndrain cl name));
    [apply emits_GetClient|intros; by apply emits_postNode]|].
  simpl. intros l _ Hl cl' x Hx. eapply Forall_forall in Hl; [|exact Hx]. by simplify_eq.
Qed.
Lemma no_undrain_set name cond : emits no_undrain (setK8SNodeCondition name cond).
Proof.
  eapply traces_weaken; [apply setK8SNodeCondition_writes|]. simpl.
  assert (∀ ts, Forall no_undrain (ClockRead <$> ts)) as Hts.
  { intros ts. apply Forall_fmap. by apply Forall_true. }
  intros l _ (ts & [->|(cmd & -> & Hc)]); [apply Hts|]. apply Forall_app. split; [apply Hts|].
  apply Forall_singleton. by destruct cmd.
Qed.
Lemma no_undrain_check msg name : emits no_undrain (wrapM msg (slurmNodesFullyDrained clients slurm_get workerPods name)).
Proof.
  intros w. destruct (slurmNodesFullyDrained_at clients slurm_get workerPods msg name (log_of w) w eq_refl) as (l & Hl & -> & _).
  exists []. by split.
Qed.
Lemma no_undrain_drain name reason cond :
  emits no_undrain (drainSlurmNodesWithConditionUpdate clients slurm_get slurm_post workerPods name reason cond).
Proof.
  apply emits_bind.
  - apply emits_wrapM, emits_bind; [apply emits_wrapM, emits_ask|]. intros pods.
    apply emits_bind; [|intros; apply emits_joinErrors]. apply emits_collectErrors. intros pod.
    apply emits_bind; [apply emits_GetClient|]. intros. by apply emits_postNode.
  - intros _. apply emits_bind; [apply no_undrain_check|]. intros [|]; simpl; [apply emits_wrapM, no_undrain_set|auto with effects].
Qed.
Lemma undrain_setUnhealthy k8sNode cl node reason l0 :
  (reason_Reason reason = SlurmHardwareReasonHC ∨ reason_Reason reason = SlurmNodeReasonHC) →
  traces_at l0 (processSetUnhealthy enabledNodeReplacement clients creationTimestamp slurm_get slurm_post
                  workerPods podConditions k8sNode cl node reason)
    (λ l _, undrains_only (λ cl' x, cl' = cl ∧ x = node_Name node ∧ replaced_since l0 k8sNode cl node reason) l).
Proof.
  intros Hreason. unfold processSetUnhealthy.
  destruct enabledNodeReplacement eqn:Ee; simpl; [|apply at_no_undrain; auto with effects].
  eapply traces_at_bind with (Q1 := λ l r, l = [] ∧ ∀ t, r = Ok (Some t) →
    ∃ cs, podConditions l0 cl.1 (node_Name node) = Ok cs ∧ scheduledAt cs = Some t).
  - apply traces_at_wrapM. unfold getSlurmNodeAssignmentTime.
    eapply traces_at_bind with (Q1 := λ l r, l = [] ∧ ∀ cs, r = Ok (inl cs) → podConditions l0 cl.1 (node_Name node) = Ok cs).
    + apply traces_at_attempt. eapply traces_at_weaken; [apply traces_ask|]. simpl. intros l r [-> ->].
      by destruct (podConditions l0 cl.1 (node_Name node)); split; [|intros; simplify_eq|..].
    + intros [cs|e] l1 [-> Hcs]; simpl.
      * apply traces_at_of, traces_ret. split; [done|]. intros t [= Ht]. eauto.
      * apply traces_at_of. destruct (IsNotFound e); [apply traces_ret|apply traces_fail]; done.
    + by intros e l [-> _].
    + by intros s l [-> _].
  - intros assigned l1 [-> Ha]. rewrite app_nil_r. simpl.
    destruct (_ || _) eqn:Eor.
    + apply at_undrain. split_and!; [done..|]. split; [done|]. split; [done|].
      apply orb_true_iff in Eor as [?%Z.ltb_lt|Hafter]; [by left|right].
      destruct assigned as [t|]; [|done]. destruct (Ha t eq_refl) as (cs & ? & ?). exists cs, t.
      split_and!; [done..|]. by apply Z.ltb_lt.
    + destruct (IsConditionTrue _); [apply at_no_undrain; auto with effects|]. apply at_no_undrain.
      apply emits_bind; [apply no_undrain_check|]. intros [|]; simpl; [|auto with effects].
      apply emits_bind; [by apply emits_newCondition|]. intros. apply emits_wrapM, no_undrain_set.
  - intros e l [-> _] ? ? ?%not_elem_of_nil. done.
  - intros e l [-> _] ? ? ?%not_elem_of_nil. done.
Qed.
Lemma undrain_killTask k8sNode cl node reason l0 (R : Prop) :
  (rebooted_since k8sNode reason → R) →
  (reason_Reason reason = SlurmNodeReasonKillTaskFailed ∨ reason_Reason reason = SlurmNodeReasonNodeReboot) →
  traces_at l0 (processKillTaskFailed clients slurm_get slurm_post workerPods k8sNode cl node reason)
    (λ l _, undrains_only (λ cl' x, cl' = cl ∧ x = node_Name node ∧ R) l).
Proof.
  intros HR Hreason. unfold processKillTaskFailed.
  assert (emits no_undrain (let! cond := newNodeCondition SoperatorChecksK8SNodeDegraded ConditionTrue ReasonNodeNeedReboot MessageSlurmNodeDegraded in
    wrapM "drain slurm nodes" (drainSlurmNodesWithConditionUpdate clients slurm_get slurm_post workerPods
      (node_InstanceID node) SlurmNodeReasonNodeReboot cond))) as Hd.
  { apply emits_bind; [by apply emits_newCondition|]. intros. apply emits_wrapM, no_undrain_drain. }
  destruct (find_condition _ _) as [dg|] eqn:Ed; [|by apply at_no_undrain].
  case_bool_decide as Hst; [apply at_no_undrain; auto with effects|].
  destruct (Z.ltb_spec (reason_ChangedAt reason) (cond_LastTransitionTime dg)); [|by apply at_no_undrain].
  apply at_undrain. split_and!; [done..|]. apply HR. split; [done|]. by exists dg.
Qed.

(** C35: A Slurm node is undrained only when what it was drained for is over.  Handling a drained
    node issues an undrain of that node and no other, and only if: it was drained for a reboot, or because a task could not be killed, and the
    degraded condition of its Kubernetes node was cleared after the drain; or it was drained
    for a replacement and every condition of its node about maintenance or suspected hardware is False or listed before one that is (so with at most one of
    them none is set; but the last one decides, and one that is True can be hidden, [maintenance_depends_on_order]); or it failed a health check, node replacement is
    enabled, and the drain is older than the Kubernetes node or than the placement of the worker pod. *)
Theorem undrain_justified cl node reason w cl' x :
  kw_log w = [] →
  CmdUndrain cl' x ∈ kw_log (processDegradedNode enabledNodeReplacement maintenanceConditionType clients creationTimestamp
                        slurm_get slurm_post workerPods podConditions (cl, (node, reason)) w).1 →
  cl' = cl ∧ x = node_Name node ∧
  ∃ v, (client_Get (node_InstanceID node) w).2 = Ok v ∧
    (rebooted_since (vn_node v) reason ∨ maintenance_over (vn_node v) reason ∨
     replaced_since [] (vn_node v) cl node reason).
Proof.
  intros Hw. unfold processDegradedNode, bind, attempt.
  destruct (traces_Get (node_InstanceID node) (λ l _, l = []) ltac:(done) w) as (l & Hl & ->).
  unfold log_of, kw_logged in Hl. rewrite Hw in Hl. simpl in Hl.
  destruct (client_Get (node_InstanceID node) w) as [w1 [v|e|s]]; simpl in Hl |- *.
  2: { destruct (IsNotFound e); simpl; rewrite Hl; by intros ?%not_elem_of_nil. }
  2: { rewrite Hl. by intros ?%not_elem_of_nil. }
  pose (P cl0 x0 := cl0 = cl ∧ x0 = node_Name node ∧
    (rebooted_since (vn_node v) reason ∨ maintenance_over (vn_node v) reason ∨
     replaced_since [] (vn_node v) cl node reason)).
  match goal with |- CmdUndrain _ _ ∈ kw_log (?m w1).1 → _ =>
    assert (traces_at [] m (λ l _, undrains_only P l)) as Ht end.
  2: { destruct (Ht w1 Hl) as (l & Hl' & HP). unfold log_of, kw_logged in Hl'. rewrite Hl'. intros Hin.
       destruct (HP cl' x Hin) as (-> & -> & HR). split_and!; [done..|]. exists v. by split. }
  destruct (String.eqb_spec (reason_Reason reason) SlurmNodeReasonKillTaskFailed) as [E1|E1],
    (String.eqb_spec (reason_Reason reason) SlurmNodeReasonNodeReboot) as [E2|E2]; simpl;
    try (apply undrain_killTask; auto).
  destruct (String.eqb_spec (reason_Reason reason) SlurmNodeReasonNodeReplacement) as [E3|E3].
  { unfold processSlurmNodeMaintenance, processMaintenance. destruct (IsConditionFalseOrEmpty _) eqn:Em.
    - apply at_undrain. split_and!; [done..|]. right. left. by apply maintenance_over_last.
    - apply at_no_undrain. auto with effects. }
  destruct (String.eqb_spec (reason_Reason reason) SlurmHardwareReasonHC) as [E4|E4].
  { eapply traces_at_weaken; [apply undrain_setUnhealthy; by left|]. simpl. intros l _ H cl0 x0 Hin.
    destruct (H cl0 x0 Hin) as (-> & -> & ?). split_and!; auto. }
  destruct (String.eqb_spec (reason_Reason reason) SlurmNodeReasonHC) as [E5|E5]; [|apply at_no_undrain; auto with effects].
  unfold processHealthCheckFailed. destruct (negb _); [apply at_no_undrain; auto with effects|].
  intros w2 Hw2. unfold bind, wrapM, lift. destruct (parseHealthCheckReason _) as [?|e|s]; simpl.
  - destruct (undrain_setUnhealthy (vn_node v) cl node reason [] (or_intror E5) w2 Hw2) as (l & Hl2 & H).
    exists l. split; [exact Hl2|]. intros cl0 x0 Hin. destruct (H cl0 x0 Hin) as (-> & -> & ?). split_and!; auto.
  - exists []. split; [done|]. by intros ? ? ?%not_elem_of_nil.
  - exists []. split; [done|]. by intros ? ? ?%not_elem_of_nil.
Qed.
End undrain.

(** The node of the worker was rebooted at time 150, after the drain at time 100. *)
Definition recovered : KNode :=
  mkKNode "n1" ∅ false [] [cond NodeReady ConditionTrue "KubeletReady" 10;
                           cond SoperatorChecksK8SNodeDegraded ConditionFalse ReasonNodeRebooted 150].
Definition worker_reason : NodeReason := mkReason SlurmNodeReasonKillTaskFailed "Kill task failed" 100.
Definition worker_node : Node :=
  match NodeFromAPI worker_api with Ok n => n | _ => mkNode "" "" "" ∅ None [] "" "" None "" "" None None None None None None None None end.
Lemma undrain_justified_witness :
  ("ns", "c") = ("ns", "c") ∧ "worker-0" = node_Name worker_node.
Proof.
  assert (CmdUndrain ("ns", "c") "worker-0" ∈ kw_log (processDegradedNode true DefaultMaintenanceConditionType [("ns", "c")] (λ _, 0%Z)
    get_one post_ok one_pod no_conditions (("ns", "c"), (worker_node, worker_reason)) (quiet_kworld recovered 200)).1) as Hin.
  { replace (kw_log _) with [CmdUndrain ("ns", "c") "worker-0"] by (vm_compute; reflexivity). in_list. }
  destruct (undrain_justified true DefaultMaintenanceConditionType [("ns", "c")] (λ _, 0%Z)
    get_one post_ok one_pod no_conditions ("ns", "c") worker_node worker_reason (quiet_kworld recovered 200)
    ("ns", "c") "worker-0" eq_refl Hin) as (H1 & H2 & _).
  exact (conj H1 H2).
Defined.

(** The last of the two condition types in the list decides, whatever its status: a hardware
    condition that is False hides a scheduled maintenance listed before it. *)
Definition scheduled : NodeCondition := cond DefaultMaintenanceConditionType ConditionTrue "" 50.
Definition no_issues : NodeCondition := cond HardwareIssuesSuspected ConditionFalse "" 50.
Example maintenance_depends_on_order :
  IsConditionFalseOrEmpty (maintenanceCondition DefaultMaintenanceConditionType [no_issues; scheduled]) = false ∧
  IsConditionFalseOrEmpty (maintenanceCondition DefaultMaintenanceConditionType [scheduled; no_issues]) = true.
Proof. split; reflexivity. Qed.
(** A response without a decoded body ends the process. *)
Example drain_panics :
  (drainSlurmNode [("ns", "c")] (λ _ _ _, NoJSON200) ("ns", "c") "worker-0" "r" (quiet_kworld healthy 0)).2
  = Halt "nil pointer dereference".
Proof. reflexivity. Qed.

(** ** Health check reasons *)
Definition no_letter (s : string) : bool := str_forallb (λ c, negb (is_letter c)) s.
(** A condition reason: a letter followed by letters and digits. *)
Definition identifier (s : string) : bool :=
  match s with EmptyString => false | String c _ => is_letter c && str_forallb alnum s end.

Lemma space_not_letter c : Ascii.is_space c = true → is_letter c = false.
Proof. by destruct c as [[] [] [] [] [] [] [] []]. Qed.
Lemma lower_letter c : is_letter c = true → is_letter (lower_char c) = true.
Proof. by destruct c as [[] [] [] [] [] [] [] []]. Qed.
Lemma lower_alnum c : alnum c = true → alnum (lower_char c) = true.
Proof. by destruct c as [[] [] [] [] [] [] [] []]. Qed.
Lemma upper_alnum c : alnum c = true → alnum (upper_char c) = true.
Proof. by destruct c as [[] [] [] [] [] [] [] []]. Qed.
Lemma letter_alnum c : is_letter c = true → alnum c = true.
Proof. unfold alnum. by intros ->. Qed.
Lemma digit_not_letter c : is_digit c = true → is_letter c = false.
Proof. by destruct c as [[] [] [] [] [] [] [] []]. Qed.
Lemma TrimSpace_no_letter s : no_letter (TrimSpace s) = no_letter s.
Proof.
  unfold TrimSpace. transitivity (no_letter (trim_left s)).
  - generalize (trim_left s). clear s. intros s. induction s as [|c s IH]; [done|]. simpl.
    unfold no_letter in *. simpl. rewrite <-IH. destruct (trim_right s) as [|d r]; [|done].
    destruct (Ascii.is_space c) eqn:Es; simpl; [by rewrite (space_not_letter c Es)|done].
  - induction s as [|c s IH]; [done|]. simpl. destruct (Ascii.is_space c) eqn:Es; [|done].
    rewrite IH. unfold no_letter. simpl. by rewrite (space_not_letter c Es).
Qed.
Lemma ToLower_alnum s : str_forallb alnum s = true → str_forallb alnum (ToLower s) = true.
Proof.
  unfold ToLower. induction s as [|c s IH]; simpl; [done|]. rewrite !andb_true_iff. intros [? ?].
  split; [by apply lower_alnum|auto].
Qed.
Lemma split_words_spec s :
  (∃ w ws, split_words s = w :: ws) ∧ Forall (λ w, str_forallb alnum w = true) (split_words s) ∧
  forallb no_letter (split_words s) = no_letter s.
Proof.
  induction s as [|c s ((w & ws & Hw) & Hall & Hnl)]; [simpl; split_and!; [eauto|by repeat constructor|done]|].
  simpl. destruct (alnum c) eqn:Ec.
  - rewrite Hw in *. apply Forall_cons in Hall as [H1 H2]. simpl in Hnl. split_and!; [eauto| |].
    + constructor; [simpl; by rewrite Ec|done].
    + simpl. unfold no_letter in *. simpl. by rewrite <-Hnl, andb_assoc.
  - assert (negb (is_letter c) = true) as Hc.
    { unfold alnum in Ec. by apply orb_false_iff in Ec as [-> _]. }
    unfold no_letter in Hnl |- *. simpl. rewrite Hc. simpl.
    destruct s as [|d s']; [split_and!; [eauto|by repeat constructor|done]|].
    destruct (alnum d); [|by split_and!; [eauto|..]].
    split_and!; [eauto|by constructor|exact Hnl].
Qed.
Lemma cleanWord_alnum w : str_forallb alnum w = true → cleanWord w = w.
Proof.
  induction w as [|c w IH]; simpl; [done|]. rewrite andb_true_iff. intros [Hc Hw]. unfold alnum in Hc.
  by rewrite Hc, IH.
Qed.
Lemma removeLeadingNumbers_spec w : str_forallb alnum w = true →
  if no_letter w then removeLeadingNumbers w = EmptyString else identifier (removeLeadingNumbers w) = true.
Proof.
  induction w as [|c w IH]; [done|]. simpl. intros [Hc Hw]%andb_true_iff. unfold no_letter. simpl.
  destruct (is_digit c) eqn:Ed.
  - rewrite (digit_not_letter c Ed). simpl. by apply IH.
  - unfold alnum in Hc. rewrite Ed, orb_false_r in Hc. rewrite Hc. simpl. rewrite Hc. simpl. unfold alnum at 1.
    by rewrite Hc.
Qed.
Lemma camelWords_alnum first words : Forall (λ w, str_forallb alnum w = true) words →
  str_forallb alnum (camelWords first words) = true.
Proof.
  intros Hw. revert first. induction Hw as [|w words Hw _ IH]; intros first; [done|]. simpl.
  rewrite cleanWord_alnum by done. pose proof (removeLeadingNumbers_spec w Hw) as Hr.
  destruct (removeLeadingNumbers w) as [|c r]; [apply IH|].
  destruct (no_letter w); [done|]. simpl in Hr. apply andb_true_iff in Hr as [Hl [Hc Hrest]%andb_true_iff].
  rewrite str_forallb_app, IH, andb_true_r. destruct first; [by apply ToLower_alnum; simpl; rewrite Hc|].
  simpl. rewrite upper_alnum by done. by apply ToLower_alnum.
Qed.
Lemma camelWords_spec words : Forall (λ w, str_forallb alnum w = true) words →
  if forallb no_letter words then camelWords true words = EmptyString
  else identifier (camelWords true words) = true.
Proof.
  intros Hw. induction Hw as [|w words Hw Hws IH]; [done|]. simpl.
  rewrite cleanWord_alnum by done. pose proof (removeLeadingNumbers_spec w Hw) as Hr.
  destruct (no_letter w); [by rewrite Hr|]. simpl. destruct (removeLeadingNumbers w) as [|c r]; [done|].
  simpl in Hr. apply andb_true_iff in Hr as [Hl [Hc Hrest]%andb_true_iff]. unfold ToLower. simpl.
  rewrite lower_letter, lower_alnum by done. simpl. rewrite str_forallb_app, camelWords_alnum, andb_true_r by done.
  by apply ToLower_alnum.
Qed.
Lemma toCamelCase_spec s :
  if no_letter s then toCamelCase s = EmptyString else identifier (toCamelCase s) = true.
Proof.
  rewrite <-TrimSpace_no_letter. unfold toCamelCase. destruct (TrimSpace s) as [|c r] eqn:Es; [done|].
  destruct (str_forallb alnum (String c r) && is_letter c) eqn:Ef.
  - apply andb_true_iff in Ef as [Ha Hl]. unfold no_letter. cbn [str_forallb]. rewrite Hl. simpl.
    simpl in Ha. apply andb_true_iff in Ha as [Hc Hr]. by rewrite lower_letter, lower_alnum.
  - destruct (split_words_spec (String c r)) as (_ & Hall & Hnl). rewrite <-Hnl.
    pose proof (camelWords_spec _ Hall) as Hcw. destruct (forallb _ _); [by rewrite Hcw|].
    destruct (camelWords true (split_words (String c r))) as [|d q]; [done|]. simpl in Hcw.
    apply andb_true_iff in Hcw as [Hd Hq]. rewrite Hd. simpl. by rewrite Hd, Hq.
Qed.

Lemma last_char_alnum d s : alnum d = true → str_forallb alnum s = true → alnum (last_char d s) = true.
Proof.
  revert d. induction s as [|c s IH]; intros d Hd; simpl; [done|]. intros [Hc Hs]%andb_true_iff. by apply IH.
Qed.
Lemma identifier_regex s : identifier s = true → reasonRegex s = true.
Proof.
  destruct s as [|c s]; [done|]. simpl. intros [Hl [Hc Hs]%andb_true_iff]%andb_true_iff. rewrite Hl.
  destruct s as [|d s]; [done|].
  rewrite (str_forallb_impl alnum reason_char (String d s)) by (done || (intros x Hx; unfold reason_char; by rewrite Hx)).
  by rewrite (last_char_alnum c (String d s) Hc Hs).
Qed.
Lemma str_forallb_take f n s : str_forallb f s = true → str_forallb f (str_take n s) = true.
Proof. rewrite <-(str_take_drop n s) at 1. rewrite str_forallb_app. by intros [? _]%andb_true_iff. Qed.
Lemma identifier_take n s : identifier s = true → identifier (str_take (S n) s) = true.
Proof.
  destruct s as [|c s]; [done|]. simpl. rewrite !andb_true_iff. intros (? & ? & ?).
  split_and!; [done..|by apply str_forallb_take].
Qed.
Lemma str_take_length n s : (String.length (str_take n s) ≤ n)%nat.
Proof. revert s. induction n as [|n IH]; intros [|c s]; simpl; try lia. specialize (IH s). lia. Qed.
Lemma truncate_length n s : (String.length (if (n <? String.length s)%nat then str_take n s else s) ≤ n)%nat.
Proof. destruct (Nat.ltb_spec n (String.length s)); [apply str_take_length|lia]. Qed.
Lemma MaxReasonLength_S : MaxReasonLength = S (pred MaxReasonLength).
Proof. reflexivity. Qed.

(** A health check reason parses exactly when it has the form "reason: message" and the reason
    part has a letter; the result is then a valid condition reason (a letter
    followed by letters and digits, at most 1024 long) and a message of at most 32768 characters that
    the given message starts with. *)
Theorem health_reason_parsed (s : string) :
  match cut s ": " with
  | None => ∃ e, parseHealthCheckReason s = Err e
  | Some (raw, message) =>
      if no_letter (TrimPrefix raw "[node_problem] ") then ∃ e, parseHealthCheckReason s = Err e
      else ∃ reason text, parseHealthCheckReason s = Ok (reason, text) ∧
             identifier reason = true ∧ (String.length reason ≤ MaxReasonLength)%nat ∧
             HasPrefix message text = true ∧ (String.length text ≤ MaxMessageLength)%nat
  end.
Proof.
  unfold parseHealthCheckReason, SplitN2. destruct (cut s ": ") as [[raw message]|]; [|eauto].
  pose proof (toCamelCase_spec (TrimPrefix raw "[node_problem] ")) as Hc.
  destruct (no_letter (TrimPrefix raw "[node_problem] ")).
  { rewrite Hc. by eexists. }
  set (reason := toCamelCase (TrimPrefix raw "[node_problem] ")) in *.
  set (reason' := if (MaxReasonLength <? String.length reason)%nat then str_take MaxReasonLength reason else reason).
  assert (identifier reason' = true) as Hr.
  { unfold reason'. destruct (MaxReasonLength <? String.length reason)%nat; [|done].
    rewrite MaxReasonLength_S. by apply identifier_take. }
  rewrite (identifier_regex reason' Hr). cbn [negb]. eexists _, _. split_and!; [done|done|apply truncate_length| |apply truncate_length].
  destruct (MaxMessageLength <? String.length message)%nat.
  - rewrite <-(str_take_drop MaxMessageLength message) at 1. apply HasPrefix_app.
  - rewrite <-(str_app_nil_r message) at 1. apply HasPrefix_app.
Qed.
Example health_reason_ex :
  parseHealthCheckReason "[node_problem] 8 GPU  xid_error: XID 79 on GPU 3: lost" = Ok ("gpuXidError", "XID 79 on GPU 3: lost").
Proof. vm_compute. reflexivity. Qed.
