(* ===== verification/Tokens.v ===== *)
(** * Credentials of the Slurm REST API

    [internal/jwt] (tokens signed with the key of a cluster, and their registry), [internal/token-standalone] (tokens from scontrol)
    and the part of [internal/slurmapi/client.go] that puts a token on each request.  The signature of golang-jwt and the cache of
    istio.io/pkg are parameters; both issuers are instances of the interface that the client uses.  Times are in
    nanoseconds. *)
From S2P Require Import Prelude GoStrings Naming.
From Stdlib Require String.
From Stdlib Require Import Ascii.

Definition second : Z := 1000000000.
Definition hour : Z := 3600 * second.

(** ** The cache ([istio.io/pkg/cache]) *)
Class ExpiringCache := {
  cache : Type;
  (** Default expiration, interval of evictions, greatest number of entries. *)
  NewLRU : Z → Z → Z → cache;
  cache_Set : Z → string → string → cache → cache;
  cache_SetWithExpiration : Z → string → string → Z → cache → cache;
  cache_EvictExpired : Z → cache → cache;
  cache_Get : string → cache → option string * cache }.
(** What it documents.  An entry has a time at which it expires; setting one may drop others, and an eviction drops exactly what is expired. *)
Class ExpiringCacheSpec `{ExpiringCache} := {
  entries : cache → gmap string (string * Z);
  usable : cache → Prop;
  NewLRU_spec d i n : (0 < n)%Z → usable (NewLRU d i n) ∧ entries (NewLRU d i n) = ∅;
  Set_spec now k v d c : usable c →
    usable (cache_SetWithExpiration now k v d c) ∧ entries (cache_SetWithExpiration now k v d c) !! k = Some (v, now + d)%Z ∧
    ∀ k' x, k' ≠ k → entries (cache_SetWithExpiration now k v d c) !! k' = Some x → entries c !! k' = Some x;
  Evict_spec now c : usable c →
    usable (cache_EvictExpired now c) ∧
    ∀ k v e, entries (cache_EvictExpired now c) !! k = Some (v, e) ↔ entries c !! k = Some (v, e) ∧ (now < e)%Z;
  Get_spec k c : usable c →
    usable (cache_Get k c).2 ∧ entries (cache_Get k c).2 = entries c ∧ (cache_Get k c).1 = fst <$> entries c !! k }.

(** ** The registry ([registry.go], [consts.go]) *)
Definition DefaultTokenLifetime : Z := hour * 24 * 30.
Definition DefaultTokenEviction : Z := hour * 24.
Definition DefaultMaxCacheEntries : Z := 10.
Section registry.
  Context `{ExpiringCache}.
(** The cache is there after [Build]. *)
Record TokenRegistry := mkTokenRegistry { tr_cache : cache; tr_expirationPeriod : Z; tr_evictionPeriod : Z; tr_maxEntries : Z }.
Record RegistryConfig := mkRegistryConfig { rc_expirationPeriod : Z; rc_evictionPeriod : Z; rc_maxEntries : Z }.
Definition NewTokenRegistry : RegistryConfig :=
  mkRegistryConfig (DefaultTokenLifetime - DefaultTokenEviction) DefaultTokenEviction DefaultMaxCacheEntries.
Definition WithExpirationPeriod (period : Z) (r : RegistryConfig) : RegistryConfig := mkRegistryConfig period (rc_evictionPeriod r) (rc_maxEntries r).
Definition WithEvictionPeriod (period : Z) (r : RegistryConfig) : RegistryConfig := mkRegistryConfig (rc_expirationPeriod r) period (rc_maxEntries r).
Definition WithMaxEntries (n : Z) (r : RegistryConfig) : RegistryConfig := mkRegistryConfig (rc_expirationPeriod r) (rc_evictionPeriod r) n.
Definition Build (r : RegistryConfig) : TokenRegistry :=
  mkTokenRegistry (NewLRU (rc_expirationPeriod r) (rc_evictionPeriod r) (rc_maxEntries r)) (rc_expirationPeriod r) (rc_evictionPeriod r) (rc_maxEntries r).
Definition with_cache (r : TokenRegistry) (c : cache) : TokenRegistry :=
  mkTokenRegistry c (tr_expirationPeriod r) (tr_evictionPeriod r) (tr_maxEntries r).
Definition Register (now : Z) (k token : string) (r : TokenRegistry) : TokenRegistry := with_cache r (cache_Set now k token (tr_cache r)).
(** The clock is read twice. *)
Definition RegisterWithLifetime (now later : Z) (k token : string) (lifetime : Z) (r : TokenRegistry) : TokenRegistry :=
  with_cache r (cache_EvictExpired later (cache_SetWithExpiration now k token lifetime (tr_cache r))).
Definition registry_Get (now : Z) (k : string) (r : TokenRegistry) : option string * TokenRegistry :=
  let '(v, c) := cache_Get k (cache_EvictExpired now (tr_cache r)) in (v, with_cache r c).
End registry.
Arguments TokenRegistry {_}.

(** ** Tokens ([token.go]) *)
Record TokenMeta := mkTokenMeta { tm_cluster : string * string; tm_username : string; tm_annotations : option (gmap string string) }.
(** The annotations in the order in which the map is ranged over; the slice starts with as many empty strings. *)
Definition meta_String (m : TokenMeta) (order : list (string * string)) : string :=
  let res := (tm_cluster m).1 +:+ "/" +:+ (tm_cluster m).2 +:+ ":" +:+ tm_username m in
  match tm_annotations m with
  | None => res
  | Some a => res +:+ ":{" +:+ Join (replicate (size a) "" ++ ((λ kv, kv.1 +:+ "=" +:+ kv.2) <$> order)) "," +:+ "}"
  end.
(** The dates are in seconds. *)
Record TokenClaims := mkTokenClaims {
  tc_Issuer : string; tc_Subject : string; tc_ID : string; tc_NotBefore : Z; tc_IssuedAt : Z; tc_ExpiresAt : Z; tc_SlurmUsername : string }.
Definition NewNumericDate (t : Z) : Z := t `div` second.
Definition SecretRESTJWTKeyFileName : string := "rest_jwt.key".
Section token.
  Context `{ExpiringCache} (SignedString : TokenClaims → string → outcome string).
Record Token := mkToken { tk_client : bool; tk_meta : option TokenMeta; tk_lifetime : Z; tk_registry : option TokenRegistry }.
Definition NewToken (client : bool) : Token := mkToken client None DefaultTokenLifetime None.
Definition the_meta (t : Token) : TokenMeta := default (mkTokenMeta ("", "") "" None) (tk_meta t).
Definition For (cluster : string * string) (username : string) (t : Token) : Token :=
  mkToken (tk_client t) (Some (mkTokenMeta cluster username (tm_annotations (the_meta t)))) (tk_lifetime t) (tk_registry t).
Definition WithAnnotations (annotations : gmap string string) (t : Token) : Token :=
  mkToken (tk_client t) (Some (mkTokenMeta (tm_cluster (the_meta t)) (tm_username (the_meta t)) (Some annotations))) (tk_lifetime t) (tk_registry t).
Definition WithLifetime (lifetime : Z) (t : Token) : Token := mkToken (tk_client t) (tk_meta t) lifetime (tk_registry t).
Definition WithRegistry (registry : TokenRegistry) (t : Token) : Token := mkToken (tk_client t) (tk_meta t) (tk_lifetime t) (Some registry).
Definition require_ (b : bool) (msg : string) : outcome () := if b then Ok tt else Err (ErrMsg msg).
Definition validate (t : Token) : outcome TokenMeta :=
  let? _ := require_ (tk_client t) "k8s client is not provided" in
  match tk_meta t with
  | None => Err (ErrMsg "meta is not provided. it's unclear whom to issue token to")
  | Some m =>
      let? _ := require_ (negb (String.eqb (tm_cluster m).1 "")) "cluster namespace is not provided" in
      let? _ := require_ (negb (String.eqb (tm_cluster m).2 "")) "cluster name is not provided" in
      let? _ := require_ (negb (String.eqb (tm_username m) "")) "username is not provided" in
      Ok m
  end.
(** What a call of [Issue] meets: the clock at the look-up, at the issue and at the registration with its eviction, an identifier,
    the orders of the annotations, and the API server's answer for a Secret. *)
Record IssueEnv := mkIssueEnv {
  ie_get : Z; ie_issue : Z; ie_register : Z; ie_evict : Z; ie_uuid : string; ie_order : list (string * string); ie_order' : list (string * string);
  ie_secret : string * string → outcome (gmap string string) }.
Definition getSigningKey (e : IssueEnv) (m : TokenMeta) : outcome string :=
  let? data := wrap_err "failed to get signing secret" (ie_secret e ((tm_cluster m).1, BuildSecretSlurmRESTSecretName (tm_cluster m).2)) in
  Ok (default "" (data !! SecretRESTJWTKeyFileName)).
Definition claims_of (m : TokenMeta) (lifetime : Z) (e : IssueEnv) : TokenClaims :=
  mkTokenClaims "soperator" (tm_username m) (ie_uuid e) (NewNumericDate (ie_issue e)) (NewNumericDate (ie_issue e))
    (NewNumericDate (ie_issue e + lifetime)) (tm_username m).
Definition sign (m : TokenMeta) (lifetime : Z) (e : IssueEnv) : outcome string :=
  let? signingKey := wrap_err "failed to get signing key" (getSigningKey e m) in
  wrap_err "failed to sign token" (SignedString (claims_of m lifetime e) signingKey).
Definition Issue (e : IssueEnv) (t : Token) : outcome string * Token :=
  match wrap_err "failed to issue token" (validate t) with
  | Err err => (Err err, t)
  | Halt why => (Halt why, t)
  | Ok m =>
      match tk_registry t with
      | None => (sign m (tk_lifetime t) e, t)
      | Some r =>
          let '(found, r) := registry_Get (ie_get e) (meta_String m (ie_order e)) r in
          match found with
          | Some token => (Ok token, WithRegistry r t)
          | None =>
              match sign m (tk_lifetime t) e with
              | Ok token =>
                  (Ok token, WithRegistry (RegisterWithLifetime (ie_register e) (ie_evict e) (meta_String m (ie_order' e)) token (tk_lifetime t) r) t)
              | o => (o, WithRegistry r t)
              end
          end
      end
  end.
End token.
Arguments Token {_}.

(** *** Calls that share a registry *)
Section history.
  Context `{ExpiringCache} (SignedString : TokenClaims → string → outcome string).
Record IssueCall := mkIssueCall { ic_meta : TokenMeta; ic_lifetime : Z; ic_env : IssueEnv }.
Fixpoint issue_all (calls : list IssueCall) (r : TokenRegistry) : list (outcome string) :=
  match calls with
  | [] => []
  | c :: calls =>
      let '(o, t) := Issue SignedString (ic_env c) (WithRegistry r (WithLifetime (ic_lifetime c) (mkToken true (Some (ic_meta c)) 0 None))) in
      o :: issue_all calls (default r (tk_registry t))
  end.
(** The clock does not go back, and between the issue and the registration of a token less than [d] passes. *)
Definition orderly_call (d now : Z) (e : IssueEnv) : Prop :=
  (now ≤ ie_get e ∧ ie_get e ≤ ie_issue e ∧ ie_issue e ≤ ie_register e ∧ ie_register e ≤ ie_evict e ∧ ie_register e - ie_issue e ≤ d)%Z.
Fixpoint orderly (d now : Z) (calls : list IssueCall) : Prop :=
  match calls with [] => True | c :: calls => orderly_call d now (ic_env c) ∧ orderly d (ie_evict (ic_env c)) calls end.
End history.
(** Names of Kubernetes objects have neither character. *)
Definition plain_meta (m : TokenMeta) : Prop :=
  tm_annotations m = None ∧ no_char "/" (tm_cluster m).1 = true ∧ no_char ":" (tm_cluster m).2 = true.
Lemma plain_String m order : plain_meta m → meta_String m order = (tm_cluster m).1 +:+ "/" +:+ (tm_cluster m).2 +:+ ":" +:+ tm_username m.
Proof. intros (Ha & _). unfold meta_String. by rewrite Ha. Qed.
Lemma meta_String_inj m1 m2 o1 o2 : plain_meta m1 → plain_meta m2 → meta_String m1 o1 = meta_String m2 o2 → m1 = m2.
Proof.
  intros H1 H2. rewrite !plain_String by done. destruct m1 as [[ns1 n1] u1 a1], m2 as [[ns2 n2] u2 a2].
  destruct H1 as (Ha1 & Hs1 & Hc1), H2 as (Ha2 & Hs2 & Hc2). simpl in *. subst.
  change (ns1 +:+ String "/" (n1 +:+ String ":" u1) = ns2 +:+ String "/" (n2 +:+ String ":" u2) → mkTokenMeta (ns1, n1) u1 None = mkTokenMeta (ns2, n2) u2 None).
  intros He.
  pose proof (cut_char ns1 (n1 +:+ String ":" u1) _ Hs1) as E1. rewrite He in E1. rewrite (cut_char ns2 (n2 +:+ String ":" u2) _ Hs2) in E1.
  injection E1 as -> E2. pose proof (cut_char n1 u1 _ Hc1) as E3. rewrite <-E2, (cut_char n2 u2 _ Hc2) in E3. by injection E3 as -> ->.
Qed.

Section genuine.
  Context `{ExpiringCacheSpec} (SignedString : TokenClaims → string → outcome string).
  (** The signing keys that a cluster's Secret has held. *)
  Context (held : string * string → string → Prop) (d : Z).
Definition answers_held (e : IssueEnv) : Prop :=
  ∀ ns name data, ie_secret e (ns, BuildSecretSlurmRESTSecretName name) = Ok data → held (ns, name) (default "" (data !! SecretRESTJWTKeyFileName)).
Definition signed_for (m : TokenMeta) (claims : TokenClaims) (token : string) : Prop :=
  ∃ key, held (tm_cluster m) key ∧ SignedString claims key = Ok token ∧ tc_Issuer claims = "soperator" ∧ tc_Subject claims = tm_username m ∧
    tc_SlurmUsername claims = tm_username m.
(** The time until which a token may be handed out: what its date loses by rounding, and the duration of the call that issued it. *)
Definition handed_out_until (claims : TokenClaims) : Z := (tc_ExpiresAt claims + 1) * second + d.
Definition registry_inv (now : Z) (r : TokenRegistry) : Prop :=
  usable (tr_cache r) ∧
  ∀ k s x, entries (tr_cache r) !! k = Some (s, x) →
    ∃ m claims, plain_meta m ∧ k = meta_String m [] ∧ signed_for m claims s ∧ (tc_NotBefore claims * second ≤ now)%Z ∧ (x ≤ handed_out_until claims)%Z.
Definition genuine (m : TokenMeta) (e : IssueEnv) (token : string) : Prop :=
  ∃ claims, signed_for m claims token ∧ (tc_NotBefore claims * second ≤ ie_evict e)%Z ∧ (ie_get e < handed_out_until claims)%Z.

Lemma numeric_date t : (NewNumericDate t * second ≤ t < (NewNumericDate t + 1) * second)%Z.
Proof.
  unfold NewNumericDate, second. pose proof (Z.div_mod t 1000000000 ltac:(lia)). pose proof (Z.mod_pos_bound t 1000000000 ltac:(lia)). lia.
Qed.
Lemma sign_inv m lifetime e token :
  answers_held e → sign SignedString m lifetime e = Ok token → signed_for m (claims_of m lifetime e) token.
Proof.
  intros Ha. unfold sign, getSigningKey. destruct m as [[ns name] user a]. cbn [tm_cluster fst snd].
  destruct (ie_secret e _) as [data|?|?] eqn:Hs; [|done..]. cbn. destruct (SignedString _ _) as [s|?|?] eqn:Hg; [|done..]. intros [= <-].
  eexists. split; [by apply Ha|]. split; [exact Hg|done].
Qed.
Lemma sign_dates m lifetime e now :
  orderly_call d now e →
  (tc_NotBefore (claims_of m lifetime e) * second ≤ ie_issue e)%Z ∧ (ie_register e + lifetime < handed_out_until (claims_of m lifetime e))%Z.
Proof.
  intros (H1 & H2 & H3 & H4 & H5). unfold handed_out_until. cbn [tc_NotBefore tc_ExpiresAt claims_of].
  pose proof (numeric_date (ie_issue e)). pose proof (numeric_date (ie_issue e + lifetime)). lia.
Qed.
Lemma registry_inv_later now later r : registry_inv now r → (now ≤ later)%Z → registry_inv later r.
Proof.
  intros [Hu He] Hl. split; [done|]. intros k s x (m & claims & ? & ? & ? & ? & ?)%He. exists m, claims. split_and!; try done. lia.
Qed.
Lemma registry_Get_inv now later k r found r' :
  registry_inv now r → (now ≤ later)%Z → registry_Get later k r = (found, r') →
  registry_inv later r' ∧ ∀ s, found = Some s → ∃ x, entries (tr_cache r) !! k = Some (s, x) ∧ (later < x)%Z.
Proof.
  intros Hr Hn. apply (registry_inv_later _ later) in Hr as [Hu He]; [|done]. unfold registry_Get. destruct (Evict_spec later _ Hu) as [Hu' Hev]. destruct (Get_spec k _ Hu') as (Hu'' & Hent & Hg).
  destruct (cache_Get _ _) as [v c]. cbn in Hu'', Hent, Hg. intros [= <- <-]. split.
  - split; [done|]. cbn. rewrite Hent. intros k' s x [Hx _]%Hev. by apply He.
  - intros s ->. symmetry in Hg. apply fmap_Some in Hg as ([s' x] & Hx & ->). apply Hev in Hx. by exists x.
Qed.
Lemma Register_inv now e m claims lifetime r s :
  registry_inv now r → orderly_call d now e → plain_meta m → signed_for m claims s → (tc_NotBefore claims * second ≤ ie_issue e)%Z →
  (ie_register e + lifetime ≤ handed_out_until claims)%Z →
  registry_inv (ie_evict e) (RegisterWithLifetime (ie_register e) (ie_evict e) (meta_String m (ie_order' e)) s lifetime r).
Proof.
  intros [Hu He] (H1 & H2 & H3 & H4 & _) Hm Hs Hb Hx. unfold RegisterWithLifetime.
  destruct (Set_spec (ie_register e) (meta_String m (ie_order' e)) s lifetime _ Hu) as (Hu' & Hk & Ho).
  destruct (Evict_spec (ie_evict e) _ Hu') as [Hu'' Hev]. split; [done|]. cbn. intros k v x [Hl _]%Hev.
  destruct (decide (k = meta_String m (ie_order' e))) as [-> |Hne].
  - rewrite Hk in Hl. injection Hl as <- <-. exists m, claims. rewrite !plain_String by done. split_and!; try done. lia.
  - destruct (He _ _ _ (Ho _ _ Hne Hl)) as (m' & claims' & ? & ? & ? & ? & ?). exists m', claims'. split_and!; try done. lia.
Qed.
Lemma Issue_inv now m lifetime e r o t :
  registry_inv now r → orderly_call d now e → plain_meta m → answers_held e → (0 ≤ lifetime)%Z → (0 ≤ d)%Z →
  Issue SignedString e (WithRegistry r (WithLifetime lifetime (mkToken true (Some m) 0 None))) = (o, t) →
  ∃ r', t = mkToken true (Some m) lifetime (Some r') ∧ registry_inv (ie_evict e) r' ∧ ∀ token, o = Ok token → genuine m e token.
Proof.
  intros Hr Ho Hm Ha Hl Hd. pose proof Ho as (O1 & O2 & O3 & O4 & O5). unfold Issue.
  destruct (wrap_err _ _) as [m'|err|why] eqn:Hv; [|intros [= <- <-]; exists r; split_and!; [done|apply (registry_inv_later now); [done|lia]|done]..].
  assert (m' = m) as ->.
  { revert Hv. unfold validate. cbn. repeat (destruct (require_ _ _); [cbn|done..]). by intros [= <-]. }
  cbn [tk_registry WithRegistry WithLifetime tk_lifetime]. destruct (registry_Get _ _ _) as [found r'] eqn:Hg.
  destruct (registry_Get_inv _ _ _ _ _ _ Hr O1 Hg) as [Hr' Hf]. destruct found as [token|].
  - intros [= <- <-]. exists r'. split; [done|]. split.
    + apply (registry_inv_later (ie_get e)); [done|lia].
    + intros ? [= <-]. destruct (Hf _ eq_refl) as (x & Hx & Hlt). destruct Hr as [_ He].
      destruct (He _ _ _ Hx) as (m' & claims & Hm' & Hk & Hs & Hn & Hu).
      apply meta_String_inj in Hk as <-; [|done..]. exists claims. split; [done|]. lia.
  - destruct (sign _ _ _ _) as [token|err|why] eqn:Hs; intros [= <- <-]; eexists; (split; [done|]).
    + pose proof (sign_inv _ _ _ _ Ha Hs) as Hsig. destruct (sign_dates m lifetime e now Ho) as [Hn Hx]. split.
      * apply (Register_inv (ie_get e) e m (claims_of m lifetime e)); try done. lia.
      * intros ? [= <-]. exists (claims_of m lifetime e). split; [done|]. lia.
    + split; [|done]. apply (registry_inv_later (ie_get e)); [done|lia].
    + split; [|done]. apply (registry_inv_later (ie_get e)); [done|lia].
Qed.
Lemma issue_all_inv now calls r :
  registry_inv now r → orderly d now calls → (0 ≤ d)%Z →
  Forall (λ c, plain_meta (ic_meta c) ∧ answers_held (ic_env c) ∧ (0 ≤ ic_lifetime c)%Z) calls →
  Forall2 (λ c o, ∀ token, o = Ok token → genuine (ic_meta c) (ic_env c) token) calls (issue_all SignedString calls r).
Proof.
  intros Hr Ho Hd Hc. revert now r Hr Ho. induction Hc as [|c calls (Hm & Ha & Hl) _ IH]; intros now r Hr Ho; [constructor|].
  destruct Ho as [Ho Hos]. cbn [issue_all]. destruct (Issue _ _ _) as [o t] eqn:Hi.
  destruct (Issue_inv _ _ _ _ _ _ _ Hr Ho Hm Ha Hl Hd Hi) as (r' & -> & Hr' & Hg). constructor; [done|]. by apply (IH (ie_evict (ic_env c))).
Qed.
End genuine.

(** ** Tokens of a cluster without Kubernetes ([token-standalone/issuer.go]) *)
Definition DefaultRotationInterval : Z := 30 * 60 * second.
Record StandaloneTokenIssuer := mkStandalone {
  sa_clusterID : string * string; sa_username : string; sa_currentToken : string; sa_tokenExpiry : Z; sa_scontrolPath : string;
  sa_rotationInterval : Z }.
(** The zero time lies before every time of the clock. *)
Definition NewStandaloneTokenIssuer (clusterID : string * string) (username : string) : StandaloneTokenIssuer :=
  mkStandalone clusterID (if String.eqb username "" then "root" else username) "" 0 "scontrol" DefaultRotationInterval.
Definition WithScontrolPath (path : string) (s : StandaloneTokenIssuer) : StandaloneTokenIssuer :=
  mkStandalone (sa_clusterID s) (sa_username s) (sa_currentToken s) (sa_tokenExpiry s) path (sa_rotationInterval s).
Definition WithRotationInterval (interval : Z) (s : StandaloneTokenIssuer) : StandaloneTokenIssuer :=
  mkStandalone (sa_clusterID s) (sa_username s) (sa_currentToken s) (sa_tokenExpiry s) (sa_scontrolPath s) interval.
Definition with_token (token : string) (expiry : Z) (s : StandaloneTokenIssuer) : StandaloneTokenIssuer :=
  mkStandalone (sa_clusterID s) (sa_username s) token expiry (sa_scontrolPath s) (sa_rotationInterval s).
Definition valid_token (now : Z) (s : StandaloneTokenIssuer) : option string :=
  if negb (String.eqb (sa_currentToken s) "") && (now <? sa_tokenExpiry s)%Z then Some (sa_currentToken s) else None.
Definition parseSlurmTokenOutput (output : string) : outcome string :=
  let outputStr := TrimSpace output in
  if String.eqb outputStr "" then Err (ErrMsg "scontrol returned empty output")
  else if negb (HasPrefix outputStr "SLURM_JWT=") then Err (ErrMsg "unexpected scontrol output format")
  else
    let tokenStr := TrimPrefix outputStr "SLURM_JWT=" in
    if String.eqb tokenStr "" then Err (ErrMsg "scontrol returned empty token") else Ok tokenStr.
(** Whole seconds; the conversion through float64 is exact for intervals of up to 2^22 seconds. *)
Definition lifespanSeconds (s : StandaloneTokenIssuer) : Z := sa_rotationInterval s `quot` second.
Definition getSlurmToken (exec : string → list string → outcome string) (s : StandaloneTokenIssuer) : outcome string :=
  let? output := wrap_err "scontrol token failed"
    (exec (sa_scontrolPath s) ["token"; "username=" +:+ sa_username s; "lifespan=" +:+ Itoa (lifespanSeconds s)]) in
  parseSlurmTokenOutput output.
(** Under the lock for writing: the clock at the second check and after the command. *)
Definition refreshToken (now later : Z) (exec : string → list string → outcome string) (s : StandaloneTokenIssuer) :
    outcome string * StandaloneTokenIssuer :=
  match valid_token now s with
  | Some token => (Ok token, s)
  | None =>
      match wrap_err "failed to get new Slurm token" (getSlurmToken exec s) with
      | Ok token => (Ok token, with_token token (later + (sa_rotationInterval s - 30 * second)) s)
      | o => (o, s)
      end
  end.
Record StandaloneEnv := mkStandaloneEnv { se_lookup : Z; se_check : Z; se_done : Z; se_exec : string → list string → outcome string }.
Definition standalone_Issue (e : StandaloneEnv) (s : StandaloneTokenIssuer) : outcome string * StandaloneTokenIssuer :=
  match valid_token (se_lookup e) s with
  | Some token => (Ok token, s)
  | None => refreshToken (se_check e) (se_done e) (se_exec e) s
  end.

(** *** Concurrent calls

    A call looks at the token under the lock for reading; if it missed, it refreshes the token under the lock for writing.  Both
    parts are atomic for the other calls. *)
Record scontrol_run := mkRun { run_start : Z; run_end : Z; run_result : outcome string }.
Inductive issue_call := Missed | Returned (o : outcome string) (at_ : Z).
Record sa_world := mkSaWorld { w_issuer : StandaloneTokenIssuer; w_clock : Z; w_calls : gmap nat issue_call; w_runs : list scontrol_run }.
Inductive sa_step : sa_world → sa_world → Prop :=
| step_time w t : (w_clock w ≤ t)%Z → sa_step w (mkSaWorld (w_issuer w) t (w_calls w) (w_runs w))
| step_hit w i token : w_calls w !! i = None → valid_token (w_clock w) (w_issuer w) = Some token →
    sa_step w (mkSaWorld (w_issuer w) (w_clock w) (<[i := Returned (Ok token) (w_clock w)]> (w_calls w)) (w_runs w))
| step_miss w i : w_calls w !! i = None → valid_token (w_clock w) (w_issuer w) = None →
    sa_step w (mkSaWorld (w_issuer w) (w_clock w) (<[i := Missed]> (w_calls w)) (w_runs w))
| step_recheck w i exec token : w_calls w !! i = Some Missed → valid_token (w_clock w) (w_issuer w) = Some token →
    refreshToken (w_clock w) (w_clock w) exec (w_issuer w) = (Ok token, w_issuer w) →
    sa_step w (mkSaWorld (w_issuer w) (w_clock w) (<[i := Returned (Ok token) (w_clock w)]> (w_calls w)) (w_runs w))
| step_refresh w i exec later o s' : w_calls w !! i = Some Missed → valid_token (w_clock w) (w_issuer w) = None → (w_clock w ≤ later)%Z →
    refreshToken (w_clock w) later exec (w_issuer w) = (o, s') →
    sa_step w (mkSaWorld s' later (<[i := Returned o later]> (w_calls w)) (w_runs w ++ [mkRun (w_clock w) later o])).
Definition sa_start (s : StandaloneTokenIssuer) (now : Z) : sa_world := mkSaWorld s now ∅ [].
Definition margin (s : StandaloneTokenIssuer) : Z := sa_rotationInterval s - 30 * second.
Definition succeeded (r : scontrol_run) : Prop := ∃ token, run_result r = Ok token.
Record sa_inv (w : sa_world) : Prop := {
  inv_spaced : ∀ j k r1 r2, j < k → w_runs w !! j = Some r1 → w_runs w !! k = Some r2 → succeeded r1 →
    (run_end r1 + margin (w_issuer w) ≤ run_start r2)%Z;
  inv_expiry : ∀ r, r ∈ w_runs w → succeeded r →
    (run_end r + margin (w_issuer w) ≤ sa_tokenExpiry (w_issuer w))%Z ∧ (run_end r ≤ w_clock w)%Z ∧ sa_currentToken (w_issuer w) ≠ "";
  inv_made : sa_currentToken (w_issuer w) ≠ "" →
    ∃ r, r ∈ w_runs w ∧ run_result r = Ok (sa_currentToken (w_issuer w)) ∧ sa_tokenExpiry (w_issuer w) = (run_end r + margin (w_issuer w))%Z;
  inv_returned : ∀ i token at_, w_calls w !! i = Some (Returned (Ok token) at_) →
    ∃ r, r ∈ w_runs w ∧ run_result r = Ok token ∧ (at_ = run_end r ∨ run_end r ≤ at_ < run_end r + margin (w_issuer w))%Z }.
Lemma valid_token_Some now s token : valid_token now s = Some token → token = sa_currentToken s ∧ token ≠ "" ∧ (now < sa_tokenExpiry s)%Z.
Proof.
  unfold valid_token. destruct (String.eqb_spec (sa_currentToken s) ""), (Z.ltb_spec now (sa_tokenExpiry s)); simpl; try done. by intros [= <-].
Qed.
Lemma valid_token_None now s : valid_token now s = None → sa_currentToken s = "" ∨ (sa_tokenExpiry s ≤ now)%Z.
Proof. unfold valid_token. destruct (String.eqb_spec (sa_currentToken s) ""), (Z.ltb_spec now (sa_tokenExpiry s)); simpl; auto; done. Qed.
Lemma parse_nonempty output token : parseSlurmTokenOutput output = Ok token → token ≠ "".
Proof.
  unfold parseSlurmTokenOutput. destruct (String.eqb _ ""); [done|]. destruct (HasPrefix _ _); [|done]. simpl.
  destruct (String.eqb_spec (TrimPrefix (TrimSpace output) "SLURM_JWT=") ""); [done|]. by intros [= <-].
Qed.
Lemma refreshToken_fresh now later exec s o s' :
  valid_token now s = None → refreshToken now later exec s = (o, s') →
  match o with Ok token => token ≠ "" ∧ s' = with_token token (later + margin s) s | _ => s' = s end.
Proof.
  intros Hv. unfold refreshToken, getSlurmToken. rewrite Hv. destruct (exec _ _) as [out|?|?]; simpl; [|by intros [= <- <-]..].
  destruct (parseSlurmTokenOutput out) as [token|?|?] eqn:Hp; simpl; intros [= <- <-]; [|done..]. split; [by eapply parse_nonempty|done].
Qed.
(** A call that takes the token as it is. *)
Lemma inv_hit w i token :
  sa_inv w → valid_token (w_clock w) (w_issuer w) = Some token →
  sa_inv (mkSaWorld (w_issuer w) (w_clock w) (<[i := Returned (Ok token) (w_clock w)]> (w_calls w)) (w_runs w)).
Proof.
  intros [I1 I2 I3 I4] (-> & Hne & Hlt)%valid_token_Some. split; [done..|]. intros i' token at_. cbn.
  rewrite lookup_insert. case_decide; [|apply I4]. intros [= <- <-]. destruct (I3 Hne) as (r & Hr & Hres & Hx).
  exists r. split_and!; [done..|]. right. cbn. destruct (I2 r Hr) as (_ & Hle & _); [by eexists|]. lia.
Qed.
Lemma inv_refresh w i exec later o s' :
  sa_inv w → valid_token (w_clock w) (w_issuer w) = None → (w_clock w ≤ later)%Z →
  refreshToken (w_clock w) later exec (w_issuer w) = (o, s') →
  sa_inv (mkSaWorld s' later (<[i := Returned o later]> (w_calls w)) (w_runs w ++ [mkRun (w_clock w) later o])).
Proof.
  intros [I1 I2 I3 I4] Hv Hl Hr. pose proof (refreshToken_fresh _ _ _ _ _ _ Hv Hr) as Ho.
  assert (margin s' = margin (w_issuer w)) as Hm by (destruct o; [destruct Ho as [_ ->]|subst s'..]; done).
  assert (∀ r, r ∈ w_runs w → succeeded r → run_end r + margin (w_issuer w) ≤ w_clock w)%Z as Hpast.
  { intros r Hin Hs. destruct (I2 r Hin Hs) as (Hx & _ & Hne). destruct (valid_token_None _ _ Hv) as [He|He]; [done|lia]. }
  split; cbn [w_issuer w_clock w_calls w_runs]; rewrite ?Hm.
  - intros j k r1 r2 Hjk H1 H2 Hs. apply lookup_app_Some in H2 as [H2|[Hk H2]].
    + rewrite lookup_app_l in H1 by (apply lookup_lt_Some in H2; lia). by apply (I1 j k).
    + apply list_lookup_singleton_Some in H2 as [Hk0 <-]. rewrite lookup_app_l in H1 by lia. cbn.
      apply Hpast; [by eapply list_elem_of_lookup_2|done].
  - intros r Hin [token Hs]. destruct o as [t|e|h]; [destruct Ho as [Hne ->]| |].
    + cbn. apply elem_of_app in Hin as [Hin| ->%list_elem_of_singleton]; cbn; [|split_and!; [lia..|done]].
      destruct (I2 r Hin) as (Hx & Hc & _); [by eexists|]. split_and!; [lia..|done].
    + subst s'. apply elem_of_app in Hin as [Hin| ->%list_elem_of_singleton]; [|done]. destruct (I2 r Hin) as (? & ? & ?); [by eexists|]. split_and!; [lia..|done].
    + subst s'. apply elem_of_app in Hin as [Hin| ->%list_elem_of_singleton]; [|done]. destruct (I2 r Hin) as (? & ? & ?); [by eexists|]. split_and!; [lia..|done].
  - intros Hne. destruct o as [t|e|h]; [destruct Ho as [_ ->]| |].
    + eexists. split; [apply elem_of_app; right; by apply list_elem_of_singleton|done].
    + subst s'. destruct (I3 Hne) as (r & Hin & ? & ?). exists r. split; [apply elem_of_app; by left|done].
    + subst s'. destruct (I3 Hne) as (r & Hin & ? & ?). exists r. split; [apply elem_of_app; by left|done].
  - intros i' token at_. rewrite lookup_insert. case_decide.
    + intros [= -> <-]. eexists. split; [apply elem_of_app; right; by apply list_elem_of_singleton|]. split; [done|by left].
    + intros (r & Hin & ? & ?)%I4. exists r. split; [apply elem_of_app; by left|done].
Qed.
Lemma sa_step_inv w w' : sa_inv w → sa_step w w' → sa_inv w'.
Proof.
  intros Hi Hs. destruct Hs as [w t Ht|w i token Hn Hv|w i Hn Hv|w i exec token Hm Hv _|w i exec later o s' Hm Hv Hl Hr].
  - destruct Hi as [I1 I2 I3 I4]. split; [done| |done..]. intros r Hr Hs. destruct (I2 r Hr Hs) as (? & ? & ?). split_and!; [done| |done]. cbn. lia.
  - by apply inv_hit.
  - destruct Hi as [I1 I2 I3 I4]. split; [done..|]. intros i' token at_. cbn. rewrite lookup_insert. case_decide; [done|]. apply I4.
  - by apply inv_hit.
  - by apply (inv_refresh w i exec).
Qed.
Lemma sa_start_inv s now : sa_currentToken s = "" → sa_inv (sa_start s now).
Proof. intros Hs. split; cbn; try done. intros r Hr. by apply not_elem_of_nil in Hr. Qed.
Lemma sa_reachable_inv s now w : sa_currentToken s = "" → rtc sa_step (sa_start s now) w → sa_inv w.
Proof.
  intros Hs Hr. assert (sa_inv (sa_start s now)) as Hi by by apply sa_start_inv. clear Hs. induction Hr as [w|w1 w2 w3 H12 _ IH]; [done|].
  apply IH. by eapply sa_step_inv.
Qed.
Lemma sa_reachable_config s now w :
  rtc sa_step (sa_start s now) w → sa_rotationInterval (w_issuer w) = sa_rotationInterval s.
Proof.
  assert (∀ w1 w2, sa_step w1 w2 → sa_rotationInterval (w_issuer w2) = sa_rotationInterval (w_issuer w1)) as Hstep.
  { intros w1 w2 []; try done. cbn. pose proof (refreshToken_fresh _ _ _ _ _ _ H0 H2) as Ho. destruct o; [destruct Ho as [_ ->]|subst..]; done. }
  intros Hr. remember (sa_start s now) as w0 eqn:E. assert (sa_rotationInterval (w_issuer w0) = sa_rotationInterval s) as H0 by by subst.
  clear E. induction Hr as [w0|w1 w2 w3 H12 _ IH]; [done|]. apply IH. by rewrite (Hstep _ _ H12).
Qed.

(** ** The client ([slurmapi/client.go]) *)
(** What a client asks of an issuer of tokens. *)
Class TokenIssuer (St Ev : Type) := issue : Ev → St → outcome string * St.
Global Instance Token_issuer `{ExpiringCache} SignedString : TokenIssuer Token IssueEnv := Issue SignedString.
Global Instance Standalone_issuer : TokenIssuer StandaloneTokenIssuer StandaloneEnv := standalone_Issue.
Section client.
  Context {St Ev : Type} `{!TokenIssuer St Ev}.
Record client := mkClient { cl_server : string; cl_tokenIssuer : option St }.
(** An interface value that may hold a nil pointer. *)
Definition normalizeIssuer (t : option (option St)) : option St := mjoin t.
Fixpoint TrimRight (s : string) (c : ascii) : string :=
  match s with
  | "" => ""
  | String a s => match TrimRight s c with "" => if Ascii.eqb a c then "" else String a "" | r => String a r end
  end.
Definition NewClient (newAPI : string → outcome ()) (server : string) (tokenIssuer : option (option St)) : outcome client :=
  if String.eqb server "" then Err (ErrMsg "unable to create client: empty server URL")
  else
    match newAPI server with
    | Ok _ => Ok (mkClient (TrimRight server "/") (normalizeIssuer tokenIssuer))
    | Err _ => Err (ErrMsg "unable to create client")
    | Halt why => Halt why
    end.
Definition headerSlurmUserToken : string := "X-SLURM-USER-TOKEN".
Definition setHeaders (e : Ev) (c : client) (header : gmap string string) : outcome (gmap string string) * client :=
  let header := <["Content-Type" := "application/json"]> header in
  match cl_tokenIssuer c with
  | None => (Ok header, c)
  | Some ti =>
      let '(o, ti) := issue e ti in
      (let? token := wrap_err "unable to issue jwt" o in
       Ok (if String.eqb token "" then header else <[headerSlurmUserToken := token]> header),
       mkClient (cl_server c) (Some ti))
  end.
(** The headers of a client's requests, one after the other. *)
Fixpoint requests (es : list Ev) (c : client) : list (outcome (gmap string string)) :=
  match es with [] => [] | e :: es => let '(o, c) := setHeaders e c ∅ in o :: requests es c end.
End client.
Arguments client : clear implicits.
(** What an issuer promises: from a state that is fine at some time, a call that fits after it gives a proper token and leaves a state
    that is fine at its end. *)
Class TokenIssuerSpec (St Ev : Type) `{TokenIssuer St Ev} := {
  ti_inv : Z → St → Prop;
  ti_fits : Z → Ev → Prop;
  ti_end : Ev → Z;
  ti_proper : Ev → string → Prop;
  ti_spec now e st o st' : ti_inv now st → ti_fits now e → issue e st = (o, st') →
    ti_inv (ti_end e) st' ∧ ∀ token, o = Ok token → token ≠ "" ∧ ti_proper e token }.
Fixpoint all_fit `{TokenIssuerSpec St Ev} (now : Z) (es : list Ev) : Prop :=
  match es with [] => True | e :: es => ti_fits now e ∧ all_fit (ti_end e) es end.
Section authenticated.
  Context `{TokenIssuerSpec St Ev}.
Lemma setHeaders_proper now e st server o c :
  ti_inv now st → ti_fits now e → setHeaders e (mkClient server (Some st)) ∅ = (o, c) →
  ∃ st', c = mkClient server (Some st') ∧ ti_inv (ti_end e) st' ∧
    ∀ h, o = Ok h → ∃ token, h !! headerSlurmUserToken = Some token ∧ ti_proper e token.
Proof.
  intros Hi Hf. unfold setHeaders. cbn [cl_tokenIssuer]. destruct (issue e st) as [r st'] eqn:He.
  destruct (ti_spec _ _ _ _ _ Hi Hf He) as [Hi' Hp]. intros [= <- <-]. exists st'. split_and!; [done..|].
  destruct r as [token|?|?]; [|done..]. destruct (Hp token eq_refl) as [Hne Hv]. cbn. intros h [= <-]. exists token.
  destruct (String.eqb_spec token ""); [done|]. by rewrite lookup_insert_eq.
Qed.
Lemma requests_proper now es st server :
  ti_inv now st → all_fit now es →
  Forall2 (λ e o, ∀ h, o = Ok h → ∃ token, h !! headerSlurmUserToken = Some token ∧ ti_proper e token) es (requests es (mkClient server (Some st))).
Proof.
  revert now st. induction es as [|e es IH]; intros now st Hi; [constructor|]. intros [Hf Hfs]. cbn [requests].
  destruct (setHeaders _ _ _) as [o c] eqn:Hs. destruct (setHeaders_proper _ _ _ _ _ _ Hi Hf Hs) as (st' & -> & Hi' & Ho). constructor; [done|]. by apply (IH (ti_end e)).
Qed.
End authenticated.

(** *** Both issuers keep the promise *)
Section token_spec.
  Context `{ExpiringCacheSpec} (SignedString : TokenClaims → string → outcome string) (held : string * string → string → Prop) (d : Z) (m : TokenMeta).
  Context (Hd : (0 ≤ d)%Z) (Hm : plain_meta m) (signed_nonempty : ∀ claims key token, SignedString claims key = Ok token → token ≠ "").
Definition token_inv (now : Z) (t : Token) : Prop :=
  ∃ lifetime r, t = mkToken true (Some m) lifetime (Some r) ∧ (0 ≤ lifetime)%Z ∧ registry_inv SignedString held d now r.
Definition token_issuer_spec : @TokenIssuerSpec Token IssueEnv (Token_issuer SignedString).
Proof.
  refine {| ti_inv := token_inv; ti_fits now e := orderly_call d now e ∧ answers_held held e; ti_end := ie_evict;
            ti_proper := genuine SignedString held d m |}.
  intros now e st o st' (lifetime & r & -> & Hl & Hr) [Ho Ha] Hi.
  destruct (Issue_inv SignedString held d now m lifetime e r o st' Hr Ho Hm Ha Hl Hd Hi) as (r' & -> & Hr' & Hg).
  split; [by exists lifetime, r'|]. intros token Ht. specialize (Hg token Ht). split; [|done]. destruct Hg as (claims & (key & _ & Hs & _) & _). by eapply signed_nonempty.
Defined.
End token_spec.
Section standalone_spec.
  (** The times until which Slurm takes a token. *)
  Context (slurm_valid : string → Z → Prop) (R : Z) (HR : (second ≤ R)%Z).
Definition token_command (user : string) : list string := ["token"; "username=" +:+ user; "lifespan=" +:+ Itoa (R `quot` second)].
Definition standalone_inv (s : StandaloneTokenIssuer) : Prop :=
  sa_rotationInterval s = R ∧ (sa_currentToken s ≠ "" → ∃ u, slurm_valid (sa_currentToken s) u ∧ (sa_tokenExpiry s ≤ u)%Z).
(** The command is not slow, and a token lives as long as it was asked for. *)
Definition standalone_fits (now : Z) (e : StandaloneEnv) : Prop :=
  (now ≤ se_lookup e ≤ se_check e ∧ se_check e ≤ se_done e ≤ se_check e + 29 * second)%Z ∧
  ∀ path user output token, se_exec e path (token_command user) = Ok output → parseSlurmTokenOutput output = Ok token →
    slurm_valid token (se_check e + R `quot` second * second)%Z.
Definition standalone_issuer_spec : TokenIssuerSpec StandaloneTokenIssuer StandaloneEnv.
Proof.
  refine {| ti_inv _ := standalone_inv; ti_fits := standalone_fits; ti_end := se_done;
            ti_proper e token := ∃ u, slurm_valid token u ∧ (se_lookup e < u)%Z |}.
  intros now e s o s' [Hr Hc] [(H1 & H2) Hv]. unfold issue, Standalone_issuer, standalone_Issue.
  destruct (valid_token (se_lookup e) s) as [token|] eqn:Hl.
  { intros [= <- <-]. apply valid_token_Some in Hl as (-> & Hne & Hlt). split; [by split|]. intros ? [= <-]. split; [done|].
    destruct (Hc Hne) as (u & Hu & Hx). exists u. split; [done|lia]. }
  destruct (valid_token (se_check e) s) as [token|] eqn:Hl'.
  { unfold refreshToken. rewrite Hl'. intros [= <- <-]. apply valid_token_Some in Hl' as (-> & Hne & Hlt). split; [by split|]. intros ? [= <-]. split; [done|].
    destruct (Hc Hne) as (u & Hu & Hx). exists u. split; [done|lia]. }
  intros Hf. pose proof (refreshToken_fresh _ _ _ _ _ _ Hl' Hf) as Ho. destruct o as [token|?|?]; [|subst s'; split; [by split|done]..].
  destruct Ho as [Hne ->]. assert (slurm_valid token (se_check e + R `quot` second * second)%Z) as Hu.
  { revert Hf. unfold refreshToken, getSlurmToken. rewrite Hl'. unfold lifespanSeconds. rewrite Hr. fold (token_command (sa_username s)).
    destruct (se_exec e _ _) as [out|?|?] eqn:He; [|done..]. cbn. destruct (parseSlurmTokenOutput out) as [t|?|?] eqn:Hp; [|done..].
    intros [= -> _]. by eapply Hv. }
  pose proof (Z.quot_rem' R second). pose proof (Z.rem_bound_pos R second ltac:(unfold second in *; lia) ltac:(unfold second; lia)).
  split.
  - split; [done|]. intros _. eexists. split; [exact Hu|]. cbn. unfold margin. rewrite Hr. lia.
  - intros ? [= <-]. split; [done|]. eexists. split; [exact Hu|]. unfold second in *. lia.
Defined.
End standalone_spec.

(** *** A cache with eviction of what was used least recently *)
Record LRU := mkLRU { lru_list : list (string * (string * Z)); lru_default : Z; lru_max : Z }.
Definition lru_put (k v : string) (x : Z) (c : LRU) : LRU :=
  mkLRU (take (Z.to_nat (lru_max c)) ((k, (v, x)) :: filter (λ e, e.1 ≠ k) (lru_list c))) (lru_default c) (lru_max c).
Global Instance LRU_cache : ExpiringCache := {|
  cache := LRU; NewLRU d _ n := mkLRU [] d n;
  cache_Set now k v c := lru_put k v (now + lru_default c) c;
  cache_SetWithExpiration now k v d c := lru_put k v (now + d) c;
  cache_EvictExpired now c := mkLRU (filter (λ e, (now < e.2.2)%Z) (lru_list c)) (lru_default c) (lru_max c);
  cache_Get k c :=
    match (list_to_map (lru_list c) : gmap string (string * Z)) !! k with
    | Some (v, x) => (Some v, mkLRU ((k, (v, x)) :: filter (λ e, e.1 ≠ k) (lru_list c)) (lru_default c) (lru_max c))
    | None => (None, c)
    end |}.
Definition lru_entries (c : LRU) : gmap string (string * Z) := list_to_map (lru_list c).
Definition lru_usable (c : LRU) : Prop := NoDup (lru_list c).*1 ∧ (0 < lru_max c)%Z.
Lemma NoDup_fmap_filter {A B} (f : A → B) (P : A → Prop) `{!∀ x, Decision (P x)} (l : list A) : NoDup (f <$> l) → NoDup (f <$> filter P l).
Proof.
  induction l as [|x l IH]; [done|]. rewrite fmap_cons, NoDup_cons. intros [Hx Hl]. destruct (decide (P x)).
  - rewrite filter_cons_True, fmap_cons, NoDup_cons by done. split; [|by apply IH]. intros (y & Hy & Hin)%list_elem_of_fmap.
    apply Hx, list_elem_of_fmap. exists y. split; [done|]. by apply list_elem_of_filter in Hin as [_ ?].
  - rewrite filter_cons_False by done. by apply IH.
Qed.
Lemma NoDup_front k x (l : list (string * (string * Z))) : NoDup l.*1 → NoDup ((k, x) :: filter (λ e, e.1 ≠ k) l).*1.
Proof.
  intros Hl. rewrite fmap_cons, NoDup_cons. split; [|by apply NoDup_fmap_filter]. intros (y & Hy & Hin)%list_elem_of_fmap.
  by apply list_elem_of_filter in Hin as [? _].
Qed.
Lemma lookup_front k x (l : list (string * (string * Z))) k' :
  NoDup l.*1 → (list_to_map ((k, x) :: filter (λ e, e.1 ≠ k) l) : gmap string (string * Z)) !! k' =
    if decide (k' = k) then Some x else (list_to_map l : gmap string (string * Z)) !! k'.
Proof.
  intros Hl. cbn. rewrite lookup_insert. case_decide as H1; case_decide as H2; subst; try done. apply option_eq. intros y.
  rewrite <-!elem_of_list_to_map by (try apply NoDup_fmap_filter; done). rewrite list_elem_of_filter. cbn. naive_solver.
Qed.
Lemma lru_put_spec k v x c :
  lru_usable c →
  lru_usable (lru_put k v x c) ∧ lru_entries (lru_put k v x c) !! k = Some (v, x) ∧
  ∀ k' y, k' ≠ k → lru_entries (lru_put k v x c) !! k' = Some y → lru_entries c !! k' = Some y.
Proof.
  intros [Hn Hm]. pose proof (NoDup_front k (v, x) _ Hn) as Hf. destruct (Z.to_nat (lru_max c)) as [|n] eqn:E; [lia|].
  unfold lru_put, lru_usable, lru_entries. cbn [lru_list lru_max]. rewrite E. split_and!.
  - rewrite <-(take_drop (S n) (_ :: _)), fmap_app in Hf. by apply NoDup_app in Hf as [? _].
  - done.
  - cbn. apply lookup_insert_eq.
  - intros k' y Hne Hy.
    assert ((list_to_map ((k, (v, x)) :: filter (λ e, e.1 ≠ k) (lru_list c)) : gmap string (string * Z)) !! k' = Some y) as Hall.
    { rewrite <-(take_drop (S n) (_ :: _)), list_to_map_app. by apply lookup_union_Some_l. }
    rewrite lookup_front in Hall by done. by case_decide.
Qed.
Global Instance LRU_spec : ExpiringCacheSpec.
Proof.
  refine {| entries := lru_entries; usable := lru_usable |}.
  - intros d i n Hn. repeat split; [constructor|done].
  - intros now k v d c. apply lru_put_spec.
  - intros now c [Hn Hm]. split; [split; [by apply NoDup_fmap_filter|done]|]. intros k v e. unfold lru_entries. cbn.
    rewrite <-!elem_of_list_to_map by (try apply NoDup_fmap_filter; done). rewrite list_elem_of_filter. cbn. naive_solver.
  - intros k c [Hn Hm]. cbn. unfold lru_entries. destruct (list_to_map (lru_list c) !! k) as [[v x]|] eqn:Hk; cbn [fst snd lru_list lru_usable]; [|by repeat split].
    split_and!; [split; [by apply NoDup_front|done]| |done]. apply map_eq. intros k'. rewrite lookup_front by done. case_decide; [by subst|done].
Defined.

(** ** Results *)
(** C20: tokens are genuine and fresh.  Whatever users of whatever clusters ask a registry for tokens, in any number and order and with any
    lifetimes that are not negative, one call after the other and without annotations (no caller sets any), over any cache that keeps its
    contract: a token that is returned was signed with a key which the Secret of the right
    cluster has held, by the operator, for the user who asked, and not for any other; it is not from the
    future; and when the call begins it is not expired by more than the rounding of its date to a second and the duration [d] of the call
    which issued it. *)
Theorem tokens_genuine `{ExpiringCacheSpec} (SignedString : TokenClaims → string → outcome string) (held : string * string → string → Prop) (d : Z)
    (calls : list IssueCall) (now : Z) (i : nat) (c : IssueCall) (token : string) :
  (0 ≤ d)%Z → orderly d now calls →
  Forall (λ c, plain_meta (ic_meta c) ∧ answers_held held (ic_env c) ∧ (0 ≤ ic_lifetime c)%Z) calls →
  calls !! i = Some c → issue_all SignedString calls (Build NewTokenRegistry) !! i = Some (Ok token) →
  ∃ claims key, held (tm_cluster (ic_meta c)) key ∧ SignedString claims key = Ok token ∧ tc_Issuer claims = "soperator" ∧
    tc_Subject claims = tm_username (ic_meta c) ∧ tc_SlurmUsername claims = tm_username (ic_meta c) ∧
    (tc_NotBefore claims * second ≤ ie_evict (ic_env c))%Z ∧ (ie_get (ic_env c) < (tc_ExpiresAt claims + 1) * second + d)%Z.
Proof.
  intros Hd Ho Hc Hi Ht.
  assert (registry_inv SignedString held d now (Build NewTokenRegistry)) as Hr.
  { destruct (NewLRU_spec (DefaultTokenLifetime - DefaultTokenEviction) DefaultTokenEviction DefaultMaxCacheEntries) as [Hu He]; [done|].
    split; [done|]. cbn. rewrite He. intros k s x Hx. by rewrite lookup_empty in Hx. }
  pose proof (issue_all_inv SignedString held d now calls _ Hr Ho Hd Hc) as Hall.
  destruct (Forall2_lookup_l _ _ _ _ _ Hall Hi) as (o & Hl & Hg). rewrite Ht in Hl. injection Hl as <-.
  destruct (Hg token eq_refl) as (claims & (key & Hk & Hs & Hi' & Hsub & Hu) & Hn & Hx).
  exists claims, key. split_and!; assumption.
Qed.
(** C21: with a rotation interval of at least 30 seconds, scontrol is asked for a token once per rotation, however many calls overlap.  In every
    interleaving of concurrent calls on a new issuer with such an interval:
    a token that a call returns came out of a run of scontrol, at the end of the run or less than the rotation interval less 30
    seconds after it; between the end of a successful run and the start of any later run lies at least that time; and so, if
    a run takes at most 29 seconds and its token is valid for the lifespan asked for, every token is valid when it
    is returned.  With a shorter interval, which the flag allows, no token is kept and every call runs scontrol
    ([short_rotation_uncached] of [Startup.v]), and the token of a run that takes longer than the interval has expired when it is returned. *)
Theorem standalone_rotation (clusterID : string * string) (username : string) (interval now : Z) (w : sa_world) :
  (30 * second ≤ interval)%Z →
  rtc sa_step (sa_start (WithRotationInterval interval (NewStandaloneTokenIssuer clusterID username)) now) w →
  (∀ i token at_, w_calls w !! i = Some (Returned (Ok token) at_) →
     ∃ r, r ∈ w_runs w ∧ run_result r = Ok token ∧ (at_ = run_end r ∨ run_end r ≤ at_ < run_end r + (interval - 30 * second))%Z ∧
       ((run_end r ≤ run_start r + 29 * second)%Z → (at_ < run_start r + lifespanSeconds (w_issuer w) * second)%Z)) ∧
  (∀ j k r1 r2 token, j < k → w_runs w !! j = Some r1 → w_runs w !! k = Some r2 → run_result r1 = Ok token →
     (run_end r1 + (interval - 30 * second) ≤ run_start r2)%Z).
Proof.
  intros Hi Hr. assert (sa_inv w) as [I1 _ _ I4] by (eapply sa_reachable_inv; [|exact Hr]; done).
  pose proof (sa_reachable_config _ _ _ Hr) as Hc. unfold margin in *. cbn in Hc. rewrite Hc in *. split.
  - intros i token at_ Hat. destruct (I4 i token at_ Hat) as (r & Hin & Hres & Hx). exists r. split_and!; [done..|]. intros Hd.
    unfold lifespanSeconds. rewrite Hc. pose proof (Z.quot_rem' interval second).
    pose proof (Z.rem_bound_pos interval second ltac:(unfold second in *; lia) ltac:(unfold second; lia)). unfold second in *. lia.
  - intros j k r1 r2 token Hjk H1 H2 Hs. apply (I1 j k); try done. by exists token.
Qed.
(** Requests are authenticated: every request that a client sends with an issuer that keeps its promise carries a proper token, for both issuers. *)
Theorem requests_authenticated (slurm_valid : string → Z → Prop) (interval now : Z) (clusterID : string * string) (username server : string)
    (es : list StandaloneEnv) :
  (second ≤ interval)%Z →
  (fix fit now es := match es with [] => True | e :: es => standalone_fits slurm_valid interval now e ∧ fit (se_done e) es end) now es →
  Forall2 (λ e o, ∀ h, o = Ok h → ∃ token u, h !! headerSlurmUserToken = Some token ∧ slurm_valid token u ∧ (se_lookup e < u)%Z)
    es (requests es (mkClient server (Some (WithRotationInterval interval (NewStandaloneTokenIssuer clusterID username))))).
Proof.
  intros HR Hfit. eapply Forall2_impl; [apply (requests_proper (H0 := standalone_issuer_spec slurm_valid interval HR) now)|].
  - by split.
  - revert now Hfit. induction es as [|e es IH]; intros now; [done|]. intros [Hf Hes]. split; [exact Hf|]. by apply IH.
  - intros e o Ho h Hh. destruct (Ho h Hh) as (token & Ht & u & Hu & Hlt). by exists token, u.
Qed.
(** scontrol's output is read back. *)
Theorem scontrol_output_roundtrip (token : string) :
  no_space token = true → token ≠ "" → parseSlurmTokenOutput ("SLURM_JWT=" +:+ token +:+ newline) = Ok token.
Proof.
  intros Hn Hne. assert (TrimSpace ("SLURM_JWT=" +:+ token +:+ newline) = "SLURM_JWT=" +:+ token) as Ht.
  { unfold TrimSpace. rewrite <-str_app_assoc.
    assert (no_space ("SLURM_JWT=" +:+ token) = true) as Hs by (unfold no_space in *; by rewrite str_forallb_app, Hn).
    assert (trim_left (("SLURM_JWT=" +:+ token) +:+ newline) = ("SLURM_JWT=" +:+ token) +:+ newline) as -> by done.
    rewrite <-(trim_right_no_space ("SLURM_JWT=" +:+ token) Hs) at 2.
    generalize ("SLURM_JWT=" +:+ token). intros s. induction s as [|a s IH]; [done|]. rewrite str_app_cons. cbn [trim_right]. by rewrite IH. }
  unfold parseSlurmTokenOutput. rewrite Ht, HasPrefix_app, TrimPrefix_app. destruct (String.eqb_spec token ""); [done|]. reflexivity.
Qed.

(** A token is asked for once: a call that finds the token of an earlier one does not need the API server. *)
Theorem token_reused `{ExpiringCacheSpec} (SignedString : TokenClaims → string → outcome string) (m : TokenMeta) (lifetime : Z)
    (r : TokenRegistry) (e1 e2 : IssueEnv) (token : string) (t : Token) :
  plain_meta m → usable (tr_cache r) → (ie_get e2 < ie_register e1 + lifetime)%Z → (ie_evict e1 ≤ ie_get e2)%Z →
  Issue SignedString e1 (mkToken true (Some m) lifetime (Some r)) = (Ok token, t) → entries (tr_cache r) !! meta_String m [] = None →
  ∃ t', Issue SignedString e2 t = (Ok token, t').
Proof.
  intros Hm Hu Hlt Hle Hi Hnone. unfold Issue in Hi. destruct (wrap_err _ _) as [m'|?|?] eqn:Hv; [|done..].
  assert (m' = m) as ->.
  { revert Hv. unfold validate. cbn. repeat (destruct (require_ _ _); [cbn|done..]). by intros [= <-]. }
  cbn [tk_registry tk_lifetime] in Hi. unfold registry_Get in Hi. destruct (Evict_spec (ie_get e1) _ Hu) as [Hu1 Hev1].
  destruct (Get_spec (meta_String m (ie_order e1)) _ Hu1) as (Hu2 & _ & Hg). destruct (cache_Get _ _) as [found c]. cbn in Hg, Hu2.
  assert (∀ o, meta_String m o = meta_String m []) as Hk by (intros o; by rewrite !plain_String).
  assert (entries (cache_EvictExpired (ie_get e1) (tr_cache r)) !! meta_String m (ie_order e1) = None) as Hn.
  { apply eq_None_not_Some. intros [[v x] [Hx _]%Hev1]. by rewrite Hk, Hnone in Hx. }
  rewrite Hn in Hg. simpl in Hg. subst found. destruct (sign _ _ _ _) as [s|?|?]; [|done..]. injection Hi as <- <-.
  unfold Issue. change (validate (WithRegistry _ _)) with (validate (mkToken true (Some m) lifetime (Some r))). rewrite Hv.
  cbn [tk_registry WithRegistry]. unfold registry_Get, RegisterWithLifetime. cbn [tr_cache with_cache].
  destruct (Set_spec (ie_register e1) (meta_String m (ie_order' e1)) s lifetime c Hu2) as (Hu3 & Hs & _).
  destruct (Evict_spec (ie_evict e1) _ Hu3) as [Hu4 Hev4]. destruct (Evict_spec (ie_get e2) _ Hu4) as [Hu5 Hev5].
  destruct (Get_spec (meta_String m (ie_order e2)) _ Hu5) as (_ & _ & Hg). destruct (cache_Get (meta_String m (ie_order e2)) _) as [found c'].
  cbn in Hg. rewrite (proj2 (Hev5 _ s (ie_register e1 + lifetime)%Z)) in Hg; [subst found; by eexists|].
  split; [|done]. apply Hev4. split; [|lia]. by rewrite (Hk (ie_order e2)), <-(Hk (ie_order' e1)).
Qed.

(** ** Examples *)
Definition ex_sign (claims : TokenClaims) (key : string) : outcome string := Ok (tc_Subject claims +:+ " until " +:+ Itoa (tc_ExpiresAt claims) +:+ " by " +:+ key).
Definition ex_env (get issue register evict : Z) (key : string) : IssueEnv :=
  mkIssueEnv get issue register evict "id" [] [] (λ _, Ok {[SecretRESTJWTKeyFileName := key]}).
Definition root_meta : TokenMeta := mkTokenMeta ("ns", "cl") "root" None.
Definition ex_calls : list IssueCall :=
  [mkIssueCall root_meta DefaultTokenLifetime (ex_env 0 1 (2 * second) (2 * second) "key");
   mkIssueCall root_meta DefaultTokenLifetime (ex_env (5 * second) (5 * second) (5 * second) (5 * second) "key")].
Lemma tokens_genuine_witness :
  ∃ claims key, key = "key" ∧ ex_sign claims key = Ok "root until 2592000 by key" ∧ tc_Subject claims = "root" ∧
    (5 * second < (tc_ExpiresAt claims + 1) * second + 2 * second)%Z.
Proof.
  destruct (tokens_genuine ex_sign (λ _ key, key = "key") (2 * second) ex_calls 0 1
    (mkIssueCall root_meta DefaultTokenLifetime (ex_env (5 * second) (5 * second) (5 * second) (5 * second) "key")) "root until 2592000 by key")
    as (claims & key & Hk & Hs & _ & Hsub & _ & _ & Hx).
  - done.
  - repeat split; vm_compute; done.
  - constructor; [|constructor; [|constructor]]; (split; [vm_compute; repeat split|]); (split; [|vm_compute; done]);
      intros ns name data Hd; cbn in Hd; injection Hd as <-; reflexivity.
  - reflexivity.
  - vm_compute. reflexivity.
  - exists claims, key. split_and!; assumption.
Defined.
(** A token is handed out until its lifetime has passed since its registration: here the key took two seconds to fetch, and one second
    after its expiry the token is still given to a user. *)
Example expired_token_returned :
  let late := (DefaultTokenLifetime + second)%Z in
  issue_all ex_sign
    [mkIssueCall root_meta DefaultTokenLifetime (ex_env 0 0 (2 * second) (2 * second) "key");
     mkIssueCall root_meta DefaultTokenLifetime (ex_env late late late late "key")] (Build NewTokenRegistry) =
    [Ok "root until 2592000 by key"; Ok "root until 2592000 by key"] ∧ late = (2592001 * second)%Z.
Proof. split; vm_compute; reflexivity. Qed.
(** When the signing key of a cluster changes, its tokens are still those of the old key. *)
Example old_key_used :
  issue_all ex_sign
    [mkIssueCall root_meta DefaultTokenLifetime (ex_env 0 0 0 0 "old"); mkIssueCall root_meta DefaultTokenLifetime (ex_env hour hour hour hour "new")]
    (Build NewTokenRegistry) = [Ok "root until 2592000 by old"; Ok "root until 2592000 by old"].
Proof. vm_compute. reflexivity. Qed.
(** With two annotations, the name under which a token is registered depends on the order in which the map is ranged over, and has empty parts. *)
Example annotations_unordered :
  let m := mkTokenMeta ("ns", "cl") "root" (Some {["a" := "1"; "b" := "2"]}) in
  meta_String m [("a", "1"); ("b", "2")] = "ns/cl:root:{,,a=1,b=2}" ∧ meta_String m [("b", "2"); ("a", "1")] = "ns/cl:root:{,,b=2,a=1}".
Proof. split; vm_compute; reflexivity. Qed.

Definition ex_exec (_ : string) (_ : list string) : outcome string := Ok ("SLURM_JWT=abc" +:+ newline).
Definition ex_issuer : StandaloneTokenIssuer := WithRotationInterval (60 * second) (NewStandaloneTokenIssuer ("ns", "cl") "").
(** Two calls miss the token; one runs scontrol, the other finds the new token. *)
Definition ex_world : sa_world :=
  mkSaWorld (with_token "abc" (1 * second + 30 * second) ex_issuer) second
    (<[1 := Returned (Ok "abc") second]> (<[0 := Returned (Ok "abc") second]> (<[1 := Missed]> (<[0 := Missed]> ∅)))) [mkRun 0 second (Ok "abc")].
Lemma ex_world_reachable : rtc sa_step (sa_start ex_issuer 0) ex_world.
Proof.
  eapply rtc_l; [apply (step_miss _ 0); reflexivity|]. eapply rtc_l; [apply (step_miss _ 1); reflexivity|].
  eapply rtc_l; [eapply (step_refresh _ 0 ex_exec second); [reflexivity|reflexivity|vm_compute; discriminate|reflexivity]|].
  eapply rtc_l; [eapply (step_recheck _ 1 ex_exec "abc"); [reflexivity|reflexivity|reflexivity]|]. apply rtc_refl.
Defined.
Lemma standalone_rotation_witness :
  rtc sa_step (sa_start ex_issuer 0) ex_world ∧
  ∃ r, r ∈ w_runs ex_world ∧ run_result r = Ok "abc" ∧ (second < run_start r + 60 * second)%Z.
Proof.
  split; [exact ex_world_reachable|].
  destruct (standalone_rotation ("ns", "cl") "" (60 * second) 0 ex_world) as [Hret _]; [vm_compute; discriminate|exact ex_world_reachable|].
  destruct (Hret 1 "abc" second eq_refl) as (r & Hin & Hres & _ & Hv). exists r. split; [exact Hin|]. split; [exact Hres|].
  apply list_elem_of_singleton in Hin. subst r. apply Hv. vm_compute. discriminate.
Defined.
