(* ===== verification/Sconfig.v ===== *)
(** * Configuration files in the jail

    [internal/controller/sconfigcontroller]: [replaced_files_batch.go] replaces files so that
    readers with stale directory entries keep the old ones until the caches are synced;
    [jailedconfig_controller.go] writes the keys of ConfigMaps as files, reconfigures the
    Slurm cluster and reports progress in conditions.

    The world has the files of the jail, the batch object and a list of faults, one for each
    call that may fail (file system and API server alike; a call that fails changes nothing).  Directories
    are left out. *)
From S2P Require Import Prelude GoStrings Effects Kube SlurmNode.
From Stdlib Require Import Ascii.
From Stdlib Require String.

Record file := mkFile { f_Data : string; f_Mode : Z }.
Global Instance file_eq_dec : EqDecision file.
Proof. solve_decision. Defined.
Abbreviation files := (gmap string file).
Record replacedFile := mkReplaced { targetName : string; tempName : string }.
Inductive scommand :=
| Exchanged (temp target : string)
| Created (target : string)
| Removed (name : string)
| Synced
| Reconfigured
| ConditionSet (config type : string) (status : condition_status) (reason : string).
Record sworld := SWorld {
  sw_fs : files;
  sw_pending : list replacedFile;
  sw_faults : list (option gerror);
  sw_log : list scommand
}.
Global Instance sw_logged : Logged sworld scommand := sw_log.
Definition may_fault : M sworld () := λ w,
  match sw_faults w with
  | [] => (w, Ok tt)
  | f :: fs =>
      (SWorld (sw_fs w) (sw_pending w) fs (sw_log w), match f with Some e => Err e | None => Ok tt end)
  end.
Definition act (f : files → files) (c : scommand) : M sworld () := λ w,
  (SWorld (f (sw_fs w)) (sw_pending w) (sw_faults w) (sw_log w ++ [c]), Ok tt).
Definition set_pending (p : list replacedFile) : M sworld () := λ w,
  (SWorld (sw_fs w) p (sw_faults w) (sw_log w), Ok tt).

(** ** The file system *)
Definition ErrNotExist : gerror := ErrMsg "file does not exist".
Definition ErrExist : gerror := ErrMsg "file already exists".
Fixpoint is_not_exist (e : gerror) : bool :=
  match e with
  | ErrWrap _ e => is_not_exist e
  | ErrJoin e1 e2 => is_not_exist e1 || is_not_exist e2
  | e => bool_decide (e = ErrNotExist)
  end.

Section fs.
  (** Whether the file system can exchange names ([renameat2]), and the name that
      [os.CreateTemp] picks for a temporary file beside a path. *)
  Context (canExchange : bool) (createTemp : files → string → string).

Definition MkdirAll (dir : string) : M sworld () := may_fault.
Definition os_Rename (old new : string) (c : scommand) : M sworld () :=
  let! fs := gets sw_fs in
  match fs !! old with
  | None => fail ErrNotExist
  | Some f => act (λ fs, <[new := f]> (delete old fs)) c
  end.
Definition RenameExchange (old new : string) : M sworld () :=
  do! may_fault;
  if canExchange then
    let! fs := gets sw_fs in
    match fs !! old, fs !! new with
    | Some f, Some g => act (λ fs, <[new := f]> (<[old := g]> fs)) (Exchanged old new)
    | _, _ => fail ErrNotExist
    end
  else os_Rename old new (Exchanged old new).
Definition RenameNoReplace (old new : string) : M sworld () :=
  do! may_fault;
  if canExchange then
    let! fs := gets sw_fs in
    match fs !! old, fs !! new with
    | Some f, None => act (λ fs, <[new := f]> (delete old fs)) (Created new)
    | Some _, Some _ => fail ErrExist
    | None, _ => fail ErrNotExist
    end
  else os_Rename old new (Created new).
Definition Remove (name : string) : M sworld () :=
  do! may_fault;
  let! fs := gets sw_fs in
  match fs !! name with
  | None => fail ErrNotExist
  | Some _ => act (delete name) (Removed name)
  end.
(** The file is created empty for its owner only, written, closed and given its mode; when one
    of the steps fails it is removed again. *)
Definition set_file (name : string) (f : file) : M sworld () := λ w,
  (SWorld (<[name := f]> (sw_fs w)) (sw_pending w) (sw_faults w) (sw_log w), Ok tt).
Definition fillFile (temp : string) (content : file) : M sworld () :=
  do! wrapM "write temp file" may_fault;
  do! set_file temp (mkFile (f_Data content) 384);
  do! wrapM "close temp file" may_fault;
  do! wrapM "chmod temp file" may_fault;
  set_file temp content.
Definition PrepareNewFile (path : string) (content : file) : M sworld string :=
  do! wrapM "create temp file" may_fault;
  let! fs := gets sw_fs in
  let temp := createTemp fs path in
  do! set_file temp (mkFile EmptyString 384);
  let! filled := attempt (fillFile temp content) in
  match filled with
  | inl _ => ret temp
  | inr e =>
      let! removed := attempt (Remove temp) in
      fail (match removed with inl _ => e | inr e' => ErrJoin e e' end)
  end.
Definition SyncCaches : M sworld () := do! may_fault; act id Synced.

(** ** Batches of replaced files *)
Definition Replace (filePath : string) (content : file) : M sworld () :=
  do! wrapM "preparing dir for file" (MkdirAll filePath);
  let! temp := wrapM "preparing new file" (PrepareNewFile filePath content) in
  let! exchanged := attempt (RenameExchange temp filePath) in
  match exchanged with
  | inl _ =>
      let! pending := gets sw_pending in
      set_pending (pending ++ [mkReplaced filePath temp])
  | inr e =>
      if is_not_exist e then wrapM "rename temp to target file" (RenameNoReplace temp filePath)
      else
        let err := ErrWrap "switch temp and target files" e in
        let! removed := attempt (Remove temp) in
        fail (match removed with inl _ => err | inr e' => ErrJoin err e' end)
  end.
(** Errors are collected. *)
Fixpoint eachFile (f : replacedFile → M sworld ()) (ps : list replacedFile) : M sworld (list gerror) :=
  match ps with
  | [] => ret []
  | p :: ps =>
      let! r := attempt (f p) in
      let! es := eachFile f ps in
      ret (match r with inl _ => es | inr e => e :: es end)
  end.
Definition joined (es : list gerror) : M sworld () :=
  match errors_join es with None => ret tt | Some e => fail e end.
Definition Cleanup : M sworld () :=
  let! pending := gets sw_pending in
  let! errs := eachFile (λ p, do! RenameExchange (tempName p) (targetName p); Remove (tempName p)) pending in
  do! set_pending [];
  joined errs.
Definition finishPending (pending : list replacedFile) : M sworld () :=
  let! synced := attempt SyncCaches in
  match synced with
  | inr e => do! set_pending []; fail e
  | inl _ =>
      let! errs := eachFile (λ p, let! r := attempt (Remove (tempName p)) in
                                  match r with
                                  | inl _ => ret tt
                                  | inr e => if bool_decide (e = ErrNotExist) then ret tt else fail e
                                  end) pending in
      do! set_pending [];
      joined errs
  end.
Definition Finish : M sworld () :=
  let! pending := gets sw_pending in
  match pending with [] => ret tt | _ => finishPending pending end.
End fs.

(** ** Payloads *)
Record ConfigMap := mkConfigMap { cm_Data : gmap string string; cm_BinaryData : gmap string string }.
Record KeyToPath := mkKeyToPath { ktp_Key : string; ktp_Path : string; ktp_Mode : option Z }.
Definition itemFile (configMap : ConfigMap) (defaultMode : Z) (ktp : KeyToPath) : outcome file :=
  let mode := default defaultMode (ktp_Mode ktp) in
  match cm_Data configMap !! ktp_Key ktp, cm_BinaryData configMap !! ktp_Key ktp with
  | Some data, _ => Ok (mkFile data mode)
  | None, Some data => Ok (mkFile data mode)
  | None, None => Err (ErrMsg "JailedConfig items references non-existent config key")
  end.
Fixpoint mappedPayload (configMap : ConfigMap) (defaultMode : Z) (mappings : list KeyToPath) (payload : files) : outcome files :=
  match mappings with
  | [] => Ok payload
  | ktp :: mappings =>
      let? f := itemFile configMap defaultMode ktp in
      mappedPayload configMap defaultMode mappings (<[ktp_Path ktp := f]> payload)
  end.
Definition makePayload (mappings : list KeyToPath) (configMap : ConfigMap) (defaultMode : option Z) : outcome files :=
  match defaultMode, mappings with
  | None, _ => Err (ErrMsg "no defaultMode used, not even the default value for it")
  | Some mode, [] => Ok ((λ d, mkFile d mode) <$> (cm_BinaryData configMap ∪ cm_Data configMap))
  | Some mode, _ => mappedPayload configMap mode mappings ∅
  end.
Definition validatePayloadPath (path : string) : bool := HasPrefix path "/".

(** ** Waiting for the nodes to restart *)
Inductive http_response (B : Type) := HttpError (e : gerror) | HttpStatus (code : Z) | Http200 (body : option B).
Arguments HttpError {B} e.
Arguments HttpStatus {B} code.
Arguments Http200 {B} body.
Record slurmNode := mkSlurmNode {
  sn_Name : option string; sn_State : option (list node_state); sn_SlurmdStartTime : option NoValStruct }.
Record slurmError := mkSlurmError { se_Error : option string; se_Source : option string }.
Record slurmBody := mkSlurmBody { sb_Errors : option (list slurmError); sb_Nodes : list slurmNode }.
(** The body, its list of errors and the texts of an error are dereferenced without a check. *)
Fixpoint errorTexts (errs : list slurmError) : outcome (list gerror) :=
  match errs with
  | [] => Ok []
  | err :: errs =>
      let? msg := deref (se_Error err) in
      let? source := deref (se_Source err) in
      let? es := errorTexts errs in
      Ok (ErrMsg (msg +:+ ", source " +:+ source) :: es)
  end.
Definition checkApiErrors (responseErrors : option (list slurmError)) : outcome () :=
  let? errs := deref responseErrors in
  let? es := errorTexts errs in
  match errors_join es with None => Ok tt | Some e => Err e end.
Definition checkResponse (sending msg : string) (resp : http_response slurmBody) : outcome (list slurmNode) :=
  match resp with
  | HttpError e => Err (ErrWrap sending e)
  | HttpStatus _ => Err (ErrWrap msg (ErrMsg "unexpected status code"))
  | Http200 body =>
      let? b := deref body in
      let? _ := wrap_err msg (checkApiErrors (sb_Errors b)) in
      Ok (sb_Nodes b)
  end.
Definition getNodes (resp : http_response slurmBody) : outcome (list slurmNode) :=
  checkResponse "listing workers via Slurm API" "listing workers via Slurm API" resp.
Definition inactive (s : node_state) : bool :=
  bool_decide (s = NOTRESPONDING) || bool_decide (s = POWERINGDOWN) || bool_decide (s = POWEREDDOWN).
Fixpoint nodesStart (nodes : list slurmNode) (nodeToStart : gmap string Z) : outcome (gmap string Z) :=
  match nodes with
  | [] => Ok nodeToStart
  | node :: nodes =>
      let? name := deref (sn_Name node) in
      match nodeToStart !! name with
      | Some _ => Err (ErrMsg "duplicated worker name in Slurm API")
      | None =>
          let? state := deref (sn_State node) in
          if existsb inactive state then nodesStart nodes nodeToStart
          else
            let? start := deref (sn_SlurmdStartTime node) in
            let? infinite := deref (nv_Infinite start) in
            if (infinite : bool) then Err (ErrMsg "unexpected infinite start time")
            else
              let? set := deref (nv_Set start) in
              if negb set then Err (ErrMsg "unexpected unset start time")
              else
                let? number := deref (nv_Number start) in
                nodesStart nodes (<[name := number]> nodeToStart)
      end
  end.
Definition getNodesStartTime (resp : http_response slurmBody) : outcome (gmap string Z) :=
  let? nodes := getNodes resp in nodesStart nodes ∅.
Definition ErrDeadline : gerror := ErrMsg "context deadline exceeded".
(** The nodes still waited for after a listing. *)
Definition stillWaiting (before after : gmap string Z) : gmap string Z :=
  filter (λ node : string * Z, match after !! node.1 with Some t => (t <=? node.2)%Z | None => false end = true) before.
(** Each poll: the listing, and whether the context is done at the end of it. *)
Fixpoint pollSlurmNodesRestart (before : gmap string Z) (polls : list (http_response slurmBody * bool)) : outcome () :=
  match polls with
  | [] => Halt "the nodes are polled for ever"
  | (resp, ctxDone) :: polls =>
      let? after := getNodesStartTime resp in
      let before := stillWaiting before after in
      if bool_decide (before = ∅) then Ok tt
      else if (ctxDone : bool) then Err ErrDeadline
      else pollSlurmNodesRestart before polls
  end.
Fixpoint is_deadline (e : gerror) : bool :=
  match e with
  | ErrWrap _ e => is_deadline e
  | ErrJoin e1 e2 => is_deadline e1 || is_deadline e2
  | e => bool_decide (e = ErrDeadline)
  end.

(** ** The controller *)
Definition FilesWritten : string := "FilesWritten".
Definition UpdateActionsCompleted : string := "UpdateActionsCompleted".
Definition ReasonInit : string := "Init".
Definition ReasonRefresh : string := "Refresh".
Definition ReasonSuccess : string := "Success".
Definition ReasonNotFound : string := "NotFound".
Definition ReasonNotWritten : string := "NotWritten".
Definition ReasonMissingAction : string := "MissingAction".
Definition UpdateActionReconfigure : string := "Reconfigure".
(** The conditions of the object in memory: status and reason by type. *)
Abbreviation conditions := (gmap string (condition_status * string)).
Record JailedConfig := mkJailedConfig {
  jc_Name : string;
  jc_Instance : string;
  jc_AggregationKey : option string;
  jc_ConfigMap : string;
  jc_Items : list KeyToPath;
  jc_DefaultMode : option Z;
  jc_UpdateActions : list string;
  jc_Conditions : conditions
}.
Definition with_status (jc : JailedConfig) (cs : conditions) : JailedConfig :=
  mkJailedConfig (jc_Name jc) (jc_Instance jc) (jc_AggregationKey jc) (jc_ConfigMap jc) (jc_Items jc)
    (jc_DefaultMode jc) (jc_UpdateActions jc) cs.
Definition condition : Type := string * condition_status * string.
Definition refreshing : list condition :=
  [(FilesWritten, ConditionFalse, ReasonRefresh); (UpdateActionsCompleted, ConditionFalse, ReasonRefresh)].
Definition filesWritten : list condition := [(FilesWritten, ConditionTrue, ReasonSuccess)].
Definition actionsDone (reason : string) : list condition := [(UpdateActionsCompleted, ConditionTrue, reason)].
Definition JailedDefaultMode : Z := 420.

Section reconciler.
  Context (canExchange : bool) (createTemp : files → string → string) (clusterName : string).
  (** The order in which Go ranges over a map. *)
  Context (range : files → list (string * file)).
  (** The ConfigMaps, the JailedConfigs of an aggregation key, and what Slurm answers; all may
      change over time. *)
  Context (getConfigMap : list scommand → string → outcome ConfigMap).
  Context (listAggregated : list scommand → string → outcome (list JailedConfig)).
  Context (nodesBefore : list scommand → http_response slurmBody).
  Context (reconfigureResponse : list scommand → http_response slurmBody).
  Context (nodePolls : list scommand → list (http_response slurmBody * bool)).

Definition observe {A} (f : list scommand → outcome A) : M sworld A := λ w, (w, f (sw_log w)).
Definition log_condition (name : string) (c : condition) : M sworld () :=
  act id (ConditionSet name c.1.1 c.1.2 c.2).
Definition update_conditions (cs : list condition) (old : conditions) : conditions :=
  foldl (λ m c, <[c.1.1 := (c.1.2, c.2)]> m) old cs.
(** One status patch. *)
Definition setConditions (jc : JailedConfig) (cs : list condition) : M sworld JailedConfig :=
  do! wrapM "patching JailedConfig status" may_fault;
  do! forM cs (log_condition (jc_Name jc));
  ret (with_status jc (update_conditions cs (jc_Conditions jc))).
Definition initialCondition (type : string) : condition := (type, ConditionUnknown, ReasonInit).
(** The conditions missing before are initialised in memory, also after the patch has
    initialised both. *)
Definition shouldInitializeConditions (jc : JailedConfig) : M sworld JailedConfig :=
  let conditions := jc_Conditions jc in
  let! jc := (if bool_decide (conditions = ∅)
              then wrapM "initializing conditions"
                     (setConditions jc [initialCondition FilesWritten; initialCondition UpdateActionsCompleted])
              else ret jc) in
  let missing := filter (λ t, conditions !! t = None) [FilesWritten; UpdateActionsCompleted] in
  ret (with_status jc (update_conditions (initialCondition <$> missing) (jc_Conditions jc))).

Definition reconfigureCluster : M sworld () :=
  let! before := observe (λ l, getNodesStartTime (nodesBefore l)) in
  let! _ := observe (λ l, checkResponse "requesting Slurm API to reconfigure nodes" "reconfigure via Slurm API" (reconfigureResponse l)) in
  do! act id Reconfigured;
  let! polled := attempt (observe (λ l, pollSlurmNodesRestart before (nodePolls l))) in
  match polled with
  | inr e => if is_deadline e then fail (ErrWrap "nodes did not restart" e) else ret tt
  | inl _ => ret tt
  end.

(** [reconcile.TerminalError] is a wrapper. *)
Definition payloadOf (jc : JailedConfig) (configMap : ConfigMap) : outcome files :=
  let? payload := wrap_err "making JailedConfig payload"
                    (makePayload (jc_Items jc) configMap (Some (default JailedDefaultMode (jc_DefaultMode jc)))) in
  if forallb (λ pf : string * file, validatePayloadPath pf.1) (range payload) then Ok payload
  else Err (ErrMsg "invalid config path").
Definition replaceAll (payload : files) : M sworld () :=
  forM (range payload) (λ pf, wrapM "replacing file in FS" (Replace canExchange createTemp pf.1 pf.2)).
(** The deferred [Cleanup] runs on every return, and when the body panics; its error is assigned to a variable that is no
    longer returned, and a panic of its own takes the place of what the body did. *)
Definition withCleanup {A} (body : M sworld A) : M sworld A := λ w,
  let '(w', r) := body w in
  match Cleanup canExchange w' with
  | (w'', Halt s) => (w'', Halt s)
  | (w'', _) => (w'', r)
  end.
Definition startBatch : M sworld () := set_pending [].

Definition runAction (jc : JailedConfig) (action : string) : M sworld JailedConfig :=
  if String.eqb action UpdateActionReconfigure then
    do! wrapM "reconfiguring Slurm cluster" reconfigureCluster;
    wrapM "setting conditions" (setConditions jc (actionsDone ReasonSuccess))
  else ret jc.
Definition writeAndAct (jc : JailedConfig) (payload : files) : M sworld () :=
  do! replaceAll payload;
  let! jc := wrapM "setting conditions" (setConditions jc filesWritten) in
  do! wrapM "finishing replacing files in FS" (Finish);
  let! jc := (if bool_decide (jc_UpdateActions jc = [])
              then wrapM "setting conditions" (setConditions jc (actionsDone ReasonMissingAction))
              else ret jc) in
  let! _ := foldM runAction jc (jc_UpdateActions jc) in
  ret tt.
Definition reconcileIndividual (jc : JailedConfig) : M sworld () :=
  if negb (String.eqb (jc_Instance jc) clusterName) then ret tt
  else
    let! jc := wrapM "initializing conditions" (shouldInitializeConditions jc) in
    let! got := attempt (do! may_fault; observe (λ l, getConfigMap l (jc_ConfigMap jc))) in
    match got with
    | inr e => if IsNotFound e then ret tt else fail (ErrWrap "getting ConfigMap" e)
    | inl configMap =>
        let! jc := wrapM "setting conditions" (setConditions jc refreshing) in
        let! payload := lift (payloadOf jc configMap) in
        do! startBatch;
        withCleanup (writeAndAct jc payload)
    end.

(** ** Aggregated configurations *)
Fixpoint mapConfigs (f : JailedConfig → M sworld JailedConfig) (jcs : list JailedConfig) : M sworld (list JailedConfig) :=
  match jcs with
  | [] => ret []
  | jc :: jcs => let! jc' := f jc in let! rest := mapConfigs f jcs in ret (jc' :: rest)
  end.
Definition refreshOne (jc : JailedConfig) : M sworld JailedConfig :=
  let! jc := wrapM "initializing conditions" (shouldInitializeConditions jc) in
  wrapM "setting conditions" (setConditions jc refreshing).
Definition writeOne (jc : JailedConfig) : M sworld JailedConfig :=
  let! got := attempt (do! may_fault; observe (λ l, getConfigMap l (jc_ConfigMap jc))) in
  match got with
  | inr e =>
      if IsNotFound e then
        wrapM "setting files written condition" (setConditions jc [(FilesWritten, ConditionFalse, ReasonNotFound)])
      else fail (ErrWrap "getting ConfigMap" e)
  | inl configMap =>
      let! payload := lift (payloadOf jc configMap) in
      do! replaceAll payload;
      wrapM "setting conditions" (setConditions jc filesWritten)
  end.
Definition hasFailedFilesWrittenCondition (jc : JailedConfig) : bool :=
  match jc_Conditions jc !! FilesWritten with Some (_, reason) => String.eqb reason ReasonNotFound | None => false end.
Definition completedCondition (needsReconfigure : bool) (jc : JailedConfig) : condition :=
  if needsReconfigure && hasFailedFilesWrittenCondition jc
  then (UpdateActionsCompleted, ConditionFalse, ReasonNotWritten)
  else (UpdateActionsCompleted, ConditionTrue, ReasonSuccess).
Definition setUpdateActionsCompletedForConfigs (jcs : list JailedConfig) (needsReconfigure : bool) : M sworld () :=
  let! _ := mapConfigs (λ jc, wrapM "setting update actions completed condition"
                                (setConditions jc [completedCondition needsReconfigure jc])) jcs in
  ret tt.
Definition needsReconfigure (jcs : list JailedConfig) : bool :=
  existsb (λ jc, existsb (String.eqb UpdateActionReconfigure) (jc_UpdateActions jc)) jcs.
Definition reconcileWithAggregation (aggregationKey : string) : M sworld () :=
  let! jcs := wrapM "listing JailedConfigs" (do! may_fault; observe (λ l, listAggregated l aggregationKey)) in
  let! jcs := mapConfigs refreshOne jcs in
  do! startBatch;
  withCleanup
    (let! jcs := mapConfigs writeOne jcs in
     do! wrapM "finishing replacing files in FS" (Finish);
     do! (if needsReconfigure jcs
          then wrapM "reconfiguring Slurm cluster for aggregated group" reconfigureCluster else ret tt);
     setUpdateActionsCompletedForConfigs jcs (needsReconfigure jcs)).
Definition JailedReconcile (got : outcome JailedConfig) : M sworld () :=
  match got with
  | Err e => if IsNotFound e then ret tt else fail (ErrWrap "getting JailedConfig" e)
  | Halt s => halt s
  | Ok jc =>
      match jc_AggregationKey jc with
      | None => reconcileIndividual jc
      | Some key => reconcileWithAggregation key
      end
  end.
End reconciler.

(** ** A batch is a transaction *)
Section batch.
  Context (createTemp : files → string → string).
  (** The directory entries of a batch: target, temporary name, old content. *)
  Context (targets : list string).
  (** [os.CreateTemp] creates a file that does not exist, with a name of its own. *)
  Context (Hfresh : ∀ fs p, fs !! createTemp fs p = None).
  Context (Hother : ∀ fs p, createTemp fs p ∉ targets).

Record entry := mkEntry { en_target : string; en_temp : string; en_old : file }.
Definition temps (es : list entry) : files := list_to_map ((λ e, (en_temp e, en_old e)) <$> es).
Definition pending_of (es : list entry) : list replacedFile := (λ e, mkReplaced (en_target e) (en_temp e)) <$> es.
(** The files while the batch is open. *)
Definition batch_fs (es : list entry) (base : files) : files := temps es ∪ base.
Record batch_ok (es : list entry) (base : files) : Prop := {
  bo_temps : NoDup (en_temp <$> es);
  bo_targets : NoDup (en_target <$> es);
  bo_base : ∀ e, e ∈ es → base !! en_temp e = None ∧ is_Some (base !! en_target e) ∧ en_target e ∈ targets;
  bo_other : ∀ e, e ∈ es → en_temp e ∉ targets
}.
Lemma temps_None es x : x ∉ en_temp <$> es → temps es !! x = None.
Proof.
  intros Hx. apply not_elem_of_list_to_map_1. rewrite <-list_fmap_compose. exact Hx.
Qed.
Lemma batch_base_lookup es base x : x ∉ en_temp <$> es → batch_fs es base !! x = base !! x.
Proof. intros Hx. unfold batch_fs. by rewrite lookup_union_r by by apply temps_None. Qed.
Lemma target_not_temp es base e e' : batch_ok es base → e ∈ es → e' ∈ es → en_target e ≠ en_temp e'.
Proof. intros Hb He He' Heq. apply (bo_other _ _ Hb e' He'). rewrite <-Heq. by apply (bo_base _ _ Hb e He). Qed.
Lemma batch_ok_tail e es base : batch_ok (e :: es) base → batch_ok es base.
Proof.
  intros [H1 H2 H3 H4]. apply NoDup_cons in H1 as [_ H1]. apply NoDup_cons in H2 as [_ H2].
  split; [done|done|intros e' He'; apply H3; by right|intros e' He'; apply H4; by right].
Qed.

Lemma Remove_quiet fs p l name f : fs !! name = Some f →
  Remove name (SWorld fs p [] l) = (SWorld (delete name fs) p [] (l ++ [Removed name]), Ok tt).
Proof. intros Hf. unfold Remove, bind, may_fault, gets. simpl. by rewrite Hf. Qed.
Lemma RenameExchange_quiet fs p l old new f g : fs !! old = Some f → fs !! new = Some g →
  RenameExchange true old new (SWorld fs p [] l) =
    (SWorld (<[new := f]> (<[old := g]> fs)) p [] (l ++ [Exchanged old new]), Ok tt).
Proof. intros Hf Hg. unfold RenameExchange, bind, may_fault, gets. simpl. by rewrite Hf, Hg. Qed.

(** What one replacement does to the batch. *)
Section replacement.
  Context (es : list entry) (base : files) (path temp : string) (content : file).
  Context (Hb : batch_ok es base) (Hpath : path ∈ targets) (Hnew : path ∉ en_target <$> es).
  Context (Htemp : temp ∉ en_temp <$> es) (Hbase : base !! temp = None) (Hothers : temp ∉ targets).
Let base' := <[path := content]> base.

Lemma path_not_temp : path ∉ en_temp <$> es.
Proof. intros (e & -> & He)%list_elem_of_fmap. by apply (bo_other _ _ Hb e He). Qed.
Lemma temp_ne_path : temp ≠ path.
Proof. intros Heq. apply Hothers. by rewrite Heq. Qed.
Lemma base_insert e : e ∈ es →
  base' !! en_temp e = None ∧ is_Some (base' !! en_target e) ∧ en_target e ∈ targets.
Proof.
  intros He. destruct (bo_base _ _ Hb e He) as (B1 & B2 & B3). unfold base'.
  rewrite lookup_insert_ne by (intros Heq; apply (bo_other _ _ Hb e He); by rewrite <-Heq).
  split_and!; [done| |done]. rewrite lookup_insert_ne; [done|]. intros ->. apply Hnew, list_elem_of_fmap. by exists e.
Qed.
Lemma batch_ok_insert : batch_ok es base'.
Proof. split; [apply Hb|apply Hb|apply base_insert|apply Hb]. Qed.
Lemma batch_ok_snoc old : batch_ok (es ++ [mkEntry path temp old]) base'.
Proof.
  split; rewrite ?fmap_app.
  - apply NoDup_app. split_and!; [apply Hb| |apply NoDup_singleton]. by intros x Hx ->%list_elem_of_singleton.
  - apply NoDup_app. split_and!; [apply Hb| |apply NoDup_singleton]. by intros x Hx ->%list_elem_of_singleton.
  - intros e [He| ->%list_elem_of_singleton]%elem_of_app; [by apply base_insert|]. simpl. unfold base'.
    rewrite lookup_insert_ne, lookup_insert_eq by (intros Heq; by apply temp_ne_path). by split_and!.
  - intros e [He| ->%list_elem_of_singleton]%elem_of_app; [by apply (bo_other _ _ Hb)|done].
Qed.
Lemma batch_fs_insert : <[path := content]> (batch_fs es base) = batch_fs es base'.
Proof.
  unfold batch_fs, base'. rewrite insert_union_r; [done|]. apply temps_None, path_not_temp.
Qed.
Lemma batch_fs_snoc old :
  <[path := content]> (<[temp := old]> (batch_fs es base)) = batch_fs (es ++ [mkEntry path temp old]) base'.
Proof.
  rewrite insert_insert_ne by (intros Heq; by apply temp_ne_path). rewrite batch_fs_insert.
  unfold batch_fs, temps. rewrite fmap_app, list_to_map_app. simpl.
  rewrite <-(map_union_assoc _ _ base'), <-insert_union_l, map_empty_union.
  apply insert_union_r, temps_None, Htemp.
Qed.
End replacement.

(** One replacement. *)
Lemma Replace_quiet es base path content l :
  batch_ok es base → path ∈ targets → path ∉ en_target <$> es →
  let es' := match base !! path with
             | Some old => es ++ [mkEntry path (createTemp (batch_fs es base) path) old]
             | None => es
             end in
  batch_ok es' (<[path := content]> base) ∧
  ∃ l', Replace true createTemp path content (SWorld (batch_fs es base) (pending_of es) [] l) =
      (SWorld (batch_fs es' (<[path := content]> base)) (pending_of es') [] l', Ok tt).
Proof.
  intros Hb Hpath Hnew. set (temp := createTemp (batch_fs es base) path).
  pose proof (Hfresh (batch_fs es base) path) as Hf. fold temp in Hf.
  pose proof (Hother (batch_fs es base) path) as Ho. fold temp in Ho.
  assert ((temp ∉ en_temp <$> es) ∧ base !! temp = None) as [Htemp Hbase].
  { unfold batch_fs in Hf. apply lookup_union_None in Hf as [H1 H2]. split; [|done].
    intros Hin. unfold temps in H1. apply not_elem_of_list_to_map_2 in H1. apply H1.
    rewrite <-list_fmap_compose. exact Hin. }
  assert (temp ≠ path) as Hne by by eapply temp_ne_path.
  assert (batch_fs es base !! path = base !! path) as Hlook by by eapply batch_base_lookup, path_not_temp.
  unfold Replace, MkdirAll, PrepareNewFile, fillFile, set_file, wrapM, bind, may_fault, attempt, gets. simpl. fold temp.
  rewrite !insert_insert_eq.
  unfold RenameExchange, bind, may_fault, gets. simpl. rewrite lookup_insert_eq, lookup_insert_ne, Hlook by done.
  destruct (base !! path) as [old|] eqn:Eb; simpl.
  - split; [by apply batch_ok_snoc|]. eexists. unfold set_pending. simpl. f_equal.
    rewrite insert_insert_eq, batch_fs_snoc by done. unfold pending_of. by rewrite fmap_app.
  - split; [by apply batch_ok_insert|]. unfold wrapM, RenameNoReplace, bind, may_fault, gets. simpl.
    rewrite lookup_insert_eq, lookup_insert_ne, Hlook by done. simpl. eexists. f_equal.
    rewrite delete_insert_id by exact Hf. by rewrite batch_fs_insert.
Qed.

Lemma replace_list es base ps l :
  batch_ok es base → NoDup ps.*1 → (∀ x, x ∈ ps.*1 → x ∈ targets ∧ (x ∉ en_target <$> es)) →
  ∃ es' l', forM ps (λ pf, wrapM "replacing file in FS" (Replace true createTemp pf.1 pf.2))
              (SWorld (batch_fs es base) (pending_of es) [] l) =
      (SWorld (batch_fs es' (list_to_map ps ∪ base)) (pending_of es') [] l', Ok tt) ∧
    batch_ok es' (list_to_map ps ∪ base) ∧
    (∀ e, e ∈ es' → e ∈ es ∨ (en_target e ∈ ps.*1 ∧ base !! en_target e = Some (en_old e))) ∧
    (∀ e, e ∈ es → e ∈ es') ∧
    (∀ x, x ∈ ps.*1 → is_Some (base !! x) → x ∈ en_target <$> es').
Proof.
  revert es base l. induction ps as [|[p f] ps IH]; intros es base l Hb Hnd Hps.
  { exists es, l. simpl. rewrite map_empty_union. split_and!; [done|done|by left|done|]. by intros x ?%not_elem_of_nil. }
  simpl in Hnd. apply NoDup_cons in Hnd as [Hp Hnd].
  destruct (Hps p ltac:(left)) as [Hpt Hpe].
  destruct (Replace_quiet es base p f l Hb Hpt Hpe) as (Hb1 & l1 & E1).
  set (es1 := match base !! p with Some old => _ | None => es end) in *.
  assert (∀ e, e ∈ es1 → e ∈ es ∨ (en_target e = p ∧ base !! p = Some (en_old e))) as Hes1.
  { unfold es1. destruct (base !! p) eqn:Eb; [|by left].
    intros e [?| ->%list_elem_of_singleton]%elem_of_app; [by left|by right]. }
  destruct (IH es1 (<[p := f]> base) l1 Hb1 Hnd) as (es' & l' & E & Hb' & H1 & H2 & H3).
  { intros x Hx. destruct (Hps x ltac:(by right)) as [Hxt Hxe]. split; [done|].
    intros (e & -> & He)%list_elem_of_fmap. destruct (Hes1 e He) as [?|[Heq _]]; [|apply Hp; by rewrite <-Heq].
    apply Hxe, list_elem_of_fmap. by exists e. }
  assert (list_to_map ps ∪ <[p := f]> base = list_to_map ((p, f) :: ps) ∪ base) as Hmap.
  { simpl. rewrite <-insert_union_r, insert_union_l; [done|]. by apply not_elem_of_list_to_map_1. }
  rewrite Hmap in *. exists es', l'. simpl. unfold bind, wrapM. rewrite E1. simpl. fold (wrapM (W:=sworld) (A:=())).
  split_and!; [exact E|done| | |].
  - intros e He. destruct (H1 e He) as [[?|[Ht Hold]]%Hes1|[Ht Hold]]; [by left|right|right].
    + rewrite Ht. split; [left|done].
    + split; [by right|]. rewrite lookup_insert_ne in Hold; [done|]. intros Heq. apply Hp. by rewrite Heq.
  - intros e He. apply H2. unfold es1. destruct (base !! p); [apply elem_of_app; by left|done].
  - intros x [->|Hx]%elem_of_cons Hs.
    + destruct Hs as [old Hold]. apply list_elem_of_fmap. unfold es1 in H2. rewrite Hold in H2.
      eexists. split; [|apply H2, elem_of_app; right; left]. done.
    + apply H3; [done|]. rewrite lookup_insert_ne; [done|]. by intros ->.
Qed.

(** Ending the batch. *)
Lemma remove_temps es base p l :
  batch_ok es base → ∃ l',
  eachFile (λ p, let! r := attempt (Remove (tempName p)) in
                 match r with
                 | inl _ => ret tt
                 | inr e => if bool_decide (e = ErrNotExist) then ret tt else fail e
                 end) (pending_of es) (SWorld (batch_fs es base) p [] l) = (SWorld base p [] l', Ok []).
Proof.
  revert l. induction es as [|e es IH]; intros l Hb.
  { exists l. unfold batch_fs, temps. simpl. by rewrite map_empty_union. }
  destruct (bo_base _ _ Hb e ltac:(left)) as (B1 & _).
  pose proof (bo_temps _ _ Hb) as Hnd. simpl in Hnd. apply NoDup_cons in Hnd as [Hne _].
  destruct (IH (l ++ [Removed (en_temp e)]) (batch_ok_tail e es base Hb)) as (l' & E). exists l'. simpl.
  unfold bind, attempt. rewrite (Remove_quiet _ _ _ _ (en_old e)) by (unfold batch_fs, temps; simpl; by rewrite <-insert_union_l, lookup_insert_eq).
  simpl. assert (delete (en_temp e) (batch_fs (e :: es) base) = batch_fs es base) as ->.
  { unfold batch_fs, temps. simpl. rewrite <-insert_union_l. apply delete_insert_id.
    apply lookup_union_None. split; [by apply temps_None|done]. }
  unfold bind, attempt in E. rewrite E. done.
Qed.
Lemma exchange_back es base p l :
  batch_ok es base → ∃ l',
  eachFile (λ p, do! RenameExchange true (tempName p) (targetName p); Remove (tempName p))
    (pending_of es) (SWorld (batch_fs es base) p [] l) =
  (SWorld (foldl (λ b e, <[en_target e := en_old e]> b) base es) p [] l', Ok []).
Proof.
  revert base l. induction es as [|e es IH]; intros base l Hb.
  { exists l. unfold batch_fs, temps. simpl. by rewrite map_empty_union. }
  destruct (bo_base _ _ Hb e ltac:(left)) as (B1 & [f B2] & B3).
  assert (en_target e ∉ en_temp <$> e :: es) as Hte.
  { intros (e' & He' & Hin)%list_elem_of_fmap. exact (target_not_temp (e :: es) base e e' Hb ltac:(left) Hin He'). }
  assert (en_target e ≠ en_temp e) as Hne1 by (intros Heq; apply Hte; rewrite Heq; left).
  pose proof (bo_temps _ _ Hb) as Hnd. simpl in Hnd. apply NoDup_cons in Hnd as [Hne _].
  assert (en_target e ∉ en_target <$> es) as Htt.
  { pose proof (bo_targets _ _ Hb) as Ht. simpl in Ht. by apply NoDup_cons in Ht as [? _]. }
  assert (batch_ok es (<[en_target e := en_old e]> base)) as Hb'.
  { eapply batch_ok_insert; [by eapply batch_ok_tail|done|done]. }
  destruct (IH (<[en_target e := en_old e]> base) ((l ++ [Exchanged (en_temp e) (en_target e)]) ++ [Removed (en_temp e)]) Hb') as (l' & E).
  exists l'. simpl. unfold bind at 1, attempt, bind at 1.
  rewrite (RenameExchange_quiet _ _ _ _ _ (en_old e) f).
  2: { unfold batch_fs, temps. simpl. by rewrite <-insert_union_l, lookup_insert_eq. }
  2: { by rewrite batch_base_lookup. }
  rewrite (Remove_quiet _ _ _ _ f) by (rewrite lookup_insert_ne by done; apply lookup_insert_eq). simpl.
  assert (delete (en_temp e) (<[en_target e:=en_old e]> (<[en_temp e:=f]> (batch_fs (e :: es) base))) =
    batch_fs es (<[en_target e := en_old e]> base)) as ->.
  { unfold batch_fs at 1, temps. simpl. rewrite <-insert_union_l, insert_insert_eq, insert_insert_ne by done.
    rewrite delete_insert_id.
    - eapply batch_fs_insert; [by eapply batch_ok_tail|done|done].
    - rewrite lookup_insert_ne by done. apply lookup_union_None. split; [by apply temps_None|done]. }
  unfold bind at 1. rewrite E. done.
Qed.
Lemma restored (old base : files) es x :
  (∀ e, e ∈ es → old !! en_target e = Some (en_old e)) →
  foldl (λ b e, <[en_target e := en_old e]> b) base es !! x =
    if decide (x ∈ en_target <$> es) then old !! x else base !! x.
Proof.
  revert base. induction es as [|e es IH]; intros base Hold; [done|]. simpl.
  rewrite IH by (intros; apply Hold; by right). specialize (Hold e ltac:(left)).
  destruct (decide (x ∈ en_target <$> es)) as [Hx|Hx].
  - by rewrite decide_True by by right.
  - destruct (decide (x = en_target e)) as [->|Hne].
    + by rewrite lookup_insert_eq, decide_True by left.
    + rewrite lookup_insert_ne, decide_False; [done| |done]. by intros [?|?]%elem_of_cons.
Qed.
Lemma batch_ok_nil base : batch_ok [] base.
Proof. split; try apply NoDup_nil_2; by intros e ?%not_elem_of_nil. Qed.
End batch.

Section transaction.
  Context (createTemp : files → string → string) (range : files → list (string * file)).
  Context (payload fs : files) (l : list scommand).
  Context (Hrange : ∀ m, range m ≡ₚ map_to_list m).
  Context (Hfresh : ∀ fs p, fs !! createTemp fs p = None).
  Context (Hother : ∀ fs p, payload !! createTemp fs p = None).
Let w := SWorld fs [] [] l.

Lemma open_batch : ∃ es l', replaceAll true createTemp range payload w =
    (SWorld (batch_fs es (payload ∪ fs)) (pending_of es) [] l', Ok tt) ∧
  batch_ok (range payload).*1 es (payload ∪ fs) ∧
  (∀ e, e ∈ es → fs !! en_target e = Some (en_old e)) ∧
  (∀ x, is_Some (payload !! x) → is_Some (fs !! x) → x ∈ en_target <$> es).
Proof.
  assert (∀ x, x ∈ (range payload).*1 ↔ is_Some (payload !! x)) as Hdom.
  { intros x. rewrite Hrange, list_elem_of_fmap. split.
    - intros ([k f] & -> & Hin%elem_of_map_to_list). by exists f.
    - intros [f Hf]. exists (x, f). split; [done|]. by apply elem_of_map_to_list. }
  destruct (replace_list createTemp (range payload).*1 Hfresh) with
    (es := @nil entry) (base := fs) (ps := range payload) (l := l) as (es & l' & E & Hb & H1 & _ & H3).
  - intros fs' p Hin%Hdom. rewrite Hother in Hin. by destruct Hin.
  - apply batch_ok_nil.
  - rewrite Hrange. apply NoDup_fst_map_to_list.
  - intros x Hx. split; [done|]. by intros ?%not_elem_of_nil.
  - assert (list_to_map (range payload) = payload) as Hmap.
    { rewrite <-(list_to_map_to_list payload) at 2. apply list_to_map_proper; [|apply Hrange].
      rewrite Hrange. apply NoDup_fst_map_to_list. }
    rewrite Hmap in E, Hb. exists es, l'. split_and!; [|done| |].
    + unfold replaceAll, w. rewrite <-E. f_equal. unfold batch_fs, temps, pending_of. simpl. by rewrite map_empty_union.
    + intros e He. destruct (H1 e He) as [?%not_elem_of_nil|[_ ?]]; done.
    + intros x Hx Hs. apply H3; [by apply Hdom|done].
Qed.

(** C23: A batch that is finished is committed: every file of the payload has its new content, every other file
    is untouched and no temporary file is left.  Assumed: one payload, starting with an empty batch; the file system can exchange two
    files (RENAME_EXCHANGE); no call fails; and the names of temporary files are those neither of files there are nor of the payload's. *)
Theorem batch_commit :
  ∃ l', (do! replaceAll true createTemp range payload; Finish) w = (SWorld (payload ∪ fs) [] [] l', Ok tt).
Proof.
  destruct open_batch as (es & l1 & E & Hb & _). rewrite (bind_ok _ _ _ _ _ E). unfold Finish.
  erewrite bind_ok by reflexivity. cbn [sw_pending].
  destruct es as [|e es]; [exists l1; unfold batch_fs, temps; simpl; by rewrite map_empty_union|].
  destruct (remove_temps (range payload).*1 (e :: es) (payload ∪ fs) (pending_of (e :: es)) (l1 ++ [Synced]) Hb)
    as (l' & Er).
  exists l'. change (match pending_of (e :: es) with [] => _ | _ => _ end) with (finishPending (pending_of (e :: es))).
  unfold finishPending. erewrite bind_ok by reflexivity. cbn beta iota. rewrite (bind_ok _ _ _ _ _ Er). done.
Qed.
(** C24: A batch that is given up is rolled back: every file that existed has its old content
    again and no temporary file is left; only files of the payload that did not exist before remain.  Assumed: one payload, starting with
    an empty batch, so that no path is replaced twice; the file system can exchange two files (RENAME_EXCHANGE); no call fails; and the
    names of temporary files are those neither of files there are nor of the payload's.  Otherwise the old content can be lost:
    where files cannot be exchanged, the renaming used instead overwrites it ([fallback_loses_content]), and a path that two payloads share gets the
    first of them back ([rollback_of_shared_path]). *)
Theorem batch_rollback :
  ∃ l', (do! replaceAll true createTemp range payload; Cleanup true) w = (SWorld (fs ∪ payload) [] [] l', Ok tt).
Proof.
  destruct open_batch as (es & l1 & E & Hb & Hold & Hin). rewrite (bind_ok _ _ _ _ _ E). unfold Cleanup. erewrite bind_ok by reflexivity. cbn [sw_pending].
  destruct (exchange_back (range payload).*1 es (payload ∪ fs) (pending_of es) l1 Hb) as (l' & Er).
  exists l'. rewrite (bind_ok _ _ _ _ _ Er).
  assert (foldl (λ (b : files) e, <[en_target e := en_old e]> b) (payload ∪ fs) es = fs ∪ payload) as Hfs;
    [|by rewrite Hfs].
  apply map_eq. intros x. rewrite (restored fs) by done. rewrite !lookup_union.
  destruct (decide (x ∈ en_target <$> es)) as [(e & -> & He)%list_elem_of_fmap|Hx].
  - rewrite (Hold e He). by destruct (payload !! en_target e).
  - destruct (fs !! x) eqn:Ef, (payload !! x) eqn:Ep; try done. destruct Hx. apply Hin; by eexists.
Qed.
End transaction.

(** A jail with one file; a payload that replaces it and adds another. *)
Fixpoint longest (names : list string) : nat :=
  match names with [] => 0%nat | n :: names => Nat.max (String.length n) (longest names) end.
(** A name longer than every name there is. *)
Definition longName (fs : files) (path : string) : string := String "~" (zeros (longest (map_to_list fs).*1)).
Definition jail : files := {["/etc/slurm/slurm.conf" := mkFile "old" 420]}.
Definition new_files : files :=
  {["/etc/slurm/slurm.conf" := mkFile "new" 420; "/etc/slurm/gres.conf" := mkFile "gres" 420]}.
Lemma longest_le names n : n ∈ names → (String.length n ≤ longest names)%nat.
Proof. induction 1 as [|? ? ? _ IH]; simpl; lia. Qed.
Lemma longName_fresh fs p : fs !! longName fs p = None.
Proof.
  destruct (fs !! longName fs p) as [f|] eqn:E; [|done].
  assert (longName fs p ∈ (map_to_list fs).*1) as Hin%longest_le.
  { apply list_elem_of_fmap. exists (longName fs p, f). split; [done|]. by apply elem_of_map_to_list. }
  unfold longName in Hin. cbn [String.length] in Hin. rewrite length_zeros in Hin. lia.
Qed.
Lemma longName_other fs p : new_files !! longName fs p = None.
Proof. unfold new_files, longName. by rewrite lookup_insert_ne, lookup_singleton_ne. Qed.
Lemma batch_commit_witness :
  ∃ l', (do! replaceAll true longName map_to_list new_files; Finish) (SWorld jail [] [] []) = (SWorld (new_files ∪ jail) [] [] l', Ok tt).
Proof. exact (batch_commit longName map_to_list new_files jail [] (λ m, reflexivity _) longName_fresh longName_other). Defined.
Lemma batch_rollback_witness :
  ∃ l', (do! replaceAll true longName map_to_list new_files; Cleanup true) (SWorld jail [] [] []) = (SWorld (jail ∪ new_files) [] [] l', Ok tt).
Proof. exact (batch_rollback longName map_to_list new_files jail [] (λ m, reflexivity _) longName_fresh longName_other). Defined.

(** A path that two aggregated configurations share is replaced twice; the roll-back goes
    through the batch from the front and ends with the content of the first replacement, not the
    original. *)
Definition content_of (fs : files) (path : string) : option string := f_Data <$> fs !! path.
Example rollback_of_shared_path :
  let w := (do! Replace true longName "/etc/slurm/slurm.conf" (mkFile "first" 420);
            do! Replace true longName "/etc/slurm/slurm.conf" (mkFile "second" 420);
            Cleanup true) (SWorld jail [] [] []) in
  content_of (sw_fs w.1) "/etc/slurm/slurm.conf" = Some "first".
Proof. vm_compute. reflexivity. Qed.
(** Where two files cannot be exchanged the new file is renamed over the old one; the roll-back has nothing to bring back. *)
Example fallback_loses_content :
  let w := (do! Replace false longName "/etc/slurm/slurm.conf" (mkFile "new" 420); Cleanup false) (SWorld jail [] [] []) in
  content_of (sw_fs w.1) "/etc/slurm/slurm.conf" = Some "new".
Proof. vm_compute. reflexivity. Qed.
(** When creating a new file fails, the temporary file stays and is in no batch. *)
Example temp_file_left :
  let w := (do! Replace true longName "/etc/slurm/gres.conf" (mkFile "gres" 420); ret tt)
             (SWorld jail [] [None; None; None; None; None; None; Some ErrExist] []) in
  (length (map_to_list (sw_fs w.1)), length (sw_pending w.1)) = (2%nat, 0%nat).
Proof. vm_compute. reflexivity. Qed.

(** ** Waiting for the restart *)
Definition restarted_or_gone (resp : http_response slurmBody) (name : string) (start : Z) : Prop :=
  ∃ after, getNodesStartTime resp = Ok after ∧
    (after !! name = None ∨ ∃ t, after !! name = Some t ∧ (start < t)%Z).
Lemma stillWaiting_lookup before after name start :
  before !! name = Some start →
  stillWaiting before after !! name = Some start ∨
  (after !! name = None ∨ ∃ t, after !! name = Some t ∧ (start < t)%Z).
Proof.
  intros Hb. destruct (after !! name) as [t|] eqn:Ea; [|by right; left].
  destruct (Z.leb_spec t start) as [Hle|Hlt]; [left|right; right; eauto].
  apply map_lookup_filter_Some. split; [done|]. simpl. rewrite Ea. by apply Z.leb_le.
Qed.

(** Waiting for a restart ends well only when it is over: if the poll returns without an
    error, then for every node that was active before the reconfigure some poll saw it with a
    later start time or no longer among the active nodes. *)
Theorem restart_awaited before polls name start :
  pollSlurmNodesRestart before polls = Ok tt → before !! name = Some start →
  ∃ resp, resp ∈ polls.*1 ∧ restarted_or_gone resp name start.
Proof.
  revert before. induction polls as [|[resp ctxDone] polls IH]; intros before; [done|]. simpl.
  destruct (getNodesStartTime resp) as [after|e|s] eqn:Er; simpl; [|done..]. intros Hp Hb.
  destruct (stillWaiting_lookup before after name start Hb) as [Hw|Hgone].
  - case_bool_decide as Hempty; [by rewrite Hempty in Hw|]. destruct ctxDone; [done|].
    destruct (IH _ Hp Hw) as (r & Hr & ?). exists r. split; [by right|done].
  - exists resp. split; [left|]. by exists after.
Qed.
Definition started (t : Z) : http_response slurmBody :=
  Http200 (Some (mkSlurmBody (Some []) [mkSlurmNode (Some "worker-0") (Some [IDLE]) (Some (NoVal (Some true) (Some false) (Some t)))])).
Lemma restart_awaited_witness :
  ∃ resp, resp ∈ [started 100; started 160] ∧ restarted_or_gone resp "worker-0" 100.
Proof.
  exact (restart_awaited {["worker-0" := 100%Z]} [(started 100, false); (started 160, false)] "worker-0" 100
    eq_refl eq_refl).
Defined.
(** A failure to list the nodes while waiting is taken for success. *)
Example poll_failure_ignored :
  (reconfigureCluster (λ _, started 100) (λ _, started 100) (λ _, [(HttpStatus 500, false)]) (SWorld ∅ [] [] [])).2 = Ok tt.
Proof. vm_compute. reflexivity. Qed.
(** The errors of a response are dereferenced without a check. *)
Example missing_errors_panic :
  getNodesStartTime (Http200 (Some (mkSlurmBody None []))) = Halt "nil pointer dereference".
Proof. reflexivity. Qed.

(** ** Nodes restart on synced files *)
Definition exchanged (c : scommand) : bool := match c with Exchanged _ _ => true | _ => false end.
Definition not_exchanged (c : scommand) : Prop := exchanged c = false.
(** Files replaced and not yet synced are in the batch. *)
Definition tracked (w : sworld) : Prop := sw_pending w = [] → Forall not_exchanged (sw_log w).
Definition files_synced (l : list scommand) : Prop := Forall not_exchanged l ∨ Synced ∈ l.
(** What must come before a command. *)
Definition in_order (name : string) (before : list scommand) (c : scommand) : Prop :=
  match c with
  | Reconfigured => ConditionSet name FilesWritten ConditionTrue ReasonSuccess ∈ before ∧ files_synced before
  | ConditionSet _ type status reason =>
      type = UpdateActionsCompleted → status = ConditionTrue → reason = ReasonSuccess → Reconfigured ∈ before
  | _ => True
  end.
Definition file_command (c : scommand) : Prop :=
  match c with Exchanged _ _ | Created _ | Removed _ | Synced => True | _ => False end.
Lemma file_command_ordered name l c : file_command c → in_order name l c.
Proof. by destruct c. Qed.
#[export] Hint Extern 1 (file_command _) => exact I : effects.

Lemma emits_may_fault (P : scommand → Prop) : emits P may_fault.
Proof.
  intros w. exists []. unfold may_fault. destruct (sw_faults w) as [|[e|] fs]; simpl; rewrite app_nil_r; split; done || constructor.
Qed.
Lemma emits_act (P : scommand → Prop) f c : P c → emits P (act f c).
Proof. intros Hc w. exists [c]. split; [done|]. by apply Forall_singleton. Qed.
Lemma emits_set_pending (P : scommand → Prop) p : emits P (set_pending p).
Proof. intros w. exists []. simpl. rewrite app_nil_r. split; [done|constructor]. Qed.
#[export] Hint Resolve emits_may_fault emits_act emits_set_pending : effects.
Lemma emits_os_Rename (P : scommand → Prop) old new c : P c → emits P (os_Rename old new c).
Proof. intros Hc. apply emits_bind; [auto with effects|]. intros fs. destruct (fs !! old); auto with effects. Qed.
Lemma emits_RenameExchange b old new : emits file_command (RenameExchange b old new).
Proof.
  apply emits_bind; [auto with effects|]. intros _. destruct b; [|by apply emits_os_Rename].
  apply emits_bind; [auto with effects|]. intros fs. destruct (fs !! old), (fs !! new); auto with effects.
Qed.
Lemma emits_RenameNoReplace (P : scommand → Prop) b old new : P (Created new) → emits P (RenameNoReplace b old new).
Proof.
  intros HP. apply emits_bind; [auto with effects|]. intros _. destruct b; [|by apply emits_os_Rename].
  apply emits_bind; [auto with effects|]. intros fs. destruct (fs !! old), (fs !! new); auto with effects.
Qed.
Lemma emits_Remove (P : scommand → Prop) name : P (Removed name) → emits P (Remove name).
Proof.
  intros HP. apply emits_bind; [auto with effects|]. intros _. apply emits_bind; [auto with effects|].
  intros fs. destruct (fs !! name); auto with effects.
Qed.
Lemma emits_set_file (P : scommand → Prop) name f : emits P (set_file name f).
Proof. intros w. exists []. simpl. rewrite app_nil_r. split; [done|constructor]. Qed.
#[export] Hint Resolve emits_set_file emits_wrapM : effects.
Lemma emits_fillFile (P : scommand → Prop) temp content : emits P (fillFile temp content).
Proof. unfold fillFile. repeat (apply emits_bind; [auto with effects|intros _]). auto with effects. Qed.
Lemma emits_PrepareNewFile (P : scommand → Prop) ct path content :
  (∀ name, P (Removed name)) → emits P (PrepareNewFile ct path content).
Proof.
  intros HP. apply emits_bind; [auto with effects|]. intros _. apply emits_bind; [auto with effects|]. intros fs.
  apply emits_bind; [auto with effects|]. intros _. apply emits_bind; [apply emits_attempt, emits_fillFile|].
  intros [_|e]; [auto with effects|]. apply emits_bind; [by apply emits_attempt, emits_Remove|auto with effects].
Qed.
Lemma emits_Replace b ct path content : emits file_command (Replace b ct path content).
Proof.
  apply emits_bind; [apply emits_wrapM, emits_may_fault|]. intros _.
  apply emits_bind; [by apply emits_wrapM, emits_PrepareNewFile|]. intros temp.
  apply emits_bind; [apply emits_attempt, emits_RenameExchange|]. intros [_|e].
  - apply emits_bind; auto with effects.
  - destruct (is_not_exist e); [by apply emits_wrapM, emits_RenameNoReplace|].
    apply emits_bind; [by apply emits_attempt, emits_Remove|auto with effects].
Qed.
Lemma emits_eachFile (P : scommand → Prop) f ps : (∀ p, emits P (f p)) → emits P (eachFile f ps).
Proof.
  intros Hf. induction ps as [|p ps IH]; simpl; [auto with effects|].
  apply emits_bind; [by apply emits_attempt|]. intros. apply emits_bind; [done|auto with effects].
Qed.
Lemma emits_joined (P : scommand → Prop) es : emits P (joined es).
Proof. unfold joined. destruct (errors_join es); auto with effects. Qed.
Lemma emits_Cleanup b : emits file_command (Cleanup b).
Proof.
  apply emits_bind; [auto with effects|]. intros ps.
  apply emits_bind; [apply emits_eachFile; intros; apply emits_bind; [apply emits_RenameExchange|intros; by apply emits_Remove]|].
  intros es. apply emits_bind; [auto with effects|]. intros. apply emits_joined.
Qed.

(** Steps that neither exchange files nor touch the batch. *)
Definition calm {A} (m : M sworld A) : Prop := emits not_exchanged m ∧ ∀ w, sw_pending (m w).1 = sw_pending w.
Definition tracks {A} (m : M sworld A) : Prop := ∀ w, tracked w → tracked (m w).1.
Lemma calm_bind {A B} (m : M sworld A) (k : A → M sworld B) : calm m → (∀ a, calm (k a)) → calm (bind m k).
Proof.
  intros [H1 H2] Hk. split; [apply emits_bind; [done|intros; apply Hk]|]. intros w. unfold bind.
  rewrite <-(H2 w). destruct (m w) as [w1 [a|e|s]]; simpl; [apply (Hk a)|done..].
Qed.
Lemma calm_same {A} (m : M sworld A) : emits not_exchanged m → (∀ w, sw_pending (m w).1 = sw_pending w) → calm m.
Proof. by split. Qed.
Lemma calm_may_fault : calm may_fault.
Proof. split; [apply emits_may_fault|]. intros w. unfold may_fault. by destruct (sw_faults w). Qed.
Lemma calm_gets {A} (f : sworld → A) : calm (gets f).
Proof. split; [auto with effects|done]. Qed.
Lemma calm_ret {A} (a : A) : calm (ret a).
Proof. split; [auto with effects|done]. Qed.
Lemma calm_fail {A} e : calm (fail (A:=A) e).
Proof. split; [auto with effects|done]. Qed.
Lemma calm_act f c : not_exchanged c → calm (act f c).
Proof. split; [by apply emits_act|done]. Qed.
Lemma calm_wrapM {A} msg (m : M sworld A) : calm m → calm (wrapM msg m).
Proof. intros [H1 H2]. split; [by apply emits_wrapM|]. intros w. rewrite <-(H2 w). unfold wrapM. by destruct (m w). Qed.
Lemma calm_attempt {A} (m : M sworld A) : calm m → calm (attempt m).
Proof.
  intros [H1 H2]. split; [by apply emits_attempt|]. intros w. rewrite <-(H2 w). unfold attempt.
  by destruct (m w) as [? []].
Qed.
Create HintDb calm.
#[export] Hint Resolve calm_bind calm_may_fault calm_gets calm_ret calm_fail calm_act calm_wrapM calm_attempt : calm.
Lemma calm_tracks {A} (m : M sworld A) : calm m → tracks m.
Proof.
  intros [H1 H2] w Hw Hp. rewrite H2 in Hp. destruct (H1 w) as (l & Hl & Hf).
  unfold log_of, sw_logged in Hl. rewrite Hl. apply Forall_app. split; [by apply Hw|done].
Qed.
Lemma tracks_bind {A B} (m : M sworld A) (k : A → M sworld B) : tracks m → (∀ a, tracks (k a)) → tracks (bind m k).
Proof.
  intros Hm Hk w Hw. unfold bind. specialize (Hm w Hw). destruct (m w) as [w1 [a|e|s]]; simpl in *; [by apply Hk|done..].
Qed.
Lemma calm_os_Rename old new c : not_exchanged c → calm (os_Rename old new c).
Proof. intros Hc. apply calm_bind; [auto with calm|]. intros fs. destruct (fs !! old); auto with calm. Qed.
Lemma calm_RenameNoReplace b old new : calm (RenameNoReplace b old new).
Proof.
  apply calm_bind; [auto with calm|]. intros _. destruct b; [|by apply calm_os_Rename].
  apply calm_bind; [auto with calm|]. intros fs. destruct (fs !! old), (fs !! new); auto with calm. by apply calm_act.
Qed.
Lemma calm_Remove name : calm (Remove name).
Proof.
  apply calm_bind; [auto with calm|]. intros _. apply calm_bind; [auto with calm|].
  intros fs. destruct (fs !! name); auto with calm. by apply calm_act.
Qed.
Lemma calm_set_file name f : calm (set_file name f).
Proof. split; [apply emits_set_file|done]. Qed.
Lemma calm_fillFile temp content : calm (fillFile temp content).
Proof.
  unfold fillFile. repeat (apply calm_bind; [first [apply calm_set_file|auto with calm]|intros _]). apply calm_set_file.
Qed.
Lemma calm_PrepareNewFile ct path content : calm (PrepareNewFile ct path content).
Proof.
  apply calm_bind; [auto with calm|]. intros _. apply calm_bind; [auto with calm|]. intros fs.
  apply calm_bind; [apply calm_set_file|]. intros _. apply calm_bind; [apply calm_attempt, calm_fillFile|].
  intros [_|e]; [auto with calm|]. apply calm_bind; [apply calm_attempt, calm_Remove|auto with calm].
Qed.
(** An exchange that fails has changed nothing. *)
Lemma exchange_cases b old new w :
  (RenameExchange b old new w).2 = Ok tt ∨
  ((∃ e, (RenameExchange b old new w).2 = Err e) ∧ sw_log (RenameExchange b old new w).1 = sw_log w ∧
   sw_pending (RenameExchange b old new w).1 = sw_pending w).
Proof.
  unfold RenameExchange, bind, may_fault, gets, os_Rename. destruct (sw_faults w) as [|[e|] fs]; simpl;
    [|right; split_and!; eauto|]; destruct b; simpl.
  - destruct (sw_fs w !! old), (sw_fs w !! new); simpl; auto; right; split_and!; eauto.
  - unfold bind. simpl. destruct (sw_fs w !! old); simpl; auto. right. split_and!; eauto.
  - destruct (sw_fs w !! old), (sw_fs w !! new); simpl; auto; right; split_and!; eauto.
  - unfold bind. simpl. destruct (sw_fs w !! old); simpl; auto. right. split_and!; eauto.
Qed.
Lemma tracks_Replace b ct path content : tracks (Replace b ct path content).
Proof.
  apply tracks_bind; [apply calm_tracks; auto with calm|]. intros _.
  apply tracks_bind; [apply calm_tracks, calm_wrapM, calm_PrepareNewFile|]. intros temp w Hw.
  unfold bind at 1, attempt. destruct (exchange_cases b temp path w) as [Hok|[[e He] [Hl Hp]]];
    destruct (RenameExchange b temp path w) as [w1 r]; simpl in *; subst r.
  - unfold bind, gets, set_pending. simpl. intros Hp. by destruct (sw_pending w1).
  - assert (tracked w1) as Hw1 by (unfold tracked; by rewrite Hl, Hp).
    assert (calm (if is_not_exist e then wrapM "rename temp to target file" (RenameNoReplace b temp path)
       else let! removed := attempt (Remove temp) in
            fail (match removed with inl _ => ErrWrap "switch temp and target files" e
                  | inr e' => ErrJoin (ErrWrap "switch temp and target files" e) e' end))) as Hc.
    { destruct (is_not_exist e); [apply calm_wrapM, calm_RenameNoReplace|].
      apply calm_bind; [apply calm_attempt, calm_Remove|auto with calm]. }
    apply (calm_tracks _ Hc w1 Hw1).
Qed.
Lemma tracks_replaceAll b ct range payload : tracks (replaceAll b ct range payload).
Proof.
  unfold replaceAll. induction (range payload) as [|pf ps IH]; [by intros w|]. simpl.
  apply tracks_bind; [|by intros _]. intros w Hw. unfold wrapM.
  pose proof (tracks_Replace b ct pf.1 pf.2 w Hw). by destruct (Replace b ct pf.1 pf.2 w).
Qed.
(** After [Finish] the files are synced. *)
Lemma Finish_synced w : tracked w → (Finish w).2 = Ok tt → files_synced (sw_log (Finish w).1).
Proof.
  intros Hw. unfold Finish. rewrite (bind_ok _ _ w w (sw_pending w)) by done.
  destruct (sw_pending w) as [|p ps] eqn:Ep; [by left; apply Hw|]. unfold finishPending.
  assert (match SyncCaches w with (w1, Ok _) => Synced ∈ sw_log w1 | (w1, Err e) => True | _ => False end) as Hs.
  { unfold SyncCaches, bind, may_fault, act. destruct (sw_faults w) as [|[e|] fs]; simpl; [|done|];
      apply elem_of_app; right; left. }
  destruct (SyncCaches w) as [w1 [[]|e|s]] eqn:Es; [| |done].
  - assert (attempt SyncCaches w = (w1, Ok (inl tt))) as Ea by (unfold attempt; by rewrite Es).
    rewrite (bind_ok _ _ _ _ _ Ea). intros _. right. cbn beta iota.
    match goal with |- Synced ∈ sw_log (?m w1).1 => assert (emits (λ _, True) m) as He end.
    { apply emits_bind; [|intros; apply emits_bind; [auto with effects|intros; apply emits_joined]].
      apply emits_eachFile. intros q. apply emits_bind; [by apply emits_attempt, emits_Remove|].
      intros [_|e]; [auto with effects|case_bool_decide; auto with effects]. }
    destruct (He w1) as (l & Hl & _). unfold log_of, sw_logged in Hl. rewrite Hl. apply elem_of_app. by left.
  - assert (attempt SyncCaches w = (w1, Ok (inr e))) as Ea by (unfold attempt; by rewrite Es).
    rewrite (bind_ok _ _ _ _ _ Ea). done.
Qed.

Lemma emits_Finish : emits file_command Finish.
Proof.
  apply emits_bind; [auto with effects|]. intros [|p ps]; [auto with effects|].
  apply emits_bind; [apply emits_attempt, emits_bind; [auto with effects|]; intros; by apply emits_act|].
  intros [_|e]; apply emits_bind; auto with effects.
  - apply emits_eachFile. intros q. apply emits_bind; [by apply emits_attempt, emits_Remove|].
    intros [_|e]; [auto with effects|case_bool_decide; auto with effects].
  - intros. apply emits_bind; [auto with effects|]. intros. apply emits_joined.
Qed.

Section ordered.
  Context (canExchange : bool) (createTemp : files → string → string) (clusterName : string).
  Context (range : files → list (string * file)).
  Context (getConfigMap : list scommand → string → outcome ConfigMap).
  Context (nodesBefore : list scommand → http_response slurmBody).
  Context (reconfigureResponse : list scommand → http_response slurmBody).
  Context (nodePolls : list scommand → list (http_response slurmBody * bool)).
  Context (name : string).
Let G := in_order name.

Definition ready (l : list scommand) : Prop :=
  ConditionSet name FilesWritten ConditionTrue ReasonSuccess ∈ l ∧ files_synced l.
Lemma ready_app l l' : ready l → Forall not_exchanged l' → ready (l ++ l').
Proof.
  intros [H1 [H2|H2]] H3; (split; [apply elem_of_app; by left|]).
  - left. by apply Forall_app.
  - right. apply elem_of_app. by left.
Qed.
Lemma ordered_step {A} (m : M sworld A) w :
  guarded G [] (sw_log w) → guards G m → guarded G [] (sw_log (m w).1).
Proof.
  intros Hw Hm. destruct (Hm (sw_log w) w eq_refl) as (l & Hl & Hg). unfold log_of, sw_logged in Hl. rewrite Hl.
  by apply guarded_app.
Qed.
Lemma emits_observe {A} (P : scommand → Prop) (f : list scommand → outcome A) : emits P (observe f).
Proof. intros w. exists []. simpl. rewrite app_nil_r. split; [done|constructor]. Qed.
Lemma emits_setConditions (P : scommand → Prop) jc cs :
  (∀ c, c ∈ cs → P (ConditionSet (jc_Name jc) c.1.1 c.1.2 c.2)) → emits P (setConditions jc cs).
Proof.
  intros HP. apply emits_bind; [apply emits_wrapM, emits_may_fault|]. intros _.
  apply emits_bind; [|auto with effects]. apply emits_forM. intros c Hc. apply emits_act. by apply HP.
Qed.
(** A condition that announces nothing. *)
Definition harmless (c : scommand) : Prop := not_exchanged c ∧ ∀ l, in_order name l c.
Ltac harmless := split; [reflexivity|intros ? H1 H2 H3; first [discriminate H1|discriminate H2|discriminate H3]].
Lemma guards_harmless {A} (m : M sworld A) : emits harmless m → guards G m.
Proof. apply guards_of. intros l c [_ H]. apply H. Qed.
Lemma emits_init jc : emits harmless (shouldInitializeConditions jc).
Proof.
  unfold shouldInitializeConditions. apply emits_bind; [|auto with effects].
  case_bool_decide; [|auto with effects]. apply emits_wrapM, emits_setConditions.
  intros c Hc. elem_cases Hc; subst c; harmless.
Qed.
Lemma emits_refreshing jc : emits harmless (setConditions jc refreshing).
Proof. apply emits_setConditions. intros c Hc. elem_cases Hc; subst c; harmless. Qed.
Lemma reconfigure_at l0 :
  traces_at l0 (reconfigureCluster nodesBefore reconfigureResponse nodePolls)
    (λ l r, (l = [] ∧ r ≠ Ok tt) ∨ l = [Reconfigured]).
Proof.
  assert (∀ A (f : list scommand → outcome A) l, traces_at l (observe f) (λ l' _, l' = [])) as Hobs.
  { intros A f l w Hw. exists []. split; [by rewrite app_nil_r|done]. }
  eapply traces_at_bind; [apply Hobs|..]; simpl; [|by intros ? ? ->; left..].
  intros before l1 ->. rewrite app_nil_r. eapply traces_at_bind; [apply Hobs|..]; simpl; [|by intros ? ? ->; left..].
  intros ns l1 ->. rewrite app_nil_r.
  eapply traces_at_bind with (Q1 := λ l _, l = [Reconfigured]); simpl.
  - apply traces_at_of. intros w. by exists [Reconfigured].
  - intros _ l1 ->. eapply traces_at_bind with (Q1 := λ l _, l = []); simpl.
    + apply traces_at_attempt. eapply traces_at_weaken; [apply Hobs|]. by intros l [].
    + intros [u|e] l ->; simpl; apply traces_at_of; [by apply traces_ret; right|].
      destruct (is_deadline e); [apply traces_fail|apply traces_ret]; by right.
    + intros ? ? ->. by right.
    + intros ? ? ->. by right.
  - intros ? ? ->. by right.
  - intros ? ? ->. by right.
Qed.
(** The actions, once the files are written and synced. *)
Lemma runAction_at l0 jc action : jc_Name jc = name → ready l0 →
  traces_at l0 (runAction nodesBefore reconfigureResponse nodePolls jc action)
    (λ l r, guarded G l0 l ∧ Forall not_exchanged l ∧ ∀ jc', r = Ok jc' → jc_Name jc' = name).
Proof.
  intros Hn Hr. unfold runAction. destruct (String.eqb action UpdateActionReconfigure).
  2: { apply traces_at_of, traces_ret. split_and!; [apply guarded_nil|constructor|by intros ? [= <-]]. }
  eapply traces_at_bind with (Q1 := λ l r, (l = [] ∧ r ≠ Ok tt) ∨ l = [Reconfigured]).
  - apply traces_at_wrapM. eapply traces_at_weaken; [apply reconfigure_at|]. simpl. intros l r [[-> Hr']| ->]; [left|by right].
    split; [done|]. by destruct r.
  - intros [] l [[_ ?]| ->]; [done|]. apply traces_at_of, traces_wrapM.
    eapply traces_bind with (Q1 := λ l r, l = []).
    + apply traces_wrapM. intros w. exists []. split; [|done]. rewrite app_nil_r. unfold may_fault.
      by destruct (sw_faults w) as [|[e|] fs].
    + intros _ l ->. eapply traces_bind with (Q1 := λ l r, l = [ConditionSet (jc_Name jc) UpdateActionsCompleted ConditionTrue ReasonSuccess] ∧ r = Ok tt).
      * intros w. eexists [_]. split_and!; reflexivity.
      * intros _ l [-> _]. apply traces_ret. rewrite app_nil_r. split_and!; [|by repeat constructor|by intros ? [= <-]].
        change [Reconfigured; ?x] with ([Reconfigured] ++ [x]). apply guarded_app.
        -- apply guarded_singleton. exact Hr.
        -- apply guarded_singleton. intros _ _ _. apply elem_of_app. right. left.
      * by intros e l [_ ?].
      * by intros e l [_ ?].
    + intros e l ->. rewrite app_nil_r. split_and!; [by apply guarded_singleton|by repeat constructor|done].
    + intros e l ->. rewrite app_nil_r. split_and!; [by apply guarded_singleton|by repeat constructor|done].
  - intros e l [[-> _]| ->]; (split_and!; [|by repeat constructor|done]); [apply guarded_nil|by apply guarded_singleton].
  - intros e l [[-> _]| ->]; (split_and!; [|by repeat constructor|done]); [apply guarded_nil|by apply guarded_singleton].
Qed.
Lemma actions_at l0 jc actions : jc_Name jc = name → ready l0 →
  traces_at l0 (foldM (runAction nodesBefore reconfigureResponse nodePolls) jc actions) (λ l _, guarded G l0 l).
Proof.
  revert l0 jc. induction actions as [|a actions IH]; intros l0 jc Hn Hr; simpl; [apply traces_at_of, traces_ret, guarded_nil|].
  eapply traces_at_bind; [by apply runAction_at|..]; simpl; [|by intros ? ? [? _]..].
  intros jc' l1 (H1 & H2 & H3). eapply traces_at_weaken; [apply IH; [by apply H3|by apply ready_app]|].
  simpl. intros l _ Hl. by apply guarded_app.
Qed.
Lemma setConditions_name jc cs w w' jc' : setConditions jc cs w = (w', Ok jc') → jc_Name jc' = jc_Name jc.
Proof.
  unfold setConditions, bind, wrapM, may_fault, ret. destruct (sw_faults w) as [|[e|] fs]; simpl; try done;
    destruct (forM _ _ _) as [w1 [[]|e|s]]; simpl; try done; by intros [= _ <-].
Qed.
(** What follows [Finish]. *)
Lemma after_finish_at l0 jc : jc_Name jc = name → ready l0 →
  traces_at l0 (let! jc := (if bool_decide (jc_UpdateActions jc = [])
                  then wrapM "setting conditions" (setConditions jc (actionsDone ReasonMissingAction)) else ret jc) in
                let! _ := foldM (runAction nodesBefore reconfigureResponse nodePolls) jc (jc_UpdateActions jc) in
                ret tt) (λ l _, guarded G l0 l).
Proof.
  intros Hn Hr.
  eapply traces_at_bind with (Q1 := λ l r, guarded G l0 l ∧ Forall not_exchanged l ∧ ∀ jc', r = Ok jc' → jc_Name jc' = name).
  - case_bool_decide; [|apply traces_at_of, traces_ret; split_and!; [apply guarded_nil|constructor|by intros ? [= <-]]].
    apply traces_at_wrapM. intros w Hw.
    assert (emits harmless (setConditions jc (actionsDone ReasonMissingAction))) as He.
    { apply emits_setConditions. intros c Hc. elem_cases Hc; subst c; harmless. }
    destruct (He w) as (l & Hl & Hh). exists l. rewrite <-Hw. split; [done|].
    split_and!; [apply guarded_all; intros l1 c Hc; rewrite Forall_forall in Hh; apply (Hh c Hc)|
      eapply Forall_impl; [exact Hh|by intros ? [? _]]|].
    intros jc' Hjc. destruct (setConditions jc (actionsDone ReasonMissingAction) w) as [w' r] eqn:Es.
    destruct r as [jc0| |]; simpl in Hjc; simplify_eq. apply setConditions_name in Es. congruence.
  - intros jc' l1 (H1 & H2 & H3). specialize (H3 jc' eq_refl).
    eapply traces_at_weaken with (Q1 := λ l _, guarded G (l0 ++ l1) l).
    + eapply traces_at_bind; [apply actions_at; [done|by apply ready_app]|..]; simpl; [|done..].
      intros _ l2 Hl2. apply traces_at_of, traces_ret. by rewrite app_nil_r.
    + simpl. intros. by apply guarded_app.
  - by intros e l [? _].
  - by intros e l [? _].
Qed.
Lemma writeAndAct_ordered jc payload w :
  jc_Name jc = name → guarded G [] (sw_log w) → Forall not_exchanged (sw_log w) → sw_pending w = [] →
  guarded G [] (sw_log (writeAndAct canExchange createTemp range nodesBefore reconfigureResponse nodePolls jc payload w).1).
Proof.
  intros Hn Hg Hne Hp. unfold writeAndAct.
  assert (emits file_command (replaceAll canExchange createTemp range payload)) as He1.
  { apply emits_forM. intros. apply emits_wrapM, emits_Replace. }
  assert (∀ A (m : M sworld A), emits file_command m → guards G m) as Hfc.
  { intros A m. apply guards_of. intros l c. apply file_command_ordered. }
  pose proof (ordered_step _ w Hg (Hfc _ _ He1)) as Hg1.
  pose proof (tracks_replaceAll canExchange createTemp range payload w (λ _, Hne)) as Ht1.
  unfold bind at 1. destruct (replaceAll canExchange createTemp range payload w) as [w1 [[]|e|s]]; [|done..]. simpl in Hg1, Ht1.
  assert (calm (setConditions jc filesWritten)) as Hc2.
  { apply calm_bind; [auto with calm|]. intros _. apply calm_bind; [|auto with calm]. simpl.
    apply calm_bind; [by apply calm_act|auto with calm]. }
  pose proof (calm_tracks _ Hc2 w1 Ht1) as Ht2.
  assert (guards G (setConditions jc filesWritten)) as Hh2.
  { apply guards_harmless, emits_setConditions. intros c Hc. elem_cases Hc; subst c; harmless. }
  pose proof (ordered_step _ w1 Hg1 Hh2) as Hg2.
  assert (∀ jc', (setConditions jc filesWritten w1).2 = Ok jc' →
    ConditionSet name FilesWritten ConditionTrue ReasonSuccess ∈ sw_log (setConditions jc filesWritten w1).1) as Hset.
  { intros jc'. rewrite <-Hn. unfold setConditions, bind, wrapM, may_fault.
    destruct (sw_faults w1) as [|[e|] fs]; simpl; [|done|]; intros _; apply elem_of_app; right; left. }
  unfold bind at 1, wrapM at 1. destruct (setConditions jc filesWritten w1) as [w2 [jc2|e|s]] eqn:Es; [|done..].
  simpl in Hg2, Ht2, Hset |- *. specialize (Hset jc2 eq_refl).
  pose proof emits_Finish as He3.
  pose proof (ordered_step _ w2 Hg2 (Hfc _ _ He3)) as Hg3. pose proof (Finish_synced w2 Ht2) as Hsync.
  destruct (He3 w2) as (l3 & Hl3 & _). unfold log_of, sw_logged in Hl3.
  unfold bind at 1, wrapM at 1. destruct (Finish w2) as [w3 [[]|e|s]]; [|done..]. simpl in *.
  assert (ready (sw_log w3)) as Hready.
  { split; [rewrite Hl3; apply elem_of_app; by left|by apply Hsync]. }
  apply setConditions_name in Es. rewrite Hn in Es.
  destruct (after_finish_at (sw_log w3) jc2 Es Hready w3 eq_refl) as (l & Hl & Hgl).
  unfold log_of, sw_logged in Hl. rewrite Hl. by apply guarded_app.
Qed.
Lemma init_name jc w w' jc' : shouldInitializeConditions jc w = (w', Ok jc') → jc_Name jc' = jc_Name jc.
Proof.
  unfold shouldInitializeConditions, bind, ret. case_bool_decide; [|by intros [= _ <-]].
  unfold wrapM. destruct (setConditions jc _ w) as [w1 [jc1|e|s]] eqn:Es; simpl; try done.
  intros [= _ <-]. by apply setConditions_name in Es.
Qed.
Lemma wrapM_Ok_inv {A} msg (m : M sworld A) w w' a : wrapM msg m w = (w', Ok a) → m w = (w', Ok a).
Proof. unfold wrapM. by destruct (m w) as [w1 [b|e|s]]. Qed.
Lemma harmless_step {A} (m : M sworld A) w : emits harmless m →
  guarded G [] (sw_log w) ∧ Forall not_exchanged (sw_log w) →
  guarded G [] (sw_log (m w).1) ∧ Forall not_exchanged (sw_log (m w).1).
Proof.
  intros Hm [H1 H2]. split; [by apply ordered_step; [|apply guards_harmless]|].
  destruct (Hm w) as (l & Hl & Hh). unfold log_of, sw_logged in Hl. rewrite Hl. apply Forall_app. split; [done|].
  eapply Forall_impl; [exact Hh|by intros ? [? _]].
Qed.
Lemma individual_ordered jc w :
  jc_Name jc = name → sw_log w = [] →
  guarded G [] (sw_log (reconcileIndividual canExchange createTemp clusterName range getConfigMap nodesBefore
                          reconfigureResponse nodePolls jc w).1).
Proof.
  intros Hn Hw. unfold reconcileIndividual. destruct (negb _); [simpl; rewrite Hw; apply guarded_nil|].
  assert (guarded G [] (sw_log w) ∧ Forall not_exchanged (sw_log w)) as H0.
  { rewrite Hw. split; [apply guarded_nil|constructor]. }
  pose proof (harmless_step _ w (emits_wrapM _ "initializing conditions" _ (emits_init jc)) H0) as H1.
  unfold bind at 1. destruct (wrapM _ (shouldInitializeConditions jc) w) as [w1 [jc1|e|s]] eqn:E1; [|by apply H1..].
  apply wrapM_Ok_inv, init_name in E1. simpl in H1.
  assert (emits harmless (attempt (do! may_fault; observe (λ l, getConfigMap l (jc_ConfigMap jc1))))) as Hget.
  { apply emits_attempt, emits_bind; [auto with effects|]. intros. apply emits_observe. }
  pose proof (harmless_step _ w1 Hget H1) as H2.
  unfold bind at 1. destruct (attempt _ w1) as [w2 [[cm|e]|e|s]]; [| |by apply H2..]; simpl in H2.
  2: { destruct (IsNotFound e); apply H2. }
  pose proof (harmless_step _ w2 (emits_wrapM _ "setting conditions" _ (emits_refreshing jc1)) H2) as H3.
  unfold bind at 1. destruct (wrapM _ (setConditions jc1 refreshing) w2) as [w3 [jc3|e|s]] eqn:E3; [|by apply H3..].
  apply wrapM_Ok_inv, setConditions_name in E3. simpl in H3.
  unfold bind at 1, lift. destruct (payloadOf range jc3 cm) as [payload|e|s]; [|by apply H3..].
  unfold bind at 1, startBatch, set_pending. unfold withCleanup.
  set (w4 := SWorld (sw_fs w3) [] (sw_faults w3) (sw_log w3)).
  pose proof (writeAndAct_ordered jc3 payload w4 ltac:(congruence) (proj1 H3) (proj2 H3) eq_refl) as H4.
  destruct (writeAndAct _ _ _ _ _ _ jc3 payload w4) as [w5 r]. simpl in H4.
  assert (guarded G [] (sw_log (Cleanup canExchange w5).1)) as H5.
  { apply ordered_step; [done|]. eapply guards_of; [|apply emits_Cleanup]. intros. by apply file_command_ordered. }
  by destruct (Cleanup canExchange w5) as [w6 []].
Qed.
End ordered.

(** C7: Reconfiguring waits for the files.  Whatever fails and whatever Slurm and the API
    server answer, a pass over one configuration asks Slurm to reconfigure only after it has reported the files
    written and, if any existing file was replaced, after the directory caches were
    synced; and it reports the update actions as successfully completed only after Slurm has accepted the
    reconfiguration. *)
Theorem reconfigure_in_order canExchange createTemp clusterName range getConfigMap nodesBefore reconfigureResponse nodePolls
    jc w l1 c l2 :
  sw_log w = [] →
  sw_log (reconcileIndividual canExchange createTemp clusterName range getConfigMap nodesBefore reconfigureResponse nodePolls jc w).1
    = l1 ++ c :: l2 →
  in_order (jc_Name jc) l1 c.
Proof.
  intros Hw Hl. apply (individual_ordered canExchange createTemp clusterName range getConfigMap nodesBefore
    reconfigureResponse nodePolls (jc_Name jc) jc w eq_refl Hw l1 c l2 Hl).
Qed.
Definition slurm_conf : JailedConfig :=
  mkJailedConfig "conf" "cluster" None "cm" [] None [UpdateActionReconfigure] ∅.
Definition conf_map : ConfigMap := mkConfigMap {["/etc/slurm/slurm.conf" := "new"]} ∅.
Definition conf_pass : sworld * outcome () :=
  reconcileIndividual true longName "cluster" map_to_list (λ _ _, Ok conf_map) (λ _, started 100) (λ _, started 100)
    (λ _, [(started 160, false)]) slurm_conf (SWorld jail [] [] []).
Lemma reconfigure_in_order_witness :
  in_order "conf" (take 8 (sw_log conf_pass.1)) Reconfigured.
Proof.
  apply (reconfigure_in_order true longName "cluster" map_to_list (λ _ _, Ok conf_map) (λ _, started 100) (λ _, started 100)
    (λ _, [(started 160, false)]) slurm_conf (SWorld jail [] [] []) (take 8 (sw_log conf_pass.1)) Reconfigured
    (drop 9 (sw_log conf_pass.1))); [reflexivity|]. vm_compute. reflexivity.
Defined.
