(* ===== verification/JailFs.v ===== *)
(** * The jail file system

    [internal/controller/sconfigcontroller/fs.go] and [fs_linux.go]: the operations by which the configuration controller writes
    into the jail, a directory tree that the users of the cluster write too.  Every path is checked and prefixed before a system
    call gets it.  The model has the tree of the machine with its symbolic links, the way the kernel resolves a path, and other
    processes that change the tree between any two system calls; the theorem says that nothing outside of the jail changes. *)
From S2P Require Import Prelude GoStrings GoPaths.
From Stdlib Require Import Ascii.

(** ** The tree and the kernel *)
Inductive node := Directory | Regular (data : string) (mode : Z) | Symlink (target : string).
Global Instance node_eq_dec : EqDecision node.
Proof. solve_decision. Defined.
(** The segments of an absolute path; the root is not in the map. *)
Abbreviation loc := (list string).
Abbreviation tree := (@gmap loc (@list_eq_dec string String.eq_dec) (@list_countable string String.eq_dec String.countable) node).
Definition node_at (t : tree) (l : loc) : option node := match l with [] => Some Directory | _ => t !! l end.
Definition ErrNotExist : gerror := ErrMsg "no such file or directory".
Definition ErrExist : gerror := ErrMsg "file exists".
Definition ErrNotDir : gerror := ErrMsg "not a directory".
Definition ErrNotEmpty : gerror := ErrMsg "directory not empty".
Definition ErrLoop : gerror := ErrMsg "too many levels of symbolic links".
Definition ErrInvalid : gerror := ErrMsg "invalid argument".
Definition up (l : loc) : loc := take (pred (length l)) l.
(** The location of the path [todo] seen from [cur]; the last segment may be missing.  [links] symbolic links are followed at
    most, the last segment's only when asked to. *)
Fixpoint walk (links : nat) (t : tree) (follow : bool) : loc → list string → outcome loc :=
  fix go (cur : loc) (todo : list string) : outcome loc :=
    match todo with
    | [] => Ok cur
    | seg :: rest =>
        if String.eqb seg "" || String.eqb seg "." then go cur rest
        else if String.eqb seg ".." then go (up cur) rest
        else
          match t !! (cur ++ [seg]), rest with
          | Some (Symlink target), _ =>
              if negb follow && bool_decide (rest = []) then Ok (cur ++ [seg])
              else match links with
                   | 0%nat => Err ErrLoop
                   | S links => walk links t follow (if IsAbs target then [] else cur) (Split target slash ++ rest)
                   end
          | _, [] => Ok (cur ++ [seg])
          | Some Directory, _ => go (cur ++ [seg]) rest
          | Some (Regular _ _), _ => Err ErrNotDir
          | None, _ => Err ErrNotExist
          end
    end.
Definition resolve (t : tree) (follow : bool) (path : string) : outcome loc := walk 40 t follow [] (Split path slash).

(** Other processes write between the system calls, and a call may fail. *)
Record jevent := JEvent { je_writes : list (loc * option node); je_fault : option gerror }.
Record jworld := JWorld { jw_tree : tree; jw_script : list jevent }.
(** A new directory is empty. *)
Definition new_directory (l : loc) (t : tree) : tree := <[l := Directory]> (filter (λ kv, ¬ l `prefix_of` kv.1) t).
Definition write_node (t : tree) (x : loc * option node) : tree :=
  match x.2 with
  | Some Directory => if decide (t !! x.1 = Some Directory) then t else new_directory x.1 t
  | Some n => <[x.1 := n]> t
  | None => delete x.1 t
  end.
Definition sys {A} (f : tree → outcome (tree * A)) : M jworld A := λ w,
  let e := default (JEvent [] None) (head (jw_script w)) in
  let t := foldl write_node (jw_tree w) (je_writes e) in
  match je_fault e with
  | Some err => (JWorld t (tail (jw_script w)), Err err)
  | None => match f t with
            | Ok (t', a) => (JWorld t' (tail (jw_script w)), Ok a)
            | Err err => (JWorld t (tail (jw_script w)), Err err)
            | Halt s => (JWorld t (tail (jw_script w)), Halt s)
            end
  end.
Definition lookup_node (follow : bool) (path : string) (t : tree) : outcome (tree * node) :=
  let? l := resolve t follow path in match node_at t l with Some n => Ok (t, n) | None => Err ErrNotExist end.
Definition Lstat (path : string) : M jworld node := sys (lookup_node false path).
Definition Stat (path : string) : M jworld node := sys (lookup_node true path).
Definition Mkdir (path : string) : M jworld () := sys (λ t,
  let? l := resolve t false path in
  match node_at t l with Some _ => Err ErrExist | None => Ok (new_directory l t, tt) end).
Definition Chmod (path : string) (mode : Z) : M jworld () := sys (λ t,
  let? l := resolve t true path in
  match node_at t l with
  | Some (Regular data _) => Ok (<[l := Regular data mode]> t, tt)
  | Some _ => Ok (t, tt)
  | None => Err ErrNotExist
  end).
(** Through the descriptor: when the file is not there any more, nothing that has a name changes. *)
Definition Write (l : loc) (data : string) : M jworld () := sys (λ t,
  match t !! l with Some (Regular _ mode) => Ok (<[l := Regular data mode]> t, tt) | _ => Ok (t, tt) end).
Definition Close : M jworld () := sys (λ t, Ok (t, tt)).
Definition os_Remove (path : string) : M jworld () := sys (λ t,
  let? l := resolve t false path in
  match node_at t l with
  | None => Err ErrNotExist
  | Some Directory =>
      if existsb (λ kv, bool_decide (l `prefix_of` kv.1 ∧ l ≠ kv.1)) (map_to_list t) then Err ErrNotEmpty else Ok (delete l t, tt)
  | Some _ => Ok (delete l t, tt)
  end).
(** [os.MkdirAll] of an absolute path, from its segments in reverse. *)
Definition mkdir_step (path : string) (parents : M jworld ()) : M jworld () :=
  let! st := attempt (Stat path) in
  match st with
  | inl Directory => ret tt
  | inl _ => fail ErrNotDir
  | inr _ =>
      do! parents;
      let! made := attempt (Mkdir path) in
      match made with
      | inl _ => ret tt
      | inr e => let! st := attempt (Lstat path) in match st with inl Directory => ret tt | _ => fail e end
      end
  end.
Fixpoint mkdir_all (segs : list string) : M jworld () :=
  mkdir_step (abs (reverse segs)) match segs with [] | [_] => ret tt | _ :: parent => mkdir_all parent end.
Definition os_MkdirAll (path : string) : M jworld () := mkdir_all (reverse (segments path)).

(** *** Renaming moves whole subtrees *)
Definition moved (a b : loc) (t : tree) : tree :=
  list_to_map (omap (λ kv, if decide (a `prefix_of` kv.1) then Some (b ++ drop (length a) kv.1, kv.2) else None) (map_to_list t)).
Definition others (a b : loc) (t : tree) : tree := filter (λ kv, ¬ a `prefix_of` kv.1 ∧ ¬ b `prefix_of` kv.1) t.
Inductive rename_mode := Plain | Exchange | NoReplace.
Definition rename_tree (mode : rename_mode) (old new : string) (t : tree) : outcome (tree * ()) :=
  let? a := resolve t false old in
  let? b := resolve t false new in
  match node_at t a with
  | None => Err ErrNotExist
  | Some n =>
      if decide (a = b) then match mode with NoReplace => Err ErrExist | _ => Ok (t, tt) end
      else if decide (a `prefix_of` b ∨ b `prefix_of` a) then Err ErrInvalid
      else
        match mode, node_at t b with
        | Exchange, None => Err ErrNotExist
        | Exchange, Some _ => Ok (moved a b t ∪ (moved b a t ∪ others a b t), tt)
        | NoReplace, Some _ => Err ErrExist
        | Plain, Some m =>
            if xorb (bool_decide (n = Directory)) (bool_decide (m = Directory)) then Err ErrNotDir
            else if existsb (λ kv, bool_decide (b `prefix_of` kv.1 ∧ b ≠ kv.1)) (map_to_list t) then Err ErrNotEmpty
            else Ok (moved a b t ∪ others a b t, tt)
        | _, None => Ok (moved a b t ∪ others a b t, tt)
        end
  end.
Definition rename (mode : rename_mode) (old new : string) : M jworld () := sys (rename_tree mode old new).

(** ** The code *)
Section prefixFs.
  (** The directory of the jail; whether the file system knows [renameat2] with flags; the name that [os.CreateTemp] finds. *)
  Context (Prefix : string) (renameat2 : bool) (pick : tree → loc → string → string).

Fixpoint check_segments (acc : string) (segs : list string) : M jworld () :=
  match segs with
  | [] => ret tt
  | segment :: segs =>
      if String.eqb segment "." || String.eqb segment ".." then fail (ErrMsg "path traversal is not supported")
      else
        let acc := path_Join [acc; segment] in
        if String.eqb acc Prefix then check_segments acc segs
        else
          let! fi := attempt (Lstat acc) in
          match fi with
          | inr err => if bool_decide (err = ErrNotExist) then check_segments acc segs else fail err
          | inl (Symlink _) => fail (ErrMsg "symlinks in path are not supported")
          | inl _ => check_segments acc segs
          end
  end.
Definition checkPath (innerPath : string) : M jworld () :=
  if negb (IsAbs innerPath) then fail (ErrMsg "path is not absolute") else check_segments Prefix (Split innerPath slash).
Definition addPrefix (innerPath : string) : M jworld string :=
  do! checkPath innerPath; ret (path_Join [Prefix; innerPath]).
Definition removePrefix (path : string) : outcome string :=
  if HasPrefix path Prefix then Ok (TrimPrefix path Prefix) else Err (ErrMsg "path does not have prefix").

Definition pfs_MkdirAll (path : string) : M jworld () := let! prefixed := addPrefix path in os_MkdirAll prefixed.
(** A directory, the base of the name and the name that results; the mode is that of [os.CreateTemp]. *)
Definition CreateTemp (dir base : string) : M jworld (loc * string) := sys (λ t,
  let? d := resolve t true dir in
  let name := pick t d base in
  match node_at t d with
  | Some Directory =>
      if negb (no_char slash base) then Err (ErrMsg "pattern contains path separator") else
      match node_at t (d ++ [name]) with
      | Some _ => Err ErrExist
      | None => Ok (<[d ++ [name] := Regular "" 384]> t, (d ++ [name], path_Join [dir; name]))
      end
  | Some _ => Err ErrNotDir
  | None => Err ErrNotExist
  end).
(** What is done with the open file; a failed write closes it too. *)
Definition fill (l : loc) (tempFileName content : string) (mode : Z) : M jworld () :=
  let! written := attempt (wrapM "write temp file" (Write l content)) in
  match written with
  | inr e => let! closed := attempt Close in fail (match closed with inl _ => e | inr e' => ErrJoin e e' end)
  | inl _ =>
      do! wrapM "close temp file" Close;
      wrapM "chmod temp file" (Chmod tempFileName mode)
  end.
Definition pfs_PrepareNewFile (oldFile content : string) (mode : Z) : M jworld string :=
  let! prefixed := addPrefix oldFile in
  let! (l, tempFileName) := wrapM "create temp file" (CreateTemp (Dir prefixed) (Base prefixed +:+ "-sconfigcontroller-")) in
  let! filled := attempt (fill l tempFileName content mode) in
  match filled with
  | inl _ => lift (removePrefix tempFileName)
  | inr e => let! removed := attempt (os_Remove tempFileName) in fail (match removed with inl _ => e | inr e' => ErrJoin e e' end)
  end.
(** An unknown system call and a file system that has no flags answer alike. *)
Definition isRenameNotSupported (e : gerror) : bool := bool_decide (e = ErrInvalid).
Definition rename_with (mode : rename_mode) (old new : string) : M jworld () :=
  let! renamed := attempt (sys (if renameat2 then rename_tree mode old new else λ _, Err ErrInvalid)) in
  match renamed with
  | inl _ => ret tt
  | inr e => if isRenameNotSupported e then rename Plain old new else fail e
  end.
Definition renameExchange : string → string → M jworld () := rename_with Exchange.
Definition renameNoReplace : string → string → M jworld () := rename_with NoReplace.
Definition pfs_RenameExchange (oldPath newPath : string) : M jworld () :=
  let! prefixedOld := addPrefix oldPath in let! prefixedNew := addPrefix newPath in renameExchange prefixedOld prefixedNew.
Definition pfs_RenameNoReplace (oldPath newPath : string) : M jworld () :=
  let! prefixedOld := addPrefix oldPath in let! prefixedNew := addPrefix newPath in renameNoReplace prefixedOld prefixedNew.
Definition pfs_Remove (name : string) : M jworld () := let! prefixed := addPrefix name in os_Remove prefixed.

(** The interface [Fs]: what a client may ask for ([SyncCaches] only waits). *)
Inductive Fs :=
| OpMkdirAll (path : string)
| OpPrepareNewFile (oldFile content : string) (mode : Z)
| OpRenameExchange (oldPath newPath : string)
| OpRenameNoReplace (oldPath newPath : string)
| OpRemove (name : string).
Definition perform (op : Fs) : M jworld () :=
  match op with
  | OpMkdirAll path => pfs_MkdirAll path
  | OpPrepareNewFile oldFile content mode => let! _ := pfs_PrepareNewFile oldFile content mode in ret tt
  | OpRenameExchange oldPath newPath => pfs_RenameExchange oldPath newPath
  | OpRenameNoReplace oldPath newPath => pfs_RenameNoReplace oldPath newPath
  | OpRemove name => pfs_Remove name
  end.
Definition perform_all (ops : list Fs) (w : jworld) : jworld := foldl (λ w op, (perform op w).1) w ops.
End prefixFs.

(** ** Resolution inside of the jail *)
Definition proper (q l : loc) : Prop := q `prefix_of` l ∧ q ≠ l ∧ q ≠ [].
(** A symbolic link that a walk can come across, and a path without any. *)
Definition visible (t : tree) (q : loc) (target : string) : Prop :=
  t !! q = Some (Symlink target) ∧ ∀ q', proper q' q → t !! q' = Some Directory.
Definition linkless (t : tree) (l : loc) : Prop := ∀ q s, q `prefix_of` l → q ≠ [] → ¬ visible t q s.
Definition blocked (t : tree) (l : loc) : Prop := ∃ q, proper q l ∧ t !! q ≠ Some Directory.
Definition dirs (t : tree) (l : loc) : Prop := ∀ q, q `prefix_of` l → q ≠ [] → t !! q = Some Directory.

Lemma linkless_prefix t l l' : l' `prefix_of` l → linkless t l → linkless t l'.
Proof. intros Hp Hl q s Hq. apply Hl. by transitivity l'. Qed.
Lemma prefix_snoc_inv (q l : loc) s : q `prefix_of` l ++ [s] → q `prefix_of` l ∨ q = l ++ [s].
Proof.
  intros [r Hr]. destruct r as [|x r _] using rev_ind; [right; by rewrite Hr, app_nil_r|]. left.
  rewrite app_assoc in Hr. apply app_inj_tail in Hr as [-> _]. by eexists.
Qed.
Lemma proper_snoc q l s : proper q (l ++ [s]) → q `prefix_of` l ∧ q ≠ [].
Proof. intros (Hq & Hne & Hn). by apply prefix_snoc_inv in Hq as [Hq| ->]. Qed.
Lemma linkless_snoc t l s : linkless t l → (∀ x, ¬ visible t (l ++ [s]) x) → linkless t (l ++ [s]).
Proof. intros Hl Hs q x Hq Hn. apply prefix_snoc_inv in Hq as [Hq| ->]; [by apply Hl|apply Hs]. Qed.
Lemma blocked_invisible t l x : blocked t l → ¬ visible t l x.
Proof. intros (q & Hq & Hn) [_ Hd]. by apply Hn, Hd. Qed.
Lemma dirs_visible t l s x : dirs t l → t !! (l ++ [s]) = Some (Symlink x) → visible t (l ++ [s]) x.
Proof. intros Hd Hs. split; [done|]. intros q [Hq Hn]%proper_snoc. by apply Hd. Qed.
Lemma dirs_snoc t l s : dirs t l → t !! (l ++ [s]) = Some Directory → dirs t (l ++ [s]).
Proof. intros Hd Hs q Hq Hn. apply prefix_snoc_inv in Hq as [Hq| ->]; [by apply Hd|done]. Qed.

(** Without links a path is its segments; the last one matters only when links are followed. *)
Lemma walk_linkless (links : nat) (t : tree) (follow : bool) (cur segs : loc) :
  Forall plain segs → dirs t cur → linkless t (cur ++ if follow then segs else take (pred (length segs)) segs) →
  (walk links t follow cur segs = Ok (cur ++ segs) ∧ ∀ q, proper q (cur ++ segs) → t !! q = Some Directory) ∨
  ∃ e, walk links t follow cur segs = Err e ∧ blocked t (cur ++ segs).
Proof.
  intros Hp. revert cur. induction Hp as [|seg segs Hs Hp IH]; intros cur Hd Hl.
  { left. rewrite app_nil_r. split; [by destruct links|]. intros q (Hq & _ & Hn). by apply Hd. }
  destruct Hs as (H1 & H2 & H3 & _). apply String.eqb_neq in H1, H2, H3.
  destruct (decide (segs = [])) as [->|Hne].
  - left. split; [|intros q [Hq Hn]%proper_snoc; by apply Hd]. destruct links; cbn [walk]; rewrite H1, H2, H3; cbn [orb];
      (destruct (t !! (cur ++ [seg])) as [[| |x]|] eqn:E; [done|done| |done]);
      (destruct follow; [|done]); (destruct (Hl (cur ++ [seg]) x); [done|by destruct cur|by apply dirs_visible]).
  - assert (∀ x, t !! (cur ++ [seg]) ≠ Some (Symlink x)) as Hn.
    { intros x Hx. apply (Hl (cur ++ [seg]) x); [|by destruct cur|by apply dirs_visible]. apply prefix_app. destruct follow; [by eexists|].
      destruct segs as [|s2 segs]; [done|]. simpl. by eexists. }
    assert (proper (cur ++ [seg]) (cur ++ seg :: segs)) as Hpr.
    { split_and!; [apply prefix_app; by eexists| |by destruct cur]. intros [= <-]%app_inv_head. done. }
    rewrite (cons_middle seg cur segs), (app_assoc cur [seg] segs).
    assert (linkless t ((cur ++ [seg]) ++ if follow then segs else take (pred (length segs)) segs)) as Hl'.
    { rewrite <-app_assoc. destruct follow; [done|]. destruct segs as [|s2 segs]; [done|]. done. }
    destruct links; cbn [walk]; rewrite H1, H2, H3; cbn [orb];
      (destruct (t !! (cur ++ [seg])) as [[| |x]|] eqn:E; [| |by destruct (Hn x)|]);
      (destruct segs as [|s2 segs]; [done|]);
      try (apply IH; [by apply dirs_snoc|done]);
      (right; eexists; split; [done|]; exists (cur ++ [seg]); rewrite <-app_assoc; split; [exact Hpr|by rewrite E]).
Qed.
Lemma walk_empty (links : nat) (t : tree) (follow : bool) (cur segs : loc) : walk links t follow cur ("" :: segs) = walk links t follow cur segs.
Proof. by destruct links. Qed.
Lemma resolve_abs (t : tree) (follow : bool) (l : loc) :
  Forall plain l → linkless t (if follow then l else up l) →
  (resolve t follow (abs l) = Ok l ∧ ∀ q, proper q l → t !! q = Some Directory) ∨ ∃ e, resolve t follow (abs l) = Err e ∧ blocked t l.
Proof.
  intros Hp Hl. unfold resolve, abs. change ("/" +:+ Join l "/") with (String "/" (Join l "/")). cbn [Split].
  change (Ascii.eqb "/" slash) with true. cbv iota. rewrite walk_empty. destruct l as [|s l].
  { left. split; [reflexivity|]. by intros q ([= ->]%prefix_nil_inv & ? & _). }
  assert (dirs t []) as Hd by (intros q Hq%prefix_nil_inv; done).
  rewrite Split_Join; [by apply (walk_linkless _ t follow [])|done|].
  eapply Forall_impl; [exact Hp|]. intros x (_ & _ & _ & Hx). exact Hx.
Qed.

(** ** Confinement *)
Section confinement.
  Context (P : loc) (HP : Forall plain P) (renameat2 : bool) (pick : tree → loc → string → string).
  (** A random text is added to the base. *)
  Hypothesis pick_plain : ∀ (t : tree) (d : loc) (base : string), plain base → plain (pick t d base).
Definition inside (q : loc) : Prop := P `prefix_of` q ∧ q ≠ P.
Definition outside (t t' : tree) : Prop := ∀ q, ¬ inside q → t' !! q = t !! q.
(** The others are confined to the jail themselves, and do not put links there while an operation runs; a call that fails for
    another reason does not say that a file is missing. *)
Definition benign (e : jevent) : Prop :=
  (∀ l n, (l, n) ∈ je_writes e → inside l ∧ ∀ s, n ≠ Some (Symlink s)) ∧ je_fault e ≠ Some ErrNotExist.
(** The jail is a directory, and the path to it has no links. *)
Definition good (w : jworld) : Prop := dirs (jw_tree w) P ∧ Forall benign (jw_script w).
(** A change inside of the jail that makes no link visible. *)
Definition tame_change (t t' : tree) : Prop := outside t t' ∧ ∀ q s, visible t' q s → visible t q s.

Lemma tame_refl t : tame_change t t.
Proof. by split. Qed.
Lemma tame_trans t1 t2 t3 : tame_change t1 t2 → tame_change t2 t3 → tame_change t1 t3.
Proof. intros [O1 V1] [O2 V2]. split; [intros q Hq; by rewrite O2, O1|auto]. Qed.
Lemma tame_linkless t t' l : tame_change t t' → linkless t l → linkless t' l.
Proof. intros [_ V] Hl q s Hq Hn Hv. by eapply Hl, V. Qed.
Lemma prefix_outside q : q `prefix_of` P → ¬ inside q.
Proof. intros Hq [Hp Hne]. apply Hne. by apply (anti_symm prefix). Qed.
Lemma tame_dirs t t' : tame_change t t' → dirs t P → dirs t' P.
Proof. intros [O _] Hd q Hq Hn. rewrite O; [by apply Hd|by apply prefix_outside]. Qed.
Lemma dirs_linkless t : dirs t P → linkless t P.
Proof. intros Hd q s Hq Hn [Hs _]. by rewrite Hd in Hs. Qed.
(** One location gets another node: a file or nothing. *)
Lemma tame_node t t' l : inside l → (∀ q, q ≠ l → t' !! q = t !! q) → (∀ s, t' !! l ≠ Some (Symlink s)) → t' !! l ≠ Some Directory → tame_change t t'.
Proof.
  intros Hl Ho Hs Hd. split; [intros q Hq; apply Ho; by intros ->|]. intros q s [Hq Hp].
  assert (q ≠ l) as Hne by (intros ->; by eapply Hs). rewrite Ho in Hq by done. split; [done|]. intros q' Hq'. specialize (Hp q' Hq').
  rewrite <-Ho; [done|]. by intros ->.
Qed.
Lemma tame_insert (t : tree) l data mode : inside l → tame_change t (<[l := Regular data mode]> t).
Proof. intros Hl. apply (tame_node _ _ l); [done| |by rewrite lookup_insert_eq..]. intros q Hq. by rewrite lookup_insert_ne. Qed.
Lemma tame_delete (t : tree) l : inside l → tame_change t (delete l t).
Proof. intros Hl. apply (tame_node _ _ l); [done| |by rewrite lookup_delete_eq..]. intros q Hq. by rewrite lookup_delete_ne. Qed.
Lemma new_directory_below (t : tree) l q : l `prefix_of` q → q ≠ l → new_directory l t !! q = None.
Proof. intros Hp Hne. unfold new_directory. rewrite lookup_insert_ne by done. apply map_lookup_filter_None. right. intros n _ Hn. by apply Hn. Qed.
Lemma new_directory_ne (t : tree) l q : ¬ l `prefix_of` q → new_directory l t !! q = t !! q.
Proof.
  intros Hp. unfold new_directory. rewrite lookup_insert_ne by (intros ->; by apply Hp).
  destruct (t !! q) as [n|] eqn:E; [by apply map_lookup_filter_Some|]. apply map_lookup_filter_None. by left.
Qed.
Lemma tame_directory (t : tree) l : inside l → tame_change t (new_directory l t).
Proof.
  intros Hl. split.
  - intros q Hq. apply new_directory_ne. intros Hp. apply Hq. destruct Hl as [Hl Hne]. split; [by transitivity l|].
    intros ->. apply Hne. by apply (anti_symm prefix).
  - intros q s [Hq Hp]. destruct (decide (l `prefix_of` q)) as [Hlq|Hlq].
    + exfalso. destruct (decide (q = l)) as [->|Hne]; [unfold new_directory in Hq; by rewrite lookup_insert_eq in Hq|].
      by rewrite new_directory_below in Hq.
    + rewrite new_directory_ne in Hq by done. split; [done|]. intros q' Hq'. rewrite <-(Hp q' Hq'). symmetry. apply new_directory_ne.
      intros Hl'. apply Hlq. transitivity q'; [done|apply Hq'].
Qed.
Lemma tame_write t l n : inside l → (∀ s, n ≠ Some (Symlink s)) → tame_change t (write_node t (l, n)).
Proof.
  intros Hl Hn. destruct n as [[|data mode|s]|]; unfold write_node; cbn [fst snd].
  - destruct (decide (t !! l = Some Directory)); [apply tame_refl|by apply tame_directory].
  - by apply tame_insert.
  - by destruct (Hn s).
  - by apply tame_delete.
Qed.
Lemma tame_event t e : benign e → tame_change t (foldl write_node t (je_writes e)).
Proof.
  intros [Hb _]. revert Hb. generalize (je_writes e). intros l. revert t. induction l as [|[q n] l IH]; intros t Hb; [apply tame_refl|]. simpl.
  destruct (Hb q n ltac:(left)) as (Hq & Hn). eapply tame_trans; [by apply tame_write|]. apply IH. intros q' n' Hin. apply Hb. by right.
Qed.

(** *** A logic of operations that make no link visible *)
Definition tame {A} (Pre : tree → Prop) (m : M jworld A) (Post : A → tree → Prop) : Prop :=
  ∀ w, good w → Pre (jw_tree w) →
    good (m w).1 ∧ tame_change (jw_tree w) (jw_tree (m w).1) ∧ ∀ a, (m w).2 = Ok a → Post a (jw_tree (m w).1).
Definition lasting (Pre : tree → Prop) : Prop := ∀ t t', tame_change t t' → Pre t → Pre t'.
Lemma lasting_linkless l : lasting (λ t, linkless t l).
Proof. intros t t'. apply tame_linkless. Qed.
Lemma lasting_True : lasting (λ _, True).
Proof. done. Qed.
Lemma lasting_and Pre Q : lasting Pre → lasting Q → lasting (λ t, Pre t ∧ Q t).
Proof. intros H1 H2 t t' Ht [? ?]. split; [by eapply H1|by eapply H2]. Qed.
Lemma tame_weaken {A} (Pre Pre' : tree → Prop) (m : M jworld A) (Post Post' : A → tree → Prop) :
  tame Pre' m Post' → (∀ t, Pre t → Pre' t) → (∀ a t, Post' a t → Post a t) → tame Pre m Post.
Proof. intros Hm H1 H2 w Hg Hp. destruct (Hm w Hg (H1 _ Hp)) as (? & ? & ?). split_and!; auto. Qed.
Lemma tame_ret {A} (Pre : tree → Prop) (a : A) (Post : A → tree → Prop) : (∀ t, Pre t → Post a t) → tame Pre (ret a) Post.
Proof. intros H w Hg Hp. split_and!; [done|apply tame_refl|]. intros ? [= <-]. by apply H. Qed.
Lemma tame_fail {A} (Pre : tree → Prop) e (Post : A → tree → Prop) : tame Pre (fail e) Post.
Proof. intros w Hg Hp. split_and!; [done|apply tame_refl|done]. Qed.
Lemma tame_bind {A B} (Pre : tree → Prop) (m : M jworld A) (k : A → M jworld B) Q R :
  lasting Pre → tame Pre m Q → (∀ a, tame (λ t, Pre t ∧ Q a t) (k a) R) → tame Pre (bind m k) R.
Proof.
  intros Hl Hm Hk w Hg Hp. destruct (Hm w Hg Hp) as (Hg' & Ht & HQ). unfold bind. destruct (m w) as [w' [a|e|s]]; cbn [fst snd] in *;
    [|by split_and!..].
  destruct (Hk a w' Hg') as (Hg'' & Ht' & HR); [split; [by eapply Hl|by apply HQ]|]. split_and!; [done|by eapply tame_trans|done].
Qed.
Lemma tame_attempt {A} (Pre : tree → Prop) (m : M jworld A) Q :
  tame Pre m Q → tame Pre (attempt m) (λ r t, match r with inl a => Q a t | inr _ => True end).
Proof.
  intros Hm w Hg Hp. destruct (Hm w Hg Hp) as (Hg' & Ht & HQ). unfold attempt. destruct (m w) as [w' [a|e|s]]; cbn [fst snd] in *;
    split_and!; try done; intros ? [= <-]; auto.
Qed.
Lemma tame_wrap {A} (Pre : tree → Prop) (m : M jworld A) msg Q : tame Pre m Q → tame Pre (wrapM msg m) Q.
Proof.
  intros Hm w Hg Hp. destruct (Hm w Hg Hp) as (Hg' & Ht & HQ). unfold wrapM. destruct (m w) as [w' [a|e|s]]; cbn [fst snd] in *; by split_and!.
Qed.
Lemma good_event w :
  good w → let t := foldl write_node (jw_tree w) (je_writes (default (JEvent [] None) (head (jw_script w)))) in
  tame_change (jw_tree w) t ∧ dirs t P ∧ Forall benign (tail (jw_script w)).
Proof.
  intros [Hl Hb]. assert (tame_change (jw_tree w) (foldl write_node (jw_tree w) (je_writes (default (JEvent [] None) (head (jw_script w)))))) as Ht.
  { apply tame_event. destruct Hb as [|e s He Hb]; [split; [by intros q n Hin%not_elem_of_nil|done]|done]. }
  split_and!; [done|by eapply tame_dirs|by destruct Hb].
Qed.
Lemma tame_sys {A} (Pre : tree → Prop) (f : tree → outcome (tree * A)) (Post : A → tree → Prop) :
  lasting Pre →
  (∀ t, dirs t P → Pre t → match f t with Ok (t', a) => tame_change t t' ∧ Post a t' | _ => True end) → tame Pre (sys f) Post.
Proof.
  intros Hl Hf w Hg Hp. destruct (good_event w Hg) as (Ht & Hlk & Hb). unfold sys. set (t := foldl _ _ _) in *.
  assert (Pre t) as Hp' by by eapply Hl. specialize (Hf t Hlk Hp').
  destruct (je_fault _) as [err|]; [by split_and!|]. destruct (f t) as [[t' a]|e|s]; [|by split_and!..]. destruct Hf as [Ht' HP'].
  assert (tame_change (jw_tree w) t') as Htt by by eapply tame_trans. split_and!; [|done|by intros ? [= <-]].
  split; [exact (tame_dirs t t' Ht' Hlk)|done].
Qed.

(** *** The system calls *)
Lemma resolve_at t follow l l' : Forall plain l → linkless t l → resolve t follow (abs l) = Ok l' → l' = l.
Proof.
  intros Hs Hl Hr. destruct (resolve_abs t follow l) as [[H _]|(e & H & _)]; [done| |congruence..].
  destruct follow; [done|]. eapply linkless_prefix, Hl. unfold up. exists (drop (pred (length l)) l). by rewrite take_drop.
Qed.
Lemma inside_app segs : segs ≠ [] → inside (P ++ segs).
Proof. intros Hne. split; [by eexists|]. intros H%(f_equal length). rewrite length_app in H. destruct segs; [done|]. simpl in H. lia. Qed.
Lemma plain_app segs : Forall plain segs → Forall plain (P ++ segs).
Proof. intros Hs. by apply Forall_app. Qed.
Lemma lookup_tame Pre follow path : lasting Pre → tame Pre (sys (lookup_node follow path)) (λ _ _, True).
Proof.
  intros Hl. apply tame_sys; [done|]. intros t _ Ht. unfold lookup_node. destruct (resolve t follow path) as [l|e|s] eqn:E; [|done..]. cbn.
  destruct (node_at t l) as [n|] eqn:En; [|done]. split; [apply tame_refl|done].
Qed.
(** Every prefix of a path in the jail is a directory on the way to the jail, or inside. *)
Lemma prefix_inside t l segs : dirs t P → l `prefix_of` P ++ segs → node_at t l = Some Directory ∨ inside l.
Proof.
  intros Hd Hl. destruct (decide (inside l)) as [|Hn]; [by right|left]. assert (l `prefix_of` P) as Hp.
  { destruct (prefix_weak_total l P (P ++ segs)) as [?|?]; [done|by eexists|done|].
    destruct (decide (l = P)) as [->|?]; [done|]. by destruct Hn. }
  unfold node_at. destruct l; [done|]. by apply Hd.
Qed.
Lemma Mkdir_tame l segs :
  Forall plain (P ++ segs) → l `prefix_of` P ++ segs → tame (λ t, linkless t (P ++ segs)) (Mkdir (abs l)) (λ _ _, True).
Proof.
  intros Hs Hp. apply tame_sys; [apply lasting_linkless|]. intros t Hd Ht. destruct (resolve _ _ _) as [l'|e|s] eqn:E; [|done..]. cbn.
  apply resolve_at in E as ->; [|destruct Hp as [r Hr]; rewrite Hr in Hs; by apply Forall_app in Hs as [? _]|by eapply linkless_prefix].
  destruct (prefix_inside t l segs Hd Hp) as [-> |Hi]; [done|]. destruct (node_at t l); [done|]. split; [by apply tame_directory|done].
Qed.
Lemma os_Remove_tame segs :
  Forall plain segs → segs ≠ [] → tame (λ t, linkless t (P ++ segs)) (os_Remove (abs (P ++ segs))) (λ _ _, True).
Proof.
  intros Hs Hne. apply tame_sys; [apply lasting_linkless|]. intros t _ Ht. destruct (resolve _ _ _) as [l|e|s] eqn:E; [|done..]. cbn.
  apply resolve_at in E as ->; [|by apply plain_app|done]. destruct (node_at t _) as [[]|]; try done; try (destruct (existsb _ _); [done|]);
    (split; [by apply tame_delete, inside_app|done]).
Qed.
Lemma Chmod_tame segs mode :
  Forall plain segs → segs ≠ [] → tame (λ t, linkless t (P ++ segs)) (Chmod (abs (P ++ segs)) mode) (λ _ _, True).
Proof.
  intros Hs Hne. apply tame_sys; [apply lasting_linkless|]. intros t _ Ht. destruct (resolve _ _ _) as [l|e|s] eqn:E; [|done..]. cbn.
  apply resolve_at in E as ->; [|by apply plain_app|done]. destruct (node_at t _) as [[]|]; try done; (split; [|done]);
    first [apply tame_refl|by apply tame_insert, inside_app].
Qed.
Lemma Write_tame Pre l data : lasting Pre → inside l → tame Pre (Write l data) (λ _ _, True).
Proof.
  intros HL Hl. apply tame_sys; [done|]. intros t _ Ht. destruct (t !! l) as [[]|]; (split; [|done]); try apply tame_refl. by apply tame_insert.
Qed.
Lemma Close_tame Pre : lasting Pre → tame Pre Close (λ _ _, True).
Proof. intros HL. apply tame_sys; [done|]. intros t _ _. split; [apply tame_refl|done]. Qed.
Lemma node_at_snoc t l s : node_at t (l ++ [s]) = t !! (l ++ [s]).
Proof. by destruct l. Qed.

(** *** The check of a path *)
Lemma check_step d seg :
  Forall plain d → plain seg →
  tame (λ t, linkless t (P ++ d)) (attempt (Lstat (abs (P ++ d ++ [seg]))))
    (λ r t, match r with
            | inl (Symlink _) => True
            | inl _ => linkless t (P ++ d ++ [seg])
            | inr e => e = ErrNotExist → linkless t (P ++ d ++ [seg])
            end).
Proof.
  intros Hd Hs w Hg Hl. destruct (good_event w Hg) as (Ht & Hlk & Hb). pose proof Hg as [_ Hben].
  unfold attempt, Lstat, sys, lookup_node. set (e := default _ _) in *. set (t := foldl _ _ _) in *.
  assert (je_fault e ≠ Some ErrNotExist) as Hfe by (unfold e; by destruct Hben as [|? ? [_ ?] _]).
  assert (linkless t (P ++ d)) as Hl' by by eapply tame_linkless.
  destruct (je_fault e) as [err|]; [split_and!; [done..|]; intros ? [= <-] ->; done|].
  assert (up (P ++ d ++ [seg]) = P ++ d) as Hup.
  { unfold up. rewrite app_assoc, length_app. simpl. rewrite Nat.add_comm. simpl. by rewrite take_app_length. }
  rewrite app_assoc in Hup |- *.
  destruct (resolve_abs t false ((P ++ d) ++ [seg])) as [[Hr _]|(err & Hr & Hbl)].
  - rewrite Forall_app, Forall_singleton. split; [by apply plain_app|done].
  - by rewrite Hup.
  - rewrite Hr. cbn. destruct (node_at t ((P ++ d) ++ [seg])) as [n|] eqn:En.
    + split_and!; [done..|]. intros ? [= <-]. rewrite node_at_snoc in En. destruct n; try done; (apply linkless_snoc; [done|]; intros x [Hx _]); cbn in Hx; rewrite En in Hx; discriminate Hx.
    + split_and!; [done..|]. intros ? [= <-] _. apply linkless_snoc; [done|]. intros x [Hx _].
      rewrite node_at_snoc in En. cbn in Hx. rewrite En in Hx. discriminate Hx.
  - rewrite Hr. cbn. split_and!; [done..|]. intros ? [= <-] _. apply linkless_snoc; [done|]. intros x. by apply blocked_invisible.
Qed.
Lemma filter_nonempty_plain segs : dotless segs → Forall (λ x, no_char slash x = true) segs → Forall plain (filter (λ s, s ≠ "") segs).
Proof.
  intros Hd Hs. apply Forall_forall. intros s [Hne Hin]%list_elem_of_filter. unfold dotless in Hd. rewrite Forall_forall in Hd, Hs.
  destruct (Hd s Hin). by split_and!; [..|apply Hs].
Qed.
Lemma check_segments_tame segs d :
  Forall plain d → Forall (λ x, no_char slash x = true) segs →
  tame (λ t, linkless t (P ++ d)) (check_segments (abs P) (abs (P ++ d)) segs)
    (λ _ t, dotless segs ∧ linkless t (P ++ d ++ filter (λ s, s ≠ "") segs)).
Proof.
  revert d. induction segs as [|seg segs IH]; intros d Hd Hs.
  { apply tame_ret. intros t Ht. split; [constructor|]. simpl. by rewrite app_nil_r. }
  apply Forall_cons in Hs as [Hseg Hs]. cbn [check_segments].
  destruct (String.eqb_spec seg ".") as [->|H1]; [apply tame_fail|]. destruct (String.eqb_spec seg "..") as [->|H2]; [apply tame_fail|]. cbn [orb].
  destruct (decide (seg = "")) as [->|Hne].
  - rewrite path_Join_empty by by apply plain_app. rewrite filter_cons_False by naive_solver.
    assert (tame (λ t, linkless t (P ++ d)) (check_segments (abs P) (abs (P ++ d)) segs)
              (λ _ t, dotless ("" :: segs) ∧ linkless t (P ++ d ++ filter (λ s, s ≠ "") segs))) as Hrest.
    { eapply tame_weaken; [by apply IH|done|]. intros _ t [? ?]. split; [by constructor|done]. }
    destruct (String.eqb _ _); [done|]. eapply tame_bind; [apply lasting_linkless|apply tame_attempt, lookup_tame, lasting_linkless|].
    intros [[]|e]; try apply tame_fail; try (by eapply tame_weaken; [exact Hrest|naive_solver|]).
    case_bool_decide; [by eapply tame_weaken; [exact Hrest|naive_solver|]|apply tame_fail].
  - assert (plain seg) as Hp by done. rewrite path_Join_segment by (done || by apply plain_app). rewrite <-app_assoc.
    rewrite filter_cons_True by done.
    assert (tame (λ t, linkless t (P ++ d ++ [seg])) (check_segments (abs P) (abs (P ++ d ++ [seg])) segs)
              (λ _ t, dotless (seg :: segs) ∧ linkless t (P ++ d ++ seg :: filter (λ s, s ≠ "") segs))) as Hrest.
    { eapply tame_weaken; [apply IH; [apply Forall_app_2; [done|by apply Forall_singleton]|done]|done|]. rewrite <-app_assoc. intros _ t [? ?]. split; [by constructor|done]. }
    destruct (String.eqb_spec (abs (P ++ d ++ [seg])) (abs P)) as [He|_].
    { exfalso. apply abs_inj in He; [|apply plain_app, Forall_app_2; [done|by apply Forall_singleton]|done]. apply (f_equal length) in He. rewrite !length_app in He. simpl in He. lia. }
    eapply tame_bind; [apply lasting_linkless|by apply check_step|].
    intros [[]|e]; try apply tame_fail; try (by eapply tame_weaken; [exact Hrest|naive_solver|]).
    case_bool_decide; [eapply tame_weaken; [exact Hrest|naive_solver|done]|apply tame_fail].
Qed.
Lemma addPrefix_tame Pre path :
  lasting Pre →
  tame Pre (addPrefix (abs P) path)
    (λ s t, s = abs (P ++ segments path) ∧ Forall plain (segments path) ∧ linkless t (P ++ segments path)).
Proof.
  intros HL w Hg Hp.
  assert (tame (λ t, linkless t P) (addPrefix (abs P) path)
    (λ s t, s = abs (P ++ segments path) ∧ Forall plain (segments path) ∧ linkless t (P ++ segments path))) as H.
  { unfold addPrefix, checkPath. destruct (negb _); [apply (tame_bind _ _ _ (λ _ _, False)); [apply lasting_linkless|apply tame_fail|]; intros ?; apply tame_ret; naive_solver|].
    eapply tame_bind; [apply lasting_linkless| |].
    - pose proof (check_segments_tame (Split path slash) [] ltac:(done) (Split_slash_free path)) as Hc. rewrite app_nil_r in Hc. exact Hc.
    - intros []. apply tame_ret. intros t (_ & Hd & Hl). split_and!; [by apply path_Join_abs|by apply segments_plain|done]. }
  apply H; [done|apply dirs_linkless, Hg].
Qed.

(** *** The operations *)
Lemma tame_forget {A} (Pre Pre' : tree → Prop) (m : M jworld A) Q : tame Pre' m Q → (∀ t, Pre t → Pre' t) → tame Pre m (λ _ _, True).
Proof. intros Hm H. by eapply tame_weaken. Qed.
Lemma tame_seq {A B} (Pre : tree → Prop) (m : M jworld A) (k : A → M jworld B) R :
  lasting Pre → tame Pre m (λ _ _, True) → (∀ a, tame Pre (k a) R) → tame Pre (bind m k) R.
Proof. intros HL Hm Hk. eapply tame_bind; [done|done|]. intros a. eapply tame_weaken; [apply Hk|naive_solver|done]. Qed.
Lemma tame_try {A B} (Pre : tree → Prop) (m : M jworld A) Q (k : A + gerror → M jworld B) R :
  lasting Pre → tame Pre m Q → (∀ a, tame Pre (k a) R) → tame Pre (bind (attempt m) k) R.
Proof. intros HL Hm Hk. apply tame_seq; [done| |done]. eapply tame_forget; [by apply tame_attempt|done]. Qed.
Lemma mkdir_step_tame l segs parents :
  Forall plain (P ++ segs) → l `prefix_of` P ++ segs → tame (λ t, linkless t (P ++ segs)) parents (λ _ _, True) →
  tame (λ t, linkless t (P ++ segs)) (mkdir_step (abs l) parents) (λ _ _, True).
Proof.
  intros Hs Hl Hp. pose proof (lasting_linkless (P ++ segs)) as HL. eapply tame_try; [done|by apply lookup_tame|].
  intros [[]|e]; try apply tame_fail; try (by apply tame_ret). apply tame_seq; [done..|]. intros [].
  eapply tame_try; [done|by apply Mkdir_tame|]. intros [[]|e']; [by apply tame_ret|]. eapply tame_try; [done|by apply lookup_tame|].
  intros [[]|?]; by first [apply tame_ret|apply tame_fail].
Qed.
Lemma mkdir_all_tame l segs :
  Forall plain (P ++ segs) → l `prefix_of` P ++ segs → tame (λ t, linkless t (P ++ segs)) (mkdir_all (reverse l)) (λ _ _, True).
Proof.
  intros Hs. induction l as [|x l IH] using rev_ind; intros Hl; [by apply mkdir_step_tame; [..|apply tame_ret]|].
  rewrite reverse_snoc. cbn [mkdir_all]. rewrite reverse_cons, reverse_involutive. apply mkdir_step_tame; [done..|].
  destruct (reverse l) as [|y r] eqn:Er; [by apply tame_ret|]. apply IH. by eapply prefix_app_l.
Qed.
Lemma pfs_MkdirAll_tame path : tame (λ _, True) (pfs_MkdirAll (abs P) path) (λ _ _, True).
Proof.
  eapply tame_bind; [apply lasting_True|apply addPrefix_tame, lasting_True|]. intros s.
  intros w Hg (_ & -> & Hp & Hl). unfold os_MkdirAll. rewrite segments_abs by by apply plain_app.
  exact (mkdir_all_tame (P ++ segments path) (segments path) (plain_app _ Hp) (reflexivity _) w Hg Hl).
Qed.
Lemma pfs_Remove_tame path : segments path ≠ [] → tame (λ _, True) (pfs_Remove (abs P) path) (λ _ _, True).
Proof.
  intros Hne. eapply tame_bind; [apply lasting_True|apply addPrefix_tame, lasting_True|]. intros s w Hg (_ & -> & Hp & Hl).
  exact (os_Remove_tame (segments path) Hp Hne w Hg Hl).
Qed.

(** The temporary file is next to the file, and no link. *)
Lemma plain_base segs s : Forall plain (segs ++ [s]) → plain (Base (abs (segs ++ [s])) +:+ "-sconfigcontroller-").
Proof.
  intros Hp. rewrite Base_abs by done. apply Forall_app in Hp as [_ (H1 & _ & _ & H4)%Forall_singleton].
  assert (∀ c, s +:+ "-sconfigcontroller-" ≠ String c "" ∧ ∀ d, s +:+ "-sconfigcontroller-" ≠ String c (String d "")) as Hlen.
  { intros c. split; [|intros d]; intros H%(f_equal String.length); rewrite str_length_app in H; simpl in H; lia. }
  split_and!; [by intros [_ ?]%str_app_eq_nil|apply Hlen|apply Hlen|]. by rewrite no_char_app, H4.
Qed.
Lemma CreateTemp_tame d base :
  Forall plain d → plain base →
  tame (λ t, linkless t (P ++ d)) (CreateTemp pick (abs (P ++ d)) base)
    (λ r t, ∃ name, plain name ∧ r = (P ++ d ++ [name], abs (P ++ d ++ [name])) ∧ linkless t (P ++ d ++ [name])).
Proof.
  intros Hd Hb. apply tame_sys; [apply lasting_linkless|]. intros t _ Hl. destruct (resolve _ _ _) as [l|e|s] eqn:E; [|done..]. cbn [obind].
  apply resolve_at in E as ->; [|by apply plain_app|done]. destruct (node_at t (P ++ d)) as [[]|]; try done. destruct (negb _); [done|].
  pose proof (pick_plain t (P ++ d) base Hb) as Hn. destruct (node_at t _); [done|].
  rewrite path_Join_segment by (done || by apply plain_app). rewrite <-!app_assoc.
  assert (tame_change t (<[P ++ d ++ [pick t (P ++ d) base] := Regular "" 384]> t)) as Ht by (apply tame_insert, inside_app; by destruct d).
  split; [done|]. exists (pick t (P ++ d) base). split_and!; [done..|].
  pose proof (lookup_insert_eq t (P ++ d ++ [pick t (P ++ d) base]) (Regular "" 384)) as Hlk. set (t' := <[_ := _]> t) in *. clearbody t'.
  rewrite app_assoc in Hlk |- *. apply linkless_snoc; [by eapply tame_linkless|]. intros x [Hx _]. by rewrite Hlk in Hx.
Qed.
Lemma fill_tame segs content mode :
  Forall plain segs → segs ≠ [] → tame (λ t, linkless t (P ++ segs)) (fill (P ++ segs) (abs (P ++ segs)) content mode) (λ _ _, True).
Proof.
  intros Hs Hne. pose proof (lasting_linkless (P ++ segs)) as HL. eapply tame_try; [done|by apply tame_wrap, Write_tame, inside_app|].
  intros [[]|e].
  - apply tame_seq; [done|by apply tame_wrap, Close_tame|]. intros []. by apply tame_wrap, Chmod_tame.
  - eapply tame_try; [done|by apply Close_tame|]. intros [|]; apply tame_fail.
Qed.
Lemma pfs_PrepareNewFile_tame path content mode :
  segments path ≠ [] → tame (λ _, True) (pfs_PrepareNewFile (abs P) pick path content mode) (λ _ _, True).
Proof.
  intros Hne. eapply tame_bind; [apply lasting_True|apply addPrefix_tame, lasting_True|]. intros s w Hg (_ & -> & Hp & Hl).
  refine ((_ : tame (λ t, linkless t (P ++ segments path)) _ (λ _ _, True)) w Hg Hl). clear w Hg Hl.
  destruct (segments path) as [|seg d _] eqn:E using rev_ind; [done|]. rewrite app_assoc, Dir_abs by (rewrite <-app_assoc; by apply plain_app).
  rewrite Forall_app in Hp. destruct Hp as [Hd Hseg]. rewrite <-app_assoc.
  eapply tame_bind; [apply lasting_linkless| |].
  { apply tame_wrap. eapply tame_weaken; [apply (CreateTemp_tame d); [done|]| |].
    - rewrite app_assoc. apply plain_base. rewrite <-app_assoc. apply plain_app, Forall_app_2; done.
    - intros t. apply linkless_prefix. apply prefix_app, prefix_app_r. done.
    - intros r t H. exact H. }
  intros [l temp] w Hg (_ & name & Hname & [= -> ->] & Hl).
  assert (Forall plain (d ++ [name])) as Hp by (apply Forall_app_2; [done|by apply Forall_singleton]).
  assert (d ++ [name] ≠ []) as Hn by by destruct d.
  refine ((_ : tame (λ t, linkless t (P ++ d ++ [name])) _ (λ _ _, True)) w Hg Hl).
  eapply tame_try; [apply lasting_linkless|by apply fill_tame|].
  intros [[]|e].
  - unfold lift. intros w' Hg' _. destruct (removePrefix _ _); (split_and!; [done|apply tame_refl|done]).
  - eapply tame_try; [apply lasting_linkless|by apply os_Remove_tame|]. intros [|]; apply tame_fail.
Qed.

(** *** Renaming *)
Lemma moved_None a b (t : tree) q : ¬ b `prefix_of` q → moved a b t !! q = None.
Proof.
  intros Hq. apply not_elem_of_list_to_map_1. intros ([k n] & -> & Hin)%list_elem_of_fmap.
  apply list_elem_of_omap in Hin as ([k' n'] & _ & Hk). destruct (decide _); [|done]. injection Hk as <- <-. apply Hq. by eexists.
Qed.
Lemma others_lookup a b (t : tree) q : ¬ a `prefix_of` q → ¬ b `prefix_of` q → others a b t !! q = t !! q.
Proof.
  intros Ha Hb. unfold others. destruct (t !! q) as [n|] eqn:E; [by apply map_lookup_filter_Some|]. apply map_lookup_filter_None. by left.
Qed.
Lemma rename_outside mode s1 s2 t t' u :
  Forall plain s1 → Forall plain s2 → linkless t (P ++ s1) → linkless t (P ++ s2) →
  rename_tree mode (abs (P ++ s1)) (abs (P ++ s2)) t = Ok (t', u) → outside t t'.
Proof.
  intros H1 H2 L1 L2. unfold rename_tree. destruct (resolve t false (abs (P ++ s1))) as [a|e|s] eqn:Ea; [|done..].
  destruct (resolve t false (abs (P ++ s2))) as [b|e|s] eqn:Eb; [|done..]. cbn [obind].
  apply resolve_at in Ea as ->; [|by apply plain_app|done]. apply resolve_at in Eb as ->; [|by apply plain_app|done].
  destruct (node_at t (P ++ s1)) as [n|]; [|done]. destruct (decide (P ++ s1 = P ++ s2)); [destruct mode; by intros [= <- _]|].
  destruct (decide _) as [|Hn]; [done|]. intros Hr q Hq.
  assert (∀ s s', ¬ (P ++ s `prefix_of` P ++ s') → ¬ P ++ s `prefix_of` q) as Hout.
  { intros s s' Hss Hp. apply Hq. assert (s ≠ []) as Hs by (intros ->; apply Hss; rewrite app_nil_r; by eexists).
    destruct (inside_app s Hs) as [Hi Hne]. split; [by etransitivity|]. intros ->. apply Hne. by apply (anti_symm prefix). }
  assert (¬ P ++ s1 `prefix_of` q ∧ ¬ P ++ s2 `prefix_of` q) as [Hq1 Hq2] by (split; eapply Hout; naive_solver).
  assert (∀ m1 m2 : tree, m1 !! q = None → (m1 ∪ m2) !! q = m2 !! q) as Hun by (intros m1 m2 Hm; by apply lookup_union_r).
  destruct mode, (node_at t (P ++ s2)); try done; try (destruct (xorb _ _); [done|destruct (existsb _ _); [done|]]); injection Hr as <-;
    (rewrite ?Hun by (by apply moved_None)); by apply others_lookup.
Qed.
Definition confined {A} (Pre : tree → Prop) (m : M jworld A) : Prop :=
  ∀ w, good w → Pre (jw_tree w) → good (m w).1 ∧ outside (jw_tree w) (jw_tree (m w).1).
Lemma tame_confined {A} (Pre : tree → Prop) (m : M jworld A) Q : tame Pre m Q → confined Pre m.
Proof. intros Hm w Hg Hp. by destruct (Hm w Hg Hp) as (? & [? _] & _). Qed.
Lemma confined_bind {A B} (Pre : tree → Prop) (m : M jworld A) (k : A → M jworld B) Q :
  lasting Pre → tame Pre m Q → (∀ a, confined (λ t, Pre t ∧ Q a t) (k a)) → confined Pre (bind m k).
Proof.
  intros Hl Hm Hk w Hg Hp. destruct (Hm w Hg Hp) as (Hg' & Ht & HQ). unfold bind. destruct (m w) as [w' [a|e|s]]; cbn [fst snd] in *;
    [|by destruct Ht as [? _]..].
  destruct (Hk a w' Hg') as (Hg'' & Ho); [split; [by eapply Hl|by apply HQ]|]. split; [done|]. destruct Ht as [Ho' _].
  intros q Hq. by rewrite Ho, Ho'.
Qed.
(** A renaming that succeeds changes the jail only; one that fails changes nothing. *)
Lemma rename_sys (f : tree → outcome (tree * ())) (Pre : tree → Prop) w :
  (∀ t t' u, Pre t → f t = Ok (t', u) → outside t t') → lasting Pre → good w → Pre (jw_tree w) →
  let r := sys f w in good r.1 ∧ outside (jw_tree w) (jw_tree r.1) ∧ ((∀ a, r.2 ≠ Ok a) → tame_change (jw_tree w) (jw_tree r.1)).
Proof.
  intros Hf Hl Hg Hp. destruct (good_event w Hg) as (Ht & Hd & Hb). unfold sys. set (t := foldl _ _ _) in *. specialize (Hl _ _ Ht Hp).
  pose proof Ht as [Ho _]. destruct (je_fault _); [by split_and!|]. destruct (f t) as [[t' a]|e|s] eqn:E; [|by split_and!..].
  specialize (Hf t t' a Hl E). split_and!; [|intros q Hq; by rewrite Hf, Ho|intros Ha; by destruct (Ha a)].
  split; [|done]. intros q Hq Hn. cbn. rewrite Hf by by apply prefix_outside. by apply Hd.
Qed.
Lemma rename_with_confined mode s1 s2 :
  Forall plain s1 → Forall plain s2 →
  confined (λ t, linkless t (P ++ s1) ∧ linkless t (P ++ s2)) (rename_with renameat2 mode (abs (P ++ s1)) (abs (P ++ s2))).
Proof.
  intros H1 H2 w Hg Hp. set (Pre := λ t : tree, linkless t (P ++ s1) ∧ linkless t (P ++ s2)) in *.
  assert (lasting Pre) as HL by (apply lasting_and; apply lasting_linkless).
  destruct (rename_sys (if renameat2 then rename_tree mode (abs (P ++ s1)) (abs (P ++ s2)) else λ _, Err ErrInvalid) Pre w)
    as (Hg' & Ho & Ht); [|done..|].
  { intros t t' u [? ?]. destruct renameat2; [by apply rename_outside|done]. }
  unfold rename_with, bind, attempt. destruct (sys _ w) as [w' [[]|e|s]]; cbn [fst snd] in *; [done| |done].
  destruct (isRenameNotSupported e); [|done]. assert (Pre (jw_tree w')) as Hp' by (eapply HL; [by apply Ht|done]).
  destruct (rename_sys (rename_tree Plain (abs (P ++ s1)) (abs (P ++ s2))) Pre w') as (Hg'' & Ho' & _); [|done..|].
  { intros t t' u [? ?]. by apply rename_outside. }
  split; [done|]. intros q Hq. unfold rename. by rewrite Ho', Ho.
Qed.
Lemma two_paths_confined mode p1 p2 :
  confined (λ _, True) (let! o := addPrefix (abs P) p1 in let! n := addPrefix (abs P) p2 in rename_with renameat2 mode o n).
Proof.
  eapply confined_bind; [apply lasting_True|apply addPrefix_tame, lasting_True|]. intros o w Hg (_ & -> & Hp1 & Hl1).
  refine ((_ : confined (λ t, linkless t (P ++ segments p1)) _) w Hg Hl1). clear w Hg Hl1.
  eapply confined_bind; [apply lasting_linkless|apply addPrefix_tame, lasting_linkless|]. intros n w Hg (Hl1 & -> & Hp2 & Hl2).
  by apply rename_with_confined.
Qed.
(** A path of an operation that needs a name: the file, not the jail itself. *)
Definition named (op : Fs) : Prop :=
  match op with OpPrepareNewFile path _ _ | OpRemove path => segments path ≠ [] | _ => True end.
Lemma perform_confined op : named op → confined (λ _, True) (perform (abs P) renameat2 pick op).
Proof.
  intros Hn. destruct op; cbn [perform].
  - eapply tame_confined, pfs_MkdirAll_tame.
  - eapply tame_confined, tame_seq; [apply lasting_True|by apply pfs_PrepareNewFile_tame|]. intros ?. by apply (tame_ret _ _ (λ _ _, True)).
  - apply two_paths_confined.
  - apply two_paths_confined.
  - by eapply tame_confined, pfs_Remove_tame.
Qed.
(** C8: the jail is not left.  Whatever sequence of operations is asked for, with whatever paths and contents, while other processes
    write into the jail and any system call may fail: when the path to the jail is made of directories and nobody puts a
    symbolic link into the jail meanwhile (the links that are there already may point anywhere), nothing outside of the jail changes,
    and the jail directory itself stays.  A file that is prepared or removed must have a name: see [root_path_escapes]. *)
Theorem jail_confined (ops : list Fs) (w : jworld) :
  good w → Forall named ops → outside (jw_tree w) (jw_tree (perform_all (abs P) renameat2 pick ops w)).
Proof.
  intros Hg Hn. revert w Hg. induction Hn as [|op ops Hop Hn IH]; intros w Hg; [done|]. unfold perform_all. cbn [foldl].
  destruct (perform_confined op Hop w Hg I) as [Hg' Ho]. intros q Hq. etransitivity; [exact (IH _ Hg' q Hq)|by apply Ho].
Qed.
End confinement.

(** ** The names that are given back *)
Lemma sys_quiet {A} (f : tree → outcome (tree * A)) t :
  sys f (JWorld t []) = match f t with Ok (t', a) => (JWorld t' [], Ok a) | Err e => (JWorld t [], Err e) | Halt s => (JWorld t [], Halt s) end.
Proof. unfold sys. cbn. by destruct (f t) as [[t' a]|e|s]. Qed.
Lemma lstat_quiet follow path t : (sys (lookup_node follow path) (JWorld t [])).1 = JWorld t [].
Proof. rewrite sys_quiet. unfold lookup_node. destruct (resolve _ _ _) as [l| |]; cbn; [|done..]. by destruct (node_at t l). Qed.
Lemma check_quiet Prefix segs acc t : (check_segments Prefix acc segs (JWorld t [])).1 = JWorld t [].
Proof.
  revert acc. induction segs as [|seg segs IH]; intros acc; [done|]. cbn [check_segments]. destruct (_ || _); [done|].
  destruct (String.eqb _ _); [apply IH|]. unfold bind, attempt, Lstat. pose proof (lstat_quiet false (path_Join [acc; seg]) t) as Hq.
  destruct (sys _ _) as [w [n|e|s]]; cbn [fst] in Hq; subst w; [by destruct n|by destruct (bool_decide _)|done].
Qed.
Lemma addPrefix_quiet Prefix path t : (addPrefix Prefix path (JWorld t [])).1 = JWorld t [].
Proof.
  unfold addPrefix, checkPath, bind. destruct (negb _); [done|]. pose proof (check_quiet Prefix (Split path slash) Prefix t) as Hq.
  destruct (check_segments _ _ _ _) as [w []]; cbn in Hq; by subst w.
Qed.
Lemma proper_trans q l l' : proper q l → l `prefix_of` l' → proper q l'.
Proof. intros (H1 & H2 & H3) Hl. split_and!; [by transitivity l| |done]. intros ->. apply H2. by apply (anti_symm prefix). Qed.
(** A path to a file through directories passes. *)
Lemma check_passes P d segs t data mode :
  Forall plain (P ++ d ++ segs) → (∀ q, proper q (P ++ d ++ segs) → t !! q = Some Directory) →
  t !! (P ++ d ++ segs) = Some (Regular data mode) → segs ≠ [] →
  check_segments (abs P) (abs (P ++ d)) segs (JWorld t []) = (JWorld t [], Ok tt).
Proof.
  revert d. induction segs as [|seg segs IH]; intros d Hp Hd Hf Hne; [done|]. cbn [check_segments].
  pose proof Hp as [HP [Hpd [Hseg Hps]%Forall_cons]%Forall_app]%Forall_app. pose proof Hseg as (_ & H1 & H2 & _).
  apply String.eqb_neq in H1, H2. rewrite H1, H2. cbn [orb]. rewrite path_Join_segment by (done || by apply Forall_app). rewrite <-app_assoc.
  destruct (String.eqb_spec (abs (P ++ d ++ [seg])) (abs P)) as [He|_].
  { exfalso. apply abs_inj in He; [|rewrite !Forall_app, Forall_singleton; done|done]. apply (f_equal length) in He. rewrite !length_app in He. simpl in He. lia. }
  rewrite cons_middle in Hp, Hd, Hf. assert (P ++ d ++ [seg] `prefix_of` P ++ d ++ [seg] ++ segs) as Hpre by (exists segs; by rewrite <-!app_assoc).
  assert (∃ n, t !! (P ++ d ++ [seg]) = Some n ∧ ∀ x, n ≠ Symlink x) as (n & Hn & Hnl).
  { destruct segs as [|s2 segs]; [rewrite app_nil_r in Hf; by eexists|]. eexists. split; [apply Hd|done].
    split_and!; [done| |by destruct P, d]. intros He%(f_equal length). rewrite !length_app in He. simpl in He. lia. }
  assert (resolve t false (abs (P ++ d ++ [seg])) = Ok (P ++ d ++ [seg])) as Hr.
  { destruct (resolve_abs t false (P ++ d ++ [seg])) as [[H _]|(e & _ & q & Hq & Hq')]; [| |done|].
    - rewrite !Forall_app, Forall_singleton. done.
    - intros q s Hq Hqn [Hs _]. unfold up in Hq. rewrite Hd in Hs; [done|]. eapply proper_trans; [|done].
      split_and!; [etransitivity; [done|]; exists (drop (pred (length (P ++ d ++ [seg]))) (P ++ d ++ [seg])); by rewrite take_drop| |done].
      intros ->. apply prefix_length in Hq. rewrite length_take, !length_app in Hq. simpl in Hq. lia.
    - destruct Hq'. apply Hd. by eapply proper_trans. }
  unfold bind, attempt, Lstat. rewrite sys_quiet. unfold lookup_node. rewrite Hr. cbn [obind]. rewrite app_assoc, node_at_snoc, <-app_assoc, Hn.
  assert (check_segments (abs P) (abs (P ++ d ++ [seg])) segs (JWorld t []) = (JWorld t [], Ok tt)) as Hrest.
  { destruct (decide (segs = [])) as [->|?]; [done|]. apply IH; rewrite <-?app_assoc; done. }
  destruct n as [| |x]; [done|done|by destruct (Hnl x)].
Qed.
Lemma removePrefix_abs P segs : P ≠ [] → segs ≠ [] → removePrefix (abs P) (abs (P ++ segs)) = Ok (abs segs).
Proof.
  intros HP Hs. assert (abs (P ++ segs) = abs P +:+ abs segs) as ->.
  { unfold abs. induction P as [|x P IH]; [done|]. destruct P as [|y P].
    - destruct segs; [done|]. cbn. by rewrite str_app_nil_r || done.
    - cbn [app Join] in *. rewrite !str_app_assoc. specialize (IH ltac:(done)). rewrite !str_app_assoc in IH. by rewrite IH. }
  unfold removePrefix. by rewrite HasPrefix_app, TrimPrefix_app.
Qed.
Lemma addPrefix_file P segs t data mode :
  Forall plain P → Forall plain segs → segs ≠ [] → (∀ q, proper q (P ++ segs) → t !! q = Some Directory) →
  t !! (P ++ segs) = Some (Regular data mode) →
  addPrefix (abs P) (abs segs) (JWorld t []) = (JWorld t [], Ok (abs (P ++ segs))).
Proof.
  intros HP Hs Hne Hd Hf. unfold addPrefix, checkPath, bind. rewrite IsAbs_abs. cbn [negb].
  assert (Split (abs segs) slash = "" :: segs) as HS.
  { unfold abs. change ("/" +:+ Join segs "/") with (String "/" (Join segs "/")). cbn [Split]. change (Ascii.eqb "/" slash) with true. cbv iota.
    rewrite Split_Join; [done|done|]. eapply Forall_impl; [exact Hs|]. intros x (_ & _ & _ & Hx). exact Hx. }
  rewrite HS. cbn [check_segments]. change (String.eqb "" "." || String.eqb "" "..") with false. cbv iota.
  rewrite path_Join_empty, String.eqb_refl by done. pose proof (check_passes P [] segs t data mode) as Hc. cbn [app] in Hc.
  rewrite app_nil_r in Hc. rewrite Hc by (done || by apply Forall_app).
  rewrite path_Join_abs, segments_abs by (done || (rewrite HS; constructor; [done|by apply dotless_plain])). done.
Qed.
Lemma resolve_file l t data mode :
  Forall plain l → l ≠ [] → (∀ q, proper q l → t !! q = Some Directory) → t !! l = Some (Regular data mode) → resolve t true (abs l) = Ok l.
Proof.
  intros Hp Hne Hd Hf. destruct (resolve_abs t true l) as [[H _]|(e & _ & q & Hq & Hq')]; [done| |done|by destruct Hq'; apply Hd].
  intros q s Hq Hn [Hs _]. destruct (decide (q = l)) as [->|?]; [congruence|]. by rewrite Hd in Hs.
Qed.
Lemma fill_quiet l t content mode data m0 :
  Forall plain l → l ≠ [] → (∀ q, proper q l → t !! q = Some Directory) → t !! l = Some (Regular data m0) →
  fill l (abs l) content mode (JWorld t []) = (JWorld (<[l := Regular content mode]> t) [], Ok tt).
Proof.
  intros Hp Hne Hd Hf. set (t1 := <[l := Regular content m0]> t).
  assert (wrapM "write temp file" (Write l content) (JWorld t []) = (JWorld t1 [], Ok tt)) as HW.
  { apply wrapM_ok. unfold Write. by rewrite sys_quiet, Hf. }
  assert (wrapM "close temp file" Close (JWorld t1 []) = (JWorld t1 [], Ok tt)) as HC by by apply wrapM_ok.
  assert (wrapM "chmod temp file" (Chmod (abs l) mode) (JWorld t1 []) = (JWorld (<[l := Regular content mode]> t) [], Ok tt)) as HM.
  { apply wrapM_ok. unfold Chmod. rewrite sys_quiet, (resolve_file l _ content m0); [|done|done| |by apply lookup_insert_eq].
    - cbn [obind]. unfold node_at, t1. destruct l; [done|]. rewrite lookup_insert_eq. by rewrite insert_insert_eq.
    - intros q Hq. unfold t1. rewrite lookup_insert_ne; [by apply Hd|]. intros ->. by destruct Hq as (_ & ? & _). }
  unfold fill, bind, attempt. by rewrite HW, HC.
Qed.
(** A prepared file can be used.  In a jail that nobody else writes, with no failing call: when [PrepareNewFile] returns a name, the
    name passes the check of the other operations, with the prefix it is a file in the directory of the old one, and
    that file has the content and the mode that were asked for. *)
Theorem prepared_file_found (P : loc) (pick : tree → loc → string → string) (t : tree) (path content temp : string) (mode : Z) (w' : jworld) :
  Forall plain P → P ≠ [] → (∀ (t : tree) (d : loc) (base : string), plain base → plain (pick t d base)) → dirs t P → segments path ≠ [] →
  pfs_PrepareNewFile (abs P) pick path content mode (JWorld t []) = (w', Ok temp) →
  ∃ name, let l := P ++ up (segments path) ++ [name] in
    addPrefix (abs P) temp w' = (w', Ok (abs l)) ∧ jw_tree w' !! l = Some (Regular content mode).
Proof.
  intros HP HPne Hpick Hd Hne Hrun. assert (good P (JWorld t [])) as Hg by (split; [done|constructor]).
  unfold pfs_PrepareNewFile in Hrun. apply bind_inv in Hrun as (s & w1 & Ha & Hrun).
  pose proof (addPrefix_quiet (abs P) path t) as Hw1. rewrite Ha in Hw1. cbn in Hw1. subst w1.
  destruct (addPrefix_tame P HP (λ _, True) path ltac:(done) (JWorld t []) Hg I) as (_ & _ & HQ). rewrite Ha in HQ.
  destruct (HQ s eq_refl) as (-> & Hp & Hl). cbn in Hl. clear HQ Ha. destruct (segments path) as [|seg d _] using rev_ind; [done|].
  assert (up (d ++ [seg]) = d) as -> by (unfold up; rewrite length_app, Nat.add_comm; cbn; by rewrite take_app_length).
  apply Forall_app in Hp as [Hpd Hpseg]. assert (Forall plain (P ++ d)) as HPd by by apply Forall_app.
  assert (Forall plain ((P ++ d) ++ [seg])) as HPs by by apply Forall_app.
  rewrite app_assoc, Dir_abs in Hrun by done. apply bind_inv in Hrun as ([l tmp] & w2 & Hc & Hrun).
  apply wrapM_inv in Hc. unfold CreateTemp in Hc. rewrite sys_quiet in Hc.
  destruct (resolve_abs t true (P ++ d)) as [[Hr Hdirs]|(e & Hr & _)]; [done|by eapply linkless_prefix, Hl; rewrite app_assoc; eexists| |by rewrite Hr in Hc].
  rewrite Hr in Hc. cbn [obind] in Hc. destruct (node_at t (P ++ d)) as [[]|] eqn:En; try done. destruct (negb _); [done|].
  pose proof (Hpick t (P ++ d) _ (plain_base _ _ HPs)) as Hname. set (name := pick _ _ _) in *. exists name. cbn zeta.
  destruct (node_at t ((P ++ d) ++ [name])) eqn:Enew; [done|]. rewrite path_Join_segment in Hc by done. injection Hc as <- <- <-.
  assert (Forall plain ((P ++ d) ++ [name])) as HPn by (apply Forall_app_2; [done|by apply Forall_singleton]).
  rewrite app_assoc. set (L := (P ++ d) ++ [name]) in *. assert (L ≠ []) as HLne by (unfold L; by destruct (P ++ d)).
  assert (∀ m q, proper q L → (<[L := m]> t) !! q = Some Directory) as Hpr.
  { intros m q Hq. rewrite lookup_insert_ne by (intros ->; by destruct Hq as (_ & ? & _)). apply proper_snoc in Hq as [Hq Hqn].
    destruct (decide (q = P ++ d)) as [->|?]; [|by apply Hdirs]. unfold node_at in En. destruct (P ++ d); done. }
  unfold bind, attempt in Hrun. rewrite (fill_quiet L _ content mode "" 384) in Hrun; [|done|done|apply Hpr|by rewrite lookup_insert_eq].
  rewrite insert_insert_eq in Hrun. unfold lift in Hrun. assert (L = P ++ d ++ [name]) as HL by (unfold L; by rewrite app_assoc).
  rewrite HL, removePrefix_abs in Hrun by (done || by destruct d). injection Hrun as <- <-. rewrite HL. split.
  - apply addPrefix_file with content mode; [done|apply Forall_app_2; [done|by apply Forall_singleton]|by destruct d| |].
    + rewrite <-HL. intros q. apply Hpr.
    + by rewrite lookup_insert_eq.
  - cbn. by rewrite lookup_insert_eq.
Qed.

(** ** Examples *)
Definition ex_pick (t : tree) (d : loc) (base : string) : string := base +:+ "1".
Lemma ex_pick_plain (t : tree) (d : loc) (base : string) : plain base → plain (ex_pick t d base).
Proof.
  intros (H1 & H2 & H3 & H4). unfold ex_pick. split_and!.
  - by intros [? _]%str_app_eq_nil.
  - destruct base as [|c [|d' base]]; [done|done|]. by intros [= _ ?].
  - destruct base as [|c [|d' [|e base]]]; [done|by intros [= _ ?]|by intros [= _ _ ?]|by intros [= _ _ ?]].
  - by rewrite no_char_app, H4.
Qed.
Definition ex_jail : loc := ["mnt"; "jail"].
Definition ex_tree : tree :=
  list_to_map [(["mnt"], Directory); (ex_jail, Directory); (ex_jail ++ ["etc"], Directory); (ex_jail ++ ["evil"], Symlink "/etc"); (["etc"], Directory)].
Lemma ex_jail_dirs : dirs ex_tree ex_jail.
Proof.
  intros q [r Hr] Hq. destruct q as [|a [|b [|c q]]]; [done| | |]; cbn in Hr; injection Hr; intros; subst; try done.
Qed.
Lemma ex_jail_plain : Forall plain ex_jail.
Proof. unfold ex_jail. repeat constructor; done. Qed.
Lemma jail_confined_witness :
  outside ex_jail ex_tree
    (jw_tree (perform_all (abs ex_jail) true ex_pick
                [OpMkdirAll "/etc/slurm"; OpPrepareNewFile "/evil/passwd" "root" 420; OpPrepareNewFile "/etc/slurm/a.conf" "a" 420;
                 OpRenameNoReplace "/etc/slurm/a.conf-sconfigcontroller-1" "/etc/slurm/a.conf"; OpRemove "/evil"] (JWorld ex_tree []))).
Proof.
  apply (jail_confined ex_jail ex_jail_plain true ex_pick ex_pick_plain _ (JWorld ex_tree [])).
  - split; [exact ex_jail_dirs|constructor].
  - repeat constructor; vm_compute; discriminate.
Defined.
Example ex_written :
  let w := perform_all (abs ex_jail) true ex_pick
             [OpMkdirAll "/etc/slurm"; OpPrepareNewFile "/evil/passwd" "root" 420; OpPrepareNewFile "/etc/slurm/a.conf" "a" 420;
              OpRenameNoReplace "/etc/slurm/a.conf-sconfigcontroller-1" "/etc/slurm/a.conf"] (JWorld ex_tree []) in
  jw_tree w !! (ex_jail ++ ["etc"; "slurm"; "a.conf"]) = Some (Regular "a" 420) ∧ size (jw_tree w) = 7%nat.
Proof. vm_compute. done. Qed.
Lemma prepared_file_found_witness :
  ∃ name, let l := ex_jail ++ up (segments "/etc/a.conf") ++ [name] in
    let w' := (pfs_PrepareNewFile (abs ex_jail) ex_pick "/etc/a.conf" "a" 420 (JWorld ex_tree [])).1 in
    addPrefix (abs ex_jail) "/etc/a.conf-sconfigcontroller-1" w' = (w', Ok (abs l)) ∧ jw_tree w' !! l = Some (Regular "a" 420).
Proof.
  cbn zeta. apply (prepared_file_found ex_jail ex_pick ex_tree "/etc/a.conf" "a" "/etc/a.conf-sconfigcontroller-1" 420).
  - exact ex_jail_plain.
  - discriminate.
  - exact ex_pick_plain.
  - exact ex_jail_dirs.
  - vm_compute. discriminate.
  - vm_compute. reflexivity.
Defined.
(** The path of the jail itself passes the check, and the temporary file is created beside the jail; the name that is returned is of no use. *)
Example root_path_escapes :
  let '(w, r) := pfs_PrepareNewFile (abs ex_jail) ex_pick "/" "x" 420 (JWorld ex_tree []) in
  jw_tree w !! ["mnt"; "jail-sconfigcontroller-1"] = Some (Regular "x" 420) ∧ r = Ok "-sconfigcontroller-1" ∧
  (pfs_Remove (abs ex_jail) "-sconfigcontroller-1" w).2 = Err (ErrMsg "path is not absolute").
Proof. vm_compute. done. Qed.
(** A link that appears between the check and the use is followed. *)
Example race_escapes :
  let swap := JEvent [(ex_jail ++ ["etc"], Some (Symlink "/etc"))] None in
  let '(w, r) := pfs_PrepareNewFile (abs ex_jail) ex_pick "/etc/passwd" "x" 420 (JWorld ex_tree [JEvent [] None; JEvent [] None; swap]) in
  jw_tree w !! ["etc"; "passwd-sconfigcontroller-1"] = Some (Regular "x" 420).
Proof. vm_compute. done. Qed.
(** With a slash at the end of the jail's path, the names that are returned are relative, and no file can be replaced. *)
Example trailing_slash :
  let '(w, r) := pfs_PrepareNewFile "/mnt/jail/" ex_pick "/etc/a" "x" 420 (JWorld ex_tree []) in
  r = Ok "etc/a-sconfigcontroller-1" ∧ (pfs_RenameExchange "/mnt/jail/" true "etc/a-sconfigcontroller-1" "/etc/a" w).2 = Err (ErrMsg "path is not absolute").
Proof. vm_compute. done. Qed.
