(* ===== verification/ActiveCheckJobs.v ===== *)
(** * Jobs of active checks

    [internal/controller/soperatorchecks/activecheck_jobs_controller.go].  An active check is run by a Kubernetes Job; a check of type
    [slurmJob] submits Slurm jobs from it and leaves their IDs in an annotation of the Job.  The controller follows those jobs in the
    accounting database, carries out the reactions to the ones that ended (draining or commenting their nodes), remembers
    in the Job's annotations how far it got, and sums the run up in the status of the ActiveCheck.

    Kubernetes objects live in the world of [Reconciler.v]; requests to Slurm are logged when they are sent. *)
From S2P Require Import Prelude GoStrings Effects Reconciler Patchers Naming Workers SlurmNode SlurmJob.
From Stdlib Require Import Ascii.
From Stdlib Require String.

(** ** Data *)
(** *** Status of an ActiveCheck *)
Record JobAndReason := mkJobAndReason { jr_JobID : string; jr_Reason : string }.
Record ActiveCheckSlurmJobsStatus := mkSlurmJobsStatus {
  LastTransitionTime : option Z;               (* [None] is the zero time *)
  LastRunId : string; LastRunName : string; LastRunStatus : string;
  LastRunFailJobsAndReasons : list JobAndReason; LastRunErrorJobsAndReasons : list JobAndReason;
  LastRunCancelledJobs : list string; LastRunSubmitTime : option Z }.
Record ActiveCheckK8sJobsStatus := mkK8sJobsStatus {
  k8s_LastTransitionTime : option Z; LastJobScheduleTime : option Z; LastJobSuccessfulTime : option Z;
  LastJobName : string; LastJobStatus : string }.
Global Instance JobAndReason_eq_dec : EqDecision JobAndReason.
Proof. solve_decision. Defined.
Global Instance ActiveCheckK8sJobsStatus_eq_dec : EqDecision ActiveCheckK8sJobsStatus.
Proof. solve_decision. Defined.

Definition ActiveCheckK8sJobStatusActive : string := "Active".
Definition ActiveCheckK8sJobStatusPending : string := "Pending".
Definition ActiveCheckK8sJobStatusComplete : string := "Complete".
Definition ActiveCheckK8sJobStatusFailed : string := "Failed".
Definition ActiveCheckK8sJobStatusSuspended : string := "Suspended".
Definition ActiveCheckK8sJobStatusUnknown : string := "Unknown".
Definition ActiveCheckSlurmRunStatusInProgress : string := "InProgress".
Definition ActiveCheckSlurmRunStatusComplete : string := "Complete".
Definition ActiveCheckSlurmRunStatusFailed : string := "Failed".
Definition ActiveCheckSlurmRunStatusCancelled : string := "Cancelled".
Definition ActiveCheckSlurmRunStatusError : string := "Error".
Definition ActiveCheckSlurmRunStatusSkipped : string := "Skipped".

(** The JSON of the two parts of the status, and back. *)
Definition field_time (b : fields) (p : path) : option Z :=
  match b !! p with Some (VInt z) => Some z | _ => None end.
Definition time_at (p : path) (t : option Z) : list (path * value) :=
  match t with Some z => [(p, VInt z)] | None => [] end.
Definition job_row (j : JobAndReason) : list (string * string) := [("jobID", jr_JobID j); ("reason", jr_Reason j)].
Definition row_field (k : string) (row : list (string * string)) : string :=
  match list_find (λ kv, kv.1 = k) row with Some (_, (_, v)) => v | None => "" end.
Definition row_job (row : list (string * string)) : JobAndReason :=
  mkJobAndReason (row_field "jobID" row) (row_field "reason" row).
Definition SlurmJobsStatus_fields (s : ActiveCheckSlurmJobsStatus) : fields := list_to_map
  ([(["slurmJobsStatus"; "lastRunId"], VStr (LastRunId s)); (["slurmJobsStatus"; "lastRunName"], VStr (LastRunName s));
    (["slurmJobsStatus"; "lastRunStatus"], VStr (LastRunStatus s));
    (["slurmJobsStatus"; "lastRunFailJobsAndReasons"], VRows (job_row <$> LastRunFailJobsAndReasons s));
    (["slurmJobsStatus"; "lastRunErrorJobsAndReasons"], VRows (job_row <$> LastRunErrorJobsAndReasons s));
    (["slurmJobsStatus"; "lastRunCancelledJobs"], VStrs (LastRunCancelledJobs s))] ++
   time_at ["slurmJobsStatus"; "lastRunSubmitTime"] (LastRunSubmitTime s) ++
   time_at ["slurmJobsStatus"; "lastTransitionTime"] (LastTransitionTime s)).
Definition SlurmJobsStatus (st : fields) : ActiveCheckSlurmJobsStatus :=
  {| LastTransitionTime := field_time st ["slurmJobsStatus"; "lastTransitionTime"];
     LastRunId := field_str st ["slurmJobsStatus"; "lastRunId"];
     LastRunName := field_str st ["slurmJobsStatus"; "lastRunName"];
     LastRunStatus := field_str st ["slurmJobsStatus"; "lastRunStatus"];
     LastRunFailJobsAndReasons := row_job <$> field_rows st ["slurmJobsStatus"; "lastRunFailJobsAndReasons"];
     LastRunErrorJobsAndReasons := row_job <$> field_rows st ["slurmJobsStatus"; "lastRunErrorJobsAndReasons"];
     LastRunCancelledJobs := field_strs st ["slurmJobsStatus"; "lastRunCancelledJobs"];
     LastRunSubmitTime := field_time st ["slurmJobsStatus"; "lastRunSubmitTime"] |}.
Definition K8sJobsStatus_fields (s : ActiveCheckK8sJobsStatus) : fields := list_to_map
  ([(["k8sJobsStatus"; "lastJobName"], VStr (LastJobName s)); (["k8sJobsStatus"; "lastJobStatus"], VStr (LastJobStatus s))] ++
   time_at ["k8sJobsStatus"; "lastJobScheduleTime"] (LastJobScheduleTime s) ++
   time_at ["k8sJobsStatus"; "lastJobSuccessfulTime"] (LastJobSuccessfulTime s) ++
   time_at ["k8sJobsStatus"; "lastTransitionTime"] (k8s_LastTransitionTime s)).
Definition K8sJobsStatus (st : fields) : ActiveCheckK8sJobsStatus :=
  {| k8s_LastTransitionTime := field_time st ["k8sJobsStatus"; "lastTransitionTime"];
     LastJobScheduleTime := field_time st ["k8sJobsStatus"; "lastJobScheduleTime"];
     LastJobSuccessfulTime := field_time st ["k8sJobsStatus"; "lastJobSuccessfulTime"];
     LastJobName := field_str st ["k8sJobsStatus"; "lastJobName"];
     LastJobStatus := field_str st ["k8sJobsStatus"; "lastJobStatus"] |}.
Definition set_SlurmJobsStatus (s : ActiveCheckSlurmJobsStatus) (check : resource) : resource :=
  with_status (copy_field (SlurmJobsStatus_fields s) (o_status check) ["slurmJobsStatus"]) check.
Definition set_K8sJobsStatus (s : ActiveCheckK8sJobsStatus) (check : resource) : resource :=
  with_status (copy_field (K8sJobsStatus_fields s) (o_status check) ["k8sJobsStatus"]) check.

(** *** Spec of an ActiveCheck *)
Record Reactions := mkReactions { DrainReasonPrefix : option string; CommentPrefix : option string }.
(** [None] when the object is absent: here, when nothing is set below it. *)
Definition reactions_at (b : fields) (p : path) : option Reactions :=
  match field_optstr b (p ++ ["drainSlurmNode"; "drainReasonPrefix"]),
        field_optstr b (p ++ ["commentSlurmNode"; "commentPrefix"]) with
  | None, None => None
  | d, c => Some (mkReactions d c)
  end.
Definition FailureReactions (check : resource) : option Reactions := reactions_at (o_body check) ["spec"; "failureReactions"].
Definition SuccessReactions (check : resource) : option Reactions := reactions_at (o_body check) ["spec"; "successReactions"].
Definition CheckType (check : resource) : string := field_str (o_body check) ["spec"; "checkType"].
Definition SlurmClusterRefName (check : resource) : string := field_str (o_body check) ["spec"; "slurmClusterRefName"].

(** *** Annotations and labels *)
Definition K8sAnnotationSoperatorChecksFinalStateTime : string := "soperator-checks-final-state-time".
Definition ActiveCheckSkippedReasonAnnotation : string := "slurm-skipped-reason".
Definition AnnotationActiveCheckName : string := "slurm.nebius.ai/activecheck".
Definition slurm_job_id : string := "slurm-job-id".
Definition unhandled_slurm_job_id : string := "unhandled-slurm-job-id".

(** ** The world *)
(** [V0044UpdateNodeMsg], as far as it is filled in: the reason, the state [DRAIN], the comment. *)
Record update_node := UpdateNode {
  up_cluster : string * string; up_node : string; up_Reason : option string; up_Drain : bool; up_Comment : option string }.
Record acworld := ACWorld { aw_api : cluster_state; aw_now : Z; aw_ticks : list Z; aw_log : list update_node }.
Definition k8s {A} (m : M cluster_state A) : M acworld A := λ w,
  let '(s, r) := m (aw_api w) in (ACWorld s (aw_now w) (aw_ticks w) (aw_log w), r).
(** Time passes before each reading of the clock. *)
Definition metav1_Now : M acworld Z := λ w,
  let now := (aw_now w + default 0 (head (aw_ticks w)))%Z in
  (ACWorld (aw_api w) now (tail (aw_ticks w)) (aw_log w), Ok now).

(** ** Status of a Kubernetes job *)
Fixpoint conditionStatus (conds : list Condition) : option string :=
  match conds with
  | [] => None
  | c :: conds =>
      if String.eqb (c_Status c) "True" then
        if String.eqb (c_Type c) "Complete" || String.eqb (c_Type c) "SuccessCriteriaMet" then Some ActiveCheckK8sJobStatusComplete
        else if String.eqb (c_Type c) "Failed" || String.eqb (c_Type c) "FailureTarget" then Some ActiveCheckK8sJobStatusFailed
        else if String.eqb (c_Type c) "Suspended" then Some ActiveCheckK8sJobStatusSuspended
        else conditionStatus conds
      else conditionStatus conds
  end.
Definition getK8sJobStatus (job : resource) : string :=
  let active := field_int (o_status job) ["active"] in
  let conds := field_conds (o_status job) ["conditions"] in
  if (0 <? active)%Z then ActiveCheckK8sJobStatusActive
  else match conditionStatus conds with
       | Some s => s
       | None => if (active =? 0)%Z && bool_decide (conds = []) then ActiveCheckK8sJobStatusPending
                 else ActiveCheckK8sJobStatusUnknown
       end.
Definition isValidJob (labels : gmap string string) : bool :=
  match labels !! LabelComponentKey with
  | Some v => String.eqb v (ComponentType_String ComponentTypeSoperatorChecks)
  | None => false
  end.
Definition deriveSlurmRunStatus (requeue : bool) (failJobsAndReasons errorJobsAndReasons : list JobAndReason)
    (cancelledJobs : list string) : string :=
  if requeue then ActiveCheckSlurmRunStatusInProgress
  else if negb (bool_decide (failJobsAndReasons = [])) then ActiveCheckSlurmRunStatusFailed
  else if negb (bool_decide (errorJobsAndReasons = [])) then ActiveCheckSlurmRunStatusError
  else if negb (bool_decide (cancelledJobs = [])) then ActiveCheckSlurmRunStatusCancelled
  else ActiveCheckSlurmRunStatusComplete.

(** ** The controller *)
Section controller.
  (** The clusters with a Slurm client, what the accounting database answers to a job ID in this pass, the answer to
      a POST after the requests sent so far, the order in which Go ranges over the map of unhandled IDs, and the
      configured delay. *)
  Context (clients : list (string * string)) (accounting : string → response (body V0044Job)).
  Context (slurm_post : list update_node → update_node → response (option (list string))).
  Context (range : gset string → list string) (requeueAfter : Z).

(** *** Reactions *)
Definition postNode (u : update_node) : M acworld () := λ w,
  let w' := ACWorld (aw_api w) (aw_now w) (aw_ticks w) (aw_log w ++ [u]) in
  match slurm_post (aw_log w) u with
  | NoResponse e => (w', Err (ErrWrap "post update slurm node" e))
  | NoJSON200 => (w', Halt "nil pointer dereference")
  | JSON200 errs => if has_errors errs then (w', Err (ErrMsg "post update returned errors")) else (w', Ok tt)
  end.
(** The prefix, when it is set and not empty. *)
Definition prefixed (prefix : option string) (message : string) : option string :=
  match prefix with
  | Some p => if String.eqb p "" then None else Some (p +:+ " " +:+ message)
  | None => None
  end.
Definition reaction (cl : string * string) (checkName : string) (r : Reactions) (j : Job) (node : string) : update_node :=
  let failureMessage := checkName +:+ ": job " +:+ Itoa (job_ID j) +:+ " [slurm_job]" in
  let reason := prefixed (DrainReasonPrefix r) failureMessage in
  UpdateNode cl node reason (bool_decide (is_Some reason)) (prefixed (CommentPrefix r) failureMessage).
Definition updateSlurmNodeWithReactions (cl : string * string) (checkName : string) (r : Reactions) (j : Job) : M acworld () :=
  let! nodes := wrapM "get node list" (lift (GetNodeList j)) in
  forM nodes (λ node, postNode (reaction cl checkName r j node)).
Definition reacts (r : Reactions) : bool :=
  bool_decide (is_Some (prefixed (DrainReasonPrefix r) "")) || bool_decide (is_Some (prefixed (CommentPrefix r) "")).
Definition executeReactions (cl : string * string) (checkName : string) (reactions : option Reactions) (j : Job) : M acworld () :=
  match reactions with
  | None => ret tt
  | Some r => if reacts r then wrapM "update slurm node with reaction" (updateSlurmNodeWithReactions cl checkName r j)
              else ret tt
  end.

(** *** The loop over the jobs *)
Record scan := Scan {
  sc_Name : string; sc_SubmitTime : option Z;
  sc_fail : list JobAndReason; sc_error : list JobAndReason; sc_cancelled : list string;
  sc_unhandled : gset string; sc_requeue : bool; sc_latest : Z }.
Definition and_reason (j : Job) : JobAndReason := mkJobAndReason (Itoa (job_ID j)) (job_StateReason j).
Definition stillUnhandled (id : string) (s : scan) : scan :=
  Scan (sc_Name s) (sc_SubmitTime s) (sc_fail s) (sc_error s) (sc_cancelled s) ({[id]} ∪ sc_unhandled s) true (sc_latest s).
Definition noteFirst (first : string) (j : Job) (s : scan) : scan :=
  if String.eqb (Itoa (job_ID j)) first then
    Scan (job_Name j) (job_SubmitTime j) (sc_fail s) (sc_error s) (sc_cancelled s) (sc_unhandled s) (sc_requeue s) (sc_latest s)
  else s.
(** What a job that ended adds to the lists. *)
Definition record_end (j : Job) (endTime : Z) (s : scan) : scan :=
  let latest := Z.max (sc_latest s) endTime in
  if IsFailedState j then
    Scan (sc_Name s) (sc_SubmitTime s) (sc_fail s ++ [and_reason j]) (sc_error s) (sc_cancelled s) (sc_unhandled s) (sc_requeue s) latest
  else if IsCancelledState j then
    Scan (sc_Name s) (sc_SubmitTime s) (sc_fail s) (sc_error s) (sc_cancelled s ++ [Itoa (job_ID j)]) (sc_unhandled s) (sc_requeue s) latest
  else if IsCompletedState j then
    Scan (sc_Name s) (sc_SubmitTime s) (sc_fail s) (sc_error s) (sc_cancelled s) (sc_unhandled s) (sc_requeue s) latest
  else
    Scan (sc_Name s) (sc_SubmitTime s) (sc_fail s) (sc_error s ++ [and_reason j]) (sc_cancelled s) (sc_unhandled s) (sc_requeue s) latest.
Definition react (cl : string * string) (check : resource) (j : Job) : M acworld () :=
  if IsFailedState j then
    wrapM "executing failure reactions" (executeReactions cl (o_name check) (FailureReactions check) j)
  else if IsCancelledState j then ret tt
  else if IsCompletedState j then
    wrapM "executing success reactions" (executeReactions cl (o_name check) (SuccessReactions check) j)
  else ret tt.
Definition handleJob (cl : string * string) (check : resource) (first : string) (lastHandled : Z) (id : string)
    (s : scan) (j : Job) : M acworld scan :=
  let s := noteFirst first j s in
  match job_EndTime j with
  | Some endTime =>
      if negb (IsTerminalState j) then ret (stillUnhandled id s)
      else if (endTime <=? lastHandled)%Z then ret s
      else do! react cl check j; ret (record_end j endTime s)
  | None => ret (stillUnhandled id s)
  end.
Definition handleID (cl : string * string) (check : resource) (first : string) (lastHandled : Z) (s : scan) (id : string) :
    M acworld scan :=
  let! got := attempt (lift (GetJobsByIDFromAccounting (accounting id))) in
  match got with
  | inr _ | inl [] => ret (stillUnhandled id s)
  | inl jobs => foldM (handleJob cl check first lastHandled id) s jobs
  end.

(** *** Reconcile *)
Definition requeue_after : Type := option Z.
Definition getActiveCheckNameFromJob (job : resource) : M acworld (option string) :=
  let! pods := wrapM "failed to find pod for job" (k8s (client_List Pod (o_namespace job))) in
  match filter (λ p, o_labels p !! "job-name" = Some (o_name job)) pods with
  | [] => ret None
  | pod :: _ => ret (o_annotations pod !! AnnotationActiveCheckName)
  end.
Definition annotate (k v : string) (o : resource) : resource := with_annotations (<[k := v]> (o_annotations o)) o.
Definition LastScheduleTime (cronJob : resource) : option Z := field_time (o_status cronJob) ["lastScheduleTime"].
Definition LastSuccessfulTime (cronJob : resource) : option Z := field_time (o_status cronJob) ["lastSuccessfulTime"].
(** The status of a run that submitted nothing. *)
Definition no_slurm_job (job cronJob : resource) (status : string) (now : Z) : ActiveCheckSlurmJobsStatus :=
  mkSlurmJobsStatus (Some now) "No slurm job" (o_name job) status [] [] [] (LastScheduleTime cronJob).
Definition reconcileSkipped (job check cronJob : resource) : M acworld requeue_after :=
  let final := default "" (o_annotations job !! K8sAnnotationSoperatorChecksFinalStateTime) in
  if negb (String.eqb final "") then ret None
  else
    let status := getK8sJobStatus job in
    if negb (String.eqb status ActiveCheckK8sJobStatusComplete) && negb (String.eqb status ActiveCheckK8sJobStatusFailed)
    then ret (Some requeueAfter)
    else
      let! now := metav1_Now in
      let! _ := wrapM "updating ActiveCheck status to Skipped" (k8s (client_StatusUpdate
                  (set_SlurmJobsStatus (no_slurm_job job cronJob ActiveCheckSlurmRunStatusSkipped now) check))) in
      let! now := metav1_Now in
      let! _ := wrapM "patching k8s Job final-state-time"
                  (k8s (client_Patch job (annotate K8sAnnotationSoperatorChecksFinalStateTime (Itoa now) job))) in
      ret None.
Definition parseFinalStateTime (job : resource) : outcome Z :=
  match o_annotations job !! K8sAnnotationSoperatorChecksFinalStateTime with
  | None => Ok 0%Z
  | Some text =>
      if String.eqb text "" then Ok 0%Z
      else match ParseInt 64 text with
           | Some t => Ok t
           | None => Err (ErrWrap "parse final state time annotation" (ErrMsg "invalid syntax"))
           end
  end.
Definition reconcileSlurmJobs (job check : resource) : M acworld requeue_after :=
  let cl := (o_namespace job, SlurmClusterRefName check) in
  if negb (bool_decide (cl ∈ clients)) then fail (ErrMsg "slurm cluster not found")
  else
    match o_annotations job !! slurm_job_id with
    | None => ret None
    | Some allSlurmJobIDs =>
        let oldUnhandled := default allSlurmJobIDs (o_annotations job !! unhandled_slurm_job_id) in
        let oldUnhandledIDs := if String.eqb oldUnhandled "" then [] else Split oldUnhandled ","%char in
        let firstJobId := default "" (head (Split allSlurmJobIDs ","%char)) in
        let old := SlurmJobsStatus (o_status check) in
        let same := String.eqb (LastRunId old) firstJobId in
        let! lastHandled := lift (parseFinalStateTime job) in
        let start := Scan "" None
                       (if same then LastRunFailJobsAndReasons old else [])
                       (if same then LastRunErrorJobsAndReasons old else [])
                       (if same then LastRunCancelledJobs old else []) ∅ false lastHandled in
        let! s := foldM (handleID cl check firstJobId lastHandled) start oldUnhandledIDs in
        let marked := annotate unhandled_slurm_job_id (Join (range (sc_unhandled s)) ",") job in
        let marked := if (lastHandled <? sc_latest s)%Z
                      then annotate K8sAnnotationSoperatorChecksFinalStateTime (Itoa (sc_latest s)) marked else marked in
        let! _ := wrapM "failed to patch k8s Job" (k8s (client_Patch job marked)) in
        let! now := metav1_Now in
        let! _ := wrapM "reconciling ActiveCheckJob" (k8s (client_StatusUpdate (set_SlurmJobsStatus
                    (mkSlurmJobsStatus (Some now) firstJobId (sc_Name s)
                       (deriveSlurmRunStatus (sc_requeue s) (sc_fail s) (sc_error s) (sc_cancelled s))
                       (sc_fail s) (sc_error s) (sc_cancelled s) (sc_SubmitTime s)) check))) in
        ret (if sc_requeue s then Some requeueAfter else None)
    end.
Definition reconcileK8sJob (job check cronJob : resource) : M acworld requeue_after :=
  let newStatus := mkK8sJobsStatus None (LastScheduleTime cronJob) (LastSuccessfulTime cronJob) (o_name job) (getK8sJobStatus job) in
  let current := K8sJobsStatus (o_status check) in
  if decide (newStatus = mkK8sJobsStatus None (LastJobScheduleTime current) (LastJobSuccessfulTime current)
                           (LastJobName current) (LastJobStatus current)) then ret None
  else
    let! now := metav1_Now in
    let! _ := wrapM "reconciling ActiveCheckJob" (k8s (client_StatusUpdate (set_K8sJobsStatus
                (mkK8sJobsStatus (Some now) (LastJobScheduleTime newStatus) (LastJobSuccessfulTime newStatus)
                   (LastJobName newStatus) (LastJobStatus newStatus)) check))) in
    ret None.
Definition reconcileCheck (job check cronJob : resource) : M acworld requeue_after :=
  if String.eqb (CheckType check) "slurmJob" then
    match o_annotations job !! ActiveCheckSkippedReasonAnnotation with
    | Some _ => reconcileSkipped job check cronJob
    | None =>
        if String.eqb (getK8sJobStatus job) ActiveCheckK8sJobStatusFailed then
          let! now := metav1_Now in
          let! _ := wrapM "reconciling ActiveCheckJob" (k8s (client_StatusUpdate
                      (set_SlurmJobsStatus (no_slurm_job job cronJob ActiveCheckSlurmRunStatusError now) check))) in
          ret None
        else reconcileSlurmJobs job check
    end
  else if String.eqb (CheckType check) "k8sJob" then reconcileK8sJob job check cronJob
  else ret None.
(** [r.Get]; an object that is gone ends the pass without an error. *)
Definition found {A} (msg : string) (m : M acworld resource) (k : resource → M acworld (option A)) : M acworld (option A) :=
  let! got := attempt m in
  match got with
  | inl o => k o
  | inr e => if IsNotFound e then ret None else fail (if String.eqb msg "" then e else ErrWrap msg e)
  end.
Definition Job_Reconcile (namespace name : string) : M acworld requeue_after :=
  found "get active check job" (k8s (client_Get (BatchJob, namespace, name))) (λ job,
  let! checkName := getActiveCheckNameFromJob job in
  match checkName with
  | None => ret None
  | Some activeCheckName =>
      found "" (k8s (client_Get (ActiveCheck, namespace, activeCheckName))) (λ check,
      found "" (k8s (client_Get (CronJob, namespace, activeCheckName))) (λ cronJob,
      reconcileCheck job check cronJob))
  end).
End controller.
