(* ===== verification/ActiveCheckRuns.v ===== *)
(** * Runs of an active check

    What the jobs controller ([ActiveCheckJobs.v]) makes of a run over all its passes: every job that ends is counted and reacted to
    exactly once, however the ends are spread over the passes, and the status says so. *)
From S2P Require Import Prelude GoStrings Effects Reconciler Patchers QuietRuns Naming Workers HostList HostPattern Tres SlurmNode SlurmJob ActiveCheckJobs.
From Stdlib Require Import Ascii.
From Stdlib Require String.

Inductive ending := EndFailed | EndCancelled | EndCompleted | EndOther.
Global Instance ending_eq_dec : EqDecision ending.
Proof. solve_decision. Defined.





Section pass.
  Context (slurm_post : list update_node → update_node → response (option (list string))).
  (** Slurm accepts the updates. *)
  Context (accepts : ∀ l u, slurm_post l u = JSON200 None).
  Context (cl : string * string) (check : resource) (first : string).

End pass.






(** ** Passes *)
(** What has been learnt of the jobs behind each ID; an ID is asked for until all its jobs have ended. *)
Abbreviation knowledge := (string → list Job).
Abbreviation database := (string → response (body V0044Job)).






Section run.
  Context (clients : list (string * string)).
  Context (slurm_post : list update_node → update_node → response (option (list string))).
  Context (accepts : ∀ l u, slurm_post l u = JSON200 None).
  Context (range : gset string → list string) (range_perm : ∀ X, range X ≡ₚ elements X).
  Context (requeueAfter : Z) (namespace name : string) (check0 : resource) (ids : list string).






Definition pass (w : acworld) (accounting : database) : acworld :=
  (Job_Reconcile clients accounting slurm_post range requeueAfter namespace name w).1.

End run.


(** ** An example: two jobs, of which the first fails *)
Definition ex_row (id : Z) (state nodes : string) (end_ : Z) : V0044Job :=
  mkAPIJob (Some id) (Some "check") (Some (mkJobState (Some [state]) (Some "NonZeroExitCode"))) None None None None None None None
    (Some nodes) (Some 1%Z) None (Some (mkJobTime (Some 90%Z) (Some 95%Z) (Some end_) None)) None None.
Definition ex_first (id : string) : response (body V0044Job) :=
  if String.eqb id "7" then JSON200 (Body None [ex_row 7 "FAILED" "worker-0" 100])
  else JSON200 (Body None [ex_row 8 stateRUNNING "worker-1" 0]).
Definition ex_second (id : string) : response (body V0044Job) :=
  if String.eqb id "7" then NoResponse (ErrMsg "connection refused")
  else JSON200 (Body None [ex_row 8 "COMPLETED" "worker-1" 200]).
Definition ex_check : resource :=
  Obj (ActiveCheck, "ns", "gpu") 1 None ∅ ∅ ∅
    (list_to_map [(["spec"; "checkType"], VStr "slurmJob"); (["spec"; "slurmClusterRefName"], VStr "c");
                  (["spec"; "failureReactions"; "drainSlurmNode"; "drainReasonPrefix"], VStr "[HC]")]) ∅.
Definition ex_job : resource :=
  Obj (BatchJob, "ns", "gpu-1") 2 None ∅ (list_to_map [(slurm_job_id, "7,8")]) ∅ ∅ ∅.
Definition ex_cron : resource := Obj (CronJob, "ns", "gpu") 3 None ∅ ∅ ∅ ∅ ∅.
Definition ex_pod : resource :=
  Obj (Pod, "ns", "gpu-1-x") 4 None (list_to_map [("job-name", "gpu-1")])
    (list_to_map [(AnnotationActiveCheckName, "gpu")]) ∅ ∅ ∅.
Definition ex_world : acworld :=
  ACWorld (World 5 (<[o_key ex_check := ex_check]> (<[o_key ex_job := ex_job]> (<[o_key ex_cron := ex_cron]>
             (<[o_key ex_pod := ex_pod]> ∅)))) []) 1000 [] [].
Definition ex_post (_ : list update_node) (_ : update_node) : response (option (list string)) := JSON200 None.


(** ** What an orderly database hides *)
(** The status, the name of the run and the requests sent after some passes. *)
Definition ex_summary (w : acworld) (passes : list database) : option (string * string) * list update_node :=
  let w' := foldl (pass [("ns", "c")] ex_post elements 30 "ns" "gpu-1") w passes in
  ((λ check, let st := SlurmJobsStatus (o_status check) in (LastRunStatus st, LastRunName st)) <$>
     w_objects (aw_api w') !! (ActiveCheck, "ns", "gpu"), aw_log w').
(** The end of a job that is reported late, after that of a job that ended after it, is taken for one that was handled:
    the failure is neither reported nor reacted to. *)
Definition ex_late (id : string) : response (body V0044Job) :=
  if String.eqb id "7" then JSON200 (Body None [ex_row 7 "COMPLETED" "worker-0" 200])
  else JSON200 (Body None [ex_row 8 stateRUNNING "worker-1" 0]).
Definition ex_late_failure (_ : string) : response (body V0044Job) := JSON200 (Body None [ex_row 8 "FAILED" "worker-1" 150]).
Example late_failure_lost : ex_summary ex_world [ex_late; ex_late_failure] = (Some ("Complete", ""), []).
Proof. vm_compute. reflexivity. Qed.
(** The Job is marked before the status is written: when the status update is refused once, the failure is never
    reported. *)
Definition ex_conflict : acworld :=
  ACWorld (World (w_next (aw_api ex_world)) (w_objects (aw_api ex_world))
             (replicate 5 (Event [] None) ++ [Event [] (Some (Refused (ErrAPI Conflict)))])) 1000 [] [].
Example conflict_loses_failure :
  (ex_summary ex_world [ex_first; ex_second]).1 = Some ("Failed", "") ∧
  (ex_summary ex_conflict [ex_first; ex_second]).1 = Some ("Complete", "").
Proof. vm_compute. split; reflexivity. Qed.
(** The name of the run is forgotten once its first job has been handled. *)
Example run_name_forgotten :
  (ex_summary ex_world [ex_first]).1 = Some ("InProgress", "check") ∧
  (ex_summary ex_world [ex_first; ex_second]).1 = Some ("Failed", "").
Proof. vm_compute. split; reflexivity. Qed.
