(* ===== verification/StorageCheck.v ===== *)
(** * Ephemeral storage check

    [internal/controller/soperatorchecks/pod_ephemeral_storage_check.go] and the address resolution of [kubelet_stats_client.go].  For
    every worker pod the controller reads the use of ephemeral storage from the kubelet, and drains the Slurm node of a
    pod above one threshold and resumes it below another.

    Percentages are IEEE 754 binary64 numbers, computed with the Standard Library's specification of floating-point
    arithmetic.  What Kubernetes, the kubelet and Slurm answer are arguments that may depend on the requests sent so
    far; requests are logged when they are sent.  How a Slurm node changes when it is drained or resumed is a parameter
    ([SlurmReaction]) with the effect that Slurm's documentation of scontrol gives. *)
From S2P Require Import Prelude GoStrings Effects Naming SlurmNode NodeCache SlurmNodesCtl.
From Stdlib Require Import SpecFloat.
From Stdlib Require Import Ascii.
From Stdlib Require String.

(** ** Floating-point numbers *)
Definition float64 : Type := spec_float.
Definition prec : Z := 53.
Definition emax : Z := 1024.
(** [float64(n)] of an unsigned integer: the nearest number, ties to even. *)
Definition of_uint64 (n : Z) : float64 := binary_normalize prec emax n 0 false.
Definition fdiv : float64 → float64 → float64 := SFdiv prec emax.
Definition fmul : float64 → float64 → float64 := SFmul prec emax.
(** The exact value rounded to the nearest hundredth, ties to even. *)
Definition hundredths (m e : Z) : Z :=
  if (0 <=? e)%Z then (m * 2 ^ e * 100)%Z
  else let d := (2 ^ (- e))%Z in
       let q := (m * 100 / d)%Z in
       let r := (m * 100 mod d)%Z in
       if (d <? 2 * r)%Z || ((2 * r =? d)%Z && Z.odd q) then (q + 1)%Z else q.
(** [%.2f]. *)
Definition format2 (x : float64) : string :=
  match x with
  | S754_zero s => (if s then "-" else "") +:+ "0.00"
  | S754_infinity s => if s then "-Inf" else "+Inf"
  | S754_nan => "NaN"
  | S754_finite s m e =>
      let h := hundredths (Z.pos m) e in
      (if s then "-" else "") +:+ Itoa (h / 100) +:+ "." +:+ PadInt 2 (h mod 100)
  end.
Example format2_ex : map format2 [fmul (fdiv (of_uint64 9) (of_uint64 10)) (of_uint64 100); fdiv (of_uint64 1) (of_uint64 3);
                                  fdiv (of_uint64 1) (of_uint64 8); of_uint64 (2 ^ 64 - 1)]
  = ["90.00"; "0.33"; "0.12"; "18446744073709551616.00"].
Proof. reflexivity. Qed.

(** ** Data *)
Record worker_pod := mkPod {
  p_Name : string; p_Namespace : string; p_UID : string; p_ResourceVersion : string;
  p_Labels : gmap string string;
  p_OwnerReferences : list (string * string);      (* kind, API version *)
  p_Phase : string; p_NodeName : string;
  p_ContainerLimits : list (option Z);             (* ephemeral storage limit of each container, a quantity *)
  p_InitContainerLimits : list (option Z) }.
Record PodStats := mkPodStats { ps_Name : string; ps_Namespace : string; ps_UID : string; ps_UsedBytes : option Z }.
Record EphemeralStorageInfo := mkInfo {
  PodName : string; PodNamespace : string; NodeName : string; UsedBytes : Z; LimitBytes : Z; UsagePercent : float64 }.
Record k8s_event := mkEvent {
  ev_id : string; ev_PodName : string; ev_PodUID : string; ev_Reason : string; ev_Message : string;
  ev_Count : Z; ev_First : Z; ev_Last : Z }.
(** A node: its addresses (type, address) and the port of its kubelet, 0 when it is not advertised. *)
Record node_address := mkNodeAddress { na_Addresses : list (string * string); na_Port : Z }.
Inductive storage_command :=
| CreateEvent (e : k8s_event)
| UpdateEvent (e : k8s_event)
| PostDrain (cluster : string * string) (node reason : string)
| PostResume (cluster : string * string) (node : string).
(** *** The registry of Slurm clients ([internal/slurmapi/client_set.go]) *)
(** The clusters that have a client, and those whose node cache was started. *)
Record ClientSet := mkClientSet { slurmAPIClients : gset (string * string); nodeCaches : gset (string * string) }.
Definition NewClientSet : ClientSet := mkClientSet ∅ ∅.
Definition AddClient (cs : ClientSet) (name : string * string) : ClientSet :=
  mkClientSet ({[name]} ∪ slurmAPIClients cs) (nodeCaches cs).
Definition GetClient (cs : ClientSet) (name : string * string) : bool := bool_decide (name ∈ slurmAPIClients cs).
Definition GetNodeCache (cs : ClientSet) (name : string * string) : bool := bool_decide (name ∈ nodeCaches cs).
(** The registry afterwards, and whether there is a cache. *)
Definition EnsureNodeCache (cs : ClientSet) (name : string * string) : ClientSet * bool :=
  if GetNodeCache cs name then (cs, true)
  else if negb (GetClient cs name) then (cs, false)
  else (mkClientSet (slurmAPIClients cs) ({[name]} ∪ nodeCaches cs), true).

Record stworld := StWorld { st_set : ClientSet; st_log : list storage_command }.
Global Instance stworld_logged : Logged stworld storage_command := st_log.

Definition HighEphemeralStorageUsage : string := "HighEphemeralStorageUsage".

(** ** Pure parts *)
Definition isPodRelevant (pod : worker_pod) : bool :=
  String.eqb (default "" (p_Labels pod !! LabelWorkerKey)) "true" &&
  String.eqb (default "" (p_Labels pod !! LabelManagedByKey)) "slurm-operator" &&
  existsb (λ o, String.eqb o.1 "StatefulSet" && String.eqb o.2 "apps.kruise.io/v1beta1") (p_OwnerReferences pod).
(** The sum is an [int64], its conversion to [uint64] keeps the bits. *)
Definition addLimit (total : Z) (limit : option Z) : Z :=
  match limit with Some l => wrap 64 (total + Quantity_Value l) | None => total end.
Definition getEphemeralStorageLimitForPod (pod : worker_pod) : Z :=
  (foldl addLimit (foldl addLimit 0 (p_ContainerLimits pod)) (p_InitContainerLimits pod) mod 2 ^ 64)%Z.
Fixpoint kubeletAddress (hostname : string) (addresses : list (string * string)) : option string :=
  match addresses with
  | [] => if String.eqb hostname "" then None else Some hostname
  | (type, address) :: rest =>
      if String.eqb type "InternalIP" then
        if negb (String.eqb address "") then Some address else kubeletAddress hostname rest
      else if String.eqb type "Hostname" then kubeletAddress (if String.eqb hostname "" then address else hostname) rest
      else kubeletAddress hostname rest
  end.
Definition kubeletAddressForNode (node : node_address) : outcome (string * Z) :=
  match kubeletAddress "" (na_Addresses node) with
  | Some address => Ok (address, na_Port node)
  | None => Err (ErrMsg "resolve kubelet address: no internal IP or hostname")
  end.
Definition usagePercent (used limit : Z) : float64 := fmul (fdiv (of_uint64 used) (of_uint64 limit)) (of_uint64 100).
(** The figures of the pods in the map of [workerPods] by UID; later pods replace earlier ones. *)
Definition storageInfo (nodeName : string) (workerPodMap : gmap string worker_pod) (st : PodStats) : option EphemeralStorageInfo :=
  pod ← workerPodMap !! ps_UID st;
  let limit := getEphemeralStorageLimitForPod pod in
  if (limit =? 0)%Z then None
  else let used := default 0%Z (ps_UsedBytes st) in
       Some (mkInfo (ps_Name st) (ps_Namespace st) nodeName used limit (usagePercent used limit)).
Definition podMap (nodeName : string) (workerPods : list worker_pod) : gmap string worker_pod :=
  foldl (λ m pod, if String.eqb (p_NodeName pod) nodeName then <[p_UID pod := pod]> m else m) ∅ workerPods.
Definition isDrainedByEphemeralStorageCheck (node : Node) : bool :=
  IsDrainState node &&
  match node_Reason node with
  | None => false
  | Some r => HasPrefix (reason_Reason r) (SlurmUserReasonHC +:+ " pod_ephemeral_storage")
  end.
Definition drainMessage (usage : float64) (node : string) : string :=
  "pod_ephemeral_storage " +:+ format2 usage +:+ "% of ephemeral storage is used. Clean up volumes from 'ssh " +:+ node +:+
  " /opt/soperator_utils/fs_usage.sh -l', " +:+ "delete leftover containers from 'ssh " +:+ node +:+
  " enroot list' and 'ssh " +:+ node +:+ " docker ps -a', " +:+ "reboot the node using 'scontrol reboot " +:+ node +:+ "', " +:+
  "or stop-start the InstanceId from 'scontrol show node " +:+ node +:+
  "'. And 'scontrol update nodename=" +:+ node +:+ " state=resume' after resolving the issue.".
Definition eventMessage (info : EphemeralStorageInfo) : string :=
  "Pod " +:+ PodName info +:+ " in namespace " +:+ PodNamespace info +:+ " is using " +:+ format2 (UsagePercent info) +:+
  "% of its ephemeral storage limit (" +:+ Itoa (UsedBytes info) +:+ " bytes used, " +:+ Itoa (LimitBytes info) +:+ " bytes limit)".

(** ** The controller *)
Section controller.
  Context (usageThreshold resumeThreshold : float64) (requeueAfter now defaultPort : Z).
  Local Abbreviation after := (list storage_command).
  (** Kubernetes: the pod and the node of a name, the stats a kubelet reports at an address, the events found through the indexes
      and all those of the namespace, the clusters of a namespace; the outcome of a write. *)
  Context (get_pod : after → string → string → outcome worker_pod) (get_node : after → string → outcome node_address).
  Context (summary : after → string → Z → outcome (list PodStats)).
  Context (indexed_events all_events : after → string → outcome (list k8s_event)) (list_clusters : after → string → outcome (list string)).
  Context (write_event : after → storage_command → outcome ()).
  (** Slurm: building a client for a URL, waiting for a node cache to be ready; the snapshot of the cache; the answer to a
      POST. *)
  Context (newClient : string → outcome ()) (waitReady : after → string * string → outcome ()).
  Context (snapshot : after → string * string → option cacheSnapshot).
  Context (slurm_post : after → storage_command → response (option (list string))).

Definition ask {A} (f : after → outcome A) : M stworld A := λ w, (w, f (st_log w)).
Definition send_event (c : storage_command) : M stworld () := λ w,
  (StWorld (st_set w) (st_log w ++ [c]), write_event (st_log w) c).
Definition post (what : string) (cl : string * string) (c : storage_command) : M stworld () := λ w,
  if negb (GetClient (st_set w) cl) then (w, Err (ErrMsg "slurm cluster not found"))
  else
    let w' := StWorld (st_set w) (st_log w ++ [c]) in
    match slurm_post (st_log w) c with
    | NoResponse e => (w', Err (ErrWrap ("post " +:+ what +:+ " slurm node") e))
    | NoJSON200 => (w', Halt "nil pointer dereference")
    | JSON200 errs => if has_errors errs then (w', Err (ErrMsg ("post " +:+ what +:+ " returned errors"))) else (w', Ok tt)
    end.
Definition drainSlurmNode (cl : string * string) (node : string) (info : EphemeralStorageInfo) : M stworld () :=
  post "drain" cl (PostDrain cl node (SlurmUserReasonHC +:+ " " +:+ drainMessage (UsagePercent info) node)).
Definition undrainSlurmNode (cl : string * string) (node : string) : M stworld () :=
  post "undrain" cl (PostResume cl node).

Definition GetSummary (address : string) (port : Z) : M stworld (list PodStats) :=
  ask (λ l, summary l address (if (port =? 0)%Z then defaultPort else port)).
Definition getEphemeralStorageStatsFromNode (nodeName : string) (workerPods : list worker_pod) : M stworld (list EphemeralStorageInfo) :=
  let! node := wrapM "getting node" (ask (λ l, get_node l nodeName)) in
  let! (address, port) := lift (kubeletAddressForNode node) in
  let! stats := wrapM "getting kubelet stats from node" (GetSummary address port) in
  ret (omap (storageInfo nodeName (podMap nodeName workerPods)) stats).
Definition getSlurmClusterName (namespace : string) : M stworld string :=
  let! clusters := wrapM "listing SlurmCluster in namespace" (ask (λ l, list_clusters l namespace)) in
  ret (default "" (head clusters)).
Definition set_registry (cs : ClientSet) : M stworld () := modify (λ w, StWorld cs (st_log w)).
Definition ensureNodeCache (cl : string * string) : M stworld () :=
  let! cs := gets st_set in
  if GetNodeCache cs cl then ask (λ l, waitReady l cl)
  else
    do! (if GetClient cs cl then ret tt
         else
           do! wrapM "creating slurm api client"
                 (lift (newClient ("http://" +:+ BuildServiceName ComponentTypeREST cl.2 +:+ "." +:+ cl.1 +:+ ":6820")));
           let! cs := gets st_set in set_registry (AddClient cs cl));
    let! cs := gets st_set in
    let '(cs, exists_) := EnsureNodeCache cs cl in
    do! set_registry cs;
    if exists_ then ask (λ l, waitReady l cl) else fail (ErrMsg "no slurm API client for cluster").
Definition initSlurmClientAndGetNode (pod : worker_pod) : M stworld ((string * string) * Node) :=
  let! name := wrapM "getting SlurmCluster name" (getSlurmClusterName (p_Namespace pod)) in
  if String.eqb name "" then fail (ErrMsg "not found SlurmCluster for pod")
  else
    let cl := (p_Namespace pod, name) in
    do! wrapM "initializing Slurm API clients" (ensureNodeCache cl);
    let! cs := gets st_set in
    if negb (GetNodeCache cs cl) then fail (ErrMsg "node cache not found for cluster")
    else
      let! nc := gets (λ w, snapshot (st_log w) cl) in
      match cache_GetNode nc (p_Name pod) with
      | None => fail (ErrMsg "slurm node not found in cache for cluster")
      | Some node => ret (cl, node)
      end.
Definition sameEvent (pod : worker_pod) (message : string) (e : k8s_event) : bool :=
  String.eqb (ev_PodName e) (p_Name pod) && String.eqb (ev_PodUID e) (p_UID pod) &&
  String.eqb (ev_Reason e) HighEphemeralStorageUsage && (now - 3600 <? ev_Last e)%Z && String.eqb (ev_Message e) message.
Definition createEphemeralStorageEvent (pod : worker_pod) (info : EphemeralStorageInfo) : M stworld () :=
  let event := mkEvent (p_Name pod +:+ "-ephemeral-storage-") (p_Name pod) (p_UID pod) HighEphemeralStorageUsage (eventMessage info) 1 now now in
  let! found := attempt (ask (λ l, indexed_events l (p_Namespace pod))) in
  let! found := match found with
                | inl items => ret (Some items)
                | inr _ =>
                    let! all := attempt (ask (λ l, all_events l (p_Namespace pod))) in
                    ret (match all with inl items => Some items | inr _ => None end)
                end in
  match found with
  | None => send_event (CreateEvent event)
  | Some items =>
      match filter (λ e, sameEvent pod (ev_Message event) e = true) items with
      | e :: _ => send_event (UpdateEvent (mkEvent (ev_id e) (ev_PodName e) (ev_PodUID e) (ev_Reason e) (ev_Message e)
                                             (ev_Count e + 1) (ev_First e) now))
      | [] => send_event (CreateEvent event)
      end
  end.
(** The error "node needs draining" is the answer [true]. *)
Definition checkSlurmNodeDrainStatus (node : Node) : outcome bool :=
  if String.eqb (node_Name node) "" then Err (ErrMsg "slurm node not found for pod") else Ok (negb (IsIdleDrained node)).
Definition handleHighStorageUsage (pod : worker_pod) (info : EphemeralStorageInfo) : M stworld () :=
  do! createEphemeralStorageEvent pod info;
  let! (cl, node) := initSlurmClientAndGetNode pod in
  let! needsDraining := lift (checkSlurmNodeDrainStatus node) in
  if needsDraining then wrapM "draining Slurm node" (drainSlurmNode cl (node_Name node) info) else ret tt.
Definition handleLowStorageUsage (pod : worker_pod) : M stworld () :=
  let! (cl, node) := initSlurmClientAndGetNode pod in
  if negb (isDrainedByEphemeralStorageCheck node) then ret tt else undrainSlurmNode cl (node_Name node).
Definition handleInfo (pod : worker_pod) (info : EphemeralStorageInfo) : M stworld () :=
  if SFltb usageThreshold (UsagePercent info) then handleHighStorageUsage pod info
  else if SFltb (UsagePercent info) resumeThreshold then handleLowStorageUsage pod
  else ret tt.
Definition ReconcilePodEphemeralStorageCheckForPod (pod : worker_pod) : M stworld () :=
  if negb (String.eqb (p_Phase pod) "Running") || String.eqb (p_NodeName pod) "" then ret tt
  else
    let! infos := wrapM "getting ephemeral storage stats" (getEphemeralStorageStatsFromNode (p_NodeName pod) [pod]) in
    forM infos (handleInfo pod).
Definition Storage_Reconcile (namespace name : string) : M stworld (option Z) :=
  let! got := attempt (ask (λ l, get_pod l namespace name)) in
  match got with
  | inr e => if IsNotFound e then ret None else fail (ErrWrap "getting pod" e)
  | inl pod =>
      if negb (isPodRelevant pod) then ret None
      else
        do! wrapM "reconciling Pod Ephemeral Storage Check" (ReconcilePodEphemeralStorageCheckForPod pod);
        ret (Some requeueAfter)
  end.
End controller.

(** ** Hysteresis *)
Definition with_states (reason : option NodeReason) (s : states) (n : Node) : Node :=
  mkNode (node_Name n) (node_ClusterName n) (node_InstanceID n) s reason
    (node_Partitions n) (node_Tres n) (node_Address n) (node_BootTime n) (node_Comment n) (node_Reservation n) (node_CPUs n)
    (node_AllocCPUs n) (node_AllocIdleCPUs n) (node_EffectiveCPUs n) (node_AllocMemoryMB n) (node_RealMemoryMB n)
    (node_FreeMemoryMB n) (node_SpecializedMemoryMB n).
(** A node is drained for a reason: it has the DRAIN flag besides its other states, and shows the reason. *)
Definition drained_for (reason : string) (n n' : Node) : Prop :=
  node_Name n' = node_Name n ∧ node_States n' = {[DRAIN]} ∪ node_States n ∧ (reason_Reason <$> node_Reason n') = Some reason.
Definition resumed (n n' : Node) : Prop := node_Name n' = node_Name n ∧ DRAIN ∉ node_States n'.
(** What Slurm makes of the requests about a node, as scontrol(1) documents the node states DRAIN and RESUME: a drain sets the
    flag and the reason and leaves the jobs alone; a resume takes the flag away, and what else it changes is up to Slurm.  The events
    of the check are the API server's. *)
Class SlurmReaction := {
  slurm_apply : Node → storage_command → Node;
  apply_drain : ∀ n cl reason, drained_for reason n (slurm_apply n (PostDrain cl (node_Name n) reason));
  apply_resume : ∀ n cl, resumed n (slurm_apply n (PostResume cl (node_Name n)));
  apply_event : ∀ n c, match c with CreateEvent _ | UpdateEvent _ => True | _ => False end → slurm_apply n c = n }.
(** Jobs come and go: the states of the node change, but whether and why it is drained does not. *)
Definition busy (s : states) (n : Node) : Node :=
  with_states (node_Reason n) (if decide (DRAIN ∈ node_States n) then {[DRAIN]} ∪ s else s) n.

Section hysteresis.
  Context `{SlurmReaction}.
  Context (usageThreshold resumeThreshold : float64) (requeueAfter now defaultPort : Z).
  (** A running worker pod with a limit, on a node whose kubelet answers, in a namespace with one cluster. *)
  Context (pod : worker_pod) (address : node_address) (addr : string * Z) (cluster : string) (cs : ClientSet).
  Context (indexed_events all_events : list storage_command → string → outcome (list k8s_event)).
  Context (events_answered : ∀ l ns s, indexed_events l ns ≠ Halt s ∧ all_events l ns ≠ Halt s).
  Context (relevant : isPodRelevant pod = true) (running : p_Phase pod = "Running") (placed : p_NodeName pod ≠ "").
  Context (limited : getEphemeralStorageLimitForPod pod ≠ 0%Z) (reachable : kubeletAddressForNode address = Ok addr).
  Context (cluster_named : cluster ≠ "").
  Context (registered : ({[(p_Namespace pod, cluster)]} : gset (string * string)) ⊆ slurmAPIClients cs ∩ nodeCaches cs).

(** One pass, with the pod using [used] bytes and the Slurm node [n] in the cache; every request succeeds. *)
Definition storage_pass (n : Node) (used : option Z) : stworld * outcome (option Z) :=
  Storage_Reconcile usageThreshold resumeThreshold requeueAfter now defaultPort
    (λ _ _ _, Ok pod) (λ _ _, Ok address)
    (λ _ _ _, Ok [mkPodStats (p_Name pod) (p_Namespace pod) (p_UID pod) used])
    indexed_events all_events (λ _ _, Ok [cluster]) (λ _ _, Ok tt) (λ _, Ok tt) (λ _ _, Ok tt)
    (λ _ _, Some (Snapshot {[p_Name pod := n]} now)) (λ _ _, JSON200 None)
    (p_Namespace pod) (p_Name pod) (StWorld cs []).
Definition after_pass (n : Node) (used : option Z) : Node := foldl slurm_apply n (st_log (storage_pass n used).1).

Definition percent_of (used : option Z) : float64 := usagePercent (default 0%Z used) (getEphemeralStorageLimitForPod pod).
Definition own_reason (used : option Z) (n : Node) : string :=
  SlurmUserReasonHC +:+ " " +:+ drainMessage (percent_of used) (node_Name n).
Lemma own_reason_prefix used n : HasPrefix (own_reason used n) (SlurmUserReasonHC +:+ " pod_ephemeral_storage") = true.
Proof.
  apply HasPrefix_spec. eexists. unfold own_reason, drainMessage, SlurmUserReasonHC. simpl. reflexivity.
Qed.

Local Abbreviation world0 l := (StWorld cs l).
Lemma init_ok n l :
  initSlurmClientAndGetNode (λ _ _, Ok [cluster]) (λ _, Ok tt) (λ _ _, Ok tt) (λ _ _, Some (Snapshot {[p_Name pod := n]} now)) pod (world0 l) =
  (world0 l, Ok ((p_Namespace pod, cluster), n)).
Proof.
  assert (GetNodeCache cs (p_Namespace pod, cluster) = true) as Hc by (apply bool_decide_eq_true; set_solver).
  unfold initSlurmClientAndGetNode, getSlurmClusterName, ensureNodeCache, bind, wrapM, ask, gets, ret. simpl.
  destruct (String.eqb_spec cluster ""); [done|]. simpl. rewrite Hc. simpl. rewrite Hc. simpl. by rewrite lookup_singleton_eq.
Qed.
Lemma event_ok info l :
  ∃ c, (∀ n, slurm_apply n c = n) ∧
       createEphemeralStorageEvent now indexed_events all_events (λ _ _, Ok tt) pod info (world0 l) = (world0 (l ++ [c]), Ok tt).
Proof.
  unfold createEphemeralStorageEvent, bind, attempt, ask, ret, send_event. simpl.
  destruct (indexed_events l (p_Namespace pod)) as [items|e|s] eqn:Hi; simpl.
  - destruct (filter _ items) as [|e rest]; (eexists; split; [|reflexivity]; intros; by apply apply_event).
  - destruct (all_events l (p_Namespace pod)) as [items|e'|s] eqn:Ha; simpl.
    + destruct (filter _ items) as [|e' rest]; (eexists; split; [|reflexivity]; intros; by apply apply_event).
    + eexists. split; [|reflexivity]. intros. by apply apply_event.
    + by destruct (events_answered l (p_Namespace pod) s) as [_ []].
  - by destruct (events_answered l (p_Namespace pod) s) as [[] _].
Qed.
Lemma post_ok what c l :
  post (λ _ _, JSON200 None) what (p_Namespace pod, cluster) c (world0 l) = (world0 (l ++ [c]), Ok tt).
Proof.
  unfold post. assert (GetClient cs (p_Namespace pod, cluster) = true) as Hc by (apply bool_decide_eq_true; set_solver).
  simpl. by rewrite Hc.
Qed.
(** A pass does one of three things. *)
Definition pass_result (n : Node) (used : option Z) (n' : Node) : Prop :=
  if SFltb usageThreshold (percent_of used) then if IsIdleDrained n then n' = n else drained_for (own_reason used n) n n'
  else if SFltb (percent_of used) resumeThreshold then if isDrainedByEphemeralStorageCheck n then resumed n n' else n' = n
  else n' = n.
Lemma infos_ok used l :
  getEphemeralStorageStatsFromNode defaultPort (λ _ _, Ok address)
    (λ _ _ _, Ok [mkPodStats (p_Name pod) (p_Namespace pod) (p_UID pod) used]) (p_NodeName pod) [pod] (world0 l) =
  (world0 l, Ok [mkInfo (p_Name pod) (p_Namespace pod) (p_NodeName pod) (default 0%Z used) (getEphemeralStorageLimitForPod pod)
                   (percent_of used)]).
Proof.
  unfold getEphemeralStorageStatsFromNode, GetSummary, bind, wrapM, lift, ask, ret. simpl. rewrite reachable.
  destruct addr as [a port]. simpl. unfold storageInfo, podMap. simpl. rewrite String.eqb_refl, lookup_insert_eq. simpl.
  by destruct (Z.eqb_spec (getEphemeralStorageLimitForPod pod) 0).
Qed.
Lemma handle_ok n used l :
  node_Name n ≠ "" →
  ∃ l', handleInfo usageThreshold resumeThreshold now indexed_events all_events (λ _ _, Ok [cluster]) (λ _ _, Ok tt) (λ _, Ok tt) (λ _ _, Ok tt)
          (λ _ _, Some (Snapshot {[p_Name pod := n]} now)) (λ _ _, JSON200 None) pod
          (mkInfo (p_Name pod) (p_Namespace pod) (p_NodeName pod) (default 0%Z used) (getEphemeralStorageLimitForPod pod) (percent_of used))
          (world0 l) = (world0 (l ++ l'), Ok tt) ∧ pass_result n used (foldl slurm_apply n l').
Proof.
  intros Hn. unfold handleInfo, pass_result. cbn [UsagePercent]. destruct (SFltb usageThreshold (percent_of used)).
  - unfold handleHighStorageUsage, bind. set (info := mkInfo _ _ _ _ _ _). destruct (event_ok info l) as (c & Hc & ->).
    rewrite init_ok. unfold lift, checkSlurmNodeDrainStatus. destruct (String.eqb_spec (node_Name n) "") as [|_]; [done|].
    destruct (IsIdleDrained n); simpl; [exists [c]; simpl; by rewrite Hc|].
    unfold wrapM, drainSlurmNode. rewrite post_ok, <-app_assoc. eexists [_; _]. split; [reflexivity|]. simpl. rewrite Hc. apply apply_drain.
  - destruct (SFltb (percent_of used) resumeThreshold); [|exists []; by rewrite app_nil_r].
    unfold handleLowStorageUsage, bind. rewrite init_ok.
    destruct (isDrainedByEphemeralStorageCheck n); simpl; [|exists []; by rewrite app_nil_r].
    unfold undrainSlurmNode. rewrite post_ok. eexists [_]. split; [reflexivity|]. apply apply_resume.
Qed.
Lemma storage_pass_result n used :
  node_Name n ≠ "" → (storage_pass n used).2 = Ok (Some requeueAfter) ∧ pass_result n used (after_pass n used).
Proof.
  intros Hn. destruct (handle_ok n used [] Hn) as (l & Hl & Hr).
  assert (storage_pass n used = (world0 l, Ok (Some requeueAfter))) as Hp; [|unfold after_pass; by rewrite Hp].
  unfold storage_pass, Storage_Reconcile, bind, attempt, ask at 1. simpl. rewrite relevant. simpl.
  unfold wrapM at 1, ReconcilePodEphemeralStorageCheckForPod. rewrite running. simpl.
  destruct (String.eqb_spec (p_NodeName pod) "") as [|_]; [done|]. unfold bind, wrapM. rewrite infos_ok. simpl.
  unfold bind. by rewrite Hl.
Qed.

(** The switch with two thresholds. *)
Definition trigger (drained : bool) (used : option Z) : bool :=
  if SFltb usageThreshold (percent_of used) then true
  else if SFltb (percent_of used) resumeThreshold then false else drained.
(** A sample: what the pod uses at a pass, and the states the node has then apart from the drain. *)
Definition sample (n : Node) (x : option Z * states) : Node := after_pass (busy x.2 n) x.1.
(** Drained, if at all, by this check. *)
Definition own_drain (n : Node) : Prop := IsDrainState n = true → isDrainedByEphemeralStorageCheck n = true.
Lemma IsDrain_spec n : IsDrainState n = true ↔ DRAIN ∈ node_States n.
Proof. unfold IsDrainState, has. by rewrite bool_decide_eq_true. Qed.
Lemma busy_facts s n :
  DRAIN ∉ s → own_drain n →
  IsDrainState (busy s n) = IsDrainState n ∧ own_drain (busy s n) ∧ node_Name (busy s n) = node_Name n ∧
  node_States (busy s n) ∖ {[DRAIN]} = s.
Proof.
  intros Hs Ho. assert (IsDrainState (busy s n) = IsDrainState n) as Hd.
  { apply eq_true_iff_eq. rewrite !IsDrain_spec. simpl. destruct (decide (DRAIN ∈ node_States n)); set_solver. }
  split; [exact Hd|]. split; [|split; [done|]].
  - unfold own_drain, isDrainedByEphemeralStorageCheck in *. rewrite Hd. intros Hx. rewrite Hx in *. simpl in *. auto.
  - simpl. destruct (decide _); set_solver.
Qed.
Lemma pass_result_facts n used n' :
  own_drain n → pass_result n used n' →
  IsDrainState n' = trigger (IsDrainState n) used ∧ own_drain n' ∧ node_Name n' = node_Name n ∧
  (IsDrainState n' = true → node_States n' ∖ {[DRAIN]} = node_States n ∖ {[DRAIN]}).
Proof.
  intros Ho. unfold pass_result, trigger. destruct (SFltb usageThreshold (percent_of used)).
  - destruct (IsIdleDrained n) eqn:Hi.
    { intros ->. unfold IsIdleDrained in Hi. apply andb_prop in Hi as [Hi _]. done. }
    intros (Hn & Hst & Hr). assert (IsDrainState n' = true) as Hd by (apply IsDrain_spec; rewrite Hst; set_solver).
    split_and!; [done| |done|intros _; rewrite Hst; set_solver].
    intros _. unfold isDrainedByEphemeralStorageCheck. rewrite Hd. apply fmap_Some in Hr as (r & -> & Hr). cbn [andb]. rewrite <-Hr. apply own_reason_prefix.
  - destruct (SFltb (percent_of used) resumeThreshold); [|by intros ->].
    destruct (IsDrainState n) eqn:Hd.
    + rewrite (Ho Hd). intros [Hn Hdr]. assert (IsDrainState n' = false) as Hn' by (apply not_true_is_false; by rewrite IsDrain_spec).
      split_and!; [done|intros ?; congruence|done|intros ?; congruence].
    + unfold isDrainedByEphemeralStorageCheck. rewrite Hd. simpl. intros ->. rewrite Hd. by split_and!.
Qed.
Lemma sample_facts n x :
  node_Name n ≠ "" → DRAIN ∉ x.2 → own_drain n →
  IsDrainState (sample n x) = trigger (IsDrainState n) x.1 ∧ own_drain (sample n x) ∧ node_Name (sample n x) = node_Name n ∧
  (IsDrainState (sample n x) = true → node_States (sample n x) ∖ {[DRAIN]} = x.2).
Proof.
  intros Hn Hx Ho. destruct (busy_facts x.2 n Hx Ho) as (B1 & B2 & B3 & B4). unfold sample.
  destruct (storage_pass_result (busy x.2 n) x.1) as [_ Hp]; [by rewrite B3|].
  destruct (pass_result_facts (busy x.2 n) x.1 _ B2 Hp) as (P1 & P2 & P3 & P4). rewrite B1 in P1. rewrite B4 in P4. rewrite B3 in P3. done.
Qed.
Lemma samples_facts samples n :
  node_Name n ≠ "" → Forall (λ x, DRAIN ∉ x.2) samples → own_drain n →
  IsDrainState (foldl sample n samples) = foldl trigger (IsDrainState n) samples.*1 ∧ own_drain (foldl sample n samples) ∧
  (∀ x, last samples = Some x → IsDrainState (foldl sample n samples) = true → node_States (foldl sample n samples) ∖ {[DRAIN]} = x.2).
Proof.
  intros Hn Hs. revert n Hn. induction Hs as [|x samples Hx Hs IH]; intros n Hn Ho; [done|]. simpl.
  destruct (sample_facts n x Hn Hx Ho) as (S1 & S2 & S3 & S4).
  destruct (IH (sample n x)) as (I1 & I2 & I3); [by rewrite S3|done|]. rewrite <-S1. split; [done|]. split; [done|].
  intros y Hy. destruct samples as [|z samples]; [by injection Hy as <-|]. apply I3. exact Hy.
Qed.
End hysteresis.

(** C19: the check is a switch with two thresholds.  For any Slurm that drains and resumes as documented ([SlurmReaction]) and a running
    worker pod whose node is not drained at first, whatever jobs come and go on it: after any sequence of passes the Slurm node is drained
    exactly when the last use outside of the band between the thresholds was above the upper one; it carries the check's own
    reason then, and its other states are those it had at the last pass.
    Assumed: every request of the check succeeds and each pass sees the Slurm node as it is; nobody else drains or resumes the
    node (a drain of another's is taken over, [foreign_drain_resumed]); the pod is relevant and has a limit; its node's kubelet can be reached; the
    Slurm cluster of the namespace has a name, its client is registered and its node cache started. *)
Theorem storage_hysteresis `{SlurmReaction} hi lo requeueAfter now defaultPort pod address addr cluster cs indexed_events all_events n samples :
  (∀ l ns s, indexed_events l ns ≠ Halt s ∧ all_events l ns ≠ Halt s) →
  isPodRelevant pod = true → p_Phase pod = "Running" → p_NodeName pod ≠ "" → getEphemeralStorageLimitForPod pod ≠ 0%Z →
  kubeletAddressForNode address = Ok addr → cluster ≠ "" →
  ({[(p_Namespace pod, cluster)]} : gset (string * string)) ⊆ slurmAPIClients cs ∩ nodeCaches cs →
  node_Name n ≠ "" → IsDrainState n = false → Forall (λ x, DRAIN ∉ x.2) samples →
  let n' := foldl (sample hi lo requeueAfter now defaultPort pod address cluster cs indexed_events all_events) n samples in
  IsDrainState n' = foldl (trigger hi lo pod) false samples.*1 ∧
  (IsDrainState n' = true → isDrainedByEphemeralStorageCheck n' = true) ∧
  (∀ x, last samples = Some x → IsDrainState n' = true → node_States n' ∖ {[DRAIN]} = x.2).
Proof.
  intros Hev Hrel Hrun Hpl Hlim Hre Hcl Hreg Hn Hd Hs n'.
  assert (own_drain n) as Ho by (intros Hx; congruence).
  destruct (samples_facts hi lo requeueAfter now defaultPort pod address addr cluster cs indexed_events all_events Hev Hrel Hrun Hpl
              Hlim Hre Hcl Hreg samples n Hn Hs Ho) as (H1 & H2 & H3). rewrite Hd in H1. done.
Qed.

(** A Slurm that changes nothing but the flag and the reason. *)
Definition with_drain (reason : string) (n : Node) : Node := with_states (Some (mkReason reason reason 0)) ({[DRAIN]} ∪ node_States n) n.
Definition plain_reaction (n : Node) (c : storage_command) : Node :=
  match c with
  | PostDrain _ _ reason => with_drain reason n
  | PostResume _ _ => with_states None (node_States n ∖ {[DRAIN]}) n
  | _ => n
  end.
#[refine] Instance plain_slurm : SlurmReaction := {| slurm_apply := plain_reaction |}.
Proof.
  - done.
  - intros n cl. split; [done|]. simpl. set_solver.
  - by intros n [].
Defined.
(** *** Examples: a pod with a limit of 1000 bytes, thresholds at 85 and 65 percent *)
Definition ex_pod : worker_pod :=
  mkPod "worker-0" "ns" "uid-0" "1" (list_to_map [(LabelWorkerKey, "true"); (LabelManagedByKey, "slurm-operator")])
    [("StatefulSet", "apps.kruise.io/v1beta1")] "Running" "node-0" [Some (1000 * nano)%Z; None] [].
Definition ex_address : node_address := mkNodeAddress [("Hostname", "node-0"); ("InternalIP", "10.0.0.1")] 0.
Definition ex_registry : ClientSet := mkClientSet {[("ns", "c")]} {[("ns", "c")]}.
Definition no_events (_ : list storage_command) (_ : string) : outcome (list k8s_event) := Ok [].
Definition ex_node : Node :=
  mkNode "worker-0" "c" "i" {[IDLE]} None [] "" "" None "" "" None None None None None None None None.
Definition ex_sample : Node → option Z * states → Node :=
  sample (of_uint64 85) (of_uint64 65) 30 1000 10250 ex_pod ex_address "c" ex_registry no_events no_events.
Definition ex_samples : list (option Z * states) :=
  [(Some 700%Z, {[ALLOCATED]}); (Some 900%Z, {[ALLOCATED]}); (Some 700%Z, {[IDLE]}); (Some 600%Z, {[IDLE]}); (Some 851%Z, {[IDLE]})].
Lemma storage_hysteresis_witness :
  IsDrainState (foldl ex_sample ex_node ex_samples) = true ∧
  map (λ k, foldl (trigger (of_uint64 85) (of_uint64 65) ex_pod) false (take k ex_samples).*1) (seq 0 6) =
    [false; false; true; true; false; true].
Proof.
  split; [|vm_compute; reflexivity].
  destruct (storage_hysteresis (of_uint64 85) (of_uint64 65) 30 1000 10250 ex_pod ex_address ("10.0.0.1", 0%Z) "c" ex_registry
              no_events no_events ex_node ex_samples) as [H _].
  - done.
  - vm_compute. reflexivity.
  - reflexivity.
  - discriminate.
  - vm_compute. discriminate.
  - reflexivity.
  - discriminate.
  - unfold ex_registry. simpl. set_solver.
  - discriminate.
  - vm_compute. reflexivity.
  - unfold ex_samples. repeat constructor; simpl; set_solver.
  - unfold ex_sample. rewrite H. vm_compute. reflexivity.
Defined.
(** A node that runs a job and was drained for another reason is drained again, which replaces the reason; when the use falls
    the check takes the drain for its own and resumes the node. *)
Definition ex_faulty : Node := with_drain "[hw_problem] gpu" ex_node.
Example foreign_drain_resumed :
  (isDrainedByEphemeralStorageCheck ex_faulty, IsDrainState ex_faulty,
   IsDrainState (foldl ex_sample ex_faulty [(Some 900%Z, {[ALLOCATED]}); (Some 100%Z, {[IDLE]})])) = (false, true, false).
Proof. vm_compute. reflexivity. Qed.
