(* ===== verification/ApiClients.v ===== *)
(** * The clients of the Slurm REST API

    [internal/slurmapi/client_set.go] with the clients themselves, and the controller that registers one for each cluster
    ([internal/controller/soperatorchecks/slurm_api_clients_controller.go]).  The ephemeral storage check works with the set of names
    of [StorageCheck.ClientSet]; the registry here refines it. *)
From S2P Require Import Prelude GoStrings Naming StorageCheck Tokens.
From Stdlib Require String.

Section clientSet.
  Context {C : Type}.
(** A node cache is told apart by the client it asks, which stays the same for its whole life. *)
Record ClientRegistry := mkClientRegistry { cr_clients : gmap (string * string) C; cr_caches : gmap (string * string) C }.
Definition NewClientRegistry : ClientRegistry := mkClientRegistry ∅ ∅.
Definition registry_AddClient (name : string * string) (client : C) (cs : ClientRegistry) : ClientRegistry :=
  mkClientRegistry (<[name := client]> (cr_clients cs)) (cr_caches cs).
Definition registry_GetClient (name : string * string) (cs : ClientRegistry) : option C := cr_clients cs !! name.
(** A copy of the map. *)
Definition registry_GetClients (cs : ClientRegistry) : gmap (string * string) C := cr_clients cs.
Definition registry_EnsureNodeCache (name : string * string) (cs : ClientRegistry) : ClientRegistry * option C :=
  match cr_caches cs !! name with
  | Some nc => (cs, Some nc)
  | None =>
      match cr_clients cs !! name with
      | None => (cs, None)
      | Some client => (mkClientRegistry (cr_clients cs) (<[name := client]> (cr_caches cs)), Some client)
      end
  end.
Definition registry_GetNodeCache (name : string * string) (cs : ClientRegistry) : option C := cr_caches cs !! name.
(** [For(cluster, "root")] with a registry of its own, and the address of the cluster's REST service. *)
Definition slurmAPIServer (name : string * string) : string :=
  "http://" +:+ BuildServiceName ComponentTypeREST name.2 +:+ "." +:+ name.1 +:+ ":6820".
Definition clients_Reconcile (newClient : string → string * string → outcome C) (req : string * string) (cs : ClientRegistry) :
    outcome () * ClientRegistry :=
  match newClient (slurmAPIServer req) req with
  | Ok client => (Ok tt, registry_AddClient req client cs)
  | Err e => (Err e, cs)
  | Halt why => (Halt why, cs)
  end.

(** ** The registry and the set of names *)
Definition names_of_registry (cs : ClientRegistry) : ClientSet := mkClientSet (dom (cr_clients cs)) (dom (cr_caches cs)).
Lemma AddClient_names name client cs : names_of_registry (registry_AddClient name client cs) = AddClient (names_of_registry cs) name.
Proof. unfold names_of_registry, AddClient. cbn. by rewrite dom_insert_L. Qed.
Lemma GetClient_names name cs : GetClient (names_of_registry cs) name = bool_decide (is_Some (registry_GetClient name cs)).
Proof. unfold GetClient, registry_GetClient. cbn. apply bool_decide_ext. apply elem_of_dom. Qed.
Lemma GetNodeCache_names name cs : GetNodeCache (names_of_registry cs) name = bool_decide (is_Some (registry_GetNodeCache name cs)).
Proof. unfold GetNodeCache, registry_GetNodeCache. cbn. apply bool_decide_ext. apply elem_of_dom. Qed.
Lemma EnsureNodeCache_names name cs :
  EnsureNodeCache (names_of_registry cs) name =
  (names_of_registry (registry_EnsureNodeCache name cs).1, bool_decide (is_Some (registry_EnsureNodeCache name cs).2)).
Proof.
  unfold EnsureNodeCache, registry_EnsureNodeCache. rewrite GetNodeCache_names, GetClient_names. unfold registry_GetNodeCache, registry_GetClient.
  destruct (cr_caches cs !! name) as [nc|] eqn:Hc; [by rewrite !bool_decide_eq_true_2 by by eexists|].
  rewrite bool_decide_eq_false_2 by by intros []. destruct (cr_clients cs !! name) as [client|] eqn:Hl.
  - rewrite !bool_decide_eq_true_2 by by eexists. unfold names_of_registry. cbn. by rewrite dom_insert_L.
  - rewrite !bool_decide_eq_false_2 by by intros []. done.
Qed.
(** The operations of a run of the program. *)
Inductive registry_op := OpAdd (name : string * string) (client : C) | OpEnsure (name : string * string).
Definition apply_op (cs : ClientRegistry) (op : registry_op) : ClientRegistry :=
  match op with OpAdd name client => registry_AddClient name client cs | OpEnsure name => (registry_EnsureNodeCache name cs).1 end.
Definition apply_name (cs : ClientSet) (op : registry_op) : ClientSet :=
  match op with OpAdd name _ => AddClient cs name | OpEnsure name => (EnsureNodeCache cs name).1 end.
(** Every run on the registry is a run on the names; each cluster with a node cache has a client; and once there is a cache it
    is never replaced. *)
Theorem registry_refines_names (ops : list registry_op) (name : string * string) (nc : C) (more : list registry_op) :
  let cs := foldl apply_op NewClientRegistry ops in
  names_of_registry cs = foldl apply_name NewClientSet ops ∧ dom (cr_caches cs) ⊆ dom (cr_clients cs) ∧
  (registry_GetNodeCache name cs = Some nc → registry_GetNodeCache name (foldl apply_op cs more) = Some nc).
Proof.
  assert (∀ ops cs, names_of_registry (foldl apply_op cs ops) = foldl apply_name (names_of_registry cs) ops) as Hn.
  { clear. induction ops as [|op ops IH]; intros cs; [done|]. simpl. rewrite IH. f_equal. destruct op; cbn; [apply AddClient_names|]. by rewrite EnsureNodeCache_names. }
  assert (∀ ops cs, dom (cr_caches cs) ⊆ dom (cr_clients cs) → dom (cr_caches (foldl apply_op cs ops)) ⊆ dom (cr_clients (foldl apply_op cs ops))) as Hd.
  { clear. induction ops as [|op ops IH]; intros cs Hs; [done|]. simpl. apply IH. destruct op as [n client|n]; cbn; [set_solver|].
    unfold registry_EnsureNodeCache. destruct (cr_caches cs !! n); [done|]. destruct (cr_clients cs !! n) as [client|] eqn:Hl; [|done].
    cbn. apply elem_of_dom_2 in Hl. set_solver. }
  assert (∀ ops cs, cr_caches cs !! name = Some nc → cr_caches (foldl apply_op cs ops) !! name = Some nc) as Hk.
  { clear. induction ops as [|op ops IH]; intros cs Hs; [done|]. simpl. apply IH. destruct op as [n client|n]; cbn; [done|].
    unfold registry_EnsureNodeCache. destruct (cr_caches cs !! n) eqn:Hn; [done|]. destruct (cr_clients cs !! n); [|done].
    cbn. rewrite lookup_insert_ne; [done|]. intros ->. congruence. }
  intros cs. split_and!; [apply Hn|by apply Hd|apply Hk].
Qed.
End clientSet.
Arguments ClientRegistry : clear implicits.
Arguments registry_op : clear implicits.
(** After a cluster was deleted and created again, the controller registers a new client, but the node cache still asks with the old one,
    and with the tokens of the old cluster. *)
Example cache_keeps_old_client :
  let newClient (client : string) (_ : string) (_ : string * string) := Ok client in
  let cs := (clients_Reconcile (newClient "old") ("ns", "cl") NewClientRegistry).2 in
  let cs := (registry_EnsureNodeCache ("ns", "cl") cs).1 in
  let cs := (clients_Reconcile (newClient "new") ("ns", "cl") cs).2 in
  registry_GetClient ("ns", "cl") cs = Some "new" ∧ (registry_EnsureNodeCache ("ns", "cl") cs).2 = Some "old".
Proof. split; vm_compute; reflexivity. Qed.
