(* ===== verification/ActiveChecks.v ===== *)
(** * Active checks

    [internal/controller/soperatorchecks/activecheck_controller.go] and the objects it renders
    ([internal/render/soperatorchecks]).  Every ActiveCheck has a CronJob, and for a script of its own a ConfigMap; a check that runs after its
    creation gets a first Job, once the checks it depends on have completed.  A finalizer holds the check back until the
    CronJob and the ConfigMap are gone. *)
From S2P Require Import Prelude GoStrings Effects MultiStep Reconciler Patchers Ownership QuietRuns Naming Workers ActiveCheckJobs.
From Stdlib Require String.

(** ** The object *)
Definition ActiveCheckFinalizer : string := "slurm.nebius.ai/activecheck-finalizer".
Definition Finalizers (o : resource) : list string := field_strs (o_body o) ["metadata"; "finalizers"].
Definition with_finalizers (l : list string) (o : resource) : resource :=
  with_body (<[["metadata"; "finalizers"] := VStrs l]> (o_body o)) o.
Definition ContainsFinalizer (o : resource) (f : string) : bool := bool_decide (f ∈ Finalizers o).
Definition AddFinalizer (o : resource) (f : string) : resource := with_finalizers (Finalizers o ++ [f]) o.
Definition RemoveFinalizer (o : resource) (f : string) : resource := with_finalizers (filter (λ x, x ≠ f) (Finalizers o)) o.
Definition DeletionTimestamp (o : resource) : option Z := field_time (o_body o) ["metadata"; "deletionTimestamp"].
Definition Spec_Name (check : resource) : string := field_str (o_body check) ["spec"; "name"].
Definition RunAfterCreation (check : resource) : option bool := field_optbool (o_body check) ["spec"; "runAfterCreation"].
Definition DependsOn (check : resource) : list string := field_strs (o_body check) ["spec"; "dependsOn"].
Definition SbatchScript (check : resource) : option string := field_optstr (o_body check) ["spec"; "slurmJobSpec"; "sbatchScript"].
Definition PodTemplateNameRef (check : resource) : option string := field_optstr (o_body check) ["spec"; "podTemplateNameRef"].
(** A field that is not set becomes true. *)
Definition default_true (p : path) (b : fields) : fields :=
  match field_optbool b p with Some _ => b | None => <[p := VBool true]> b end.
Definition SetDefaults (check : resource) : resource :=
  with_body (default_true ["spec"; "runAfterCreation"] (default_true ["spec"; "suspend"] (o_body check))) check.

(** ** Rendering *)
Definition RenderSbatchConfigMap (checkName clusterName namespace script : string) : resource :=
  new ConfigMap namespace (BuildConfigMapSbatchScriptName checkName) (RenderLabels ComponentTypeSoperatorChecks clusterName) ∅
    {[["data"; "sbatch.sh"] := VStr script]}.
Definition RenderRole (namespace clusterName : string) : resource :=
  new Role namespace (BuildRoleActiveCheckName clusterName) (RenderLabels ComponentTypeSoperatorChecks clusterName) ∅
    {[["rules"] := VRules [Rule [""] ["pods"] [] ["get"]; Rule ["batch"] ["jobs"] [] ["create"; "get"; "patch"];
                           Rule ["batch"] ["cronjobs"] [] ["get"]; Rule ["slurm.nebius.ai"] ["activechecks"] [] ["get"; "list"]]]}.
Definition RenderServiceAccount (namespace clusterName : string) : resource :=
  new ServiceAccount namespace (BuildServiceAccountActiveCheckName clusterName)
    (RenderLabels ComponentTypeSoperatorChecks clusterName) ∅ ∅.
Definition RenderRoleBinding (namespace clusterName : string) : resource :=
  new RoleBinding namespace (BuildRoleBindingActiveCheckName clusterName) (RenderLabels ComponentTypeSoperatorChecks clusterName) ∅
    (list_to_map [(["subjects"], VRows [[("kind", "ServiceAccount"); ("name", BuildServiceAccountActiveCheckName clusterName);
                                         ("namespace", namespace)]]);
                  (["roleRef"; "kind"], VStr "Role"); (["roleRef"; "name"], VStr (BuildRoleActiveCheckName clusterName));
                  (["roleRef"; "apiGroup"], VStr "rbac.authorization.k8s.io")]).
Definition RenderK8sJobName (check : resource) : string := Spec_Name check +:+ "-initial-run".
Definition RenderK8sJob (check cronJob : resource) : resource :=
  Obj (BatchJob, o_namespace check, RenderK8sJobName check) 0 (Some (o_uid cronJob))
    (RenderLabels ComponentTypeSoperatorChecks (SlurmClusterRefName check))
    (strings_at (o_body cronJob) ["spec"; "jobTemplate"; "metadata"; "annotations"]) (o_template cronJob)
    (below ["spec"] (subtree ["spec"; "jobTemplate"; "spec"] (o_body cronJob))) ∅.

Section rendering.
  (** The pod spec of the check, and a strategic merge of the pod template (annotations and spec) with a referenced one. *)
  Context (renderPodSpec : resource → fields)
          (MergePodTemplateSpecs : gmap string string * fields → resource → outcome (gmap string string * fields)).
Definition podTemplateAnnotations (check : resource) : gmap string string :=
  <[AnnotationActiveCheckName := o_name check]> {["kubectl.kubernetes.io/default-container" := Spec_Name check]}.
Definition cronJobSpec (check : resource) : list (path * value) :=
  [(["spec"; "schedule"], VStr (field_str (o_body check) ["spec"; "schedule"]));
   (["spec"; "jobTemplate"; "spec"; "parallelism"], VInt 1); (["spec"; "jobTemplate"; "spec"; "completions"], VInt 1);
   (["spec"; "jobTemplate"; "spec"; "backoffLimit"], VInt 0);
   (["spec"; "successfulJobsHistoryLimit"], VInt (field_int (o_body check) ["spec"; "successfulJobsHistoryLimit"]));
   (["spec"; "failedJobsHistoryLimit"], VInt (field_int (o_body check) ["spec"; "failedJobsHistoryLimit"]));
   (["spec"; "concurrencyPolicy"], VStr "Forbid")] ++
  match field_optbool (o_body check) ["spec"; "suspend"] with Some s => [(["spec"; "suspend"], VBool s)] | None => [] end.
Definition RenderK8sCronJob (check : resource) (foundPodTemplate : option resource) : outcome resource :=
  let base := (podTemplateAnnotations check, renderPodSpec check) in
  let? (annotations, pod) := match foundPodTemplate with
                             | Some t => MergePodTemplateSpecs base t
                             | None => Ok base
                             end in
  Ok (Obj (CronJob, o_namespace check, o_name check) 0 None (RenderLabels ComponentTypeSoperatorChecks (SlurmClusterRefName check)) ∅
        annotations
        (list_to_map (cronJobSpec check) ∪ below ["spec"; "jobTemplate"; "spec"; "template"; "spec"] pod) ∅).

(** ** The controller *)
  Context (marshal : gmap string string → string) (unmarshal : string → option (gmap string string)) (requeueAfter : Z).

(** [r.Get] of an object that may be gone. *)
Definition lookup_object (k : key) : M cluster_state (option resource) :=
  let! got := attempt (client_Get k) in
  match got with
  | inl o => ret (Some o)
  | inr e => if IsNotFound e then ret None else fail e
  end.
(** Gets the object and deletes it when it is there. *)
Definition getAndDelete (k : key) : M cluster_state () :=
  let! found := lookup_object k in
  match found with Some _ => client_Delete k | None => ret tt end.
Definition reconcileDelete (check : resource) : M cluster_state () :=
  do! getAndDelete (CronJob, o_namespace check, o_name check);
  do! (match SbatchScript check with
       | Some _ => getAndDelete (ConfigMap, o_namespace check, BuildConfigMapSbatchScriptName (Spec_Name check))
       | None => ret tt
       end);
  let! _ := client_Update (RemoveFinalizer check ActiveCheckFinalizer) in
  ret tt.
Definition runAfterCreation (check cronJob : resource) : M cluster_state () :=
  let! job := wrapM "failed to get job" (lookup_object (BatchJob, o_namespace check, RenderK8sJobName check)) in
  match job with
  | Some _ => ret tt
  | None =>
      let! cronJob := wrapM "failed to get cronJob" (client_Get (o_key cronJob)) in
      client_Create (RenderK8sJob check cronJob)
  end.
(** A prerequisite that does not run after its creation is not waited for. *)
Definition prerequisiteReady (prerequisite : resource) : outcome bool :=
  match RunAfterCreation prerequisite with
  | Some true =>
      if String.eqb (CheckType prerequisite) "k8sJob" then
        Ok (String.eqb (LastJobStatus (K8sJobsStatus (o_status prerequisite))) ActiveCheckK8sJobStatusComplete)
      else if String.eqb (CheckType prerequisite) "slurmJob" then
        let status := LastRunStatus (SlurmJobsStatus (o_status prerequisite)) in
        Ok (String.eqb status ActiveCheckSlurmRunStatusComplete || String.eqb status ActiveCheckSlurmRunStatusSkipped)
      else Err (ErrMsg "unknown prerequisite ActiveCheck type")
  | _ => Ok true
  end.
Fixpoint prerequisitesReady (namespace : string) (names : list string) : M cluster_state bool :=
  match names with
  | [] => ret true
  | name :: names =>
      let! got := wrapM "failed to get prerequisite ActiveCheck" (lookup_object (ActiveCheck, namespace, name)) in
      match got with
      | None => ret false
      | Some prerequisite =>
          let! ready := lift (prerequisiteReady prerequisite) in
          if ready then prerequisitesReady namespace names else ret false
      end
  end.
Definition dependenciesReady (check slurmCluster : resource) : M cluster_state bool :=
  if IsMaintenanceActive (field_optstr (o_body slurmCluster) ["spec"; "maintenance"]) then ret false
  else match field_optstr (o_status slurmCluster) ["phase"] with
       | None => halt "nil pointer dereference"
       | Some phase =>
           if negb (String.eqb phase "Available") then ret false
           else prerequisitesReady (o_namespace check) (DependsOn check)
       end.
Definition step_cronJob (check slurmCluster : resource) : M cluster_state () :=
  do! (match SbatchScript check with
       | Some script =>
           wrapM "reconciling ActiveChecks sbatch script ConfigMap"
             (Reconcile marshal unmarshal (o_uid slurmCluster)
                (RenderSbatchConfigMap (Spec_Name check) (SlurmClusterRefName check) (o_namespace check) script) [])
       | None => ret tt
       end);
  let! foundPodTemplate :=
    match PodTemplateNameRef check with
    | Some name => let! t := wrapM "getting PodTemplate" (client_Get (PodTemplate, o_namespace check, name)) in ret (Some t)
    | None => ret None
    end in
  let! desired := wrapM "rendering Active check CronJob" (lift (RenderK8sCronJob check foundPodTemplate)) in
  do! wrapM "reconciling ActiveChecks CronJob" (Reconcile marshal unmarshal (o_uid slurmCluster) desired []);
  if bool_decide (RunAfterCreation check = Some true) &&
     bool_decide (k8s_LastTransitionTime (K8sJobsStatus (o_status check)) = None)
  then wrapM "run job after creation" (runAfterCreation check desired)
  else ret tt.
Definition Check_Reconcile (namespace name : string) : M cluster_state requeue_after :=
  let! got := lookup_object (ActiveCheck, namespace, name) in
  match got with
  | None => ret None
  | Some check =>
      let check := SetDefaults check in
      match DeletionTimestamp check with
      | Some _ =>
          if ContainsFinalizer check ActiveCheckFinalizer then do! reconcileDelete check; ret None else ret None
      | None =>
          let! check := (if ContainsFinalizer check ActiveCheckFinalizer then ret check
                         else client_Update (AddFinalizer check ActiveCheckFinalizer)) in
          let! slurmCluster := wrapM "getting SlurmCluster" (client_Get (SlurmCluster, namespace, SlurmClusterRefName check)) in
          let! ready := dependenciesReady check slurmCluster in
          if negb ready then ret (Some requeueAfter)
          else
            do! wrapM "reconciling ActiveChecks"
                  (ExecuteMultiStep FailAtFirstError [Step "Active check CronJob" (step_cronJob check slurmCluster)]);
            ret None
      end
  end.
End rendering.

(** ** Deletion *)
(** No other client writes; requests may fail, with or without effect, but not with a false "not found". *)
Definition failing (ev : event fields fields) : Prop :=
  ev_writes ev = [] ∧ match ev_fault ev with
                      | None => True
                      | Some (Refused e) | Some (Lost e) => IsNotFound e = false
                      end.
Definition alone (w : cluster_state) : Prop := Forall failing (w_script w).
(** [changes F m Q]: alone, [m] changes only objects at keys in [F], and if it succeeds [Q] holds of the result and the
    objects. *)
Definition changes {A} (F : key → Prop) (m : M cluster_state A) (Q : A → gmap key resource → Prop) : Prop :=
  ∀ w, alone w →
  alone (m w).1 ∧ (∀ k, ¬ F k → w_objects (m w).1 !! k = w_objects w !! k) ∧ (∀ a, (m w).2 = Ok a → Q a (w_objects (m w).1)).

Lemma changes_request {A} (F : key → Prop) (op : M cluster_state A) (Q : A → gmap key resource → Prop) :
  (∀ w, w_script (op w).1 = w_script w ∧ (∀ k, ¬ F k → w_objects (op w).1 !! k = w_objects w !! k) ∧
        (∀ a, (op w).2 = Ok a → Q a (w_objects (op w).1))) → changes F (request op) Q.
Proof.
  intros Hop w Hw. unfold request, alone in *. destruct (w_script w) as [|ev script] eqn:Hs.
  { destruct (Hop w) as (H1 & H2 & H3). rewrite H1, Hs. auto. }
  apply Forall_cons in Hw as [[-> Hf] Hw]. simpl. set (w1 := World _ _ _). destruct (Hop w1) as (H1 & H2 & H3).
  destruct (ev_fault ev) as [[e|e]|]; simpl; rewrite ?H1; (split_and!; [done|auto|by auto]).
Qed.
Lemma changes_bind {A B} (F : key → Prop) (m : M cluster_state A) (f : A → M cluster_state B) P Q :
  changes F m P → (∀ a w, P a (w_objects w) → alone w →
    alone (f a w).1 ∧ (∀ k, ¬ F k → w_objects (f a w).1 !! k = w_objects w !! k) ∧ (∀ b, (f a w).2 = Ok b → Q b (w_objects (f a w).1))) →
  changes F (bind m f) Q.
Proof.
  intros Hm Hf w Hw. destruct (Hm w Hw) as (H1 & H2 & H3). unfold bind.
  destruct (m w) as [w1 [a|e|s]]; simpl in *; [|by split_and!..].
  destruct (Hf a w1 (H3 a eq_refl) H1) as (G1 & G2 & G3). split_and!; [done| |done]. intros k Hk. by rewrite G2, H2.
Qed.
Lemma changes_Delete k : changes (λ j, j = k) (client_Delete k) (λ _ m, m !! k = None).
Proof.
  apply changes_request. intros w. destruct (w_objects w !! k) eqn:Hk; simpl; split_and!; try done.
  - intros j Hj. by rewrite lookup_delete_ne.
  - intros _ _. by rewrite lookup_delete_eq.
Qed.
Lemma changes_lookup k : changes (λ j, j = k) (lookup_object k) (λ found m, found = None → m !! k = None).
Proof.
  intros w Hw. unfold lookup_object, bind, attempt, client_Get, request, alone in *.
  destruct (w_script w) as [|ev script] eqn:Hs.
  { destruct (w_objects w !! k) eqn:Hk; simpl; rewrite ?Hs; (split_and!; [done|done|]); by intros ? [= <-]. }
  apply Forall_cons in Hw as [[-> Hf] Hw]. simpl.
  destruct (ev_fault ev) as [[e|e]|]; simpl.
  1-2: try (destruct (w_objects w !! k)); simpl; rewrite ?Hf; simpl; by split_and!.
  destruct (w_objects w !! k) eqn:Hk; simpl; (split_and!; [done|done|]); by intros ? [= <-].
Qed.
Lemma changes_getAndDelete k : changes (λ j, j = k) (getAndDelete k) (λ _ m, m !! k = None).
Proof.
  eapply changes_bind; [apply changes_lookup|]. intros [o|] w Hw Ha; [by apply changes_Delete|].
  split_and!; [done|done|]. intros _ _. by apply Hw.
Qed.
Lemma changes_Update o : changes (λ j, j = o_key o) (client_Update o) (λ _ _, True).
Proof.
  apply changes_request. intros w. destruct (w_objects w !! o_key o) as [cur|] eqn:Hk; [|done].
  unfold optimistic. destruct (_ =? _)%Z; [|done]. unfold store. destruct (decide _); [done|]. simpl. split_and!; try done.
  intros j Hj. by rewrite lookup_insert_ne.
Qed.

Lemma lookup_default_true p q b : q ≠ p → default_true p b !! q = b !! q.
Proof. intros Hq. unfold default_true. destruct (field_optbool b p); [done|]. by rewrite lookup_insert_ne. Qed.
Lemma SetDefaults_keeps check q :
  q ≠ ["spec"; "suspend"] → q ≠ ["spec"; "runAfterCreation"] → o_body (SetDefaults check) !! q = o_body check !! q.
Proof. intros H1 H2. simpl. by rewrite !lookup_default_true. Qed.

(** The objects that a check leaves behind. *)
Definition cronJob_key (check : resource) : key := (CronJob, o_namespace check, o_name check).
Definition script_key (check : resource) : key := (ConfigMap, o_namespace check, BuildConfigMapSbatchScriptName (Spec_Name check)).
Definition cleaned (check : resource) (m : gmap key resource) : Prop :=
  m !! cronJob_key check = None ∧ (SbatchScript check ≠ None → m !! script_key check = None).
Lemma reconcileDelete_clean check w :
  alone w → (o_key check).1.1 = ActiveCheck →
  let w' := (reconcileDelete check w).1 in
  (∀ k, k ≠ o_key check → k ≠ cronJob_key check → (k ≠ script_key check ∨ SbatchScript check = None) →
     w_objects w' !! k = w_objects w !! k) ∧
  (w_objects w' !! o_key check = w_objects w !! o_key check ∨ cleaned check (w_objects w')).
Proof.
  intros Hw Hk. set (ck := o_key check) in *.
  assert (ck ≠ cronJob_key check ∧ ck ≠ script_key check) as [Hn1 Hn2] by (split; intros H; by rewrite H in Hk).
  unfold reconcileDelete, bind. fold (cronJob_key check). destruct (changes_getAndDelete (cronJob_key check) w Hw) as (A1 & A2 & A3).
  destruct (getAndDelete (cronJob_key check) w) as [w1 [[]|e|s]]; simpl in *; [specialize (A3 tt eq_refl)|by auto..].
  assert (∃ w2 r, (match SbatchScript check with
                   | Some _ => getAndDelete (ConfigMap, o_namespace check, BuildConfigMapSbatchScriptName (Spec_Name check))
                   | None => ret tt
                   end) w1 = (w2, r) ∧ alone w2 ∧
            (∀ k, k ≠ script_key check ∨ SbatchScript check = None → w_objects w2 !! k = w_objects w1 !! k) ∧
            (r = Ok tt → SbatchScript check ≠ None → w_objects w2 !! script_key check = None)) as (w2 & r & -> & B1 & B2 & B3).
  { destruct (SbatchScript check) as [script|]; [|by eexists _, _]. fold (script_key check).
    destruct (changes_getAndDelete (script_key check) w1 A1) as (B1 & B2 & B3).
    destruct (getAndDelete (script_key check) w1) as [w2 r]. eexists _, _. split; [done|]. split; [done|]. split.
    - intros k [?|?]; [by apply B2|done].
    - intros -> _. by apply (B3 tt). }
  assert (w_objects w2 !! cronJob_key check = None) as Hc by (by rewrite B2 by (by left)).
  destruct r as [[]|e|s]; simpl.
  2-3: split; [intros k H1 H2 H3; by rewrite B2, A2|left; by rewrite B2, A2 by auto].
  destruct (changes_Update (RemoveFinalizer check ActiveCheckFinalizer) w2 B1) as (C1 & C2 & _).
  change (o_key (RemoveFinalizer check ActiveCheckFinalizer)) with ck in C2.
  destruct (client_Update (RemoveFinalizer check ActiveCheckFinalizer) w2) as [w3 r]. simpl in *.
  destruct r as [o|e|s]; simpl;
    (split; [intros k H1 H2 H3; by rewrite C2, B2, A2
            |right; split; [by rewrite C2 by done|intros Hs; rewrite C2 by done; by apply B3]]).
Qed.

(** A check that is being deleted keeps its finalizer until what it created is gone: whichever requests of a pass fail, and
    whether or not they take effect, after the pass either the check is as it was or its CronJob and its script are gone;
    nothing else is touched. *)
Theorem check_deleted_cleanly renderPodSpec MergePodTemplateSpecs marshal unmarshal requeueAfter namespace name check t w :
  alone w → w_objects w !! (ActiveCheck, namespace, name) = Some check → o_key check = (ActiveCheck, namespace, name) →
  DeletionTimestamp check = Some t →
  let w' := (Check_Reconcile renderPodSpec MergePodTemplateSpecs marshal unmarshal requeueAfter namespace name w).1 in
  (∀ k, k ≠ o_key check → k ≠ cronJob_key check → (k ≠ script_key check ∨ SbatchScript check = None) →
     w_objects w' !! k = w_objects w !! k) ∧
  (w_objects w' !! (ActiveCheck, namespace, name) = Some check ∨ cleaned check (w_objects w')).
Proof.
  intros Hw Hc Hk Ht w'. destruct (Check_Reconcile _ _ _ _ _ _ _ w) as [w2 r2] eqn:E in w'. subst w'. revert E. simpl.
  unfold Check_Reconcile, bind at 1.
  destruct (changes_lookup (ActiveCheck, namespace, name) w Hw) as (A1 & A2 & A3).
  assert (∀ w1 r, lookup_object (ActiveCheck, namespace, name) w = (w1, r) →
            w_objects w1 = w_objects w ∧ (r = Ok (Some check) ∨ ∃ e, r = Err e)) as Hl.
  { intros w1 r. unfold lookup_object, bind, attempt, client_Get, request. unfold alone in Hw.
    destruct (w_script w) as [|ev script]; [rewrite Hc; intros [= <- <-]; eauto|].
    apply Forall_cons in Hw as [[-> Hf] _]. simpl.
    destruct (ev_fault ev) as [[e|e]|]; simpl; rewrite ?Hc; simpl; rewrite ?Hf; intros [= <- <-]; eauto. }
  destruct (lookup_object (ActiveCheck, namespace, name) w) as [w1 r] eqn:Hr.
  destruct (Hl w1 r eq_refl) as [Ho [-> |[e ->]]]; [|intros [= <- _]; rewrite Ho; auto].
  assert (DeletionTimestamp (SetDefaults check) = Some t) as ->.
  { unfold DeletionTimestamp, field_time. by rewrite SetDefaults_keeps. }
  simpl in A1. destruct (ContainsFinalizer (SetDefaults check) ActiveCheckFinalizer); [|intros [= <- _]; rewrite Ho; auto].
  assert (SbatchScript (SetDefaults check) = SbatchScript check) as Hs.
  { unfold SbatchScript, field_optstr. by rewrite SetDefaults_keeps. }
  assert (Spec_Name (SetDefaults check) = Spec_Name check) as Hn.
  { unfold Spec_Name, field_str. by rewrite SetDefaults_keeps. }
  destruct (reconcileDelete_clean (SetDefaults check) w1 A1) as [C1 C2]; [simpl; by rewrite Hk|].
  unfold cleaned, cronJob_key, script_key in *. rewrite Hs, Hn in *. simpl in C1, C2. rewrite Ho in C1, C2.
  change (o_namespace (SetDefaults check)) with (o_namespace check) in *. change (o_name (SetDefaults check)) with (o_name check) in *.
  rewrite Hk in C2 at 1 2. rewrite Hc in C2. unfold bind.
  destruct (reconcileDelete (SetDefaults check) w1) as [w3 [[]|e|s]]; simpl in *; intros [= <- _]; by split.
Qed.

(** ** Dependencies *)
(** A prerequisite is done, or need not be waited for. *)
Definition prerequisite_done (o : resource) : Prop :=
  RunAfterCreation o ≠ Some true ∨
  (CheckType o = "k8sJob" ∧ LastJobStatus (K8sJobsStatus (o_status o)) = "Complete") ∨
  (CheckType o = "slurmJob" ∧ LastRunStatus (SlurmJobsStatus (o_status o)) ∈ ["Complete"; "Skipped"]).
Definition may_start (check : resource) (m : gmap key resource) : Prop :=
  ∃ cluster, m !! (SlurmCluster, o_namespace check, SlurmClusterRefName check) = Some cluster ∧
    IsMaintenanceActive (field_optstr (o_body cluster) ["spec"; "maintenance"]) = false ∧
    field_str (o_status cluster) ["phase"] = "Available" ∧
    ∀ p, p ∈ DependsOn check → ∃ o, m !! (ActiveCheck, o_namespace check, p) = Some o ∧ prerequisite_done o.
Lemma lookup_quiet k (w : cluster_state) : quiet w → lookup_object k w = (w, Ok (w_objects w !! k)).
Proof.
  intros Hq. unfold lookup_object, bind, attempt. rewrite Get_quiet by done. by destruct (w_objects w !! k).
Qed.
Lemma prerequisiteReady_done o : prerequisiteReady o = Ok true → prerequisite_done o.
Proof.
  unfold prerequisiteReady, prerequisite_done. destruct (RunAfterCreation o) as [[]|]; [|by auto..].
  destruct (String.eqb_spec (CheckType o) "k8sJob") as [Hk|_].
  { intros [= H%String.eqb_eq]. auto. }
  destruct (String.eqb_spec (CheckType o) "slurmJob") as [Hs|_]; [|done]. intros [= H]. right. right. split; [done|].
  apply orb_prop in H as [H%String.eqb_eq|H%String.eqb_eq]; simpl; rewrite H; set_solver.
Qed.
Lemma prerequisites_done ns names (w w' : cluster_state) :
  quiet w → prerequisitesReady ns names w = (w', Ok true) →
  ∀ p, p ∈ names → ∃ o, w_objects w !! (ActiveCheck, ns, p) = Some o ∧ prerequisite_done o.
Proof.
  intros Hq. induction names as [|x names IH]; intros Hr p Hp; [by apply elem_of_nil in Hp|]. simpl in Hr.
  unfold bind at 1, wrapM in Hr. rewrite lookup_quiet in Hr by done. simpl in Hr.
  destruct (w_objects w !! (ActiveCheck, ns, x)) as [o|] eqn:Ho; [|done]. unfold bind, lift in Hr.
  destruct (prerequisiteReady o) as [[]|e|s] eqn:Hd; [|done..].
  apply elem_of_cons in Hp as [-> |Hp]; [|by apply IH]. exists o. split; [done|]. by apply prerequisiteReady_done.
Qed.
Lemma prerequisites_same ns names (w : cluster_state) : quiet w → (prerequisitesReady ns names w).1 = w.
Proof.
  intros Hq. induction names as [|x names IH]; [done|]. simpl. unfold bind at 1, wrapM. rewrite lookup_quiet by done. simpl.
  destruct (w_objects w !! (ActiveCheck, ns, x)) as [o|]; [|done]. unfold bind, lift. by destruct (prerequisiteReady o) as [[]| |].
Qed.
Lemma ready_may_start check cluster (w w' : cluster_state) :
  quiet w → w_objects w !! (SlurmCluster, o_namespace check, SlurmClusterRefName check) = Some cluster →
  dependenciesReady check cluster w = (w', Ok true) → may_start check (w_objects w).
Proof.
  intros Hq Hc. unfold dependenciesReady. destruct (IsMaintenanceActive _) eqn:Hm; [done|].
  destruct (field_optstr (o_status cluster) ["phase"]) as [phase|] eqn:Hp; [|done].
  destruct (String.eqb_spec phase "Available") as [-> |]; [|done]. simpl. intros Hr.
  exists cluster. split; [done|]. split; [done|]. split; [|by eapply prerequisites_done].
  unfold field_optstr in Hp. unfold field_str. by destruct (o_status cluster !! _) as [[]|]; simplify_eq.
Qed.
Lemma dependenciesReady_same check cluster (w : cluster_state) : quiet w → (dependenciesReady check cluster w).1 = w.
Proof.
  intros Hq. unfold dependenciesReady. destruct (IsMaintenanceActive _); [done|].
  destruct (field_optstr _ _) as [phase|]; [|done]. destruct (negb _); [done|]. by apply prerequisites_same.
Qed.
(** The fields that decide about the start are those of the object as read. *)
Lemma may_start_ext check check1 m m1 :
  o_key check1 = o_key check → SlurmClusterRefName check1 = SlurmClusterRefName check → DependsOn check1 = DependsOn check →
  (∀ k, k ≠ o_key check → m1 !! k = m !! k) → (o_key check).1.1 = ActiveCheck → o_name check ∉ DependsOn check →
  may_start check1 m1 → may_start check m.
Proof.
  intros Hk Hr Hd Hm Ha Hn (cluster & Hc & H1 & H2 & H3). unfold o_namespace in *. rewrite Hk, Hr in Hc. exists cluster.
  split; [rewrite <-Hm; [done|]; intros H; by rewrite <-H in Ha|]. split; [done|]. split; [done|]. intros p Hp.
  rewrite Hd in H3. destruct (H3 p Hp) as (o & Ho & Hdone). exists o. split; [|done]. rewrite Hk in Ho. rewrite <-Hm; [done|].
  intros H. apply Hn. unfold o_name. rewrite <-H. done.
Qed.
Lemma AddFinalizer_keeps check q :
  q ≠ ["metadata"; "finalizers"] → o_body (AddFinalizer check ActiveCheckFinalizer) !! q = o_body check !! q.
Proof. intros Hq. simpl. by rewrite lookup_insert_ne. Qed.
(** The check after its finalizer was added. *)
Lemma added_quiet check (w : cluster_state) o :
  quiet w → filed w → w_objects w !! o_key check = Some o →
  let '(w1, r) := client_Update (AddFinalizer check ActiveCheckFinalizer) w in
  quiet w1 ∧ (∀ k, k ≠ o_key check → w_objects w1 !! k = w_objects w !! k) ∧
  (∀ c, r = Ok c → o_key c = o_key check ∧ ∀ q, q ≠ ["metadata"; "finalizers"] → o_body c !! q = o_body check !! q).
Proof.
  intros Hq Hf Ho. destruct (client_Update _ w) as [w1 r] eqn:E. unfold client_Update, write in E. rewrite quiet_request in E by done.
  change (o_key (AddFinalizer check ActiveCheckFinalizer)) with (o_key check) in E. rewrite Ho in E. unfold optimistic in E.
  destruct (_ =? _)%Z; [|by simplify_eq/=]. unfold store in E. destruct (decide _) as [He|]; simplify_eq/=.
  - split; [done|]. split; [done|]. intros c [= <-]. split; [by apply Hf|]. intros q Hqq.
    rewrite <-He. simpl. by rewrite lookup_insert_ne.
  - split; [done|]. split; [intros k Hk; by rewrite lookup_insert_ne|]. intros c [= <-]. split; [done|].
    intros q Hqq. simpl. by rewrite lookup_insert_ne.
Qed.

(** C33: a check is started only when it may be.  With no other client and no failing request, a pass over an ActiveCheck that is not being
    deleted and does not depend on itself writes nothing but the check itself
    (its finalizer and defaults) unless its cluster is available and not under maintenance and every check it depends on
    is done: has completed or was skipped, or does not run after its creation. *)
Theorem check_waits renderPodSpec MergePodTemplateSpecs marshal unmarshal requeueAfter namespace name check w k :
  quiet w → filed w → w_objects w !! (ActiveCheck, namespace, name) = Some check → DeletionTimestamp check = None →
  name ∉ DependsOn check → k ≠ (ActiveCheck, namespace, name) →
  w_objects (Check_Reconcile renderPodSpec MergePodTemplateSpecs marshal unmarshal requeueAfter namespace name w).1 !! k ≠ w_objects w !! k →
  may_start check (w_objects w).
Proof.
  intros Hq Hf Hc Ht Hn Hk. unfold Check_Reconcile, bind at 1. rewrite lookup_quiet, Hc by done.
  assert (o_key check = (ActiveCheck, namespace, name)) as Hkey by (by apply Hf in Hc).
  assert (DeletionTimestamp (SetDefaults check) = None) as ->.
  { unfold DeletionTimestamp, field_time in *. by rewrite SetDefaults_keeps. }
  set (added := (if ContainsFinalizer (SetDefaults check) ActiveCheckFinalizer then ret (SetDefaults check)
                 else client_Update (AddFinalizer (SetDefaults check) ActiveCheckFinalizer)) : M cluster_state resource).
  assert (let '(w1, r) := added w in
          quiet w1 ∧ (∀ j, j ≠ o_key check → w_objects w1 !! j = w_objects w !! j) ∧
          (∀ c, r = Ok c → o_key c = o_key check ∧ SlurmClusterRefName c = SlurmClusterRefName check ∧ DependsOn c = DependsOn check)) as Ha.
  { unfold SlurmClusterRefName, DependsOn, field_str, field_strs, added. destruct (ContainsFinalizer _ _).
    - split_and!; try done. intros c [= <-]. by rewrite !SetDefaults_keeps.
    - pose proof (added_quiet (SetDefaults check) w check Hq Hf) as H. simpl in H. rewrite Hkey in H. specialize (H Hc).
      destruct (client_Update _ w) as [w1 r]. rewrite Hkey. destruct H as (H1 & H2 & H3). split_and!; [done..|].
      intros c Hr. destruct (H3 c Hr) as [Hcc Hb]. split; [done|]. rewrite !Hb by done. simpl. by rewrite !lookup_default_true. }
  unfold bind at 1. destruct (added w) as [w1 r]. destruct Ha as (Hq1 & Hs1 & Hc1). rewrite Hkey in Hs1.
  destruct r as [c|e|s]; [|by rewrite Hs1..]. destruct (Hc1 c eq_refl) as (Hck & Hcr & Hcd).
  unfold bind at 1, wrapM at 1. rewrite Get_quiet by done. rewrite Hcr.
  destruct (w_objects w1 !! (SlurmCluster, namespace, SlurmClusterRefName check)) as [cluster|] eqn:Hcl; [|by rewrite Hs1].
  simpl. unfold bind at 1. pose proof (dependenciesReady_same c cluster w1 Hq1) as Hsame.
  destruct (dependenciesReady c cluster w1) as [w2 r2] eqn:Hdep. simpl in Hsame. subst w2.
  destruct r2 as [[]|e|s]; [|by rewrite Hs1..]. intros _.
  assert (may_start c (w_objects w1)) as Hm.
  { eapply ready_may_start; [done| |exact Hdep]. unfold o_namespace. by rewrite Hck, Hkey, Hcr. }
  eapply may_start_ext in Hm; [exact Hm|done..| | |]; rewrite ?Hkey; [done|done|]. unfold o_name. by rewrite Hkey.
Qed.

(** *** Examples *)
Definition ex_check (deps : list string) : resource :=
  Obj (ActiveCheck, "ns", "gpu") 1 None ∅ ∅ ∅
    (list_to_map [(["spec"; "name"], VStr "gpu"); (["spec"; "checkType"], VStr "k8sJob"); (["spec"; "slurmClusterRefName"], VStr "c");
                  (["spec"; "dependsOn"], VStrs deps)]) ∅.
Definition ex_cluster (phase : fields) : resource := Obj (SlurmCluster, "ns", "c") 2 None ∅ ∅ ∅ {[["metadata"; "uid"] := VStr "u"]} phase.
Definition available : fields := {[["phase"] := VStr "Available"]}.
Definition ex_state (check cluster : resource) : cluster_state :=
  World 3 (<[o_key check := check]> (<[o_key cluster := cluster]> ∅)) [].
Definition ex_reconcile : M cluster_state requeue_after :=
  Check_Reconcile (λ _, ∅) (λ b _, Ok b) example_marshal example_unmarshal 10 "ns" "gpu".
Definition exists_after (w : cluster_state) (k : key) : bool := bool_decide (is_Some (w_objects (ex_reconcile w).1 !! k)).
Lemma check_waits_witness : may_start (ex_check []) (w_objects (ex_state (ex_check []) (ex_cluster available))).
Proof.
  apply (check_waits (λ _, ∅) (λ b _, Ok b) example_marshal example_unmarshal 10 "ns" "gpu" (ex_check [])
           (ex_state (ex_check []) (ex_cluster available)) (CronJob, "ns", "gpu")).
  - reflexivity.
  - intros k o. simpl. rewrite !lookup_insert_Some, lookup_empty. intros [[<- <-]|[_ [[<- <-]|[_ ?]]]]; done.
  - apply lookup_insert_eq.
  - reflexivity.
  - apply not_elem_of_nil.
  - discriminate.
  - assert (exists_after (ex_state (ex_check []) (ex_cluster available)) (CronJob, "ns", "gpu") = true) as [o Ho]%bool_decide_eq_true
      by (vm_compute; reflexivity).
    intros H. unfold ex_reconcile in Ho. rewrite H in Ho. discriminate Ho.
Defined.
(** The CronJob and the first Job of a check without dependencies, and neither of one that depends on a check that is not
    there. *)
Example started_and_waiting :
  map (λ deps, map (exists_after (ex_state (ex_check deps) (ex_cluster available)))
                 [(CronJob, "ns", "gpu"); (BatchJob, "ns", "gpu-initial-run")]) [[]; ["ssh"]]
  = [[true; true]; [false; false]].
Proof. vm_compute. reflexivity. Qed.
(** A cluster that has no phase yet: the log message dereferences the pointer it was just compared with. *)
Example no_phase_panics : (ex_reconcile (ex_state (ex_check []) (ex_cluster ∅))).2 = Halt "nil pointer dereference".
Proof. vm_compute. reflexivity. Qed.
