(* ===== verification/CheckPods.v ===== *)
(** * The pods of active checks

    [internal/render/soperatorchecks/container.go] and [pod.go]: the pod that the CronJob of an ActiveCheck runs.  A check is a
    script in a container of its own ("k8sJob"), with munge beside it if asked for, or submits Slurm jobs ("slurmJob").
    [check_podSpec] is the pod spec that [ActiveChecks.RenderK8sCronJob] takes. *)
From S2P Require Import Prelude GoStrings GoPaths Naming Effects MultiStep Reconciler Patchers Ownership QuietRuns Workers ActiveCheckJobs.
From S2P Require Import ActiveChecks ClusterValues PodParts WorkerPods ClusterPods.
From Stdlib Require String.

(** ** The check *)
Definition check_spec (check : resource) : fields := subtree ["spec"] (o_body check).
Definition CheckType (check : resource) : string := field_str (check_spec check) ["checkType"].
Definition is_k8sJob (check : resource) : bool := String.eqb (CheckType check) "k8sJob".
Definition is_slurmJob (check : resource) : bool := String.eqb (CheckType check) "slurmJob".
Definition K8sJobSpec (check : resource) : fields := subtree ["k8sJobSpec"] (check_spec check).
Definition SlurmJobSpec (check : resource) : fields := subtree ["slurmJobSpec"] (check_spec check).
Definition JobContainer (job : fields) : fields := subtree ["jobContainer"] job.
Definition MungeContainer (job : fields) : option fields := optsubtree ["mungeContainer"] job.
Definition ScriptRefName (check : resource) : option string := field_optstr (K8sJobSpec check) ["scriptRefName"].
(** Mounts and volumes that the container brings along. *)
Definition mount_of (b : fields) : VolumeMount :=
  mkFullVolumeMount (field_str b ["name"]) (field_str b ["mountPath"]) (field_str b ["subPath"]) (bool_at b ["readOnly"])
    (field_optstr b ["mountPropagation"]) b.
Definition own_mounts (container : fields) : list VolumeMount := mount_of <$> list_at container ["volumeMounts"].
Definition volume_of (b : fields) : Volume := mkVolume (field_str b ["name"]) (GivenVolumeSource (delete ["name"] b)).
Definition own_volumes (container : fields) : list Volume := volume_of <$> list_at container ["volumes"].
Definition own_env (container : fields) : list EnvVar := env_of <$> list_at container ["env"].

(** ** The container *)
Definition check_security (profile : string) : option SecurityContext := Some (security None [SysAdmin] None None profile).
Definition renderContainerK8sCronjob (check : resource) : core_Container :=
  let k8s := JobContainer (K8sJobSpec check) in
  let profile := field_str k8s ["appArmorProfile"] in
  let container (c : fields) (command : list string) (env : list EnvVar) (mounts : list VolumeMount) :=
    mkCoreContainer (Spec_Name check) (field_str c ["image"]) command (field_strs c ["args"]) (field_str c ["workingDir"]) env None
      (field_str c ["imagePullPolicy"]) [] mounts None None (check_security profile) ∅ ∅ None in
  if is_k8sJob check then
    let munge := match MungeContainer (K8sJobSpec check) with
                 | Some _ => [RenderVolumeMountSlurmConfigs; RenderVolumeMountMungeSocket]
                 | None => []
                 end in
    match ScriptRefName check with
    | Some _ => container k8s ["/bin/bash"; "/opt/bin/entrypoint.sh"] (own_env k8s)
                  (own_mounts k8s ++ munge ++ [mkVolumeMount "script-volume" "/opt/bin/entrypoint.sh" "entrypoint.sh" true None])
    | None => container k8s (field_strs k8s ["command"]) (own_env k8s) (own_mounts k8s ++ munge)
    end
  else
    let slurm := SlurmJobSpec check in
    let c := JobContainer slurm in
    container c (field_strs c ["command"])
      (own_env c ++ [text_env "ACTIVE_CHECK_NAME" (o_name check)] ++
       (if bool_at slurm ["eachWorkerJobs"] then [text_env "EACH_WORKER_JOBS" "true"] else []) ++
       (match field_optint slurm ["maxNumberOfJobs"] with Some n => [text_env "ACTIVE_CHECK_MAX_NUMBER_OF_JOBS" (Itoa n)] | None => [] end))
      ([RenderVolumeMountSlurmConfigs; RenderVolumeMountMungeKey; RenderVolumeMountMungeSocket;
        mkVolumeMount "sbatch-volume" "/opt/bin/sbatch.sh" "sbatch.sh" true None] ++ own_mounts c).

(** ** The pod *)
Definition munge_of (c : fields) : Container :=
  mkContainer "munge" 0 (list_to_map [(["image"], VStr (field_str c ["image"])); (["command"], VStrs (field_strs c ["command"]));
                                      (["appArmorProfile"], VStr (field_str c ["appArmorProfile"]))]).
Definition check_inits (check : resource) : list PodContainer :=
  (if is_slurmJob check then [Rendered (RenderContainerMunge (munge_of (default ∅ (MungeContainer (SlurmJobSpec check)))) [])] else []) ++
  (if is_k8sJob check then
     match MungeContainer (K8sJobSpec check) with Some c => [Rendered (RenderContainerMunge (munge_of c) [])] | None => [] end
   else []).
Definition mode_0755 : Z := 493.
Definition script_volume (name configMap key path : string) : Volume :=
  mkVolume name (ConfigMapVolumeSource configMap [mkKeyToPath key path mode_0755] None None).
Definition renderVolumes (check : resource) : list Volume :=
  let cluster := SlurmClusterRefName check in
  let slurmVolumes := [RenderVolumeSlurmConfigs cluster; RenderVolumeMungeKey cluster; RenderVolumeMungeSocket] in
  (if is_k8sJob check then
     own_volumes (JobContainer (K8sJobSpec check)) ++ match MungeContainer (K8sJobSpec check) with Some _ => slurmVolumes | None => [] end
   else if is_slurmJob check then own_volumes (JobContainer (SlurmJobSpec check)) ++ slurmVolumes
   else []) ++
  (if is_k8sJob check then
     match ScriptRefName check with Some name => [script_volume "script-volume" name "script.sh" "entrypoint.sh"] | None => [] end
   else []) ++
  (if is_slurmJob check then
     [script_volume "sbatch-volume"
        (default (BuildConfigMapSbatchScriptName (Spec_Name check)) (field_optstr (SlurmJobSpec check) ["sbatchScriptRefName"]))
        "sbatch.sh" "sbatch.sh"]
   else []).
Definition jobContainerImagePullSecrets (check : resource) : fields :=
  subtree ["imagePullSecrets"] (JobContainer (if is_k8sJob check then K8sJobSpec check else SlurmJobSpec check)).
Definition check_pod (check : resource) : PodSpec :=
  let b := check_spec check in
  {| pod_HostUsers := field_optbool b ["hostUsers"]; pod_ReadinessGates := []; pod_PriorityClassName := "";
     pod_ServiceAccountName := BuildServiceAccountActiveCheckName (SlurmClusterRefName check);
     pod_ImagePullSecrets := jobContainerImagePullSecrets check; pod_Affinity := subtree ["affinity"] b;
     pod_NodeSelector := subtree ["nodeSelector"] b; pod_Tolerations := subtree ["tolerations"] b; pod_InitContainers := check_inits check;
     pod_Containers := [Rendered (renderContainerK8sCronjob check)]; pod_Volumes := renderVolumes check; pod_Hostname := ""; pod_Subdomain := "";
     pod_DNSPolicy := ""; pod_DNSSearches := []; pod_RestartPolicy := "Never"; pod_TerminationGracePeriodSeconds := None;
     pod_ActiveDeadlineSeconds := Some (field_int b ["activeDeadlineSeconds"]); pod_SecurityContext := None; pod_SchedulerName := "";
     pod_HostNetwork := false; pod_HostIPC := false; pod_HostPID := false; pod_ShareProcessNamespace := None |}.
Definition check_podSpec `{PodJSON} (check : resource) : fields := encode_pod (check_pod check).

(** ** Mounts *)
Definition own_container (check : resource) : fields := JobContainer (if is_k8sJob check then K8sJobSpec check else SlurmJobSpec check).
(** A check of one of the two types of the API, whose container mounts only volumes that it declares itself. *)
Definition consistent (check : resource) : Prop :=
  CheckType check ∈ ["k8sJob"; "slurmJob"] ∧
  mounts_in (vol_Name <$> own_volumes (own_container check)) (own_mounts (own_container check)).
Lemma mounts_in_suffix known rest mounts : mounts_in rest mounts → mounts_in (known ++ rest) mounts.
Proof. apply mounts_in_mono. intros x Hx. apply elem_of_app. by right. Qed.
Lemma k8sJob_mounts check : CheckType check = "k8sJob" → consistent check → mounts_declared (check_pod check) [].
Proof.
  intros Ht [_ Hm]. unfold mounts_declared, volume_names. rewrite fmap_nil, app_nil_r.
  unfold check_pod, renderContainerK8sCronjob, check_inits, renderVolumes, own_container, is_slurmJob, is_k8sJob in *. rewrite Ht in *.
  cbn [pod_Volumes pod_InitContainers pod_Containers String.eqb Ascii.eqb Bool.eqb app] in *. rewrite !app_nil_r, !fmap_app, <-(assoc_L (++)).
  destruct (MungeContainer _) as [c|], (ScriptRefName check) as [s|]; (split; first [apply Forall_nil_2|apply Forall_cons_2; [|apply Forall_nil_2]]);
    cbn [container_mounts_in c_VolumeMounts]; rewrite ?mounts_in_app; split_and?;
    first [by apply mounts_in_prefix|apply mounts_in_suffix; by_computation].
Qed.
Lemma slurmJob_mounts check : CheckType check = "slurmJob" → consistent check → mounts_declared (check_pod check) [].
Proof.
  intros Ht [_ Hm]. unfold mounts_declared, volume_names. rewrite fmap_nil, app_nil_r.
  unfold check_pod, renderContainerK8sCronjob, check_inits, renderVolumes, own_container, is_slurmJob, is_k8sJob in *. rewrite Ht in *.
  cbn [pod_Volumes pod_InitContainers pod_Containers String.eqb Ascii.eqb Bool.eqb] in *. rewrite !fmap_app, <-!(assoc_L (++)).
  split; (constructor; [|constructor]); cbn [container_mounts_in c_VolumeMounts]; rewrite ?mounts_in_app; split_and?;
    first [by apply mounts_in_prefix|apply mounts_in_suffix; by_computation].
Qed.
(** The pod of a consistent check's CronJob hangs together: the CronJob holds it, and every mount of its containers refers to a declared volume. *)
Theorem check_pod_admissible `{PodJSON} merge (check cronJob : resource) :
  consistent check → RenderK8sCronJob check_podSpec merge check None = Ok cronJob →
  (∀ q, o_body cronJob !! (["spec"; "jobTemplate"; "spec"; "template"; "spec"] ++ q) = encode_pod (check_pod check) !! q) ∧
  mounts_declared (check_pod check) [].
Proof.
  intros Hc. unfold RenderK8sCronJob. cbn [obind]. intros <-%Ok_inj. split.
  - intros q. cbn [o_body]. unfold check_podSpec. rewrite lookup_union, lookup_below, not_elem_of_list_to_map_1, (left_id_L None _); [done|].
    unfold cronJobSpec. rewrite fmap_app. intros [Hin|Hin]%elem_of_app.
    + rewrite !fmap_cons, !elem_of_cons in Hin. destruct_or? Hin; try discriminate Hin. by apply not_elem_of_nil in Hin.
    + destruct (field_optbool _ _); [|by apply not_elem_of_nil in Hin]. apply list_elem_of_singleton in Hin. discriminate Hin.
  - destruct Hc as [Ht Hm]. pose proof Ht as [Ht'|Ht']%elem_of_cons; [by apply k8sJob_mounts|]. apply list_elem_of_singleton in Ht'. by apply slurmJob_mounts.
Qed.

(** The container of a check that submits Slurm jobs takes its AppArmor profile from the other kind of job. *)
Definition slurm_check : resource :=
  Obj (ActiveCheck, "ns", "check") 1 None ∅ ∅ ∅
    (list_to_map
       [(["spec"; "name"], VStr "check"); (["spec"; "checkType"], VStr "slurmJob"); (["spec"; "slurmJobSpec"; "jobContainer"; "image"], VStr "check");
        (["spec"; "slurmJobSpec"; "jobContainer"; "appArmorProfile"], VStr "localhost/strict")]) ∅.
Example slurm_profile_ignored :
  match c_SecurityContext (renderContainerK8sCronjob slurm_check) with Some s => sec_AppArmorProfile s = None | None => False end.
Proof. vm_compute. reflexivity. Qed.
Lemma check_pod_admissible_witness :
  ∃ cronJob, RenderK8sCronJob (@check_podSpec json_example) (λ base _, Ok base) slurm_check None = Ok cronJob ∧ mounts_declared (check_pod slurm_check) [].
Proof.
  destruct (is_Ok_inv (RenderK8sCronJob (@check_podSpec json_example) (λ base _, Ok base) slurm_check None)) as [cronJob Hc]; [vm_compute; reflexivity|].
  exists cronJob. split; [exact Hc|].
  apply (@check_pod_admissible json_example (λ base _, Ok base) slurm_check cronJob); [|exact Hc]. split; [vm_compute; right; left|vm_compute; constructor].
Defined.
