(* ===== verification/CheckAccounts.v ===== *)
(** * The service account of active checks

    [internal/controller/soperatorchecks/serviceaccount_controller.go] and [internal/render/soperatorchecks/serviceaccount.go], [role.go],
    [role_binding.go]: for every ActiveCheck, the cluster gets a ServiceAccount, a Role and a RoleBinding, under which
    the pods of [CheckPods] run. *)
From S2P Require Import Prelude GoStrings Naming Effects MultiStep Reconciler Patchers Ownership QuietRuns Workers ActiveCheckJobs ActiveChecks.
From S2P Require Import ClusterValues PodParts CheckPods.
From Stdlib Require String.

(** ** Objects *)
Definition check_object (k : kind) (namespace cluster name : string) (body : fields) : resource :=
  new k namespace name (RenderLabels ComponentTypeSoperatorChecks cluster) ∅ body.
Definition check_RenderServiceAccount (namespace cluster : string) : resource :=
  check_object ServiceAccount namespace cluster (BuildServiceAccountActiveCheckName cluster) ∅.
Definition check_rules : list PolicyRule :=
  [Rule [""] ["pods"] [] ["get"]; Rule ["batch"] ["jobs"] [] ["create"; "get"; "patch"]; Rule ["batch"] ["cronjobs"] [] ["get"];
   Rule ["slurm.nebius.ai"] ["activechecks"] [] ["get"; "list"]].
Definition check_RenderRole (namespace cluster : string) : resource :=
  check_object Role namespace cluster (BuildRoleActiveCheckName cluster) {[["rules"] := VRules check_rules]}.
Definition check_RenderRoleBinding (namespace cluster : string) : resource :=
  check_object RoleBinding namespace cluster (BuildRoleBindingActiveCheckName cluster)
    (list_to_map
       [(["subjects"], VRows [[("kind", "ServiceAccount"); ("name", BuildServiceAccountActiveCheckName cluster); ("namespace", namespace)]]);
        (["roleRef"; "apiGroup"], VStr "rbac.authorization.k8s.io"); (["roleRef"; "kind"], VStr "Role");
        (["roleRef"; "name"], VStr (BuildRoleActiveCheckName cluster))]).
Definition check_objects (namespace cluster : string) : list (string * resource) :=
  [("ServiceAccount", check_RenderServiceAccount namespace cluster); ("Role", check_RenderRole namespace cluster);
   ("RoleBinding", check_RenderRoleBinding namespace cluster)].

(** ** The controller *)
Section accounts.
  Context (marshal : gmap string string → string) (unmarshal : string → option (gmap string string)).
Definition managed_step (owner : string) (x : string * resource) : MultiStepExecutionStep cluster_state :=
  Step ("Slurm active check " +:+ x.1) (wrapM ("reconciling active check " +:+ x.1) (Reconcile marshal unmarshal owner x.2 [])).
Definition account_Reconcile (namespace name : string) : M cluster_state () :=
  let! got := attempt (client_Get (ActiveCheck, namespace, name)) in
  match got with
  | inr err => if IsNotFound err then ret tt else fail err
  | inl check =>
      let clusterName := SlurmClusterRefName check in
      let! got := attempt (client_Get (SlurmCluster, namespace, clusterName)) in
      match got with
      | inr err => fail (ErrWrap (if IsNotFound err then "SlurmCluster resource not found" else "getting SlurmCluster") err)
      | inl cluster =>
          if IsMaintenanceActive (field_optstr (o_body cluster) ["spec"; "maintenance"]) then ret tt
          else wrapM "reconciling ServiceAccount"
                 (ExecuteMultiStep FailAtFirstError (managed_step (o_uid cluster) <$> check_objects namespace clusterName))
      end
  end.

(** ** Several objects, one after the other *)
  Hypothesis yaml_roundtrip : ∀ m, unmarshal (TrimSpace (marshal m)) = Some m.
(** On the server as desired. *)
Definition deployed (d : resource) (w : cluster_state) : Prop :=
  ∃ o, w_objects w !! o_key d = Some o ∧ o_key o = o_key d ∧
    ∀ p q, p ∈ patched_fields (o_key d).1.1 → p `prefix_of` q → o_body o !! q = o_body d !! q.
Local Abbreviation settled_in owner d := (settled unmarshal (patch_of (o_key d).1.1) owner d []).
Lemma settled_deployed owner d w : settled_in owner d w → deployed d w.
Proof. intros (o & Hl & Hk & Hp & _). exists o. split_and!; [done..|]. intros p q Hin Hq. by apply (assigned _ _ _ Hp p q). Qed.
Lemma settled_ext owner d w w' : w_objects w' !! o_key d = w_objects w !! o_key d → settled_in owner d w → settled_in owner d w'.
Proof. intros He (o & Hl & Hrest). exists o. by rewrite He. Qed.
Lemma Reconcile_settles owner d w :
  quiet w → desired_ok owner d → (∀ o, w_objects w !! o_key d = Some o → acceptable unmarshal d o) →
  ∃ w', Reconcile marshal unmarshal owner d [] w = (w', Ok tt) ∧ quiet w' ∧ settled_in owner d w' ∧
    ∀ k, k ≠ o_key d → w_objects w' !! k = w_objects w !! k.
Proof.
  intros Hq Hd Ho. unfold Reconcile, wrapM. destruct (reconcile _ _ _ _ _ _ w) as [w' res] eqn:Hr.
  assert (res = Ok tt) as ->.
  { change res with ((w', res).2). rewrite <-Hr. apply reconcile_succeeds; [done|apply _|done..|].
    intros o (Hk & Ht & Hv)%Ho. split_and!; [done| |done]. eexists. by apply patch_of_template. }
  destruct (recon_settled marshal unmarshal yaml_roundtrip (patch_of (o_key d).1.1) owner d [] w w' Hq Hd) as (Hq' & Hs & Hf); [by intros o []%Ho|done|].
  by exists w'.
Qed.
Lemma steps_settle owner (ds : list (string * resource)) w :
  quiet w → NoDup (o_key ∘ snd <$> ds) → Forall (λ x, desired_ok owner x.2) ds →
  Forall (λ x, ∀ o, w_objects w !! o_key x.2 = Some o → acceptable unmarshal x.2 o) ds →
  ∃ w', executeFailAtFirstError (managed_step owner <$> ds) w = (w', Ok tt) ∧ quiet w' ∧ Forall (λ x, settled_in owner x.2 w') ds ∧
    ∀ k, k ∉ (o_key ∘ snd <$> ds) → w_objects w' !! k = w_objects w !! k.
Proof.
  revert w. induction ds as [|x ds IH]; intros w Hq Hn Hd Ha; [by exists w|]. apply Forall_cons in Hd as [Hd Hds], Ha as [Ha Has].
  rewrite fmap_cons in Hn. apply NoDup_cons in Hn as [Hx Hn].
  destruct (Reconcile_settles owner x.2 w Hq Hd Ha) as (w1 & Hr & Hq1 & Hs1 & Hf1).
  assert (∀ y, y ∈ ds → o_key y.2 ≠ o_key x.2) as Hne.
  { intros y Hy Heq. apply Hx, list_elem_of_fmap. exists y. by split. }
  destruct (IH w1 Hq1 Hn Hds) as (w2 & Hr2 & Hq2 & Hs2 & Hf2).
  { apply Forall_forall. intros y Hy. rewrite Hf1 by by apply Hne. by apply (proj1 (Forall_forall _ _) Has). }
  exists w2. split_and!.
  - simpl. unfold bind, wrapM. cbn. rewrite Hr. simpl. exact Hr2.
  - done.
  - constructor; [|done]. by apply (settled_ext _ _ w1); [apply Hf2|].
  - intros k [Hk Hks]%not_elem_of_cons. by rewrite Hf2, Hf1.
Qed.
Lemma steps_fixed owner (ds : list (string * resource)) w :
  quiet w → Forall (λ x, desired_ok owner x.2) ds → Forall (λ x, settled_in owner x.2 w) ds →
  executeFailAtFirstError (managed_step owner <$> ds) w = (w, Ok tt).
Proof.
  intros Hq Hd Hs. induction ds as [|x ds IH]; [done|]. apply Forall_cons in Hd as [Hd Hds], Hs as [Hs Hss]. simpl. unfold bind, wrapM. cbn.
  unfold Reconcile, wrapM. rewrite (settled_fixed marshal unmarshal yaml_roundtrip _ _ _ [] w Hq Hd Hs). simpl. by apply IH.
Qed.
(** The account of a check is there before it is needed.  With no other client and no failing request: if the check and its cluster exist and the
    cluster is not under maintenance, a reconciliation succeeds; afterwards the ServiceAccount which the pod of the check runs under
    exists, with a RoleBinding to it and to a Role with exactly the four rules; all other objects are as they
    were, and a second reconciliation changes nothing.  Under maintenance, nothing is changed at all. *)
Theorem check_account_ready (namespace name : string) (check cluster : resource) (w : cluster_state) :
  quiet w → w_objects w !! (ActiveCheck, namespace, name) = Some check →
  w_objects w !! (SlurmCluster, namespace, SlurmClusterRefName check) = Some cluster →
  let c := SlurmClusterRefName check in
  Forall (λ x, ∀ o, w_objects w !! o_key x.2 = Some o → acceptable unmarshal x.2 o) (check_objects namespace c) →
  if IsMaintenanceActive (field_optstr (o_body cluster) ["spec"; "maintenance"]) then account_Reconcile namespace name w = (w, Ok tt)
  else ∃ w', account_Reconcile namespace name w = (w', Ok tt) ∧ account_Reconcile namespace name w' = (w', Ok tt) ∧
    (∃ account, w_objects w' !! (ServiceAccount, namespace, pod_ServiceAccountName (check_pod check)) = Some account) ∧
    (∃ role, w_objects w' !! (Role, namespace, BuildRoleActiveCheckName c) = Some role ∧ o_body role !! ["rules"] = Some (VRules check_rules)) ∧
    (∃ binding, w_objects w' !! (RoleBinding, namespace, BuildRoleBindingActiveCheckName c) = Some binding ∧
       o_body binding !! ["subjects"] =
         Some (VRows [[("kind", "ServiceAccount"); ("name", pod_ServiceAccountName (check_pod check)); ("namespace", namespace)]]) ∧
       o_body binding !! ["roleRef"; "name"] = Some (VStr (BuildRoleActiveCheckName c))) ∧
    ∀ k, k ∉ (o_key ∘ snd <$> check_objects namespace c) → w_objects w' !! k = w_objects w !! k.
Proof.
  intros Hq Hc Hcl c Ha. destruct (IsMaintenanceActive _) eqn:Hm.
  { unfold account_Reconcile, bind, attempt. rewrite Get_quiet, Hc by done. cbn. rewrite Get_quiet, Hcl by done. cbn. by rewrite Hm. }
  assert (NoDup (o_key ∘ snd <$> check_objects namespace c)) as Hn by (repeat constructor; cbn; set_solver).
  assert (Forall (λ x, desired_ok (o_uid cluster) x.2) (check_objects namespace c)) as Hd by (repeat constructor; cbn; by left).
  destruct (steps_settle (o_uid cluster) (check_objects namespace c) w Hq Hn Hd Ha) as (w' & Hr & Hq' & Hs & Hf).
  assert (∀ w0 w1 : cluster_state, quiet w0 → w_objects w0 !! (ActiveCheck, namespace, name) = Some check →
    w_objects w0 !! (SlurmCluster, namespace, c) = Some cluster →
    executeFailAtFirstError (managed_step (o_uid cluster) <$> check_objects namespace c) w0 = (w1, Ok tt) → account_Reconcile namespace name w0 = (w1, Ok tt)) as Hrun.
  { intros w0 w1 Hq0 H1 H2 H3. unfold account_Reconcile, bind, attempt. rewrite Get_quiet, H1 by done. cbn. rewrite Get_quiet by done.
    fold c. rewrite H2. cbn. rewrite Hm. unfold wrapM, ExecuteMultiStep, wrapM. cbn [check_objects fmap list_fmap] in H3 |- *. by rewrite H3. }
  exists w'. split_and!.
  - by apply Hrun.
  - apply Hrun; [done|rewrite Hf; [done|cbn; set_solver]..|]. by apply steps_fixed.
  - apply Forall_cons in Hs as [(o & Ho & _) _]. by exists o.
  - apply Forall_cons in Hs as [_ [Hs _]%Forall_cons]. destruct (settled_deployed _ _ _ Hs) as (o & Ho & _ & Hb). exists o. split; [done|].
    rewrite (Hb ["rules"] ["rules"]); [apply lookup_singleton_eq|by left|done].
  - apply Forall_cons in Hs as [_ [_ [Hs _]%Forall_cons]%Forall_cons]. destruct (settled_deployed _ _ _ Hs) as (o & Ho & _ & Hb). exists o. split; [done|].
    rewrite (Hb ["subjects"] ["subjects"]), (Hb ["roleRef"] ["roleRef"; "name"]); [done|by right; left|by eexists|by left|done].
  - done.
Qed.
End accounts.
