(* ===== verification/Startup.v ===== *)
(** * Options of the programs

    What the programs read from their flags and their environment before the controllers and the collector start:
    [internal/controllersenabled] (which controllers run) with its use in [cmd/main.go] and [cmd/soperatorchecks/main.go], the thresholds of the
    storage check, and [cmd/exporter/main.go] (the options of the exporter and the choice of its token issuer) with
    [time.ParseDuration].  The [flag] package is not modelled: the flags on the command line are a map. *)
From S2P Require Import Prelude GoStrings SlurmNode SlurmJob StorageCheck Tokens.
From Stdlib Require Import SpecFloat.
From Stdlib Require Import Ascii.
From Stdlib Require String.

(** ** Sets of controllers ([controllersenabled.go]) *)
Module ControllersEnabled.
Definition all_names (available : list string) : gset string := list_to_set (ToLower <$> available).
Definition hasWildcard (entries : list string) : bool := existsb (λ entry, String.eqb (TrimSpace entry) "*") entries.
Fixpoint apply_entries (all : gset string) (entries : list string) (enabled : gmap string bool) : outcome (gmap string bool) :=
  match entries with
  | [] => Ok enabled
  | entry :: rest =>
      let entry := TrimSpace entry in
      if String.eqb entry "" || String.eqb entry "*" then apply_entries all rest enabled
      else
        let disable := HasPrefix entry "-" in
        let name := ToLower (TrimPrefix entry "-") in
        if negb (bool_decide (name ∈ all)) then Err (ErrMsg "unknown controller in SLURM_OPERATOR_CONTROLLERS")
        else apply_entries all rest (<[name := negb disable]> enabled)
  end.
Definition New (spec : string) (available : list string) : outcome (gmap string bool) :=
  let all := all_names available in
  if String.eqb spec "" then Ok (gset_to_gmap true all)
  else
    let entries := Split spec "," in
    apply_entries all entries (gset_to_gmap (hasWildcard entries) all).
(** A nil set enables nothing. *)
Definition Enabled (s : option (gmap string bool)) (name : string) : bool :=
  match s with Some enabled => default false (enabled !! ToLower name) | None => false end.

(** *** What a specification says
    The controllers that its entries name, each with whether it is to run. *)
Definition mention (entry : string) : option (string * bool) :=
  let entry := TrimSpace entry in
  if String.eqb entry "" || String.eqb entry "*" then None else Some (ToLower (TrimPrefix entry "-"), negb (HasPrefix entry "-")).
Definition mentions (entries : list string) : list (string * bool) := omap mention entries.
Definition verdict (entries : list string) (name : string) : option bool :=
  snd <$> last (filter (λ m, m.1 = name) (mentions entries)).

Lemma mentions_cons entry entries :
  mentions (entry :: entries) = match mention entry with Some m => m :: mentions entries | None => mentions entries end.
Proof. unfold mentions. cbn. by destruct (mention entry). Qed.
Lemma apply_entries_spec all entries enabled :
  match apply_entries all entries enabled with
  | Ok s => Forall (λ m, m.1 ∈ all) (mentions entries) ∧ ∀ name, s !! name = match verdict entries name with Some b => Some b | None => enabled !! name end
  | Err _ => ∃ m, m ∈ mentions entries ∧ m.1 ∉ all
  | Halt _ => False
  end.
Proof.
  revert enabled. induction entries as [|entry entries IH]; intros enabled; cbn [apply_entries]; [by split; [constructor|]|].
  unfold verdict. rewrite mentions_cons. unfold mention.
  set (e := TrimSpace entry). destruct (String.eqb e "" || String.eqb e "*"); [apply IH|].
  set (name := ToLower (TrimPrefix e "-")). set (b := negb (HasPrefix e "-")).
  case_bool_decide as Hin; cbn [negb]; [|exists (name, b); split; [left|done]].
  specialize (IH (<[name := b]> enabled)). destruct (apply_entries all entries _) as [s|err|w]; [|by destruct IH as (m & ? & ?); exists m; split; [right|]|done].
  destruct IH as [Hall Hs]. split; [by constructor|]. intros n. rewrite Hs. unfold verdict. rewrite filter_cons. cbn [fst].
  destruct (decide (name = n)) as [<-|Hn].
  - rewrite last_cons. destruct (last _); [done|]. by rewrite lookup_insert_eq.
  - destruct (snd <$> _); [done|]. by rewrite lookup_insert_ne.
Qed.
End ControllersEnabled.
Import ControllersEnabled.

(** The specification rules which controllers run.  It is refused exactly when one of its entries names a controller that there is
    not; otherwise, a controller runs if it exists and the last entry which names it does not disable it, or if no entry names
    it and the specification is empty or has a "*".  Upper and lower case and blanks around the entries do not matter. *)
Theorem controllers_selected (spec : string) (available : list string) :
  match New spec available with
  | Ok s =>
      Forall (λ m, m.1 ∈ ToLower <$> available) (mentions (Split spec ",")) ∧
      ∀ name, Enabled (Some s) name = true ↔ ToLower name ∈ ToLower <$> available ∧
        match verdict (Split spec ",") (ToLower name) with
        | Some b => b = true
        | None => spec = "" ∨ "*" ∈ TrimSpace <$> Split spec ","
        end
  | Err _ => ∃ m, m ∈ mentions (Split spec ",") ∧ m.1 ∉ ToLower <$> available
  | Halt _ => False
  end.
Proof.
  unfold New. set (all := all_names available).
  assert (∀ x, x ∈ all ↔ x ∈ ToLower <$> available) as Hall by (intros x; apply elem_of_list_to_set).
  assert (∀ b name, gset_to_gmap b all !! ToLower name = Some true ↔ ToLower name ∈ ToLower <$> available ∧ b = true) as Hinit.
  { intros b name. rewrite lookup_gset_to_gmap_Some, Hall. done. }
  destruct (String.eqb_spec spec "") as [->|Hspec].
  { split; [by constructor|]. intros name. unfold Enabled. cbn.
    specialize (Hinit true name). destruct (_ !! _) as [[]|]; cbn; naive_solver. }
  pose proof (apply_entries_spec all (Split spec ",") (gset_to_gmap (hasWildcard (Split spec ",")) all)) as H.
  destruct (apply_entries _ _ _) as [s|e|w]; [|by setoid_rewrite Hall in H|done].
  destruct H as [Hm Hs]. split; [by setoid_rewrite Hall in Hm|]. intros name. unfold Enabled. rewrite Hs.
  destruct (verdict _ _) as [b|] eqn:Hv.
  - cbn. split; [intros ->|by intros [_ ->]]. split; [|done]. unfold verdict in Hv. apply fmap_Some in Hv as (m & Hlast & _).
    apply last_Some_elem_of, list_elem_of_filter in Hlast as [<- Hin]. rewrite Forall_forall in Hm. by apply Hall, Hm.
  - assert (hasWildcard (Split spec ",") = true ↔ "*" ∈ TrimSpace <$> Split spec ",") as Hw.
    { unfold hasWildcard. rewrite existsb_elem, list_elem_of_fmap. setoid_rewrite String.eqb_eq. naive_solver. }
    specialize (Hinit (hasWildcard (Split spec ",")) name). rewrite Hw in Hinit. destruct (_ !! _) as [[]|]; cbn; naive_solver.
Qed.

(** ** The controllers of the two managers ([cmd/main.go], [cmd/soperatorchecks/main.go])
    The flag overrides the environment.  What is set up is listed by name, webhooks with a prefix. *)
Definition controllersSpec (env flag : string) : string := if String.eqb flag "" then env else flag.
Definition operator_available : list string := ["cluster"; "nodeconfigurator"; "nodeset"; "rollingupdate"; "topology"].
Definition operator_setup (controllersSet : gmap string bool) (ENABLE_WEBHOOKS : string) : list string :=
  let enabled := Enabled (Some controllersSet) in
  let webhooks l := if String.eqb ENABLE_WEBHOOKS "false" then [] else l in
  (if enabled "cluster" then "SlurmCluster" :: webhooks ["webhook/SlurmCluster"; "webhook/Secret"] else []) ++
  (if enabled "nodeconfigurator" then ["NodeConfigurator"] else []) ++
  (if enabled "nodeset" then "NodeSet" :: webhooks ["webhook/NodeSet"] else []) ++
  (if enabled "rollingupdate" then ["SlurmAPIClients"; "RollingUpdate"] else []) ++
  (if enabled "topology" then ["NodeTopology"; "WorkerTopology"] else []).
Definition checks_available : list string :=
  ["slurmapiclients"; "slurmnodes"; "k8snodes"; "activecheck"; "activecheckjob"; "serviceaccount"; "podephemeralstoragecheck"].
Definition checks_setup (controllersSet : gmap string bool) : list string :=
  let enabled := Enabled (Some controllersSet) in
  (if enabled "slurmapiclients" then ["SlurmAPIClients"] else []) ++ (if enabled "slurmnodes" then ["SlurmNodes"] else []) ++
  (if enabled "k8snodes" then ["K8SNodes"] else []) ++ (if enabled "activecheck" then ["ActiveCheck"] else []) ++
  (if enabled "activecheckjob" then ["ActiveCheckJob"] else []) ++ (if enabled "serviceaccount" then ["ServiceAccount"] else []) ++
  (if enabled "podephemeralstoragecheck" then ["PodEphemeralStorageCheck"] else []).
Definition f_zero : float64 := S754_zero false.
(** [x >= y] is [y <= x]; every comparison with NaN is false. *)
Definition checkThresholds (ephemeralStorageThreshold ephemeralStorageResumeThreshold : float64) : outcome () :=
  let outside x := SFltb x f_zero || SFltb (of_uint64 100) x in
  if outside ephemeralStorageThreshold then Err (ErrMsg "ephemeral-storage-threshold must be between 0 and 100")
  else if outside ephemeralStorageResumeThreshold then Err (ErrMsg "ephemeral-storage-resume-threshold must be between 0 and 100")
  else if SFleb ephemeralStorageThreshold ephemeralStorageResumeThreshold
  then Err (ErrMsg "ephemeral-storage-resume-threshold must be less than ephemeral-storage-threshold")
  else Ok tt.

Lemma SFcompare_antisym x y : SFcompare y x = CompOpp <$> SFcompare x y.
Proof.
  destruct x as [[]|[]| |[] m e], y as [[]|[]| |[] m' e']; try done; cbn; rewrite (Z.compare_antisym e e');
    destruct (e ?= e')%Z; cbn; try done; try (by rewrite (Pos.compare_cont_antisym m m' Eq)); f_equal; rewrite <-(Pos.compare_cont_antisym _ _ Eq); done.
Qed.

(** The storage check cannot flap: thresholds that the program accepts, other than NaN, lie within 0 and 100, and the one for resuming is below the one for draining. *)
Theorem thresholds_ordered (threshold resume : float64) :
  checkThresholds threshold resume = Ok tt → threshold ≠ S754_nan → resume ≠ S754_nan →
  SFltb resume threshold = true ∧ SFltb resume f_zero = false ∧ SFltb (of_uint64 100) threshold = false.
Proof.
  unfold checkThresholds. destruct (SFltb threshold f_zero || _) eqn:Ht; [done|]. destruct (SFltb resume f_zero || _) eqn:Hr; [done|].
  apply orb_false_iff in Ht as [_ Ht], Hr as [Hr _]. destruct (SFleb threshold resume) eqn:Hle; [done|]. intros _ Hnt Hnr.
  split; [|done]. unfold SFleb in Hle. unfold SFltb. rewrite SFcompare_antisym.
  destruct (SFcompare threshold resume) as [[]|] eqn:Hc; [done..|]. by destruct threshold as [?|[]| |[] ? ?], resume as [?|[]| |[] ? ?].
Qed.
(** NaN is accepted, and then no node is ever drained. *)
Example nan_threshold_accepted :
  checkThresholds S754_nan S754_nan = Ok tt ∧ ∀ usage, SFltb S754_nan usage = false.
Proof. done. Qed.
(** In the second manager the clients of the Slurm API can be switched off while the controllers that need them run. *)
Example clients_switched_off :
  checks_setup <$> (match New "*, -SlurmApiClients" checks_available with Ok s => Some s | _ => None end) =
  Some ["SlurmNodes"; "K8SNodes"; "ActiveCheck"; "ActiveCheckJob"; "ServiceAccount"; "PodEphemeralStorageCheck"].
Proof. by vm_compute. Qed.
(** A specification that only disables does not run the rest. *)
Example only_disabling : (λ s, operator_setup s "") <$> (match New "-topology" operator_available with Ok s => Some s | _ => None end) = Some [].
Proof. by vm_compute. Qed.

(** ** Durations ([time.ParseDuration])
    A sequence of decimal numbers with units, in nanoseconds; 64 bits, with the range checks and the unsigned sum of the library.  Fractions are computed in
    binary64. *)
Module Duration.
Definition two63 : Z := 2 ^ 63.
Fixpoint leadingInt (s : string) (x : Z) : option (Z * string) :=
  match s with
  | String c s' =>
      if is_digit c then
        if (two63 `div` 10 <? x)%Z then None
        else let x := (x * 10 + digit_val c)%Z in if (two63 <? x)%Z then None else leadingInt s' x
      else Some (x, s)
  | EmptyString => Some (x, s)
  end.
Fixpoint leadingFraction (s : string) (x : Z) (scale : float64) (overflow : bool) : Z * float64 * string :=
  match s with
  | String c s' =>
      if is_digit c then
        if overflow || (max_int 64 `div` 10 <? x)%Z then leadingFraction s' x scale true
        else let y := (x * 10 + digit_val c)%Z in
             if (two63 <? y)%Z then leadingFraction s' x scale true
             else leadingFraction s' y (fmul scale (of_uint64 10)) false
      else (x, scale, s)
  | EmptyString => (x, scale, s)
  end.
Fixpoint take_unit (s : string) : string * string :=
  match s with
  | String c s' => if Ascii.eqb c "." || is_digit c then (EmptyString, s) else let '(u, r) := take_unit s' in (String c u, r)
  | EmptyString => (EmptyString, s)
  end.
(** The third and the fourth are the two Greek letters for micro. *)
Definition micro_sign : string := String "194" (String "181" "s").
Definition greek_mu : string := String "206" (String "188" "s").
Definition unitMap : list (string * Z) :=
  [("ns", 1); ("us", 1000); (micro_sign, 1000); (greek_mu, 1000); ("ms", 1000000); ("s", second); ("m", 60 * second); ("h", hour)]%Z.
Fixpoint assoc (l : list (string * Z)) (u : string) : option Z :=
  match l with [] => None | (k, v) :: l => if String.eqb k u then Some v else assoc l u end.
(** [uint64] of a float: towards zero. *)
Definition trunc (x : float64) : Z :=
  match x with
  | S754_finite s m e => let v := (if (0 <=? e)%Z then Z.pos m * 2 ^ e else Z.pos m `div` 2 ^ (- e))%Z in if s then (- v)%Z else v
  | _ => 0%Z
  end.
Definition invalid {A} : outcome A := Err (ErrMsg "time: invalid duration").
(** The number after the point, with its scale, and whether it has any digits. *)
Definition fraction (s : string) : Z * float64 * string * bool :=
  match s with
  | String "." s' => let '(f, scale, r) := leadingFraction s' 0 (of_uint64 1) false in (f, scale, r, negb (Nat.eqb (String.length r) (String.length s')))
  | _ => (0%Z, of_uint64 1, s, false)
  end.
(** One number with its unit. *)
Definition element (s : string) : outcome (Z * string) :=
  match leadingInt s 0 with
  | None => invalid
  | Some (v, s1) =>
      let pre := negb (Nat.eqb (String.length s1) (String.length s)) in
      let '(f, scale, s2, post) := fraction s1 in
      if negb pre && negb post then invalid
      else
        let '(u, s3) := take_unit s2 in
        if String.eqb u "" then Err (ErrMsg "time: missing unit in duration")
        else
          match assoc unitMap u with
          | None => Err (ErrMsg "time: unknown unit in duration")
          | Some unit =>
              if (two63 `div` unit <? v)%Z then invalid
              else
                let v := (v * unit)%Z in
                let v := (if (0 <? f)%Z then v + trunc (fmul (of_uint64 f) (fdiv (of_uint64 unit) scale)) else v)%Z in
                if (two63 <? v)%Z then invalid else Ok (v, s3)
          end
  end.
Fixpoint elements (fuel : nat) (s : string) (d : Z) : outcome Z :=
  match s with
  | EmptyString => Ok d
  | String c _ =>
      match fuel with
      | O => Halt "fuel"
      | S fuel =>
          if negb (Ascii.eqb c "." || is_digit c) then invalid
          else let? r := element s in
               let d := ((d + r.1) `mod` 2 ^ 64)%Z in
               if (two63 <? d)%Z then invalid else elements fuel r.2 d
      end
  end.
Definition ParseDuration (s : string) : outcome Z :=
  let '(neg, s) := match s with String "-" r => (true, r) | String "+" r => (false, r) | _ => (false, s) end in
  if String.eqb s "0" then Ok 0%Z
  else if String.eqb s "" then invalid
  else let? d := elements (String.length s) s 0 in
       if (neg : bool) then Ok (- d)%Z else if (max_int 64 <? d)%Z then invalid else Ok d.
End Duration.
Import Duration.
Example ParseDuration_ex :
  (ParseDuration "30m", ParseDuration "1h15m30.5s", ParseDuration "-1.5h", ParseDuration ".5s", ParseDuration "0", ParseDuration "+0s",
   ParseDuration "9223372036854775807ns", ParseDuration "-9223372036854775808ns", ParseDuration "0.3333333333333333333h") =
  (Ok (1800 * second), Ok (4530500000000), Ok (- 5400000000000), Ok 500000000, Ok 0, Ok 0,
   Ok 9223372036854775807, Ok (- 9223372036854775808), Ok 1200000000000)%Z.
Proof. by vm_compute. Qed.
Example ParseDuration_errors :
  ParseDuration <$> [""; "-"; "30"; "."; ".s"; "1d"; "1h-5m"; "9223372036854775808ns"; "3000000h"] =
  [invalid; invalid; Err (ErrMsg "time: missing unit in duration"); invalid; invalid; Err (ErrMsg "time: unknown unit in duration");
   Err (ErrMsg "time: unknown unit in duration"); invalid; invalid].
Proof. by vm_compute. Qed.

Lemma take_unit_app u s : str_forallb (λ c, negb (Ascii.eqb c "." || is_digit c)) u = true →
  (∀ c s', s = String c s' → Ascii.eqb c "." || is_digit c = true) → take_unit (u +:+ s) = (u, s).
Proof.
  intros Hu Hs. induction u as [|c u IH].
  - rewrite str_app_nil_l. destruct s as [|c s]; [done|]. cbn [take_unit]. by rewrite (Hs c s eq_refl).
  - cbn [str_forallb] in Hu. apply andb_true_iff in Hu as [Hc%negb_true_iff Hu]. rewrite str_app_cons. cbn [take_unit]. by rewrite Hc, IH.
Qed.
Lemma take_unit_length s u r : take_unit s = (u, r) → String.length s = String.length u + String.length r.
Proof.
  revert u r. induction s as [|c s IH]; intros u r; cbn [take_unit]; [by intros [= <- <-]|].
  destruct (_ || _); [by intros [= <- <-]|]. destruct (take_unit s) as [u' r'] eqn:E. intros [= <- <-]. cbn. by rewrite (IH u' r').
Qed.
Lemma leadingInt_length s x v r : leadingInt s x = Some (v, r) → String.length r ≤ String.length s.
Proof.
  revert x. induction s as [|c s IH]; intros x; cbn [leadingInt String.length]; [intros [= <- <-]; cbn; lia|].
  destruct (is_digit c); [|intros [= <- <-]; cbn; lia]. destruct (_ <? x)%Z; [done|]. destruct (_ <? _)%Z; [done|]. intros ?%IH. lia.
Qed.
Lemma leadingInt_range s x v r : (0 ≤ x)%Z → leadingInt s x = Some (v, r) → (0 ≤ v)%Z.
Proof.
  revert x. induction s as [|c s IH]; intros x Hx; cbn [leadingInt]; [by intros [= <- <-]|].
  destruct (is_digit c) eqn:Hc; [|by intros [= <- <-]]. destruct (_ <? x)%Z; [done|]. destruct (_ <? _)%Z; [done|].
  apply IH. pose proof (digit_val_spec c Hc). lia.
Qed.
Lemma leadingInt_digits d s x :
  isDigits d = true → (∀ c s', s = String c s' → is_digit c = false) → (0 ≤ x)%Z → (digits_val x d ≤ max_int 64)%Z →
  leadingInt (d +:+ s) x = Some (digits_val x d, s).
Proof.
  intros Hd Hs. revert x. induction d as [|c d IH]; intros x Hx Hmax.
  - rewrite str_app_nil_l. destruct s as [|c s]; [done|]. cbn [leadingInt digits_val]. by rewrite (Hs c s eq_refl).
  - unfold isDigits in Hd. cbn [str_forallb] in Hd. apply andb_true_iff in Hd as [Hc Hd]. cbn [digits_val] in Hmax.
    rewrite str_app_cons. cbn [leadingInt digits_val]. rewrite Hc.
    assert (x * 10 + digit_val c ≤ max_int 64)%Z as Hstep.
    { etrans; [|exact Hmax]. clear -Hd Hx Hc. assert (0 ≤ x * 10 + digit_val c)%Z as H0 by (pose proof (digit_val_spec c Hc); lia).
      revert H0. generalize (x * 10 + digit_val c)%Z. induction d as [|c' d IH]; intros y Hy; cbn [digits_val]; [done|].
      unfold isDigits in Hd. cbn [str_forallb] in Hd. apply andb_true_iff in Hd as [Hc' Hd]. pose proof (digit_val_spec c' Hc'). etrans; [|apply IH; [done|lia]]. lia. }
    pose proof (digit_val_spec c Hc). change (two63 `div` 10)%Z with 922337203685477580%Z. change two63 with 9223372036854775808%Z.
    change (max_int 64) with 9223372036854775807%Z in *. destruct (Z.ltb_spec 922337203685477580 x); [lia|].
    destruct (Z.ltb_spec 9223372036854775808 (x * 10 + digit_val c)); [lia|]. apply IH; [done|lia|done].
Qed.
Lemma leadingFraction_length s x scale o f sc r : leadingFraction s x scale o = (f, sc, r) → String.length r ≤ String.length s.
Proof.
  revert x scale o. induction s as [|c s IH]; intros x scale o; cbn [leadingFraction]; [intros [= <- <- <-]; cbn; lia|].
  destruct (is_digit c); [|intros [= <- <- <-]; cbn; lia]. cbn [String.length]. destruct (o || _); [intros ?%IH; lia|].
  destruct (_ <? _)%Z; intros ?%IH; lia.
Qed.
Lemma fraction_length s f sc r b : fraction s = (f, sc, r, b) → String.length r ≤ String.length s.
Proof.
  unfold fraction. destruct s as [|c s]; [intros [= <- <- <- <-]; done|].
  destruct (decide (c = "."%char)) as [->|Hc].
  - destruct (leadingFraction s 0 (of_uint64 1) false) as [[f' sc'] r'] eqn:E. intros [= <- <- <- <-]. apply leadingFraction_length in E. cbn. lia.
  - assert (fraction (String c s) = (0%Z, of_uint64 1, String c s, false)) as H by (destruct c as [[] [] [] [] [] [] [] []]; done || by destruct Hc).
    unfold fraction in H. rewrite H. intros [= <- <- <- <-]. done.
Qed.
Lemma element_spec s : match element s with Ok (_, r) => String.length r < String.length s | Err _ => True | Halt _ => False end.
Proof.
  unfold element, invalid. destruct (leadingInt s 0) as [[v s1]|] eqn:H1; [|done]. apply leadingInt_length in H1.
  destruct (fraction s1) as [[[f sc] s2] post] eqn:H2. apply fraction_length in H2. destruct (negb _ && negb _); [done|].
  destruct (take_unit s2) as [u s3] eqn:H3. apply take_unit_length in H3. destruct (String.eqb_spec u "") as [|Hu]; [done|].
  assert (0 < String.length u) by (destruct u; [done|cbn; lia]). destruct (assoc unitMap u); [|done].
  destruct (_ <? v)%Z; [done|]. destruct (two63 <? _)%Z; [done|]. lia.
Qed.
Lemma elements_spec fuel s d :
  String.length s ≤ fuel → (0 ≤ d ≤ two63)%Z →
  match elements fuel s d with Ok d' => (0 ≤ d' ≤ two63)%Z | Err _ => True | Halt _ => False end.
Proof.
  revert s d. induction fuel as [|fuel IH]; intros [|c s] d Hl Hd; cbn [elements]; [done|cbn in Hl; lia|done|].
  destruct (negb _); [done|]. pose proof (element_spec (String c s)) as He. destruct (element _) as [[v r]|e|w]; cbn [obind]; [|done..]. cbn [fst snd].
  destruct (Z.ltb_spec two63 ((d + v) `mod` 2 ^ 64)); [done|]. apply IH; [lia|]. split; [by apply Z.mod_pos_bound|done].
Qed.
Lemma ParseDuration_signed s : ∃ neg body, String.length body ≤ String.length s ∧
  ParseDuration s = (if String.eqb body "0" then Ok 0%Z else if String.eqb body "" then invalid
                     else let? d := elements (String.length body) body 0 in
                          if (neg : bool) then Ok (- d)%Z else if (max_int 64 <? d)%Z then invalid else Ok d).
Proof.
  unfold ParseDuration. destruct (match s with String "-" r => _ | _ => _ end) as [neg body] eqn:E. exists neg, body. split; [|done].
  destruct s as [|c s]; [by injection E as <- <-|]. destruct c as [[] [] [] [] [] [] [] []]; injection E as <- <-; cbn; lia.
Qed.

(** Parsing a duration always ends, in an error or in a duration of 64 bits. *)
Theorem ParseDuration_total (s : string) :
  match ParseDuration s with Ok d => (min_int 64 ≤ d ≤ max_int 64)%Z | Err _ => True | Halt _ => False end.
Proof.
  destruct (ParseDuration_signed s) as (neg & body & _ & ->). destruct (String.eqb body "0"); [done|]. destruct (String.eqb body ""); [done|].
  pose proof (elements_spec (String.length body) body 0 (le_n _) ltac:(done)) as H. destruct (elements _ _ _) as [d|e|w]; cbn [obind]; [|done..].
  change two63 with 9223372036854775808%Z in H. change (max_int 64) with 9223372036854775807%Z. change (min_int 64) with (-9223372036854775808)%Z.
  destruct neg; [lia|]. destruct (Z.ltb_spec 9223372036854775807 d); [done|lia].
Qed.
(** A whole number of any unit reads as what it says, as long as it fits into 64 bits. *)
Theorem ParseDuration_whole (n unit : Z) (u : string) :
  (u, unit) ∈ unitMap → (0 ≤ n)%Z → (n * unit ≤ max_int 64)%Z → ParseDuration (Itoa n +:+ u) = Ok (n * unit)%Z.
Proof.
  intros Hu Hn Hmax. destruct (print_nonneg_spec n Hn) as (Hd & Hv & Hne).
  assert (Itoa n = print_nonneg n) as -> by (unfold Itoa; by destruct (Z.ltb_spec n 0); [lia|]). set (d := print_nonneg n) in *.
  assert (str_forallb (λ c, negb (Ascii.eqb c "." || is_digit c)) u = true ∧ u ≠ "" ∧ assoc unitMap u = Some unit ∧ (1 ≤ unit ≤ hour)%Z) as (Hf & Hu0 & Ha & Hpos).
  { unfold unitMap in Hu. elem_cases Hu; injection Hu as -> ->; by vm_compute. }
  destruct d as [|c d'] eqn:Ed; [done|]. assert (is_digit c = true) as Hc by (unfold isDigits in Hd; cbn [str_forallb] in Hd; by apply andb_true_iff in Hd as [? _]).
  assert (∀ c' s', u = String c' s' → is_digit c' = false ∧ Ascii.eqb c' "." = false) as Hhead.
  { intros c' s' ->. cbn [str_forallb] in Hf. apply andb_true_iff in Hf as [Hf _]. by apply negb_true_iff, orb_false_iff in Hf as [? ?]. }
  assert (element (String c d' +:+ u) = Ok ((n * unit)%Z, EmptyString)) as He.
  { unfold element. rewrite leadingInt_digits; [|done|by intros ? ? [? ?]%Hhead|done|rewrite Hv; unfold hour in *; nia].
    rewrite Hv, str_length_app. destruct (Nat.eqb_spec (String.length u) (String.length (String c d') + String.length u)) as [E|_]; [cbn in E; lia|]. cbn [negb andb].
    assert (fraction u = (0%Z, of_uint64 1, u, false)) as ->.
    { destruct u as [|c' u']; [done|]. destruct (Hhead c' u' eq_refl) as [_ Hdot]. unfold fraction. destruct c' as [[] [] [] [] [] [] [] []]; done. }
    rewrite <-(str_app_nil_r u) at 1. rewrite take_unit_app by done. destruct (String.eqb_spec u ""); [done|]. rewrite Ha. cbn [negb].
    assert (n ≤ two63 `div` unit)%Z by (apply Z.div_le_lower_bound; [lia|]; change two63 with (max_int 64 + 1)%Z; lia).
    destruct (Z.ltb_spec (two63 `div` unit) n); [lia|]. cbn [Z.ltb Z.compare]. change two63 with (max_int 64 + 1)%Z. destruct (Z.ltb_spec (max_int 64 + 1) (n * unit)); [lia|done]. }
  assert (∃ m, String.length (String c d' +:+ u) = S m) as [m Hm] by (rewrite str_length_app; cbn; by eexists).
  assert (elements (S m) (String c d' +:+ u) 0 = Ok (n * unit)%Z) as Hel.
  { rewrite str_app_cons in *. cbn [elements]. rewrite Hc, orb_true_r. cbn [negb]. rewrite He. cbn [obind fst snd].
    rewrite Z.add_0_l, Z.mod_small by (change (max_int 64) with 9223372036854775807%Z in Hmax; lia).
    change two63 with (max_int 64 + 1)%Z. destruct (Z.ltb_spec (max_int 64 + 1) (n * unit)); [lia|]. by destruct m. }
  unfold ParseDuration.
  assert ((match String c d' +:+ u with String "-" r => (true, r) | String "+" r => (false, r) | _ => (false, String c d' +:+ u) end) = (false, String c d' +:+ u)) as ->.
  { rewrite str_app_cons. destruct c as [[] [] [] [] [] [] [] []]; done. }
  destruct (String.eqb_spec (String c d' +:+ u) "0") as [E|_].
  { rewrite str_app_cons in E. injection E as _ E. apply str_app_eq_nil in E as [_ ?]. done. }
  rewrite str_app_cons in *. cbn [String.eqb]. rewrite Hm, Hel. cbn [obind]. by destruct (Z.ltb_spec (max_int 64) (n * unit)); [lia|].
Qed.

(** ** The exporter ([cmd/exporter/main.go])
    [passed] has the values of the flags on the command line, [getenv] the environment.  Prometheus' parser of durations is third-party code and
    an argument. *)
Record flagConfig := mkFlagConfig { flagName : string; envName : string; defaultVal : string }.
Definition configs : list flagConfig :=
  [mkFlagConfig "log-format" "SLURM_EXPORTER_LOG_FORMAT" "json"; mkFlagConfig "log-level" "SLURM_EXPORTER_LOG_LEVEL" "debug";
   mkFlagConfig "metrics-bind-address" "SLURM_EXPORTER_METRICS_BIND_ADDRESS" ":8080";
   mkFlagConfig "monitoring-bind-address" "SLURM_EXPORTER_MONITORING_BIND_ADDRESS" ":8081";
   mkFlagConfig "slurm-api-server" "SLURM_EXPORTER_SLURM_API_SERVER" "http://localhost:6820";
   mkFlagConfig "cluster-namespace" "SLURM_EXPORTER_CLUSTER_NAMESPACE" "soperator"; mkFlagConfig "cluster-name" "SLURM_EXPORTER_CLUSTER_NAME" "";
   mkFlagConfig "collection-interval" "SLURM_EXPORTER_COLLECTION_INTERVAL" "30s";
   mkFlagConfig "max-collector-inflight" "SLURM_EXPORTER_MAX_COLLECTOR_INFLIGHT" "1"; mkFlagConfig "job-source" "SLURM_EXPORTER_JOB_SOURCE" "controller";
   mkFlagConfig "accounting-jobs-lookback" "SLURM_EXPORTER_ACCOUNTING_JOBS_LOOKBACK" "1h";
   mkFlagConfig "scontrol-path" "SLURM_EXPORTER_SCONTROL_PATH" "scontrol";
   mkFlagConfig "key-rotation-interval" "SLURM_EXPORTER_KEY_ROTATION_INTERVAL" "30m"].
Record Flags := mkFlags {
  fl_values : gmap string string; fl_kubeconfigPath : string; fl_standalone : bool; fl_staticToken : string }.
Definition fl (flags : Flags) (name : string) : string := default "" (fl_values flags !! name).
(** The flag, or else the environment if it is not empty, or else the default. *)
Definition flag_value (passed : gmap string string) (getenv : string → string) (cfg : flagConfig) : string :=
  match passed !! flagName cfg with
  | Some v => v
  | None => if String.eqb (getenv (envName cfg)) "" then defaultVal cfg else getenv (envName cfg)
  end.
Definition parseFlags (passed : gmap string string) (kubeconfigPath staticToken : string) (standalone : bool) (getenv : string → string) : outcome Flags :=
  let values := list_to_map ((λ cfg, (flagName cfg, flag_value passed getenv cfg)) <$> configs) in
  let staticToken := if String.eqb staticToken "" then getenv "SLURM_EXPORTER_TOKEN" else staticToken in
  let flags := mkFlags values kubeconfigPath standalone staticToken in
  if String.eqb (fl flags "cluster-name") "" then Err (ErrMsg "--cluster-name (or SLURM_EXPORTER_CLUSTER_NAME) is required") else Ok flags.
Lemma parseFlags_values passed kubeconfigPath staticToken standalone getenv flags cfg :
  parseFlags passed kubeconfigPath staticToken standalone getenv = Ok flags → cfg ∈ configs → fl flags (flagName cfg) = flag_value passed getenv cfg.
Proof.
  unfold parseFlags. cbv zeta. set (flags' := mkFlags _ _ _ _). destruct (String.eqb (fl flags' "cluster-name") ""); [done|]. intros Hf Hcfg.
  assert (flags = flags') as -> by congruence. unfold fl, flags'. cbn [fl_values]. set (l := (λ cfg, (flagName cfg, flag_value passed getenv cfg)) <$> configs).
  enough ((list_to_map l : gmap string string) !! flagName cfg = Some (flag_value passed getenv cfg)) as E by by rewrite E.
  apply elem_of_list_to_map_1; [|by apply (list_elem_of_fmap_2 (λ cfg, (flagName cfg, flag_value passed getenv cfg)))].
  unfold l. rewrite <-list_fmap_compose. apply (bool_decide_unpack (NoDup (flagName <$> configs))). by vm_compute.
Qed.
Lemma parseFlags_named passed kubeconfigPath staticToken standalone getenv flags :
  parseFlags passed kubeconfigPath staticToken standalone getenv = Ok flags → fl flags "cluster-name" ≠ "".
Proof.
  unfold parseFlags. cbv zeta. set (flags' := mkFlags _ _ _ _). destruct (String.eqb_spec (fl flags' "cluster-name") "") as [|H]; [done|]. by intros [= <-].
Qed.

Section options.
  Context (model_ParseDuration : string → outcome Z).
Definition parseDuration (s : string) : outcome Z :=
  match model_ParseDuration s with
  | Err promErr => match ParseDuration s with Ok gd => Ok gd | _ => Err promErr end
  | d => d
  end.
Definition parseMaxCollectorInflight (s : string) : outcome Z :=
  match Atoi (TrimSpace s) with
  | None => Err (ErrMsg "strconv.Atoi")
  | Some value => if (value <? 1)%Z then Err (ErrMsg "must be > 0") else Ok value
  end.
(** The client subtracts the lookback from the clock and sends whole seconds; with a clock in seconds, as [SlurmJob] has it, that is the lookback rounded up. *)
Definition lookback_seconds (lookback : Z) : Z := (- ((- lookback) `div` second))%Z.
Definition buildJobListParams (flags : Flags) : outcome ListJobsParams :=
  let rawSource := TrimSpace (ToLower (fl flags "job-source")) in
  let source := if String.eqb rawSource "" then "controller" else rawSource in
  if negb (String.eqb source "controller" || String.eqb source "accounting") then Err (ErrMsg "unsupported job source")
  else
    let? lookback :=
      if String.eqb source "accounting" then
        if String.eqb (fl flags "accounting-jobs-lookback") "" then Err (ErrMsg "--accounting-jobs-lookback is required when --job-source=accounting")
        else
          let? lookback := wrap_err "parse --accounting-jobs-lookback" (parseDuration (fl flags "accounting-jobs-lookback")) in
          if (lookback <=? 0)%Z then Err (ErrMsg "--accounting-jobs-lookback must be > 0 when --job-source=accounting") else Ok lookback
      else Ok 0%Z in
    Ok (mkParams source (fl flags "cluster-name") (lookback_seconds lookback)).

(** The exporter asks for its own jobs.  Options that the program accepts, whatever the parser of durations does, are options with which the client of the Slurm API
    lists jobs: from the controller, whatever the lookback says; or from the accounting database, with a positive window and
    restricted to the cluster of the exporter. *)
Theorem exporter_lists_own_jobs (passed : gmap string string) (kubeconfigPath staticToken : string) (standalone : bool) (getenv : string → string)
    (flags : Flags) (params : ListJobsParams) :
  parseFlags passed kubeconfigPath staticToken standalone getenv = Ok flags → buildJobListParams flags = Ok params →
  (∀ ctl db now, ListJobsWithParams ctl db now params =
     if String.eqb (p_Source params) "accounting" then listAccountingJobs db now params else listControllerJobs ctl) ∧
  (p_Source params = "accounting" → (0 < p_AccountingLookback params)%Z ∧
     ∀ now, q_Cluster (accountingQuery now params) = Some (flag_value passed getenv (mkFlagConfig "cluster-name" "SLURM_EXPORTER_CLUSTER_NAME" ""))).
Proof.
  intros Hf. pose proof (parseFlags_named _ _ _ _ _ _ Hf) as Hname.
  apply (parseFlags_values _ _ _ _ _ _ (mkFlagConfig "cluster-name" "SLURM_EXPORTER_CLUSTER_NAME" "")) in Hf; [|in_list]. cbn [flagName] in Hf. rewrite <-Hf.
  unfold buildJobListParams. set (raw := TrimSpace _). set (source := if String.eqb raw "" then "controller" else raw).
  destruct (String.eqb source "controller" || String.eqb source "accounting") eqn:Hs; [|done]. cbn [negb].
  destruct (if String.eqb source "accounting" then _ else _) as [lookback|e|w] eqn:Hl; cbn [obind]; [|done..]. intros [= <-].
  cbn [p_Source p_AccountingLookback p_AccountingCluster]. split.
  - intros ctl db now. unfold ListJobsWithParams. cbn [p_Source].
    apply orb_true_iff in Hs as [->%String.eqb_eq| ->%String.eqb_eq]; done.
  - intros Ha. rewrite Ha in Hl. rewrite String.eqb_refl in Hl. destruct (String.eqb (fl flags "accounting-jobs-lookback") ""); [done|].
    destruct (wrap_err _ _) as [l|e|w]; cbn [obind] in Hl; [|done..].
    destruct (Z.leb_spec l 0); [done|]. injection Hl as ->.
    split; [unfold lookback_seconds, second; pose proof (Z.div_lt_upper_bound (- lookback) 1000000000 0); lia|]. intros now. unfold accountingQuery. cbn [q_Cluster p_AccountingCluster].
    by destruct (String.eqb_spec (fl flags "cluster-name") "").
Qed.
End options.

(** *** The token issuer
    The three kinds of issuers behind the interface of the client. *)
Section issuers.
  Context `{ExpiringCache} (SignedString : TokenClaims → string → outcome string).
Inductive exporter_issuer := JwtIssuer (t : Token) | ScontrolIssuer (s : StandaloneTokenIssuer) | StaticIssuer (tok : string).
Definition selectTokenIssuer (flags : Flags) (ctrlClient : bool) (slurmClusterID : string * string) : option exporter_issuer :=
  if ctrlClient then Some (JwtIssuer (WithRegistry (Build NewTokenRegistry) (For slurmClusterID "root" (NewToken ctrlClient))))
  else if fl_standalone flags then
    let standaloneIssuer := WithScontrolPath (fl flags "scontrol-path") (NewStandaloneTokenIssuer slurmClusterID "root") in
    Some (ScontrolIssuer match ParseDuration (fl flags "key-rotation-interval") with
                         | Ok rotationInterval => WithRotationInterval rotationInterval standaloneIssuer
                         | _ => standaloneIssuer
                         end)
  else if String.eqb (fl_staticToken flags) "" then None else Some (StaticIssuer (fl_staticToken flags)).

(** Calls one after the other, each as [standalone_fits] asks. *)
Fixpoint runs_fit (slurm_valid : string → Z → Prop) (interval now : Z) (es : list StandaloneEnv) : Prop :=
  match es with [] => True | e :: es => standalone_fits slurm_valid interval now e ∧ runs_fit slurm_valid interval (se_done e) es end.
(** The exporter outside of Kubernetes sends valid tokens: with a rotation interval of a whole number of some unit, at least a second, however it was set (by the flag, by
    the environment or by default), every request of the client carries a token that Slurm still takes. *)
Theorem standalone_exporter_authenticated (passed : gmap string string) (kubeconfigPath staticToken : string) (getenv : string → string) (flags : Flags)
    (n unit : Z) (u : string) (clusterID : string * string) (server : string) (slurm_valid : string → Z → Prop) (now : Z) (es : list StandaloneEnv) :
  parseFlags passed kubeconfigPath staticToken true getenv = Ok flags →
  flag_value passed getenv (mkFlagConfig "key-rotation-interval" "SLURM_EXPORTER_KEY_ROTATION_INTERVAL" "30m") = Itoa n +:+ u →
  (u, unit) ∈ unitMap → (0 ≤ n)%Z → (second ≤ n * unit ≤ max_int 64)%Z → runs_fit slurm_valid (n * unit) now es →
  ∃ s, selectTokenIssuer flags false clusterID = Some (ScontrolIssuer s) ∧
    Forall2 (λ e o, ∀ h, o = Ok h → ∃ token till, h !! headerSlurmUserToken = Some token ∧ slurm_valid token till ∧ (se_lookup e < till)%Z)
      es (requests es (mkClient server (Some s))).
Proof.
  intros Hf Hv Hu Hn [HR Hmax] Hfit.
  pose proof (parseFlags_values _ _ _ _ _ _ (mkFlagConfig "key-rotation-interval" "SLURM_EXPORTER_KEY_ROTATION_INTERVAL" "30m") Hf ltac:(in_list)) as Hi.
  cbn [flagName] in Hi. rewrite Hv in Hi. assert (fl_standalone flags = true) as Hs.
  { revert Hf. unfold parseFlags. cbv zeta. destruct (String.eqb (fl _ "cluster-name") ""); [done|]. by intros [= <-]. }
  unfold selectTokenIssuer. rewrite Hs, Hi, (ParseDuration_whole n unit u) by done. eexists. split; [done|].
  eapply Forall2_impl; [apply (requests_proper (H0 := standalone_issuer_spec slurm_valid (n * unit) HR) now)|].
  - by split.
  - revert now Hfit. induction es as [|e es IH]; intros now; [done|]. intros [Hfe Hes]. split; [exact Hfe|]. by apply IH.
  - intros e o Ho h Hh. destruct (Ho h Hh) as (token & Ht & till & Htill & Hlt). by exists token, till.
Qed.
End issuers.
(** With an interval of less than half a minute no token is kept: every request runs scontrol. *)
Example short_rotation_uncached :
  ∃ token s, refreshToken 0 second ex_exec (WithRotationInterval (10 * second) (NewStandaloneTokenIssuer ("ns", "cl") "root")) = (Ok token, s) ∧
    valid_token second s = None.
Proof. by do 2 eexists. Qed.
